(* ===== verification/_CoqProject ===== *)
-Q . S2P
Prelude.v
Ata.v
Password.v
ApaState.v
ApaCache.v
ApaFacts.v
ApaRing.v
ApaInv.v
ApaFlush.v
Crash.v
ApaCrash.v
Scenario.v
AtaProps.v
ApaProps.v
ApaPart.v
ApaTable.v
ApaTableOps.v
ApaChain.v
ApaSplit.v
ApaInsert.v
ApaWalk.v
Hdd.v
HddFio.v
HddScenario.v
HddProps.v
Frame.v
HddLock.v
Ends.v
SizeProps.v
ApaAppend.v
ApaCreate.v
PartProps.v
InputProps.v
PfsState.v
PfsCache.v
PfsBitmap.v
PfsInode.v
PfsDir.v
PfsSuper.v
PfsHdd.v
PfsScenario.v
PfsBits.v
PfsProps.v
PfsSizeProps.v
PasswordProps.v
PfsDents.v
PfsDirProps.v
Pfs.v
PfsFio.v
PfsOps.v
PfsIoctl.v
PfsRam.v
PfsSector.v
PfsSectorProps.v
Ioman.v
IomanProps.v
IoHdd.v
PfsHddStore.v
Stack.v
IoHddProps.v
PfsFioProps.v
PfsFrame.v
PfsMod.v
PfsInv.v
PfsCalls.v
PfsReach.v
Alloc.v
AllocInv.v
AllocSpec.v
AllocMove.v
AllocRefine.v
AllocProps.v
McUtil.v
Mc.v
McCache.v
McFat.v
McFile.v
McChains.v
McCrash.v
McProps.v
