(* ===== verification/Prelude.v ===== *)
(** * A verification of the storage modules of ps2sdk

    ** The program

    The I/O processor (IOP) of the console runs loadable modules.  Those for
    the hard disk form a stack, and every layer is modelled here from its C
    source (paths below are under src/iop/); the memory card manager is a file
    system of its own, from the bits of a page up to files:

<<
      applications                   open("pfs0:/a"), mount, ...
      iomanX     system/iomanx       devices, descriptors, names
      pfs        hdd/pfs             file slots, mounts, device table
      libpfs     hdd/libpfs          cache, log, bitmaps, inodes, directories
        | ioctl2 of an open partition, through iomanX
      hdd        hdd/apa             partitions as files, format, devctl
      libapa     hdd/libapa          header cache, journal, partition ring
      atad       dev9/atad           sectors moved by DMA commands, retries
      the drive                      hardware: a parameter with any faults
      alloc      system/alloc        the heap the modules take memory from
      mcman      memorycard/mcman    pages with a code, clusters, table, files
        the bus                      a parameter: reads, writes, erases
>>

    ** Files

    Model files translate code; the others state and prove.

    - Prelude: C integers, word buffers, the effect monad [M], its [wp],
      tactics and hint databases.
    - Ata (model, dev9/atad/src/ps2atad.c: [ata_device_sector_io],
      [ata_device_flush_cache]); AtaProps.
    - ApaState, ApaCache, ApaPart, Password (models, libapa/src/: cache.c,
      journal.c, misc.c | apa.c, free.c | password.c).  ApaFacts (equations of
      the primitive steps), ApaRing and ApaInv (free ring, cache invariant),
      ApaFlush (a flush as a trace of media operations), Crash (images after a
      power loss), ApaCrash, ApaProps, PasswordProps.
    - Hdd, HddFio (models, apa/src/hdd.c and hdd_fio.c); Scenario and
      HddScenario (a drive formatted by running the code); HddProps, Frame
      (what operations leave alone), HddLock (reachable states), Ends (what
      always ends), SizeProps, InputProps.
    - The ring of partitions: ApaTable and ApaTableOps (the headers as the
      driver sees them, in buffers and on the media, with a rule for each cache
      operation), ApaChain (the ring they make), ApaSplit, ApaInsert, ApaAppend
      (a block halved, a partition put into one, or after the last), ApaWalk,
      ApaCreate, PartProps.
    - PfsState, PfsCache, PfsBitmap, PfsInode, PfsDir, PfsSuper, PfsHdd
      (models, libpfs/src/: libpfs.h | cache.c, journal.c, misc.c, super.c |
      bitmap.c | block.c, blockWrite.c, inode.c | dir.c | superWrite.c | the
      call table of misc.c).  PfsScenario (a device in memory), PfsBits,
      PfsProps, PfsSizeProps, PfsDents, PfsDirProps.
    - Pfs, PfsFio, PfsOps, PfsIoctl (models, pfs/src/: pfs.c and pfs.h | the
      routines of pfs_fio.c | its entry points | pfs_fioctl.c).  PfsRam (a
      session), PfsSector and PfsSectorProps (parts of a sector over the
      interface [SectorStore]), PfsFioProps, PfsFrame and PfsMod (frames),
      PfsInv, PfsCalls, PfsReach (the invariant of the module).
    - Ioman (model, system/iomanx/src/iomanX.c, Module IomanX), IomanProps
      (descriptors, interface [FileDevice]), IoHdd (the table [hddOps] as a
      device, and iomanX as what pfs calls), IoHddProps.
    - PfsHddStore (the driver, iomanX and atad keep [SectorStore]), Stack (the
      interface theorem at the real stack, and a session on it).
    - Alloc (model, system/alloc/src/alloc.c); AllocInv, AllocSpec, AllocMove,
      AllocRefine, AllocProps.
    - McUtil, Mc, McFile (models, memorycard/mcman/src/: the code and the string
      routines of main.c | its pages, cluster cache, write-back and table, and
      [mcman_eraseblock] of mcsio2.c | its directories and chains, and the
      operations of ps2mc_fio.c).  McCache (the code of 128 bytes; the cache:
      what a cluster looks like, [view], over cards that can be read,
      [CardPages]; a page with a wrong bit, a read that fails), McFat (the table
      as an array, for any [policy] of what may wait in the cache; chains, free
      entries), McChains (reading and releasing files), McCrash (a card that
      loses power, [flash]; writing back through the backup blocks, and the
      recovery when the card is next looked at), McProps.

    ** State and operations

    A module's state is a record with a field per global of the C code
    ([world] for libapa and hdd, [pfs_st] and [pfs_world] for pfs, [iox] for
    iomanX, [heap_st] for alloc, [mcst] for mcman).  On-disk structures are lists of 32-bit
    words and their fields accessors at the C offsets; pointers into a static
    array are indices, so that aliasing is that of the code.  An operation is
    a function in [M S]: it ends with [Done], with [Undef] (an access C does
    not define) or with [NoFuel].  Interfaces between modules are classes:
    [BlockDevice] and [BlockFiles] (what pfs calls), [SectorStore] (what it may
    assume of one-sector transfers), [FileDevice] (what iomanX may assume of a
    device); each has an instance proved from the layer below.  [CardIO] is
    the bus of the memory cards, [CardPages] a card all of whose pages can be
    read, with as instances a card in memory and one whose power ends after a
    number of writes and erases.

    ** What the theorems show

    - Journal and header cache: C1 a flush is atomic under power loss at any
      point, and during recovery; C2 it is durable when it returns; C3, C5
      the cache invariant and the order of its buffers.
    - Sectors: C8 the driver moves what was asked however it splits it; C9 it
      touches nothing else, with any faults (Ata.[sector_io_moved]: success
      means that everything was moved, whatever faults the drive reported).
    - Partitions: C11 opening and creating one implements an abstract
      allocation of blocks on the ring the media holds, C25 looking one up ends
      at it; C10, C12 transfers move exactly the sectors asked for, in the
      partition, or are refused; C23 the lock is free in every reachable state;
      C27 no description overruns the arrays it is parsed into, C28 printed ones
      are read back; C29 passwords.
    - File system: C13, C15 to C17 zone bitmaps (and a search that never ends);
      C18 to C20 directory blocks as finite maps, C21 the walk over one of any
      bytes, and exactly when it runs over its end; C31 sizes.
    - pfs module: C36 an invariant of every state the device table can reach;
      C37 part of a sector written through the whole stack down to the drive;
      C38 a defect: a sector written whole while a slot holds it.
    - iomanX: C40 the file table as a map from descriptors to devices, with
      what a device may do to it when it mounts.
    - Heap: C32 the operations implement an abstract heap; C33 clients are
      safe; C34 when malloc fails, and what it leaves then; C35 a lock lost.
    - Memory cards: C30 what the code of a page decides, and C22 what becomes
      of a wrong bit; C4 a cluster through the cache, the entry that makes room
      written back where it was changed; C6 the table through the
      cache is an array; C7 a block of metadata is written back atomically
      under power loss at any point, and during recovery; C14 the search for
      free clusters; C26 the place in a
      chain; C24 reading a file; C39 what releasing a chain frees, and what it
      does to the search.
    The other theorems of the Props files (capacity of the header cache, headers
    and zones round trip, damaged headers refused, paths, positions, padding, zone sizes, attributes)
    are kept proved beside them.

    ** Bounds and environment

    Loops that walk the disk take a [fuel], since a damaged disk can make them
    endless; theorems either hold for every fuel or give one that is enough
    (C7, C11, C14, C24 to C26, C39, and [heap_fuel], one more than the headers that
    fit the heap).
    Counted loops need none.  Parameters of the model: the faults of the drive
    and what it holds, the clock, the results of memory allocation, the
    options given to a module ([startEnv], [allocEnv]), the contents of stack
    objects the code does not set ([junk]), and the device structures of other
    modules ([devices]).

    ** Not modelled

    Messages; the registers, identification and security commands of atad and
    the rest of dev9 (hardware); the hook of iomanX into the older ioman (it
    patches import tables); of mcman the packets of mcsio2.c, the operations of
    PS1 cards, detection, formatting, the replacement of bad blocks after they
    were put aside, [mcman_getdir2], [mcman_chdir], [mcman_setinfo2] and the
    exported wrappers; network, USB, sound, iLink and the main processor's
    libraries, which are other subsystems; vendored code (lwIP, zlib); samples
    and tools.  Interrupts and threads: every operation
    runs alone, as the semaphores of the modules make it.

    ** Plan

    Deletion from the ring of partitions, the cache ring of libpfs, pfs as a
    device of iomanX, transfers of whole sectors, the log of libpfs under
    power loss, writing a card's files.

    ** This file

    Shared by every file of the library:
    - the machine integers of the IOP (32-bit MIPS, little endian): [u8],
      [u16], [u32] and [s32] write the wrap-around of a C conversion out;
    - byte and half-word access into a buffer of 32-bit words, which is how a
      sector, an [apa_header_t] or a [pfs_inode_t] is held in memory;
    - the monad [M S] in which stateful C code is written: a computation maps
      a state to [Done], to [Undef] (undefined behaviour: a NULL or dangling
      dereference) or to [NoFuel] (a loop that exhausted its bound), with its
      weakest precondition [wp] and the rules for it;
    - the tactics and the hint databases of the development. *)

From stdpp Require Import base numbers list gmap.
From Stdlib Require Import ZArith Lia.

Open Scope Z_scope.

(** ** C integers *)

Definition u8 (x : Z) : Z := x mod 2 ^ 8.
Definition u16 (x : Z) : Z := x mod 2 ^ 16.
Definition u32 (x : Z) : Z := x mod 2 ^ 32.
Definition u64 (x : Z) : Z := x mod 2 ^ 64.

(** The two's-complement reading of the low 32 bits: conversion to [int]. *)
Definition s32 (x : Z) : Z :=
  let y := u32 x in if y <? 2 ^ 31 then y else y - 2 ^ 32.

Definition is_u32 (x : Z) : Prop := 0 <= x < 2 ^ 32.

Lemma u32_small x : is_u32 x -> u32 x = x.
Proof. intros H. apply Z.mod_small. exact H. Qed.

Lemma u32_range x : is_u32 (u32 x).
Proof. apply Z.mod_pos_bound. lia. Qed.

Lemma u32_idem x : u32 (u32 x) = u32 x.
Proof. apply u32_small, u32_range. Qed.

Lemma u16_range x : 0 <= u16 x < 2 ^ 16.
Proof. apply Z.mod_pos_bound. lia. Qed.

Lemma u16_small x : 0 <= x < 2 ^ 16 -> u16 x = x.
Proof. apply Z.mod_small. Qed.

Lemma s32_small x : 0 <= x < 2 ^ 31 -> s32 x = x.
Proof.
  intros H. unfold s32. rewrite u32_small by (unfold is_u32; lia).
  destruct (Z.ltb_spec x (2 ^ 31)); lia.
Qed.

(** C truth values. *)
Definition nz (x : Z) : bool := negb (x =? 0).
Definition b2z (b : bool) : Z := if b then 1 else 0.

Lemma nz_true x : nz x = true <-> x <> 0.
Proof. unfold nz. destruct (Z.eqb_spec x 0); simpl; intuition congruence. Qed.

Lemma nz_false x : nz x = false <-> x = 0.
Proof. unfold nz. destruct (Z.eqb_spec x 0); simpl; intuition congruence. Qed.

(** [errno.h] of common/include, the codes the drivers return negated. *)
Definition ENOENT : Z := 2.
Definition EIO : Z := 5.
Definition ENXIO : Z := 6.
Definition ENOMEM : Z := 12.
Definition EACCES : Z := 13.
Definition EBUSY : Z := 16.
Definition EEXIST : Z := 17.
Definition ENODEV : Z := 19.
Definition ENOTDIR : Z := 20.
Definition EINVAL : Z := 22.
Definition EMFILE : Z := 24.
Definition EFBIG : Z := 27.
Definition ENOSPC : Z := 28.

(** ** Word buffers

    A C object of [4*n] bytes is a list of [n] words; a word index outside
    the list reads as 0 and writes nothing, and the component that uses a
    buffer keeps its length as part of its invariant. *)

Abbreviation buf := (list Z).

Definition zeros (n : nat) : buf := replicate n 0.

Definition get32 (b : buf) (i : nat) : Z := nth i b 0.
Definition set32 (i : nat) (v : Z) (b : buf) : buf := <[i := u32 v]> b.

(** Half-word [h] (0 = low) of word [i]: a [u16] field. *)
Definition get16 (b : buf) (i : nat) (h : Z) : Z :=
  u16 (Z.shiftr (get32 b i) (16 * h)).
Definition set16 (i : nat) (h v : Z) (b : buf) : buf :=
  let w := get32 b i in
  let m := Z.shiftl 65535 (16 * h) in
  set32 i (Z.lor (Z.land w (Z.lxor 4294967295 m)) (Z.shiftl (u16 v) (16 * h))) b.

(** Byte [o] of the object: a [char] field, little endian. *)
Definition get8 (b : buf) (o : nat) : Z :=
  u8 (Z.shiftr (get32 b (o / 4)) (8 * Z.of_nat (o mod 4))).
Definition set8 (o : nat) (v : Z) (b : buf) : buf :=
  let i := (o / 4)%nat in
  let sh := 8 * Z.of_nat (o mod 4) in
  set32 i (Z.lor (Z.land (get32 b i) (Z.lxor 4294967295 (Z.shiftl 255 sh)))
                 (Z.shiftl (u8 v) sh)) b.

(** [n] words from word [i]: what a [memcpy] out of the object copies. *)
Definition words_at (b : buf) (i n : nat) : buf := take n (drop i b).

(** [memcpy] of the words [ws] to word [i]. *)
Definition put_words (i : nat) (ws : buf) (b : buf) : buf :=
  take i b ++ ws ++ drop (i + length ws) b.

(** The bytes of a word list and the words of a byte list (little endian). *)
Definition bytes_of_word (w : Z) : list Z :=
  [u8 w; u8 (Z.shiftr w 8); u8 (Z.shiftr w 16); u8 (Z.shiftr w 24)].

Fixpoint bytes_of_words (ws : buf) : list Z :=
  match ws with
  | [] => []
  | w :: ws' => bytes_of_word w ++ bytes_of_words ws'
  end.

Definition word_of_bytes (a b c d : Z) : Z :=
  u8 a + u8 b * 2 ^ 8 + u8 c * 2 ^ 16 + u8 d * 2 ^ 24.

Fixpoint words_of_bytes (bs : list Z) : buf :=
  match bs with
  | a :: b :: c :: d :: bs' => word_of_bytes a b c d :: words_of_bytes bs'
  | _ => []
  end.

Lemma length_set32 i v b : length (set32 i v b) = length b.
Proof. apply length_insert. Qed.

Lemma length_set16 i h v b : length (set16 i h v b) = length b.
Proof. apply length_set32. Qed.

Lemma length_put_words i ws b :
  (i + length ws <= length b)%nat -> length (put_words i ws b) = length b.
Proof.
  intros H. unfold put_words. rewrite !length_app, length_take, length_drop. lia.
Qed.

Lemma get32_lookup b i : get32 b i = default 0 (b !! i).
Proof. unfold get32. rewrite nth_lookup. reflexivity. Qed.

Lemma get32_set32_eq i v b : (i < length b)%nat -> get32 (set32 i v b) i = u32 v.
Proof.
  intros H. rewrite get32_lookup. unfold set32.
  rewrite list_lookup_insert_eq by exact H. reflexivity.
Qed.

Lemma get32_set32_ne i j v b : i <> j -> get32 (set32 i v b) j = get32 b j.
Proof.
  intros H. rewrite !get32_lookup. unfold set32.
  rewrite list_lookup_insert_ne by exact H. reflexivity.
Qed.

Lemma get32_set16_ne i j h v b : i <> j -> get32 (set16 i h v b) j = get32 b j.
Proof. intros H. unfold set16. apply get32_set32_ne, H. Qed.

Lemma get32_put_words_ne i ws b j :
  (i + length ws <= length b)%nat ->
  (j < i \/ i + length ws <= j)%nat -> get32 (put_words i ws b) j = get32 b j.
Proof.
  intros Hl Hj. rewrite !get32_lookup. unfold put_words. f_equal.
  destruct (decide (j < i)%nat) as [Hlt | Hge].
  - rewrite lookup_app_l by (rewrite length_take; lia).
    apply lookup_take_lt. lia.
  - rewrite lookup_app_r by (rewrite length_take; lia).
    rewrite length_take, lookup_app_r by lia.
    rewrite lookup_drop. f_equal. lia.
Qed.

Lemma get32_zeros n i : get32 (zeros n) i = 0.
Proof.
  unfold get32, zeros. destruct (decide (i < n)%nat) as [H | H].
  - rewrite nth_lookup, lookup_replicate_2 by exact H. reflexivity.
  - rewrite nth_overflow; [reflexivity | rewrite length_replicate; lia].
Qed.

Lemma length_zeros n : length (zeros n) = n.
Proof. apply length_replicate. Qed.

(** All words of a buffer are 32-bit values. *)
Definition words_ok (b : buf) : Prop := Forall is_u32 b.

Lemma words_ok_get32 b i : words_ok b -> is_u32 (get32 b i).
Proof.
  intros H. rewrite get32_lookup. destruct (b !! i) as [x|] eqn:E; simpl.
  - exact (proj1 (Forall_lookup _ _) H i x E).
  - unfold is_u32. lia.
Qed.

Lemma words_ok_set32 i v b : words_ok b -> words_ok (set32 i v b).
Proof. intros H. apply Forall_insert; [exact H | apply u32_range]. Qed.

Lemma words_ok_zeros n : words_ok (zeros n).
Proof. apply Forall_replicate. unfold is_u32. lia. Qed.

Definition words_okb (b : buf) : bool := forallb (fun x => (0 <=? x) && (x <? 2 ^ 32)) b.

Lemma words_okb_ok b : words_okb b = true -> words_ok b.
Proof.
  unfold words_okb, words_ok. rewrite forallb_forall, Forall_forall. intros H x Hx.
  apply list_elem_of_In, H in Hx. apply andb_prop in Hx as [H1%Z.leb_le H2%Z.ltb_lt].
  by split.
Qed.

Lemma words_of_bytes_of_word w ws :
  is_u32 w -> words_of_bytes (bytes_of_word w ++ ws) = w :: words_of_bytes ws.
Proof.
  intros H. unfold bytes_of_word. simpl. f_equal. unfold word_of_bytes, u8.
  rewrite !Z.shiftr_div_pow2 by lia. rewrite !Z.mod_mod by lia.
  unfold is_u32 in H. Z.div_mod_to_equations. lia.
Qed.

Lemma words_of_bytes_of_words ws :
  words_ok ws -> words_of_bytes (bytes_of_words ws) = ws.
Proof.
  induction 1 as [|w ws Hw _ IH]; [reflexivity|].
  cbn [bytes_of_words]. rewrite words_of_bytes_of_word by exact Hw. congruence.
Qed.

(** Bytes, and both ways between bytes and words. *)
Definition bytes_ok (l : list Z) : Prop := Forall (fun x => 0 <= x < 256) l.

Lemma bytes_of_word_of_bytes a b c d : 0 <= a < 256 -> 0 <= b < 256 -> 0 <= c < 256 -> 0 <= d < 256 ->
  bytes_of_word (word_of_bytes a b c d) = [a; b; c; d].
Proof.
  intros. unfold bytes_of_word, word_of_bytes, u8. rewrite !Z.shiftr_div_pow2 by lia.
  repeat f_equal; Z.div_mod_to_equations; lia.
Qed.

Lemma bytes_of_words_of_bytes (k : nat) : forall l, length l = (4 * k)%nat -> bytes_ok l ->
  bytes_of_words (words_of_bytes l) = l.
Proof.
  induction k as [|k IH]; intros l Hl Hb.
  - by destruct l.
  - destruct l as [|a [|b [|c [|d l]]]]; simpl in Hl; try lia. repeat (inversion_clear Hb as [|? ? ? Hb']; rename Hb' into Hb).
    cbn [words_of_bytes bytes_of_words]. rewrite bytes_of_word_of_bytes by done. simpl. by rewrite IH by (done || lia).
Qed.

Lemma words_of_bytes_ok (k : nat) : forall l, length l = (4 * k)%nat ->
  length (words_of_bytes l) = k /\ words_ok (words_of_bytes l).
Proof.
  induction k as [|k IH]; intros l Hl.
  - destruct l; [|done]. by split; [|constructor].
  - destruct l as [|a [|b [|c [|d l]]]]; simpl in Hl; try lia. destruct (IH l ltac:(lia)) as [H1 H2].
    cbn [words_of_bytes]. split; [simpl; by rewrite H1|]. constructor; [|done]. unfold word_of_bytes, is_u32, u8.
    Z.div_mod_to_equations. lia.
Qed.

Lemma bytes_of_words_ok l : length (bytes_of_words l) = (4 * length l)%nat /\ bytes_ok (bytes_of_words l).
Proof.
  induction l as [|w l [IH1 IH2]]; [by split; [|constructor]|]. cbn [bytes_of_words]. split.
  - rewrite length_app, IH1. simpl. lia.
  - apply Forall_app. split; [|done]. unfold bytes_of_word, u8. repeat constructor; apply Z.mod_pos_bound; lia.
Qed.

(** A half-word field after a store to it, and after one to its neighbour. *)
Lemma get16_set16 i h v b : (i < length b)%nat -> h = 0 \/ h = 1 -> get16 (set16 i h v b) i h = u16 v.
Proof.
  intros Hi Hh. unfold get16, set16. rewrite get32_set32_eq by done. unfold u16, u32.
  apply Z.bits_inj'. intros k Hk. destruct (Z.ltb_spec k 16) as [Hk16|Hk16].
  - rewrite !Z.mod_pow2_bits_low, Z.shiftr_spec, Z.mod_pow2_bits_low, Z.lor_spec, Z.land_spec, Z.lxor_spec, !Z.shiftl_spec by (destruct Hh; subst; lia).
    replace (k + 16 * h - 16 * h) with k by lia. rewrite Z.mod_pow2_bits_low by lia. change 65535 with (Z.ones 16).
    rewrite Z.ones_spec_low by lia. change 4294967295 with (Z.ones 32). rewrite Z.ones_spec_low by (destruct Hh; subst; lia).
    simpl. by rewrite andb_false_r.
  - by rewrite !Z.mod_pow2_bits_high by lia.
Qed.

Lemma get16_set16_other i h h' v b : (i < length b)%nat -> h = 0 /\ h' = 1 \/ h = 1 /\ h' = 0 -> get16 (set16 i h v b) i h' = get16 b i h'.
Proof.
  intros Hi Hh. unfold get16, set16. rewrite get32_set32_eq by done. unfold u16, u32.
  apply Z.bits_inj'. intros k Hk. destruct (Z.ltb_spec k 16) as [Hk16|Hk16]; [|by rewrite !Z.mod_pow2_bits_high by lia].
  rewrite !Z.mod_pow2_bits_low, !Z.shiftr_spec, Z.mod_pow2_bits_low, Z.lor_spec, Z.land_spec, Z.lxor_spec by lia.
  change 4294967295 with (Z.ones 32). rewrite Z.ones_spec_low by lia.
  destruct Hh as [[-> ->]|[-> ->]].
  - rewrite !Z.shiftl_spec by lia. change 65535 with (Z.ones 16). rewrite Z.ones_spec_high, Z.mod_pow2_bits_high by lia.
    by rewrite orb_false_r, andb_true_r.
  - rewrite !Z.shiftl_spec_low by lia. by rewrite orb_false_r, andb_true_r.
Qed.

Create HintDb buf_db.
Create Rewrite HintDb buf_db.
#[export] Hint Rewrite length_set32 length_set16 length_zeros get32_zeros : buf_db.
#[export] Hint Rewrite get32_set32_eq get32_set32_ne get32_set16_ne using (autorewrite with buf_db; lia) : buf_db.
#[export] Hint Resolve words_ok_get32 words_ok_set32 words_ok_zeros u32_range : buf_db.

(** ** Bit-level equations

    [zbits] proves an equation between bit expressions by comparing bits. *)

Lemma testbit_ones_ltb k i : 0 <= k -> Z.testbit (Z.ones k) i = (0 <=? i) && (i <? k).
Proof. intros H. apply Z.testbit_ones, H. Qed.

Create Rewrite HintDb zbits_db.
#[export] Hint Rewrite Z.lor_spec Z.land_spec Z.lxor_spec Bool.andb_true_r
  Bool.andb_false_r Bool.orb_false_r Bool.orb_false_l Bool.andb_true_l
  Bool.andb_false_l Bool.orb_true_r Bool.orb_true_l : zbits_db.
#[export] Hint Rewrite Z.shiftl_spec Z.shiftr_spec testbit_ones_ltb using lia : zbits_db.

Ltac zbits_split :=
  match goal with
  | |- context [Z.testbit ?a ?i] => rewrite (Z.testbit_neg_r a i) by lia
  | |- context [Z.testbit (Z.shiftr ?a ?k) ?i] =>
      destruct (Z.ltb_spec i 0);
      [rewrite (Z.testbit_neg_r _ i) by lia | rewrite (Z.shiftr_spec a k i) by lia]
  | |- context [Z.testbit (Z.shiftl ?a ?k) ?i] =>
      destruct (Z.ltb_spec i 0);
      [rewrite (Z.testbit_neg_r _ i) by lia | rewrite (Z.shiftl_spec a k i) by lia]
  | |- context [?a <? ?b] => destruct (Z.ltb_spec a b)
  | |- context [?a <=? ?b] => destruct (Z.leb_spec a b)
  end.

Ltac zbits_fin :=
  first [ reflexivity
        | exfalso; lia
        | rewrite Z.testbit_neg_r by lia; reflexivity
        | f_equal; lia
        | symmetry; rewrite Z.testbit_neg_r by lia; reflexivity ].

Ltac zbits :=
  apply Z.bits_inj'; intros ?i ?Hi;
  repeat (autorewrite with zbits_db; try zbits_fin; try zbits_split);
  autorewrite with zbits_db; try zbits_fin.

Lemma land_ones_small x k : 0 <= k -> 0 <= x < 2 ^ k -> Z.land x (Z.ones k) = x.
Proof. intros Hk H. rewrite Z.land_ones by lia. apply Z.mod_small, H. Qed.

(** A 32-bit word has no bits above 31. *)
Lemma is_u32_bits w : (forall k, 32 <= k -> Z.testbit w k = false) -> is_u32 w.
Proof.
  intros H. replace w with (u32 w); [apply u32_range|].
  apply Z.bits_inj'. intros k Hk. unfold u32.
  destruct (Z.ltb_spec k 32).
  - by rewrite Z.mod_pow2_bits_low by lia.
  - rewrite Z.mod_pow2_bits_high by lia. symmetry. apply H. lia.
Qed.

Lemma is_u32_high w k : is_u32 w -> 32 <= k -> Z.testbit w k = false.
Proof.
  intros H Hk. rewrite <- (u32_small w H). unfold u32. apply Z.mod_pow2_bits_high. lia.
Qed.

Lemma testbit_one k i : 0 <= k -> Z.testbit (Z.shiftl 1 k) i = (i =? k).
Proof.
  intros Hk. rewrite Z.shiftl_1_l. destruct (Z.eqb_spec i k) as [->|Hne].
  - apply Z.pow2_bits_true, Hk.
  - apply Z.pow2_bits_false. lia.
Qed.

(** ** [strtol(s, NULL, 10)] of a C string: spaces, a sign, digits; too large a
    number gives the nearest [long]. *)

Fixpoint dec_digits (acc : Z) (s : list Z) : Z :=
  match s with
  | [] => acc
  | c :: s' => if (48 <=? c) && (c <=? 57) then dec_digits (acc * 10 + (c - 48)) s' else acc
  end.
Fixpoint dec_signed (s : list Z) : Z :=
  match s with
  | 32 :: s' => dec_signed s'
  | 45 :: s' => - dec_digits 0 s'
  | 43 :: s' => dec_digits 0 s'
  | _ => dec_digits 0 s
  end.
Definition strtol10 (s : list Z) : Z := Z.max (- 2 ^ 31) (Z.min (2 ^ 31 - 1) (dec_signed s)).

(** ** The effect monad of the C code *)

Inductive outcome (S A : Type) : Type :=
| Done (a : A) (s : S)
| Undef
| NoFuel.
Arguments Done {S A} _ _.
Arguments Undef {S A}.
Arguments NoFuel {S A}.

Definition M (S A : Type) : Type := S -> outcome S A.

Section Monad.
Context {S : Type}.

Definition ret {A} (a : A) : M S A := fun s => Done a s.
Definition bind {A B} (m : M S A) (k : A -> M S B) : M S B := fun s =>
  match m s with
  | Done a s' => k a s'
  | Undef => Undef
  | NoFuel => NoFuel
  end.
Definition undef {A} : M S A := fun _ => Undef.
Definition nofuel {A} : M S A := fun _ => NoFuel.
Definition get : M S S := fun s => Done s s.
Definition gets {A} (f : S -> A) : M S A := fun s => Done (f s) s.
Definition modify (f : S -> S) : M S unit := fun s => Done tt (f s).
Definition when (b : bool) (m : M S unit) : M S unit := if b then m else ret tt.

(** [while]: the body says [inl] to go round again and [inr] to leave. *)
Fixpoint while_ {St R} (fuel : nat) (body : St -> M S (St + R)) (st : St) : M S R :=
  match fuel with
  | O => nofuel
  | Datatypes.S n =>
      bind (body st) (fun r =>
        match r with
        | inl st' => while_ n body st'
        | inr v => ret v
        end)
  end.

(** [for(i in l)]: a counted loop with no early exit. *)
Fixpoint for_ {I St} (l : list I) (body : I -> St -> M S St) (st : St) : M S St :=
  match l with
  | [] => ret st
  | i :: l' => bind (body i st) (fun st' => for_ l' body st')
  end.

(** A counted loop whose body can leave early with [inr]. *)
Fixpoint for_break {I St R} (l : list I) (body : I -> St -> M S (St + R)) (st : St)
  : M S (St + R) :=
  match l with
  | [] => ret (inl st)
  | i :: l' =>
      bind (body i st) (fun r =>
        match r with
        | inl st' => for_break l' body st'
        | inr v => ret (inr v)
        end)
  end.
End Monad.

Declare Scope c_scope.
Delimit Scope c_scope with c.
Notation "x <- m ;; k" := (bind m (fun x => k))
  (at level 90, m at next level, right associativity) : c_scope.
Notation "'let*' p := m 'in' k" := (bind m (fun x => match x with p => k end))
  (at level 10, p pattern, m at level 200, k at level 200) : c_scope.
Notation "m ;;; k" := (bind m (fun _ => k))
  (at level 90, right associativity) : c_scope.
Open Scope c_scope.

(** Indices [a .. a+n-1] of a counted loop. *)
Definition range (a : Z) (n : nat) : list Z := map (fun k => a + Z.of_nat k) (seq 0 n).

(** ** Weakest preconditions (total: no undefined behaviour, enough fuel) *)

Section WP.
Context {S : Type}.

Definition wp {A} (m : M S A) (s : S) (Q : A -> S -> Prop) : Prop :=
  match m s with
  | Done a s' => Q a s'
  | _ => False
  end.

Lemma wp_ret {A} (a : A) s (Q : A -> S -> Prop) : Q a s -> wp (ret a) s Q.
Proof. auto. Qed.

Lemma wp_bind {A B} (m : M S A) (k : A -> M S B) s Q :
  wp m s (fun a s' => wp (k a) s' Q) -> wp (bind m k) s Q.
Proof. unfold wp, bind. destruct (m s); auto. Qed.

Lemma wp_mono {A} (m : M S A) s (P Q : A -> S -> Prop) :
  wp m s P -> (forall a s', P a s' -> Q a s') -> wp m s Q.
Proof. unfold wp. destruct (m s); auto. Qed.

Lemma wp_conj {A} (m : M S A) s (P Q : A -> S -> Prop) :
  wp m s P -> wp m s Q -> wp m s (fun a s' => P a s' /\ Q a s').
Proof. unfold wp. destruct (m s); auto. Qed.

Lemma wp_Done {A} (m : M S A) s a s' (Q : A -> S -> Prop) :
  m s = Done a s' -> Q a s' -> wp m s Q.
Proof. unfold wp. intros -> H. exact H. Qed.

Lemma wp_eq {A} (m m' : M S A) s s' (Q : A -> S -> Prop) :
  m s = m' s' -> wp m' s' Q -> wp m s Q.
Proof. unfold wp. intros -> H. exact H. Qed.

Lemma wp_inv {A} (m : M S A) s (Q : A -> S -> Prop) :
  wp m s Q -> exists a s', m s = Done a s' /\ Q a s'.
Proof. unfold wp. destruct (m s) as [a s'| |]; [eauto | contradiction | contradiction]. Qed.

Lemma wp_when (b : bool) m s Q :
  (b = true -> wp m s Q) -> (b = false -> Q tt s) -> wp (when b m) s Q.
Proof. destruct b; unfold when; intros Ht Hf; [apply Ht | apply Hf]; reflexivity. Qed.

(** Total correctness of a fuelled loop: an invariant with a variant. *)
Lemma wp_while {St R} (body : St -> M S (St + R)) (I : St -> S -> Prop)
      (v : St -> S -> nat) (Q : R -> S -> Prop) fuel st s :
  (forall st s, I st s ->
     wp (body st) s (fun r s' =>
       match r with
       | inl st' => I st' s' /\ (v st' s' < v st s)%nat
       | inr x => Q x s'
       end)) ->
  I st s -> (v st s < fuel)%nat -> wp (while_ fuel body st) s Q.
Proof.
  intros Hbody. revert st s.
  induction fuel as [|n IH]; intros st s HI Hv; [lia|].
  simpl. apply wp_bind. eapply wp_mono; [apply Hbody, HI|].
  intros [st'|x] s' H; [|exact H].
  destruct H as [H1 H2]. apply IH; [exact H1 | lia].
Qed.

(** A counted loop: the invariant speaks of the indices still to run. *)
Lemma wp_for {I St} (body : I -> St -> M S St) (Inv : list I -> St -> S -> Prop) l st s :
  (forall i l' st s, Inv (i :: l') st s -> wp (body i st) s (Inv l')) ->
  Inv l st s -> wp (for_ l body st) s (Inv []).
Proof.
  intros Hbody. revert st s.
  induction l as [|i l IH]; intros st s HI; [exact HI|].
  simpl. apply wp_bind. eapply wp_mono; [apply Hbody, HI|].
  intros st' s' H. apply IH, H.
Qed.

(** A counted loop that can leave early. *)
Lemma wp_for_break {I St R} (body : I -> St -> M S (St + R)) (Inv : St -> S -> Prop)
    (Q : R -> S -> Prop) (l : list I) : forall st s,
  (forall i st s, Inv st s -> wp (body i st) s
     (fun r s' => match r with inl st' => Inv st' s' | inr x => Q x s' end)) ->
  Inv st s ->
  wp (for_break l body st) s (fun r s' => match r with inl st' => Inv st' s' | inr x => Q x s' end).
Proof.
  induction l as [|i l IH]; intros st s Hb HI; [exact HI|].
  simpl. apply wp_bind. eapply wp_mono; [apply Hb, HI|].
  intros [st'|x] s' H; [by apply IH | exact H].
Qed.

Lemma while_S {St R} n (body : St -> M S (St + R)) st s :
  while_ (Datatypes.S n) body st s =
  match body st s with
  | Done (inl st') s' => while_ n body st' s'
  | Done (inr v) s' => Done v s'
  | Undef => Undef
  | NoFuel => NoFuel
  end.
Proof. simpl. unfold bind. destruct (body st s) as [[|]| |]; reflexivity. Qed.
End WP.

Arguments while_ : simpl never.

Lemma bind_Done {S A B} (m : M S A) (k : A -> M S B) s a s' :
  m s = Done a s' -> bind m k s = k a s'.
Proof. unfold bind. intros ->. reflexivity. Qed.

Lemma bind_inv {S A B} (m : M S A) (k : A -> M S B) s b s' :
  bind m k s = Done b s' -> exists a s1, m s = Done a s1 /\ k a s1 = Done b s'.
Proof. unfold bind. destruct (m s) as [a s1| |]; [eauto|done..]. Qed.

(** [step]: run the first computation of a [bind] with the equation [H]. *)
Ltac step H := erewrite bind_Done by (eapply H; eauto).
(** [wstep H]: run it with a [wp] specification. *)
Ltac wstep H := apply wp_bind; eapply wp_mono; [eapply H; eauto |].

(** [zbool]: equations between comparisons of integers, by cases. *)
Ltac zbool :=
  repeat match goal with
  | |- context [?a <? ?b] => destruct (Z.ltb_spec a b)
  | |- context [?a <=? ?b] => destruct (Z.leb_spec a b)
  | |- context [?a =? ?b] => destruct (Z.eqb_spec a b)
  end; first [reflexivity | lia].
