(* ===== verification/Ata.v ===== *)
(** * Ata: the sector interface of the ATA driver (iop/dev9/atad)

    [ata_device_sector_io] and [ata_device_flush_cache] of ps2atad.c, over a
    model of the drive.  The drive is hardware: it decodes the task-file
    registers of a DMA command to a sector address, moves sectors, and can
    fail a command after any number of sectors, following a fault script that
    every theorem leaves arbitrary.  It also records what it was asked to do
    (the [trace]), because the drive has a write cache: a write is durable
    only once a later flush has completed. *)

From stdpp Require Import base numbers list gmap.
From Stdlib Require Import ZArith Lia.
From S2P Require Import Prelude.

Open Scope Z_scope.
Open Scope c_scope.

(** ** The drive *)

Definition ATA_DIR_READ : Z := 0.
Definition ATA_DIR_WRITE : Z := 1.
Definition ATA_RES_ERR_ICRC : Z := -510.

Inductive event : Type :=
| EvWrite (device lba : Z) (s : buf)
| EvFlush (device : Z).

(** How a command fails: refused by [ata_io_start], or stopped during
    [ata_io_finish] after [k] sectors have moved; the result is not 0. *)
Inductive fault : Type :=
| FStart (res : Z)
| FFinish (k : nat) (res : Z).

Record ata_st := mkAta {
  disk : gmap (Z * Z) buf;   (* (device, lba) -> sector, as reads see it *)
  trace : list event;        (* media operations, oldest first *)
  ncmd : nat;                (* commands issued so far *)
  faults : nat -> option fault;  (* fault script, by command number *)
  lba48 : Z -> bool          (* atad_devinfo[device].lba48 *)
}.

Definition sector_at (st : ata_st) (device lba : Z) : buf :=
  default (zeros 128) (disk st !! (device, lba)).

Definition write_sector (device lba : Z) (s : buf) (st : ata_st) : ata_st :=
  mkAta (<[(device, lba) := s]> (disk st)) (trace st ++ [EvWrite device lba s])
        (ncmd st) (faults st) (lba48 st).

Fixpoint write_sectors (device lba : Z) (ss : list buf) (st : ata_st) : ata_st :=
  match ss with
  | [] => st
  | s :: ss' => write_sectors device (lba + 1) ss' (write_sector device lba s st)
  end.

Fixpoint read_sectors (st : ata_st) (device lba : Z) (n : nat) : buf :=
  match n with
  | O => []
  | S n' => sector_at st device lba ++ read_sectors st device (lba + 1) n'
  end.

(** The [n] sectors a buffer holds. *)
Fixpoint sectors_of (n : nat) (b : buf) : list buf :=
  match n with
  | O => []
  | S n' => take 128 b :: sectors_of n' (drop 128 b)
  end.

Definition bump (st : ata_st) : ata_st :=
  mkAta (disk st) (trace st) (S (ncmd st)) (faults st) (lba48 st).

(** The sector address a DMA command names, from the task-file registers. *)
Definition drive_lba (ext : bool) (sector lcyl hcyl select : Z) : Z :=
  if ext
  then Z.lor (Z.shiftl (Z.shiftr sector 8) 24)
        (Z.lor (Z.shiftl hcyl 16) (Z.lor (Z.shiftl lcyl 8) (Z.land sector 255)))
  else Z.lor (Z.shiftl (Z.land select 15) 24)
        (Z.lor (Z.shiftl hcyl 16) (Z.lor (Z.shiftl lcyl 8) sector)).

(** Moving [k] sectors between the media and [b]. *)
Definition drive_move (device lba : Z) (dir : Z) (k : nat) (b : buf) (st : ata_st)
  : buf * ata_st :=
  if dir =? ATA_DIR_WRITE
  then (b, write_sectors device lba (sectors_of k b) st)
  else (read_sectors st device lba k ++ drop (128 * k) b, st).

(** One DMA command: [ata_io_start], then [ata_io_finish].  The boolean tells
    whether [ata_io_start] accepted the command. *)
Definition drive_dma (device : Z) (b : buf) (len sector lcyl hcyl select dir : Z)
  : M ata_st (bool * Z * buf) := fun st =>
  let lba := drive_lba (lba48 st device) sector lcyl hcyl select in
  match faults st (ncmd st) with
  | None =>
      let '(b', st') := drive_move device lba dir (Z.to_nat len) b st in
      Done (true, 0, b') (bump st')
  | Some (FStart res) => Done (false, res, b) (bump st)
  | Some (FFinish k res) =>
      let '(b', st') := drive_move device lba dir (Nat.min k (Z.to_nat len)) b st in
      Done (true, res, b') (bump st')
  end.

(** ** ps2atad.c *)

(** The retry loop of a single command: [for(retries = 3; ...)]. *)
Definition ata_retry (device : Z) (b : buf) (len sector lcyl hcyl select dir : Z)
  : M ata_st (Z * buf) :=
  r <- for_break [3; 2; 1]
        (fun _ '(_, b) =>
           let* (started, res, b') := drive_dma device b len sector lcyl hcyl select dir in
           if negb started then ret (inr (res, b'))
           else if negb (res =? ATA_RES_ERR_ICRC) then ret (inr (res, b'))
           else ret (inl (res, b')))
        (0, b) ;;
  match r with inl x => ret x | inr x => ret x end.

(** The sectors of one command, and its sector and device registers. *)
Definition chunk_len (ext : bool) (nsectors : Z) : Z :=
  if ext then (if 16384 <? nsectors then 16384 else u16 nsectors)
  else (if 256 <? nsectors then 256 else u16 nsectors).
Definition tf_sector (ext : bool) (lba : Z) : Z :=
  if ext then Z.lor (Z.land (Z.shiftr lba 16) 65280) (Z.land lba 255)
  else Z.land lba 255.
Definition tf_select (ext : bool) (device lba : Z) : Z :=
  if ext then Z.land (Z.shiftl device 4) 65535
  else Z.land (Z.lor (Z.lor (Z.shiftl device 4) (Z.land (Z.shiftr lba 24) 15)) 64) 65535.

(** [done] is the part of [buf] already passed, [b] the part at the moving
    pointer; the result is the whole buffer. *)
Definition ata_sector_loop (device dir : Z)
  : Z * buf * buf * Z * Z -> M ata_st ((Z * buf * buf * Z * Z) + (Z * buf)) :=
  fun '(res, done, b, lba, nsectors) =>
  if (res =? 0) && (0 <? nsectors) then
    ext <- gets (fun st => lba48 st device) ;;
    let lcyl := Z.land (Z.shiftr lba 8) 255 in
    let hcyl := Z.land (Z.shiftr lba 16) 255 in
    let len := chunk_len ext nsectors in
    let sector := tf_sector ext lba in
    let select := tf_select ext device lba in
    let* (res', b') := ata_retry device b len sector lcyl hcyl select dir in
    let k := (128 * Z.to_nat len)%nat in
    ret (inl (res', done ++ take k b', drop k b', u32 (lba + len), u32 (nsectors - len)))
  else ret (inr (res, done ++ b)).

(** The caller's buffer must hold [nsectors] sectors. *)
Definition ata_device_sector_io (device : Z) (b : buf) (lba nsectors dir : Z)
  : M ata_st (Z * buf) :=
  if Z.of_nat (length b) <? 128 * nsectors then undef
  else while_ (S (Z.to_nat nsectors)) (ata_sector_loop device dir)
              (0, [], b, lba, nsectors).

Definition ata_device_flush_cache (device : Z) : M ata_st Z := fun st =>
  match faults st (ncmd st) with
  | None => Done 0 (mkAta (disk st) (trace st ++ [EvFlush device]) (S (ncmd st))
                          (faults st) (lba48 st))
  | Some (FStart res) => Done res (bump st)
  | Some (FFinish _ res) => Done res (bump st)
  end.

(** ** The registers name the sector *)

Lemma drive_lba_ext lba select :
  is_u32 lba ->
  drive_lba true (Z.lor (Z.land (Z.shiftr lba 16) 65280) (Z.land lba 255))
    (Z.land (Z.shiftr lba 8) 255) (Z.land (Z.shiftr lba 16) 255) select = lba.
Proof.
  intros H. unfold drive_lba. transitivity (Z.land lba (Z.ones 32)); [|apply land_ones_small; [lia | exact H]].
  change 65280 with (Z.shiftl (Z.ones 8) 8). change 255 with (Z.ones 8). zbits.
Qed.

Lemma drive_lba_28 lba device :
  0 <= lba < 2 ^ 28 -> 0 <= device ->
  drive_lba false (Z.land lba 255)
    (Z.land (Z.shiftr lba 8) 255) (Z.land (Z.shiftr lba 16) 255)
    (Z.land (Z.lor (Z.lor (Z.shiftl device 4) (Z.land (Z.shiftr lba 24) 15)) 64) 65535)
  = lba.
Proof.
  intros H Hd. unfold drive_lba. transitivity (Z.land lba (Z.ones 28)); [|apply land_ones_small; [lia | exact H]].
  change 255 with (Z.ones 8). change 15 with (Z.ones 4). change 65535 with (Z.ones 16).
  change 64 with (Z.shiftl (Z.ones 1) 6). zbits.
Qed.

(** ** Fault-free transfers *)

Definition no_faults (st : ata_st) : Prop := forall n, faults st n = None.

(** The address range a drive can reach: 28 bits without LBA48. *)
Definition addressable (st : ata_st) (device lba n : Z) : Prop :=
  0 <= device /\ 0 <= lba /\ 0 <= n /\ lba + n <= 2 ^ 32 /\
  (lba48 st device = true \/ lba + n <= 2 ^ 28).

(** The registers of a command name the sector at the moving [lba]. *)
Lemma regs_lba st device lba n :
  addressable st device lba n -> 0 < n ->
  drive_lba (lba48 st device) (tf_sector (lba48 st device) lba)
    (Z.land (Z.shiftr lba 8) 255) (Z.land (Z.shiftr lba 16) 255)
    (tf_select (lba48 st device) device lba) = lba.
Proof.
  intros (Hdev & Hlba & Hn & Hend & Hext) Hp. unfold tf_sector, tf_select.
  destruct (lba48 st device).
  - apply drive_lba_ext. unfold is_u32. lia.
  - apply drive_lba_28; [|lia]. destruct Hext; [discriminate | lia].
Qed.

Lemma chunk_len_bounds ext n :
  0 < n -> 0 < chunk_len ext n <= n /\ chunk_len ext n <= 16384 /\ (n <= 256 -> chunk_len ext n = n).
Proof.
  intros Hn. unfold chunk_len. destruct ext.
  - destruct (Z.ltb_spec 16384 n); [lia|]. rewrite u16_small; lia.
  - destruct (Z.ltb_spec 256 n); [lia|]. rewrite u16_small; lia.
Qed.

Definition issue (k : nat) (st : ata_st) : ata_st :=
  mkAta (disk st) (trace st) (ncmd st + k) (faults st) (lba48 st).

(** The abstract transfer: all the sectors, in one step. *)
Definition move_all (device lba dir : Z) (n : nat) (b : buf) (st : ata_st) : buf * ata_st :=
  drive_move device lba dir n b st.

Lemma issue_issue j k st : issue j (issue k st) = issue (k + j) st.
Proof. unfold issue. simpl. f_equal. lia. Qed.

Lemma issue_0 st : issue 0 st = st.
Proof. destruct st. unfold issue. simpl. f_equal. lia. Qed.

Lemma bump_issue st : bump st = issue 1 st.
Proof. unfold bump, issue. f_equal. lia. Qed.

Lemma write_sectors_issue device lba ss k st :
  write_sectors device lba ss (issue k st) = issue k (write_sectors device lba ss st).
Proof. revert lba st. induction ss as [|s ss IH]; intros; [reflexivity|]. simpl. rewrite <- IH. reflexivity. Qed.

Lemma read_sectors_issue device lba n k st :
  read_sectors (issue k st) device lba n = read_sectors st device lba n.
Proof. revert lba. induction n as [|n IH]; intros; [reflexivity|]. simpl. by rewrite IH. Qed.

Lemma write_sectors_fields device lba ss st :
  faults (write_sectors device lba ss st) = faults st /\
  lba48 (write_sectors device lba ss st) = lba48 st /\
  ncmd (write_sectors device lba ss st) = ncmd st.
Proof.
  revert lba st. induction ss as [|s ss IH]; intros; [done|].
  simpl. destruct (IH (lba + 1) (write_sector device lba s st)) as (-> & -> & ->). done.
Qed.

Lemma write_sectors_app device lba ss ss' st :
  write_sectors device lba (ss ++ ss') st =
  write_sectors device (lba + Z.of_nat (length ss)) ss' (write_sectors device lba ss st).
Proof.
  revert lba st. induction ss as [|s ss IH]; intros; simpl.
  - f_equal. lia.
  - rewrite IH. f_equal. lia.
Qed.

Lemma read_sectors_app st device lba n m :
  read_sectors st device lba (n + m) =
  read_sectors st device lba n ++ read_sectors st device (lba + Z.of_nat n) m.
Proof.
  revert lba. induction n as [|n IH]; intros; simpl.
  - do 2 f_equal. lia.
  - rewrite IH, <- app_assoc. do 3 f_equal. lia.
Qed.

Lemma sectors_of_app n m b :
  sectors_of (n + m) b = sectors_of n b ++ sectors_of m (drop (128 * n) b).
Proof.
  revert b. induction n as [|n IH]; intros b; [reflexivity|].
  change (S n + m)%nat with (S (n + m)). cbn [sectors_of app]. rewrite IH, drop_drop.
  by replace (128 * S n)%nat with (128 + 128 * n)%nat by lia.
Qed.

Lemma length_sectors_of n b : length (sectors_of n b) = n.
Proof. revert b. induction n; intros; simpl; auto. Qed.

(** Every sector the drive holds is 512 bytes. *)
Definition disk_ok (st : ata_st) : Prop :=
  forall k s, disk st !! k = Some s -> length s = 128%nat.

Lemma length_sector_at st device lba : disk_ok st -> length (sector_at st device lba) = 128%nat.
Proof.
  intros H. unfold sector_at. destruct (disk st !! (device, lba)) as [s|] eqn:E; simpl.
  - eapply H, E.
  - reflexivity.
Qed.

Lemma length_read_sectors st device lba n :
  disk_ok st -> length (read_sectors st device lba n) = (128 * n)%nat.
Proof.
  intros H. revert lba. induction n as [|n IH]; intros; [simpl; lia|].
  cbn [read_sectors]. rewrite length_app, length_sector_at, IH by exact H. lia.
Qed.

Lemma ata_retry_ok device b len sector lcyl hcyl select dir st :
  no_faults st ->
  ata_retry device b len sector lcyl hcyl select dir st =
  let '(b', st') := drive_move device (drive_lba (lba48 st device) sector lcyl hcyl select)
                      dir (Z.to_nat len) b st in
  Done (0, b') (bump st').
Proof.
  intros H. unfold ata_retry, bind. simpl. unfold bind, drive_dma.
  rewrite H. destruct (drive_move _ _ _ _ _ _) as [b' st']. reflexivity.
Qed.

Lemma drive_move_split device lba dir j m b st :
  disk_ok st -> (128 * (j + m) <= length b)%nat ->
  drive_move device lba dir (j + m) b st =
  let '(b1, st1) := drive_move device lba dir j b st in
  let '(b2, st2) := drive_move device (lba + Z.of_nat j) dir m (drop (128 * j) b1) st1 in
  (take (128 * j) b1 ++ b2, st2).
Proof.
  intros Hd Hb. unfold drive_move. destruct (dir =? ATA_DIR_WRITE).
  - rewrite sectors_of_app, write_sectors_app, length_sectors_of. f_equal.
    by rewrite take_drop.
  - rewrite read_sectors_app.
    pose proof (length_read_sectors st device lba j Hd) as Hr.
    rewrite take_app_length', drop_app_length' by lia.
    rewrite <- app_assoc, drop_drop. repeat f_equal. lia.
Qed.

Lemma drive_move_fields device lba dir n b st :
  faults (drive_move device lba dir n b st).2 = faults st /\
  lba48 (drive_move device lba dir n b st).2 = lba48 st.
Proof.
  unfold drive_move. destruct (dir =? ATA_DIR_WRITE); simpl; [|done].
  split; apply write_sectors_fields.
Qed.

Lemma drive_move_issue device lba dir n b k st :
  drive_move device lba dir n b (issue k st) =
  ((drive_move device lba dir n b st).1, issue k (drive_move device lba dir n b st).2).
Proof.
  unfold drive_move. destruct (dir =? ATA_DIR_WRITE); simpl.
  - by rewrite write_sectors_issue.
  - by rewrite read_sectors_issue.
Qed.

Lemma sectors_of_lengths n b :
  (128 * n <= length b)%nat -> Forall (fun s => length s = 128%nat) (sectors_of n b).
Proof.
  revert b. induction n as [|n IH]; intros b H; [constructor|].
  cbn [sectors_of]. constructor; [rewrite length_take; lia|].
  apply IH. rewrite length_drop. lia.
Qed.

Lemma write_sectors_disk_ok device lba ss st :
  disk_ok st -> Forall (fun s => length s = 128%nat) ss ->
  disk_ok (write_sectors device lba ss st).
Proof.
  intros Hd Hf. revert lba st Hd. induction Hf as [|s ss Hs _ IH]; intros; [exact Hd|].
  simpl. apply IH. intros k s' Hk. simpl in Hk.
  rewrite lookup_insert in Hk. case_decide; [congruence | eauto].
Qed.

Lemma drive_move_disk_ok device lba dir n b st :
  disk_ok st -> (128 * n <= length b)%nat -> disk_ok (drive_move device lba dir n b st).2.
Proof.
  intros Hd Hb. unfold drive_move. destruct (dir =? ATA_DIR_WRITE); simpl; [|exact Hd].
  apply write_sectors_disk_ok; [exact Hd | apply sectors_of_lengths, Hb].
Qed.

Lemma length_drive_move device lba dir n b st :
  disk_ok st -> (128 * n <= length b)%nat ->
  length (drive_move device lba dir n b st).1 = length b.
Proof.
  intros Hd Hb. unfold drive_move. destruct (dir =? ATA_DIR_WRITE); simpl; [done|].
  rewrite length_app, length_read_sectors, length_drop by exact Hd. lia.
Qed.

(** The loop moves exactly the requested run of sectors, whatever its length,
    in chunks of at most 256 (28-bit) or 16384 (48-bit) sectors. *)
Lemma ata_sector_loop_ok device dir fuel : forall done b lba n st,
  no_faults st -> disk_ok st -> addressable st device lba n ->
  128 * n <= Z.of_nat (length b) -> (Z.to_nat n < fuel)%nat ->
  exists k, while_ fuel (ata_sector_loop device dir) (0, done, b, lba, n) st =
    Done (0, done ++ (drive_move device lba dir (Z.to_nat n) b st).1)
         (issue k (drive_move device lba dir (Z.to_nat n) b st).2) /\
    (n = 0 -> k = 0%nat) /\ (0 < n <= 256 -> k = 1%nat).
Proof.
  induction fuel as [|fuel IH]; intros done b lba n st Hf Hd Ha Hb Hfuel; [lia|].
  destruct Ha as (Hdev & Hlba & Hn & Hend & Hext). rewrite while_S. unfold ata_sector_loop at 1.
  destruct (Z.ltb_spec 0 n) as [Hpos|Hz]; cycle 1.
  { replace n with 0 by lia. exists 0%nat. rewrite issue_0.
    split; [|lia]. unfold drive_move. destruct (dir =? ATA_DIR_WRITE); reflexivity. }
  simpl (_ =? _). cbn [andb].
  unfold bind at 1, gets. cbv beta iota zeta. set (ext := lba48 st device).
  pose proof (chunk_len_bounds ext n ltac:(lia)) as Hlen.
  set (len := chunk_len ext n) in *.
  unfold bind at 1. rewrite ata_retry_ok by exact Hf. fold ext.
  pose proof (regs_lba st device lba n ltac:(repeat split; assumption) Hpos) as Hdl.
  fold ext in Hdl.
  rewrite Hdl. destruct (drive_move device lba dir (Z.to_nat len) b st) as [b1 st1] eqn:E1.
  pose proof (drive_move_fields device lba dir (Z.to_nat len) b st) as [Hf1 Hl1].
  pose proof (drive_move_disk_ok device lba dir (Z.to_nat len) b st Hd ltac:(lia)) as Hd1.
  pose proof (length_drive_move device lba dir (Z.to_nat len) b st Hd ltac:(lia)) as Hb1.
  rewrite E1 in Hf1, Hl1, Hd1, Hb1. simpl in Hf1, Hl1, Hd1, Hb1.
  pose proof (drive_move_split device lba dir (Z.to_nat len) (Z.to_nat (n - len)) b st
                Hd ltac:(lia)) as Hs.
  replace (Z.to_nat len + Z.to_nat (n - len))%nat with (Z.to_nat n) in Hs by lia.
  rewrite E1 in Hs. rewrite Hs.
  rewrite (u32_small (n - len)) by (unfold is_u32; lia).
  rewrite bump_issue. unfold ret at 1. cbv beta iota zeta.
  replace (Z.of_nat (Z.to_nat len)) with len by lia.
  destruct (IH (done ++ take (128 * Z.to_nat len) b1) (drop (128 * Z.to_nat len) b1)
               (u32 (lba + len)) (n - len) (issue 1 st1)) as (k & Hk & Hk0 & _).
  - intros m. simpl. rewrite Hf1. apply Hf.
  - exact Hd1.
  - unfold addressable. simpl. rewrite Hl1.
    destruct (Z.eqb_spec (lba + len) (2 ^ 32)) as [He|He].
    + rewrite He. unfold u32. rewrite Z.mod_same by lia.
      repeat split; lia.
    + rewrite u32_small by (unfold is_u32; lia). repeat split; try lia.
      destruct Hext; [by left | right; lia].
  - rewrite length_drop. lia.
  - lia.
  - rewrite Hk. clear Hk. rewrite !drive_move_issue. simpl.
    exists (1 + k)%nat. rewrite issue_issue. split; [|lia].
    destruct (Z.eqb_spec (lba + len) (2 ^ 32)) as [He|He].
    + replace (n - len) with 0 by lia. simpl. unfold drive_move.
      destruct (dir =? ATA_DIR_WRITE); simpl; rewrite <- app_assoc; reflexivity.
    + rewrite u32_small by (unfold is_u32; lia).
      destruct (drive_move device (lba + len) dir _ _ _) as [b2 st2]. simpl.
      rewrite <- app_assoc. reflexivity.
Qed.

(** ** What a transfer of the driver does *)

(** The transfer refines the abstract one: with no drive fault and an
    addressable range, [ata_device_sector_io] returns 0 and has moved every
    sector of the range, whatever the chunking. *)
Lemma sector_io_moves st device b lba n dir :
  no_faults st -> disk_ok st -> addressable st device lba n ->
  128 * n <= Z.of_nat (length b) ->
  exists k, ata_device_sector_io device b lba n dir st =
    Done (0, (move_all device lba dir (Z.to_nat n) b st).1)
         (issue k (move_all device lba dir (Z.to_nat n) b st).2).
Proof.
  intros Hf Hd Ha Hb. unfold ata_device_sector_io, move_all.
  destruct (Z.ltb_spec (Z.of_nat (length b)) (128 * n)); [lia|].
  destruct (ata_sector_loop_ok device dir (S (Z.to_nat n)) [] b lba n st) as (k & Hk & _);
    eauto.
Qed.

(** Up to 256 sectors take a single command. *)
Lemma sector_io_small st device b lba n dir :
  no_faults st -> disk_ok st -> addressable st device lba n -> 0 < n <= 256 ->
  128 * n <= Z.of_nat (length b) ->
  ata_device_sector_io device b lba n dir st =
    Done (0, (drive_move device lba dir (Z.to_nat n) b st).1)
         (issue 1 (drive_move device lba dir (Z.to_nat n) b st).2).
Proof.
  intros Hf Hd Ha Hn Hb. unfold ata_device_sector_io.
  destruct (Z.ltb_spec (Z.of_nat (length b)) (128 * n)); [lia|].
  destruct (ata_sector_loop_ok device dir (S (Z.to_nat n)) [] b lba n st)
    as (k & Hk & _ & Hk1); eauto.
  rewrite Hk, Hk1 by exact Hn. reflexivity.
Qed.

(** A failing transfer touches no sector outside the range it was given:
    whatever the fault script, only [lba .. lba+n-1] of [device] can change. *)
Definition in_run (device lba n : Z) (key : Z * Z) : Prop :=
  key.1 = device /\ lba <= key.2 < lba + n.

Lemma write_sectors_outside device lba ss st key :
  ~ in_run device lba (Z.of_nat (length ss)) key ->
  disk (write_sectors device lba ss st) !! key = disk st !! key.
Proof.
  revert lba st. induction ss as [|s ss IH]; intros lba st Hk; [reflexivity|].
  simpl. rewrite IH.
  - simpl. apply lookup_insert_ne. intros <-. apply Hk. unfold in_run. simpl. lia.
  - unfold in_run in *. simpl in Hk. lia.
Qed.

Lemma flush_cache_ok st device :
  no_faults st ->
  ata_device_flush_cache device st =
  Done 0 (mkAta (disk st) (trace st ++ [EvFlush device]) (S (ncmd st)) (faults st) (lba48 st)).
Proof. intros H. unfold ata_device_flush_cache. by rewrite H. Qed.

(** ** Replaying a trace *)

Definition apply_event (d : gmap (Z * Z) buf) (e : event) : gmap (Z * Z) buf :=
  match e with
  | EvWrite device lba s => <[(device, lba) := s]> d
  | EvFlush _ => d
  end.

Definition replay (d : gmap (Z * Z) buf) (tr : list event) : gmap (Z * Z) buf :=
  foldl apply_event d tr.

Lemma replay_app d tr1 tr2 : replay d (tr1 ++ tr2) = replay (replay d tr1) tr2.
Proof. apply foldl_app. Qed.

(** [st'] is [st] after the media operations [evs]. *)
Definition logs (st st' : ata_st) (evs : list event) : Prop :=
  trace st' = trace st ++ evs /\
  disk st' = replay (disk st) evs /\
  faults st' = faults st /\ lba48 st' = lba48 st.

Lemma logs_nil st : logs st st [].
Proof. repeat split; simpl; auto. by rewrite app_nil_r. Qed.

Lemma logs_trans st1 st2 st3 e1 e2 :
  logs st1 st2 e1 -> logs st2 st3 e2 -> logs st1 st3 (e1 ++ e2).
Proof.
  intros (H1 & H2 & H3 & H4) (H5 & H6 & H7 & H8). repeat split.
  - by rewrite H5, H1, app_assoc.
  - by rewrite H6, H2, replay_app.
  - congruence.
  - congruence.
Qed.

Lemma logs_issue st st' evs k : logs st st' evs -> logs st (issue k st') evs.
Proof. intros H. exact H. Qed.

(** The events of writing a run of sectors. *)
Fixpoint run_events (device lba : Z) (ss : list buf) : list event :=
  match ss with
  | [] => []
  | s :: ss' => EvWrite device lba s :: run_events device (lba + 1) ss'
  end.

Lemma logs_write_sectors device lba ss st :
  logs st (write_sectors device lba ss st) (run_events device lba ss).
Proof.
  revert lba st. induction ss as [|s ss IH]; intros lba st; [apply logs_nil|].
  simpl. change (EvWrite device lba s :: ?l) with ([EvWrite device lba s] ++ l).
  eapply logs_trans; [|apply IH]. repeat split.
Qed.

(** The drive keeps working and its sectors stay well formed. *)
Definition drive_ok (st : ata_st) : Prop := no_faults st /\ disk_ok st.

Lemma drive_ok_issue st k : drive_ok st -> drive_ok (issue k st).
Proof. intros [H1 H2]. split; [exact H1 | exact H2]. Qed.

Definition sectors_ok (evs : list event) : Prop :=
  Forall (fun e => match e with EvWrite _ _ s => length s = 128%nat | EvFlush _ => True end) evs.

Lemma logs_drive_ok st st' evs :
  logs st st' evs -> drive_ok st -> sectors_ok evs -> drive_ok st'.
Proof.
  intros (_ & Hd & Hf & _) [H1 H2] Hs. split; [intros n; rewrite Hf; apply H1|].
  unfold disk_ok in *. rewrite Hd. clear Hd. revert H2. generalize (disk st).
  induction Hs as [|e evs He _ IH]; intros d Hok; [exact Hok|].
  simpl. apply IH. intros k s. destruct e; simpl; [|apply Hok].
  rewrite lookup_insert. case_decide; intros; [congruence | eauto].
Qed.

Lemma logs_addressable st st' evs device lba n :
  logs st st' evs -> addressable st device lba n -> addressable st' device lba n.
Proof. intros (_ & _ & _ & H) Ha. unfold addressable in *. rewrite H. exact Ha. Qed.

Lemma flush_cache_logs st device :
  drive_ok st ->
  exists st', ata_device_flush_cache device st = Done 0 st' /\ logs st st' [EvFlush device].
Proof.
  intros [Hf _]. rewrite flush_cache_ok by exact Hf. eexists. split; [reflexivity|].
  repeat split.
Qed.

(** ** Transfers that may fail

    Whatever the fault script does, a transfer ends, keeps the size of the
    caller's buffer, and writes no sector outside the run it was given. *)

Definition run_write (device lba n : Z) (e : event) : Prop :=
  exists l s, e = EvWrite device l s /\ lba <= l < lba + n /\ length s = 128%nat.

Definition io_only (device lba n : Z) (st st' : ata_st) : Prop :=
  exists evs, logs st st' evs /\ Forall (run_write device lba n) evs.

Lemma io_only_refl device lba n st : io_only device lba n st st.
Proof. exists []. split; [apply logs_nil | constructor]. Qed.

Lemma io_only_bump device lba n st st' :
  io_only device lba n st st' -> io_only device lba n st (bump st').
Proof. intros H. exact H. Qed.

Lemma io_only_trans device lba n st1 st2 st3 :
  io_only device lba n st1 st2 -> io_only device lba n st2 st3 -> io_only device lba n st1 st3.
Proof.
  intros (e1 & L1 & F1) (e2 & L2 & F2). exists (e1 ++ e2).
  split; [eapply logs_trans; eassumption | by apply Forall_app].
Qed.

Lemma io_only_weaken device lba n lba' n' st st' :
  lba' <= lba -> lba + n <= lba' + n' ->
  io_only device lba n st st' -> io_only device lba' n' st st'.
Proof.
  intros H1 H2 (evs & L & F). exists evs. split; [exact L|].
  eapply Forall_impl; [exact F|]. intros e (l & s & -> & Hl & Hs). exists l, s. repeat split; auto; lia.
Qed.

Lemma run_events_in device lba ss n :
  Z.of_nat (length ss) <= n -> Forall (fun s => length s = 128%nat) ss ->
  Forall (run_write device lba n) (run_events device lba ss).
Proof.
  intros Hn F. revert lba n Hn. induction F as [|s ss Hs _ IH]; intros lba n Hn; [constructor|].
  simpl in *. constructor; [exists lba, s; repeat split; auto; lia|].
  eapply Forall_impl; [apply (IH (lba + 1) (n - 1)); lia|].
  intros e (l & s' & -> & Hl & Hs'). exists l, s'. repeat split; auto; lia.
Qed.

Lemma drive_move_any device lba dir k len b st :
  disk_ok st -> (k <= len)%nat -> (128 * len <= length b)%nat ->
  let r := drive_move device lba dir k b st in
  length r.1 = length b /\ disk_ok r.2 /\ io_only device lba (Z.of_nat len) st r.2.
Proof.
  intros Hd Hk Hb r. split; [apply length_drive_move; [exact Hd | lia]|].
  split; [apply drive_move_disk_ok; [exact Hd | lia]|].
  unfold r, drive_move. destruct (dir =? ATA_DIR_WRITE); [|apply io_only_refl].
  exists (run_events device lba (sectors_of k b)). split; [apply logs_write_sectors|].
  apply run_events_in; [rewrite length_sectors_of; lia | apply sectors_of_lengths; lia].
Qed.

Lemma drive_dma_any device b len sector lcyl hcyl select dir st :
  disk_ok st -> 128 * len <= Z.of_nat (length b) ->
  wp (drive_dma device b len sector lcyl hcyl select dir) st
     (fun '(_, _, b') st' => length b' = length b /\ disk_ok st' /\
        io_only device (drive_lba (lba48 st device) sector lcyl hcyl select)
          (Z.of_nat (Z.to_nat len)) st st').
Proof.
  intros Hd Hb. unfold wp, drive_dma. set (lba := drive_lba _ _ _ _ _).
  destruct (faults st (ncmd st)) as [[res|k res]|].
  - simpl. split; [done|]. split; [exact Hd | apply io_only_bump, io_only_refl].
  - pose proof (drive_move_any device lba dir (Nat.min k (Z.to_nat len)) (Z.to_nat len) b st Hd
                  ltac:(lia) ltac:(lia)) as H.
    destruct (drive_move _ _ _ _ _ _) as [b' st']. exact H.
  - pose proof (drive_move_any device lba dir (Z.to_nat len) (Z.to_nat len) b st Hd
                  ltac:(lia) ltac:(lia)) as H.
    destruct (drive_move _ _ _ _ _ _) as [b' st']. exact H.
Qed.

Lemma io_only_lba48 device lba n st st' : io_only device lba n st st' -> lba48 st' = lba48 st.
Proof. intros (evs & (_ & _ & _ & H) & _). exact H. Qed.

Lemma ata_retry_any device b len sector lcyl hcyl select dir st :
  disk_ok st -> 128 * len <= Z.of_nat (length b) ->
  wp (ata_retry device b len sector lcyl hcyl select dir) st
     (fun '(_, b') st' => length b' = length b /\ disk_ok st' /\
        io_only device (drive_lba (lba48 st device) sector lcyl hcyl select)
          (Z.of_nat (Z.to_nat len)) st st').
Proof.
  intros Hd Hb. unfold ata_retry. apply wp_bind.
  set (lba := drive_lba _ _ _ _ _). set (n := Z.of_nat (Z.to_nat len)).
  set (Inv := fun (x : Z * buf) st' => length x.2 = length b /\ disk_ok st' /\ io_only device lba n st st').
  eapply wp_mono; [apply (wp_for_break _ Inv Inv)|].
  - intros _ [r0 b0] s (Hb0 & Hd0 & Hio). simpl in Hb0. apply wp_bind.
    eapply wp_mono; [apply drive_dma_any; [exact Hd0 | lia]|].
    intros [[started res] b1] s1 (Hb1 & Hd1 & Hio1).
    rewrite (io_only_lba48 _ _ _ _ _ Hio) in Hio1.
    assert (HI : Inv (res, b1) s1)
      by (split; [simpl; lia|]; split; [exact Hd1 | eapply io_only_trans; eassumption]).
    destruct started; simpl; [destruct (res =? ATA_RES_ERR_ICRC)|]; exact HI.
  - split; [done|]. split; [exact Hd | apply io_only_refl].
  - intros [[r b']|[r b']] s H; exact H.
Qed.

Lemma sector_io_total st device b lba n dir :
  disk_ok st -> addressable st device lba n -> 128 * n <= Z.of_nat (length b) ->
  wp (ata_device_sector_io device b lba n dir) st
     (fun '(_, b') st' => length b' = length b /\ disk_ok st' /\ io_only device lba n st st').
Proof.
  intros Hd Ha Hb. unfold ata_device_sector_io.
  destruct (Z.ltb_spec (Z.of_nat (length b)) (128 * n)); [lia|].
  set (I := fun (x : Z * buf * buf * Z * Z) st' =>
    let '(_, done, b1, lba1, n1) := x in
    length (done ++ b1) = length b /\ disk_ok st' /\ io_only device lba n st st' /\
    128 * n1 <= Z.of_nat (length b1) /\ 0 <= n1 /\ (n1 = 0 \/ (lba <= lba1 /\ lba1 + n1 = lba + n))).
  eapply (wp_while _ I (fun '(res, _, _, _, n1) _ => if res =? 0 then Z.to_nat n1 else 0%nat));
    [| |destruct (0 =? 0); lia].
  - intros [[[[res done] b1] lba1] n1] s (Hl & Hds & Hio & Hb1 & Hn1 & Hpos).
    unfold ata_sector_loop. destruct ((res =? 0) && (0 <? n1)) eqn:E; [|by repeat split].
    apply andb_prop in E as [Er En]. apply Z.ltb_lt in En.
    destruct Hpos as [Hz | [Hlo Hhi]]; [lia|].
    apply wp_bind. unfold gets, wp at 1. pose proof (io_only_lba48 _ _ _ _ _ Hio) as H48.
    pose proof (chunk_len_bounds (lba48 s device) n1 En) as Hc.
    apply wp_bind. eapply wp_mono; [apply ata_retry_any; [exact Hds | lia]|].
    intros [res' b'] s' (Hb' & Hds' & Hio'). apply wp_ret.
    rewrite (regs_lba s device lba1 n1) in Hio'; [| |exact En].
    2:{ unfold addressable in *. rewrite H48. repeat split; try lia.
        destruct Ha as (_ & _ & _ & _ & [Ha | Ha]); [by left | right; lia]. }
    set (len := chunk_len (lba48 s device) n1) in *.
    rewrite (u32_small (n1 - len)) by (unfold is_u32, addressable in *; lia).
    split; [|rewrite Er; destruct (res' =? 0); lia].
    split; [rewrite !length_app, length_take, length_drop in *; lia|].
    split; [exact Hds'|]. split.
    { eapply io_only_trans; [exact Hio|]. eapply io_only_weaken; [| |exact Hio']; lia. }
    split; [rewrite length_drop; lia|]. split; [lia|].
    destruct (Z.eqb_spec n1 len); [left; lia | right].
    rewrite u32_small by (unfold is_u32, addressable in *; lia). lia.
  - unfold I. unfold addressable in Ha. repeat split; auto; try lia. apply io_only_refl.
Qed.

(** Reading never writes the media. *)
Lemma io_only_outside device lba n st st' key :
  io_only device lba n st st' -> ~ in_run device lba n key -> disk st' !! key = disk st !! key.
Proof.
  intros (evs & (_ & Hd & _ & _) & F) Hk. rewrite Hd. clear Hd. revert F.
  generalize (disk st). induction evs as [|e evs IH]; intros d F; [done|].
  inversion F as [|? ? (l & s & -> & Hl & _) F']; subst. simpl. rewrite IH by exact F'.
  apply lookup_insert_ne. intros <-. apply Hk. unfold in_run. simpl. lia.
Qed.

(** ** Transfers that report success *)

(** Sector [j] of a caller's buffer. *)
Definition sector_of (b : buf) (j : nat) : buf := take 128 (drop (128 * j) b).

Lemma sectors_of_lookup n b j : (j < n)%nat -> sectors_of n b !! j = Some (sector_of b j).
Proof.
  revert b j. induction n as [|n IH]; intros b j Hj; [lia|]. cbn [sectors_of].
  destruct j as [|j]; [reflexivity|]. simpl lookup.
  rewrite IH by lia. unfold sector_of. rewrite drop_drop. do 3 f_equal. lia.
Qed.

Lemma write_sectors_at device ss : forall lba st j s,
  ss !! j = Some s -> disk (write_sectors device lba ss st) !! (device, lba + Z.of_nat j) = Some s.
Proof.
  induction ss as [|s0 ss IH]; intros lba st j s Hj; [done|]. simpl.
  destruct j as [|j]; simpl in Hj.
  - injection Hj as ->. rewrite Z.add_0_r. rewrite write_sectors_outside.
    + simpl. by rewrite lookup_insert_eq.
    + unfold in_run. simpl. lia.
  - replace (lba + Z.of_nat (S j)) with (lba + 1 + Z.of_nat j) by lia. by apply IH.
Qed.

Lemma read_sectors_sector st device n : forall lba j tl,
  disk_ok st -> (j < n)%nat ->
  sector_of (read_sectors st device lba n ++ tl) j = sector_at st device (lba + Z.of_nat j).
Proof.
  induction n as [|n IH]; intros lba j tl Hd Hj; [lia|]. cbn [read_sectors].
  pose proof (length_sector_at st device lba Hd) as Hl. unfold sector_of in *.
  rewrite <- app_assoc. destruct j as [|j].
  - rewrite Nat.mul_0_r, drop_0, take_app_length' by lia. f_equal. lia.
  - replace (128 * S j)%nat with (length (sector_at st device lba) + 128 * j)%nat by lia.
    rewrite drop_app_add, IH by (auto; lia). f_equal. lia.
Qed.

Definition fault_res (f : fault) : Z := match f with FStart r => r | FFinish _ r => r end.
(** A fault reports a result that is not 0. *)
Definition real_faults (st : ata_st) : Prop := forall n f, faults st n = Some f -> fault_res f <> 0.

(** All [n] sectors moved between the media and the buffer, and nothing else. *)
Definition moved (device lba dir : Z) (n : nat) (b : buf) (st : ata_st) (b' : buf) (st' : ata_st) : Prop :=
  if dir =? ATA_DIR_WRITE then b' = b /\ disk st' = disk (write_sectors device lba (sectors_of n b) st)
  else disk st' = disk st /\ b' = read_sectors st device lba n ++ drop (128 * n) b.

Lemma write_sectors_lookup device ss lba st key : disk (write_sectors device lba ss st) !! key =
  if decide (key.1 = device /\ lba <= key.2 < lba + Z.of_nat (length ss)) then ss !! Z.to_nat (key.2 - lba) else disk st !! key.
Proof.
  case_decide as H; [|by apply write_sectors_outside]. destruct key as [d l]. simpl in H. destruct H as [-> H].
  destruct (lookup_lt_is_Some_2 ss (Z.to_nat (l - lba))) as [s Hs]; [lia|]. simpl. rewrite Hs.
  pose proof (write_sectors_at device ss lba st _ s Hs) as E. by replace (lba + Z.of_nat (Z.to_nat (l - lba))) with l in E by lia.
Qed.

(** What was there before does not matter where everything is written. *)
Lemma write_sectors_over device ss lba st st' :
  (forall key, ~ in_run device lba (Z.of_nat (length ss)) key -> disk st' !! key = disk st !! key) ->
  disk (write_sectors device lba ss st') = disk (write_sectors device lba ss st).
Proof. intros H. apply map_eq. intros key. rewrite !write_sectors_lookup. case_decide; [done|]. by apply H. Qed.

Lemma read_sectors_disk st st' device n : disk st' = disk st -> forall lba, read_sectors st' device lba n = read_sectors st device lba n.
Proof. intros H. induction n as [|n IH]; intros lba; [done|]. simpl. unfold sector_at. by rewrite H, IH. Qed.

(** After attempts that failed: the run or the buffer may have changed in part. *)
Definition tried (device lba dir : Z) (n : nat) (b : buf) (st : ata_st) (b' : buf) (st' : ata_st) : Prop :=
  faults st' = faults st /\ lba48 st' = lba48 st /\ disk_ok st' /\ length b' = length b /\
  if dir =? ATA_DIR_WRITE then b' = b /\ (forall key, ~ in_run device lba (Z.of_nat n) key -> disk st' !! key = disk st !! key)
  else disk st' = disk st /\ drop (128 * n) b' = drop (128 * n) b.

Lemma tried_move device lba dir n b st b0 s0 k : tried device lba dir n b st b0 s0 -> (k <= n)%nat -> (128 * n <= length b)%nat ->
  let r := drive_move device lba dir k b0 s0 in
  tried device lba dir n b st r.1 (bump r.2) /\ (k = n -> moved device lba dir n b st r.1 (bump r.2)).
Proof.
  intros (F & L & Dk & Lb & H) Hk Hb r. pose proof (drive_move_fields device lba dir k b0 s0) as [F1 L1].
  pose proof (drive_move_disk_ok device lba dir k b0 s0 Dk ltac:(lia)) as D1. pose proof (length_drive_move device lba dir k b0 s0 Dk ltac:(lia)) as L2.
  fold r in F1, L1, D1, L2. unfold tried, moved. change (faults (bump r.2)) with (faults r.2). change (lba48 (bump r.2)) with (lba48 r.2).
  change (disk (bump r.2)) with (disk r.2). unfold r, drive_move in *. destruct (dir =? ATA_DIR_WRITE); cbn [fst snd] in *.
  - destruct H as [-> HO]. split; [|intros ->; split; [done|]].
    + split; [congruence|]. split; [congruence|]. split; [done|]. split; [done|]. split; [done|]. intros key Hkey.
      rewrite write_sectors_outside; [by apply HO|]. rewrite length_sectors_of. unfold in_run in *. lia.
    + apply write_sectors_over. by rewrite length_sectors_of.
  - destruct H as [Ed Eb]. pose proof (length_read_sectors s0 device lba k Dk) as Lr. split; [|intros ->; split; [done|]].
    + split; [done|]. split; [done|]. split; [done|]. split; [lia|]. split; [done|]. rewrite <- Eb.
      replace (128 * n)%nat with (length (read_sectors s0 device lba k) + 128 * (n - k))%nat by lia.
      rewrite drop_app_add, drop_drop. f_equal. lia.
    + by rewrite Eb, (read_sectors_disk st s0).
Qed.

Lemma dma_moved device b len sector lcyl hcyl select dir st lba b0 s0 : real_faults st -> drive_lba (lba48 st device) sector lcyl hcyl select = lba ->
  tried device lba dir (Z.to_nat len) b st b0 s0 -> (128 * Z.to_nat len <= length b)%nat ->
  wp (drive_dma device b0 len sector lcyl hcyl select dir) s0 (fun '(_, r, b1) s1 =>
    tried device lba dir (Z.to_nat len) b st b1 s1 /\ (r = 0 -> moved device lba dir (Z.to_nat len) b st b1 s1)).
Proof.
  intros HR <- HT Hb. pose proof HT as (F & L & _). unfold wp, drive_dma. rewrite L. set (lba := drive_lba _ _ _ _ _).
  destruct (faults s0 (ncmd s0)) as [[r|k r]|] eqn:E.
  - rewrite F in E. apply HR in E. split; [exact HT|done].
  - rewrite F in E. apply HR in E. destruct (tried_move device lba dir (Z.to_nat len) b st b0 s0 (Nat.min k (Z.to_nat len)) HT ltac:(lia) Hb) as [H1 _].
    destruct (drive_move _ _ _ _ _ _). split; [exact H1|done].
  - destruct (tried_move device lba dir (Z.to_nat len) b st b0 s0 (Z.to_nat len) HT ltac:(lia) Hb) as [H1 H2].
    destruct (drive_move _ _ _ _ _ _). split; [exact H1|intros _; by apply H2].
Qed.

Lemma retry_moved device b len sector lcyl hcyl select dir st lba : real_faults st -> disk_ok st ->
  drive_lba (lba48 st device) sector lcyl hcyl select = lba -> (128 * Z.to_nat len <= length b)%nat ->
  wp (ata_retry device b len sector lcyl hcyl select dir) st (fun '(r, b1) s1 =>
    tried device lba dir (Z.to_nat len) b st b1 s1 /\ (r = 0 -> moved device lba dir (Z.to_nat len) b st b1 s1)).
Proof.
  intros HR Hd Hl Hb. unfold ata_retry. apply wp_bind.
  match goal with |- wp (for_break _ ?body _) _ _ => assert (Hk : forall l r0 b0 s0, (l = [] -> r0 <> 0) -> tried device lba dir (Z.to_nat len) b st b0 s0 ->
    wp (for_break l body (r0, b0)) s0 (fun x s1 => let '(r, b1) := match x with inl y => y | inr y => y end in
      tried device lba dir (Z.to_nat len) b st b1 s1 /\ (r = 0 -> moved device lba dir (Z.to_nat len) b st b1 s1))) end.
  { induction l as [|k l IH]; intros r0 b0 s0 H0 HT; cbn [for_break]; [apply wp_ret; split; [done|by intros ->; destruct (H0 eq_refl)]|].
    apply wp_bind, wp_bind. eapply wp_mono; [by eapply dma_moved|]. intros [[started r] b1] s1 [HT1 HM]. destruct started; cbn [negb]; [|by apply wp_ret; apply wp_ret].
    destruct (Z.eqb_spec r ATA_RES_ERR_ICRC) as [->|]; cbn [negb]; apply wp_ret; [by apply IH|by apply wp_ret]. }
  eapply wp_mono; [apply Hk; [done|]|intros [[r b1]|[r b1]] s1 H; by apply wp_ret].
  split; [done|]. split; [done|]. split; [done|]. split; [done|]. by destruct (dir =? _).
Qed.

(** [k] of the sectors are done, the rest of the buffer is at the pointer. *)
Definition progress (device lba dir : Z) (b : buf) (st : ata_st) (k : nat) (done b1 : buf) (s : ata_st) : Prop :=
  length done = (128 * k)%nat /\
  if dir =? ATA_DIR_WRITE then done ++ b1 = b /\ disk s = disk (write_sectors device lba (sectors_of k b) st)
  else disk s = disk st /\ done = read_sectors st device lba k /\ b1 = drop (128 * k) b.

Lemma progress_moved device lba dir b st n done b1 s : (128 * n <= length b)%nat ->
  progress device lba dir b st n done b1 s -> moved device lba dir n b st (done ++ b1) s.
Proof. intros Hb [_ H]. unfold moved. destruct (dir =? _); [done|]. by destruct H as (-> & -> & ->). Qed.

Lemma progress_step device lba dir b st k done b1 s len b2 s2 : disk_ok st -> (128 * (k + len) <= length b)%nat -> length b2 = length b1 ->
  length (done ++ b1) = length b -> progress device lba dir b st k done b1 s -> moved device (lba + Z.of_nat k) dir len b1 s b2 s2 ->
  progress device lba dir b st (k + len) (done ++ take (128 * len) b2) (drop (128 * len) b2) s2.
Proof.
  intros Hd Hb L2 Lb [Ld H] HM. rewrite length_app in Lb. unfold progress, moved in *.
  split; [rewrite length_app, length_take; lia|]. destruct (dir =? _).
  - destruct H as [<- H], HM as [-> HM]. split; [by rewrite <- app_assoc, take_drop|].
    rewrite HM, sectors_of_app, write_sectors_app, length_sectors_of, drop_app_length' by lia. apply write_sectors_over. by intros key _; rewrite H.
  - destruct H as (H & -> & ->), HM as [HM ->]. rewrite (read_sectors_disk st s) by done.
    pose proof (length_read_sectors st device (lba + Z.of_nat k) len Hd) as Lr.
    rewrite take_app_length', drop_app_length', read_sectors_app, drop_drop by lia. split; [congruence|]. split; [done|]. f_equal. lia.
Qed.

(** Whatever the drive does, a transfer that returns 0 has moved every sector
    of its run. *)
Lemma sector_io_moved st device b lba n dir : real_faults st -> disk_ok st -> addressable st device lba n -> 128 * n <= Z.of_nat (length b) ->
  wp (ata_device_sector_io device b lba n dir) st (fun '(r, b') st' => r = 0 -> moved device lba dir (Z.to_nat n) b st b' st').
Proof.
  intros HR Hd Ha Hb. pose proof Ha as (A1 & A2 & A3 & A4 & A5). unfold ata_device_sector_io.
  destruct (Z.ltb_spec (Z.of_nat (length b)) (128 * n)); [lia|].
  set (I := fun (x : Z * buf * buf * Z * Z) s => let '(res, done, b1, lba1, n1) := x in
    faults s = faults st /\ lba48 s = lba48 st /\ disk_ok s /\ length (done ++ b1) = length b /\ 0 <= n1 <= n /\ 128 * n1 <= Z.of_nat (length b1) /\
    (n1 = 0 \/ lba1 = lba + (n - n1)) /\ (res = 0 -> progress device lba dir b st (Z.to_nat (n - n1)) done b1 s)).
  eapply (wp_while _ I (fun '(res, _, _, _, n1) _ => if res =? 0 then Z.to_nat n1 else 0%nat)); [| |destruct (0 =? 0); lia].
  - intros [[[[res done] b1] lba1] n1] s (F & L & Dk & Lb & Hn1 & Hb1 & Hl & HP). unfold ata_sector_loop.
    destruct ((res =? 0) && (0 <? n1)) eqn:E.
    + apply andb_prop in E as [Er En]. apply Z.ltb_lt in En. apply Z.eqb_eq in Er as ->. destruct Hl as [Hz|Hl]; [lia|].
      apply wp_bind. unfold gets, wp at 1. pose proof (chunk_len_bounds (lba48 s device) n1 En) as Hc. set (len := chunk_len (lba48 s device) n1) in *.
      assert (HRs : real_faults s) by (unfold real_faults; by rewrite F).
      apply wp_bind. eapply wp_mono; [apply retry_moved; [done|done| |lia]|].
      { apply (regs_lba s device lba1 n1); [|done]. unfold addressable. rewrite L. repeat split; try lia. destruct A5; [by left|right; lia]. }
      intros [r b2] s2 [(F2 & L2 & D2 & Lb2 & _) HM]. apply wp_ret. rewrite (u32_small (n1 - len)) by (unfold is_u32; lia).
      rewrite length_app in Lb. split; [|cbv iota beta; destruct (r =? 0); simpl; lia].
      split; [congruence|]. split; [congruence|]. split; [done|]. split; [rewrite !length_app, length_take, length_drop; lia|]. split; [lia|].
      split; [rewrite length_drop; lia|]. split.
      { destruct (Z.eqb_spec n1 len); [left; lia|right]. rewrite u32_small by (unfold is_u32; lia). lia. }
      intros Hr. replace (Z.to_nat (n - (n1 - len))) with (Z.to_nat (n - n1) + Z.to_nat len)%nat by lia.
      eapply progress_step; [done|lia|done|by rewrite length_app|by apply HP|]. replace (lba + Z.of_nat (Z.to_nat (n - n1))) with lba1 by lia. by apply HM.
    + apply wp_ret. intros ->. apply andb_false_iff in E as [E|E]; [done|]. apply Z.ltb_ge in E. assert (n1 = 0) as -> by lia.
      rewrite Z.sub_0_r in HP. apply progress_moved; [lia|by apply HP].
  - do 4 (split; [done|]). do 2 (split; [lia|]). split; [right; lia|]. intros _. rewrite Z.sub_diag. unfold progress.
    split; [done|]. by destruct (dir =? ATA_DIR_WRITE).
Qed.
