(* ===== verification/Password.v ===== *)
(** * Password: partition passwords of libapa

    iop/hdd/libapa/src/password.c.  A partition password is stored as the DES
    encryption of the first 8 bytes of the partition id under the password.
    64-bit quantities are pairs of 32-bit words (lo, hi); variable shifts are
    the IOP's [sllv]/[srlv], which take the shift count modulo 32. *)

From stdpp Require Import base numbers list.
From Stdlib Require Import ZArith Lia.
From S2P Require Import Prelude.

Open Scope Z_scope.

(** ** Comparison *)

(** Built with APA_ENABLE_PASSWORDS (the configuration of apa-opt.h). *)
Definition apaPassCmp (pw1 pw2 : list Z) : Z :=
  if bool_decide (take 8 pw1 = take 8 pw2) then 0 else - EACCES.

(** ** Tables *)

Definition PC1 : list Z :=
  [57; 49; 41; 33; 25; 17; 9; 1; 58; 50; 42; 34; 26; 18;
   10; 2; 59; 51; 43; 35; 27; 19; 11; 3; 60; 52; 44; 36;
   63; 55; 47; 39; 31; 23; 15; 7; 62; 54; 46; 38; 30; 22;
   14; 6; 61; 53; 45; 37; 29; 21; 13; 5; 28; 20; 12; 4].
Definition Rotations : list Z :=
  [1; 1; 2; 2; 2; 2; 2; 2; 1; 2; 2; 2; 2; 2; 2; 1].
Definition PC2 : list Z :=
  [14; 17; 11; 24; 1; 5; 3; 28; 15; 6; 21; 10;
   23; 19; 12; 4; 26; 8; 16; 7; 27; 20; 13; 2;
   41; 52; 31; 37; 47; 55; 30; 40; 51; 45; 33; 48;
   44; 49; 39; 56; 34; 53; 46; 42; 50; 36; 29; 32].
Definition IP : list Z :=
  [58; 50; 42; 34; 26; 18; 10; 2; 60; 52; 44; 36; 28; 20; 12; 4;
   62; 54; 46; 38; 30; 22; 14; 6; 64; 56; 48; 40; 32; 24; 16; 8;
   57; 49; 41; 33; 25; 17; 9; 1; 59; 51; 43; 35; 27; 19; 11; 3;
   61; 53; 45; 37; 29; 21; 13; 5; 63; 55; 47; 39; 31; 23; 15; 7].
Definition Expansion : list Z :=
  [32; 1; 2; 3; 4; 5; 4; 5; 6; 7; 8; 9; 8; 9; 10; 11;
   12; 13; 12; 13; 14; 15; 16; 17; 16; 17; 18; 19; 20; 21; 20; 21;
   22; 23; 24; 25; 24; 25; 26; 27; 28; 29; 28; 29; 30; 31; 32; 1].
Definition Permutation : list Z :=
  [16; 7; 20; 21; 29; 12; 28; 17; 1; 15; 23; 26; 5; 18; 31; 10;
   2; 8; 24; 14; 32; 27; 3; 9; 19; 13; 30; 6; 22; 11; 4; 25].
Definition FP : list Z :=
  [40; 8; 48; 16; 56; 24; 64; 32; 39; 7; 47; 15; 55; 23; 63; 31;
   38; 6; 46; 14; 54; 22; 62; 30; 37; 5; 45; 13; 53; 21; 61; 29;
   36; 4; 44; 12; 52; 20; 60; 28; 35; 3; 43; 11; 51; 19; 59; 27;
   34; 2; 42; 10; 50; 18; 58; 26; 33; 1; 41; 9; 49; 17; 57; 25].
Definition sbox : list (list Z) :=
  [[14; 4; 13; 1; 2; 15; 11; 8; 3; 10; 6; 12; 5; 9; 0; 7;
   0; 15; 7; 4; 14; 2; 13; 1; 10; 6; 12; 11; 9; 5; 3; 8;
   4; 1; 14; 8; 13; 6; 2; 11; 15; 12; 9; 7; 3; 10; 5; 0;
   15; 12; 8; 2; 4; 9; 1; 7; 5; 11; 3; 14; 10; 0; 6; 13];
   [15; 1; 8; 14; 6; 11; 3; 4; 9; 7; 2; 13; 12; 0; 5; 10;
   3; 13; 4; 7; 15; 2; 8; 14; 12; 0; 1; 10; 6; 9; 11; 5;
   0; 14; 7; 11; 10; 4; 13; 1; 5; 8; 12; 6; 9; 3; 2; 15;
   13; 8; 10; 1; 3; 15; 4; 2; 11; 6; 7; 12; 0; 5; 14; 9];
   [10; 0; 9; 14; 6; 3; 15; 5; 1; 13; 12; 7; 11; 4; 2; 8;
   13; 7; 0; 9; 3; 4; 6; 10; 2; 8; 5; 14; 12; 11; 15; 1;
   13; 6; 4; 9; 8; 15; 3; 0; 11; 1; 2; 12; 5; 10; 14; 7;
   1; 10; 13; 0; 6; 9; 8; 7; 4; 15; 14; 3; 11; 5; 2; 12];
   [7; 13; 14; 3; 0; 6; 9; 10; 1; 2; 8; 5; 11; 12; 4; 15;
   13; 8; 11; 5; 6; 15; 0; 3; 4; 7; 2; 12; 1; 10; 14; 9;
   10; 6; 9; 0; 12; 11; 7; 13; 15; 1; 3; 14; 5; 2; 8; 4;
   3; 15; 0; 6; 10; 1; 13; 8; 9; 4; 5; 11; 12; 7; 2; 14];
   [2; 12; 4; 1; 7; 10; 11; 6; 8; 5; 3; 15; 13; 0; 14; 9;
   14; 11; 2; 12; 4; 7; 13; 1; 5; 0; 15; 10; 3; 9; 8; 6;
   4; 2; 1; 11; 10; 13; 7; 8; 15; 9; 12; 5; 6; 3; 0; 14;
   11; 8; 12; 7; 1; 14; 2; 13; 6; 15; 0; 9; 10; 4; 5; 3];
   [12; 1; 10; 15; 9; 2; 6; 8; 0; 13; 3; 4; 14; 7; 5; 11;
   10; 15; 4; 2; 7; 12; 9; 5; 6; 1; 13; 14; 0; 11; 3; 8;
   9; 14; 15; 5; 2; 8; 12; 3; 7; 0; 4; 10; 1; 13; 11; 6;
   4; 3; 2; 12; 9; 5; 15; 10; 11; 14; 1; 7; 6; 0; 8; 13];
   [4; 11; 2; 14; 15; 0; 8; 13; 3; 12; 9; 7; 5; 10; 6; 1;
   13; 0; 11; 7; 4; 9; 1; 10; 14; 3; 5; 12; 2; 15; 8; 6;
   1; 4; 11; 13; 12; 3; 7; 14; 10; 15; 6; 8; 0; 5; 9; 2;
   6; 11; 13; 8; 1; 4; 10; 7; 9; 5; 0; 15; 14; 2; 3; 12];
   [13; 2; 8; 4; 6; 15; 11; 1; 10; 9; 3; 14; 5; 0; 12; 7;
   1; 15; 13; 8; 10; 3; 7; 4; 12; 5; 6; 11; 0; 14; 9; 2;
   7; 11; 4; 1; 9; 12; 14; 2; 0; 6; 10; 13; 15; 3; 5; 8;
   2; 1; 14; 7; 4; 10; 8; 13; 15; 12; 9; 0; 3; 5; 6; 11]].

(** ** 32-bit shifts of the IOP *)

Definition sll (x n : Z) : Z := u32 (Z.shiftl x (n mod 32)).
Definition srl (x n : Z) : Z := Z.shiftr x (n mod 32).

(** ** The bit loops *)

(** [(shift << 26) >= 0] on an [int]: bit 5 of [shift] is clear. *)
Definition shift26 (shift : Z) : Z := s32 (Z.shiftl shift 26).

(** [BitMask] is (lo, hi) = (0, 0x80000000); the mask moved right by
    [shift] places, as (key1, key2) = (lo, hi). *)
Definition bitSelect (shift : Z) : Z * Z :=
  let BitMask_lo := 0 in
  let BitMask_hi := 0x80000000 in
  if 0 <=? shift26 shift then
    (if 0 <? shift26 shift
     then Z.lor (srl BitMask_lo shift) (sll BitMask_hi (- shift))
     else srl BitMask_lo shift,
     srl BitMask_hi shift)
  else (srl BitMask_hi shift, 0).

(** One round of the loop over a table: state is (out_lo, out_hi, BitPerm_lo,
    BitPerm_hi). *)
Definition permuteStep (in_lo in_hi : Z) (st : Z * Z * Z * Z) (t : Z) : Z * Z * Z * Z :=
  let '(out_lo, out_hi, BitPerm_lo, BitPerm_hi) := st in
  let shift := t - 1 in
  let '(key1, key2) := bitSelect shift in
  let set := nz (Z.lor (Z.land in_lo key1) (Z.land in_hi key2)) in
  (if set then Z.lor out_lo BitPerm_lo else out_lo,
   if set then Z.lor out_hi BitPerm_hi else out_hi,
   Z.lor (srl BitPerm_lo 1) (sll BitPerm_hi 31),
   srl BitPerm_hi 1).

(** [for(i = 0; i < n; i++)] over a table: (lo, hi) of the selected bits. *)
Definition permute (table : list Z) (in_lo in_hi : Z) : Z * Z :=
  let '(lo, hi, _, _) := foldl (permuteStep in_lo in_hi) (0, 0, 0, 0x80000000) table in
  (lo, hi).

(** ** Key schedule (phases 1 to 3) *)

Definition PermutedKeyMask_lo : Z := 0x0FFFFFFF.
Definition PermutedKeyMask_hi : Z := 0.
Definition Rot2Mask_lo : Z := 3.
Definition Rot2Mask_hi : Z := 0.
Definition Rot1Mask_lo : Z := 1.
Definition Rot1Mask_hi : Z := 0.

(** One rotation of a 28-bit half held in (lo, hi). *)
Definition rotateHalf (rot : Z) (pair : Z * Z) : Z * Z :=
  let '(lo, hi) := pair in
  let '(key1, key2, key3, key4) :=
    if negb (rot =? 1) then
      (Z.land (Z.lor (sll hi 6) (srl lo 26)) Rot2Mask_lo,
       Z.land (srl hi 26) Rot2Mask_hi,
       Z.lor (sll hi 2) (srl lo 30),
       sll lo 2)
    else
      (Z.land (Z.lor (sll hi 5) (srl lo 27)) Rot1Mask_lo,
       Z.land (srl hi 27) Rot1Mask_hi,
       Z.lor (sll hi 1) (srl lo 31),
       sll lo 1) in
  (Z.land (Z.lor key1 key4) PermutedKeyMask_lo,
   Z.land (Z.lor key2 key3) PermutedKeyMask_hi).

(** Phase 1 and the split into C0 and D0. *)
Definition initialHalves (password_lo password_hi : Z) : (Z * Z) * (Z * Z) :=
  let '(PermutedKey_lo, PermutedKey_hi) := permute PC1 password_lo password_hi in
  ((srl PermutedKey_hi 4, 0),
   (Z.land (Z.lor (srl PermutedKey_lo 8) (sll PermutedKey_hi 24)) PermutedKeyMask_lo,
    Z.land (srl PermutedKey_hi 8) PermutedKeyMask_hi)).

(** Phase 3 for one pair (Cn, Dn): the round key. *)
Definition roundKey (C D : Z * Z) : Z * Z :=
  let '(C_lo, _) := C in
  let '(D_lo, D_hi) := D in
  let input_lo := Z.lor 0 (sll D_lo 8) in
  let input_hi := Z.lor (Z.lor (sll C_lo 4) (sll D_hi 8)) (srl D_lo 24) in
  permute PC2 input_lo input_hi.

(** The 16 round keys, in order. *)
Fixpoint keySchedule (rots : list Z) (C D : Z * Z) : list (Z * Z) :=
  match rots with
  | [] => []
  | r :: rots' =>
      let C' := rotateHalf r C in
      let D' := rotateHalf r D in
      roundKey C' D' :: keySchedule rots' C' D'
  end.

(** ** Rounds (phases 4 to 8) *)

(** Shifting the 4-bit S-box output left by [shift] (32..60) into (lo, hi). *)
Definition sboxPlace (input shift : Z) : Z * Z :=
  let input_hi := 0 in
  if 0 <=? shift26 shift then
    (sll input shift,
     if 0 <? shift26 shift
     then Z.lor (sll input_hi shift) (srl input (- shift))
     else sll input_hi shift)
  else (0, sll input shift).

(** Phase 6: the S-boxes over the 48-bit value (eVal_lo, eVal_hi). *)
Definition sboxStep (st : Z * Z * Z * Z) (i : nat) : Z * Z * Z * Z :=
  let '(sVal_lo, sVal_hi, eVal_lo, eVal_hi) := st in
  let idx := Z.lor (Z.lor (Z.land eVal_lo 32)
                          (Z.land (Z.shiftr (Z.land eVal_lo 63) 1) 15))
                   (Z.land (Z.shiftl (Z.land eVal_lo 63) 4) 16) in
  let input := nth (Z.to_nat idx) (nth (7 - i) sbox []) 0 in
  let '(key4, key3) := sboxPlace input (32 + 4 * Z.of_nat i) in
  (Z.lor sVal_lo key4, Z.lor sVal_hi key3,
   Z.lor (srl eVal_lo 6) (sll eVal_hi 26), srl eVal_hi 6).

Definition substitute (eVal_lo eVal_hi : Z) : Z * Z :=
  let '(sVal_lo, sVal_hi, _, _) := foldl sboxStep (0, 0, eVal_lo, eVal_hi) (seq 0 8) in
  (sVal_lo, sVal_hi).

(** f(R, K): expansion, key mixing, S-boxes, permutation. *)
Definition cipherF (R K : Z * Z) : Z * Z :=
  let '(eVal_lo, eVal_hi) := permute Expansion R.1 R.2 in
  let eVal_lo := srl (Z.lxor eVal_lo K.1) 16 in
  let eVal_hi := Z.lxor eVal_hi K.2 in
  let eVal_lo := Z.lor eVal_lo (sll eVal_hi 16) in
  let eVal_hi := srl eVal_hi 16 in
  let '(sVal_lo, sVal_hi) := substitute eVal_lo eVal_hi in
  permute Permutation sVal_lo sVal_hi.

(** One round: (L, R) to (R, L xor f(R, K)). *)
Definition desRound (LR : (Z * Z) * (Z * Z)) (K : Z * Z) : (Z * Z) * (Z * Z) :=
  let '(L, R) := LR in
  let p := cipherF R K in
  (R, (Z.lxor L.1 p.1, Z.lxor L.2 p.2)).

(** The result as (output_lo, output_hi). *)
Definition DESEncryptPassword (id_lo id_hi password_lo password_hi : Z) : Z * Z :=
  let '(C0, D0) := initialHalves password_lo password_hi in
  let '(PermutedInput_lo, PermutedInput_hi) := permute IP id_lo id_hi in
  let L0 := (Z.land PermutedInput_lo 0, Z.land PermutedInput_hi 0xFFFFFFFF) in
  let R0 := (0, sll PermutedInput_lo 0) in
  let '(L16, R16) := foldl desRound (L0, R0) (keySchedule Rotations C0 D0) in
  let input_lo := Z.lor R16.1 (srl L16.2 0) in
  let input_hi := Z.lor R16.2 0 in
  permute FP input_lo input_hi.

(** [apaEncryptPassword(id, password_out, password_in)]: the 8 bytes written. *)
Definition apaEncryptPassword (id password_in : list Z) : list Z :=
  let w := words_of_bytes (take 8 id) in
  let p := words_of_bytes (take 8 password_in) in
  let '(lo, hi) := DESEncryptPassword (get32 w 0) (get32 w 1) (get32 p 0) (get32 p 1) in
  bytes_of_words [lo; hi].

(** The FIPS 46 worked example. *)
Example des_vector :
  DESEncryptPassword 0x89ABCDEF 0x01234567 0x9BBCDFF1 0x13345779
  = (0x0F0AB405, 0x85E81354).
Proof. vm_compute. reflexivity. Qed.
