(* ===== verification/ApaState.v ===== *)
(** * ApaState: the data of the APA partition manager

    The structures of iop/hdd/libapa/include/libapa.h and iop/hdd/apa/src/hdd.h,
    and the state the two modules share.  An [apa_header_t] is the 256 words of
    the two sectors it occupies on disk; its fields are accessors at the C
    offsets.  A cache entry is named by its index in [cacheBuf], so that the
    [next]/[tail] links, the aliasing of a buffer by two callers and the use of
    a buffer after it was freed are as in the code.  The drive (component Ata),
    the real-time clock, the allocator and the semaphore are the environment. *)

From stdpp Require Import base numbers list gmap.
From Stdlib Require Import ZArith Lia.
From S2P Require Import Prelude Ata.

Open Scope Z_scope.
Open Scope c_scope.

(** ** Constants of libapa.h and hdd-ioctl.h *)

Definition APA_SECTOR_MBR : Z := 0.
Definition APA_SECTOR_SECTOR_ERROR : Z := 6.
Definition APA_SECTOR_PART_ERROR : Z := 7.
Definition APA_SECTOR_APAL : Z := 8.
Definition APA_SECTOR_APAL_HEADERS : Z := 10.
Definition APA_MAGIC : Z := 0x00415041.
Definition APAL_MAGIC : Z := 0x4150414C.
Definition APA_MBR_VERSION : Z := 2.
Definition APA_MODVER : Z := 0x0201.
Definition APA_IDMAX : nat := 32.
Definition APA_PASSMAX : nat := 8.
Definition APA_MAXSUB : Z := 64.
Definition APA_TYPE_FREE : Z := 0.
Definition APA_TYPE_MBR : Z := 1.
Definition APA_TYPE_EXT2SWAP : Z := 0x82.
Definition APA_TYPE_EXT2 : Z := 0x83.
Definition APA_TYPE_PFS : Z := 0x100.
Definition APA_TYPE_CFS : Z := 0x101.
Definition APA_FLAG_SUB : Z := 1.
Definition APA_IO_MODE_READ : Z := 0.
Definition APA_IO_MODE_WRITE : Z := 1.
Definition APA_CACHE_FLAG_DIRTY : Z := 1.

(** ** [apa_header_t]: 256 words, fields at their C offsets *)

Definition h_checksum (h : buf) : Z := get32 h 0.
Definition h_magic (h : buf) : Z := get32 h 1.
Definition h_next (h : buf) : Z := get32 h 2.
Definition h_prev (h : buf) : Z := get32 h 3.
Definition h_id (h : buf) : list Z := bytes_of_words (words_at h 4 8).
Definition h_rpwd (h : buf) : list Z := bytes_of_words (words_at h 12 2).
Definition h_fpwd (h : buf) : list Z := bytes_of_words (words_at h 14 2).
Definition h_start (h : buf) : Z := get32 h 16.
Definition h_length (h : buf) : Z := get32 h 17.
Definition h_type (h : buf) : Z := get16 h 18 0.
Definition h_flags (h : buf) : Z := get16 h 18 1.
Definition h_nsub (h : buf) : Z := get32 h 19.
Definition h_created (h : buf) : buf := words_at h 20 2.
Definition h_main (h : buf) : Z := get32 h 22.
Definition h_number (h : buf) : Z := get32 h 23.
Definition h_mbr_magic (h : buf) : list Z := bytes_of_words (words_at h 64 8).
Definition h_mbr_version (h : buf) : Z := get32 h 72.
Definition h_sub_start (h : buf) (i : nat) : Z := get32 h (128 + 2 * i).
Definition h_sub_length (h : buf) (i : nat) : Z := get32 h (129 + 2 * i).

Definition set_checksum (v : Z) : buf -> buf := set32 0 v.
Definition set_magic (v : Z) : buf -> buf := set32 1 v.
Definition set_next (v : Z) : buf -> buf := set32 2 v.
Definition set_prev (v : Z) : buf -> buf := set32 3 v.
Definition set_id (bs : list Z) : buf -> buf := put_words 4 (words_of_bytes (take 32 bs)).
Definition set_rpwd (bs : list Z) : buf -> buf := put_words 12 (words_of_bytes (take 8 bs)).
Definition set_fpwd (bs : list Z) : buf -> buf := put_words 14 (words_of_bytes (take 8 bs)).
Definition set_start (v : Z) : buf -> buf := set32 16 v.
Definition set_length (v : Z) : buf -> buf := set32 17 v.
Definition set_type (v : Z) : buf -> buf := set16 18 0 v.
Definition set_hflags (v : Z) : buf -> buf := set16 18 1 v.
Definition set_nsub (v : Z) : buf -> buf := set32 19 v.
Definition set_created (t : buf) : buf -> buf := put_words 20 t.
Definition set_main (v : Z) : buf -> buf := set32 22 v.
Definition set_number (v : Z) : buf -> buf := set32 23 v.
Definition set_modver (v : Z) : buf -> buf := set32 24 v.
Definition set_mbr_magic (bs : list Z) : buf -> buf := put_words 64 (words_of_bytes (take 32 bs)).
Definition set_mbr_version (v : Z) : buf -> buf := set32 72 v.
Definition set_mbr_nsector (v : Z) : buf -> buf := set32 73 v.
Definition set_mbr_created (t : buf) : buf -> buf := put_words 74 t.
Definition set_mbr_osdStart (v : Z) : buf -> buf := set32 76 v.
Definition set_mbr_osdSize (v : Z) : buf -> buf := set32 77 v.
Definition set_sub (i : nat) (start len : Z) (h : buf) : buf :=
  set32 (129 + 2 * i) len (set32 (128 + 2 * i) start h).

(** C strings as byte lists; a [char] array is padded with NULs. *)
Definition pad (n : nat) (bs : list Z) : list Z := take n (bs ++ replicate n 0).

(** The bytes up to the first NUL: [strlen], and what [strcpy] copies. *)
Fixpoint cstr (bs : list Z) : list Z :=
  match bs with
  | [] => []
  | c :: bs' => if c =? 0 then [] else c :: cstr bs'
  end.

(** [memcmp(a, b, n) == 0] and [strncmp(a, b, n) == 0]. *)
Definition memeq (a b : list Z) (n : nat) : bool := bool_decide (take n a = take n b).
Definition strneq (a b : list Z) (n : nat) : bool :=
  bool_decide (cstr (take n a) = cstr (take n b)).

(** String constants of the code, as their bytes. *)
Definition str_empty : list Z := [95; 95; 101; 109; 112; 116; 121].        (* "__empty" *)
Definition str_tmp : list Z := [95; 116; 109; 112].                        (* "_tmp" *)
Definition str_mbr : list Z := [95; 95; 109; 98; 114].                     (* "__mbr" *)
(* "Sony Computer Entertainment Inc." *)
Definition apaMBRMagic : list Z :=
  [83; 111; 110; 121; 32; 67; 111; 109; 112; 117; 116; 101; 114; 32; 69; 110;
   116; 101; 114; 116; 97; 105; 110; 109; 101; 110; 116; 32; 73; 110; 99; 46].

(** [strcpy] of a constant over the [id] field: the bytes and a NUL. *)
Definition strcpy_id (s : list Z) (h : buf) : buf :=
  set_id (s ++ [0] ++ drop (length s + 1) (h_id h)) h.

(** ** Records *)

Record apa_cache_t := mkCache {
  c_next : nat;
  c_tail : nat;
  c_flags : Z;
  c_nused : Z;
  c_device : Z;
  c_sector : Z;
  c_header : buf
}.

Record apa_params_t := mkParams {
  p_id : list Z;      (* char[APA_IDMAX] *)
  p_fpwd : list Z;    (* char[APA_PASSMAX] *)
  p_rpwd : list Z;
  p_size : Z;
  p_type : Z;
  p_flags : Z;
  p_main : Z;
  p_number : Z
}.

Record apa_device_t := mkDevice {
  d_totalLBA : Z;
  d_partitionMaxSize : Z;
  d_format : Z;
  d_status : Z
}.

(** [sceCdCLOCK] of libcdvd-common.h (BCD fields). *)
Record sceCdCLOCK := mkClock {
  cd_stat : Z; cd_second : Z; cd_minute : Z; cd_hour : Z;
  cd_day : Z; cd_month : Z; cd_year : Z
}.

Record hdd_file_slot_t := mkSlot {
  s_f : option nat;          (* iop_file_t *f *)
  s_post : Z;
  s_nsub : Z;
  s_type : Z;
  s_id : list Z;
  s_parts : list (Z * Z)     (* apa_sub_t parts[APA_MAXSUB+1] *)
}.

Record iop_file_t := mkFile {
  f_mode : Z;
  f_unit : Z;
  f_privdata : option nat    (* index of the file slot *)
}.

(** ** The state *)

Record world := mkWorld {
  ata : ata_st;
  cacheBuf : list apa_cache_t;
  cacheSize : Z;
  journalBuf : buf;                       (* apa_journal_t, 128 words *)
  timeBuf : buf;                          (* the static of apaGetTime *)
  hddDevices : list apa_device_t;
  hddFileSlots : list hdd_file_slot_t;
  apaMaxOpen : Z;
  fioSema : option Z;                     (* count of the binary semaphore, if created *)
  files : list iop_file_t;
  sceCdReadClock : nat -> Z * sceCdCLOCK; (* clock script *)
  nclock : nat;
  heap : nat -> option (nat -> buf);      (* allocation script: NULL, or the
                                             uninitialised memory obtained *)
  nalloc : nat
}.

Definition with_ata (a : ata_st) (w : world) : world :=
  mkWorld a (cacheBuf w) (cacheSize w) (journalBuf w) (timeBuf w) (hddDevices w)
    (hddFileSlots w) (apaMaxOpen w) (fioSema w) (files w) (sceCdReadClock w) (nclock w)
    (heap w) (nalloc w).
Definition with_cache (c : list apa_cache_t) (w : world) : world :=
  mkWorld (ata w) c (cacheSize w) (journalBuf w) (timeBuf w) (hddDevices w)
    (hddFileSlots w) (apaMaxOpen w) (fioSema w) (files w) (sceCdReadClock w) (nclock w)
    (heap w) (nalloc w).
Definition with_cacheSize (n : Z) (w : world) : world :=
  mkWorld (ata w) (cacheBuf w) n (journalBuf w) (timeBuf w) (hddDevices w)
    (hddFileSlots w) (apaMaxOpen w) (fioSema w) (files w) (sceCdReadClock w) (nclock w)
    (heap w) (nalloc w).
Definition with_journal (j : buf) (w : world) : world :=
  mkWorld (ata w) (cacheBuf w) (cacheSize w) j (timeBuf w) (hddDevices w)
    (hddFileSlots w) (apaMaxOpen w) (fioSema w) (files w) (sceCdReadClock w) (nclock w)
    (heap w) (nalloc w).
Definition with_time (t : buf) (n : nat) (w : world) : world :=
  mkWorld (ata w) (cacheBuf w) (cacheSize w) (journalBuf w) t (hddDevices w)
    (hddFileSlots w) (apaMaxOpen w) (fioSema w) (files w) (sceCdReadClock w) n
    (heap w) (nalloc w).
Definition with_devices (d : list apa_device_t) (w : world) : world :=
  mkWorld (ata w) (cacheBuf w) (cacheSize w) (journalBuf w) (timeBuf w) d
    (hddFileSlots w) (apaMaxOpen w) (fioSema w) (files w) (sceCdReadClock w) (nclock w)
    (heap w) (nalloc w).
Definition with_slots (s : list hdd_file_slot_t) (w : world) : world :=
  mkWorld (ata w) (cacheBuf w) (cacheSize w) (journalBuf w) (timeBuf w) (hddDevices w)
    s (apaMaxOpen w) (fioSema w) (files w) (sceCdReadClock w) (nclock w)
    (heap w) (nalloc w).
Definition with_maxOpen (n : Z) (w : world) : world :=
  mkWorld (ata w) (cacheBuf w) (cacheSize w) (journalBuf w) (timeBuf w) (hddDevices w)
    (hddFileSlots w) n (fioSema w) (files w) (sceCdReadClock w) (nclock w)
    (heap w) (nalloc w).
Definition with_sema (n : option Z) (w : world) : world :=
  mkWorld (ata w) (cacheBuf w) (cacheSize w) (journalBuf w) (timeBuf w) (hddDevices w)
    (hddFileSlots w) (apaMaxOpen w) n (files w) (sceCdReadClock w) (nclock w)
    (heap w) (nalloc w).
Definition with_files (fs : list iop_file_t) (w : world) : world :=
  mkWorld (ata w) (cacheBuf w) (cacheSize w) (journalBuf w) (timeBuf w) (hddDevices w)
    (hddFileSlots w) (apaMaxOpen w) (fioSema w) fs (sceCdReadClock w) (nclock w)
    (heap w) (nalloc w).
Definition with_nalloc (n : nat) (w : world) : world :=
  mkWorld (ata w) (cacheBuf w) (cacheSize w) (journalBuf w) (timeBuf w) (hddDevices w)
    (hddFileSlots w) (apaMaxOpen w) (fioSema w) (files w) (sceCdReadClock w) (nclock w)
    (heap w) n.

(** ** Pointers into the cache

    [apa_cache_t *] is an index of [cacheBuf]; NULL is [None]. *)

Abbreviation cptr := (option nat).

(** A drive operation, on the drive's part of the state. *)
Definition ata_op {A} (m : M ata_st A) : M world A := fun w =>
  match m (ata w) with
  | Done a st => Done a (with_ata st w)
  | Undef => Undef
  | NoFuel => NoFuel
  end.

Definition cget (p : nat) : M world apa_cache_t := fun w =>
  match cacheBuf w !! p with
  | Some c => Done c w
  | None => Undef
  end.

Definition cmod (p : nat) (f : apa_cache_t -> apa_cache_t) : M world unit := fun w =>
  match cacheBuf w !! p with
  | Some c => Done tt (with_cache (<[p := f c]> (cacheBuf w)) w)
  | None => Undef
  end.

Definition header (p : nat) : M world buf := c <- cget p ;; ret (c_header c).

Definition upd_next (n : nat) (c : apa_cache_t) : apa_cache_t :=
  mkCache n (c_tail c) (c_flags c) (c_nused c) (c_device c) (c_sector c) (c_header c).
Definition upd_tail (n : nat) (c : apa_cache_t) : apa_cache_t :=
  mkCache (c_next c) n (c_flags c) (c_nused c) (c_device c) (c_sector c) (c_header c).
Definition upd_flags (v : Z) (c : apa_cache_t) : apa_cache_t :=
  mkCache (c_next c) (c_tail c) (u16 v) (c_nused c) (c_device c) (c_sector c) (c_header c).
Definition upd_nused (v : Z) (c : apa_cache_t) : apa_cache_t :=
  mkCache (c_next c) (c_tail c) (c_flags c) (u16 v) (c_device c) (c_sector c) (c_header c).
Definition upd_device (v : Z) (c : apa_cache_t) : apa_cache_t :=
  mkCache (c_next c) (c_tail c) (c_flags c) (c_nused c) (s32 v) (c_sector c) (c_header c).
Definition upd_sector (v : Z) (c : apa_cache_t) : apa_cache_t :=
  mkCache (c_next c) (c_tail c) (c_flags c) (c_nused c) (c_device c) (u32 v) (c_header c).
Definition upd_header (h : buf) (c : apa_cache_t) : apa_cache_t :=
  mkCache (c_next c) (c_tail c) (c_flags c) (c_nused c) (c_device c) (c_sector c) h.

(** [clink->header->field = v] and [clink->flags |= APA_CACHE_FLAG_DIRTY]. *)
Definition hmod (p : nat) (f : buf -> buf) : M world unit :=
  cmod p (fun c => upd_header (f (c_header c)) c).
Definition dirty (c : apa_cache_t) : bool := nz (Z.land (c_flags c) APA_CACHE_FLAG_DIRTY).
Definition mark_dirty (p : nat) : M world unit :=
  cmod p (fun c => upd_flags (Z.lor (c_flags c) APA_CACHE_FLAG_DIRTY) c).

(** Indices of the cache buffers: [for(i=1;i<cacheSize+1;i++)]. *)
Definition cache_indices (w : world) : list nat := seq 1 (Z.to_nat (cacheSize w)).
