(* ===== verification/ApaCache.v ===== *)
(** * ApaCache: header cache and journal of libapa

    iop/hdd/libapa/src/cache.c and journal.c, with the header I/O of apa.c
    ([apaCheckSum], [apaReadHeader], [apaWriteHeader], [apaSaveError]) and the
    services of misc.c they use.  The free buffers form a ring through
    [cacheBuf[0]]; buffers are taken from its front and put back at its end
    (front, after a failed read), and looked up by (device, sector).
    [apaCacheFlushAllDirty] writes every dirty header to the journal, commits
    the journal, writes the headers in place and resets the journal. *)

From stdpp Require Import base numbers list gmap.
From Stdlib Require Import ZArith Lia.
From S2P Require Import Prelude Ata ApaState.

Open Scope Z_scope.
Open Scope c_scope.

(** ** misc.c *)

(** [apaAllocMem]: the next answer of the system allocator. *)
Definition apaAllocMem : M world (option (nat -> buf)) := fun w =>
  Done (heap w (nalloc w)) (with_nalloc (S (nalloc w)) w).

(** BCD to int. *)
Definition btoi (b : Z) : Z := b / 16 * 10 + b mod 16.

(** An [apa_ps2time_t] as its two words. *)
Definition ps2time (sec min hour day month year : Z) : buf :=
  [Z.shiftl (u8 sec) 8 + Z.shiftl (u8 min) 16 + Z.shiftl (u8 hour) 24;
   u8 day + Z.shiftl (u8 month) 8 + Z.shiftl (u16 year) 16].

(** The clock is read up to 20 times; [timeBuf] keeps the last good value. *)
Definition apaGetTime : M world buf :=
  r <- for_break (seq 0 20)
        (fun _ (_ : unit) =>
           rc <- gets (fun w => sceCdReadClock w (nclock w)) ;;
           modify (fun w => with_time (timeBuf w) (S (nclock w)) w) ;;;
           let '(rv, cdtime) := rc in
           if nz rv && (cd_stat cdtime =? 0) then
             modify (fun w =>
               with_time (ps2time (btoi (cd_second cdtime)) (btoi (cd_minute cdtime))
                            (btoi (cd_hour cdtime)) (btoi (cd_day cdtime))
                            (btoi (Z.land (cd_month cdtime) 127))
                            (btoi (cd_year cdtime) + 2000)) (nclock w) w) ;;;
             ret (inr tt)
           else if negb (nz (Z.land (cd_stat cdtime) 128)) then ret (inr tt)
           else ret (inl tt)) tt ;;
  gets timeBuf.

(** ** Header I/O of apa.c *)

(** A transfer between the drive and the header buffer of entry [p]. *)
Definition cache_io (device : Z) (p : nat) (lba n dir : Z) : M world Z :=
  h <- header p ;;
  let* (res, h') := ata_op (ata_device_sector_io device h lba n dir) in
  hmod p (fun _ => h') ;;;
  ret res.

Definition apaCheckSum (h : buf) : Z :=
  foldl (fun sum i => u32 (sum + get32 h i)) 0 (seq 1 255).

Definition apaSaveError (device : Z) (p : nat) (lba err_lba : Z) : M world unit :=
  hmod p (fun h => set32 0 err_lba (put_words 0 (zeros 128) h)) ;;;
  cache_io device p lba 1 ATA_DIR_WRITE ;;;
  ata_op (ata_device_flush_cache device) ;;;
  ret tt.

Definition apaReadHeader (device : Z) (p : nat) (lba : Z) : M world Z :=
  res <- cache_io device p lba 2 ATA_DIR_READ ;;
  h <- header p ;;
  if nz res then ret (- EIO)
  else if negb (h_magic h =? APA_MAGIC) then ret (- EIO)
  else if negb (apaCheckSum h =? h_checksum h) then ret (- EIO)
  else if lba =? APA_SECTOR_MBR then
    if strneq (h_mbr_magic h) apaMBRMagic 32 then ret 0 else ret (- EIO)
  else ret 0.

Definition apaWriteHeader (device : Z) (p : nat) (lba : Z) : M world Z :=
  res <- cache_io device p lba 2 ATA_DIR_WRITE ;;
  if nz res then ret (- EIO) else ret 0.

(** ** cache.c: the free ring *)

Definition apaCacheLink (clink cnew : nat) : M world unit :=
  cmod cnew (upd_tail clink) ;;;
  c <- cget clink ;;
  cmod cnew (upd_next (c_next c)) ;;;
  c <- cget clink ;;
  cmod (c_next c) (upd_tail cnew) ;;;
  cmod clink (upd_next cnew).

Definition apaCacheUnLink (clink : nat) : M world nat :=
  c <- cget clink ;;
  cmod (c_tail c) (upd_next (c_next c)) ;;;
  c <- cget clink ;;
  cmod (c_next c) (upd_tail (c_tail c)) ;;;
  ret clink.

(** [(cacheBuf->tail==cacheBuf) && (cacheBuf->tail==cacheBuf->tail->next)] *)
Definition freeRingEmpty : M world bool :=
  c0 <- cget 0 ;;
  t <- cget (c_tail c0) ;;
  ret ((c_tail c0 =? 0)%nat && (c_tail c0 =? c_next t)%nat).

Definition apaCacheInit (size : Z) : M world Z :=
  modify (with_cacheSize size) ;;;
  hdrs <- apaAllocMem ;;
  match hdrs with
  | None => ret (- ENOMEM)
  | Some mem =>
      cb <- apaAllocMem ;;
      match cb with
      | None => modify (with_cache []) ;;; ret (- ENOMEM)
      | Some _ =>
          (* memset(cacheBuf, 0, ...); headers are not initialised *)
          modify (with_cache
            (mkCache 0 0 0 0 0 0 [] ::
             replicate (Z.to_nat size) (mkCache 0 0 0 0 0 0 []))) ;;;
          for_ (seq 1 (Z.to_nat size))
            (fun i (_ : unit) =>
               cmod i (upd_header (take 256 (mem (i - 1)%nat ++ zeros 256))) ;;;
               cmod i (upd_device (-1)) ;;;
               c0 <- cget 0 ;;
               apaCacheLink (c_tail c0) i) tt ;;;
          ret 0
      end
  end.

Definition apaCacheFree (p : cptr) : M world unit :=
  match p with
  | None => ret tt
  | Some clink =>
      c <- cget clink ;;
      if c_nused c =? 0 then ret tt
      else
        cmod clink (upd_nused (c_nused c - 1)) ;;;
        c <- cget clink ;;
        when (c_nused c =? 0)
          (c0 <- cget 0 ;; apaCacheLink (c_tail c0) clink)
  end.

Definition apaCacheAlloc : M world cptr :=
  empty <- freeRingEmpty ;;
  if empty : bool then ret None
  else
    c0 <- cget 0 ;;
    let cnext := c_next c0 in
    cmod cnext (upd_nused 1) ;;;
    cmod cnext (upd_flags 0) ;;;
    cmod cnext (upd_device (-1)) ;;;
    cmod cnext (upd_sector (-1)) ;;;
    p <- apaCacheUnLink cnext ;;
    ret (Some p).

(** ** journal.c

    [journalBuf]: word 0 magic, word 1 num, words 2..127 sectors. *)

Definition j_num (j : buf) : Z := s32 (get32 j 1).

Definition apaJournalFlush (device : Z) : M world Z :=
  r <- ata_op (ata_device_flush_cache device) ;;
  if nz r then ret (- EIO) else
  j <- gets journalBuf ;;
  let* (r, _) := ata_op (ata_device_sector_io device j APA_SECTOR_APAL 1 ATA_DIR_WRITE) in
  if nz r then ret (- EIO) else
  r <- ata_op (ata_device_flush_cache device) ;;
  if nz r then ret (- EIO) else ret 0.

Definition empty_journal : buf := set32 0 APAL_MAGIC (zeros 128).

Definition apaJournalReset (device : Z) : M world Z :=
  modify (with_journal empty_journal) ;;;
  apaJournalFlush device.

(** [journalBuf.sectors] has 126 entries. *)
Definition apaJournalWrite (clink : nat) : M world Z :=
  hmod clink (fun h => set_checksum (apaCheckSum h) h) ;;;
  c <- cget clink ;;
  j <- gets journalBuf ;;
  r <- cache_io (c_device c) clink
         (u32 (Z.shiftl (j_num j) 1 + APA_SECTOR_APAL_HEADERS)) 2 ATA_DIR_WRITE ;;
  if nz r then ret (- EIO)
  else if (j_num j <? 0) || (126 <=? j_num j) then undef
  else
    modify (fun w => with_journal (set32 (2 + Z.to_nat (j_num j)) (c_sector c) (journalBuf w)) w) ;;;
    modify (fun w => with_journal (set32 1 (j_num (journalBuf w) + 1) (journalBuf w)) w) ;;;
    ret 0.

Definition apaJournalRestore (device : Z) : M world Z :=
  j <- gets journalBuf ;;
  let* (r, j') := ata_op (ata_device_sector_io device j APA_SECTOR_APAL 1 ATA_DIR_READ) in
  modify (with_journal j') ;;;
  if nz r then apaJournalReset device ;;; ret (- EIO)
  else
    j <- gets journalBuf ;;
    if get32 j 0 =? APAL_MAGIC then
      if j_num j =? 0 then ret 0
      else
        clink <- apaCacheAlloc ;;
        for_break (seq 0 (Z.to_nat (j_num j)))
          (fun i (_ : unit) =>
             match clink with
             | None => undef
             | Some p =>
                 r <- cache_io device p (APA_SECTOR_APAL_HEADERS + 2 * Z.of_nat i) 2 ATA_DIR_READ ;;
                 if nz r then ret (inr tt)
                 else if (126 <=? i)%nat then undef
                 else
                   r <- cache_io device p (get32 j (2 + i)) 2 ATA_DIR_WRITE ;;
                   if nz r then ret (inr tt) else ret (inl tt)
             end) tt ;;;
        apaCacheFree clink ;;;
        apaJournalReset device
    else
      modify (with_journal empty_journal) ;;;
      ret 0.

(** ** cache.c: transfers and lookup *)

Definition apaCacheTransfer (clink : nat) (type : Z) : M world Z :=
  c <- cget clink ;;
  err <- (if nz type then apaWriteHeader (c_device c) clink (c_sector c)
          else apaReadHeader (c_device c) clink (c_sector c)) ;;
  when (nz err && (type =? 0))
    (apaSaveError (c_device c) clink APA_SECTOR_SECTOR_ERROR (c_sector c)) ;;;
  cmod clink (fun c => upd_flags (Z.ldiff (c_flags c) APA_CACHE_FLAG_DIRTY) c) ;;;
  ret err.

Definition apaCacheFlushDirty (clink : nat) : M world unit :=
  c <- cget clink ;;
  when (dirty c) (apaCacheTransfer clink APA_IO_MODE_WRITE ;;; ret tt).

(** One pass over the buffers: [op] on every dirty one of [device]. *)
Definition forDirty (device : Z) (op : nat -> M world Z) : M world unit :=
  idx <- gets cache_indices ;;
  for_ idx (fun i (_ : unit) =>
    c <- cget i ;;
    when (dirty c && (c_device c =? device)) (op i ;;; ret tt)) tt.

Definition apaCacheFlushAllDirty (device : Z) : M world Z :=
  forDirty device apaJournalWrite ;;;
  apaJournalFlush device ;;;
  forDirty device (fun i => apaCacheTransfer i APA_IO_MODE_WRITE) ;;;
  apaJournalReset device.

(** The first buffer holding (device, sector). *)
Definition cacheLookup (device sector : Z) : M world cptr :=
  idx <- gets cache_indices ;;
  r <- for_break idx (fun i (_ : unit) =>
         c <- cget i ;;
         if (c_sector c =? sector) && (c_device c =? device) then ret (inr i)
         else ret (inl tt)) tt ;;
  match r with inl _ => ret None | inr i => ret (Some i) end.

(** Result: the buffer (NULL on failure) and [*result]. *)
Definition apaCacheGetHeader (device sector mode : Z) : M world (cptr * Z) :=
  found <- cacheLookup device sector ;;
  match found with
  | Some clink =>
      c <- cget clink ;;
      when (c_nused c =? 0) (apaCacheUnLink clink ;;; ret tt) ;;;
      cmod clink (fun c => upd_nused (c_nused c + 1) c) ;;;
      ret (Some clink, 0)
  | None =>
      empty <- freeRingEmpty ;;
      if empty : bool then ret (None, - ENOMEM)
      else
        c0 <- cget 0 ;;
        let clink := c_next c0 in
        cmod clink (upd_flags 0) ;;;
        cmod clink (upd_nused 1) ;;;
        cmod clink (upd_device device) ;;;
        cmod clink (upd_sector sector) ;;;
        apaCacheUnLink clink ;;;
        if negb (nz mode) then
          result <- apaCacheTransfer clink APA_IO_MODE_READ ;;
          if result <? 0 then
            cmod clink (upd_nused 0) ;;;
            cmod clink (upd_device (-1)) ;;;
            apaCacheLink 0 clink ;;;
            ret (None, result)
          else ret (Some clink, result)
        else ret (Some clink, 0)
  end.
