(* ===== verification/ApaFacts.v ===== *)
(** * ApaFacts: equations for the primitive steps of libapa

    How each primitive acts on the state when the drive does not fail: buffer
    access, header transfers, journal writes.  The drive's effect is stated as
    an extension of its trace ([logs]), from which its contents follow by
    [replay]. *)

From stdpp Require Import base numbers list gmap.
From Stdlib Require Import ZArith Lia.
From S2P Require Import Prelude Ata ApaState ApaCache.

Open Scope Z_scope.
Open Scope c_scope.

(** ** Buffers in the state *)

Definition hdr_len (c : apa_cache_t) : Prop := length (c_header c) = 256%nat.

Lemma cget_Done w p c : cacheBuf w !! p = Some c -> cget p w = Done c w.
Proof. unfold cget. by intros ->. Qed.

Lemma cmod_Done w p c f :
  cacheBuf w !! p = Some c ->
  cmod p f w = Done tt (with_cache (<[p := f c]> (cacheBuf w)) w).
Proof. unfold cmod. by intros ->. Qed.

Lemma header_Done w p c : cacheBuf w !! p = Some c -> header p w = Done (c_header c) w.
Proof. unfold header, bind, cget. by intros ->. Qed.

Lemma with_cache_with_cache c1 c2 w : with_cache c1 (with_cache c2 w) = with_cache c1 w.
Proof. reflexivity. Qed.

Lemma with_cache_id w : with_cache (cacheBuf w) w = w.
Proof. by destruct w. Qed.

Lemma with_ata_id w : with_ata (ata w) w = w.
Proof. by destruct w. Qed.

Lemma cache_insert_id w p c :
  cacheBuf w !! p = Some c -> with_cache (<[p := c]> (cacheBuf w)) w = w.
Proof. intros H. rewrite list_insert_id by exact H. apply with_cache_id. Qed.

(** The two sectors of a header. *)
Definition hdr_events (device lba : Z) (h : buf) : list event :=
  run_events device lba (sectors_of 2 h).
Arguments hdr_events : simpl never.

Lemma hdr_events_ok device lba h : length h = 256%nat -> sectors_ok (hdr_events device lba h).
Proof.
  intros H. unfold hdr_events. simpl. repeat constructor.
  - rewrite length_take. lia.
  - rewrite length_take, length_drop. lia.
Qed.

(** Writing the two sectors of a header buffer. *)
Lemma cache_io_write w device p c lba :
  drive_ok (ata w) -> addressable (ata w) device lba 2 ->
  cacheBuf w !! p = Some c -> hdr_len c ->
  exists st, cache_io device p lba 2 ATA_DIR_WRITE w = Done 0 (with_ata st w) /\
             logs (ata w) st (hdr_events device lba (c_header c)).
Proof.
  intros [Hf Hd] Ha Hp Hl. unfold hdr_len in Hl.
  exists (issue 1 (write_sectors device lba (sectors_of 2 (c_header c)) (ata w))).
  split; [|apply logs_issue, logs_write_sectors].
  unfold cache_io. erewrite bind_Done by (apply header_Done, Hp).
  unfold bind at 1, ata_op. rewrite sector_io_small by (auto; lia).
  unfold drive_move. change (ATA_DIR_WRITE =? ATA_DIR_WRITE) with true. cbv iota.
  change (Z.to_nat 2) with 2%nat. simpl fst. simpl snd.
  unfold bind, hmod, cmod. simpl cacheBuf. rewrite Hp. unfold ret.
  f_equal. replace (upd_header (c_header c) c) with c by by destruct c.
  rewrite list_insert_id by exact Hp. apply (with_cache_id (with_ata _ w)).
Qed.

(** Reading two sectors into a header buffer. *)
Lemma cache_io_read w device p c lba :
  drive_ok (ata w) -> addressable (ata w) device lba 2 ->
  cacheBuf w !! p = Some c -> hdr_len c ->
  cache_io device p lba 2 ATA_DIR_READ w =
  Done 0 (with_cache (<[p := upd_header (read_sectors (ata w) device lba 2) c]> (cacheBuf w))
            (with_ata (issue 1 (ata w)) w)).
Proof.
  intros [Hf Hd] Ha Hp Hl. unfold hdr_len in Hl.
  unfold cache_io. erewrite bind_Done by (apply header_Done, Hp).
  unfold bind at 1, ata_op. rewrite sector_io_small by (auto; lia).
  unfold drive_move. change (ATA_DIR_READ =? ATA_DIR_WRITE) with false. cbv iota.
  change (Z.to_nat 2) with 2%nat. simpl fst. simpl snd.
  rewrite drop_ge by lia. rewrite app_nil_r.
  unfold bind, hmod, cmod. simpl cacheBuf. rewrite Hp. reflexivity.
Qed.

(** ** Journal steps *)

Lemma sector_io_write1 st device b lba :
  drive_ok st -> addressable st device lba 1 -> length b = 128%nat ->
  exists st', ata_device_sector_io device b lba 1 ATA_DIR_WRITE st = Done (0, b) st' /\
              logs st st' [EvWrite device lba b].
Proof.
  intros [Hf Hd] Ha Hl. rewrite sector_io_small by (auto; lia).
  unfold drive_move. change (ATA_DIR_WRITE =? ATA_DIR_WRITE) with true. cbv iota.
  change (Z.to_nat 1) with 1%nat. simpl fst. simpl snd.
  eexists. split; [reflexivity|]. apply logs_issue.
  pose proof (logs_write_sectors device lba (sectors_of 1 b) st) as H.
  simpl in H. simpl. rewrite take_ge in * by lia. exact H.
Qed.

(** Flush, journal sector, flush. *)
Definition commit_events (device : Z) (j : buf) : list event :=
  [EvFlush device; EvWrite device APA_SECTOR_APAL j; EvFlush device].

Lemma commit_events_ok device j : length j = 128%nat -> sectors_ok (commit_events device j).
Proof. intros H. repeat constructor; auto. Qed.

Lemma addressable_low st device lba n :
  0 <= device -> 0 <= lba -> 0 <= n -> lba + n <= 2 ^ 28 -> addressable st device lba n.
Proof. intros. unfold addressable. repeat split; try lia. Qed.

Lemma apaJournalFlush_ok w device :
  drive_ok (ata w) -> 0 <= device -> length (journalBuf w) = 128%nat ->
  exists st, apaJournalFlush device w = Done 0 (with_ata st w) /\
             logs (ata w) st (commit_events device (journalBuf w)).
Proof.
  intros Hd Hdev Hl.
  destruct (flush_cache_logs (ata w) device Hd) as (s1 & E1 & L1).
  assert (Hd1 : drive_ok s1) by (eapply logs_drive_ok; [exact L1 | exact Hd | repeat constructor]).
  destruct (sector_io_write1 s1 device (journalBuf w) APA_SECTOR_APAL Hd1) as (s2 & E2 & L2);
    [apply addressable_low; unfold APA_SECTOR_APAL; lia | exact Hl |].
  assert (Hd2 : drive_ok s2)
    by (eapply logs_drive_ok; [exact L2 | exact Hd1 | repeat constructor; exact Hl]).
  destruct (flush_cache_logs s2 device Hd2) as (s3 & E3 & L3).
  exists s3. split.
  - unfold apaJournalFlush, bind, ata_op. rewrite E1. simpl. rewrite E2. simpl.
    rewrite E3. reflexivity.
  - change (commit_events device (journalBuf w))
      with ([EvFlush device] ++ [EvWrite device APA_SECTOR_APAL (journalBuf w)] ++ [EvFlush device]).
    eapply logs_trans; [exact L1|]. eapply logs_trans; [exact L2 | exact L3].
Qed.

Lemma length_empty_journal : length empty_journal = 128%nat.
Proof. reflexivity. Qed.

Lemma apaJournalReset_ok w device :
  drive_ok (ata w) -> 0 <= device ->
  exists st, apaJournalReset device w = Done 0 (with_ata st (with_journal empty_journal w)) /\
             logs (ata w) st (commit_events device empty_journal).
Proof.
  intros Hd Hdev. unfold apaJournalReset.
  erewrite bind_Done by reflexivity.
  destruct (apaJournalFlush_ok (with_journal empty_journal w) device Hd Hdev) as (st & E & L);
    [reflexivity|].
  exists st. split; [exact E | exact L].
Qed.

(** The journal image naming the sectors [ss]: magic, count, sector list. *)
Definition journal_image (ss : list Z) : buf :=
  [APAL_MAGIC; Z.of_nat (length ss)] ++ ss ++ zeros (126 - length ss).

Lemma journal_image_nil : journal_image [] = empty_journal.
Proof. reflexivity. Qed.

Lemma length_journal_image ss :
  (length ss <= 126)%nat -> length (journal_image ss) = 128%nat.
Proof. intros H. unfold journal_image. rewrite !length_app, length_zeros. simpl. lia. Qed.

Lemma j_num_image ss : (length ss <= 126)%nat -> j_num (journal_image ss) = Z.of_nat (length ss).
Proof. intros H. unfold j_num, journal_image. simpl. apply s32_small. lia. Qed.

Lemma journal_image_sector ss i s :
  ss !! i = Some s -> get32 (journal_image ss) (2 + i) = s.
Proof.
  intros H. rewrite get32_lookup. unfold journal_image.
  rewrite lookup_app_r by (simpl; lia). simpl length.
  replace (2 + i - 2)%nat with i by lia.
  rewrite lookup_app_l by (eapply lookup_lt_Some, H). by rewrite H.
Qed.

(** [sectors[num] = s; num++] appends to the image. *)
Lemma journal_image_snoc ss s :
  (length ss < 126)%nat -> is_u32 s ->
  set32 1 (Z.of_nat (length ss) + 1)
    (set32 (2 + length ss) s (journal_image ss)) = journal_image (ss ++ [s]).
Proof.
  intros Hl Hs. unfold set32. rewrite (u32_small s) by exact Hs.
  rewrite (u32_small (_ + 1)) by (unfold is_u32; lia).
  unfold journal_image. rewrite length_app. simpl length.
  replace (126 - length ss)%nat with (S (126 - (length ss + 1))) by lia.
  change (zeros (S ?n)) with (0 :: zeros n).
  rewrite <- app_assoc. simpl. f_equal.
  rewrite insert_app_r_alt, Nat.sub_diag by lia. simpl.
  replace (Z.of_nat (length ss + 1)) with (Z.of_nat (length ss) + 1) by lia. reflexivity.
Qed.

(** Recomputing the checksum of a header. *)
Definition sealed (h : buf) : buf := set_checksum (apaCheckSum h) h.

Lemma length_sealed h : length (sealed h) = length h.
Proof. apply length_set32. Qed.

(** ** One journalled header *)

Definition seal_entry (c : apa_cache_t) : apa_cache_t := upd_header (sealed (c_header c)) c.

Lemma apaJournalWrite_ok w i c ss :
  drive_ok (ata w) -> 0 <= c_device c -> is_u32 (c_sector c) ->
  cacheBuf w !! i = Some c -> hdr_len c ->
  journalBuf w = journal_image ss -> (length ss < 126)%nat ->
  exists st,
    apaJournalWrite i w =
      Done 0 (with_journal (journal_image (ss ++ [c_sector c]))
                (with_ata st (with_cache (<[i := seal_entry c]> (cacheBuf w)) w))) /\
    logs (ata w) st
      (hdr_events (c_device c) (APA_SECTOR_APAL_HEADERS + 2 * Z.of_nat (length ss))
         (sealed (c_header c))).
Proof.
  intros Hd Hdev Hsec Hi Hl Hj Hss.
  set (w1 := with_cache (<[i := seal_entry c]> (cacheBuf w)) w).
  assert (Hi1 : cacheBuf w1 !! i = Some (seal_entry c)).
  { simpl. apply list_lookup_insert_eq. eapply lookup_lt_Some, Hi. }
  assert (Hl1 : hdr_len (seal_entry c)) by (unfold hdr_len; simpl; by rewrite length_sealed).
  set (lba := APA_SECTOR_APAL_HEADERS + 2 * Z.of_nat (length ss)).
  destruct (cache_io_write w1 (c_device c) i (seal_entry c) lba) as (st & E & L); auto.
  { apply addressable_low; unfold lba, APA_SECTOR_APAL_HEADERS; lia. }
  exists st. split; [|exact L].
  unfold apaJournalWrite. erewrite bind_Done by (apply cmod_Done, Hi).
  change (with_cache _ w) with w1. erewrite bind_Done by (apply cget_Done, Hi1).
  erewrite bind_Done by reflexivity. change (journalBuf w1) with (journalBuf w).
  rewrite Hj, j_num_image by lia. simpl c_device.
  replace (u32 _) with lba; cycle 1.
  { rewrite Z.shiftl_mul_pow2 by lia. unfold lba, APA_SECTOR_APAL_HEADERS.
    rewrite u32_small; [lia | unfold is_u32; lia]. }
  erewrite bind_Done by exact E. change (nz 0) with false. cbv iota.
  destruct (Z.ltb_spec (Z.of_nat (length ss)) 0); [lia|].
  destruct (Z.leb_spec 126 (Z.of_nat (length ss))); [lia|]. cbn [orb].
  rewrite Nat2Z.id. unfold bind, modify, ret, w1.
  cbn [journalBuf with_journal with_ata with_cache]. rewrite Hj.
  f_equal. cbn [c_sector seal_entry upd_header]. rewrite <- (journal_image_snoc ss (c_sector c) Hss Hsec).
  unfold with_journal, with_ata, with_cache. simpl. f_equal. f_equal.
  unfold j_num. rewrite get32_set32_ne by lia.
  change (s32 (get32 (journal_image ss) 1)) with (j_num (journal_image ss)).
  rewrite j_num_image by lia. reflexivity.
Qed.

(** ** The header checksum *)

Definition word_sum (h : buf) (l : list nat) : Z := foldr (fun i a => get32 h i + a) 0 l.

Lemma checksum_fold h l a :
  foldl (fun sum i => u32 (sum + get32 h i)) (u32 a) l = u32 (a + word_sum h l).
Proof.
  revert a. induction l as [|i l IH]; intros a; simpl; [by rewrite Z.add_0_r|].
  replace (u32 (u32 a + get32 h i)) with (u32 (a + get32 h i)).
  - rewrite IH. f_equal. lia.
  - unfold u32. by rewrite Z.add_mod_idemp_l by lia.
Qed.

Lemma apaCheckSum_sum h : apaCheckSum h = u32 (word_sum h (seq 1 255)).
Proof. unfold apaCheckSum. change 0 with (u32 0) at 1. rewrite checksum_fold. f_equal. Qed.

Lemma word_sum_ext h h' l :
  (forall i, i ∈ l -> get32 h i = get32 h' i) -> word_sum h l = word_sum h' l.
Proof.
  induction l as [|i l IH]; intros H; [done|]. simpl. rewrite (H i) by apply list_elem_of_here.
  rewrite IH; [done|]. intros j Hj. apply H. by apply list_elem_of_further.
Qed.

Lemma checksum_sealed h : (0 < length h)%nat -> apaCheckSum (sealed h) = h_checksum (sealed h).
Proof.
  intros Hl. unfold sealed, h_checksum, set_checksum. rewrite get32_set32_eq by exact Hl.
  rewrite !apaCheckSum_sum, u32_idem. f_equal. apply word_sum_ext. intros i Hi.
  apply elem_of_seq in Hi. by rewrite get32_set32_ne by lia.
Qed.

(** Changing one word changes the sum by the difference. *)
Lemma word_sum_one h h' x l :
  NoDup l -> x ∈ l -> (forall i, i ∈ l -> i <> x -> get32 h i = get32 h' i) ->
  word_sum h' l = word_sum h l + (get32 h' x - get32 h x).
Proof.
  induction l as [|i l IH]; intros Hn Hx He; [by apply elem_of_nil in Hx|].
  apply NoDup_cons in Hn as [Hi Hn]. simpl. apply elem_of_cons in Hx as [<- | Hx].
  - rewrite (word_sum_ext h' h l); [lia|]. intros j Hj. symmetry.
    apply He; [by apply list_elem_of_further | by intros ->].
  - rewrite IH; [|done|done|].
    + rewrite (He i); [lia | apply list_elem_of_here | by intros ->].
    + intros j Hj. apply He. by apply list_elem_of_further.
Qed.

Lemma checksum_one_word h h' x :
  words_ok h -> words_ok h' -> (1 <= x < 256)%nat ->
  (forall i, i <> x -> get32 h i = get32 h' i) -> get32 h x <> get32 h' x ->
  apaCheckSum h <> apaCheckSum h'.
Proof.
  intros Hw Hw' Hx He Hne. rewrite !apaCheckSum_sum.
  rewrite (word_sum_one h h' x); [|apply NoDup_seq | apply elem_of_seq; lia | auto].
  pose proof (words_ok_get32 h x Hw) as B1. pose proof (words_ok_get32 h' x Hw') as B2.
  unfold u32, is_u32 in *. intros E. Z.div_mod_to_equations. lia.
Qed.
