(* ===== verification/ApaRing.v ===== *)
(** * ApaRing: the free ring of the header cache and the cache invariant

    [cacheBuf[0]] heads a doubly linked ring of the buffers nobody uses.  The
    ring is described by the list of its members ([ring]); linking and
    unlinking act on that list, and the cache operations of cache.c preserve
    the invariant [cache_inv]: the ring holds exactly the buffers with no
    user, and no two buffers hold the same (device, sector). *)

From stdpp Require Import base numbers list gmap.
From Stdlib Require Import ZArith Lia.
From S2P Require Import Prelude Ata ApaState ApaCache ApaFacts.

Open Scope Z_scope.
Open Scope c_scope.

(** ** Rings as lists of edges *)

Definition nxt (cs : list apa_cache_t) (i : nat) : option nat := c_next <$> cs !! i.
Definition prv (cs : list apa_cache_t) (i : nat) : option nat := c_tail <$> cs !! i.

Definition link (cs : list apa_cache_t) (e : nat * nat) : Prop :=
  nxt cs e.1 = Some e.2 /\ prv cs e.2 = Some e.1.

(** The edges of the path from [a] through [l] to [z]. *)
Definition edges (a : nat) (l : list nat) (z : nat) : list (nat * nat) :=
  zip (a :: l) (l ++ [z]).

Definition ring (cs : list apa_cache_t) (l : list nat) : Prop :=
  NoDup (0%nat :: l) /\ Forall (link cs) (edges 0 l 0).

Definition last_or (a : nat) (l : list nat) : nat := List.last l a.
Definition head_or (l : list nat) (z : nat) : nat := hd z l.

Lemma edges_nil a z : edges a [] z = [(a, z)].
Proof. reflexivity. Qed.

Lemma edges_cons a x l z : edges a (x :: l) z = (a, x) :: edges x l z.
Proof. reflexivity. Qed.

(** The edges before, at and after a cut of the path. *)
Definition before (a : nat) (l : list nat) : list (nat * nat) := zip (a :: l) l.
Definition after (l : list nat) (z : nat) : list (nat * nat) := zip l (tail l ++ [z]).

Lemma last_or_cons a x l : last_or a (x :: l) = last_or x l.
Proof. unfold last_or. revert x. induction l; intros; [done|]. simpl in *. destruct l; auto. Qed.

Lemma edges_cut a l1 l2 z :
  edges a (l1 ++ l2) z = before a l1 ++ (last_or a l1, head_or l2 z) :: after l2 z.
Proof.
  revert a. induction l1 as [|x l1 IH]; intros a.
  - simpl. destruct l2 as [|y l2]; [reflexivity|]. reflexivity.
  - change ((x :: l1) ++ l2) with (x :: (l1 ++ l2)).
    rewrite edges_cons, IH, last_or_cons. reflexivity.
Qed.

Lemma edges_cut_at a l1 i l2 z :
  edges a (l1 ++ i :: l2) z =
  before a l1 ++ (last_or a l1, i) :: (i, head_or l2 z) :: after l2 z.
Proof.
  rewrite edges_cut. unfold head_or at 1. simpl. f_equal. f_equal.
  destruct l2; reflexivity.
Qed.

Lemma last_or_elem a l : last_or a l ∈ a :: l.
Proof.
  revert a. induction l as [|x l IH]; intros a; [apply list_elem_of_here|].
  rewrite last_or_cons. apply list_elem_of_further, IH.
Qed.

Lemma before_source a l e : NoDup (a :: l) -> e ∈ before a l -> e.1 ∈ a :: l /\ e.1 <> last_or a l.
Proof.
  revert a. induction l as [|x l IH]; intros a Hn He.
  - unfold before in He. simpl in He. by apply elem_of_nil in He.
  - change (before a (x :: l)) with ((a, x) :: before x l) in He. rewrite last_or_cons.
    apply NoDup_cons in Hn as [Ha Hn]. apply elem_of_cons in He as [-> | He].
    + simpl. split; [apply list_elem_of_here|]. intros ->. apply Ha, last_or_elem.
    + destruct (IH x Hn He) as [H1 H2]. split; [by apply list_elem_of_further | exact H2].
Qed.

Lemma before_target a l e : e ∈ before a l -> e.2 ∈ l.
Proof. intros H. destruct e as [x y]. by apply elem_of_zip_r in H. Qed.

Lemma after_source l z e : e ∈ after l z -> e.1 ∈ l.
Proof. intros H. destruct e as [x y]. by apply elem_of_zip_l in H. Qed.

Lemma after_target l z e :
  NoDup (z :: l) -> e ∈ after l z -> e.2 ∈ z :: l /\ e.2 <> head_or l z.
Proof.
  intros Hn H. destruct l as [|x l]; [by apply elem_of_nil in H|].
  destruct e as [u v]. apply elem_of_zip_r in H. simpl in *.
  apply NoDup_cons in Hn as [Hz Hn]. apply NoDup_cons in Hn as [Hx Hn].
  apply elem_of_app in H as [H | H].
  - split; [by do 2 apply list_elem_of_further|]. by intros ->.
  - apply list_elem_of_singleton in H as ->. split; [apply list_elem_of_here|].
    intros ->. apply Hz, list_elem_of_here.
Qed.

Lemma head_or_elem l z : head_or l z ∈ z :: l.
Proof. destruct l; unfold head_or; simpl; set_solver. Qed.

(** Pointers other than the [next] of [a] and the [tail] of [b] are unchanged. *)
Definition same_but (cs cs' : list apa_cache_t) (l1 l2 : list nat) (a b : nat) : Prop :=
  (forall x, x ∈ 0%nat :: l1 ++ l2 -> x <> a -> nxt cs' x = nxt cs x) /\
  (forall y, y ∈ 0%nat :: l1 ++ l2 -> y <> b -> prv cs' y = prv cs y).

Lemma outer_edges cs cs' l1 l2 :
  NoDup (0%nat :: l1 ++ l2) ->
  same_but cs cs' l1 l2 (last_or 0 l1) (head_or l2 0) ->
  (Forall (link cs) (before 0 l1) -> Forall (link cs') (before 0 l1)) /\
  (Forall (link cs) (after l2 0) -> Forall (link cs') (after l2 0)).
Proof.
  intros Hn [Hx Hy].
  assert (Hn1 : NoDup (0%nat :: l1)).
  { change (NoDup ((0%nat :: l1) ++ l2)) in Hn. apply NoDup_app in Hn. apply Hn. }
  assert (Hn2 : NoDup (0%nat :: l2)).
  { apply NoDup_cons in Hn as [H0 Hn]. apply NoDup_app in Hn as (_ & _ & Hn).
    apply NoDup_cons. set_solver. }
  assert (Hd : forall x, x ∈ 0%nat :: l1 -> x ∈ l2 -> False).
  { change (NoDup ((0%nat :: l1) ++ l2)) in Hn. apply NoDup_app in Hn as (_ & Hn & _).
    intros x H1 H2. exact (Hn x H1 H2). }
  rewrite !Forall_forall. split; intros H e He; destruct (H e He) as [He1 He2]; split.
  - destruct (before_source _ _ _ Hn1 He) as [Hs1 Hs2]. rewrite Hx; [exact He1 | set_solver | done].
  - pose proof (before_target _ _ _ He) as Ht. rewrite Hy; [exact He2 | set_solver |].
    intros Eq. pose proof (head_or_elem l2 0) as Hh. rewrite <- Eq in Hh.
    apply elem_of_cons in Hh as [Hh | Hh].
    + rewrite Hh in Ht. apply NoDup_cons in Hn1 as [? _]. done.
    + apply (Hd e.2); set_solver.
  - pose proof (after_source _ _ _ He) as Hs. rewrite Hx; [exact He1 | set_solver |].
    intros Eq. apply (Hd e.1); [|exact Hs]. rewrite Eq. apply last_or_elem.
  - destruct (after_target _ _ _ Hn2 He) as [Hs1 Hs2]. rewrite Hy; [exact He2 | set_solver | done].
Qed.

(** ** Pointer updates *)

Lemma cmod_alter w p f :
  (p < length (cacheBuf w))%nat -> cmod p f w = Done tt (with_cache (alter f p (cacheBuf w)) w).
Proof.
  intros H. destruct (lookup_lt_is_Some_2 _ _ H) as [c Hc].
  rewrite (cmod_Done _ _ _ _ Hc). do 2 f_equal. apply list_eq. intros k.
  rewrite list_lookup_alter. destruct (decide (p = k)) as [<-|Hne].
  - by rewrite list_lookup_insert_eq, Hc.
  - by rewrite list_lookup_insert_ne.
Qed.

Definition set_nxt (i n : nat) (cs : list apa_cache_t) := alter (upd_next n) i cs.
Definition set_prv (i n : nat) (cs : list apa_cache_t) := alter (upd_tail n) i cs.

Lemma nxt_set_nxt_eq i n cs : (i < length cs)%nat -> nxt (set_nxt i n cs) i = Some n.
Proof.
  intros H. unfold nxt, set_nxt. destruct (lookup_lt_is_Some_2 _ _ H) as [c Hc].
  by rewrite list_lookup_alter_eq, Hc.
Qed.

Lemma nxt_set_nxt_ne i j n cs : i <> j -> nxt (set_nxt i n cs) j = nxt cs j.
Proof. intros H. unfold nxt, set_nxt. by rewrite list_lookup_alter_ne. Qed.

Lemma prv_set_prv_eq i n cs : (i < length cs)%nat -> prv (set_prv i n cs) i = Some n.
Proof.
  intros H. unfold prv, set_prv. destruct (lookup_lt_is_Some_2 _ _ H) as [c Hc].
  by rewrite list_lookup_alter_eq, Hc.
Qed.

Lemma prv_set_prv_ne i j n cs : i <> j -> prv (set_prv i n cs) j = prv cs j.
Proof. intros H. unfold prv, set_prv. by rewrite list_lookup_alter_ne. Qed.

Lemma nxt_set_prv i j n cs : nxt (set_prv i n cs) j = nxt cs j.
Proof.
  unfold nxt, set_prv. rewrite list_lookup_alter. case_decide as E; [subst | done].
  by destruct (cs !! j).
Qed.

Lemma prv_set_nxt i j n cs : prv (set_nxt i n cs) j = prv cs j.
Proof.
  unfold prv, set_nxt. rewrite list_lookup_alter. case_decide as E; [subst | done].
  by destruct (cs !! j).
Qed.

Lemma length_set_nxt i n cs : length (set_nxt i n cs) = length cs.
Proof. apply length_alter. Qed.
Lemma length_set_prv i n cs : length (set_prv i n cs) = length cs.
Proof. apply length_alter. Qed.

Create Rewrite HintDb ring_db.
#[export] Hint Rewrite nxt_set_prv prv_set_nxt length_set_nxt length_set_prv : ring_db.
#[export] Hint Rewrite nxt_set_nxt_ne prv_set_prv_ne using (congruence || set_solver) : ring_db.
#[export] Hint Rewrite nxt_set_nxt_eq prv_set_prv_eq using
  (autorewrite with ring_db; lia) : ring_db.

(** What the links do not hold. *)
Definition strip (c : apa_cache_t) : apa_cache_t := upd_next 0 (upd_tail 0 c).
Definition same_data (cs cs' : list apa_cache_t) : Prop := strip <$> cs' = strip <$> cs.

#[export] Instance same_data_equiv : Equivalence same_data.
Proof.
  split; unfold same_data.
  - intros x. reflexivity.
  - intros x y H. by symmetry.
  - intros x y z H1 H2. congruence.
Qed.

Lemma same_data_alter f i cs :
  (forall c, strip (f c) = strip c) -> same_data cs (alter f i cs).
Proof.
  intros H. apply list_eq. intros k. rewrite !list_lookup_fmap, list_lookup_alter.
  case_decide; [subst | done]. destruct (cs !! k); simpl; [by rewrite H | done].
Qed.

Lemma same_data_set_nxt i n cs : same_data cs (set_nxt i n cs).
Proof. by apply same_data_alter. Qed.
Lemma same_data_set_prv i n cs : same_data cs (set_prv i n cs).
Proof. by apply same_data_alter. Qed.

Lemma same_data_length cs cs' : same_data cs cs' -> length cs' = length cs.
Proof. intros H. apply (f_equal length) in H. by rewrite !length_fmap in H. Qed.

Lemma same_data_lookup cs cs' i c' :
  same_data cs cs' -> cs' !! i = Some c' ->
  exists c, cs !! i = Some c /\ c_flags c' = c_flags c /\ c_nused c' = c_nused c /\
    c_device c' = c_device c /\ c_sector c' = c_sector c /\ c_header c' = c_header c.
Proof.
  intros H Hi. pose proof (f_equal (lookup i) H) as E.
  rewrite !list_lookup_fmap, Hi in E. destruct (cs !! i) as [c|]; [|done].
  injection E. eauto 10.
Qed.

(** ** Members of a ring *)

Lemma ring_in_edges cs l : ring cs l -> forall x, x ∈ 0%nat :: l -> (x < length cs)%nat.
Proof.
  intros [_ H] x Hx. destruct (list_elem_of_lookup_1 _ _ Hx) as [k Hk].
  assert (Hy : is_Some ((l ++ [0%nat]) !! k)).
  { apply lookup_lt_is_Some. rewrite length_app. simpl. apply lookup_lt_Some in Hk. simpl in Hk. lia. }
  destruct Hy as [y Hy]. rewrite Forall_forall in H.
  destruct (H (x, y)) as [H1 _].
  { apply list_elem_of_lookup. exists k. unfold edges. rewrite lookup_zip_with, Hk, Hy. done. }
  unfold nxt in H1. simpl in H1. destruct (cs !! x) eqn:E; [|done]. eapply lookup_lt_Some, E.
Qed.

Lemma ring_cut cs l1 l2 :
  ring cs (l1 ++ l2) -> link cs (last_or 0 l1, head_or l2 0).
Proof. intros [_ H]. rewrite edges_cut in H. apply Forall_app in H as [_ H]. by inversion H. Qed.

Lemma ring_cut_at cs l1 i l2 :
  ring cs (l1 ++ i :: l2) -> link cs (last_or 0 l1, i) /\ link cs (i, head_or l2 0).
Proof.
  intros [_ H]. rewrite edges_cut_at in H. apply Forall_app in H as [_ H].
  inversion H as [|?? H1 H2]. inversion H2. done.
Qed.

Lemma nxt_lookup cs i n : nxt cs i = Some n -> exists c, cs !! i = Some c /\ c_next c = n.
Proof. unfold nxt. destruct (cs !! i); simpl; intros; simplify_eq. eauto. Qed.
Lemma prv_lookup cs i n : prv cs i = Some n -> exists c, cs !! i = Some c /\ c_tail c = n.
Proof. unfold prv. destruct (cs !! i); simpl; intros; simplify_eq. eauto. Qed.

(** [cget i] of a buffer whose [next] (or [tail]) is known. *)
Lemma cget_nxt w i n :
  nxt (cacheBuf w) i = Some n -> exists c, cget i w = Done c w /\ c_next c = n.
Proof. intros H. destruct (nxt_lookup _ _ _ H) as (c & Hc & Hn). eauto using cget_Done. Qed.
Lemma cget_prv w i n :
  prv (cacheBuf w) i = Some n -> exists c, cget i w = Done c w /\ c_tail c = n.
Proof. intros H. destruct (prv_lookup _ _ _ H) as (c & Hc & Hn). eauto using cget_Done. Qed.

(** ** Linking and unlinking *)

Definition linked (cs : list apa_cache_t) (a i b : nat) : list apa_cache_t :=
  set_nxt a i (set_prv b i (set_nxt i b (set_prv i a cs))).

Lemma apaCacheLink_eq w a i b :
  nxt (cacheBuf w) a = Some b -> a <> i -> b <> i ->
  (i < length (cacheBuf w))%nat -> (b < length (cacheBuf w))%nat ->
  apaCacheLink a i w = Done tt (with_cache (linked (cacheBuf w) a i b) w).
Proof.
  intros Ha Hai Hbi Hi Hb. unfold apaCacheLink.
  assert (Hal : (a < length (cacheBuf w))%nat)
    by (destruct (nxt_lookup _ _ _ Ha) as (c & Hc & _); eapply lookup_lt_Some, Hc).
  erewrite bind_Done by (apply cmod_alter, Hi).
  set (w1 := with_cache _ w).
  destruct (cget_nxt w1 a b) as (c & E & Hn).
  { simpl. fold (set_prv i a (cacheBuf w)). by autorewrite with ring_db. }
  erewrite bind_Done by exact E. rewrite Hn.
  erewrite bind_Done by (apply cmod_alter; simpl; by rewrite length_alter).
  set (w2 := with_cache _ w1).
  destruct (cget_nxt w2 a b) as (c2 & E2 & Hn2).
  { simpl. fold (set_prv i a (cacheBuf w)). fold (set_nxt i b (set_prv i a (cacheBuf w))).
    by autorewrite with ring_db. }
  erewrite bind_Done by exact E2. rewrite Hn2.
  erewrite bind_Done by (apply cmod_alter; simpl; by rewrite !length_alter).
  rewrite cmod_alter by (simpl; by rewrite !length_alter). reflexivity.
Qed.

Lemma linked_ring cs l1 i l2 :
  ring cs (l1 ++ l2) -> i ∉ 0%nat :: l1 ++ l2 -> (i < length cs)%nat ->
  ring (linked cs (last_or 0 l1) i (head_or l2 0)) (l1 ++ i :: l2).
Proof.
  intros Hr Hi Hl. pose proof (ring_in_edges _ _ Hr) as Hin.
  pose proof (last_or_elem 0 l1) as Ha. pose proof (head_or_elem l2 0) as Hb.
  destruct Hr as [Hn He]. rewrite edges_cut in He. apply Forall_app in He as [Hb1 He].
  apply Forall_cons in He as [_ Ha1].
  set (a := last_or 0 l1) in *. set (b := head_or l2 0) in *.
  assert (Hai : a <> i) by set_solver. assert (Hbi : b <> i) by set_solver.
  assert (Hal : (a < length cs)%nat) by (apply Hin; set_solver).
  assert (Hbl : (b < length cs)%nat) by (apply Hin; set_solver).
  split.
  - apply NoDup_cons in Hn as [H0 Hn]. apply NoDup_cons. split; [set_solver|].
    apply NoDup_app in Hn as (N1 & N2 & N3). apply NoDup_app. split; [done|]. split; [set_solver|].
    apply NoDup_cons. set_solver.
  - destruct (outer_edges cs (linked cs a i b) l1 l2 Hn) as [O1 O2].
    { split; intros x Hx; [change (x <> a -> nxt (linked cs a i b) x = nxt cs x)
                             | change (x <> b -> prv (linked cs a i b) x = prv cs x)]; intros Hne;
        unfold linked; (assert (x <> i) by (intros ->; done)); by autorewrite with ring_db. }
    rewrite edges_cut_at. apply Forall_app. split; [by apply O1|].
    fold a b. constructor; [|constructor; [|by apply O2]].
    + split; unfold linked; simpl; by autorewrite with ring_db.
    + split; unfold linked; simpl; by autorewrite with ring_db.
Qed.

Definition unlinked (cs : list apa_cache_t) (a b : nat) : list apa_cache_t :=
  set_prv b a (set_nxt a b cs).

Lemma apaCacheUnLink_eq w a i b :
  prv (cacheBuf w) i = Some a -> nxt (cacheBuf w) i = Some b -> a <> i ->
  (a < length (cacheBuf w))%nat -> (b < length (cacheBuf w))%nat ->
  apaCacheUnLink i w = Done i (with_cache (unlinked (cacheBuf w) a b) w).
Proof.
  intros Ha Hb Hai Hal Hbl. unfold apaCacheUnLink.
  destruct (prv_lookup _ _ _ Ha) as (c & Hc & Hca).
  destruct (nxt_lookup _ _ _ Hb) as (c' & Hc' & Hcb). simplify_eq.
  erewrite bind_Done by (apply cget_Done, Hc).
  erewrite bind_Done by (apply cmod_alter, Hal).
  set (w1 := with_cache _ w).
  assert (Hc1 : cacheBuf w1 !! i = Some c) by (simpl; by rewrite list_lookup_alter_ne).
  erewrite bind_Done by (apply cget_Done, Hc1).
  erewrite bind_Done by (apply cmod_alter; simpl; by rewrite length_alter).
  reflexivity.
Qed.

Lemma unlinked_ring cs l1 i l2 :
  ring cs (l1 ++ i :: l2) ->
  ring (unlinked cs (last_or 0 l1) (head_or l2 0)) (l1 ++ l2).
Proof.
  intros Hr. pose proof (ring_in_edges _ _ Hr) as Hin.
  pose proof (last_or_elem 0 l1) as Ha. pose proof (head_or_elem l2 0) as Hb.
  destruct Hr as [Hn He]. rewrite edges_cut_at in He. apply Forall_app in He as [Hb1 He].
  apply Forall_cons in He as [_ He]. apply Forall_cons in He as [_ Ha1].
  set (a := last_or 0 l1) in *. set (b := head_or l2 0) in *.
  assert (Hal : (a < length cs)%nat) by (apply Hin; set_solver).
  assert (Hbl : (b < length cs)%nat) by (apply Hin; set_solver).
  assert (Hn' : NoDup (0%nat :: l1 ++ l2)).
  { apply NoDup_cons in Hn as [H0 Hn]. apply NoDup_cons. split; [set_solver|].
    apply NoDup_app in Hn as (N1 & N2 & N3). apply NoDup_cons in N3 as [_ N3].
    apply NoDup_app. set_solver. }
  split; [exact Hn'|].
  destruct (outer_edges cs (unlinked cs a b) l1 l2 Hn') as [O1 O2].
  { split; intros x Hx; [change (x <> a -> nxt (unlinked cs a b) x = nxt cs x)
                        | change (x <> b -> prv (unlinked cs a b) x = prv cs x)];
      intros Hne; unfold unlinked; by autorewrite with ring_db. }
  rewrite edges_cut. apply Forall_app. split; [by apply O1|].
  fold a b. constructor; [|by apply O2].
  split; unfold unlinked; simpl; by autorewrite with ring_db.
Qed.

(** Putting a buffer back: at the end of the ring, and at its front. *)
Lemma ring_tail cs l : ring cs l -> prv cs 0 = Some (last_or 0 l).
Proof. intros H. rewrite <- (app_nil_r l) in H. apply ring_cut in H as [_ H]. exact H. Qed.

Lemma ring_head cs l : ring cs l -> nxt cs 0 = Some (head_or l 0).
Proof. intros H. apply (ring_cut cs [] l) in H as [H _]. exact H. Qed.

Lemma same_data_linked cs a i b : same_data cs (linked cs a i b).
Proof.
  unfold linked. etransitivity; [|apply same_data_set_nxt].
  etransitivity; [|apply same_data_set_prv]. etransitivity; [|apply same_data_set_nxt].
  apply same_data_set_prv.
Qed.

Lemma same_data_unlinked cs a b : same_data cs (unlinked cs a b).
Proof.
  unfold unlinked. etransitivity; [|apply same_data_set_prv]. apply same_data_set_nxt.
Qed.

Lemma link_back w l i :
  ring (cacheBuf w) l -> i ∉ 0%nat :: l -> (i < length (cacheBuf w))%nat ->
  exists cs', (c0 <- cget 0 ;; apaCacheLink (c_tail c0) i) w = Done tt (with_cache cs' w) /\
              ring cs' (l ++ [i]) /\ same_data (cacheBuf w) cs'.
Proof.
  intros Hr Hi Hl. pose proof (ring_in_edges _ _ Hr) as Hin.
  destruct (cget_prv w 0 (last_or 0 l)) as (c0 & E0 & Hc0); [by apply ring_tail|].
  erewrite bind_Done by exact E0. rewrite Hc0.
  assert (Hr' : ring (cacheBuf w) (l ++ [])) by by rewrite app_nil_r.
  destruct (ring_cut _ _ _ Hr') as [Hcut _]. pose proof (last_or_elem 0 l) as Hlast.
  exists (linked (cacheBuf w) (last_or 0 l) i 0). split; [|split].
  - apply apaCacheLink_eq; [exact Hcut | set_solver | set_solver | exact Hl |].
    apply Hin, list_elem_of_here.
  - apply (linked_ring _ l i [] Hr'); [by rewrite app_nil_r | exact Hl].
  - apply same_data_linked.
Qed.

Lemma link_front w l i :
  ring (cacheBuf w) l -> i ∉ 0%nat :: l -> (i < length (cacheBuf w))%nat ->
  exists cs', apaCacheLink 0 i w = Done tt (with_cache cs' w) /\
              ring cs' (i :: l) /\ same_data (cacheBuf w) cs'.
Proof.
  intros Hr Hi Hl. pose proof (ring_in_edges _ _ Hr) as Hin.
  pose proof (head_or_elem l 0) as Hh.
  exists (linked (cacheBuf w) 0 i (head_or l 0)). split; [|split].
  - apply apaCacheLink_eq; [by apply ring_head | set_solver | | exact Hl | by apply Hin].
    intros E. rewrite E in Hh. done.
  - exact (linked_ring _ [] i l Hr Hi Hl).
  - apply same_data_linked.
Qed.

Lemma unlink_at w l1 i l2 :
  ring (cacheBuf w) (l1 ++ i :: l2) ->
  exists cs', apaCacheUnLink i w = Done i (with_cache cs' w) /\
              ring cs' (l1 ++ l2) /\ same_data (cacheBuf w) cs'.
Proof.
  intros Hr. pose proof (ring_in_edges _ _ Hr) as Hin.
  destruct (ring_cut_at _ _ _ _ Hr) as [[_ H1] [H2 _]]. simpl in H1, H2.
  exists (unlinked (cacheBuf w) (last_or 0 l1) (head_or l2 0)). split; [|split].
  - apply apaCacheUnLink_eq; auto.
    + destruct Hr as [Hn _]. intros E. change (NoDup ((0%nat :: l1) ++ i :: l2)) in Hn.
      apply NoDup_app in Hn as (_ & Hn & _). apply (Hn i); [|set_solver].
      rewrite <- E. apply last_or_elem.
    + apply Hin. pose proof (last_or_elem 0 l1). set_solver.
    + apply Hin. pose proof (head_or_elem l2 0). set_solver.
  - by apply unlinked_ring with (i := i).
  - apply same_data_unlinked.
Qed.

Lemma freeRingEmpty_eq w l :
  ring (cacheBuf w) l -> freeRingEmpty w = Done (bool_decide (l = [])) w.
Proof.
  intros Hr. unfold freeRingEmpty.
  destruct (cget_prv w 0 (last_or 0 l)) as (c0 & E0 & Hc0); [by apply ring_tail|].
  erewrite bind_Done by exact E0. rewrite Hc0.
  assert (Hr' : ring (cacheBuf w) (l ++ [])) by by rewrite app_nil_r.
  destruct (ring_cut _ _ _ Hr') as [Hcut _].
  destruct (cget_nxt w (last_or 0 l) 0) as (t & Et & Ht); [exact Hcut|].
  erewrite bind_Done by exact Et. unfold ret. f_equal. rewrite Ht.
  destruct l as [|x l]; [reflexivity|]. rewrite bool_decide_eq_false_2 by done.
  destruct Hr as [Hn _]. rewrite last_or_cons.
  assert (last_or x l <> 0%nat).
  { intros E. pose proof (last_or_elem x l) as Hx. rewrite E in Hx.
    apply NoDup_cons in Hn as [Hn _]. done. }
  by rewrite (proj2 (Nat.eqb_neq _ _)).
Qed.
