(* ===== verification/ApaInv.v ===== *)
(** * ApaInv: the invariant of the header cache

    [cache_inv w l]: the free ring is [l], it holds exactly the buffers with
    no user, every buffer has a whole header, and a (device, sector) is held
    by one buffer at most.  Every operation of cache.c preserves it, whatever
    the drive does. *)

From stdpp Require Import base numbers list gmap.
From Stdlib Require Import ZArith Lia.
From S2P Require Import Prelude Ata ApaState ApaCache ApaFacts ApaRing.

Open Scope Z_scope.
Open Scope c_scope.

(** A buffer that holds a sector of a device. *)
Definition mapped (c : apa_cache_t) : Prop := c_device c <> -1.

Record data_inv (cs : list apa_cache_t) (l : list nat) : Prop := {
  bi_free : forall i c, i <> 0%nat -> cs !! i = Some c -> (i ∈ l <-> c_nused c = 0);
  bi_count : forall i c, i <> 0%nat -> cs !! i = Some c -> 0 <= c_nused c < 2 ^ 16;
  bi_header : forall i c, i <> 0%nat -> cs !! i = Some c -> hdr_len c;
  bi_key : forall i j c d, i <> 0%nat -> j <> 0%nat -> cs !! i = Some c -> cs !! j = Some d ->
    mapped c -> c_device c = c_device d -> c_sector c = c_sector d -> i = j
}.

Definition cache_inv (w : world) (l : list nat) : Prop :=
  length (cacheBuf w) = S (Z.to_nat (cacheSize w)) /\
  ring (cacheBuf w) l /\ data_inv (cacheBuf w) l.

(** ** Changing one buffer *)

(** Changes of [cs] at [i] that keep the links. *)
Lemma ring_insert cs l i c c' :
  cs !! i = Some c -> c_next c' = c_next c -> c_tail c' = c_tail c ->
  ring cs l -> ring (<[i := c']> cs) l.
Proof.
  intros Hi Hn Ht [Hd He]. split; [exact Hd|]. eapply Forall_impl; [exact He|].
  assert (E : forall x, nxt (<[i := c']> cs) x = nxt cs x /\ prv (<[i := c']> cs) x = prv cs x).
  { intros x. unfold nxt, prv. destruct (decide (i = x)) as [<-|Hne].
    - rewrite list_lookup_insert_eq by (eapply lookup_lt_Some, Hi). by rewrite Hi; simpl; rewrite Hn, Ht.
    - by rewrite list_lookup_insert_ne. }
  intros [x y] [H1 H2]. split; [rewrite (proj1 (E _)) | rewrite (proj2 (E _))]; done.
Qed.

(** Buffer [i] becomes [c'] and the free buffers become [l']. *)
Lemma data_inv_insert cs l l' i c c' :
  data_inv cs l -> i <> 0%nat -> cs !! i = Some c ->
  (forall j, j <> i -> (j ∈ l' <-> j ∈ l)) -> (i ∈ l' <-> c_nused c' = 0) ->
  0 <= c_nused c' < 2 ^ 16 -> hdr_len c' ->
  (mapped c' -> forall j d, j <> 0%nat -> j <> i -> cs !! j = Some d ->
     c_device d = c_device c' -> c_sector d = c_sector c' -> False) ->
  data_inv (<[i := c']> cs) l'.
Proof.
  intros B Hi0 Hi Hl Hu Hc Hh Hk. pose proof (lookup_lt_Some _ _ _ Hi) as Hlt.
  assert (L : forall j d, <[i := c']> cs !! j = Some d ->
            (j = i /\ d = c') \/ (j <> i /\ cs !! j = Some d)).
  { intros j d. destruct (decide (i = j)) as [<-|Hne].
    - rewrite list_lookup_insert_eq by exact Hlt. intros [= <-]. auto.
    - rewrite list_lookup_insert_ne by exact Hne. auto. }
  split.
  - intros j d Hj Hd. destruct (L j d Hd) as [[-> ->] | [Hne Hd']]; [exact Hu|].
    rewrite Hl by exact Hne. eapply bi_free; eassumption.
  - intros j d Hj Hd. destruct (L j d Hd) as [[-> ->] | [Hne Hd']]; [exact Hc|].
    eapply bi_count; eassumption.
  - intros j d Hj Hd. destruct (L j d Hd) as [[-> ->] | [Hne Hd']]; [exact Hh|].
    eapply bi_header; eassumption.
  - intros j k d e Hj Hk0 Hd He Hm Hde Hse.
    destruct (L j d Hd) as [[-> ->] | [Hne Hd']]; destruct (L k e He) as [[-> ->] | [Hne' He']].
    + done.
    + exfalso. eapply Hk; eauto.
    + exfalso. eapply Hk; [unfold mapped in *; congruence | | exact Hne | exact Hd' | |]; done.
    + eapply bi_key; eassumption.
Qed.

(** The data do not depend on the links. *)
Lemma data_inv_relink cs cs' l : data_inv cs l -> same_data cs cs' -> data_inv cs' l.
Proof.
  intros B Hs. split.
  - intros i c Hi Hc. destruct (same_data_lookup _ _ _ _ Hs Hc) as (d & Hd & _ & Hu & _).
    rewrite Hu. eapply bi_free; eassumption.
  - intros i c Hi Hc. destruct (same_data_lookup _ _ _ _ Hs Hc) as (d & Hd & _ & Hu & _).
    rewrite Hu. eapply bi_count; eassumption.
  - intros i c Hi Hc. destruct (same_data_lookup _ _ _ _ Hs Hc) as (d & Hd & _ & _ & _ & _ & Hh).
    unfold hdr_len. rewrite Hh. eapply bi_header; eassumption.
  - intros i j c d Hi Hj Hc Hd Hm He1 He2.
    destruct (same_data_lookup _ _ _ _ Hs Hc) as (c1 & Hc1 & _ & _ & Hdv & Hsec & _).
    destruct (same_data_lookup _ _ _ _ Hs Hd) as (d1 & Hd1 & _ & _ & Hdv' & Hsec' & _).
    eapply (bi_key _ _ B i j c1 d1); eauto; unfold mapped in *; congruence.
Qed.

(** ** Lookup *)

Definition holds (device sector : Z) (c : apa_cache_t) : bool :=
  (c_sector c =? sector) && (c_device c =? device).

(** The first buffer of [idx] holding (device, sector). *)
Definition cache_find (device sector : Z) (idx : list nat) (cs : list apa_cache_t) : option nat :=
  List.find (fun i => match cs !! i with Some c => holds device sector c | None => false end) idx.

Lemma cacheLookup_eq w l device sector :
  cache_inv w l ->
  cacheLookup device sector w = Done (cache_find device sector (cache_indices w) (cacheBuf w)) w.
Proof.
  intros [Hlen _]. unfold cacheLookup, bind at 1, gets.
  assert (Hin : forall i, i ∈ cache_indices w -> is_Some (cacheBuf w !! i)).
  { intros i Hi. apply elem_of_seq in Hi. apply lookup_lt_is_Some. lia. }
  assert (E : for_break (cache_indices w) (fun i (_ : unit) => c <- cget i ;;
                if (c_sector c =? sector) && (c_device c =? device) then ret (inr i) else ret (inl tt)) tt w
     = Done (match cache_find device sector (cache_indices w) (cacheBuf w) with
             | Some i => inr i | None => inl tt end) w).
  { revert Hin. generalize (cache_indices w). intros idx Hin.
    induction idx as [|i idx IH]; [reflexivity|].
    destruct (Hin i (list_elem_of_here _ _)) as [c Hc]. simpl.
    unfold bind at 1. erewrite bind_Done by (apply cget_Done, Hc).
    unfold cache_find. simpl. rewrite Hc. unfold holds.
    destruct (_ && _); [reflexivity|]. apply IH. intros j Hj. apply Hin.
    by apply list_elem_of_further. }
  erewrite bind_Done by exact E. by destruct (cache_find _ _ _ _).
Qed.

Lemma cache_find_Some device sector idx cs i :
  cache_find device sector idx cs = Some i ->
  i ∈ idx /\ exists c, cs !! i = Some c /\ c_sector c = sector /\ c_device c = device.
Proof.
  intros H. apply List.find_some in H as [H1 H2]. split; [by apply list_elem_of_In|].
  destruct (cs !! i) as [c|]; [|done]. exists c. unfold holds in H2.
  apply andb_prop in H2 as [Ha Hb]. apply Z.eqb_eq in Ha, Hb. auto.
Qed.

Lemma cache_find_None device sector idx cs i c :
  cache_find device sector idx cs = None -> i ∈ idx -> cs !! i = Some c ->
  c_sector c = sector -> c_device c = device -> False.
Proof.
  intros H Hi Hc Hs Hd. pose proof (List.find_none _ _ H i (proj1 (list_elem_of_In _ _) Hi)) as E.
  simpl in E. rewrite Hc in E. unfold holds in E. by rewrite Hs, Hd, !Z.eqb_refl in E.
Qed.

Lemma in_indices w l i c :
  cache_inv w l -> i <> 0%nat -> cacheBuf w !! i = Some c -> i ∈ cache_indices w.
Proof.
  intros [Hl _] Hi Hc. apply lookup_lt_Some in Hc. apply elem_of_seq. lia.
Qed.

Lemma indices_nonzero w i : i ∈ cache_indices w -> i <> 0%nat.
Proof. intros H. apply elem_of_seq in H. lia. Qed.

(** ** Runs of assignments to one buffer *)

Lemma cmod_first {A} w i c f (k : M world A) :
  cacheBuf w !! i = Some c ->
  (cmod i f ;;; k) w = k (with_cache (<[i := f c]> (cacheBuf w)) w).
Proof. intros H. by erewrite bind_Done by (apply cmod_Done, H). Qed.

Lemma cmod_again {A} w i c f (k : M world A) :
  (i < length (cacheBuf w))%nat ->
  (cmod i f ;;; k) (with_cache (<[i := c]> (cacheBuf w)) w)
  = k (with_cache (<[i := f c]> (cacheBuf w)) w).
Proof.
  intros H. erewrite cmod_first by (simpl; by apply list_lookup_insert_eq).
  simpl. by rewrite list_insert_insert_eq.
Qed.

Ltac cmods Hc := rewrite (cmod_first _ _ _ _ _ Hc);
  repeat rewrite cmod_again by (eapply lookup_lt_Some, Hc).

(** ** Taking a buffer of the ring *)

Lemma ring_members cs l i : ring cs l -> i ∈ l -> i <> 0%nat /\ exists c, cs !! i = Some c.
Proof.
  intros Hr Hi. pose proof (ring_in_edges _ _ Hr i ltac:(set_solver)) as Hl.
  destruct Hr as [Hn _]. apply NoDup_cons in Hn as [H0 _].
  split; [by intros -> | exact (lookup_lt_is_Some_2 _ _ Hl)].
Qed.

(** Buffer [i], first of the ring, is given to a user with contents [c']. *)
Lemma take_first w i l c c' :
  cache_inv w (i :: l) -> cacheBuf w !! i = Some c ->
  c_next c' = c_next c -> c_tail c' = c_tail c -> 0 < c_nused c' < 2 ^ 16 -> hdr_len c' ->
  (mapped c' -> cache_find (c_device c') (c_sector c') (cache_indices w) (cacheBuf w) = None) ->
  exists cs', apaCacheUnLink i (with_cache (<[i := c']> (cacheBuf w)) w) = Done i (with_cache cs' w) /\
    cache_inv (with_cache cs' w) l /\ same_data (<[i := c']> (cacheBuf w)) cs' /\
    exists c1, cs' !! i = Some c1 /\ strip c1 = strip c'.
Proof.
  intros I Hc Hn Ht Hu Hh Hk. pose proof I as (Hlen & Hr & Hd).
  destruct (ring_members _ _ i Hr) as [Hi0 _]; [apply list_elem_of_here|].
  pose proof (lookup_lt_Some _ _ _ Hc) as Hlt.
  destruct (unlink_at (with_cache (<[i := c']> (cacheBuf w)) w) [] i l) as (cs' & E & Hr' & Hs).
  { simpl. by eapply ring_insert. }
  exists cs'. split; [exact E|].
  assert (Hnd : i ∉ l) by (destruct Hr as [Hnd _]; by apply NoDup_cons in Hnd as [_ [? _]%NoDup_cons]).
  split.
  - split; [simpl; rewrite (same_data_length _ _ Hs); simpl; by rewrite length_insert|].
    split; [exact Hr'|]. eapply data_inv_relink; [|exact Hs].
    eapply data_inv_insert; [exact Hd | exact Hi0 | exact Hc | | | lia | exact Hh |].
    + set_solver.
    + split; [done | lia].
    + intros Hm j d Hj Hji Hjd E1 E2. eapply cache_find_None;
        [by apply Hk | by eapply in_indices | exact Hjd | exact E2 | exact E1].
  - split; [exact Hs|]. assert (Hi' : is_Some (cs' !! i)).
    { apply lookup_lt_is_Some. rewrite (same_data_length _ _ Hs). simpl. by rewrite length_insert. }
    destruct Hi' as [c1 Hc1]. exists c1. split; [exact Hc1|].
    pose proof (f_equal (lookup i) Hs) as Es. rewrite !list_lookup_fmap, Hc1 in Es.
    simpl in Es. rewrite list_lookup_insert_eq in Es by exact Hlt. by apply (inj Some) in Es.
Qed.

Lemma apaCacheAlloc_empty w : cache_inv w [] -> apaCacheAlloc w = Done None w.
Proof.
  intros (_ & Hr & _). unfold apaCacheAlloc.
  by erewrite bind_Done by (apply freeRingEmpty_eq, Hr).
Qed.

(** The buffer [apaCacheAlloc] hands out: its content is nobody's. *)
Definition blank_entry (c : apa_cache_t) : apa_cache_t := upd_sector (-1) (upd_device (-1) (upd_flags 0 (upd_nused 1 c))).

Lemma apaCacheAlloc_data w i l (c : apa_cache_t) :
  cache_inv w (i :: l) -> cacheBuf w !! i = Some c ->
  exists cs', apaCacheAlloc w = Done (Some i) (with_cache cs' w) /\
    cache_inv (with_cache cs' w) l /\ same_data (<[i := blank_entry c]> (cacheBuf w)) cs'.
Proof.
  intros I Hc. pose proof I as (Hlen & Hr & Hd). unfold apaCacheAlloc.
  erewrite bind_Done by (apply freeRingEmpty_eq, Hr).
  rewrite bool_decide_eq_false_2 by done.
  destruct (cget_nxt w 0 i (ring_head _ _ Hr)) as (c0 & E0 & Hn0).
  erewrite bind_Done by exact E0. cbv zeta. rewrite Hn0. change (head_or (i :: l) 0) with i.
  cmods Hc. change (upd_sector (-1) _) with (blank_entry c).
  destruct (take_first w i l c (blank_entry c)) as (cs' & E & I' & HS & _); [exact I|exact Hc|reflexivity..| | | |erewrite bind_Done by exact E].
  - change (0 < u16 1 < 2 ^ 16). rewrite u16_small; lia.
  - destruct (ring_members _ _ i Hr) as [Hi0 _]; [apply list_elem_of_here|]. eapply (bi_header _ _ Hd i c); done.
  - intros Hm. by destruct Hm.
  - by exists cs'.
Qed.

Lemma apaCacheAlloc_ok w i l :
  cache_inv w (i :: l) ->
  exists cs' c, apaCacheAlloc w = Done (Some i) (with_cache cs' w) /\
    cache_inv (with_cache cs' w) l /\
    cs' !! i = Some c /\ c_nused c = 1 /\ c_flags c = 0 /\ ~ mapped c.
Proof.
  intros I. pose proof I as (Hlen & Hr & Hd).
  destruct (ring_members _ _ i Hr) as [Hi0 [c Hc]]; [apply list_elem_of_here|].
  destruct (apaCacheAlloc_data w i l c I Hc) as (cs' & E & I' & HS). apply (f_equal (lookup i)) in HS.
  rewrite !list_lookup_fmap, list_lookup_insert_eq in HS by (by eapply lookup_lt_Some).
  destruct (cs' !! i) as [c1|] eqn:Hc1; [|done]. exists cs', c1. do 3 (split; [done|]).
  injection HS. unfold mapped. intros _ _ -> -> ->. auto.
Qed.

(** ** Releasing a buffer *)

Lemma apaCacheFree_unused w i c :
  cacheBuf w !! i = Some c -> c_nused c = 0 -> apaCacheFree (Some i) w = Done tt w.
Proof.
  intros Hc Hu. unfold apaCacheFree. erewrite bind_Done by (apply cget_Done, Hc). by rewrite Hu.
Qed.

Lemma apaCacheFree_last w l i c :
  cache_inv w l -> i <> 0%nat -> cacheBuf w !! i = Some c -> c_nused c = 1 ->
  exists cs', apaCacheFree (Some i) w = Done tt (with_cache cs' w) /\
    cache_inv (with_cache cs' w) (l ++ [i]) /\ same_data (<[i := upd_nused 0 c]> (cacheBuf w)) cs'.
Proof.
  intros (Hlen & Hr & Hd) Hi Hc Hu. pose proof (lookup_lt_Some _ _ _ Hc) as Hlt.
  unfold apaCacheFree. erewrite bind_Done by (apply cget_Done, Hc). rewrite Hu.
  change (1 =? 0) with false. cbv iota. cmods Hc.
  set (w1 := with_cache _ w).
  assert (Hc1 : cacheBuf w1 !! i = Some (upd_nused 0 c)) by (by apply list_lookup_insert_eq).
  erewrite bind_Done by (apply cget_Done, Hc1). change (c_nused (upd_nused 0 c) =? 0) with true.
  unfold when. assert (Hil : i ∉ l) by (rewrite (bi_free _ _ Hd i c Hi Hc); lia).
  destruct (link_back w1 l i) as (cs' & E & Hr' & Hs).
  { by eapply ring_insert. }
  { set_solver. }
  { simpl. by rewrite length_insert. }
  exists cs'. split; [exact E|]. split; [|exact Hs].
  split; [simpl; rewrite (same_data_length _ _ Hs); simpl; by rewrite length_insert|].
  split; [exact Hr'|]. eapply data_inv_relink; [|exact Hs].
  eapply data_inv_insert; [exact Hd | exact Hi | exact Hc | set_solver | | done | |].
  - split; [done | set_solver].
  - eapply (bi_header _ _ Hd i c); done.
  - intros Hm j d Hj Hji Hjd E1 E2. apply Hji. by eapply (bi_key _ _ Hd j i d c);
      try done; unfold mapped in *; simpl in *; congruence.
Qed.

Lemma apaCacheFree_shared w l i c :
  cache_inv w l -> i <> 0%nat -> cacheBuf w !! i = Some c -> 1 < c_nused c ->
  apaCacheFree (Some i) w = Done tt (with_cache (<[i := upd_nused (c_nused c - 1) c]> (cacheBuf w)) w) /\
  cache_inv (with_cache (<[i := upd_nused (c_nused c - 1) c]> (cacheBuf w)) w) l.
Proof.
  intros (Hlen & Hr & Hd) Hi Hc Hu. pose proof (lookup_lt_Some _ _ _ Hc) as Hlt.
  pose proof (bi_count _ _ Hd i c Hi Hc) as Hb.
  assert (Hu' : c_nused (upd_nused (c_nused c - 1) c) = c_nused c - 1) by (simpl; apply u16_small; lia).
  split.
  - unfold apaCacheFree. erewrite bind_Done by (apply cget_Done, Hc).
    destruct (Z.eqb_spec (c_nused c) 0); [lia|]. cmods Hc.
    erewrite bind_Done by (apply cget_Done; simpl; by apply list_lookup_insert_eq).
    rewrite Hu'. destruct (Z.eqb_spec (c_nused c - 1) 0); [lia | reflexivity].
  - split; [simpl; by rewrite length_insert|]. split; [by eapply ring_insert|].
    eapply data_inv_insert; [exact Hd | exact Hi | exact Hc | done | | lia | |].
    + rewrite (bi_free _ _ Hd i c Hi Hc), Hu'. lia.
    + eapply (bi_header _ _ Hd i c); done.
    + intros Hm j d Hj Hji Hjd E1 E2. apply Hji. by eapply (bi_key _ _ Hd j i d c);
        try done; unfold mapped in *; simpl in *; congruence.
Qed.

(** ** Transfers of a buffer, whatever the drive does *)

(** [w'] is [w] after I/O on the header of buffer [i] (contents [c]) that can
    have changed the sectors of [dev] in [lba, lba+n) only. *)
Definition entry_io (dev lba n : Z) (i : nat) (c : apa_cache_t) (w w' : world) : Prop :=
  exists st h, w' = with_ata st (with_cache (<[i := upd_header h c]> (cacheBuf w)) w) /\
    length h = 256%nat /\ disk_ok st /\ lba48 st = lba48 (ata w) /\
    (forall key, ~ in_run dev lba n key -> disk st !! key = disk (ata w) !! key).

Lemma cache_io_any w dev i c lba n dir :
  disk_ok (ata w) -> addressable (ata w) dev lba n -> 0 <= n <= 2 ->
  cacheBuf w !! i = Some c -> hdr_len c ->
  wp (cache_io dev i lba n dir) w (fun _ w' => entry_io dev lba n i c w w').
Proof.
  intros Hd Ha Hn Hc Hh. unfold hdr_len in Hh. unfold cache_io.
  apply wp_bind. eapply wp_Done; [apply header_Done, Hc|].
  apply wp_bind.
  destruct (wp_inv _ _ _ (sector_io_total (ata w) dev (c_header c) lba n dir Hd Ha ltac:(lia)))
    as ([r h] & st & E & L & D & O).
  eapply wp_Done; [unfold ata_op; rewrite E; reflexivity|].
  apply wp_bind. eapply wp_Done; [apply (cmod_Done (with_ata st w) i c), Hc|].
  apply wp_ret. exists st, h. split; [reflexivity|]. split; [congruence|]. split; [exact D|].
  split; [exact (io_only_lba48 _ _ _ _ _ O)|]. intros key. by apply io_only_outside.
Qed.

Lemma entry_io_reads dev lba n i c w w' :
  (i < length (cacheBuf w))%nat -> entry_io dev lba n i c w w' ->
  exists h, cacheBuf w' !! i = Some (upd_header h c) /\ length h = 256%nat /\ disk_ok (ata w').
Proof.
  intros Hi (st & h & -> & L & D & _). exists h. simpl. by rewrite list_lookup_insert_eq.
Qed.

Lemma apaReadHeader_any w dev i c lba :
  disk_ok (ata w) -> addressable (ata w) dev lba 2 ->
  cacheBuf w !! i = Some c -> hdr_len c ->
  wp (apaReadHeader dev i lba) w (fun r w' => entry_io dev lba 2 i c w w' /\ (r = 0 \/ r = - EIO)).
Proof.
  intros Hd Ha Hc Hh. unfold apaReadHeader. apply wp_bind.
  eapply wp_mono; [apply cache_io_any; eauto; lia|]. intros r w1 H1.
  destruct (entry_io_reads _ _ _ _ _ _ _ (lookup_lt_Some _ _ _ Hc) H1) as (h & Hh1 & _ & _).
  apply wp_bind. eapply wp_Done; [apply header_Done, Hh1|].
  repeat case_match; apply wp_ret; split; auto.
Qed.

(** The error sector takes the place of the header in the buffer. *)
Lemma apaSaveError_any w dev i c lba err_lba :
  disk_ok (ata w) -> addressable (ata w) dev lba 1 ->
  cacheBuf w !! i = Some c -> hdr_len c ->
  wp (apaSaveError dev i lba err_lba) w (fun _ w' => entry_io dev lba 1 i c w w').
Proof.
  intros Hd Ha Hc Hh. unfold hdr_len in Hh. unfold apaSaveError. apply wp_bind.
  eapply wp_Done; [apply cmod_Done, Hc|].
  set (h1 := set32 0 err_lba (put_words 0 (zeros 128) (c_header c))).
  assert (L1 : length h1 = 256%nat).
  { unfold h1. rewrite length_set32, length_put_words; [exact Hh|]. rewrite length_zeros. lia. }
  apply wp_bind. set (w1 := with_cache _ w).
  assert (Hc1 : cacheBuf w1 !! i = Some (upd_header h1 c))
    by (simpl; apply list_lookup_insert_eq; eapply lookup_lt_Some, Hc).
  eapply wp_mono; [apply (cache_io_any w1 dev i _ lba 1 ATA_DIR_WRITE Hd Ha ltac:(lia) Hc1 L1)|].
  intros _ w2 (st & h & -> & L & D & B & K). apply wp_bind.
  assert (F : exists r st', ata_device_flush_cache dev st = Done r st' /\
                disk st' = disk st /\ lba48 st' = lba48 st).
  { unfold ata_device_flush_cache. destruct (faults st (ncmd st)) as [[]|]; eauto. }
  destruct F as (r & st' & E & Hdk & Hb). eapply wp_Done; [unfold ata_op; simpl; rewrite E; reflexivity|].
  apply wp_ret. exists st', h. split; [|split; [exact L | split; [|split]]].
  - unfold with_ata, with_cache, w1. simpl. rewrite list_insert_insert_eq. reflexivity.
  - unfold disk_ok. rewrite Hdk. exact D.
  - rewrite Hb. exact B.
  - intros key Hk. rewrite Hdk. by apply K.
Qed.

Lemma apaCacheTransfer_read_any w i c :
  disk_ok (ata w) -> addressable (ata w) (c_device c) (c_sector c) 2 ->
  cacheBuf w !! i = Some c -> hdr_len c ->
  wp (apaCacheTransfer i APA_IO_MODE_READ) w (fun r w' =>
    (r = 0 \/ r = - EIO) /\
    exists st h, w' = with_ata st (with_cache
        (<[i := upd_flags (Z.ldiff (c_flags c) APA_CACHE_FLAG_DIRTY) (upd_header h c)]> (cacheBuf w)) w) /\
      length h = 256%nat /\ disk_ok st).
Proof.
  intros Hd Ha Hc Hh. pose proof (lookup_lt_Some _ _ _ Hc) as Hlt.
  unfold apaCacheTransfer. apply wp_bind. eapply wp_Done; [apply cget_Done, Hc|].
  change (nz APA_IO_MODE_READ) with false. cbv iota. apply wp_bind.
  eapply wp_mono; [by apply apaReadHeader_any|].
  intros r w1 [(s1 & h1 & -> & L1 & D1 & B1 & _) Hr]. apply wp_bind.
  set (w1 := with_ata s1 _).
  assert (Hc1 : cacheBuf w1 !! i = Some (upd_header h1 c)) by (by apply list_lookup_insert_eq).
  eapply (wp_mono _ _ (fun _ w2 => exists st h,
    w2 = with_ata st (with_cache (<[i := upd_header h c]> (cacheBuf w)) w) /\
    length h = 256%nat /\ disk_ok st)).
  - apply wp_when; [intros _ | intros _; eauto].
    eapply wp_mono; [apply (apaSaveError_any w1 (c_device c) i (upd_header h1 c) APA_SECTOR_SECTOR_ERROR
                              (c_sector c) D1); [|exact Hc1 | exact L1]|].
    + apply addressable_low; unfold APA_SECTOR_SECTOR_ERROR; try lia. apply Ha.
    + intros _ w2 (st & h & -> & L & D & _). exists st, h. split; [|auto].
      unfold w1, with_ata, with_cache. simpl. by rewrite list_insert_insert_eq.
  - intros _ w2 (st & h & -> & L & D). apply wp_bind.
    eapply wp_Done; [apply cmod_Done; simpl; by apply list_lookup_insert_eq|].
    apply wp_ret. split; [exact Hr|]. exists st, h. split; [|auto].
    unfold with_ata, with_cache. simpl. by rewrite list_insert_insert_eq.
Qed.

(** ** Looking a header up *)

Definition without (i : nat) (l : list nat) : list nat := filter (fun j => j <> i) l.

Lemma without_id i l : i ∉ l -> without i l = l.
Proof.
  induction l as [|x l IH]; intros H; [done|]. apply not_elem_of_cons in H as [Hx Hl].
  unfold without. rewrite filter_cons_True by congruence. f_equal. by apply IH.
Qed.

Lemma without_cut i l1 l2 : i ∉ l1 ++ l2 -> without i (l1 ++ i :: l2) = l1 ++ l2.
Proof.
  intros H. unfold without. rewrite filter_app, filter_cons_False by naive_solver.
  f_equal; apply without_id; set_solver.
Qed.

(** [nused++] on a buffer that is not in the ring [l']. *)
Lemma add_user w l l' i c :
  length (cacheBuf w) = S (Z.to_nat (cacheSize w)) -> ring (cacheBuf w) l' -> data_inv (cacheBuf w) l ->
  l' = without i l -> i <> 0%nat -> cacheBuf w !! i = Some c -> c_nused c < 65535 ->
  cache_inv (with_cache (<[i := upd_nused (c_nused c + 1) c]> (cacheBuf w)) w) l'.
Proof.
  intros Hlen Hr Hd -> Hi Hc Hu. pose proof (bi_count _ _ Hd i c Hi Hc) as Hb.
  split; [simpl; by rewrite length_insert|]. split; [by eapply ring_insert|].
  eapply data_inv_insert; [exact Hd | exact Hi | exact Hc | | | | |].
  - intros j Hj. unfold without. rewrite list_elem_of_filter. naive_solver.
  - unfold without. rewrite list_elem_of_filter. simpl. rewrite u16_small by lia.
    split; [naive_solver | lia].
  - simpl. rewrite u16_small; lia.
  - eapply (bi_header _ _ Hd i c); done.
  - intros Hm j d Hj Hji Hjd E1 E2. apply Hji. by eapply (bi_key _ _ Hd j i d c);
      try done; unfold mapped in *; simpl in *; congruence.
Qed.

(** Hit: the buffer gains a user, leaves the ring if it was there, and nothing
    is transferred. *)
Lemma getHeader_hit w l device sector mode i c :
  cache_inv w l ->
  cache_find device sector (cache_indices w) (cacheBuf w) = Some i ->
  cacheBuf w !! i = Some c -> c_nused c < 65535 ->
  exists cs', apaCacheGetHeader device sector mode w = Done (Some i, 0) (with_cache cs' w) /\
    cache_inv (with_cache cs' w) (without i l) /\
    same_data (<[i := upd_nused (c_nused c + 1) c]> (cacheBuf w)) cs'.
Proof.
  intros I Hf Hc Hu. pose proof I as (Hlen & Hr & Hd).
  pose proof (indices_nonzero _ _ (proj1 (cache_find_Some _ _ _ _ _ Hf))) as Hi.
  unfold apaCacheGetHeader. erewrite bind_Done by (eapply cacheLookup_eq, I). rewrite Hf.
  erewrite bind_Done by (apply cget_Done, Hc).
  destruct (Z.eqb_spec (c_nused c) 0) as [Hz|Hnz]; unfold when.
  - apply (bi_free _ _ Hd i c Hi Hc) in Hz as Hin.
    apply list_elem_of_split in Hin as (l1 & l2 & ->).
    assert (Hnl : i ∉ l1 ++ l2).
    { destruct Hr as [Hn _]. apply NoDup_cons in Hn as [_ Hn].
      apply NoDup_app in Hn as (_ & H1 & H2). apply NoDup_cons in H2 as [H2 _]. set_solver. }
    destruct (unlink_at w l1 i l2 Hr) as (cs' & E & Hr' & Hs).
    destruct (lookup_lt_is_Some_2 cs' i) as [c1 Hc1].
    { rewrite (same_data_length _ _ Hs). eapply lookup_lt_Some, Hc. }
    destruct (same_data_lookup _ _ _ _ Hs Hc1) as (c' & Hc' & Ef & Eu & Ed & Es & Eh).
    simplify_eq.
    erewrite bind_Done by (erewrite bind_Done by exact E; reflexivity).
    rewrite (cmod_first (with_cache cs' w) i c1) by exact Hc1.
    exists (<[i := upd_nused (c_nused c1 + 1) c1]> cs'). split; [reflexivity|]. split.
    + rewrite without_cut by exact Hnl.
      apply (add_user (with_cache cs' w) (l1 ++ i :: l2) _ i c1); simpl; auto.
      * by rewrite (same_data_length _ _ Hs).
      * eapply data_inv_relink; eassumption.
      * by rewrite without_cut.
      * lia.
    + unfold same_data. rewrite !list_fmap_insert, Hs. f_equal.
      unfold strip, upd_next, upd_tail, upd_nused. simpl. by rewrite Ef, Eu, Ed, Es, Eh.
  - erewrite bind_Done by reflexivity. rewrite (cmod_first w i c) by exact Hc.
    eexists. split; [reflexivity|]. split; [|reflexivity].
    rewrite without_id; [|rewrite (bi_free _ _ Hd i c Hi Hc); lia].
    apply (add_user w l l i c); auto. rewrite without_id; [done|].
    rewrite (bi_free _ _ Hd i c Hi Hc). lia.
Qed.

(** Miss with no free buffer. *)
Lemma getHeader_full w device sector mode :
  cache_inv w [] -> cache_find device sector (cache_indices w) (cacheBuf w) = None ->
  apaCacheGetHeader device sector mode w = Done (None, - ENOMEM) w.
Proof.
  intros I Hf. unfold apaCacheGetHeader. erewrite bind_Done by (eapply cacheLookup_eq, I).
  rewrite Hf. erewrite bind_Done by (apply freeRingEmpty_eq, I). reflexivity.
Qed.

(** A header for writing is not read: the oldest free buffer is mapped. *)
Definition fresh_entry (device sector : Z) (c : apa_cache_t) : apa_cache_t :=
  upd_sector sector (upd_device device (upd_nused 1 (upd_flags 0 c))).

Lemma getHeader_miss w i l c device sector mode (k := fun (_ : nat) =>
    if negb (nz mode) then
      result <- apaCacheTransfer i APA_IO_MODE_READ ;;
      if result <? 0 then
        cmod i (upd_nused 0) ;;; cmod i (upd_device (-1)) ;;; apaCacheLink 0 i ;;;
        ret (None, result)
      else ret (Some i, result)
    else ret (Some i, 0)) :
  cache_inv w (i :: l) -> 0 <= device < 2 ^ 31 -> is_u32 sector ->
  cache_find device sector (cache_indices w) (cacheBuf w) = None ->
  cacheBuf w !! i = Some c ->
  exists cs' c1, apaCacheGetHeader device sector mode w = k i (with_cache cs' w) /\
    cache_inv (with_cache cs' w) l /\ cs' !! i = Some c1 /\
    strip c1 = strip (fresh_entry device sector c) /\ same_data (<[i := fresh_entry device sector c]> (cacheBuf w)) cs'.
Proof.
  intros I Hdev Hsec Hf Hc. pose proof I as (Hlen & Hr & Hd).
  unfold apaCacheGetHeader. erewrite bind_Done by (eapply cacheLookup_eq, I). rewrite Hf.
  erewrite bind_Done by (apply freeRingEmpty_eq, Hr). rewrite bool_decide_eq_false_2 by done.
  destruct (cget_nxt w 0 i (ring_head _ _ Hr)) as (c0 & E0 & Hn0).
  erewrite bind_Done by exact E0. cbv zeta. rewrite Hn0. change (head_or (i :: l) 0) with i.
  destruct (ring_members _ _ i Hr) as [Hi0 _]; [apply list_elem_of_here|]. cmods Hc.
  assert (Ef : upd_sector sector (upd_device device (upd_nused 1 (upd_flags 0 c))) = fresh_entry device sector c)
    by reflexivity.
  rewrite Ef.
  destruct (take_first w i l c (fresh_entry device sector c)) as (cs' & E & I' & HS & c1 & Hc1 & Hs1);
    try done.
  - by eapply (bi_header _ _ Hd i c).
  - intros _. simpl. rewrite s32_small, u32_small by done. exact Hf.
  - exists cs', c1. erewrite bind_Done by exact E. auto.
Qed.

(** A buffer in use whose header and flags change. *)
Lemma inv_header w l i c c' :
  cache_inv w l -> i <> 0%nat -> cacheBuf w !! i = Some c -> hdr_len c' ->
  c_next c' = c_next c -> c_tail c' = c_tail c -> c_nused c' = c_nused c ->
  c_device c' = c_device c -> c_sector c' = c_sector c ->
  cache_inv (with_cache (<[i := c']> (cacheBuf w)) w) l.
Proof.
  intros (Hlen & Hr & Hd) Hi Hc Hh En Et Eu Ed Es.
  split; [simpl; by rewrite length_insert|]. split; [by eapply ring_insert|].
  eapply data_inv_insert; [exact Hd | exact Hi | exact Hc | done | | | exact Hh |].
  - rewrite Eu. by eapply bi_free.
  - rewrite Eu. by eapply bi_count.
  - intros Hm j d Hj Hji Hjd E1 E2. apply Hji. by eapply (bi_key _ _ Hd j i d c);
      try done; unfold mapped in *; congruence.
Qed.

(** A buffer whose read failed is unmapped and goes to the front of the ring. *)
Lemma give_back w l i c :
  cache_inv w l -> i <> 0%nat -> cacheBuf w !! i = Some c -> 0 < c_nused c ->
  exists cs', (cmod i (upd_nused 0) ;;; cmod i (upd_device (-1)) ;;; apaCacheLink 0 i) w
                = Done tt (with_cache cs' w) /\
    cache_inv (with_cache cs' w) (i :: l) /\
    same_data (<[i := upd_device (-1) (upd_nused 0 c)]> (cacheBuf w)) cs'.
Proof.
  intros (Hlen & Hr & Hd) Hi Hc Hu. pose proof (lookup_lt_Some _ _ _ Hc) as Hlt. cmods Hc.
  assert (Hil : i ∉ l) by (rewrite (bi_free _ _ Hd i c Hi Hc); lia).
  set (w1 := with_cache _ w).
  destruct (link_front w1 l i) as (cs' & E & Hr' & Hs).
  { by eapply ring_insert. }
  { set_solver. }
  { simpl. by rewrite length_insert. }
  exists cs'. split; [exact E|]. split; [|exact Hs].
  split; [simpl; rewrite (same_data_length _ _ Hs); simpl; by rewrite length_insert|].
  split; [exact Hr'|]. eapply data_inv_relink; [|exact Hs].
  eapply data_inv_insert; [exact Hd | exact Hi | exact Hc | set_solver | | done | |].
  - split; [done | set_solver].
  - by eapply (bi_header _ _ Hd i c).
  - intros Hm. by destruct Hm.
Qed.

Lemma strip_fields c1 c2 :
  strip c1 = strip c2 ->
  c_flags c1 = c_flags c2 /\ c_nused c1 = c_nused c2 /\ c_device c1 = c_device c2 /\
  c_sector c1 = c_sector c2 /\ c_header c1 = c_header c2.
Proof. intros H. injection H. auto. Qed.

(** What [apaCacheGetHeader] gives its caller. *)
Definition got_header (w : world) (l : list nat) (device sector : Z) (p : cptr) (res : Z) (w' : world) : Prop :=
  match p with
  | Some i =>
      res = 0 /\ cache_inv w' (without i l) /\
      exists c, cacheBuf w' !! i = Some c /\ c_device c = device /\ c_sector c = sector /\ 0 < c_nused c
  | None =>
      (res = - ENOMEM /\ l = [] /\ w' = w) \/ (res = - EIO /\ cache_inv w' l)
  end.

Lemma getHeader_miss_any w i l c device sector mode :
  cache_inv w (i :: l) -> disk_ok (ata w) -> 0 <= device < 2 ^ 31 ->
  addressable (ata w) device sector 2 ->
  cache_find device sector (cache_indices w) (cacheBuf w) = None ->
  cacheBuf w !! i = Some c ->
  wp (apaCacheGetHeader device sector mode) w (fun '(p, res) w' =>
    disk_ok (ata w') /\ got_header w (i :: l) device sector p res w').
Proof.
  intros I Hd Hdev Ha Hf Hc.
  assert (Hsec : is_u32 sector) by (unfold addressable in Ha; unfold is_u32; lia).
  destruct (getHeader_miss w i l c device sector mode I Hdev Hsec Hf Hc)
    as (cs' & c1 & E & I' & Hc1 & Hs1 & _). eapply wp_eq; [exact E|]. cbv beta.
  destruct (ring_members _ _ i (proj1 (proj2 I))) as [Hi0 _]; [apply list_elem_of_here|].
  assert (Hi : i ∉ l).
  { destruct I as (_ & [Hn _] & _). by apply NoDup_cons in Hn as [_ [? _]%NoDup_cons]. }
  assert (Hw : without i (i :: l) = l) by (by apply (without_cut i [] l)).
  apply strip_fields in Hs1 as (Ef & Eu & Ed & Es & Eh).
  cbn [fresh_entry upd_sector upd_device upd_nused upd_flags c_flags c_nused c_device c_sector] in Ef, Eu, Ed, Es.
  rewrite u16_small in Eu by lia. rewrite s32_small in Ed by lia. rewrite u32_small in Es by exact Hsec.
  assert (Hh1 : hdr_len c1) by (unfold hdr_len; rewrite Eh; exact (bi_header _ _ (proj2 (proj2 I)) i c Hi0 Hc)).
  destruct (negb (nz mode)).
  - apply wp_bind. eapply wp_mono;
      [apply (apaCacheTransfer_read_any (with_cache cs' w) i c1); simpl; auto; by rewrite Ed, Es|].
    intros r w2 (Hr & st & h & -> & Hl & Hdk).
    set (c2 := upd_flags _ _). set (w2 := with_ata st _).
    assert (I2 : cache_inv w2 l) by (by apply (inv_header (with_cache cs' w) l i c1 c2)).
    assert (Hc2 : cacheBuf w2 !! i = Some c2)
      by (simpl; apply list_lookup_insert_eq; eapply lookup_lt_Some, Hc1).
    destruct Hr as [-> | ->]; [change (0 <? 0) with false | change (- EIO <? 0) with true]; cbv iota.
    + apply wp_ret. split; [exact Hdk|]. split; [done|]. rewrite Hw. split; [exact I2|].
      exists c2. split; [exact Hc2|]. simpl. repeat split; [congruence | congruence | lia].
    + destruct (give_back w2 l i c2 I2 Hi0 Hc2 ltac:(simpl; lia)) as (cs3 & E3 & I3 & _).
      unfold bind in E3 |- *. unfold wp.
      destruct (cmod i (upd_nused 0) w2) as [[] w3| |]; [|done..].
      destruct (cmod i (upd_device (-1)) w3) as [[] w4| |]; [|done..]. rewrite E3.
      split; [exact Hdk|]. right. auto.
  - apply wp_ret. split; [exact Hd|]. split; [done|]. rewrite Hw. split; [exact I'|].
    exists c1. split; [exact Hc1|]. repeat split; [congruence | congruence | lia].
Qed.

(** ** Initialisation *)

(** The buffers of [done] are in the ring and ready for use. *)
Definition init_inv (st : ata_st) (size : Z) (todo : list nat) (w : world) : Prop :=
  ata w = st /\ cacheSize w = size /\ length (cacheBuf w) = S (Z.to_nat size) /\
  exists done, seq 1 (Z.to_nat size) = done ++ todo /\ ring (cacheBuf w) done /\
    forall i c, cacheBuf w !! i = Some c ->
      c_nused c = 0 /\ (i ∈ done -> hdr_len c /\ c_device c = -1).

Lemma init_step st size w i todo mem :
  init_inv st size (i :: todo) w ->
  wp (cmod i (upd_header (take 256 (mem ++ zeros 256))) ;;;
      cmod i (upd_device (-1)) ;;;
      c0 <- cget 0 ;;
      apaCacheLink (c_tail c0) i) w (fun _ w' => init_inv st size todo w').
Proof.
  intros (Hst & Hsz & Hlen & done & Hseq & Hr & Hall).
  assert (Hi : i ∈ seq 1 (Z.to_nat size)) by (rewrite Hseq; set_solver).
  apply elem_of_seq in Hi. assert (Hlt : (i < length (cacheBuf w))%nat) by lia.
  assert (Hnd : i ∉ done).
  { pose proof (NoDup_seq 1 (Z.to_nat size)) as Hn. rewrite Hseq in Hn.
    apply NoDup_app in Hn as (_ & Hn & _). intros Hd. apply (Hn i Hd). set_solver. }
  destruct (lookup_lt_is_Some_2 _ _ Hlt) as [c Hc].
  set (c' := upd_device (-1) (upd_header (take 256 (mem ++ zeros 256)) c)).
  set (w1 := with_cache (<[i := c']> (cacheBuf w)) w).
  apply (wp_eq _ (c0 <- cget 0 ;; apaCacheLink (c_tail c0) i) _ w1); [by cmods Hc|].
  destruct (link_back w1 done i) as (cs' & E & Hr' & Hs).
  { by eapply ring_insert. }
  { apply not_elem_of_cons. split; [lia | exact Hnd]. }
  { simpl. by rewrite length_insert. }
  eapply wp_Done; [exact E|]. split; [exact Hst|]. split; [exact Hsz|].
  split; [simpl; rewrite (same_data_length _ _ Hs); simpl; by rewrite length_insert|].
  exists (done ++ [i]). split; [by rewrite <- app_assoc|]. split; [exact Hr'|].
  intros j d Hd. destruct (same_data_lookup _ _ _ _ Hs Hd) as (e & He & _ & -> & -> & _ & Hh).
  unfold hdr_len. rewrite Hh. simpl in He. destruct (decide (i = j)) as [<-|Hne].
  - rewrite list_lookup_insert_eq in He by exact Hlt. injection He as <-. simpl.
    split; [apply (Hall i c Hc)|]. intros _. split; [|reflexivity].
    rewrite length_take, length_app, length_zeros. lia.
  - rewrite list_lookup_insert_ne in He by exact Hne. destruct (Hall j e He) as [H1 H2].
    split; [exact H1|]. intros Hin. apply H2. set_solver.
Qed.

Lemma init_inv_cache_inv st size w : 0 <= size -> init_inv st size [] w -> cache_inv w (seq 1 (Z.to_nat size)).
Proof.
  intros Hs0 (_ & Hsz & Hlen & done & Hseq & Hr & Hall). rewrite app_nil_r in Hseq. subst done.
  assert (Hin : forall i c, i <> 0%nat -> cacheBuf w !! i = Some c -> i ∈ seq 1 (Z.to_nat size)).
  { intros i c Hi Hc. apply lookup_lt_Some in Hc. apply elem_of_seq. lia. }
  split; [by rewrite Hsz|]. split; [exact Hr|]. split.
  - intros i c Hi Hc. split; [intros _; apply (Hall i c Hc) | intros _; eauto].
  - intros i c Hi Hc. destruct (Hall i c Hc) as [-> _]. lia.
  - intros i c Hi Hc. apply (Hall i c Hc). eauto.
  - intros i j c d Hi _ Hc _ Hm. exfalso. apply Hm, (Hall i c Hc). eauto.
Qed.

Lemma apaCacheInit_ok w size mem rest :
  0 <= size -> heap w (nalloc w) = Some mem -> heap w (S (nalloc w)) = Some rest ->
  wp (apaCacheInit size) w (fun r w' =>
    r = 0 /\ cache_inv w' (seq 1 (Z.to_nat size)) /\ cacheSize w' = size /\ ata w' = ata w).
Proof.
  intros Hs H1 H2. unfold apaCacheInit. apply wp_bind, wp_ret.
  apply wp_bind. eapply wp_Done; [reflexivity|]. cbn [heap with_cacheSize nalloc with_nalloc].
  rewrite H1. apply wp_bind. eapply wp_Done; [reflexivity|].
  cbn [heap with_cacheSize nalloc with_nalloc]. rewrite H2. apply wp_bind, wp_ret.
  set (e := mkCache 0 0 0 0 0 0 []). set (w1 := with_cache _ _).
  apply wp_bind. eapply (wp_mono _ _ (fun _ w' => init_inv (ata w) size [] w')).
  - apply (wp_for _ (fun todo _ w' => init_inv (ata w) size todo w')).
    + intros i todo [] w' Hi. by apply init_step.
    + split; [done|]. split; [done|]. split; [simpl; by rewrite length_replicate|].
      exists []. split; [done|]. split.
      * split; [apply NoDup_singleton|]. by repeat constructor.
      * intros i c Hc. simpl in Hc. change (e :: replicate ?n e) with (replicate (S n) e) in Hc.
        apply lookup_replicate in Hc as [-> _]. split; [done | set_solver].
  - intros _ w' Hi. apply wp_ret. split; [done|].
    split; [by apply (init_inv_cache_inv (ata w))|]. split; apply Hi.
Qed.

(** [k] allocations in a row. *)
Fixpoint alloc_many (k : nat) : M world (list cptr) :=
  match k with
  | O => ret []
  | S k' => p <- apaCacheAlloc ;; ps <- alloc_many k' ;; ret (p :: ps)
  end.

Lemma alloc_many_ok l : forall w, cache_inv w l ->
  exists w', alloc_many (length l) w = Done (map Some l) w' /\ cache_inv w' [].
Proof.
  induction l as [|i l IH]; intros w I; [by exists w|]. cbn [length alloc_many map].
  destruct (apaCacheAlloc_ok w i l I) as (cs & c & E & I1 & _).
  destruct (IH _ I1) as (w' & E' & I'). exists w'. split; [|exact I'].
  erewrite bind_Done by exact E. by erewrite bind_Done by exact E'.
Qed.
