(* ===== verification/ApaFlush.v ===== *)
(** * ApaFlush: what flushing the header cache does to the drive

    [apaCacheFlushAllDirty] as a sequence of media operations: the dirty
    headers of the device go to the journal area, the journal sector is
    committed between two flushes, the headers go to their places, and the
    journal is reset between two flushes. *)

From stdpp Require Import base numbers list gmap.
From Stdlib Require Import ZArith Lia.
From S2P Require Import Prelude Ata ApaState ApaCache ApaFacts.

Open Scope Z_scope.
Open Scope c_scope.

(** ** The records of a flush *)

Definition dirty_on (device : Z) (c : apa_cache_t) : bool :=
  dirty c && (c_device c =? device).

Abbreviation record := (Z * buf)%type.

(** The record of buffer [i]: its sector and its sealed header. *)
Definition record_of (device : Z) (cs : list apa_cache_t) (i : nat) : option record :=
  match cs !! i with
  | Some c => if dirty_on device c then Some (c_sector c, sealed (c_header c)) else None
  | None => None
  end.

Definition records (device : Z) (idx : list nat) (cs : list apa_cache_t) : list record :=
  omap (record_of device cs) idx.

(** Applying [f] to the dirty buffers of [device] among [idx]. *)
Definition on_dirty (device : Z) (f : apa_cache_t -> apa_cache_t) (cs : list apa_cache_t) (i : nat)
  : list apa_cache_t :=
  match cs !! i with
  | Some c => if dirty_on device c then <[i := f c]> cs else cs
  | None => cs
  end.

Definition all_dirty (device : Z) (f : apa_cache_t -> apa_cache_t) (idx : list nat)
    (cs : list apa_cache_t) : list apa_cache_t :=
  foldl (on_dirty device f) cs idx.

Definition clean_entry (c : apa_cache_t) : apa_cache_t :=
  upd_flags (Z.ldiff (c_flags c) APA_CACHE_FLAG_DIRTY) c.

(** [flags &= ~APA_CACHE_FLAG_DIRTY] leaves a clean buffer. *)
Lemma clean_not_dirty device c : dirty_on device (clean_entry c) = false.
Proof.
  unfold dirty_on, dirty, clean_entry. simpl.
  assert (E : Z.land (u16 (Z.ldiff (c_flags c) APA_CACHE_FLAG_DIRTY)) APA_CACHE_FLAG_DIRTY = 0).
  { unfold u16. rewrite <- Z.land_ones by lia. apply Z.bits_inj'. intros i Hi.
    rewrite !Z.land_spec, Z.ldiff_spec, Z.bits_0.
    destruct (Z.testbit APA_CACHE_FLAG_DIRTY i); by rewrite ?andb_false_r. }
  by rewrite E.
Qed.

(** ** Media operations of the two passes *)

Fixpoint journal_events (device : Z) (k : nat) (R : list record) : list event :=
  match R with
  | [] => []
  | (_, h) :: R' =>
      hdr_events device (APA_SECTOR_APAL_HEADERS + 2 * Z.of_nat k) h
      ++ journal_events device (S k) R'
  end.

Fixpoint place_events (device : Z) (R : list record) : list event :=
  match R with
  | [] => []
  | (s, h) :: R' => hdr_events device s h ++ place_events device R'
  end.

Lemma journal_events_cons device k s h R :
  journal_events device k ((s, h) :: R) =
  hdr_events device (APA_SECTOR_APAL_HEADERS + 2 * Z.of_nat k) h ++ journal_events device (S k) R.
Proof. reflexivity. Qed.

Lemma place_events_cons device s h R :
  place_events device ((s, h) :: R) = hdr_events device s h ++ place_events device R.
Proof. reflexivity. Qed.

Definition flush_events (device : Z) (R : list record) : list event :=
  journal_events device 0 R ++ commit_events device (journal_image (R.*1))
  ++ place_events device R ++ commit_events device empty_journal.

(** ** Buffers during a pass *)

Lemma on_dirty_lookup_ne device f cs i j : i <> j -> on_dirty device f cs i !! j = cs !! j.
Proof.
  intros H. unfold on_dirty. destruct (cs !! i); [|done].
  destruct (dirty_on device a); [|done]. by apply list_lookup_insert_ne.
Qed.

Lemma on_dirty_lookup_eq device f cs i :
  on_dirty device f cs i !! i = (fun c => if dirty_on device c then f c else c) <$> cs !! i.
Proof.
  unfold on_dirty. destruct (cs !! i) as [c|] eqn:E; simpl; [|done].
  destruct (dirty_on device c); [|done].
  apply list_lookup_insert_eq. eapply lookup_lt_Some, E.
Qed.

Lemma all_dirty_lookup_ne device f idx cs j :
  j ∉ idx -> all_dirty device f idx cs !! j = cs !! j.
Proof.
  revert cs. induction idx as [|i idx IH]; intros cs H; [done|].
  apply not_elem_of_cons in H as [Hi Hr]. simpl.
  change (foldl (on_dirty device f) ?x idx) with (all_dirty device f idx x).
  rewrite IH by exact Hr. by apply on_dirty_lookup_ne.
Qed.

Lemma all_dirty_lookup device f idx cs j :
  NoDup idx -> j ∈ idx ->
  all_dirty device f idx cs !! j = (fun c => if dirty_on device c then f c else c) <$> cs !! j.
Proof.
  revert cs. induction idx as [|i idx IH]; intros cs Hn Hj; [by apply elem_of_nil in Hj|].
  apply NoDup_cons in Hn as [Hi Hn]. simpl.
  change (foldl (on_dirty device f) ?x idx) with (all_dirty device f idx x).
  apply elem_of_cons in Hj as [-> | Hj].
  - rewrite all_dirty_lookup_ne by exact Hi. apply on_dirty_lookup_eq.
  - rewrite IH by assumption. rewrite on_dirty_lookup_ne; [done|]. by intros ->.
Qed.

Lemma length_on_dirty device f cs i : length (on_dirty device f cs i) = length cs.
Proof.
  unfold on_dirty. destruct (cs !! i); [|done].
  destruct (dirty_on device a); [apply length_insert | done].
Qed.

Lemma length_all_dirty device f idx cs : length (all_dirty device f idx cs) = length cs.
Proof.
  revert cs. induction idx as [|i idx IH]; intros cs; [done|]. simpl.
  change (foldl (on_dirty device f) ?x idx) with (all_dirty device f idx x).
  rewrite IH. apply length_on_dirty.
Qed.

Lemma records_ext device idx cs cs' :
  (forall i, i ∈ idx -> cs !! i = cs' !! i) -> records device idx cs = records device idx cs'.
Proof.
  intros H. unfold records. induction idx as [|i idx IH]; [done|]. cbn.
  assert (record_of device cs i = record_of device cs' i) as ->
    by (unfold record_of; by rewrite (H i) by apply list_elem_of_here).
  rewrite IH; [done|]. intros j Hj. apply H. by apply list_elem_of_further.
Qed.

Lemma records_on_dirty device f idx cs i :
  i ∉ idx -> records device idx (on_dirty device f cs i) = records device idx cs.
Proof. intros H. apply records_ext. intros j Hj. apply on_dirty_lookup_ne. by intros ->. Qed.

(** What a flush relies on: the buffers exist, hold whole headers, and the
    dirty ones of [device] have an addressable sector. *)
Definition flushable (st : ata_st) (device : Z) (idx : list nat) (cs : list apa_cache_t) : Prop :=
  forall i, i ∈ idx -> exists c, cs !! i = Some c /\
    (dirty_on device c = true ->
       hdr_len c /\ addressable st device (c_sector c) 2).

Lemma flushable_tail st device f idx cs i :
  i ∉ idx -> flushable st device (i :: idx) cs ->
  flushable st device idx (on_dirty device f cs i).
Proof.
  intros Hi H j Hj. rewrite on_dirty_lookup_ne by (by intros ->).
  apply H. by apply list_elem_of_further.
Qed.

Lemma flushable_logs st st' evs device idx cs :
  logs st st' evs -> flushable st device idx cs -> flushable st' device idx cs.
Proof.
  intros L H i Hi. destruct (H i Hi) as (c & Hc & Hd). exists c. split; [exact Hc|].
  intros Hdi. destruct (Hd Hdi) as [H1 H2]. split; [exact H1|].
  eapply logs_addressable; [exact L | exact H2].
Qed.

Lemma journal_events_ok device k R :
  Forall (fun r => length r.2 = 256%nat) R -> sectors_ok (journal_events device k R).
Proof.
  intros H. revert k. induction H as [|[s h] R Hh _ IH]; intros k; cbn [journal_events]; [constructor|].
  apply Forall_app. split; [apply hdr_events_ok, Hh | apply IH].
Qed.

Lemma place_events_ok device R :
  Forall (fun r => length r.2 = 256%nat) R -> sectors_ok (place_events device R).
Proof.
  intros H. induction H as [|[s h] R Hh _ IH]; cbn [place_events]; [constructor|].
  apply Forall_app. split; [apply hdr_events_ok, Hh | exact IH].
Qed.

Lemma records_lengths st device idx cs :
  flushable st device idx cs -> Forall (fun r => length r.2 = 256%nat) (records device idx cs).
Proof.
  intros H. unfold records. induction idx as [|i idx IH]; cbn; [constructor|].
  assert (Ht : flushable st device idx cs).
  { intros j Hj. apply H. by apply list_elem_of_further. }
  unfold record_of. destruct (H i (list_elem_of_here _ _)) as (c & -> & Hd).
  destruct (dirty_on device c) eqn:E; [|apply IH, Ht].
  constructor; [|apply IH, Ht]. simpl. rewrite length_sealed. apply Hd. reflexivity.
Qed.

Lemma dirty_on_device device c : dirty_on device c = true -> c_device c = device.
Proof. unfold dirty_on. intros H. apply andb_prop in H as [_ H]. by apply Z.eqb_eq. Qed.

(** ** The journal pass *)

Definition pass_body (device : Z) (op : nat -> M world Z) : nat -> unit -> M world unit :=
  fun i _ => c <- cget i ;; when (dirty c && (c_device c =? device)) (op i ;;; ret tt).

Lemma pass_skip device op i w c :
  cacheBuf w !! i = Some c -> dirty_on device c = false -> pass_body device op i tt w = Done tt w.
Proof.
  intros Hc Hd. unfold pass_body. erewrite bind_Done by (apply cget_Done, Hc).
  unfold dirty_on in Hd. by rewrite Hd.
Qed.

Lemma pass_do device op i w c r w' :
  cacheBuf w !! i = Some c -> dirty_on device c = true -> op i w = Done r w' ->
  pass_body device op i tt w = Done tt w'.
Proof.
  intros Hc Hd Ho. unfold pass_body. erewrite bind_Done by (apply cget_Done, Hc).
  unfold dirty_on in Hd. rewrite Hd. unfold when. by erewrite bind_Done by exact Ho.
Qed.

Lemma all_dirty_cons device f i idx cs :
  all_dirty device f (i :: idx) cs = all_dirty device f idx (on_dirty device f cs i).
Proof. reflexivity. Qed.

Lemma on_dirty_skip device f cs i c :
  cs !! i = Some c -> dirty_on device c = false -> on_dirty device f cs i = cs.
Proof. intros H1 H2. unfold on_dirty. by rewrite H1, H2. Qed.

Lemma on_dirty_do device f cs i c :
  cs !! i = Some c -> dirty_on device c = true -> on_dirty device f cs i = <[i := f c]> cs.
Proof. intros H1 H2. unfold on_dirty. by rewrite H1, H2. Qed.

Lemma records_skip device i idx cs c :
  cs !! i = Some c -> dirty_on device c = false ->
  records device (i :: idx) cs = records device idx cs.
Proof. intros H1 H2. unfold records. cbn. unfold record_of at 1. by rewrite H1, H2. Qed.

Lemma records_do device i idx cs c :
  cs !! i = Some c -> dirty_on device c = true ->
  records device (i :: idx) cs = (c_sector c, sealed (c_header c)) :: records device idx cs.
Proof. intros H1 H2. unfold records. cbn. unfold record_of at 1. by rewrite H1, H2. Qed.

Lemma journal_pass device idx : forall w ss,
  drive_ok (ata w) -> 0 <= device -> NoDup idx ->
  flushable (ata w) device idx (cacheBuf w) ->
  journalBuf w = journal_image ss ->
  (length ss + length (records device idx (cacheBuf w)) <= 126)%nat ->
  exists st,
    for_ idx (pass_body device apaJournalWrite) tt w =
      Done tt (with_journal (journal_image (ss ++ (records device idx (cacheBuf w)).*1))
                (with_ata st (with_cache (all_dirty device seal_entry idx (cacheBuf w)) w))) /\
    logs (ata w) st (journal_events device (length ss) (records device idx (cacheBuf w))).
Proof.
  induction idx as [|i idx IH]; intros w ss Hd Hdev Hn Hfl Hj Hlen.
  { exists (ata w). split; [|apply logs_nil]. simpl. rewrite app_nil_r, <- Hj.
    unfold ret. f_equal. by destruct w. }
  apply NoDup_cons in Hn as [Hi Hn].
  destruct (Hfl i (list_elem_of_here _ _)) as (c & Hc & Hdc).
  pose proof (flushable_tail _ _ seal_entry _ _ _ Hi Hfl) as Hfl'.
  cbn [for_]. rewrite all_dirty_cons. destruct (dirty_on device c) eqn:Ed.
  - destruct (Hdc eq_refl) as [Hl Ha]. pose proof (dirty_on_device _ _ Ed) as Hdv.
    rewrite (records_do _ _ _ _ _ Hc Ed) in *. simpl length in Hlen.
    destruct (apaJournalWrite_ok w i c ss) as (st1 & E1 & L1); auto; try lia.
    { unfold addressable in Ha. unfold is_u32. lia. }
    erewrite bind_Done by (eapply pass_do; [exact Hc | exact Ed | exact E1]).
    rewrite (on_dirty_do _ _ _ _ _ Hc Ed) in *.
    rewrite <- (records_on_dirty device seal_entry idx (cacheBuf w) i Hi) in *.
    rewrite (on_dirty_do _ _ _ _ _ Hc Ed) in *. rewrite Hdv in L1.
    destruct (IH (with_journal (journal_image (ss ++ [c_sector c]))
                (with_ata st1 (with_cache (<[i:=seal_entry c]> (cacheBuf w)) w)))
                (ss ++ [c_sector c])) as (st2 & E2 & L2); auto.
    + eapply logs_drive_ok; [exact L1 | exact Hd | apply hdr_events_ok; by rewrite length_sealed].
    + eapply flushable_logs; [exact L1 | exact Hfl'].
    + rewrite length_app. simpl in *. lia.
    + exists st2. split.
      * rewrite E2. simpl. by rewrite <- app_assoc.
      * rewrite journal_events_cons. eapply logs_trans; [exact L1|].
        simpl in L2. rewrite length_app in L2. simpl in L2.
        by replace (length ss + 1)%nat with (S (length ss)) in L2 by lia.
  - erewrite bind_Done by (eapply pass_skip; [exact Hc | exact Ed]).
    rewrite (on_dirty_skip _ _ _ _ _ Hc Ed) in *. rewrite (records_skip _ _ _ _ _ Hc Ed) in *.
    apply IH; auto.
Qed.

(** ** The in-place pass *)

Lemma apaCacheTransfer_write w i c :
  drive_ok (ata w) -> cacheBuf w !! i = Some c -> hdr_len c ->
  addressable (ata w) (c_device c) (c_sector c) 2 ->
  exists st,
    apaCacheTransfer i APA_IO_MODE_WRITE w =
      Done 0 (with_ata st (with_cache (<[i := clean_entry c]> (cacheBuf w)) w)) /\
    logs (ata w) st (hdr_events (c_device c) (c_sector c) (c_header c)).
Proof.
  intros Hd Hc Hl Ha.
  destruct (cache_io_write w (c_device c) i c (c_sector c)) as (st & E & L); auto.
  exists st. split; [|exact L]. unfold apaCacheTransfer.
  erewrite bind_Done by (apply cget_Done, Hc).
  change (nz APA_IO_MODE_WRITE) with true. cbv iota.
  erewrite bind_Done; cycle 1.
  { unfold apaWriteHeader. erewrite bind_Done by exact E. reflexivity. }
  change (nz 0 && _) with false. unfold when at 1. erewrite bind_Done by reflexivity.
  erewrite bind_Done by (apply cmod_Done, Hc). reflexivity.
Qed.

(** The records of buffers whose headers are already sealed. *)
Definition placed (device : Z) (idx : list nat) (cs : list apa_cache_t) : list record :=
  omap (fun i => match cs !! i with
                 | Some c => if dirty_on device c then Some (c_sector c, c_header c) else None
                 | None => None
                 end) idx.

Lemma placed_ext device idx cs cs' :
  (forall i, i ∈ idx -> cs !! i = cs' !! i) -> placed device idx cs = placed device idx cs'.
Proof.
  intros H. unfold placed. induction idx as [|i idx IH]; [done|]. cbn.
  rewrite (H i) by apply list_elem_of_here.
  rewrite IH; [done|]. intros j Hj. apply H. by apply list_elem_of_further.
Qed.

Lemma dirty_on_seal device c : dirty_on device (seal_entry c) = dirty_on device c.
Proof. reflexivity. Qed.

Lemma placed_sealed device idx cs :
  NoDup idx -> placed device idx (all_dirty device seal_entry idx cs) = records device idx cs.
Proof.
  intros Hn. revert cs. induction idx as [|i idx IH]; intros cs; [done|].
  apply NoDup_cons in Hn as [Hi Hn].
  transitivity (match record_of device cs i with
                | Some r => r :: records device idx cs
                | None => records device idx cs
                end); [|reflexivity].
  unfold placed. cbn [omap list_omap].
  rewrite all_dirty_cons, all_dirty_lookup_ne by exact Hi.
  change (omap _ idx) with (placed device idx (all_dirty device seal_entry idx
    (on_dirty device seal_entry cs i))).
  rewrite IH by exact Hn. rewrite records_on_dirty by exact Hi.
  rewrite on_dirty_lookup_eq. unfold record_of. destruct (cs !! i) as [c|]; simpl; [|done].
  destruct (dirty_on device c) eqn:E; [by rewrite dirty_on_seal, E | by rewrite E].
Qed.

Lemma place_pass device idx : forall w,
  drive_ok (ata w) -> NoDup idx -> flushable (ata w) device idx (cacheBuf w) ->
  exists st,
    for_ idx (pass_body device (fun i => apaCacheTransfer i APA_IO_MODE_WRITE)) tt w =
      Done tt (with_ata st (with_cache (all_dirty device clean_entry idx (cacheBuf w)) w)) /\
    logs (ata w) st (place_events device (placed device idx (cacheBuf w))).
Proof.
  induction idx as [|i idx IH]; intros w Hd Hn Hfl.
  { exists (ata w). split; [|apply logs_nil]. simpl. unfold ret. f_equal. by destruct w. }
  apply NoDup_cons in Hn as [Hi Hn].
  destruct (Hfl i (list_elem_of_here _ _)) as (c & Hc & Hdc).
  pose proof (flushable_tail _ _ clean_entry _ _ _ Hi Hfl) as Hfl'.
  cbn [for_]. rewrite all_dirty_cons.
  unfold placed. cbn [omap list_omap]. rewrite Hc. change (omap _ idx) with (placed device idx (cacheBuf w)).
  destruct (dirty_on device c) eqn:Ed.
  - destruct (Hdc eq_refl) as [Hl Ha]. pose proof (dirty_on_device _ _ Ed) as Hdv.
    destruct (apaCacheTransfer_write w i c) as (st1 & E1 & L1); auto; [by rewrite Hdv|].
    erewrite bind_Done by (eapply pass_do; [exact Hc | exact Ed | exact E1]).
    rewrite (placed_ext device idx (cacheBuf w) (on_dirty device clean_entry (cacheBuf w) i)).
    2:{ intros j Hj. symmetry. apply on_dirty_lookup_ne. by intros ->. }
    rewrite (on_dirty_do _ _ _ _ _ Hc Ed) in *. rewrite Hdv in L1.
    destruct (IH (with_ata st1 (with_cache (<[i:=clean_entry c]> (cacheBuf w)) w)))
      as (st2 & E2 & L2); auto.
    + eapply logs_drive_ok; [exact L1 | exact Hd | by apply hdr_events_ok].
    + eapply flushable_logs; [exact L1 | exact Hfl'].
    + exists st2. split; [by rewrite E2|].
      rewrite place_events_cons. eapply logs_trans; [exact L1 | exact L2].
  - erewrite bind_Done by (eapply pass_skip; [exact Hc | exact Ed]).
    rewrite (on_dirty_skip _ _ _ _ _ Hc Ed) in *. apply IH; auto.
Qed.

(** ** The whole flush *)

Lemma forDirty_unfold device op w :
  forDirty device op w = for_ (cache_indices w) (pass_body device op) tt w.
Proof. reflexivity. Qed.

Lemma flushable_sealed st device idx cs :
  NoDup idx -> flushable st device idx cs ->
  flushable st device idx (all_dirty device seal_entry idx cs).
Proof.
  intros Hn H i Hi. destruct (H i Hi) as (c & Hc & Hd).
  rewrite all_dirty_lookup, Hc by assumption. simpl.
  eexists. split; [reflexivity|]. intros E.
  assert (Ed : dirty_on device c = true)
    by (destruct (dirty_on device c) eqn:E'; [done | congruence]).
  rewrite Ed in *. destruct (Hd eq_refl) as [H1 H2]. split; [|exact H2].
  unfold hdr_len in *. simpl. by rewrite length_sealed.
Qed.

Definition flushed (device : Z) (idx : list nat) (cs : list apa_cache_t) : list apa_cache_t :=
  all_dirty device clean_entry idx (all_dirty device seal_entry idx cs).

Lemma apaCacheFlushAllDirty_ok w device :
  let idx := cache_indices w in
  let R := records device idx (cacheBuf w) in
  drive_ok (ata w) -> 0 <= device ->
  flushable (ata w) device idx (cacheBuf w) ->
  journalBuf w = empty_journal -> (length R <= 126)%nat ->
  exists st,
    apaCacheFlushAllDirty device w =
      Done 0 (with_journal empty_journal
                (with_ata st (with_cache (flushed device idx (cacheBuf w)) w))) /\
    logs (ata w) st (flush_events device R).
Proof.
  intros idx R Hd Hdev Hfl Hj Hlen.
  assert (Hn : NoDup idx) by apply NoDup_seq.
  destruct (journal_pass device idx w [] Hd Hdev Hn Hfl) as (s1 & E1 & L1);
    [by rewrite Hj | exact Hlen |].
  pose proof (records_lengths _ _ _ _ Hfl) as HRl.
  assert (Hd1 : drive_ok s1)
    by (eapply logs_drive_ok; [exact L1 | exact Hd | by apply journal_events_ok]).
  set (w1 := with_journal _ _) in E1. simpl app in w1. fold R in w1, L1.
  destruct (apaJournalFlush_ok w1 device Hd1 Hdev) as (s2 & E2 & L2).
  { simpl. apply length_journal_image. by rewrite length_fmap. }
  assert (Hd2 : drive_ok s2).
  { eapply logs_drive_ok; [exact L2 | exact Hd1 |]. apply commit_events_ok.
    simpl. apply length_journal_image. by rewrite length_fmap. }
  destruct (place_pass device idx (with_ata s2 w1)) as (s3 & E3 & L3); auto.
  { apply flushable_sealed; [exact Hn|]. eapply flushable_logs; [exact L2|].
    eapply flushable_logs; [exact L1 | exact Hfl]. }
  simpl in L3. rewrite placed_sealed in L3 by exact Hn. fold R in L3.
  assert (Hd3 : drive_ok s3)
    by (eapply logs_drive_ok; [exact L3 | exact Hd2 | by apply place_events_ok]).
  set (w3 := with_ata s3 _) in E3.
  destruct (apaJournalReset_ok w3 device Hd3 Hdev) as (s4 & E4 & L4).
  exists s4. split.
  - unfold apaCacheFlushAllDirty.
    erewrite bind_Done by (rewrite forDirty_unfold; exact E1).
    erewrite bind_Done by exact E2.
    erewrite bind_Done by (rewrite forDirty_unfold; exact E3).
    rewrite E4. reflexivity.
  - unfold flush_events. eapply logs_trans; [exact L1|].
    eapply logs_trans; [exact L2|]. eapply logs_trans; [exact L3 | exact L4].
Qed.
