(* ===== verification/Crash.v ===== *)
(** * Crash: what the drive can hold after power is lost

    The drive has a write cache: a sector write reaches the media at any time
    before the next flush of that drive completes, in any order.  A crash
    image of a trace of media operations is a disk in which every sector holds
    a value the media may have had at some point of the trace: the value at
    the last flush before that point, or any value written to it since. *)

From stdpp Require Import base numbers list gmap.
From Stdlib Require Import ZArith Lia.
From S2P Require Import Prelude Ata.

Open Scope Z_scope.

Abbreviation diskmap := (gmap (Z * Z) buf).
Abbreviation key := (Z * Z)%type.

(** ** Possible values of one sector *)

Definition poss_event (k : key) (l : list (option buf)) (e : event) : list (option buf) :=
  match e with
  | EvWrite dv lba s => if decide ((dv, lba) = k) then l ++ [Some s] else l
  | EvFlush dv => if dv =? k.1 then match last l with Some v => [v] | None => [] end else l
  end.

Definition poss_from (l : list (option buf)) (evs : list event) (k : key) : list (option buf) :=
  foldl (poss_event k) l evs.

Definition possible (d : diskmap) (evs : list event) (k : key) : list (option buf) :=
  poss_from [d !! k] evs k.

(** [d'] can be found on the media after a crash during [evs], begun with
    everything flushed and contents [d]. *)
Definition crash_image (d : diskmap) (evs : list event) (d' : diskmap) : Prop :=
  exists p, p `prefix_of` evs /\ forall k, d' !! k ∈ possible d p k.

(** ** The last value written to a sector *)

Fixpoint last_write (evs : list event) (k : key) : option buf :=
  match evs with
  | [] => None
  | e :: evs' =>
      match last_write evs' k with
      | Some s => Some s
      | None =>
          match e with
          | EvWrite dv lba s => if decide ((dv, lba) = k) then Some s else None
          | EvFlush _ => None
          end
      end
  end.

Lemma last_write_app a b k :
  last_write (a ++ b) k = match last_write b k with Some s => Some s | None => last_write a k end.
Proof.
  induction a as [|e a IH]; simpl; [by destruct (last_write b k)|].
  rewrite IH. by destruct (last_write b k).
Qed.

Lemma replay_lookup d evs k :
  replay d evs !! k = match last_write evs k with Some s => Some s | None => d !! k end.
Proof.
  revert d. induction evs as [|e evs IH]; intros d; [done|].
  change (replay d (e :: evs)) with (replay (apply_event d e) evs). rewrite IH. simpl.
  destruct (last_write evs k); [done|]. destruct e as [dv lba s|dv]; simpl; [|done].
  rewrite lookup_insert. by case_decide.
Qed.

(** ** Possible values and flushes *)

Lemma poss_from_app l a b k : poss_from l (a ++ b) k = poss_from (poss_from l a k) b k.
Proof. apply foldl_app. Qed.

Lemma poss_from_cons l e b k : poss_from l (e :: b) k = poss_from (poss_event k l e) b k.
Proof. reflexivity. Qed.

Lemma last_poss l evs k v :
  last l = Some v ->
  last (poss_from l evs k) = Some (match last_write evs k with Some s => Some s | None => v end).
Proof.
  revert l v. induction evs as [|e evs IH]; intros l v Hl; [done|].
  rewrite poss_from_cons. destruct e as [dv lba s|dv]; simpl.
  - case_decide.
    + rewrite (IH _ (Some s)) by (by rewrite last_snoc). by destruct (last_write evs k).
    + rewrite (IH _ v Hl). by destruct (last_write evs k).
  - destruct (dv =? k.1).
    + rewrite Hl, (IH _ v) by done. by destruct (last_write evs k).
    + rewrite (IH _ v Hl). by destruct (last_write evs k).
Qed.

(** After a flush, a sector has one possible value. *)
Lemma possible_flush d p q dv k :
  k.1 = dv -> possible d (p ++ EvFlush dv :: q) k = poss_from [replay d p !! k] q k.
Proof.
  intros <-. unfold possible. rewrite poss_from_app, poss_from_cons. unfold poss_event at 1.
  rewrite Z.eqb_refl, (last_poss _ _ _ (d !! k)) by done. by rewrite replay_lookup.
Qed.

Lemma poss_from_in l evs k v :
  v ∈ poss_from l evs k -> v ∈ l \/ exists s, v = Some s /\ EvWrite k.1 k.2 s ∈ evs.
Proof.
  revert l. induction evs as [|e evs IH]; intros l Hv; [by left|].
  rewrite poss_from_cons in Hv. apply IH in Hv as [Hv | (s & -> & Hs)].
  2:{ right. exists s. split; [done | by apply list_elem_of_further]. }
  destruct e as [dv lba s|dv]; simpl in Hv.
  - case_decide as E; [|by left]. apply elem_of_app in Hv as [Hv|Hv]; [by left|].
    apply list_elem_of_singleton in Hv as ->. right. exists s. split; [done|].
    rewrite <- E. apply list_elem_of_here.
  - destruct (dv =? k.1); [|by left]. destruct (last l) eqn:El; [|by apply elem_of_nil in Hv].
    apply list_elem_of_singleton in Hv as ->. left. by apply last_Some_elem_of.
Qed.

Lemma last_write_None evs k s : last_write evs k = None -> EvWrite k.1 k.2 s ∉ evs.
Proof.
  induction evs as [|e evs IH]; intros H Hin; [by apply elem_of_nil in Hin|].
  simpl in H. destruct (last_write evs k); [done|].
  apply elem_of_cons in Hin as [<- | Hin]; [|by apply IH].
  destruct k as [dv lba]. simpl in H. by case_decide.
Qed.

(** A sector that is not written keeps its value. *)
Lemma possible_unwritten d evs k v :
  last_write evs k = None -> v ∈ possible d evs k -> v = d !! k.
Proof.
  intros H Hv. apply poss_from_in in Hv as [Hv | (s & _ & Hs)].
  - by apply list_elem_of_singleton in Hv.
  - by apply (last_write_None _ _ s H) in Hs.
Qed.

Lemma poss_unwritten v0 evs k v :
  last_write evs k = None -> v ∈ poss_from [v0] evs k -> v = v0.
Proof.
  intros H Hv. apply poss_from_in in Hv as [Hv | (s & _ & Hs)].
  - by apply list_elem_of_singleton in Hv.
  - by apply (last_write_None _ _ s H) in Hs.
Qed.

(** ** Prefixes *)

Lemma prefix_app_split {A} (p a b : list A) :
  p `prefix_of` a ++ b -> p `prefix_of` a \/ exists q, p = a ++ q /\ q `prefix_of` b.
Proof.
  revert p. induction a as [|x a IH]; intros p Hp; [right; by exists p|].
  destruct p as [|y p]; [left; apply prefix_nil|].
  pose proof (prefix_cons_inv_1 _ _ _ _ Hp) as ->. apply prefix_cons_inv_2 in Hp.
  destruct (IH p Hp) as [H | (q & -> & H)]; [left; by apply prefix_cons | right; by exists q].
Qed.

Lemma prefix_three {A} (p b : list A) x y z :
  p `prefix_of` x :: y :: z :: b ->
  p = [] \/ p = [x] \/ p = [x; y] \/ exists q, p = x :: y :: z :: q /\ q `prefix_of` b.
Proof.
  intros Hp. change (x :: y :: z :: b) with ([x; y; z] ++ b) in Hp.
  apply prefix_app_split in Hp as [Hp | (q & -> & Hq)]; [|right; right; right; by exists q].
  destruct Hp as [r Hr]. destruct p as [|a [|c [|e [|f p]]]]; simpl in Hr; simplify_eq; auto.
  right. right. right. exists []. split; [done | apply prefix_nil].
Qed.

Lemma last_write_prefix p evs k : p `prefix_of` evs -> last_write evs k = None -> last_write p k = None.
Proof. intros [q ->]. rewrite last_write_app. by destruct (last_write q k). Qed.
