(* ===== verification/ApaCrash.v ===== *)
(** * ApaCrash: the journal makes a flush of headers atomic

    A crash at any point of [apaCacheFlushAllDirty] leaves the disk in one of
    three states: untouched apart from the journal area ([Old]), with a
    committed journal ([Committed]), or finished ([New]).
    [apaJournalRestore], which [_start] runs at the next boot, keeps the first
    and the last and turns a committed one into [New], and can itself be
    interrupted and run again. *)

From stdpp Require Import base numbers list gmap.
From Stdlib Require Import ZArith Lia.
From S2P Require Import Prelude Ata ApaState ApaCache ApaFacts ApaRing ApaInv ApaFlush Crash.

Open Scope Z_scope.
Open Scope c_scope.

(** ** The journal area of a drive *)

Definition in_journal (device : Z) (k : key) : Prop :=
  k.1 = device /\ (k.2 = APA_SECTOR_APAL \/ APA_SECTOR_APAL_HEADERS <= k.2 < 262).

(** A header location outside the area. *)
Definition clear_of_journal (s : Z) : Prop := s + 2 <= APA_SECTOR_APAL \/ 262 <= s.

Definition agree (device : Z) (d1 d2 : diskmap) : Prop :=
  forall k, ~ in_journal device k -> d1 !! k = d2 !! k.

#[export] Instance agree_equiv device : Equivalence (agree device).
Proof.
  split.
  - intros d k _. reflexivity.
  - intros d1 d2 H k Hk. symmetry. by apply H.
  - intros d1 d2 d3 H1 H2 k Hk. rewrite H1, H2; done.
Qed.

Definition jsector (device : Z) : key := (device, APA_SECTOR_APAL).

(** A journal sector with nothing to restore. *)
Definition idle_sector (s : buf) : Prop := get32 s 0 <> APAL_MAGIC \/ j_num s = 0.
Definition idle (device : Z) (d : diskmap) : Prop :=
  idle_sector (default (zeros 128) (d !! jsector device)).

Definition new_image (device : Z) (d : diskmap) (R : list record) : diskmap :=
  replay d (place_events device R).

(** The journal slots hold the headers of [R]. *)
Definition slots (device : Z) (R : list record) (d : diskmap) : Prop :=
  forall j s h, R !! j = Some (s, h) ->
    d !! (device, APA_SECTOR_APAL_HEADERS + 2 * Z.of_nat j) = Some (take 128 h) /\
    d !! (device, APA_SECTOR_APAL_HEADERS + 2 * Z.of_nat j + 1) = Some (take 128 (drop 128 h)).

Definition Old (device : Z) (d d' : diskmap) : Prop := idle device d' /\ agree device d' d.
Definition New (device : Z) (d : diskmap) (R : list record) (d' : diskmap) : Prop :=
  idle device d' /\ agree device d' (new_image device d R).
Definition Committed (device : Z) (d : diskmap) (R : list record) (d' : diskmap) : Prop :=
  d' !! jsector device = Some (journal_image (R.*1)) /\ slots device R d' /\
  forall k, ~ in_journal device k -> last_write (place_events device R) k = None -> d' !! k = d !! k.

(** ** Who writes what *)

Lemma last_write_hdr device lba h k :
  ~ (k.1 = device /\ lba <= k.2 < lba + 2) -> last_write (hdr_events device lba h) k = None.
Proof.
  intros H. unfold hdr_events. simpl. destruct k as [dv l]. simpl in H.
  rewrite !decide_False by (intros [= <- <-]; apply H; lia). done.
Qed.

Lemma place_unwritten device R k :
  Forall (fun r => clear_of_journal r.1) R -> in_journal device k ->
  last_write (place_events device R) k = None.
Proof.
  intros HR Hk. induction HR as [|[s h] R Hs _ IH]; [done|].
  rewrite place_events_cons, last_write_app, IH. apply last_write_hdr.
  unfold in_journal, clear_of_journal, APA_SECTOR_APAL, APA_SECTOR_APAL_HEADERS in *. simpl in Hs. lia.
Qed.

Lemma place_other device R k : k.1 <> device -> last_write (place_events device R) k = None.
Proof.
  intros Hk. induction R as [|[s h] R IH]; [done|].
  rewrite place_events_cons, last_write_app, IH. apply last_write_hdr. by intros [? _].
Qed.

Lemma journal_unwritten device j R k :
  (j + length R <= 126)%nat -> ~ (in_journal device k /\ k <> jsector device) ->
  last_write (journal_events device j R) k = None.
Proof.
  revert j. induction R as [|[s h] R IH]; intros j Hl Hk; [done|]. simpl in Hl.
  rewrite journal_events_cons, last_write_app, IH by (simpl in *; lia || done).
  apply last_write_hdr. intros [H1 H2]. apply Hk.
  unfold in_journal, jsector, APA_SECTOR_APAL, APA_SECTOR_APAL_HEADERS in *.
  split; [lia|]. intros ->. simpl in H2. lia.
Qed.

Lemma jsector_in device : in_journal device (jsector device).
Proof. unfold in_journal, jsector. simpl. auto. Qed.

Lemma journal_slot_unwritten device j R k :
  k.1 = device -> k.2 < APA_SECTOR_APAL_HEADERS + 2 * Z.of_nat j ->
  last_write (journal_events device j R) k = None.
Proof.
  revert j. induction R as [|[s h] R IH]; intros j H1 H2; [done|].
  rewrite journal_events_cons, last_write_app, IH by (exact H1 || lia).
  apply last_write_hdr. lia.
Qed.

Lemma last_write_hdr_0 device lba h : last_write (hdr_events device lba h) (device, lba) = Some (take 128 h).
Proof.
  unfold hdr_events. simpl. rewrite decide_False by (intros [= H]; lia). by rewrite decide_True.
Qed.
Lemma last_write_hdr_1 device lba h :
  last_write (hdr_events device lba h) (device, lba + 1) = Some (take 128 (drop 128 h)).
Proof. unfold hdr_events. simpl. by rewrite decide_True. Qed.

Lemma journal_slots device R d : forall j,
  forall i s h, R !! i = Some (s, h) ->
    let lba := APA_SECTOR_APAL_HEADERS + 2 * Z.of_nat (j + i) in
    replay d (journal_events device j R) !! (device, lba) = Some (take 128 h) /\
    replay d (journal_events device j R) !! (device, lba + 1) = Some (take 128 (drop 128 h)).
Proof.
  induction R as [|[s0 h0] R IH]; intros j i s h Hi; [done|]. cbv zeta in *.
  rewrite !replay_lookup, !journal_events_cons, !last_write_app.
  destruct i as [|i]; simpl in Hi.
  - simplify_eq. rewrite Nat.add_0_r, !journal_slot_unwritten by (simpl; lia).
    by rewrite last_write_hdr_0, last_write_hdr_1.
  - specialize (IH (S j) i s h Hi). rewrite !replay_lookup in IH.
    replace (S j + i)%nat with (j + S i)%nat in IH by lia. destruct IH as [IH0 IH1].
    rewrite !last_write_hdr in * by (simpl; lia).
    split; [by destruct (last_write _ (device, APA_SECTOR_APAL_HEADERS + 2 * Z.of_nat (j + S i)))
           | by destruct (last_write _ (device, APA_SECTOR_APAL_HEADERS + 2 * Z.of_nat (j + S i) + 1))].
Qed.

Lemma jsector_ne device k : k <> jsector device -> (device, APA_SECTOR_APAL) <> k.
Proof. intros H E. by apply H. Qed.

(** ** A crash during a flush *)

Section Flush.
Context (device : Z) (d : diskmap) (R : list record).
Hypothesis Hidle : idle device d.
Hypothesis Hlen : (length R <= 126)%nat.
Hypothesis Hclear : Forall (fun r => clear_of_journal r.1) R.

Let J := journal_events device 0 R.
Let P := place_events device R.
Let Wj := EvWrite device APA_SECTOR_APAL (journal_image (R.*1)).
Let We := EvWrite device APA_SECTOR_APAL empty_journal.
Let F := EvFlush device.

Lemma possible_F p q k :
  k.1 = device -> possible d (p ++ F :: q) k = poss_from [replay d p !! k] q k.
Proof. apply possible_flush. Qed.

(** Before the journal sector is written: nothing but journal slots. *)
Lemma crash_before p d' :
  p `prefix_of` J ++ [F] -> (forall k, d' !! k ∈ possible d p k) -> Old device d d'.
Proof.
  intros Hp Hd.
  assert (E : forall k, ~ (in_journal device k /\ k <> jsector device) -> d' !! k = d !! k).
  { intros k Hk. eapply possible_unwritten; [|apply Hd].
    eapply last_write_prefix; [exact Hp|]. rewrite last_write_app. by apply journal_unwritten. }
  split.
  - unfold idle. rewrite E; [exact Hidle|]. by intros [_ ?].
  - intros k Hk. apply E. by intros [? _].
Qed.

Lemma wj_other k : k <> jsector device -> last_write [Wj] k = None.
Proof. intros H. simpl. by rewrite decide_False by (by apply jsector_ne). Qed.
Lemma we_other k : k <> jsector device -> last_write [We; F] k = None.
Proof. intros H. simpl. by rewrite decide_False by (by apply jsector_ne). Qed.

Lemma slot_key j : (j < length R)%nat -> forall lba,
  lba = APA_SECTOR_APAL_HEADERS + 2 * Z.of_nat j \/
  lba = APA_SECTOR_APAL_HEADERS + 2 * Z.of_nat j + 1 ->
  in_journal device (device, lba) /\ (device, lba) <> jsector device.
Proof.
  intros Hj lba H. unfold in_journal, jsector, APA_SECTOR_APAL, APA_SECTOR_APAL_HEADERS in *. simpl.
  split; [lia | intros [= ->]; lia].
Qed.

(** Sectors that keep the value the first flush made durable give [slots]. *)
Lemma slots_kept d' :
  (forall k, in_journal device k -> k <> jsector device -> d' !! k = replay d J !! k) ->
  slots device R d'.
Proof.
  intros H j s h Hj. pose proof (lookup_lt_Some _ _ _ Hj) as Hl.
  destruct (journal_slots device R d 0 j s h Hj) as [H0 H1]. simpl in H0, H1.
  split; rewrite H; auto; apply (slot_key j Hl); auto.
Qed.

(** While the journal sector is being written: it holds the old or the new
    value, and the journal slots are durable. *)
Lemma crash_commit d' :
  (forall k, d' !! k ∈ possible d (J ++ [F; Wj]) k) -> Old device d d' \/ Committed device d R d'.
Proof.
  intros Hd.
  assert (Eout : forall k, ~ in_journal device k -> d' !! k = d !! k).
  { intros k Hk. eapply possible_unwritten; [|apply Hd]. rewrite last_write_app.
    change [F; Wj] with ([F] ++ [Wj]). rewrite last_write_app, wj_other.
    - apply journal_unwritten; [done | by intros [? _]].
    - intros ->. apply Hk, jsector_in. }
  pose proof (Hd (jsector device)) as H8. rewrite possible_F in H8 by done.
  apply poss_from_in in H8 as [H8 | (s & H8 & Hs)].
  - left. apply list_elem_of_singleton in H8. split; [|exact Eout].
    unfold idle. rewrite H8, replay_lookup. unfold J. rewrite journal_unwritten by (done || by intros [_ ?]).
    exact Hidle.
  - right. apply list_elem_of_singleton in Hs. injection Hs as ->. split; [exact H8|].
    split; [|intros k Hk _; by apply Eout].
    apply slots_kept. intros k Hk Hk8. eapply poss_unwritten; [by apply wj_other|].
    pose proof (Hd k) as Hdk. rewrite possible_F in Hdk by apply Hk. exact Hdk.
Qed.

Definition committed_prefix : list event := J ++ [F; Wj].

Lemma committed_lookup k :
  in_journal device k -> k <> jsector device ->
  replay d committed_prefix !! k = replay d J !! k.
Proof.
  intros Hk Hk8. unfold committed_prefix. rewrite replay_app, replay_lookup.
  change [F; Wj] with ([F] ++ [Wj]). by rewrite last_write_app, wj_other.
Qed.

Lemma committed_jsector : replay d committed_prefix !! jsector device = Some (journal_image (R.*1)).
Proof.
  unfold committed_prefix. rewrite replay_app, replay_lookup. simpl. by rewrite decide_True.
Qed.

Lemma committed_out k : ~ in_journal device k -> last_write committed_prefix k = None.
Proof.
  intros Hk. unfold committed_prefix. rewrite last_write_app.
  change [F; Wj] with ([F] ++ [Wj]). rewrite last_write_app, wj_other.
  - apply journal_unwritten; [done | by intros [? _]].
  - intros ->. apply Hk, jsector_in.
Qed.

(** While the headers are written in place. *)
Lemma crash_place q d' :
  q `prefix_of` P ++ [F] ->
  (forall k, d' !! k ∈ possible d (committed_prefix ++ F :: q) k) -> Committed device d R d'.
Proof.
  intros Hq Hd.
  assert (Eq : forall k, last_write P k = None -> last_write q k = None).
  { intros k Hk. eapply last_write_prefix; [exact Hq|]. by rewrite last_write_app. }
  assert (Ej : forall k, in_journal device k -> d' !! k = replay d committed_prefix !! k).
  { intros k Hk. eapply poss_unwritten; [apply Eq; by apply place_unwritten|].
    pose proof (Hd k) as Hdk. rewrite possible_F in Hdk by apply Hk. exact Hdk. }
  split; [|split].
  - rewrite Ej by apply jsector_in. apply committed_jsector.
  - apply slots_kept. intros k Hk Hk8. rewrite Ej by exact Hk. by apply committed_lookup.
  - intros k Hk Hk0. eapply possible_unwritten; [|apply Hd].
    rewrite last_write_app. simpl. rewrite (Eq k Hk0). by apply committed_out.
Qed.

Lemma placed_jsector : last_write (committed_prefix ++ F :: P) (jsector device) = Some (journal_image (R.*1)).
Proof.
  rewrite last_write_app. simpl. unfold P. rewrite place_unwritten by (done || apply jsector_in).
  unfold committed_prefix. rewrite last_write_app. simpl. by rewrite decide_True.
Qed.

(** Once the headers are durable in place. *)
Lemma crash_reset q d' :
  q = [We] \/ q = [We; F] ->
  (forall k, d' !! k ∈ possible d ((committed_prefix ++ F :: P) ++ F :: q) k) ->
  Committed device d R d' \/ New device d R d'.
Proof.
  intros Hq Hd.
  assert (Hq' : forall k, k <> jsector device -> last_write q k = None).
  { intros k Hk. destruct Hq as [-> | ->]; [|by apply we_other].
    simpl. by rewrite decide_False by (by apply jsector_ne). }
  assert (E : forall k, k.1 = device -> k <> jsector device ->
            d' !! k = replay d (committed_prefix ++ F :: P) !! k).
  { intros k Hk Hk8. eapply poss_unwritten; [by apply Hq'|].
    pose proof (Hd k) as Hdk. rewrite possible_F in Hdk by exact Hk. exact Hdk. }
  assert (Eout : agree device d' (new_image device d R)).
  { intros k Hk. unfold new_image. rewrite (replay_lookup d (place_events device R) k). fold P.
    assert (Hk8 : k <> jsector device) by (intros ->; apply Hk, jsector_in).
    destruct (decide (k.1 = device)) as [Hk1|Hk1].
    - rewrite E, replay_lookup, last_write_app by done. simpl. rewrite committed_out by exact Hk.
      by destruct (last_write P k).
    - unfold P. rewrite place_other by exact Hk1. eapply possible_unwritten; [|apply Hd].
      rewrite last_write_app. simpl. rewrite (Hq' k Hk8), last_write_app. simpl.
      unfold P. rewrite place_other by exact Hk1. by apply committed_out. }
  pose proof (Hd (jsector device)) as H8. rewrite possible_F in H8 by done.
  apply poss_from_in in H8 as [H8 | (s & H8 & Hs)].
  - left. apply list_elem_of_singleton in H8. split; [|split].
    + rewrite H8, replay_lookup. by rewrite placed_jsector.
    + apply slots_kept. intros k Hk Hk8. rewrite E by (apply Hk || done).
      rewrite replay_lookup, last_write_app. simpl. unfold P. rewrite place_unwritten by done.
      rewrite <- committed_lookup, replay_lookup by done. done.
    + intros k Hk Hk0. rewrite (Eout k Hk). unfold new_image. rewrite replay_lookup. by rewrite Hk0.
  - right. split; [|exact Eout]. unfold idle. rewrite H8. right.
    destruct Hq as [-> | ->]; apply elem_of_cons in Hs as [Hs|Hs]; set_solver.
Qed.
End Flush.

Lemma flush_crash_cases device d R d' :
  idle device d -> (length R <= 126)%nat -> Forall (fun r => clear_of_journal r.1) R ->
  crash_image d (flush_events device R) d' ->
  Old device d d' \/ Committed device d R d' \/ New device d R d'.
Proof.
  intros Hi Hl Hc (p & Hp & Hd). unfold flush_events in Hp.
  apply prefix_app_split in Hp as [Hp | (q & -> & Hq)].
  { left. apply (crash_before device d R Hi Hl p); [by apply prefix_app_r | exact Hd]. }
  apply prefix_three in Hq as [-> | [-> | [-> | (q2 & -> & Hq)]]].
  - left. eapply (crash_before device d R Hi Hl); [|exact Hd].
    rewrite app_nil_r. by apply prefix_app_r.
  - left. by eapply (crash_before device d R Hi Hl); [|exact Hd].
  - destruct (crash_commit device d R Hi Hl d' Hd); auto.
  - change (journal_events device 0 R ++ EvFlush device :: ?w :: EvFlush device :: q2)
      with (journal_events device 0 R ++ [EvFlush device; w] ++ EvFlush device :: q2) in Hd.
    rewrite app_assoc in Hd.
    apply prefix_app_split in Hq as [Hq | (q3 & -> & Hq)].
    { right. left. eapply (crash_place device d R Hl Hc q2); [by apply prefix_app_r | exact Hd]. }
    apply prefix_three in Hq as [-> | [-> | [-> | (q4 & -> & Hq)]]].
    + right. left. eapply (crash_place device d R Hl Hc); [|exact Hd].
      rewrite app_nil_r. by apply prefix_app_r.
    + right. left. by eapply (crash_place device d R Hl Hc); [|exact Hd].
    + right. apply (crash_reset device d R Hi Hl Hc [EvWrite device APA_SECTOR_APAL empty_journal]);
        [by left|]. rewrite <- app_assoc. exact Hd.
    + apply prefix_nil_inv in Hq as ->. right.
      apply (crash_reset device d R Hi Hl Hc [EvWrite device APA_SECTOR_APAL empty_journal; EvFlush device]);
        [by right|]. rewrite <- app_assoc. exact Hd.
Qed.

(** ** Restoring *)

Lemma read_hdr device lba h st :
  length h = 256%nat ->
  disk st !! (device, lba) = Some (take 128 h) ->
  disk st !! (device, lba + 1) = Some (take 128 (drop 128 h)) ->
  read_sectors st device lba 2 = h.
Proof.
  intros Hl H0 H1. simpl. unfold sector_at. rewrite H0, H1. simpl. rewrite app_nil_r.
  rewrite (take_ge (drop 128 h)) by (rewrite length_drop; lia). apply take_drop.
Qed.

(** The body of the restore loop, for buffer [p] and journal [j]. *)
Definition restore_body (device : Z) (p : nat) (j : buf) : nat -> unit -> M world (unit + unit) :=
  fun i _ =>
    r <- cache_io device p (APA_SECTOR_APAL_HEADERS + 2 * Z.of_nat i) 2 ATA_DIR_READ ;;
    if nz r then ret (inr tt)
    else if (126 <=? i)%nat then undef
    else
      r <- cache_io device p (get32 j (2 + i)) 2 ATA_DIR_WRITE ;;
      if nz r then ret (inr tt) else ret (inl tt).

Definition placeable (st : ata_st) (device : Z) (r : record) : Prop :=
  clear_of_journal r.1 /\ addressable st device r.1 2 /\ length r.2 = 256%nat.

Lemma slots_place device R d s h :
  clear_of_journal s -> slots device R d -> (length R <= 126)%nat ->
  slots device R (replay d (hdr_events device s h)).
Proof.
  intros Hs HS Hl j s' h' Hj. pose proof (lookup_lt_Some _ _ _ Hj) as Hlt.
  destruct (HS j s' h' Hj) as [H0 H1]. rewrite !replay_lookup.
  unfold clear_of_journal, APA_SECTOR_APAL, APA_SECTOR_APAL_HEADERS in *.
  rewrite !last_write_hdr by (simpl; lia). auto.
Qed.

Lemma restore_loop device p j R : forall done todo w c,
  R = done ++ todo -> (length R <= 126)%nat ->
  drive_ok (ata w) -> 0 <= device -> Forall (placeable (ata w) device) todo ->
  slots device R (disk (ata w)) ->
  (forall i s h, R !! i = Some (s, h) -> get32 j (2 + i) = s) ->
  cacheBuf w !! p = Some c -> hdr_len c ->
  exists st h, for_break (seq (length done) (length todo)) (restore_body device p j) tt w
    = Done (inl tt) (with_ata st (with_cache (<[p := upd_header h c]> (cacheBuf w)) w)) /\
    length h = 256%nat /\ drive_ok st /\ logs (ata w) st (place_events device todo).
Proof.
  intros done todo. revert done.
  induction todo as [|[s h] todo IH]; intros done w c HR Hl Hd Hdev Hp HS Hj Hc Hh.
  { exists (ata w), (c_header c). split; [|split; [done | split; [done | apply logs_nil]]].
    simpl. unfold ret. f_equal. replace (upd_header (c_header c) c) with c by by destruct c.
    rewrite list_insert_id by exact Hc. by destruct w. }
  apply Forall_cons in Hp as [(Hcl & Ha & Hlh) Hp]. simpl in Hcl, Ha, Hlh.
  assert (Hi : R !! length done = Some (s, h)) by (rewrite HR; by rewrite list_lookup_middle).
  assert (Hlt : (length done < 126)%nat) by (apply lookup_lt_Some in Hi; lia).
  destruct (HS _ _ _ Hi) as [S0 S1]. simpl length. simpl seq. cbn [for_break].
  set (lba := APA_SECTOR_APAL_HEADERS + 2 * Z.of_nat (length done)) in *.
  assert (Hlba : addressable (ata w) device lba 2)
    by (apply addressable_low; unfold lba, APA_SECTOR_APAL_HEADERS; lia).
  pose proof (cache_io_read w device p c lba Hd Hlba Hc Hh) as E1.
  rewrite (read_hdr device lba h (ata w) Hlh S0 S1) in E1.
  set (w1 := with_cache _ _) in E1.
  assert (Hc1 : cacheBuf w1 !! p = Some (upd_header h c))
    by (simpl; apply list_lookup_insert_eq; eapply lookup_lt_Some, Hc).
  destruct (cache_io_write w1 device p (upd_header h c) s) as (st & E2 & L2); auto.
  assert (Hd2 : drive_ok st) by (eapply logs_drive_ok; [exact L2 | exact Hd | by apply hdr_events_ok]).
  assert (L2' : logs (ata w) st (hdr_events device s h)) by exact L2.
  destruct (IH (done ++ [(s, h)]) (with_ata st w1) (upd_header h c)) as (st' & h' & E3 & Hl3 & Hd3 & L3);
    auto.
  - by rewrite <- app_assoc.
  - eapply Forall_impl; [exact Hp|]. intros r (H1 & H2 & H3). split; [done|]. split; [|done].
    eapply logs_addressable; [exact L2' | exact H2].
  - destruct L2' as (_ & E & _). change (slots device R (disk st)). rewrite E. by apply slots_place.
  - exists st', h'. split; [|split; [done | split; [done|]]].
    + unfold bind at 1. unfold restore_body at 1. erewrite bind_Done by exact E1.
      change (nz 0) with false. cbv iota.
      destruct (Nat.leb_spec 126 (length done)); [lia|]. rewrite (Hj _ _ _ Hi).
      erewrite bind_Done by exact E2. change (nz 0) with false. unfold ret.
      rewrite length_app, Nat.add_1_r in E3. rewrite E3. unfold with_ata, with_cache, w1. simpl.
      by rewrite list_insert_insert_eq.
    + rewrite place_events_cons. eapply logs_trans; [exact L2' | exact L3].
Qed.

Lemma sector_io_read1 st device b lba :
  drive_ok st -> addressable st device lba 1 -> length b = 128%nat ->
  ata_device_sector_io device b lba 1 ATA_DIR_READ st = Done (0, sector_at st device lba) (issue 1 st).
Proof.
  intros [Hf Hd] Ha Hl. rewrite sector_io_small by (auto; lia). unfold drive_move.
  change (ATA_DIR_READ =? ATA_DIR_WRITE) with false. cbv iota. change (Z.to_nat 1) with 1%nat.
  cbn [fst snd read_sectors]. rewrite app_nil_r, drop_ge by lia. by rewrite app_nil_r.
Qed.

(** The media part of a restore with nothing to do. *)
Lemma restore_idle w device :
  drive_ok (ata w) -> 0 <= device -> length (journalBuf w) = 128%nat ->
  idle device (disk (ata w)) ->
  exists j, apaJournalRestore device w = Done 0 (with_journal j (with_ata (issue 1 (ata w)) w)).
Proof.
  intros Hd Hdev Hj Hi. unfold apaJournalRestore. erewrite bind_Done by reflexivity.
  erewrite bind_Done.
  2:{ unfold ata_op. rewrite sector_io_read1; auto. apply addressable_low; unfold APA_SECTOR_APAL; lia. }
  cbv beta iota. erewrite bind_Done by reflexivity. change (nz 0) with false. cbv iota.
  erewrite bind_Done by reflexivity. cbn [journalBuf with_journal].
  set (s := sector_at (ata w) device APA_SECTOR_APAL).
  assert (Hi' : idle_sector s) by exact Hi. destruct (Z.eq_dec (get32 s 0) APAL_MAGIC) as [Hm|Hm].
  - destruct Hi' as [Hi' | Hi']; [done|]. rewrite Hm, Hi', Z.eqb_refl. change (0 =? 0) with true. by exists s.
  - rewrite (proj2 (Z.eqb_neq _ _)) by exact Hm. by exists empty_journal.
Qed.

(** What a restore of the records [R] does to the media. *)
Definition restore_events (device : Z) (R : list record) : list event :=
  place_events device R ++ commit_events device empty_journal.

Lemma restore_committed w d device R i l :
  drive_ok (ata w) -> 0 <= device -> length (journalBuf w) = 128%nat ->
  Committed device d R (disk (ata w)) -> R <> [] -> (length R <= 126)%nat ->
  Forall (placeable (ata w) device) R -> cache_inv w (i :: l) ->
  exists w', apaJournalRestore device w = Done 0 w' /\
    logs (ata w) (ata w') (restore_events device R) /\ drive_ok (ata w') /\
    cache_inv w' (l ++ [i]).
Proof.
  intros Hd Hdev Hj (Hs & HS & _) HR Hl Hp I. unfold apaJournalRestore.
  erewrite bind_Done by reflexivity. erewrite bind_Done.
  2:{ unfold ata_op. rewrite sector_io_read1; auto. apply addressable_low; unfold APA_SECTOR_APAL; lia. }
  cbv beta iota. erewrite bind_Done by reflexivity. change (nz 0) with false. cbv iota.
  erewrite bind_Done by reflexivity. cbn [journalBuf with_journal]. unfold jsector in Hs.
  assert (Es : sector_at (ata w) device APA_SECTOR_APAL = journal_image R.*1)
    by (unfold sector_at; by rewrite Hs).
  rewrite Es. change (get32 (journal_image R.*1) 0 =? APAL_MAGIC) with true. cbv iota.
  rewrite j_num_image by (by rewrite length_fmap). rewrite length_fmap.
  destruct (Z.eqb_spec (Z.of_nat (length R)) 0) as [Hz|_]; [by destruct R|].
  set (w1 := with_journal _ _).
  destruct (apaCacheAlloc_ok w1 i l I) as (cs & c & E & I1 & Hc & Hu & _ & _).
  erewrite bind_Done by exact E. rewrite Nat2Z.id.
  destruct (ring_members _ _ i (proj1 (proj2 I))) as [Hi0 _]; [apply list_elem_of_here|].
  pose proof (bi_header _ _ (proj2 (proj2 I1)) i c Hi0 Hc) as Hh.
  destruct (restore_loop device i (journal_image R.*1) R [] R (with_cache cs w1) c)
    as (st & h & E2 & Hlh & Hd2 & L2); auto.
  { intros k s h Hk. apply journal_image_sector. by rewrite list_lookup_fmap, Hk. }
  erewrite bind_Done by exact E2.
  pose proof (inv_header (with_cache cs w1) l i c (upd_header h c) I1 Hi0 Hc Hlh
                eq_refl eq_refl eq_refl eq_refl eq_refl) as I2.
  set (w2 := with_ata st _).
  destruct (apaCacheFree_last w2 l i (upd_header h c) I2 Hi0) as (cs3 & E3 & I3 & _); [|exact Hu|].
  { simpl. apply list_lookup_insert_eq. eapply lookup_lt_Some, Hc. }
  erewrite bind_Done by exact E3.
  destruct (apaJournalReset_ok (with_cache cs3 w2) device Hd2 Hdev) as (st4 & E4 & L4).
  rewrite E4. eexists. split; [reflexivity|].
  assert (L : logs (ata w) st4 (restore_events device R)) by (eapply logs_trans; [exact L2 | exact L4]).
  split; [exact L|]. split; [|exact I3].
  eapply logs_drive_ok; [exact L4 | exact Hd2 | by apply commit_events_ok].
Qed.

(** The media part of a finished restore. *)
Lemma committed_restored device d R dk :
  Committed device d R dk -> New device d R (replay dk (restore_events device R)).
Proof.
  intros (_ & _ & Hout). unfold restore_events. split.
  - unfold idle. rewrite replay_lookup, last_write_app. simpl. rewrite decide_True by done.
    right. reflexivity.
  - intros k Hk. unfold new_image. rewrite !replay_lookup, last_write_app.
    change (commit_events device empty_journal)
      with ([EvFlush device; EvWrite device APA_SECTOR_APAL empty_journal] ++ [EvFlush device]).
    rewrite last_write_app. simpl. rewrite decide_False.
    + destruct (last_write (place_events device R) k) eqn:E; [done|]. by apply Hout.
    + apply jsector_ne. intros ->. apply Hk, jsector_in.
Qed.

(** ** A crash during a restore *)

Section Restore.
Context (device : Z) (d : diskmap) (R : list record) (dk : diskmap).
Hypothesis Hlen : (length R <= 126)%nat.
Hypothesis Hclear : Forall (fun r => clear_of_journal r.1) R.
Hypothesis HC : Committed device d R dk.

Lemma restore_crash_place p d' :
  p `prefix_of` place_events device R ++ [EvFlush device] ->
  (forall k, d' !! k ∈ possible dk p k) -> Committed device d R d'.
Proof.
  intros Hq Hd. pose proof HC as (Hs & HS & Hout).
  assert (Ej : forall k, in_journal device k -> d' !! k = dk !! k).
  { intros k Hk. eapply possible_unwritten; [|apply Hd]. eapply last_write_prefix; [exact Hq|].
    rewrite last_write_app. simpl. by apply place_unwritten. }
  split; [rewrite Ej; [done | apply jsector_in]|]. split.
  - intros j s h Hj. pose proof (lookup_lt_Some _ _ _ Hj) as Hlt. rewrite !Ej; [by eapply HS|..];
      apply (slot_key device R Hlen j Hlt); auto.
  - intros k Hk Hk0. rewrite <- (Hout k Hk Hk0). eapply possible_unwritten; [|apply Hd].
    eapply last_write_prefix; [exact Hq|]. by rewrite last_write_app.
Qed.

Let We := EvWrite device APA_SECTOR_APAL empty_journal.

Lemma restore_reset_kept (q : list event) (d' : diskmap) (k : key) :
  q = [We] \/ q = [We; EvFlush device] ->
  (forall k, d' !! k ∈ possible dk (place_events device R ++ EvFlush device :: q) k) ->
  k <> jsector device -> d' !! k = replay dk (place_events device R) !! k.
Proof.
  intros Hq Hd Hk. assert (Hq0 : last_write q k = None).
  { destruct Hq as [-> | ->]; simpl; by rewrite decide_False by (by apply jsector_ne). }
  destruct (decide (k.1 = device)) as [Hk1|Hk1].
  - eapply poss_unwritten; [exact Hq0|]. pose proof (Hd k) as Hdk.
    by rewrite possible_flush in Hdk by exact Hk1.
  - rewrite replay_lookup, place_other by exact Hk1. eapply possible_unwritten; [|apply Hd].
    rewrite last_write_app. simpl. by rewrite Hq0, place_other.
Qed.

Lemma restore_crash_reset q d' :
  q = [We] \/ q = [We; EvFlush device] ->
  (forall k, d' !! k ∈ possible dk (place_events device R ++ EvFlush device :: q) k) ->
  Committed device d R d' \/ New device d R d'.
Proof.
  intros Hq Hd. pose proof HC as (Hs & HS & Hout).
  pose proof (fun k => restore_reset_kept q d' k Hq Hd) as E.
  destruct (committed_restored device d R dk HC) as [_ Hnew].
  assert (Hag : agree device d' (new_image device d R)).
  { intros k Hk. rewrite <- (Hnew k Hk), E by (intros ->; apply Hk, jsector_in).
    unfold restore_events. rewrite replay_app, (replay_lookup (replay _ _)). simpl.
    rewrite decide_False; [done|]. apply jsector_ne. intros ->. apply Hk, jsector_in. }
  pose proof (Hd (jsector device)) as H8. rewrite possible_flush in H8 by done.
  apply poss_from_in in H8 as [H8 | (s & H8 & Hin)].
  - left. apply list_elem_of_singleton in H8.
    rewrite replay_lookup, place_unwritten in H8 by (done || apply jsector_in).
    split; [congruence|]. split.
    + intros j s h Hj. pose proof (lookup_lt_Some _ _ _ Hj) as Hlt.
      destruct (HS j s h Hj) as [H0 H1]. rewrite !E by (apply (slot_key device R Hlen j Hlt); auto).
      rewrite !replay_lookup, !place_unwritten; auto; apply (slot_key device R Hlen j Hlt); auto.
    + intros k Hk Hk0. rewrite (Hag k Hk). unfold new_image. rewrite replay_lookup. by rewrite Hk0.
  - right. split; [|exact Hag]. unfold idle. rewrite H8. right.
    destruct Hq as [-> | ->]; set_solver.
Qed.

Lemma restore_crash_cases d' :
  crash_image dk (restore_events device R) d' -> Committed device d R d' \/ New device d R d'.
Proof.
  intros (p & Hp & Hd). unfold restore_events in Hp.
  apply prefix_app_split in Hp as [Hp | (q & -> & Hq)].
  { left. eapply restore_crash_place; [|exact Hd]. by apply prefix_app_r. }
  apply prefix_three in Hq as [-> | [-> | [-> | (q4 & -> & Hq)]]].
  - left. eapply restore_crash_place; [|exact Hd]. rewrite app_nil_r. by apply prefix_app_r.
  - left. by eapply restore_crash_place; [|exact Hd].
  - eapply restore_crash_reset; [by left | exact Hd].
  - apply prefix_nil_inv in Hq as ->. eapply restore_crash_reset; [by right | exact Hd].
Qed.
End Restore.

(** ** Any number of interrupted restores *)

(** The module has just started on a drive with contents [d]: a journal
    buffer of one sector and a free header buffer. *)
Definition boot_world (ext : Z -> bool) (d : diskmap) (w : world) : Prop :=
  disk (ata w) = d /\ drive_ok (ata w) /\ lba48 (ata w) = ext /\
  length (journalBuf w) = 128%nat /\ exists i l, cache_inv w (i :: l).

(** [d2] is on the media after restores begun on [d] and cut by crashes. *)
Inductive reboots (device : Z) (ext : Z -> bool) : diskmap -> diskmap -> Prop :=
| reboots_none d : reboots device ext d d
| reboots_crash d w r w1 evs d1 d2 :
    boot_world ext d w -> apaJournalRestore device w = Done r w1 ->
    logs (ata w) (ata w1) evs -> crash_image d evs d1 ->
    reboots device ext d1 d2 -> reboots device ext d d2.

Lemma logs_unique st st' e1 e2 : logs st st' e1 -> logs st st' e2 -> e1 = e2.
Proof. intros (H1 & _) (H2 & _). rewrite H1 in H2. by apply app_inv_head in H2. Qed.

Lemma crash_nothing d d' : crash_image d [] d' -> d' = d.
Proof.
  intros (p & Hp & Hd). apply prefix_nil_inv in Hp as ->. apply map_eq. intros k.
  by apply list_elem_of_singleton, Hd.
Qed.

Lemma committed_nil device d d' : Committed device d [] d' -> New device d [] d'.
Proof.
  intros (H8 & _ & Hout). split.
  - unfold idle. rewrite H8. right. reflexivity.
  - intros k Hk. by apply Hout.
Qed.

Section Reboots.
Context (device : Z) (ext : Z -> bool) (d : diskmap) (R : list record).
Hypothesis Hdev : 0 <= device.
Hypothesis Hlen : (length R <= 126)%nat.
Hypothesis Hplace : Forall (fun r => clear_of_journal r.1 /\ length r.2 = 256%nat /\
  r.1 + 2 <= 2 ^ 32 /\ 0 <= r.1 /\ (ext device = true \/ r.1 + 2 <= 2 ^ 28)) R.

Definition recoverable (d' : diskmap) : Prop :=
  Old device d d' \/ (R <> [] /\ Committed device d R d') \/ New device d R d'.

Lemma recoverable_intro d' :
  Old device d d' \/ Committed device d R d' \/ New device d R d' -> recoverable d'.
Proof.
  clear Hplace. intros [H | [H | H]]; unfold recoverable; auto.
  destruct R; [right; right; by apply committed_nil | right; left; auto].
Qed.

Lemma clear_all : Forall (fun r => clear_of_journal r.1) R.
Proof. eapply Forall_impl; [exact Hplace|]. by intros r (H & _). Qed.

Lemma placeable_all w d' : boot_world ext d' w -> Forall (placeable (ata w) device) R.
Proof.
  intros (_ & _ & He & _). eapply Forall_impl; [exact Hplace|].
  intros r (H1 & H2 & H3 & H4 & H5). split; [exact H1|]. split; [|exact H2].
  unfold addressable. rewrite He. repeat split; lia || auto.
Qed.

(** One restore that runs to its end, from any recoverable disk. *)
Lemma restore_run d' w :
  recoverable d' -> boot_world ext d' w ->
  exists w1 evs, apaJournalRestore device w = Done 0 w1 /\ logs (ata w) (ata w1) evs /\
    (Old device d (disk (ata w1)) \/ New device d R (disk (ata w1))) /\
    (forall d1, crash_image d' evs d1 -> recoverable d1).
Proof.
  intros HR B. pose proof (placeable_all w d' B) as HP.
  destruct B as (Hdk & Hd & _ & Hj & i & l & I). destruct HR as [HO | [[HnR HC] | HN]].
  - destruct (restore_idle w device Hd Hdev Hj) as [j E]; [rewrite Hdk; apply HO|].
    exists (with_journal j (with_ata (issue 1 (ata w)) w)), []. split; [exact E|].
    split; [apply logs_issue, logs_nil|]. split; [left; simpl; by rewrite Hdk|].
    intros d1 ->%crash_nothing. by left.
  - destruct (restore_committed w d device R i l) as (w1 & E & L & _ & _); auto;
      [by rewrite Hdk|].
    exists w1, (restore_events device R). split; [exact E|]. split; [exact L|]. split.
    + right. destruct L as (_ & -> & _). rewrite Hdk. by apply committed_restored.
    + intros d1 Hc. apply recoverable_intro. right.
      eapply restore_crash_cases; eauto using clear_all.
  - destruct (restore_idle w device Hd Hdev Hj) as [j E]; [rewrite Hdk; apply HN|].
    exists (with_journal j (with_ata (issue 1 (ata w)) w)), []. split; [exact E|].
    split; [apply logs_issue, logs_nil|]. split; [right; simpl; by rewrite Hdk|].
    intros d1 ->%crash_nothing. right. by right.
Qed.

Lemma reboots_recoverable d1 d2 : reboots device ext d1 d2 -> recoverable d1 -> recoverable d2.
Proof.
  induction 1 as [|d0 w r w1 evs d1' d2' B E L C _ IH]; intros HR; [done|].
  destruct (restore_run d0 w HR B) as (w1' & evs' & E' & L' & _ & Hc).
  rewrite E in E'. injection E' as -> ->. rewrite (logs_unique _ _ _ _ L L') in C.
  apply IH, Hc, C.
Qed.
End Reboots.

(** The records of a flush are where a restore can write them. *)
Lemma records_placeable st device idx cs :
  flushable st device idx cs ->
  Forall (fun r => clear_of_journal r.1) (records device idx cs) ->
  Forall (fun r => clear_of_journal r.1 /\ length r.2 = 256%nat /\
    r.1 + 2 <= 2 ^ 32 /\ 0 <= r.1 /\ (lba48 st device = true \/ r.1 + 2 <= 2 ^ 28))
    (records device idx cs).
Proof.
  intros Hfl Hc. induction idx as [|i idx IH]; [constructor|].
  assert (Ht : flushable st device idx cs) by (intros j Hj; apply Hfl; by apply list_elem_of_further).
  destruct (Hfl i (list_elem_of_here _ _)) as (c & Ei & Hd).
  destruct (dirty_on device c) eqn:E.
  - rewrite (records_do _ _ _ _ _ Ei E) in *. apply Forall_cons in Hc as [H1 H2].
    constructor; [|by apply IH]. destruct (Hd eq_refl) as [Hl Ha].
    destruct Ha as (_ & Ha1 & _ & Ha2 & Ha3). cbn [fst snd]. rewrite length_sealed. auto.
  - rewrite (records_skip _ _ _ _ _ Ei E) in *. by apply IH.
Qed.

(** What the completed flush leaves, outside the journal area. *)
Lemma flush_image device d R :
  (length R <= 126)%nat -> Forall (fun r => clear_of_journal r.1) R ->
  New device d R (replay d (flush_events device R)).
Proof.
  intros Hl Hc. unfold flush_events. split.
  - unfold idle. rewrite replay_lookup, !last_write_app. simpl. rewrite decide_True by done.
    right. reflexivity.
  - intros k Hk. assert (Hk8 : k <> jsector device) by (intros ->; apply Hk, jsector_in).
    unfold new_image. rewrite !replay_lookup, !last_write_app. simpl.
    rewrite !decide_False by (by apply jsector_ne).
    rewrite (journal_unwritten device 0 R k) by (done || by intros [? _]).
    by destruct (last_write (place_events device R) k).
Qed.
