(* ===== verification/Scenario.v ===== *)
(** * Scenario: concrete states

    A drive with LBA48 and nothing on it, the state of the module before
    [_start], and states reached from it by running the code.  The witnesses
    of the properties are evaluated on these states. *)

From stdpp Require Import base numbers list gmap.
From Stdlib Require Import ZArith Lia.
From S2P Require Import Prelude Ata ApaState ApaCache.

Open Scope Z_scope.
Open Scope c_scope.

Definition ata0 : ata_st := mkAta ∅ [] 0 (fun _ => None) (fun _ => true).

Definition w0 : world :=
  mkWorld ata0 [] 0 (zeros 128) [0; 0]
    [mkDevice 0 0 0 3; mkDevice 0 0 0 3] [] 1 None
    [mkFile 3 0 None; mkFile 3 0 None]
    (fun _ => (1, mkClock 0 0 0 0 1 1 4)) 0 (fun _ => Some (fun _ => [])) 0.

(** The state after [m], which must not go wrong for the result to be new. *)
Definition after {S A} (m : M S A) (s : S) : S :=
  match m s with Done _ s' => s' | _ => s end.
Definition result {S A} (m : M S A) (s : S) : option A :=
  match m s with Done a _ => Some a | _ => None end.

Lemma result_after {S A} (m : M S A) s a : result m s = Some a -> m s = Done a (after m s).
Proof. unfold result, after. destruct (m s); [by intros [= ->] | done..]. Qed.

(** Three header buffers and an empty journal. *)
Definition w_cache : world := after (apaCacheInit 3 ;;; apaJournalReset 0) w0.

(** A header for sector 0x40000 changed in the cache. *)
Definition change_header (device sector : Z) : M world unit :=
  let* (p, _) := apaCacheGetHeader device sector APA_IO_MODE_WRITE in
  match p with
  | Some i => hmod i (fun h => set_magic APA_MAGIC h) ;;; mark_dirty i
  | None => ret tt
  end.
Definition w_dirty : world := after (change_header 0 0x40000) w_cache.

Lemma disk_ok_empty n f b tr : disk_ok (mkAta ∅ tr n f b).
Proof. intros k s H. simpl in H. by rewrite lookup_empty in H. Qed.

(** A finite drive can be checked by computation. *)
Definition disk_okb (st : ata_st) : bool :=
  forallb (fun ks => (length ks.2 =? 128)%nat) (map_to_list (disk st)).

Lemma disk_okb_ok st : disk_okb st = true -> disk_ok st.
Proof.
  unfold disk_okb. rewrite forallb_forall. intros H k s Hk.
  apply Nat.eqb_eq. apply (H (k, s)). apply list_elem_of_In. by apply elem_of_map_to_list.
Qed.
