(* ===== verification/AtaProps.v ===== *)
(** * AtaProps: what the sector interface of the ATA driver promises *)

From stdpp Require Import base numbers list gmap.
From Stdlib Require Import ZArith Lia.
From S2P Require Import Prelude Ata Scenario.

Open Scope Z_scope.

(** C8: on a drive without faults [ata_device_sector_io] implements the
    abstract transfer, whatever the number of commands it needs (256 sectors
    at most each with 28-bit addresses, 16384 with 48-bit ones): it returns 0;
    a write makes sector [lba + j] hold sector [j] of the buffer and leaves
    every other sector and the buffer as they were; a read makes sector [j] of
    the buffer the contents of [lba + j] and changes nothing else. *)
Theorem sector_io_transfers st device b lba n dir :
  no_faults st -> disk_ok st -> addressable st device lba n ->
  128 * n <= Z.of_nat (length b) ->
  wp (ata_device_sector_io device b lba n dir) st (fun '(res, b') st' =>
    res = 0 /\
    (forall key, ~ in_run device lba n key -> disk st' !! key = disk st !! key) /\
    if dir =? ATA_DIR_WRITE then
      b' = b /\
      (forall j, (j < Z.to_nat n)%nat -> sector_at st' device (lba + Z.of_nat j) = sector_of b j)
    else
      disk st' = disk st /\ drop (128 * Z.to_nat n) b' = drop (128 * Z.to_nat n) b /\
      (forall j, (j < Z.to_nat n)%nat -> sector_of b' j = sector_at st device (lba + Z.of_nat j))).
Proof.
  intros Hf Hd Ha Hb. destruct (sector_io_moves st device b lba n dir Hf Hd Ha Hb) as [k E].
  eapply wp_Done; [exact E|]. unfold move_all, drive_move. assert (Hn : 0 <= n) by apply Ha.
  destruct (dir =? ATA_DIR_WRITE); simpl; (split; [done|]).
  - split; [|split; [done|]].
    + intros key Hk. apply write_sectors_outside. rewrite length_sectors_of.
      by replace (Z.of_nat (Z.to_nat n)) with n by lia.
    + intros j Hj. unfold sector_at. simpl.
      by rewrite (write_sectors_at _ _ _ _ j _ (sectors_of_lookup _ _ _ Hj)).
  - split; [done|]. split; [done|]. pose proof (length_read_sectors st device lba (Z.to_nat n) Hd) as Hl.
    split; [by rewrite drop_app_length' by lia|]. intros j Hj. by apply read_sectors_sector.
Qed.

Lemma sector_io_transfers_witness :
  wp (ata_device_sector_io 0 (zeros 384) 1000 3 ATA_DIR_WRITE) ata0 (fun '(res, b') st' =>
    res = 0 /\
    (forall key, ~ in_run 0 1000 3 key -> disk st' !! key = disk ata0 !! key) /\
    b' = zeros 384 /\
    (forall j, (j < 3)%nat -> sector_at st' 0 (1000 + Z.of_nat j) = sector_of (zeros 384) j)).
Proof.
  apply (sector_io_transfers ata0 0 (zeros 384) 1000 3 ATA_DIR_WRITE).
  - intros n. reflexivity.
  - apply disk_ok_empty.
  - unfold addressable. simpl. lia.
  - reflexivity.
Defined.

(** C9: whatever faults the drive has (commands refused, or stopped after any
    number of sectors, with any result, CRC errors retried),
    [ata_device_sector_io] ends, returns a buffer of the caller's size, and
    has changed no sector outside [lba, lba+n) of its device. *)
Theorem sector_io_confined st device b lba n dir :
  disk_ok st -> addressable st device lba n -> 128 * n <= Z.of_nat (length b) ->
  wp (ata_device_sector_io device b lba n dir) st (fun '(_, b') st' =>
    length b' = length b /\ disk_ok st' /\
    forall key, ~ in_run device lba n key -> disk st' !! key = disk st !! key).
Proof.
  intros Hd Ha Hb. eapply wp_mono; [by apply sector_io_total|].
  intros [r b'] st' (H1 & H2 & H3). split; [done|]. split; [done|].
  intros key Hk. by eapply io_only_outside.
Qed.

(** Every command is stopped by a CRC error after one sector. *)
Definition ata_crc : ata_st := mkAta ∅ [] 0 (fun _ => Some (FFinish 1 ATA_RES_ERR_ICRC)) (fun _ => false).

Lemma sector_io_confined_witness :
  wp (ata_device_sector_io 1 (zeros 384) 1000 3 ATA_DIR_WRITE) ata_crc (fun '(_, b') st' =>
    length b' = 384%nat /\ disk_ok st' /\
    forall key, ~ in_run 1 1000 3 key -> disk st' !! key = disk ata_crc !! key).
Proof.
  apply (sector_io_confined ata_crc 1 (zeros 384) 1000 3 ATA_DIR_WRITE).
  - apply disk_ok_empty.
  - unfold addressable. simpl. lia.
  - reflexivity.
Defined.
