(* ===== verification/ApaProps.v ===== *)
(** * ApaProps: the properties of the header cache and the journal

    Stated over the definitions of ApaCache, proved from the libraries
    ApaInv, ApaFlush and ApaCrash. *)

From stdpp Require Import base numbers list gmap.
From Stdlib Require Import ZArith Lia.
From S2P Require Import Prelude Ata ApaState ApaCache ApaFacts ApaRing ApaInv ApaFlush.
From S2P Require Import Crash ApaCrash Scenario.

Open Scope Z_scope.
Open Scope c_scope.

(** What the flush of a device relies on: a working drive, an idle journal in
    memory and on the media, at most 126 dirty headers (the entries of
    [apa_journal_t]), all of them outside the journal area. *)
Definition flush_ready (device : Z) (w : world) : Prop :=
  let R := records device (cache_indices w) (cacheBuf w) in
  drive_ok (ata w) /\ 0 <= device /\
  flushable (ata w) device (cache_indices w) (cacheBuf w) /\
  journalBuf w = empty_journal /\ idle device (disk (ata w)) /\
  (length R <= 126)%nat /\ Forall (fun r => clear_of_journal r.1) R.

(** The premises hold in a state the code reaches: one header changed in a
    fresh cache. *)
Definition flushableb (st : ata_st) (device : Z) (idx : list nat) (cs : list apa_cache_t) : bool :=
  forallb (fun i => match cs !! i with
                    | Some c => implb (dirty_on device c)
                        ((length (c_header c) =? 256)%nat &&
                         ((0 <=? c_sector c) && (c_sector c + 2 <=? 2 ^ 28)))
                    | None => false
                    end) idx.

Lemma flushableb_ok st device idx cs :
  0 <= device -> flushableb st device idx cs = true -> flushable st device idx cs.
Proof.
  intros Hdev H i Hi. unfold flushableb in H. rewrite forallb_forall in H.
  specialize (H i (proj1 (list_elem_of_In _ _) Hi)). destruct (cs !! i) as [c|]; [|done].
  exists c. split; [done|]. intros Hd. rewrite Hd in H. cbn [implb] in H.
  apply andb_prop in H as [H1 H2]. apply andb_prop in H2 as [H2 H3].
  apply Nat.eqb_eq in H1. apply Z.leb_le in H2, H3. split; [exact H1|].
  apply addressable_low; lia.
Qed.

Lemma w_dirty_ready : flush_ready 0 w_dirty.
Proof.
  split; [split; [intros n; reflexivity | apply disk_okb_ok; vm_compute; reflexivity]|].
  split; [lia|]. split; [apply flushableb_ok; [lia | vm_compute; reflexivity]|].
  split; [vm_compute; reflexivity|]. split; [right; vm_compute; reflexivity|].
  split; [vm_compute; lia|]. vm_compute. constructor; [right; intros H; discriminate H | constructor].
Qed.

(** C1: a flush of the dirty headers is atomic.  Power may be lost at any
    point of [apaCacheFlushAllDirty], with any of the writes since the last
    completed flush on the media or not, and again in any number of later
    runs of [apaJournalRestore]; once a restore completes, either no header
    has changed or all of them hold what the flush was writing. *)
Theorem flush_crash_atomic device w :
  flush_ready device w ->
  exists w1 evs,
    apaCacheFlushAllDirty device w = Done 0 w1 /\ logs (ata w) (ata w1) evs /\
    forall d1 d2 w2,
      crash_image (disk (ata w)) evs d1 -> reboots device (lba48 (ata w)) d1 d2 ->
      boot_world (lba48 (ata w)) d2 w2 ->
      exists w3, apaJournalRestore device w2 = Done 0 w3 /\
        (agree device (disk (ata w3)) (disk (ata w)) \/
         agree device (disk (ata w3)) (disk (ata w1))).
Proof.
  intros (Hd & Hdev & Hfl & Hj & Hi & Hl & Hc).
  destruct (apaCacheFlushAllDirty_ok w device Hd Hdev Hfl Hj Hl) as (st & E & L).
  pose proof (records_placeable _ _ _ _ Hfl Hc) as Hp.
  eexists _, _. split; [exact E|]. split; [exact L|]. intros d1 d2 w2 C RB B.
  set (R := records _ _ _) in *.
  assert (H2 : recoverable device (disk (ata w)) R d2).
  { eapply (reboots_recoverable device (lba48 (ata w))); eauto.
    eapply recoverable_intro; [exact Hl|]. by apply flush_crash_cases. }
  destruct (restore_run device (lba48 (ata w)) (disk (ata w)) R Hdev Hl Hp d2 w2 H2 B)
    as (w3 & evs & E3 & _ & Hres & _).
  exists w3. split; [exact E3|]. destruct Hres as [[_ H] | [_ H]]; [by left | right].
  etransitivity; [exact H|]. symmetry. simpl. destruct L as (_ & -> & _).
  by apply flush_image.
Qed.

Lemma flush_crash_atomic_witness :
  exists w1 evs, apaCacheFlushAllDirty 0 w_dirty = Done 0 w1 /\ logs (ata w_dirty) (ata w1) evs /\
    forall d1 d2 w2,
      crash_image (disk (ata w_dirty)) evs d1 -> reboots 0 (lba48 (ata w_dirty)) d1 d2 ->
      boot_world (lba48 (ata w_dirty)) d2 w2 ->
      exists w3, apaJournalRestore 0 w2 = Done 0 w3 /\
        (agree 0 (disk (ata w3)) (disk (ata w_dirty)) \/ agree 0 (disk (ata w3)) (disk (ata w1))).
Proof. apply (flush_crash_atomic 0 w_dirty), w_dirty_ready. Defined.

(** C2: when [apaCacheFlushAllDirty] returns, its work is on the media: every
    sector of the drive has one possible value after a crash; outside the
    journal area the drive holds the old contents with each dirty header in
    place, its checksum recomputed; the journal is idle again; and no buffer
    of the device is dirty. *)
Theorem flush_durable device w :
  flush_ready device w ->
  exists w1 evs,
    apaCacheFlushAllDirty device w = Done 0 w1 /\ logs (ata w) (ata w1) evs /\
    (forall k, k.1 = device -> possible (disk (ata w)) evs k = [disk (ata w1) !! k]) /\
    agree device (disk (ata w1))
      (new_image device (disk (ata w)) (records device (cache_indices w) (cacheBuf w))) /\
    idle device (disk (ata w1)) /\
    (forall i c, i ∈ cache_indices w -> cacheBuf w1 !! i = Some c -> dirty_on device c = false).
Proof.
  intros (Hd & Hdev & Hfl & Hj & Hi & Hl & Hc).
  destruct (apaCacheFlushAllDirty_ok w device Hd Hdev Hfl Hj Hl) as (st & E & L).
  set (R := records _ _ _) in *. destruct (flush_image device (disk (ata w)) R Hl Hc) as [Hn1 Hn2].
  eexists _, _. split; [exact E|]. split; [exact L|]. simpl. destruct L as (_ & -> & _).
  repeat split; [|exact Hn2 | exact Hn1|].
  - intros k Hk. unfold flush_events. rewrite !app_assoc.
    change (commit_events device empty_journal)
      with ([EvFlush device; EvWrite device APA_SECTOR_APAL empty_journal] ++ EvFlush device :: []).
    rewrite app_assoc, possible_flush by exact Hk. simpl. by rewrite (replay_app _ _ [EvFlush device]).
  - intros i c Hin Hci. unfold flushed in Hci. pose proof (NoDup_seq 1 (Z.to_nat (cacheSize w))) as Hnd.
    rewrite !all_dirty_lookup in Hci by assumption.
    destruct (cacheBuf w !! i) as [c0|]; [|done]. simpl in Hci. injection Hci as <-.
    destruct (dirty_on device c0) eqn:E0; [|by rewrite E0].
    rewrite dirty_on_seal, E0. by apply clean_not_dirty.
Qed.

Lemma flush_durable_witness :
  exists w1 evs, apaCacheFlushAllDirty 0 w_dirty = Done 0 w1 /\ length evs = 10%nat /\
    possible (disk (ata w_dirty)) evs (0, 0x40000) = [disk (ata w1) !! (0, 0x40000)].
Proof.
  destruct (flush_durable 0 w_dirty w_dirty_ready) as (w1 & evs & E & L & H & _).
  exists w1, evs. split; [exact E|]. split; [|by apply H].
  destruct L as (L & _). apply (f_equal length) in L. rewrite length_app in L.
  assert (Hw : length (trace (ata w1)) = (length (trace (ata w_dirty)) + 10)%nat).
  { pose proof (f_equal (fun o => match o with Done _ w => length (trace (ata w)) | _ => 0%nat end) E) as Ew.
    cbv beta iota in Ew. rewrite <- Ew. vm_compute. reflexivity. }
  lia.
Defined.

(** C3: [apaCacheGetHeader] keeps the cache invariant whatever the drive does:
    it returns a buffer that is in use, mapped to the sector asked for and out
    of the free ring, with result 0; or -ENOMEM with nothing changed, only
    when no buffer is free; or -EIO with the free ring as it was. *)
Theorem getHeader_spec w l device sector mode :
  cache_inv w l -> disk_ok (ata w) -> 0 <= device < 2 ^ 31 ->
  addressable (ata w) device sector 2 ->
  (forall i c, cacheBuf w !! i = Some c -> c_nused c < 65535) ->
  wp (apaCacheGetHeader device sector mode) w (fun '(p, res) w' =>
    disk_ok (ata w') /\ got_header w l device sector p res w').
Proof.
  intros I Hd Hdev Ha Hu.
  destruct (cache_find device sector (cache_indices w) (cacheBuf w)) as [i|] eqn:Hf.
  - destruct (cache_find_Some _ _ _ _ _ Hf) as [Hin (c & Hc & Hs & Hv)].
    pose proof (indices_nonzero _ _ Hin) as Hi0.
    destruct (getHeader_hit w l device sector mode i c I Hf Hc (Hu i c Hc)) as (cs' & E & I' & S').
    eapply wp_Done; [exact E|]. split; [exact Hd|]. split; [done|]. split; [exact I'|].
    destruct (lookup_lt_is_Some_2 cs' i) as [c1 Hc1].
    { rewrite (same_data_length _ _ S'), length_insert. eapply lookup_lt_Some, Hc. }
    exists c1. split; [exact Hc1|].
    destruct (same_data_lookup _ _ _ _ S' Hc1) as (c2 & Hc2 & _ & Eu & Ed & Es & _).
    rewrite list_lookup_insert_eq in Hc2 by (eapply lookup_lt_Some, Hc). simplify_eq.
    pose proof (bi_count _ _ (proj2 (proj2 I)) i c Hi0 Hc). pose proof (Hu i c Hc).
    simpl in *. rewrite Eu, u16_small by lia. repeat split; [congruence | congruence | lia].
  - destruct l as [|i l].
    + eapply wp_Done; [by apply getHeader_full|]. split; [exact Hd | left; auto].
    + destruct (ring_members _ _ i (proj1 (proj2 I))) as [_ [c Hc]]; [apply list_elem_of_here|].
      by eapply getHeader_miss_any.
Qed.

Lemma w_init_inv : exists w, apaCacheInit 3 w0 = Done 0 w /\ cache_inv w [1; 2; 3]%nat /\ ata w = ata0 /\
  forall i c, cacheBuf w !! i = Some c -> c_nused c < 65535.
Proof.
  destruct (wp_inv _ _ _ (apaCacheInit_ok w0 3 (fun _ => []) (fun _ => []) ltac:(lia) eq_refl eq_refl))
    as (r & w & E & -> & I & _ & A).
  exists w. split; [exact E|]. split; [exact I|]. split; [exact A|]. intros i c Hc.
  assert (F : forall w', apaCacheInit 3 w0 = Done 0 w' ->
            Forall (fun c => c_nused c < 65535) (cacheBuf w')).
  { vm_compute. intros w' [= <-]. repeat constructor. }
  exact (proj1 (Forall_lookup _ _) (F w E) i c Hc).
Qed.

Lemma getHeader_spec_witness : exists w, cache_inv w [1; 2; 3]%nat /\
  wp (apaCacheGetHeader 0 0x40000 APA_IO_MODE_READ) w (fun '(p, res) w' =>
    disk_ok (ata w') /\ got_header w [1; 2; 3]%nat 0 0x40000 p res w').
Proof.
  destruct w_init_inv as (w & _ & I & A & U). exists w. split; [exact I|].
  apply (getHeader_spec w [1; 2; 3]%nat 0 0x40000 APA_IO_MODE_READ I); [| lia | | exact U].
  - rewrite A. apply disk_ok_empty.
  - apply addressable_low; lia.
Defined.

(** [apaCacheInit] gives a cache of exactly [size] buffers: it returns 0
    with the invariant established and nothing done to the drive; [size]
    allocations in a row then give the buffers 1..[size], each once, and the
    next one gives NULL. *)
Theorem cacheInit_capacity w size mem rest :
  0 <= size -> heap w (nalloc w) = Some mem -> heap w (S (nalloc w)) = Some rest ->
  wp (apaCacheInit size) w (fun r w1 =>
    r = 0 /\ cache_inv w1 (seq 1 (Z.to_nat size)) /\ cacheSize w1 = size /\ ata w1 = ata w /\
    wp (alloc_many (Z.to_nat size)) w1 (fun ps w2 =>
      ps = map Some (seq 1 (Z.to_nat size)) /\ apaCacheAlloc w2 = Done None w2)).
Proof.
  intros H0 H1 H2. eapply wp_mono; [by eapply apaCacheInit_ok|].
  intros r w1 (Hr & I & Hs & Ha). do 4 (split; [assumption|]).
  destruct (alloc_many_ok _ w1 I) as (w2 & E & I2). rewrite length_seq in E.
  eapply wp_Done; [exact E|]. split; [done | by apply apaCacheAlloc_empty].
Qed.

Lemma cacheInit_capacity_witness :
  wp (apaCacheInit 3) w0 (fun r w1 =>
    r = 0 /\ cache_inv w1 [1; 2; 3]%nat /\ cacheSize w1 = 3 /\ ata w1 = ata0 /\
    wp (alloc_many 3) w1 (fun ps w2 =>
      ps = [Some 1; Some 2; Some 3]%nat /\ apaCacheAlloc w2 = Done None w2)).
Proof. apply (cacheInit_capacity w0 3 (fun _ => []) (fun _ => [])); [lia | reflexivity | reflexivity]. Defined.

(** C5: a buffer taken from the cache and released goes to the end of the free
    ring, so that the ring is in least-recently-released order: allocation
    takes its first buffer, and the invariant holds after both. *)
Theorem alloc_free_lru w i l :
  cache_inv w (i :: l) ->
  exists w1 w2, apaCacheAlloc w = Done (Some i) w1 /\ cache_inv w1 l /\
    apaCacheFree (Some i) w1 = Done tt w2 /\ cache_inv w2 (l ++ [i]).
Proof.
  intros I. destruct (apaCacheAlloc_ok w i l I) as (cs & c & E & I1 & Hc & Hu & _).
  destruct (ring_members _ _ i (proj1 (proj2 I))) as [Hi _]; [apply list_elem_of_here|].
  destruct (apaCacheFree_last _ l i c I1 Hi Hc Hu) as (cs2 & E2 & I2 & _). eauto 10.
Qed.

Lemma alloc_free_lru_witness : exists w w1 w2,
  apaCacheAlloc w = Done (Some 1%nat) w1 /\ cache_inv w1 [2; 3]%nat /\
  apaCacheFree (Some 1%nat) w1 = Done tt w2 /\ cache_inv w2 [2; 3; 1]%nat.
Proof.
  destruct w_init_inv as (w & _ & I & _). exists w. apply (alloc_free_lru w 1 [2; 3]%nat I).
Defined.

(** A header whose checksum [apaCheckSum] computed is accepted when it is
    read back, unchanged, into any buffer. *)
Theorem header_roundtrip w device lba i j c cj h :
  drive_ok (ata w) -> addressable (ata w) device lba 2 -> lba <> APA_SECTOR_MBR ->
  cacheBuf w !! i = Some c -> c_header c = sealed h -> length h = 256%nat -> h_magic h = APA_MAGIC ->
  cacheBuf w !! j = Some cj -> hdr_len cj ->
  wp (apaWriteHeader device i lba ;;; apaReadHeader device j lba) w (fun r w' =>
    r = 0 /\ exists c', cacheBuf w' !! j = Some c' /\ c_header c' = sealed h).
Proof.
  intros Hd Ha Hlba Hi Hh Hl Hm Hj Hlj.
  assert (Hli : hdr_len c) by (unfold hdr_len; by rewrite Hh, length_sealed).
  destruct (cache_io_write w device i c lba Hd Ha Hi Hli) as (st & E & L).
  assert (Hd1 : drive_ok st) by (eapply logs_drive_ok; [exact L | exact Hd | by apply hdr_events_ok]).
  apply wp_bind. eapply wp_Done; [unfold apaWriteHeader; erewrite bind_Done by exact E; reflexivity|].
  unfold apaReadHeader. apply wp_bind.
  eapply wp_Done; [eapply (cache_io_read (with_ata st w) device j cj lba Hd1); auto|].
  { eapply logs_addressable; [exact L | exact Ha]. }
  assert (Er : read_sectors st device lba 2 = sealed h).
  { destruct L as (_ & Hdk & _). apply read_hdr; [by rewrite length_sealed|..];
      rewrite Hdk, replay_lookup, Hh; [by rewrite last_write_hdr_0 | by rewrite last_write_hdr_1]. }
  simpl ata. rewrite Er. apply wp_bind. set (w2 := with_cache _ _).
  assert (Hc2 : cacheBuf w2 !! j = Some (upd_header (sealed h) cj))
    by (simpl; apply list_lookup_insert_eq; eapply lookup_lt_Some, Hj).
  eapply wp_Done; [apply header_Done, Hc2|]. cbn [upd_header c_header]. change (nz 0) with false. cbv iota.
  replace (h_magic (sealed h)) with (h_magic h)
    by (unfold h_magic, sealed, set_checksum; by rewrite get32_set32_ne by lia).
  rewrite Hm, Z.eqb_refl, checksum_sealed, Z.eqb_refl by lia. cbn [negb].
  rewrite (proj2 (Z.eqb_neq _ _)) by exact Hlba. apply wp_ret. split; [done|]. eauto.
Qed.

Definition w_two : world :=
  after (change_header 0 0x40000 ;;; hmod 1 sealed ;;; change_header 0 0x80000) w_cache.

Lemma header_roundtrip_witness :
  wp (apaWriteHeader 0 1 0x40000 ;;; apaReadHeader 0 2 0x40000) w_two (fun r w' =>
    r = 0 /\ exists c', cacheBuf w' !! 2%nat = Some c' /\
      c_header c' = sealed (set_magic APA_MAGIC (zeros 256))).
Proof.
  eapply (header_roundtrip w_two 0 0x40000 1 2 _ _ (set_magic APA_MAGIC (zeros 256)));
    [ | | | vm_compute; reflexivity | | | | vm_compute; reflexivity | ].
  - split; [intros n; reflexivity | apply disk_okb_ok; vm_compute; reflexivity].
  - apply addressable_low; lia.
  - discriminate.
  - vm_compute. reflexivity.
  - reflexivity.
  - reflexivity.
  - reflexivity.
Defined.

(** Corruption of a stored header is detected: if a header read from the
    drive differs in exactly one word after the checksum from one whose
    checksum was right, [apaReadHeader] refuses it with -EIO. *)
Theorem corrupt_header_rejected w device lba j cj h h' x :
  drive_ok (ata w) -> addressable (ata w) device lba 2 ->
  cacheBuf w !! j = Some cj -> hdr_len cj ->
  read_sectors (ata w) device lba 2 = h' ->
  words_ok h -> words_ok h' -> apaCheckSum h = h_checksum h ->
  (1 <= x < 256)%nat -> (forall i, i <> x -> get32 h i = get32 h' i) -> get32 h x <> get32 h' x ->
  wp (apaReadHeader device j lba) w (fun r _ => r = - EIO).
Proof.
  intros Hd Ha Hj Hlj Hr Hw Hw' Hs Hx He Hne.
  pose proof (checksum_one_word h h' x Hw Hw' Hx He Hne) as Hsum.
  assert (Hs' : h_checksum h' = h_checksum h) by (unfold h_checksum; symmetry; apply He; lia).
  unfold apaReadHeader. apply wp_bind.
  eapply wp_Done; [eapply (cache_io_read w device j cj lba Hd); auto|]. rewrite Hr.
  apply wp_bind. eapply wp_Done; [apply header_Done; simpl; apply list_lookup_insert_eq;
    eapply lookup_lt_Some, Hj|].
  cbn [upd_header c_header]. change (nz 0) with false. cbv iota.
  destruct (negb (h_magic h' =? APA_MAGIC)); [by apply wp_ret|].
  rewrite (proj2 (Z.eqb_neq _ _)) by congruence. by apply wp_ret.
Qed.

(** The zero header has checksum 0; the drive holds it with word 5 set. *)
Definition w_corrupt : world :=
  with_ata (write_sector 0 0x40000 (set32 5 1 (zeros 128)) (ata w_cache)) w_cache.

Lemma corrupt_header_rejected_witness :
  wp (apaReadHeader 0 1 0x40000) w_corrupt (fun r _ => r = - EIO).
Proof.
  eapply (corrupt_header_rejected w_corrupt 0 0x40000 1 _ (zeros 256) (set32 5 1 (zeros 256)) 5);
    [ | | vm_compute; reflexivity | | | | | | | | ].
  - split; [intros n; reflexivity | apply disk_okb_ok; vm_compute; reflexivity].
  - apply addressable_low; lia.
  - reflexivity.
  - vm_compute. reflexivity.
  - apply words_ok_zeros.
  - apply words_ok_set32, words_ok_zeros.
  - vm_compute. reflexivity.
  - lia.
  - intros i Hi. by rewrite get32_set32_ne by lia.
  - vm_compute. discriminate.
Defined.
