(* ===== verification/ApaPart.v ===== *)
(** * ApaPart: the partition table operations of libapa

    iop/hdd/libapa/src/apa.c (error sectors, filling, inserting, finding and
    deleting partitions, walking the header chain) and free.c (the free-space
    estimate).  The partitions of a device form a doubly linked ring of headers
    on disk, starting with the master boot record at sector 0; a free block is
    split in halves when a partition is put in it, and merged with its
    neighbours when a partition is deleted.  Walks over the ring take a [fuel],
    because a damaged ring can be endless. *)

From stdpp Require Import base numbers list gmap.
From Stdlib Require Import ZArith Lia.
From S2P Require Import Prelude Ata ApaState ApaCache.

Open Scope Z_scope.
Open Scope c_scope.

(** Using a pointer that may be NULL. *)
Definition deref (p : cptr) : M world nat :=
  match p with
  | Some i => ret i
  | None => undef
  end.

(** ** Error sectors *)

Definition apaSetPartErrorSector (device lba : Z) : M world unit :=
  clink <- apaCacheAlloc ;;
  p <- deref clink ;;
  apaSaveError device p APA_SECTOR_PART_ERROR lba ;;;
  apaCacheFree clink.

(** Result: the return value and [*lba_out]. *)
Definition apaGetPartErrorSector (device lba : Z) : M world (Z * option Z) :=
  clink <- apaCacheAlloc ;;
  match clink with
  | None => ret (- ENOMEM, None)
  | Some p =>
      r <- cache_io device p lba 1 ATA_DIR_READ ;;
      if nz r then ret (- EIO, None)
      else
        h <- header p ;;
        let lba_out := get32 h 0 in
        apaCacheFree clink ;;;
        ret (if nz lba_out then 1 else 0, Some lba_out)
  end.

(** ** Walking the ring *)

Definition apaGetNextHeader (clink : nat) (err : Z) : M world (cptr * Z) :=
  h <- header clink ;;
  let start := h_start h in
  apaCacheFree (Some clink) ;;;
  c <- cget clink ;;
  if h_next (c_header c) =? 0 then ret (None, err)
  else
    let* (clink', err') := apaCacheGetHeader (c_device c) (h_next (c_header c)) APA_IO_MODE_READ in
    match clink' with
    | None => ret (None, err')
    | Some p =>
        c' <- cget p ;;
        when (negb (start =? h_prev (c_header c')))
          (hmod p (set_prev start) ;;;
           mark_dirty p ;;;
           apaCacheFlushAllDirty (c_device c') ;;;
           ret tt) ;;;
        ret (Some p, err')
    end.

(** Result: the return value, and the name copied out if any. *)
Definition apaGetPartErrorName (fuel : nat) (device : Z) : M world (Z * option (list Z)) :=
  let* (rv, lba) := apaGetPartErrorSector device APA_SECTOR_PART_ERROR in
  if rv <=? 0 then ret (rv, None)
  else
    let lba := default 0 lba in
    let* (clink, rv) := apaCacheGetHeader device 0 APA_IO_MODE_READ in
    match clink with
    | None => ret (rv, None)
    | Some _ =>
        while_ fuel (fun '(clink, rv) =>
          match clink with
          | None =>
              when (rv =? 0) (apaSetPartErrorSector device 0) ;;;
              ret (inr (rv, None))
          | Some p =>
              h <- header p ;;
              if negb (h_type h =? APA_TYPE_FREE)
                 && negb (nz (Z.land (h_flags h) APA_CACHE_FLAG_DIRTY))
                 && (h_start h =? lba)
              then
                apaCacheFree (Some p) ;;;
                ret (inr (1, Some (pad APA_IDMAX (take 31 (cstr (h_id h))))))
              else
                next <- apaGetNextHeader p rv ;;
                ret (inl next)
          end) (clink, rv)
    end.

(** ** Filling headers *)

Definition blank_header : buf := zeros 256.

Definition apaFillHeader (device : Z) (params : apa_params_t) (start next prev length : Z)
  : M world (cptr * Z) :=
  let* (clink, err) := apaCacheGetHeader device start APA_IO_MODE_WRITE in
  match clink with
  | None => ret (None, err)
  | Some p =>
      hmod p (fun _ => blank_header) ;;;
      hmod p (set_magic APA_MAGIC) ;;;
      hmod p (set_start start) ;;;
      hmod p (set_next next) ;;;
      hmod p (set_prev prev) ;;;
      hmod p (set_length length) ;;;
      hmod p (set_type (p_type params)) ;;;
      hmod p (set_hflags (p_flags params)) ;;;
      hmod p (set_modver APA_MODVER) ;;;
      hmod p (set_id (p_id params)) ;;;
      (if nz (Z.land (p_flags params) APA_FLAG_SUB) then
         hmod p (set_main (p_main params)) ;;;
         hmod p (set_number (p_number params))
       else
         h <- header p ;;
         when (negb (strneq (h_id h) str_tmp APA_IDMAX))
           (hmod p (set_rpwd (p_rpwd params)) ;;;
            hmod p (set_fpwd (p_fpwd params)))) ;;;
      t <- apaGetTime ;;
      hmod p (set_created t) ;;;
      mark_dirty p ;;;
      ret (Some p, err)
  end.

Definition apaRemovePartition (device start next prev length : Z) : M world cptr :=
  let* (clink, err) := apaCacheGetHeader device start APA_IO_MODE_WRITE in
  match clink with
  | None => ret None
  | Some p =>
      hmod p (fun _ => blank_header) ;;;
      hmod p (set_magic APA_MAGIC) ;;;
      hmod p (set_start start) ;;;
      hmod p (set_next next) ;;;
      hmod p (set_prev prev) ;;;
      hmod p (set_length length) ;;;
      hmod p (strcpy_id str_empty) ;;;
      t <- apaGetTime ;;
      hmod p (set_created t) ;;;
      mark_dirty p ;;;
      ret (Some p)
  end.

Definition apaMakeEmpty (clink : nat) : M world unit :=
  h <- header clink ;;
  let saved_start := h_start h in
  let saved_next := h_next h in
  let saved_prev := h_prev h in
  let saved_length := h_length h in
  hmod clink (fun _ => blank_header) ;;;
  hmod clink (set_magic APA_MAGIC) ;;;
  hmod clink (set_start saved_start) ;;;
  hmod clink (set_next saved_next) ;;;
  hmod clink (set_prev saved_prev) ;;;
  hmod clink (set_length saved_length) ;;;
  t <- apaGetTime ;;
  hmod clink (set_created t) ;;;
  hmod clink (strcpy_id str_empty) ;;;
  mark_dirty clink.

(** ** Inserting *)

(** One halving of the free block held by [this]. *)
Definition apaSplitStep (device : Z) (params : apa_params_t) (this : nat) (err : Z)
  : M world ((Z) + (bool * Z)) :=
  h <- header this ;;
  if h_length h =? p_size params then ret (inr (true, err))
  else
    let* (clink_next, err') := apaCacheGetHeader device (h_next h) APA_IO_MODE_READ in
    match clink_next with
    | None => apaCacheFree (Some this) ;;; ret (inr (false, err'))
    | Some next =>
        hmod this (fun h => set_length (Z.shiftr (h_length h) 1) h) ;;;
        h <- header this ;;
        clink_empty <- apaRemovePartition device (u32 (h_start h + h_length h))
                         (h_next h) (h_start h) (h_length h) ;;
        empty <- deref clink_empty ;;
        he <- header empty ;;
        hmod this (set_next (h_start he)) ;;;
        mark_dirty this ;;;
        hmod next (set_prev (h_start he)) ;;;
        mark_dirty next ;;;
        apaCacheFlushAllDirty device ;;;
        apaCacheFree (Some empty) ;;;
        apaCacheFree (Some next) ;;;
        ret (inl err')
    end.

Definition apaInsertPartition (fuel : nat) (device : Z) (params : apa_params_t) (sector : Z)
  : M world (cptr * Z) :=
  let* (clink_this, err) := apaCacheGetHeader device sector APA_IO_MODE_READ in
  match clink_this with
  | None => ret (None, err)
  | Some this =>
      let* (ok, err) := while_ fuel (fun err => apaSplitStep device params this err) err in
      if negb ok then ret (None, err)
      else
        apaCacheFree (Some this) ;;;
        h <- header this ;;
        r <- apaFillHeader device params (h_start h) (h_next h) (h_prev h) (p_size params) ;;
        apaCacheFlushAllDirty device ;;;
        ret r
  end.

(** ** Finding *)

Definition apaFindPartition (fuel : nat) (device : Z) (id : list Z) : M world (cptr * Z) :=
  r <- apaCacheGetHeader device 0 APA_IO_MODE_READ ;;
  while_ fuel (fun '(clink, err) =>
    match clink with
    | Some p =>
        h <- header p ;;
        if negb (nz (Z.land (h_flags h) APA_FLAG_SUB)) && memeq (h_id h) id APA_IDMAX
        then ret (inr (Some p, err))
        else next <- apaGetNextHeader p err ;; ret (inl next)
    | None =>
        if err =? 0 then ret (inr (None, - ENOENT)) else ret (inr (None, 0))
    end) r.

(** [emptyBlocks] has 32 entries, one per power of two. *)
Fixpoint addEmptyBlock (h : buf) (idx : list nat) (emptyBlocks : list Z) : list Z :=
  match idx with
  | [] => emptyBlocks
  | i :: idx' =>
      if (h_length h =? 2 ^ Z.of_nat i) && (nth i emptyBlocks 0 =? APA_TYPE_FREE)
      then <[i := h_start h]> emptyBlocks
      else addEmptyBlock h idx' emptyBlocks
  end.

Definition apaAddEmptyBlock (h : buf) (emptyBlocks : list Z) : list Z :=
  if h_type h =? APA_TYPE_FREE then addEmptyBlock h (seq 0 32) emptyBlocks else emptyBlocks.

(** ** Deleting *)

(** [start % tmp || (tmp & (tmp-1))]: the merged block would not be a buddy
    block; the remainder by 0 is undefined. *)
Definition not_buddy (start tmp : Z) : M world bool :=
  if tmp =? 0 then undef
  else ret (nz (start mod tmp) || nz (Z.land tmp (tmp - 1))).

Definition apaDeleteFixPrev (fuel : nat) (clink : nat) (err : Z) : M world (cptr * Z) :=
  c <- cget clink ;;
  let device := c_device c in
  let saved_next := h_next (c_header c) in
  let saved_length := h_length (c_header c) in
  r <- while_ fuel (fun '(clink, length, err) =>
         h <- header clink ;;
         if h_start h =? 0 then ret (inr (Some clink, length, err))
         else
           let* (clink2, err') := apaCacheGetHeader device (h_prev h) APA_IO_MODE_READ in
           match clink2 with
           | None => apaCacheFree (Some clink) ;;; ret (inr (None, length, err'))
           | Some p2 =>
               h2 <- header p2 ;;
               let tmp := u32 (h_length h2 + length) in
               if negb (h_type h2 =? 0) then
                 apaCacheFree (Some p2) ;;; ret (inr (Some clink, length, err'))
               else
                 stop <- not_buddy (h_start h2) tmp ;;
                 if stop : bool then
                   apaCacheFree (Some p2) ;;; ret (inr (Some clink, length, err'))
                 else
                   apaCacheFree (Some clink) ;;;
                   ret (inl (p2, tmp, err'))
           end) (clink, saved_length, err) ;;
  let '(clink, length, err) := r in
  match clink with
  | None => ret (None, err)
  | Some p =>
      if negb (length =? saved_length) then
        let* (clink2, err) := apaCacheGetHeader device saved_next APA_IO_MODE_READ in
        match clink2 with
        | None => apaCacheFree (Some p) ;;; ret (None, err)
        | Some p2 =>
            hmod p (set_length length) ;;;
            h <- header p ;;
            hmod p (set_next (h_start h + length)) ;;;
            h <- header p ;;
            hmod p2 (set_prev (h_start h)) ;;;
            mark_dirty p2 ;;;
            mark_dirty p ;;;
            apaCacheFlushAllDirty device ;;;
            apaCacheFree (Some p2) ;;;
            ret (Some p, err)
        end
      else ret (Some p, err)
  end.

Definition apaDeleteFixNext (fuel : nat) (clink : nat) (err : Z) : M world (cptr * Z) :=
  c <- cget clink ;;
  let device := c_device c in
  let saved_length := h_length (c_header c) in
  r <- while_ fuel (fun '(length, lnext, err) =>
         if lnext =? 0 then ret (inr (true, length, lnext, err))
         else
           let* (clink1, err') := apaCacheGetHeader device lnext APA_IO_MODE_READ in
           match clink1 with
           | None => apaCacheFree (Some clink) ;;; ret (inr (false, length, lnext, err'))
           | Some p1 =>
               h1 <- header p1 ;;
               let tmp := u32 (h_length h1 + length) in
               if negb (h_type h1 =? 0) then
                 apaCacheFree (Some p1) ;;; ret (inr (true, length, lnext, err'))
               else
                 h <- header clink ;;
                 stop <- not_buddy (h_start h) tmp ;;
                 if stop : bool then
                   apaCacheFree (Some p1) ;;; ret (inr (true, length, lnext, err'))
                 else
                   apaCacheFree (Some p1) ;;;
                   h1 <- header p1 ;;
                   ret (inl (tmp, h_next h1, err'))
           end) (saved_length, h_next (c_header c), err) ;;
  let '(ok, length, lnext, err) := r in
  if negb ok then ret (None, err)
  else if negb (length =? saved_length) then
    let* (clink2, err) := apaCacheGetHeader device lnext APA_IO_MODE_READ in
    match clink2 with
    | None => apaCacheFree (Some clink) ;;; ret (None, err)
    | Some p2 =>
        hmod clink (set_length length) ;;;
        hmod clink (set_next lnext) ;;;
        apaMakeEmpty clink ;;;
        h <- header clink ;;
        hmod p2 (set_prev (h_start h)) ;;;
        mark_dirty p2 ;;;
        apaCacheFlushAllDirty device ;;;
        apaCacheFree (Some p2) ;;;
        ret (Some clink, err)
    end
  else ret (Some clink, err).

(** Deleting the last partition: the chain is cut back to the last partition
    that is not free. *)
Definition apaDeleteLast (fuel : nat) (clink mbr : nat) (device : Z) : M world (cptr * Z) :=
  while_ fuel (fun clink =>
    apaCacheFree (Some clink) ;;;
    c <- cget clink ;;
    let* (clink', rv) := apaCacheGetHeader (c_device c) (h_prev (c_header c)) APA_IO_MODE_READ in
    match clink' with
    | None => ret (inr (None, rv))
    | Some p =>
        hmod p (set_next 0) ;;;
        mark_dirty p ;;;
        h <- header p ;;
        hmod mbr (set_prev (h_start h)) ;;;
        mark_dirty mbr ;;;
        apaCacheFlushAllDirty device ;;;
        h <- header p ;;
        if h_type h =? 0 then ret (inl p) else ret (inr (Some p, rv))
    end) clink.

(** Two rounds of merging with the previous and the next blocks. *)
Fixpoint apaDeleteMerge (fuel rounds : nat) (clink : nat) (rv : Z) : M world (cptr * Z) :=
  match rounds with
  | O => ret (Some clink, rv)
  | S n =>
      let* (clink, rv) := apaDeleteFixPrev fuel clink rv in
      match clink with
      | None => ret (None, rv)
      | Some p =>
          let* (clink, rv) := apaDeleteFixNext fuel p rv in
          match clink with
          | None => ret (None, rv)
          | Some p => apaDeleteMerge fuel n p rv
          end
      end
  end.

Definition apaDelete (fuel : nat) (clink : nat) : M world Z :=
  c <- cget clink ;;
  let device := c_device c in
  let start := h_start (c_header c) in
  if start =? 0 then apaCacheFree (Some clink) ;;; ret (- EACCES)
  else if h_next (c_header c) =? 0 then
    let* (clink_mbr, rv) := apaCacheGetHeader device 0 APA_IO_MODE_READ in
    match clink_mbr with
    | None => apaCacheFree (Some clink) ;;; ret rv
    | Some mbr =>
        let* (clink', rv) := apaDeleteLast fuel clink mbr device in
        match clink' with
        | None => ret 0
        | Some p =>
            apaCacheFree (Some mbr) ;;;
            apaCacheFree (Some p) ;;;
            ret rv
        end
    end
  else
    let length := h_length (c_header c) in
    let* (clink', rv) := apaDeleteMerge fuel 2 clink 0 in
    match clink' with
    | None => ret 0
    | Some p =>
        c <- cget p ;;
        when ((h_start (c_header c) =? start) && (h_length (c_header c) =? length))
          (apaMakeEmpty p ;;;
           apaCacheFlushAllDirty (c_device c) ;;; ret tt) ;;;
        apaCacheFree (Some p) ;;;
        ret rv
    end.

(** ** Format check and sizes *)

(** Result: [rv==0] and [*format]. *)
Definition apaGetFormat (device : Z) : M world (bool * Z) :=
  clink <- apaCacheAlloc ;;
  p <- deref clink ;;
  rv <- apaReadHeader device p 0 ;;
  let* (rv, format) :=
    if rv =? 0 then
      h <- header p ;;
      let format := h_mbr_version h in
      r <- cache_io device p APA_SECTOR_SECTOR_ERROR 2 ATA_DIR_READ ;;
      if nz r then ret (- EIO, format)
      else
        h <- header p ;;
        let bad := existsb (fun i => nz (Z.land (Z.of_nat i) 127) && nz (get32 h i))
                           (seq 0 256) in
        ret (if bad then 1 else 0, format)
    else ret (rv, 0) in
  apaCacheFree clink ;;;
  ret (rv =? 0, format).

(** The search for the highest set bit: [for(i=31;i!=0;i--)]. *)
Fixpoint partitionMaxBit (i : nat) (lba : Z) : nat :=
  match i with
  | O => O
  | S n => if nz (Z.land (Z.shiftl 1 (Z.of_nat i)) lba) then i else partitionMaxBit n lba
  end.

Definition apaGetPartitionMax (totalLBA : Z) : Z :=
  let lba := Z.shiftr totalLBA 6 in
  let i := partitionMaxBit 31 lba in
  (* the last value assigned to size: 1<<31 .. 1<<1 *)
  let size := Z.shiftl 1 (Z.of_nat (Nat.max i 1)) in
  let i := if size <? lba then S i else i in
  u32 (Z.shiftl 1 (Z.of_nat i)).

(** ** free.c *)

(** [for(sectors /= 2; 0x3FFFF < sectors; sectors /= 2) *free |= sectors] *)
Fixpoint halvesInto (fuel : nat) (free sectors : Z) : Z :=
  match fuel with
  | O => free
  | S n => if 0x3FFFF <? sectors then halvesInto n (Z.lor free sectors) (sectors / 2) else free
  end.

Definition apaCalculateFreeSpace (free sectors : Z) : Z :=
  if 0x1FFFFF <? sectors then u32 (free + sectors)
  else if Z.land free sectors =? 0 then Z.lor free sectors
  else halvesInto 32 free (sectors / 2).

(** The inner loop of the second phase: the first halving of [partMax] that
    fits at [sectors], if there is one above 0x3FFFF. *)
Fixpoint fitBlock (fuel : nat) (partMax sectors totalLBA : Z) : option Z :=
  match fuel with
  | O => None
  | S n =>
      if 0x3FFFF <? partMax then
        if (sectors mod partMax =? 0) && (sectors + partMax <? totalLBA)
        then Some partMax
        else fitBlock n (partMax / 2) sectors totalLBA
      else None
  end.

(** The second phase: fill the space after the last partition. *)
Fixpoint fillTail (fuel : nat) (max totalLBA : Z) (free sectors : Z) : option (Z * Z) :=
  match fuel with
  | O => None
  | S n =>
      if 0x3FFFF <? max then
        match fitBlock 33 max sectors totalLBA with
        | Some partMax =>
            fillTail n max totalLBA (apaCalculateFreeSpace free partMax) (u32 (sectors + partMax))
        | None => Some (free, sectors)
        end
      else Some (free, sectors)
  end.

(** Result: [rv] and [*free]. *)
Definition apaGetFreeSectors (fuel : nat) (device : Z) (deviceinfo : list apa_device_t)
  : M world (Z * Z) :=
  let* (clink, rv) := apaCacheGetHeader device 0 APA_IO_MODE_READ in
  r <- while_ fuel (fun '(clink, rv, free, sectors) =>
         match clink with
         | None => ret (inr (rv, free, sectors))
         | Some p =>
             h <- header p ;;
             let free := if h_type h =? 0 then apaCalculateFreeSpace free (h_length h) else free in
             let sectors := u32 (sectors + h_length h) in
             let* (clink, rv) := apaGetNextHeader p rv in
             ret (inl (clink, rv, free, sectors))
         end) (clink, rv, 0, 0) ;;
  let '(rv, free, sectors) := r in
  if rv =? 0 then
    match deviceinfo !! Z.to_nat device with
    | None => undef
    | Some d =>
        match fillTail fuel (d_partitionMaxSize d) (d_totalLBA d) free sectors with
        | None => nofuel
        | Some (free, _) => ret (rv, free)
        end
    end
  else ret (rv, free).
