(* ===== verification/ApaTable.v ===== *)
(** * ApaTable: the headers of a drive as its driver sees them

    The header of a partition is in a buffer of the cache or on the media.
    [tab] describes both at once: [V] is the header at each place, [P] the
    places whose buffer was changed and not yet marked dirty, [D] the dirty
    ones, [U] who holds which buffer.  The operations of cache.c act on [V],
    [P], [D] and [U] as on variables; a flush brings the media up to date.  [K] are
    the places that may be written: no other sector of the drive but those of
    the journal changes. *)

From stdpp Require Import base numbers list gmap sets.
From Stdlib Require Import ZArith Lia.
From S2P Require Import Prelude Ata ApaState ApaCache ApaFacts ApaRing ApaInv ApaFlush Crash ApaCrash ApaPart.

Open Scope Z_scope.
Open Scope c_scope.

(** ** The view *)

Section Table.
Context (dv : Z) (K : gset Z).

(** The media has header [h] at sector [s], with its checksum right. *)
Definition on_disk (d : diskmap) (s : Z) (h : buf) : Prop :=
  d !! (dv, s) = Some (take 128 h) /\ d !! (dv, s + 1) = Some (take 128 (drop 128 h)) /\
  apaCheckSum h = h_checksum h.

(** What [apaReadHeader] asks of a header beside the checksum. *)
Definition readable (s : Z) (h : buf) : Prop :=
  h_magic h = APA_MAGIC /\ (s = APA_SECTOR_MBR -> strneq (h_mbr_magic h) apaMBRMagic 32 = true).

(** A place for a header: two sectors the drive can reach, at a multiple of
    128 MB, outside the journal. *)
Definition unit_size : Z := 0x40000.
Definition place (st : ata_st) (s : Z) : Prop :=
  addressable st dv s 2 /\ s mod unit_size = 0 /\ clear_of_journal s.

Lemma unit_even s : s mod unit_size = 0 -> Z.even s = true.
Proof. intros [q ->]%Z.mod_divide; [|done]. apply Z.even_spec. exists (q * 0x20000). unfold unit_size. lia. Qed.

Lemma unit_le m : 0 < m -> m mod unit_size = 0 -> 262 <= m.
Proof. intros Hm [q ->]%Z.mod_divide; [|done]. unfold unit_size in *. lia. Qed.

(** How many handles of [U] are on buffer [i]. *)
Definition users (i : nat) (U : list (nat * Z)) : nat := length (filter (fun x => x.1 = i) U).

Record buf_ok (d : diskmap) (V : gmap Z buf) (P D : gset Z) (U : list (nat * Z)) (i : nat) (c : apa_cache_t) : Prop := {
  b_users : c_nused c = Z.of_nat (users i U);
  b_dirty_dev : dirty c = true -> c_device c = dv;
  b_view : c_device c = dv -> V !! c_sector c = Some (c_header c);
  b_dirty : c_device c = dv -> (dirty c = true <-> c_sector c ∈ D);
  b_unused : c_device c = dv -> c_nused c = 0 -> c_sector c ∉ P ∪ D;
  b_clean : c_device c = dv -> c_sector c ∉ P ∪ D -> on_disk d (c_sector c) (c_header c)
}.

(** Some buffer holds sector [s]. *)
Definition buffered (cs : list apa_cache_t) (s : Z) : Prop :=
  exists i c, i <> 0%nat /\ cs !! i = Some c /\ c_device c = dv /\ c_sector c = s.

Record tabs (d0 : diskmap) (V : gmap Z buf) (P D : gset Z) (U : list (nat * Z)) (st : ata_st) (cs : list apa_cache_t) : Prop := {
  t_buf : forall i c, i <> 0%nat -> cs !! i = Some c -> buf_ok (disk st) V P D U i c;
  t_used : forall i s, (i, s) ∈ U -> i <> 0%nat /\ exists c, cs !! i = Some c /\ c_device c = dv /\ c_sector c = s;
  t_held : forall s, s ∈ P ∪ D -> exists i, (i, s) ∈ U;
  t_place : forall s h, V !! s = Some h -> place st s /\ length h = 256%nat;
  t_read : forall s h, V !! s = Some h -> s ∉ P -> readable s h;
  t_view : forall s h, V !! s = Some h -> on_disk (disk st) s h \/ buffered cs s;
  t_in : D ⊆ K;
  t_rest : forall k, ~ in_journal dv k -> (forall s, s ∈ K -> k <> (dv, s) /\ k <> (dv, s + 1)) -> disk st !! k = d0 !! k
}.

Record tab (d0 : diskmap) (V : gmap Z buf) (P D : gset Z) (U : list (nat * Z)) (w : world) : Prop := {
  t_cache : exists l, cache_inv w l;
  t_size : 0 <= cacheSize w <= 126;
  t_dev : 0 <= dv < 2 ^ 31;
  t_drive : drive_ok (ata w);
  t_journal : journalBuf w = empty_journal;
  t_time : length (timeBuf w) = 2%nat;
  t_tabs : tabs d0 V P D U (ata w) (strip <$> cacheBuf w)
}.

(** ** Changing one buffer *)

Lemma users_cons i j s U : users i ((j, s) :: U) = ((if decide (j = i) then 1 else 0) + users i U)%nat.
Proof. unfold users. rewrite filter_cons. simpl. by case_decide. Qed.

Lemma users_elem i U : (0 < users i U)%nat <-> exists s, (i, s) ∈ U.
Proof.
  unfold users. split.
  - destruct (filter _ U) as [|[j s] l] eqn:E; [simpl; lia|]. intros _. exists s.
    assert (H : (j, s) ∈ filter (fun x : nat * Z => x.1 = i) U) by (rewrite E; left).
    apply list_elem_of_filter in H as [Hj H]. simpl in Hj. by subst.
  - intros [s H]. assert (Hf : (i, s) ∈ filter (fun x : nat * Z => x.1 = i) U) by (by apply list_elem_of_filter).
    destruct (filter _ U); [by apply elem_of_nil in Hf|]. simpl. lia.
Qed.

(** The entry [i] becomes [c']: what must be shown. *)
Lemma tabs_insert d0 V P D U V' P' D' U' st cs i c c' :
  tabs d0 V P D U st cs -> i <> 0%nat -> cs !! i = Some c ->
  buf_ok (disk st) V' P' D' U' i c' ->
  (forall j x, j <> i -> j <> 0%nat -> cs !! j = Some x -> buf_ok (disk st) V P D U j x -> buf_ok (disk st) V' P' D' U' j x) ->
  (forall j s, (j, s) ∈ U' -> j <> 0%nat /\ exists x, <[i := c']> cs !! j = Some x /\ c_device x = dv /\ c_sector x = s) ->
  (forall s, s ∈ P' ∪ D' -> exists j, (j, s) ∈ U') ->
  (forall s h, V' !! s = Some h -> place st s /\ length h = 256%nat) ->
  (forall s h, V' !! s = Some h -> s ∉ P' -> readable s h) ->
  (forall s h, V' !! s = Some h -> on_disk (disk st) s h \/ buffered (<[i := c']> cs) s) ->
  D' ⊆ K ->
  tabs d0 V' P' D' U' st (<[i := c']> cs).
Proof.
  intros T Hi Hc Hb Hj Hu Hh Hp Hr Hv Hd. split; [|done..|].
  - intros j x Hj0 Hx. rewrite list_lookup_insert in Hx. case_decide as E.
    + destruct E as [<- _]. by injection Hx as <-.
    + apply Hj; [intros ->; apply E; split; [done|by eapply lookup_lt_Some]|done|done|]. by eapply t_buf.
  - apply (t_rest _ _ _ _ _ _ _ T).
Qed.

Lemma tabs_lookup d0 V P D U st cs i s : tabs d0 V P D U st cs -> (i, s) ∈ U ->
  i <> 0%nat /\ exists c, cs !! i = Some c /\ c_device c = dv /\ c_sector c = s /\ V !! s = Some (c_header c) /\
    buf_ok (disk st) V P D U i c.
Proof.
  intros T Hin. destruct (t_used _ _ _ _ _ _ _ T _ _ Hin) as (Hi & c & Hc & Hd & Hs). split; [done|]. exists c.
  pose proof (t_buf _ _ _ _ _ _ _ T _ _ Hi Hc) as B. rewrite <- Hs. split_and!; [done..|by apply B|done].
Qed.

(** A sector is in one buffer at most. *)
Definition one_buffer (cs : list apa_cache_t) : Prop := forall i j c x, i <> 0%nat -> j <> 0%nat ->
  cs !! i = Some c -> cs !! j = Some x -> c_device c = dv -> c_device x = dv -> c_sector c = c_sector x -> i = j.

Lemma cache_inv_one w l : 0 <= dv -> cache_inv w l -> one_buffer (strip <$> cacheBuf w).
Proof.
  intros Hdv (_ & _ & Hd) i j c x Hi Hj Hc Hx Ec Ex Es. rewrite list_lookup_fmap in Hc, Hx.
  destruct (cacheBuf w !! i) as [c0|] eqn:E0; [|done]. destruct (cacheBuf w !! j) as [x0|] eqn:E1; [|done].
  injection Hc as <-. injection Hx as <-. simpl in *. eapply (bi_key _ _ Hd i j c0 x0); try done; [|congruence].
  unfold mapped. lia.
Qed.

Lemma buffered_insert cs i c c' s : cs !! i = Some c -> c_device c' = c_device c -> c_sector c' = c_sector c ->
  buffered cs s -> buffered (<[i := c']> cs) s.
Proof.
  intros Hc Ed Es (j & x & Hj & Hx & H1 & H2). destruct (decide (j = i)) as [->|Hne].
  - exists i, c'. rewrite list_lookup_insert_eq by (by eapply lookup_lt_Some). simplify_eq. split_and!; congruence.
  - exists j, x. by rewrite list_lookup_insert_ne.
Qed.

Lemma used_insert (cs : list apa_cache_t) i c c' s j : cs !! i = Some c -> c_device c' = c_device c -> c_sector c' = c_sector c ->
  (j <> 0%nat /\ exists x, cs !! j = Some x /\ c_device x = dv /\ c_sector x = s) ->
  j <> 0%nat /\ exists x, <[i := c']> cs !! j = Some x /\ c_device x = dv /\ c_sector x = s.
Proof.
  intros Hc Ed Es (Hj & x & Hx & H1 & H2). split; [done|]. destruct (decide (j = i)) as [->|Hne].
  - exists c'. rewrite list_lookup_insert_eq by (by eapply lookup_lt_Some). simplify_eq. split_and!; congruence.
  - exists x. by rewrite list_lookup_insert_ne.
Qed.

(** One more user. *)
Lemma tabs_use d0 V P D U st cs i c : tabs d0 V P D U st cs -> i <> 0%nat -> cs !! i = Some c -> c_device c = dv ->
  c_nused c < 65535 -> tabs d0 V P D ((i, c_sector c) :: U) st (<[i := upd_nused (c_nused c + 1) c]> cs).
Proof.
  intros T Hi Hc Ed Hn. pose proof (t_buf _ _ _ _ _ _ _ T _ _ Hi Hc) as B.
  eapply tabs_insert; [exact T|done|exact Hc|..]; try by eapply T.
  - destruct B as [B1 B2 B3 B4 B5 B6]. split; simpl; try done.
    + rewrite users_cons, decide_True, u16_small, B1 by lia || done. lia.
    + rewrite u16_small by lia. intros _ E. lia.
  - intros j x Hne Hj Hx [B1 B2 B3 B4 B5 B6]. split; try done. by rewrite users_cons, decide_False.
  - intros j s Hin. apply (used_insert cs i c); [done..|]. apply elem_of_cons in Hin as [[= -> ->]|Hin]; [by eauto|by eapply T].
  - intros s Hs. apply (t_held _ _ _ _ _ _ _ T) in Hs as [j Hj]. exists j. by right.
  - intros s h Hs. destruct (t_view _ _ _ _ _ _ _ T s h Hs) as [|Hb]; [by left|right]. by eapply buffered_insert.
Qed.

(** A buffer nobody uses, mapped to the place [s]. *)
Lemma tabs_map d0 V P D U st cs i c c' s P' :
  tabs d0 V P D U st cs -> i <> 0%nat -> cs !! i = Some c -> c_nused c = 0 -> ~ buffered cs s -> place st s ->
  c_device c' = dv -> c_sector c' = s -> c_nused c' = 1 -> dirty c' = false -> hdr_len c' ->
  P' = P ∪ {[s]} \/ P' = P /\ on_disk (disk st) s (c_header c') /\ readable s (c_header c') ->
  tabs d0 (<[s := c_header c']> V) P' D ((i, s) :: U) st (<[i := c']> cs).
Proof.
  intros T Hi Hc Hn Hb Hp Ed Es En Edt Hl HP. pose proof (t_buf _ _ _ _ _ _ _ T _ _ Hi Hc) as B.
  assert (HU : forall j s', (j, s') ∈ U -> j <> i).
  { intros j s' Hin ->. pose proof (b_users _ _ _ _ _ _ _ B) as E. assert (0 < users i U)%nat by (apply users_elem; eauto). lia. }
  assert (HnU : users i U = 0%nat) by (pose proof (b_users _ _ _ _ _ _ _ B); lia).
  assert (HsU : s ∉ P ∪ D).
  { intros [j Hj]%(t_held _ _ _ _ _ _ _ T). apply Hb. destruct (t_used _ _ _ _ _ _ _ T _ _ Hj) as (Hj0 & x & Hx). by exists j, x. }
  eapply tabs_insert; [exact T|done|exact Hc|..].
  - split; rewrite ?Es, ?Ed, ?Edt, ?En; try done.
    + rewrite users_cons, decide_True by done. lia.
    + intros _. by rewrite lookup_insert_eq.
    + intros _. split; [done|]. set_solver.
    + intros _ HsP. destruct HP as [->|(-> & Ho & _)]; [set_solver|done].
  - intros j x Hne Hj Hx [B1 B2 B3 B4 B5 B6]. assert (Hxs : c_device x = dv -> c_sector x <> s) by (intros Hxd Hxs; apply Hb; by exists j, x).
    split; try done.
    + by rewrite users_cons, decide_False.
    + intros Hd. rewrite lookup_insert_ne by (apply not_eq_sym; auto). auto.
    + intros Hd Hu. specialize (B5 Hd Hu). specialize (Hxs Hd). destruct HP as [->|(-> & _)]; set_solver.
    + intros Hd Hu. apply B6; [done|]. destruct HP as [->|(-> & _)]; set_solver.
  - intros j s' Hin. apply elem_of_cons in Hin as [[= -> ->]|Hin].
    + split; [done|]. exists c'. by rewrite list_lookup_insert_eq by (by eapply lookup_lt_Some).
    + destruct (t_used _ _ _ _ _ _ _ T _ _ Hin) as (Hj0 & x & Hx). split; [done|]. exists x.
      by rewrite list_lookup_insert_ne by (apply not_eq_sym; eauto).
  - intros s' Hs'. destruct (decide (s' = s)) as [->|Hne]; [exists i; left|].
    destruct (t_held _ _ _ _ _ _ _ T s') as [j Hj]; [destruct HP as [->|(-> & _)]; set_solver|]. exists j. by right.
  - intros s' h. rewrite lookup_insert. case_decide as E; [intros [= <-]; subst s'; done|]. by eapply T.
  - intros s' h. rewrite lookup_insert. case_decide as E.
    + intros [= <-] HsP. subst s'. destruct HP as [->|(_ & _ & Hr)]; [set_solver|done].
    + intros Hh HsP. eapply T; [done|]. destruct HP as [->|(-> & _)]; set_solver.
  - intros s' h. rewrite lookup_insert. case_decide as E.
    + intros [= <-]. right. exists i, c'. rewrite list_lookup_insert_eq by (by eapply lookup_lt_Some). subst. done.
    + intros Hh. destruct (t_view _ _ _ _ _ _ _ T s' h Hh) as [|(j & x & Hj & Hx & Hxd & Hxs)]; [by left|].
      destruct (decide (j = i)) as [->|Hji].
      * left. simplify_eq. pose proof (b_view _ _ _ _ _ _ _ B Hxd) as E1. rewrite Hh in E1. injection E1 as ->.
        by apply B, B.
      * right. exists j, x. by rewrite list_lookup_insert_ne.
  - apply T.
Qed.

(** A store to the header of a buffer in use. *)
Lemma tabs_header d0 V P D U st cs i s c h : tabs d0 V P D U st cs -> one_buffer cs -> (i, s) ∈ U -> cs !! i = Some c ->
  length h = 256%nat -> tabs d0 (<[s := h]> V) (P ∪ {[s]}) D U st (<[i := upd_header h c]> cs).
Proof.
  intros T H1 Hin Hc Hl. destruct (tabs_lookup _ _ _ _ _ _ _ _ _ T Hin) as (Hi & c0 & Hc0 & Ed & Es & EV & B).
  rewrite Hc in Hc0. injection Hc0 as <-. eapply tabs_insert; [exact T|done|exact Hc|..].
  - destruct B as [B1 B2 B3 B4 B5 B6]. split; simpl; rewrite ?Es in *; try done.
    + intros _. by rewrite lookup_insert_eq.
    + intros _ Hn. rewrite B1 in Hn. assert (0 < users i U)%nat by (apply users_elem; eauto). lia.
    + set_solver.
  - intros j x Hne Hj Hx [B1 B2 B3 B4 B5 B6].
    assert (Hxs : c_device x = dv -> c_sector x <> s).
    { intros Hxd Hxs. apply Hne. by eapply (H1 j i x c); try done; congruence. }
    split; try done.
    + intros Hd. rewrite lookup_insert_ne by (apply not_eq_sym; auto). auto.
    + intros Hd Hu. specialize (B5 Hd Hu). specialize (Hxs Hd). set_solver.
    + intros Hd Hu. apply B6; [done|]. set_solver.
  - intros j s' Hj. apply (used_insert cs i c); [done..|]. by eapply T.
  - intros s' Hs'. destruct (decide (s' = s)) as [->|Hne]; [by exists i|]. apply (t_held _ _ _ _ _ _ _ T). set_solver.
  - intros s' h'. rewrite lookup_insert. case_decide as E; [intros [= <-]; subst s'|by eapply T].
    split; [|done]. by eapply T.
  - intros s' h'. rewrite lookup_insert. case_decide as E; [intros [= <-] Hs'; set_solver|]. intros Hh Hs'. eapply T; [done|]. set_solver.
  - intros s' h'. rewrite lookup_insert. case_decide as E.
    + intros [= <-]. right. subst s'. eapply buffered_insert; [exact Hc|done..|]. by exists i, c.
    + intros Hh. destruct (t_view _ _ _ _ _ _ _ T s' h' Hh) as [|Hb]; [by left|right]. by eapply buffered_insert.
  - apply T.
Qed.

Lemma dirty_or c : dirty (upd_flags (Z.lor (c_flags c) APA_CACHE_FLAG_DIRTY) c) = true.
Proof.
  unfold dirty. simpl. apply nz_true. intros E. apply (f_equal (fun z => Z.testbit z 0)) in E. revert E.
  unfold u16, APA_CACHE_FLAG_DIRTY. by rewrite Z.land_spec, Z.mod_pow2_bits_low, Z.lor_spec, orb_true_r by lia.
Qed.

(** The buffer is marked. *)
Lemma tabs_mark d0 V P D U st cs i s c h : tabs d0 V P D U st cs -> one_buffer cs -> (i, s) ∈ U -> cs !! i = Some c ->
  V !! s = Some h -> readable s h -> s ∈ K ->
  tabs d0 V (P ∖ {[s]}) (D ∪ {[s]}) U st (<[i := upd_flags (Z.lor (c_flags c) APA_CACHE_FLAG_DIRTY) c]> cs).
Proof.
  intros T H1 Hin Hc HV Hr HK. destruct (tabs_lookup _ _ _ _ _ _ _ _ _ T Hin) as (Hi & c0 & Hc0 & Ed & Es & EV & B).
  rewrite Hc in Hc0. injection Hc0 as <-. eapply tabs_insert; [exact T|done|exact Hc|..]; try by eapply T.
  - pose proof (dirty_or c) as Ho. destruct B as [B1 B2 B3 B4 B5 B6]. split; try done; simpl.
    + intros _. rewrite Ho. split; [|done]. rewrite Es. set_solver.
    + intros _ Hn. rewrite B1 in Hn. assert (0 < users i U)%nat by (apply users_elem; eauto). lia.
    + rewrite Es. set_solver.
  - intros j x Hne Hj Hx [B1 B2 B3 B4 B5 B6].
    assert (Hxs : c_device x = dv -> c_sector x <> s).
    { intros Hxd Hxs. apply Hne. by eapply (H1 j i x c); try done; congruence. }
    split; try done.
    + intros Hd. rewrite (B4 Hd). specialize (Hxs Hd). set_solver.
    + intros Hd Hu. specialize (B5 Hd Hu). specialize (Hxs Hd). set_solver.
    + intros Hd Hu. apply B6; [done|]. specialize (Hxs Hd). intros Hx'. apply Hu. set_solver.
  - intros j s' Hj. apply (used_insert cs i c); [done..|]. by eapply T.
  - intros s' Hs'. destruct (decide (s' = s)) as [->|Hne]; [by exists i|]. apply (t_held _ _ _ _ _ _ _ T). set_solver.
  - intros s' h' Hh Hs'. destruct (decide (s' = s)) as [->|Hne]; [by simplify_eq|]. eapply T; [done|]. set_solver.
  - intros s' h' Hh. destruct (t_view _ _ _ _ _ _ _ T s' h' Hh) as [|Hb]; [by left|right]. by eapply buffered_insert.
  - pose proof (t_in _ _ _ _ _ _ _ T). set_solver.
Qed.

(** One user less: the last one leaves nothing behind. *)
Lemma tabs_release d0 V P D U U1 U2 st cs i s c : tabs d0 V P D U st cs -> one_buffer cs ->
  U = U1 ++ (i, s) :: U2 -> cs !! i = Some c -> c_nused c < 2 ^ 16 ->
  (s ∈ P ∪ D -> exists j, (j, s) ∈ U1 ++ U2) ->
  tabs d0 V P D (U1 ++ U2) st (<[i := upd_nused (c_nused c - 1) c]> cs).
Proof.
  intros T H1 -> Hc Hn Hh. assert (Hin : (i, s) ∈ U1 ++ (i, s) :: U2) by set_solver.
  destruct (tabs_lookup _ _ _ _ _ _ _ _ _ T Hin) as (Hi & c0 & Hc0 & Ed & Es & EV & B).
  rewrite Hc in Hc0. injection Hc0 as <-.
  assert (HU : forall j, users j (U1 ++ (i, s) :: U2) = ((if decide (i = j) then 1 else 0) + users j (U1 ++ U2))%nat).
  { intros j. unfold users. rewrite !filter_app, filter_cons, !length_app. simpl. case_decide; simpl; lia. }
  assert (Hsub : forall j s', (j, s') ∈ U1 ++ U2 -> (j, s') ∈ U1 ++ (i, s) :: U2) by set_solver.
  eapply tabs_insert; [exact T|done|exact Hc|..]; try by eapply T.
  - destruct B as [B1 B2 B3 B4 B5 B6]. rewrite HU, decide_True in B1 by done. split; try done; simpl.
    + rewrite u16_small; lia.
    + rewrite u16_small by lia. intros _ Hz HPD. rewrite Es in HPD. destruct (Hh HPD) as [j Hj].
      destruct (t_used _ _ _ _ _ _ _ T _ _ (Hsub _ _ Hj)) as (Hj0 & x & Hx & Hxd & Hxs).
      assert (j = i) as -> by (by eapply (H1 j i x c); try done; congruence).
      assert (0 < users i (U1 ++ U2))%nat by (apply users_elem; eauto). lia.
  - intros j x Hne Hj Hx [B1 B2 B3 B4 B5 B6]. rewrite HU, decide_False in B1 by congruence. by split.
  - intros j s' Hj. apply (used_insert cs i c); [done..|]. eapply T, Hsub, Hj.
  - intros s' Hs'. destruct (t_held _ _ _ _ _ _ _ T s' Hs') as [j Hj]. destruct (decide (s' = s)) as [->|Hne]; [by apply Hh|].
    exists j. set_solver.
  - intros s' h' Hs'. destruct (t_view _ _ _ _ _ _ _ T s' h' Hs') as [|Hb]; [by left|right]. by eapply buffered_insert.
Qed.
(** A buffer nobody uses forgets its sector. *)
Lemma tabs_unmap d0 V P D U st cs i c c' : tabs d0 V P D U st cs -> i <> 0%nat -> cs !! i = Some c -> c_nused c = 0 ->
  c_nused c' = 0 -> c_device c' <> dv -> dirty c' = false -> tabs d0 V P D U st (<[i := c']> cs).
Proof.
  intros T Hi Hc Hn Hn' Ed Edt. pose proof (t_buf _ _ _ _ _ _ _ T _ _ Hi Hc) as B.
  assert (HnU : users i U = 0%nat) by (pose proof (b_users _ _ _ _ _ _ _ B); lia).
  eapply tabs_insert; [exact T|done|exact Hc|..]; try by eapply T.
  - split; rewrite ?Edt; try done. by rewrite HnU.
  - auto.
  - intros j s Hin. destruct (t_used _ _ _ _ _ _ _ T _ _ Hin) as (Hj & x & Hx). split; [done|]. exists x.
    rewrite list_lookup_insert_ne; [done|]. intros <-. assert (0 < users i U)%nat by (apply users_elem; eauto). lia.
  - intros s h Hs. destruct (t_view _ _ _ _ _ _ _ T s h Hs) as [|(j & x & Hj & Hx & Hxd & Hxs)]; [by left|].
    destruct (decide (j = i)) as [->|Hji].
    + left. simplify_eq. pose proof (b_view _ _ _ _ _ _ _ B Hxd) as E1. rewrite Hs in E1. injection E1 as ->. by apply B, B.
    + right. exists j, x. by rewrite list_lookup_insert_ne.
Qed.

(** The order of the handles does not matter. *)
Lemma tab_perm d0 V P D U U' w : tab d0 V P D U w -> U ≡ₚ U' -> tab d0 V P D U' w.
Proof.
  intros [T1 T2 T3 T4 T5 T6 [A1 A2 A3 A4 A5 A6 A7 A8]] HP. split; try done.
  assert (HU : forall i, users i U' = users i U) by (intros i; unfold users; by rewrite HP).
  split; try done.
  - intros i c Hi Hc. destruct (A1 i c Hi Hc) as [B1 B2 B3 B4 B5 B6]. split; try done. by rewrite HU.
  - intros i s Hin. apply A2. by rewrite HP.
  - intros s Hs. destruct (A3 s Hs) as [i Hi]. exists i. by rewrite <- HP.
Qed.

(** ** Between the operations *)

(** When nothing is pending or dirty the view is what the media has. *)
Lemma tab_on_disk d0 V U w s h : tab d0 V ∅ ∅ U w -> V !! s = Some h -> on_disk (disk (ata w)) s h.
Proof.
  intros T HV. pose proof (t_tabs _ _ _ _ _ _ T) as TT. destruct (t_view _ _ _ _ _ _ _ TT _ _ HV) as [|(i & c & Hi & Hc & Ed & Es)]; [done|].
  pose proof (t_buf _ _ _ _ _ _ _ TT _ _ Hi Hc) as B. pose proof (b_view _ _ _ _ _ _ _ B Ed) as E. rewrite Es, HV in E. injection E as ->.
  rewrite <- Es. apply B; [done|set_solver].
Qed.
End Table.

(** The driver between two operations: no change is waiting in a buffer. *)
Definition settled (dv : Z) (V : gmap Z buf) (U : list (nat * Z)) (w : world) : Prop := tab dv ∅ (disk (ata w)) V ∅ ∅ U w.

(** Sectors outside the places [K] and the journal are as in [d]. *)
Definition rest_same (dv : Z) (K : gset Z) (d d' : diskmap) : Prop :=
  forall k, ~ in_journal dv k -> (forall s, s ∈ K -> k <> (dv, s) /\ k <> (dv, s + 1)) -> d' !! k = d !! k.

Lemma settled_tab dv K V U w : settled dv V U w -> tab dv K (disk (ata w)) V ∅ ∅ U w.
Proof. intros [T1 T2 T3 T4 T5 T6 [A1 A2 A3 A4 A5 A6 A7 A8]]. by split. Qed.

Lemma tab_settled dv K d0 V U w : tab dv K d0 V ∅ ∅ U w -> settled dv V U w /\ rest_same dv K d0 (disk (ata w)).
Proof.
  intros [T1 T2 T3 T4 T5 T6 [A1 A2 A3 A4 A5 A6 A7 A8]]. split; [|exact A8]. by split.
Qed.

(** The media changes where no header is. *)
Lemma tabs_media dv K d0 V U st st' cs : tabs dv K d0 V ∅ ∅ U st cs -> lba48 st' = lba48 st ->
  (forall k, k.1 <> dv \/ k.2 mod unit_size = 0 \/ k.2 mod unit_size = 1 -> disk st' !! k = disk st !! k) -> tabs dv ∅ (disk st') V ∅ ∅ U st' cs.
Proof.
  intros [A1 A2 A3 A4 A5 A6 A7 A8] El Ed.
  assert (HO : forall s h, place dv st s -> on_disk dv (disk st) s h -> on_disk dv (disk st') s h).
  { intros s h (_ & Hs & _) (O1 & O2 & O3). split_and!; [..|done]; rewrite Ed; try done; right; [by left|right]. simpl.
    by rewrite Zplus_mod, Hs. }
  split; try done.
  - intros i c Hi Hc. destruct (A1 i c Hi Hc) as [B1 B2 B3 B4 B5 B6]. split; try done. intros Hd Hs.
    apply HO; [|auto]. by apply (A4 _ _ (B3 Hd)).
  - intros s h Hs. destruct (A4 s h Hs) as [Hp Hl]. split; [|done]. unfold place, addressable in *. by rewrite El.
  - intros s h Hs. destruct (A6 s h Hs) as [Ho|]; [left|by right]. apply HO; [|done]. by apply (A4 s h).
Qed.
