(* ===== verification/ApaTableOps.v ===== *)
(** * ApaTableOps: the operations of cache.c on the view of ApaTable

    Each operation, on a drive without faults and with enough buffers, as an
    assignment to the view: getting a header, storing to it, marking it,
    releasing it, flushing. *)

From stdpp Require Import base numbers list gmap sets.
From Stdlib Require Import ZArith Lia.
From S2P Require Import Prelude Ata ApaState ApaCache ApaFacts ApaRing ApaInv ApaFlush Crash ApaCrash ApaPart ApaTable.

Open Scope Z_scope.
Open Scope c_scope.

Section Ops.
Context (dv : Z) (K : gset Z) (d0 : diskmap).

(** What the operations below leave alone. *)
Definition kept (w w' : world) : Prop :=
  cacheSize w' = cacheSize w /\ (hddDevices w', hddFileSlots w') = (hddDevices w, hddFileSlots w) /\ lba48 (ata w') = lba48 (ata w).

#[export] Instance kept_preorder : PreOrder kept.
Proof. split; [by intros w|]. intros w1 w2 w3 (?&?&?) (?&?&?). unfold kept. split_and!; congruence. Qed.

Lemma kept_place w w' s : kept w w' -> place dv (ata w) s -> place dv (ata w') s.
Proof. intros (_ & _ & E). unfold place, addressable. by rewrite E. Qed.

Lemma tab_with_cache V P D U V' P' D' U' w cs' l' :
  tab dv K d0 V P D U w -> cache_inv (with_cache cs' w) l' -> tabs dv K d0 V' P' D' U' (ata w) (strip <$> cs') ->
  tab dv K d0 V' P' D' U' (with_cache cs' w).
Proof. intros [T1 T2 T3 T4 T5 T6 T7] I T. split; try done. by exists l'. Qed.

Lemma tab_one V P D U w : tab dv K d0 V P D U w -> one_buffer dv (strip <$> cacheBuf w).
Proof. intros T. destruct (t_cache _ _ _ _ _ _ _ _ T) as [l I]. eapply cache_inv_one; [apply T|exact I]. Qed.

(** A buffer in use. *)
Lemma tab_entry V P D U w i s : tab dv K d0 V P D U w -> (i, s) ∈ U ->
  i <> 0%nat /\ exists c, cacheBuf w !! i = Some c /\ c_device c = dv /\ c_sector c = s /\ V !! s = Some (c_header c) /\
    length (c_header c) = 256%nat /\ 0 < c_nused c < 2 ^ 16.
Proof.
  intros T Hin. destruct (tabs_lookup _ _ _ _ _ _ _ _ _ _ _ (t_tabs _ _ _ _ _ _ _ _ T) Hin) as (Hi & c & Hc & Ed & Es & EV & B).
  split; [done|]. rewrite list_lookup_fmap in Hc. destruct (cacheBuf w !! i) as [c0|] eqn:E; [|done]. injection Hc as <-.
  exists c0. simpl in *. split_and!; try done.
  - by eapply T.
  - pose proof (b_users _ _ _ _ _ _ _ _ B) as Hu. simpl in Hu.
    assert (0 < users i U)%nat by (apply users_elem; eauto). lia.
  - destruct (t_cache _ _ _ _ _ _ _ _ T) as [l (_ & _ & Hd)]. by apply (bi_count _ _ Hd i c0).
Qed.

Lemma tab_cget V P D U w i s h : tab dv K d0 V P D U w -> (i, s) ∈ U -> V !! s = Some h ->
  exists c, cget i w = Done c w /\ c_device c = dv /\ c_header c = h.
Proof.
  intros T Hin HV. destruct (tab_entry _ _ _ _ _ _ _ T Hin) as (Hi & c & Hc & Ed & _ & EV & _). exists c.
  split; [by apply cget_Done|]. split; [done|]. congruence.
Qed.

Lemma wp_header V P D U w i s h Q : tab dv K d0 V P D U w -> (i, s) ∈ U -> V !! s = Some h -> Q h w -> wp (header i) w Q.
Proof.
  intros T Hin HV HQ. destruct (tab_cget _ _ _ _ _ _ _ _ T Hin HV) as (c & Hc & _ & <-).
  unfold header. apply wp_bind. eapply wp_Done; [exact Hc|]. by apply wp_ret.
Qed.

(** Stores. *)
Lemma strip_insert (cs : list apa_cache_t) i c : strip <$> <[i := c]> cs = <[i := strip c]> (strip <$> cs).
Proof. apply list_fmap_insert. Qed.

Lemma wp_hmod V P D U w i s h f Q : tab dv K d0 V P D U w -> (i, s) ∈ U -> V !! s = Some h -> length (f h) = 256%nat ->
  (forall w', tab dv K d0 (<[s := f h]> V) (P ∪ {[s]}) D U w' -> kept w w' -> Q tt w') -> wp (hmod i f) w Q.
Proof.
  intros T Hin HV Hl HQ. destruct (tab_entry _ _ _ _ _ _ _ T Hin) as (Hi & c & Hc & Ed & Es & EV & Hlc & Hn).
  assert (h = c_header c) as -> by congruence. eapply wp_Done; [by apply cmod_Done|]. apply HQ; [|done].
  destruct (t_cache _ _ _ _ _ _ _ _ T) as [l I]. eapply tab_with_cache; [exact T|by eapply inv_header|].
  rewrite strip_insert. eapply (tabs_header dv K d0 V P D U (ata w) _ i s (strip c)); [apply T|by eapply tab_one|done| |done].
  by rewrite list_lookup_fmap, Hc.
Qed.

Lemma wp_mark V P D U w i s h Q : tab dv K d0 V P D U w -> (i, s) ∈ U -> V !! s = Some h -> readable s h -> s ∈ K ->
  (forall w', tab dv K d0 V (P ∖ {[s]}) (D ∪ {[s]}) U w' -> kept w w' -> Q tt w') -> wp (mark_dirty i) w Q.
Proof.
  intros T Hin HV Hr HK HQ. destruct (tab_entry _ _ _ _ _ _ _ T Hin) as (Hi & c & Hc & Ed & Es & EV & Hlc & Hn).
  eapply wp_Done; [by apply cmod_Done|]. apply HQ; [|done].
  destruct (t_cache _ _ _ _ _ _ _ _ T) as [l I]. eapply tab_with_cache; [exact T|by eapply inv_header|].
  rewrite strip_insert. eapply (tabs_mark dv K d0 V P D U (ata w) _ i s (strip c)); [apply T|by eapply tab_one|done| |exact HV|exact Hr|done].
  by rewrite list_lookup_fmap, Hc.
Qed.

(** Releasing. *)
(** The buffer keeps its header after it is released. *)
Lemma wp_free_header V P D U U1 U2 w i s h Q : tab dv K d0 V P D U w -> U = U1 ++ (i, s) :: U2 -> V !! s = Some h ->
  (s ∈ P ∪ D -> exists j, (j, s) ∈ U1 ++ U2) ->
  (forall w', tab dv K d0 V P D (U1 ++ U2) w' -> kept w w' -> (exists c, cget i w' = Done c w' /\ c_device c = dv /\ c_header c = h) -> Q tt w') -> wp (apaCacheFree (Some i)) w Q.
Proof.
  intros T -> HV Hh HQ. destruct (tab_entry _ _ _ _ _ i s T ltac:(set_solver)) as (Hi & c & Hc & Ed & Es & EV & Hlc & Hn).
  rewrite HV in EV. injection EV as ->.
  destruct (t_cache _ _ _ _ _ _ _ _ T) as [l I].
  assert (HT : tabs dv K d0 V P D (U1 ++ U2) (ata w) (<[i := upd_nused (c_nused c - 1) (strip c)]> (strip <$> cacheBuf w))).
  { eapply (tabs_release dv K d0 V P D _ U1 U2 (ata w) _ i s (strip c)); [apply T|by eapply tab_one|done| |simpl; lia|done].
    by rewrite list_lookup_fmap, Hc. }
  assert (Hhd : forall cs', strip <$> cs' = <[i := upd_nused (c_nused c - 1) (strip c)]> (strip <$> cacheBuf w) ->
    exists c', cget i (with_cache cs' w) = Done c' (with_cache cs' w) /\ c_device c' = dv /\ c_header c' = c_header c).
  { intros cs' E. apply (f_equal (lookup i)) in E. rewrite list_lookup_insert_eq in E
      by (rewrite length_fmap; by eapply lookup_lt_Some). rewrite list_lookup_fmap in E.
    destruct (cs' !! i) as [c'|] eqn:Ec; [|done]. exists c'. injection E as _ _ E1 _ E2. split; [by apply cget_Done|]. by rewrite <- Ed. }
  destruct (decide (c_nused c = 1)) as [E|E].
  - destruct (apaCacheFree_last w l i c I Hi Hc E) as (cs' & Ef & I' & Hs). rewrite E in HT, Hhd. eapply wp_Done; [exact Ef|].
    assert (Hst : strip <$> cs' = <[i := upd_nused (1 - 1) (strip c)]> (strip <$> cacheBuf w)) by (rewrite Hs, strip_insert; done).
    apply HQ; [|done|by apply Hhd]. eapply tab_with_cache; [exact T|exact I'|]. by rewrite Hst.
  - destruct (apaCacheFree_shared w l i c I Hi Hc ltac:(lia)) as (Ef & I'). eapply wp_Done; [exact Ef|].
    apply HQ; [|done|apply Hhd; by rewrite strip_insert].
    eapply tab_with_cache; [exact T|exact I'|]. by rewrite strip_insert.
Qed.

Lemma wp_free V P D U U1 U2 w i s Q : tab dv K d0 V P D U w -> U = U1 ++ (i, s) :: U2 -> (s ∈ P ∪ D -> exists j, (j, s) ∈ U1 ++ U2) ->
  (forall w', tab dv K d0 V P D (U1 ++ U2) w' -> kept w w' -> Q tt w') -> wp (apaCacheFree (Some i)) w Q.
Proof.
  intros T E Hh HQ. destruct (tab_entry _ _ _ _ _ i s T ltac:(subst; set_solver)) as (_ & c & _ & _ & _ & EV & _).
  eapply wp_free_header; [exact T|exact E|exact EV|exact Hh|]. auto.
Qed.

(** ** Getting a header *)

(** There is a buffer nobody uses. *)
Lemma tab_free_buffer V P D U w l : tab dv K d0 V P D U w -> cache_inv w l -> Z.of_nat (length U) < cacheSize w -> l <> [].
Proof.
  intros T I HU ->. pose proof I as (Hlen & _ & Hd).
  assert (Hsub : cache_indices w ⊆+ U.*1).
  { apply NoDup_submseteq; [apply NoDup_seq|]. intros i Hi. pose proof (indices_nonzero w i Hi) as Hi0.
    apply elem_of_seq in Hi. destruct (lookup_lt_is_Some_2 (cacheBuf w) i) as [c Hc]; [lia|].
    pose proof (bi_free _ _ Hd i c Hi0 Hc) as Hf. pose proof (bi_count _ _ Hd i c Hi0 Hc) as Hcnt.
    assert (Hn : c_nused c <> 0) by (intros E; apply Hf in E; by apply elem_of_nil in E).
    assert (B : buf_ok dv (disk (ata w)) V P D U i (strip c)).
    { eapply (t_buf _ _ _ _ _ _ _ _ _ (t_tabs _ _ _ _ _ _ _ _ T)); [done|]. by rewrite list_lookup_fmap, Hc. }
    pose proof (b_users _ _ _ _ _ _ _ _ B) as Hu. simpl in Hu.
    assert (Hex : exists s, (i, s) ∈ U) by (apply users_elem; lia). destruct Hex as [s Hs].
    apply list_elem_of_fmap. by exists (i, s). }
  apply submseteq_length in Hsub. unfold cache_indices in Hsub. rewrite length_seq, length_fmap in Hsub. lia.
Qed.

Lemma find_buffered w l s i : cache_inv w l -> cache_find dv s (cache_indices w) (cacheBuf w) = Some i ->
  i <> 0%nat /\ exists c, cacheBuf w !! i = Some c /\ c_device c = dv /\ c_sector c = s.
Proof.
  intros I H. apply cache_find_Some in H as [Hi (c & Hc & Es & Ed)]. split; [by eapply indices_nonzero|]. by exists c.
Qed.

Lemma find_not_buffered w l s : cache_inv w l -> cache_find dv s (cache_indices w) (cacheBuf w) = None ->
  ~ buffered dv (strip <$> cacheBuf w) s.
Proof.
  intros I H (i & c & Hi & Hc & Ed & Es). rewrite list_lookup_fmap in Hc. destruct (cacheBuf w !! i) as [c0|] eqn:E; [|done].
  injection Hc as <-. simpl in *. by eapply cache_find_None; [exact H|eapply in_indices; eauto|eauto..].
Qed.

(** The header is in a buffer already. *)
Lemma tab_hit V P D U w l s mode i : tab dv K d0 V P D U w -> cache_inv w l ->
  cache_find dv s (cache_indices w) (cacheBuf w) = Some i -> Z.of_nat (length U) < cacheSize w ->
  exists w', apaCacheGetHeader dv s mode w = Done (Some i, 0) w' /\ tab dv K d0 V P D ((i, s) :: U) w' /\ kept w w'.
Proof.
  intros T I Hf HU. destruct (find_buffered _ _ _ _ I Hf) as (Hi & c & Hc & Ed & Es).
  assert (Hcs : (strip <$> cacheBuf w) !! i = Some (strip c)) by (by rewrite list_lookup_fmap, Hc).
  assert (Hn : c_nused c < 65535).
  { pose proof (b_users _ _ _ _ _ _ _ _ (t_buf _ _ _ _ _ _ _ _ _ (t_tabs _ _ _ _ _ _ _ _ T) _ _ Hi Hcs)) as Hu. simpl in Hu.
    pose proof (length_filter (fun x : nat * Z => x.1 = i) U) as Hle. unfold users in Hu. destruct (t_size _ _ _ _ _ _ _ _ T). lia. }
  destruct (getHeader_hit w l dv s mode i c I Hf Hc Hn) as (cs' & E & I' & Hs). exists (with_cache cs' w).
  split; [exact E|]. split; [|done]. eapply tab_with_cache; [exact T|exact I'|]. rewrite Hs, strip_insert.
  pose proof (tabs_use dv K d0 V P D U (ata w) _ i (strip c) (t_tabs _ _ _ _ _ _ _ _ T) Hi Hcs Ed Hn) as HT. simpl in HT. by rewrite Es in HT.
Qed.

Lemma tabs_ata V P D U st st' cs : disk st' = disk st -> lba48 st' = lba48 st -> tabs dv K d0 V P D U st cs -> tabs dv K d0 V P D U st' cs.
Proof.
  intros E1 E2 [T1 T2 T3 T4 T5 T6 T7]. split; rewrite ?E1; try done. intros s h Hs. destruct (T4 s h Hs) as [Hp Hl].
  split; [|done]. unfold place, addressable in *. by rewrite E2.
Qed.

(** A header that is on the media and in no buffer. *)
Lemma read_ok w i c h : drive_ok (ata w) -> addressable (ata w) dv (c_sector c) 2 -> cacheBuf w !! i = Some c -> hdr_len c ->
  c_device c = dv -> length h = 256%nat -> on_disk dv (disk (ata w)) (c_sector c) h -> readable (c_sector c) h ->
  apaCacheTransfer i APA_IO_MODE_READ w = Done 0 (with_cache
    (<[i := upd_flags (Z.ldiff (c_flags c) APA_CACHE_FLAG_DIRTY) (upd_header h c)]> (cacheBuf w)) (with_ata (issue 1 (ata w)) w)).
Proof.
  intros Hd Ha Hc Hl Ed Hh (O1 & O2 & O3) [R1 R2]. pose proof (lookup_lt_Some _ _ _ Hc) as Hlt.
  unfold apaCacheTransfer. erewrite bind_Done by (by apply cget_Done). change (nz APA_IO_MODE_READ) with false. cbv iota.
  rewrite Ed. unfold apaReadHeader. unfold bind at 1. unfold bind at 1. rewrite (cache_io_read w dv i c) by done.
  rewrite (read_hdr dv (c_sector c) h) by done. set (w1 := with_cache _ _).
  assert (Hc1 : cacheBuf w1 !! i = Some (upd_header h c)) by (by apply list_lookup_insert_eq).
  unfold bind at 1. rewrite (header_Done w1 i _ Hc1). cbn [upd_header c_header]. change (nz 0) with false. cbv iota.
  rewrite R1, Z.eqb_refl, O3, Z.eqb_refl. cbn [negb].
  assert (E : forall (m : M world Z), (m = (if c_sector c =? APA_SECTOR_MBR
    then if strneq (h_mbr_magic h) apaMBRMagic 32 then ret 0 else ret (- EIO) else ret 0)) -> m w1 = Done 0 w1).
  { intros m ->. destruct (Z.eqb_spec (c_sector c) APA_SECTOR_MBR) as [E|]; [|done]. by rewrite R2. }
  rewrite (E _ eq_refl). unfold bind, when, ret. cbn [nz andb negb Z.eqb]. rewrite (cmod_Done w1 i _ _ Hc1).
  unfold w1, with_cache, with_ata. simpl. by rewrite list_insert_insert_eq.
Qed.

(** The entry a miss leaves, and the list of entries with it. *)
Lemma fresh_fields c c1 s : 0 <= dv < 2 ^ 31 -> is_u32 s -> strip c1 = strip (fresh_entry dv s c) ->
  c_flags c1 = 0 /\ c_nused c1 = 1 /\ c_device c1 = dv /\ c_sector c1 = s /\ c_header c1 = c_header c.
Proof.
  intros Hd Hs H. injection H as E1 E2 E3 E4 E5. rewrite E1, E2, E3, E4, E5. simpl.
  rewrite s32_small, u32_small by done. done.
Qed.

Lemma strip_twice (cs cs' : list apa_cache_t) i x y : same_data (<[i := x]> cs) cs' ->
  strip <$> <[i := y]> cs' = <[i := strip y]> (strip <$> cs).
Proof. intros HS. rewrite strip_insert, HS, strip_insert. apply list_insert_insert_eq. Qed.

Lemma tab_unbuffered V P D U w s : tab dv K d0 V P D U w -> ~ buffered dv (strip <$> cacheBuf w) s -> s ∉ P ∪ D.
Proof.
  intros T Hb [i Hi]%(t_held _ _ _ _ _ _ _ _ _ (t_tabs _ _ _ _ _ _ _ _ T)). apply Hb.
  destruct (t_used _ _ _ _ _ _ _ _ _ (t_tabs _ _ _ _ _ _ _ _ T) _ _ Hi) as (Hi0 & c & Hc). by exists i, c.
Qed.

Lemma wp_get V P D U w s h Q : tab dv K d0 V P D U w -> V !! s = Some h -> Z.of_nat (length U) < cacheSize w ->
  (forall i w', tab dv K d0 V P D ((i, s) :: U) w' -> kept w w' -> Q (Some i, 0) w') ->
  wp (apaCacheGetHeader dv s APA_IO_MODE_READ) w Q.
Proof.
  intros T HV HU HQ. destruct (t_cache _ _ _ _ _ _ _ _ T) as [l I]. pose proof (t_tabs _ _ _ _ _ _ _ _ T) as TT.
  destruct (cache_find dv s (cache_indices w) (cacheBuf w)) as [i|] eqn:Ef.
  - destruct (tab_hit _ _ _ _ _ _ _ APA_IO_MODE_READ _ T I Ef HU) as (w' & E & T' & Hk). eapply wp_Done; [exact E|]. by apply HQ.
  - pose proof (find_not_buffered _ _ _ I Ef) as Hb. pose proof (tab_free_buffer _ _ _ _ _ _ T I HU) as Hl.
    destruct l as [|i l]; [done|]. destruct (t_place _ _ _ _ _ _ _ _ _ TT s h HV) as [Hp Hh].
    destruct (ring_members _ _ i (proj1 (proj2 I))) as [Hi0 [c Hc]]; [left|].
    assert (Hu : is_u32 s) by (destruct Hp as [Ha _]; unfold addressable in Ha; unfold is_u32; lia).
    destruct (getHeader_miss w i l c dv s APA_IO_MODE_READ I (t_dev _ _ _ _ _ _ _ _ T) Hu Ef Hc) as (cs' & c1 & E & I' & Hc1 & Hs1 & HS).
    eapply wp_eq; [exact E|]. cbv beta. change (negb (nz APA_IO_MODE_READ)) with true. cbv iota.
    destruct (fresh_fields _ _ _ (t_dev _ _ _ _ _ _ _ _ T) Hu Hs1) as (E1 & E2 & E3 & E4 & E5).
    destruct (t_view _ _ _ _ _ _ _ _ _ TT s h HV) as [Ho|]; [|done].
    assert (Hr : readable s h) by (eapply TT; [exact HV|]; pose proof (tab_unbuffered _ _ _ _ _ _ T Hb); set_solver).
    assert (Hlc : hdr_len c1) by (unfold hdr_len; rewrite E5; by eapply (bi_header _ _ (proj2 (proj2 I)) i c)).
    pose proof (read_ok (with_cache cs' w) i c1 h (t_drive _ _ _ _ _ _ _ _ T)) as ER. rewrite E4 in ER.
    apply wp_bind. eapply wp_Done; [apply ER; try done; apply Hp|]. change (0 <? 0) with false. cbv iota. apply wp_ret.
    set (y := upd_flags _ _). apply HQ; [|by split].
    destruct T as [T1 T2 T3 T4 T5 T6 T7]. split; simpl; try done.
    + exists l. by eapply (inv_header (with_cache cs' w) l i c1 y).
    + simpl. rewrite (strip_twice _ _ _ _ _ HS). apply (tabs_ata _ _ _ _ (ata w)); [done|done|].
      assert (HV' : <[s := h]> V = V) by (by apply insert_id). rewrite <- HV'.
      eapply (tabs_map dv K d0 V P D U (ata w) _ i (strip c) (strip y) s P); simpl; try done.
      * by rewrite list_lookup_fmap, Hc.
      * apply (bi_free _ _ (proj2 (proj2 I)) i c Hi0 Hc). left.
      * unfold dirty. simpl. by rewrite E1.
      * by right.
Qed.

(** For writing, the header is not read. *)
Lemma wp_get_write V P D U w s Q : tab dv K d0 V P D U w -> place dv (ata w) s -> Z.of_nat (length U) < cacheSize w ->
  (forall i h w', length h = 256%nat -> tab dv K d0 (<[s := h]> V) (P ∪ {[s]}) D ((i, s) :: U) w' -> kept w w' -> Q (Some i, 0) w') ->
  wp (apaCacheGetHeader dv s APA_IO_MODE_WRITE) w Q.
Proof.
  intros T Hp HU HQ. destruct (t_cache _ _ _ _ _ _ _ _ T) as [l I]. pose proof (t_tabs _ _ _ _ _ _ _ _ T) as TT.
  destruct (cache_find dv s (cache_indices w) (cacheBuf w)) as [i|] eqn:Ef.
  - destruct (tab_hit _ _ _ _ _ _ _ APA_IO_MODE_WRITE _ T I Ef HU) as (w' & E & T' & Hk). eapply wp_Done; [exact E|].
    destruct (tab_entry _ _ _ _ _ i s T' ltac:(left)) as (Hi & c & Hc & Ed & Es & EV & Hl & Hn).
    destruct (t_cache _ _ _ _ _ _ _ _ T') as [l' I']. apply (HQ i (c_header c)); [done| |done].
    rewrite <- (with_cache_id w'). eapply tab_with_cache; [exact T'|by rewrite with_cache_id|].
    assert (Hcs : (strip <$> cacheBuf w') !! i = Some (strip c)) by (by rewrite list_lookup_fmap, Hc).
    rewrite <- (list_insert_id _ _ _ Hcs).
    eapply (tabs_header dv K d0 V P D _ (ata w') _ i s (strip c) (c_header c)); [apply T'|by eapply tab_one|left|done|done].
  - pose proof (find_not_buffered _ _ _ I Ef) as Hb. pose proof (tab_free_buffer _ _ _ _ _ _ T I HU) as Hl.
    destruct l as [|i l]; [done|].
    destruct (ring_members _ _ i (proj1 (proj2 I))) as [Hi0 [c Hc]]; [left|].
    assert (Hu : is_u32 s) by (destruct Hp as [Ha _]; unfold addressable in Ha; unfold is_u32; lia).
    destruct (getHeader_miss w i l c dv s APA_IO_MODE_WRITE I (t_dev _ _ _ _ _ _ _ _ T) Hu Ef Hc) as (cs' & c1 & E & I' & Hc1 & Hs1 & HS).
    eapply wp_eq; [exact E|]. cbv beta. change (negb (nz APA_IO_MODE_WRITE)) with false. cbv iota. apply wp_ret.
    destruct (fresh_fields _ _ _ (t_dev _ _ _ _ _ _ _ _ T) Hu Hs1) as (E1 & E2 & E3 & E4 & E5).
    assert (Hlc : hdr_len c1) by (unfold hdr_len; rewrite E5; by eapply (bi_header _ _ (proj2 (proj2 I)) i c)).
    apply (HQ i (c_header c1)); [done| |done]. eapply tab_with_cache; [exact T|exact I'|].
    rewrite <- (list_insert_id _ _ _ Hc1), (strip_twice _ _ _ _ _ HS).
    eapply (tabs_map dv K d0 V P D U (ata w) _ i (strip c) (strip c1) s); simpl; try done.
    + by rewrite list_lookup_fmap, Hc.
    + apply (bi_free _ _ (proj2 (proj2 I)) i c Hi0 Hc). left.
    + unfold dirty. simpl. by rewrite E1.
    + by left.
Qed.

(** ** The clock *)

Lemma wp_time V P D U w Q : tab dv K d0 V P D U w ->
  (forall t w', length t = 2%nat -> tab dv K d0 V P D U w' -> kept w w' -> Q t w') -> wp apaGetTime w Q.
Proof.
  intros T HQ. unfold apaGetTime. apply wp_bind.
  eapply wp_mono; [eapply (wp_for_break _ (fun _ w' => tab dv K d0 V P D U w' /\ kept w w') (fun _ w' => tab dv K d0 V P D U w' /\ kept w w'))|].
  - intros _ _ w1 [T1 K1]. apply wp_bind. eapply wp_Done; [reflexivity|]. apply wp_bind. eapply wp_Done; [reflexivity|].
    assert (T2 : forall t n, length t = 2%nat -> tab dv K d0 V P D U (with_time t n w1) /\ kept w (with_time t n w1)).
    { intros t n Ht. split; [|by transitivity w1]. destruct T1 as [A1 A2 A3 A4 A5 A6 A7]. by split. }
    destruct (sceCdReadClock w1 (nclock w1)) as [rv cd]. destruct (nz rv && _).
    + apply wp_bind. eapply wp_Done; [reflexivity|]. apply wp_ret. simpl. by apply T2.
    + destruct (negb _); apply wp_ret; simpl; apply T2, T1.
  - by split.
  - intros r w1 H. eapply wp_Done; [reflexivity|]. assert (H' : tab dv K d0 V P D U w1 /\ kept w w1) by (by destruct r).
    destruct H' as [T1 K1]. apply HQ; [apply T1|done|done].
Qed.

(** ** Flushing *)

Definition seal (D : gset Z) (V : gmap Z buf) : gmap Z buf :=
  map_imap (fun s h => Some (if decide (s ∈ D) then sealed h else h)) V.

Lemma seal_lookup D V s : seal D V !! s = (fun h => if decide (s ∈ D) then sealed h else h) <$> V !! s.
Proof. unfold seal. rewrite map_lookup_imap. by destruct (V !! s). Qed.

Lemma place_in (R : list record) s : (forall r, r ∈ R -> Z.even r.1 = true) -> s ∈ R.*1 ->
  exists h, (s, h) ∈ R /\ last_write (place_events dv R) (dv, s) = Some (take 128 h) /\
    last_write (place_events dv R) (dv, s + 1) = Some (take 128 (drop 128 h)).
Proof.
  induction R as [|[s0 h0] R IH]; intros He Hs; [by apply elem_of_nil in Hs|].
  assert (He0 : Z.even s0 = true) by (apply (He (s0, h0)); left).
  rewrite place_events_cons, !last_write_app. destruct (decide (s ∈ R.*1)) as [Hin|Hout].
  - destruct IH as (h & Hh & -> & ->); [intros r Hr; apply He; by right|done|]. exists h. split; [by right|done].
  - apply elem_of_cons in Hs as [Hs|Hs]; [|done]. simpl in Hs. subst s0. exists h0. split; [left|].
    assert (Hn : forall k, last_write (place_events dv R) (dv, s + k) = None \/ ~ (k = 0 \/ k = 1)).
    { intros k. destruct (decide (k = 0 \/ k = 1)) as [Hk|]; [left|by right]. clear IH.
      induction R as [|[s1 h1] R IH]; [done|]. rewrite place_events_cons, last_write_app.
      rewrite IH by (try set_solver; intros r Hr; apply He; set_solver). apply last_write_hdr. simpl. intros [_ Hr].
      assert (He1 : Z.even s1 = true) by (apply (He (s1, h1)); set_solver).
      assert (s <> s1) by set_solver. apply Z.even_spec in He0 as [a ->], He1 as [b ->]. lia. }
    destruct (Hn 0) as [E0|]; [|lia]. destruct (Hn 1) as [E1|]; [|lia]. rewrite Z.add_0_r in E0.
    rewrite E0, E1, last_write_hdr_0, last_write_hdr_1. done.
Qed.

Lemma place_out (R : list record) k : (forall s h, (s, h) ∈ R -> k <> (dv, s) /\ k <> (dv, s + 1)) ->
  last_write (place_events dv R) k = None.
Proof.
  induction R as [|[s h] R IH]; intros H; [done|]. rewrite place_events_cons, last_write_app, IH by (intros; apply (H _ h0); by right).
  apply last_write_hdr. destruct (H s h) as [H1 H2]; [left|]. destruct k as [a b]. simpl. intros [-> Hb].
  assert (b = s \/ b = s + 1) as [-> | ->] by lia; done.
Qed.

Lemma records_elem cs idx s h : (s, h) ∈ records dv idx cs <->
  exists i c, i ∈ idx /\ cs !! i = Some c /\ dirty_on dv c = true /\ s = c_sector c /\ h = sealed (c_header c).
Proof.
  unfold records. rewrite list_elem_of_omap. split.
  - intros (i & Hi & E). unfold record_of in E. destruct (cs !! i) as [c|] eqn:Ec; [|done]. destruct (dirty_on dv c) eqn:Ed; [|done].
    injection E as <- <-. by exists i, c.
  - intros (i & c & Hi & Hc & Hd & -> & ->). exists i. split; [done|]. unfold record_of. by rewrite Hc, Hd.
Qed.

Lemma omap_length {A B} (f : A -> option B) l : (length (omap f l) <= length l)%nat.
Proof. induction l as [|x l IH]; [done|]. cbn. destruct (f x); simpl; lia. Qed.

(** The records of a flush are the dirty headers of the view. *)
Lemma tab_records V P D U w : tab dv K d0 V P D U w -> forall s h,
  (s, h) ∈ records dv (cache_indices w) (cacheBuf w) <-> s ∈ D /\ exists h0, V !! s = Some h0 /\ h = sealed h0.
Proof.
  intros T s h. rewrite records_elem. pose proof (t_tabs _ _ _ _ _ _ _ _ T) as TT. destruct (t_cache _ _ _ _ _ _ _ _ T) as [l I]. split.
  - intros (i & c & Hi & Hc & [Hd Ed%Z.eqb_eq]%andb_prop & -> & ->). pose proof (indices_nonzero w i Hi) as Hi0.
    assert (B : buf_ok dv (disk (ata w)) V P D U i (strip c)).
    { eapply (t_buf _ _ _ _ _ _ _ _ _ TT); [done|]. by rewrite list_lookup_fmap, Hc. }
    split; [by apply (b_dirty _ _ _ _ _ _ _ _ B)|]. exists (c_header c). split; [by apply (b_view _ _ _ _ _ _ _ _ B)|done].
  - intros (Hs & h0 & HV & ->). destruct (t_held _ _ _ _ _ _ _ _ _ TT s) as [i Hi]; [set_solver|].
    destruct (tab_entry _ _ _ _ _ _ _ T Hi) as (Hi0 & c & Hc & Ed & Es & EV & _). exists i, c.
    assert (B : buf_ok dv (disk (ata w)) V P D U i (strip c)).
    { eapply (t_buf _ _ _ _ _ _ _ _ _ TT); [done|]. by rewrite list_lookup_fmap, Hc. }
    split_and!; try congruence; [by eapply in_indices|]. unfold dirty_on. rewrite Ed, Z.eqb_refl, andb_true_r.
    apply (b_dirty _ _ _ _ _ _ _ _ B); [done|]. simpl. congruence.
Qed.

Lemma tab_flushable V P D U w : tab dv K d0 V P D U w -> flushable (ata w) dv (cache_indices w) (cacheBuf w).
Proof.
  intros T i Hi. destruct (t_cache _ _ _ _ _ _ _ _ T) as [l I]. pose proof (t_tabs _ _ _ _ _ _ _ _ T) as TT.
  pose proof (indices_nonzero w i Hi) as Hi0. pose proof I as (Hlen & _ & Hd). pose proof Hi as Hi'. apply elem_of_seq in Hi'.
  destruct (lookup_lt_is_Some_2 (cacheBuf w) i) as [c Hc]; [lia|]. exists c. split; [done|].
  intros [_ Ed%Z.eqb_eq]%andb_prop. split; [by eapply (bi_header _ _ Hd i c)|].
  assert (B : buf_ok dv (disk (ata w)) V P D U i (strip c)).
  { eapply (t_buf _ _ _ _ _ _ _ _ _ TT); [done|]. by rewrite list_lookup_fmap, Hc. }
  apply (t_place _ _ _ _ _ _ _ _ _ TT _ _ (b_view _ _ _ _ _ _ _ _ B Ed)).
Qed.

(** The media after a flush. *)
Lemma flush_disk V D U w st : tab dv K d0 V ∅ D U w ->
  agree dv (disk st) (new_image dv (disk (ata w)) (records dv (cache_indices w) (cacheBuf w))) ->
  (forall s h, V !! s = Some h -> s ∈ D -> on_disk dv (disk st) s (sealed h)) /\
  (forall s h, V !! s = Some h -> s ∉ D -> on_disk dv (disk (ata w)) s h -> on_disk dv (disk st) s h) /\
  (forall k, ~ in_journal dv k -> (forall s, s ∈ K -> k <> (dv, s) /\ k <> (dv, s + 1)) -> disk st !! k = disk (ata w) !! k).
Proof.
  intros T HA. set (R := records _ _ _) in *. pose proof (tab_records _ _ _ _ _ T) as HR. fold R in HR.
  pose proof (t_tabs _ _ _ _ _ _ _ _ T) as TT. unfold new_image in HA.
  assert (He : forall r, r ∈ R -> Z.even r.1 = true).
  { intros [s h] Hr. apply HR in Hr as (_ & h0 & HV & _). apply (t_place _ _ _ _ _ _ _ _ _ TT) in HV as [(_ & Hu & _) _]. by apply unit_even. }
  assert (Hj : forall s h k, V !! s = Some h -> k = s \/ k = s + 1 -> ~ in_journal dv (dv, k)).
  { intros s h k HV Hk [_ Hin]. apply (t_place _ _ _ _ _ _ _ _ _ TT) in HV as [(_ & _ & Hc) _].
    unfold clear_of_journal, APA_SECTOR_APAL, APA_SECTOR_APAL_HEADERS in *. simpl in Hin. lia. }
  split_and!.
  - intros s h HV Hs. destruct (place_in R s He) as (h' & Hh' & E0 & E1).
    { apply list_elem_of_fmap. exists (s, sealed h). split; [done|]. apply HR. eauto. }
    apply HR in Hh' as (_ & h0 & HV0 & ->). rewrite HV in HV0. injection HV0 as <-. split_and!.
    + rewrite HA, replay_lookup, E0 by (eapply Hj; eauto). done.
    + rewrite HA, replay_lookup, E1 by (eapply Hj; eauto). done.
    + apply checksum_sealed. apply (t_place _ _ _ _ _ _ _ _ _ TT) in HV as [_ ->]. lia.
  - intros s h HV Hs (O1 & O2 & O3). apply (t_place _ _ _ _ _ _ _ _ _ TT) in HV as Hp. destruct Hp as [(_ & Hse%unit_even & _) _].
    assert (Hout : forall k, k = s \/ k = s + 1 -> last_write (place_events dv R) (dv, k) = None).
    { intros k Hk. apply place_out. intros s' h' Hr. pose proof (He _ Hr) as He'. simpl in He'. apply HR in Hr as [Hs' _].
      assert (s' <> s) by congruence. apply Z.even_spec in Hse as [a ->], He' as [b ->]. split; intros [= E]; lia. }
    split_and!; [..|done]; rewrite HA, replay_lookup, Hout; eauto.
  - intros k Hk Hd. rewrite HA, replay_lookup, place_out; [done| |done]. intros s h Hr. apply HR in Hr as (Hs & _).
    apply Hd. by apply (t_in _ _ _ _ _ _ _ _ _ TT).
Qed.

(** Entries changed in header and flags only. *)
Definition same_slot (c c' : apa_cache_t) : Prop :=
  c_next c' = c_next c /\ c_tail c' = c_tail c /\ c_nused c' = c_nused c /\ c_device c' = c_device c /\
  c_sector c' = c_sector c /\ (hdr_len c -> hdr_len c').

Lemma same_slots_inv w cs' l : cache_inv w l -> length cs' = length (cacheBuf w) ->
  (forall i c', cs' !! i = Some c' -> exists c, cacheBuf w !! i = Some c /\ same_slot c c') -> cache_inv (with_cache cs' w) l.
Proof.
  intros (Hlen & [Hn Hr] & Hd) HL HS.
  assert (Hx : forall i, nxt cs' i = nxt (cacheBuf w) i /\ prv cs' i = prv (cacheBuf w) i).
  { intros i. unfold nxt, prv. destruct (cs' !! i) as [c'|] eqn:E'.
    - destruct (HS i c' E') as (c & -> & E1 & E2 & _). simpl. by rewrite E1, E2.
    - apply lookup_ge_None in E'. rewrite HL in E'. apply lookup_ge_None in E'. by rewrite E'. }
  split; [by simpl; rewrite HL|]. split.
  - split; [done|]. eapply Forall_impl; [exact Hr|]. intros e. unfold link. simpl.
    by rewrite (proj1 (Hx e.1)), (proj2 (Hx e.2)).
  - destruct Hd as [D1 D2 D3 D4]. split; simpl.
    + intros i c' Hi Hc'. destruct (HS i c' Hc') as (c & Hc & _ & _ & -> & _). by apply D1.
    + intros i c' Hi Hc'. destruct (HS i c' Hc') as (c & Hc & _ & _ & -> & _). by apply (D2 i c).
    + intros i c' Hi Hc'. destruct (HS i c' Hc') as (c & Hc & _ & _ & _ & _ & _ & Hh). apply Hh. by apply (D3 i c).
    + intros i j c' x' Hi Hj Hc' Hx' Hm E1 E2.
      destruct (HS i c' Hc') as (c & Hc & _ & _ & _ & F1 & F2 & _), (HS j x' Hx') as (x & Hx0 & _ & _ & _ & F3 & F4 & _).
      unfold mapped in Hm. eapply (D4 i j c x); try done; unfold mapped; congruence.
Qed.

(** What a flush does to an entry. *)
Definition flush_entry (c : apa_cache_t) : apa_cache_t := if dirty_on dv c then clean_entry (seal_entry c) else c.

Lemma flushed_lookup w l i c' : cache_inv w l -> flushed dv (cache_indices w) (cacheBuf w) !! i = Some c' ->
  exists c, cacheBuf w !! i = Some c /\ (i <> 0%nat -> c' = flush_entry c) /\ (i = 0%nat -> c' = c).
Proof.
  intros I H. unfold flushed in H. pose proof (NoDup_seq 1 (Z.to_nat (cacheSize w))) as Hn.
  destruct (decide (i ∈ cache_indices w)) as [Hi|Hi].
  - rewrite !all_dirty_lookup in H by done. destruct (cacheBuf w !! i) as [c|]; [|done]. simpl in H. injection H as <-.
    exists c. split; [done|]. split; [intros _|intros ->; by apply indices_nonzero in Hi].
    unfold flush_entry. destruct (dirty_on dv c) eqn:E; [|by rewrite E]. by rewrite dirty_on_seal, E.
  - rewrite !all_dirty_lookup_ne in H by done. exists c'. split; [done|]. split; [|done]. intros Hi0. exfalso. apply Hi. by eapply in_indices.
Qed.

Lemma flush_entry_slot c : same_slot c (flush_entry c).
Proof.
  unfold flush_entry, same_slot, hdr_len. destruct (dirty_on dv c); [|by split_and!]. simpl. split_and!; try done.
  by rewrite length_sealed.
Qed.

Lemma flush_entry_strip c : strip (flush_entry c) = flush_entry (strip c).
Proof. unfold flush_entry. change (dirty_on dv (strip c)) with (dirty_on dv c). by destruct (dirty_on dv c). Qed.

Lemma flush_entry_clean c : (dirty c = true -> c_device c = dv) -> dirty (flush_entry c) = false.
Proof.
  unfold flush_entry. destruct (dirty_on dv c) eqn:E.
  - intros _. pose proof (clean_not_dirty (c_device c) (seal_entry c)) as H. unfold dirty_on in H. simpl in H.
    by rewrite Z.eqb_refl, andb_true_r in H.
  - intros Hd. unfold dirty_on in E. destruct (dirty c); [|done]. rewrite Hd, Z.eqb_refl in E by done. done.
Qed.

Lemma readable_sealed s h : length h = 256%nat -> readable s h -> readable s (sealed h).
Proof.
  intros Hl [H1 H2]. unfold readable, sealed, set_checksum, h_magic, h_mbr_magic, words_at in *.
  rewrite get32_set32_ne by done. split; [done|]. intros Hs. specialize (H2 Hs). unfold set32. by rewrite drop_insert_lt by lia.
Qed.

Lemma tabs_flushed V D U st st' cs cs' : tabs dv K d0 V ∅ D U st cs -> lba48 st' = lba48 st ->
  (forall s h, V !! s = Some h -> s ∈ D -> on_disk dv (disk st') s (sealed h)) ->
  (forall s h, V !! s = Some h -> s ∉ D -> on_disk dv (disk st) s h -> on_disk dv (disk st') s h) ->
  (forall k, ~ in_journal dv k -> (forall s, s ∈ K -> k <> (dv, s) /\ k <> (dv, s + 1)) -> disk st' !! k = disk st !! k) ->
  (forall i, i <> 0%nat -> cs' !! i = flush_entry <$> cs !! i) ->
  tabs dv K d0 (seal D V) ∅ ∅ U st' cs'.
Proof.
  intros T El H1 H2 H3 HB.
  assert (Hslot : forall i c, i <> 0%nat -> cs !! i = Some c -> cs' !! i = Some (flush_entry c) /\
    c_device (flush_entry c) = c_device c /\ c_sector (flush_entry c) = c_sector c).
  { intros i c Hi Hc. rewrite HB, Hc by done. destruct (flush_entry_slot c) as (_ & _ & _ & E1 & E2 & _). done. }
  split.
  - intros i x Hi Hx. rewrite HB in Hx by done. destruct (cs !! i) as [c|] eqn:Hc; [|done]. injection Hx as <-.
    pose proof (t_buf _ _ _ _ _ _ _ _ _ T i c Hi Hc) as B. destruct (flush_entry_slot c) as (_ & _ & E1 & E2 & E3 & _).
    pose proof (flush_entry_clean c (b_dirty_dev _ _ _ _ _ _ _ _ B)) as Hcl.
    assert (Hh : c_device c = dv -> c_header (flush_entry c) = if decide (c_sector c ∈ D) then sealed (c_header c) else c_header c).
    { intros Hd. pose proof (b_dirty _ _ _ _ _ _ _ _ B Hd) as Hdd. unfold flush_entry, dirty_on. rewrite Hd, Z.eqb_refl, andb_true_r.
      destruct (dirty c), (decide (c_sector c ∈ D)); simpl; try done; exfalso; naive_solver. }
    split; rewrite ?E1, ?E2, ?E3, ?Hcl; try done.
    + apply B.
    + intros Hd. rewrite seal_lookup, (b_view _ _ _ _ _ _ _ _ B Hd), Hh by done. done.
    + intros Hd _. rewrite (Hh Hd). pose proof (b_view _ _ _ _ _ _ _ _ B Hd) as HV.
      case_decide as HD; [by apply H1|]. apply H2; [done|done|]. apply B; [done|set_solver].
  - intros i s Hin. destruct (t_used _ _ _ _ _ _ _ _ _ T _ _ Hin) as (Hi & c & Hc & Ed & Es). split; [done|].
    destruct (Hslot i c Hi Hc) as (Hc' & E1 & E2). exists (flush_entry c). split_and!; congruence.
  - set_solver.
  - intros s h. rewrite seal_lookup. destruct (V !! s) as [h0|] eqn:HV; [|done]. intros [= <-].
    destruct (t_place _ _ _ _ _ _ _ _ _ T s h0 HV) as [Hp Hl]. split; [unfold place, addressable in *; by rewrite El|].
    case_decide; [by rewrite length_sealed|done].
  - intros s h. rewrite seal_lookup. destruct (V !! s) as [h0|] eqn:HV; [|done]. intros [= <-] _.
    pose proof (t_read _ _ _ _ _ _ _ _ _ T s h0 HV ltac:(set_solver)) as Hr.
    case_decide; [|done]. apply readable_sealed; [|done]. by eapply T.
  - intros s h. rewrite seal_lookup. destruct (V !! s) as [h0|] eqn:HV; [|done]. intros [= <-].
    case_decide as HD; [left; by apply H1|]. destruct (t_view _ _ _ _ _ _ _ _ _ T s h0 HV) as [Ho|(i & c & Hi & Hc & Ed & Es)].
    + left. by apply H2.
    + right. destruct (Hslot i c Hi Hc) as (Hc' & E1 & E2). exists i, (flush_entry c). split_and!; congruence.
  - set_solver.
  - intros k Hk Hd. rewrite H3 by done. by apply T.
Qed.

Lemma wp_flush V D U w Q : tab dv K d0 V ∅ D U w ->
  (forall w', tab dv K d0 (seal D V) ∅ ∅ U w' -> kept w w' -> Q 0 w') -> wp (apaCacheFlushAllDirty dv) w Q.
Proof.
  intros T HQ. destruct (t_cache _ _ _ _ _ _ _ _ T) as [l I]. pose proof (t_tabs _ _ _ _ _ _ _ _ T) as TT.
  pose proof (tab_records _ _ _ _ _ T) as HR.
  assert (HL : (length (records dv (cache_indices w) (cacheBuf w)) <= 126)%nat).
  { unfold records. etransitivity; [apply omap_length|]. unfold cache_indices. rewrite length_seq. pose proof (t_size _ _ _ _ _ _ _ _ T). lia. }
  assert (HC : Forall (fun r : record => clear_of_journal r.1) (records dv (cache_indices w) (cacheBuf w))).
  { apply Forall_forall. intros [s h] Hr. apply HR in Hr as (_ & h0 & HV & _).
    by apply (t_place _ _ _ _ _ _ _ _ _ TT) in HV as [(_ & _ & ?) _]. }
  destruct (apaCacheFlushAllDirty_ok w dv (t_drive _ _ _ _ _ _ _ _ T) (proj1 (t_dev _ _ _ _ _ _ _ _ T)) (tab_flushable _ _ _ _ _ T)
    (t_journal _ _ _ _ _ _ _ _ T) HL) as (st & E & L).
  destruct (flush_image dv (disk (ata w)) _ HL HC) as [_ HA]. pose proof L as (_ & Ed & _ & El). rewrite <- Ed in HA.
  destruct (flush_disk _ _ _ _ _ T HA) as (H1 & H2 & H3). eapply wp_Done; [exact E|]. apply HQ; [|by split].
  assert (HS : sectors_ok (flush_events dv (records dv (cache_indices w) (cacheBuf w)))).
  { pose proof (records_lengths _ _ _ _ (tab_flushable _ _ _ _ _ T)) as HRl. unfold flush_events, sectors_ok.
    rewrite !Forall_app. split_and!; [by apply journal_events_ok|apply commit_events_ok|by apply place_events_ok|by apply commit_events_ok].
    apply length_journal_image. by rewrite length_fmap. }
  destruct T as [T1 T2 T3 T4 T5 T6 _]. split; try done.
  - exists l. apply (same_slots_inv w); [done|unfold flushed; by rewrite !length_all_dirty|].
    intros i c' Hc'. destruct (flushed_lookup _ _ _ _ I Hc') as (c & Hc & F1 & F2). exists c. split; [done|].
    destruct (decide (i = 0%nat)) as [Hi|Hi]; [rewrite (F2 Hi); by split_and!|]. rewrite (F1 Hi). apply flush_entry_slot.
  - by eapply logs_drive_ok.
  - simpl. apply (tabs_flushed V D U (ata w) st (strip <$> cacheBuf w)); try done. intros i Hi. rewrite !list_lookup_fmap.
    destruct (flushed _ _ _ !! i) as [c'|] eqn:Hc'.
    + destruct (flushed_lookup _ _ _ _ I Hc') as (c & -> & F1 & _). simpl. by rewrite (F1 Hi), flush_entry_strip.
    + apply lookup_ge_None in Hc'. unfold flushed in Hc'. rewrite !length_all_dirty in Hc'. apply lookup_ge_None in Hc'. by rewrite Hc'.
Qed.
End Ops.
