(* ===== verification/ApaChain.v ===== *)
(** * ApaChain: the ring of partition headers

    The partitions of a drive follow each other from sector 0 without gaps, and
    their headers are linked both ways into a ring through the master boot
    record.  A partition is given by its header without the checksum, the magic
    and the links ([content]); [chain V l] says that the view [V] of ApaTable
    links the partitions [l].  Splitting a free block in halves acts on the
    list. *)

From stdpp Require Import base numbers list gmap sets.
From Stdlib Require Import ZArith Lia.
From S2P Require Import Prelude Ata ApaState ApaCache ApaFacts ApaPart ApaTable ApaTableOps.

Open Scope Z_scope.
Open Scope c_scope.

(** ** Headers *)

Definition content (h : buf) : buf := drop 4 h.
Definition k_start (c : buf) : Z := get32 c 12.
Definition k_length (c : buf) : Z := get32 c 13.
Definition k_type (c : buf) : Z := get16 c 14 0.

Lemma get32_content h i : get32 (content h) i = get32 h (4 + i).
Proof. unfold content. rewrite !get32_lookup. by rewrite lookup_drop. Qed.
Lemma k_start_content h : k_start (content h) = h_start h.
Proof. apply get32_content. Qed.
Lemma k_length_content h : k_length (content h) = h_length h.
Proof. apply get32_content. Qed.
Lemma k_type_content h : k_type (content h) = h_type h.
Proof. unfold k_type, h_type, get16. by rewrite get32_content. Qed.

Lemma content_low i v h : (i < 4)%nat -> content (set32 i v h) = content h.
Proof. intros Hi. unfold content, set32. by apply drop_insert_lt. Qed.
Lemma content_next v h : content (set_next v h) = content h.
Proof. by apply content_low; lia. Qed.
Lemma content_prev v h : content (set_prev v h) = content h.
Proof. by apply content_low; lia. Qed.
Lemma content_sealed h : content (sealed h) = content h.
Proof. by apply content_low; lia. Qed.

(** The links of a header, and what a store does to them. *)
Lemma next_sealed h : h_next (sealed h) = h_next h.
Proof. by apply get32_set32_ne. Qed.
Lemma prev_sealed h : h_prev (sealed h) = h_prev h.
Proof. by apply get32_set32_ne. Qed.

Create Rewrite HintDb hdr_db.
#[export] Hint Rewrite content_next content_prev content_sealed next_sealed prev_sealed : hdr_db.

(** ** Chains *)

Definition first_start (l : list buf) (next : Z) : Z := match l with [] => next | c :: _ => k_start c end.
Definition last_start (prev : Z) (l : list buf) : Z := match last l with None => prev | Some c => k_start c end.

(** The header of partition [c], with its links. *)
Definition linked_at (V : gmap Z buf) (c : buf) (prev next : Z) : Prop :=
  exists h, V !! k_start c = Some h /\ content h = c /\ h_prev h = prev /\ h_next h = next.

Fixpoint seg (V : gmap Z buf) (prev : Z) (l : list buf) (next : Z) : Prop :=
  match l with
  | [] => True
  | c :: l' => linked_at V c prev (first_start l' next) /\ seg V (k_start c) l' next
  end.

(** The partitions fill the sectors from [a] to [z]. *)
Fixpoint area (a : Z) (l : list buf) (z : Z) : Prop :=
  match l with
  | [] => a = z
  | c :: l' => k_start c = a /\ 0 < k_length c /\ area (a + k_length c) l' z
  end.

(** The ring: closed, without gaps, up to sector [z]. *)
Definition chain (V : gmap Z buf) (l : list buf) (z : Z) : Prop :=
  l <> [] /\ area 0 l z /\ seg V (last_start 0 l) l 0.

Lemma first_start_app l1 l2 n : first_start (l1 ++ l2) n = first_start l1 (first_start l2 n).
Proof. by destruct l1. Qed.
Lemma last_start_app p l1 l2 : last_start p (l1 ++ l2) = last_start (last_start p l1) l2.
Proof. unfold last_start. rewrite last_app. by destruct (last l2), (last l1). Qed.
Lemma last_start_cons p c l : last_start p (c :: l) = last_start (k_start c) l.
Proof. apply (last_start_app p [c] l). Qed.

Lemma seg_cat V p l1 l2 n : seg V p (l1 ++ l2) n <-> seg V p l1 (first_start l2 n) /\ seg V (last_start p l1) l2 n.
Proof.
  revert p. induction l1 as [|c l1 IH]; intros p; [simpl; tauto|]. rewrite last_start_cons. simpl.
  rewrite IH, first_start_app. tauto.
Qed.

Lemma area_app a l1 l2 z : area a (l1 ++ l2) z <-> exists m, area a l1 m /\ area m l2 z.
Proof.
  revert a. induction l1 as [|c l1 IH]; intros a; simpl; [naive_solver|]. rewrite IH. naive_solver.
Qed.

Lemma area_le a l z : area a l z -> a <= z.
Proof. revert a. induction l as [|c l IH]; intros a; simpl; [lia|]. intros (_ & H & H2). apply IH in H2. lia. Qed.

Lemma area_in a l z c : area a l z -> c ∈ l -> a <= k_start c /\ k_start c + k_length c <= z /\ 0 < k_length c.
Proof.
  revert a. induction l as [|x l IH]; intros a; [by intros _ H%elem_of_nil|]. intros (H1 & H2 & H3) Hc.
  pose proof (area_le _ _ _ H3). apply elem_of_cons in Hc as [->|Hc]; [lia|]. apply (IH _ H3) in Hc. lia.
Qed.

(** Headers of other partitions do not matter. *)
Lemma seg_frame V V' p l n : seg V p l n -> (forall c, c ∈ l -> V' !! k_start c = V !! k_start c) -> seg V' p l n.
Proof.
  revert p. induction l as [|c l IH]; intros p; [done|]. intros [(h & H1 & H2) H3] HV. split.
  - exists h. split; [|done]. rewrite HV; [done|left].
  - apply IH; [done|]. intros c' Hc'. apply HV. by right.
Qed.

(** The first partition with another link back. *)
Lemma seg_prev V V' p p' c l n h h' : seg V p (c :: l) n -> V !! k_start c = Some h -> V' !! k_start c = Some h' ->
  content h' = content h -> h_next h' = h_next h -> h_prev h' = p' -> (forall x, x ∈ l -> V' !! k_start x = V !! k_start x) ->
  seg V' p' (c :: l) n.
Proof.
  intros [(h0 & E0 & E1 & E2 & E3) H] HV HV' Hc Hn Hp HF. rewrite HV in E0. injection E0 as <-. split.
  - exists h'. split_and!; congruence.
  - by eapply seg_frame.
Qed.

(** ** A block cut in two *)

Lemma chain_split V V' pre b post z b' e hb hb' he hn hn' (n := first_start post 0) :
  chain V (pre ++ b :: post) z -> pre <> [] ->
  V !! k_start b = Some hb -> V !! n = Some hn ->
  k_start b' = k_start b -> 0 < k_length b' < k_length b -> k_start e = k_start b + k_length b' ->
  k_length e = k_length b - k_length b' ->
  V' !! k_start b = Some hb' -> content hb' = b' -> h_prev hb' = h_prev hb -> h_next hb' = k_start e ->
  V' !! k_start e = Some he -> content he = e -> h_prev he = k_start b -> h_next he = h_next hb ->
  V' !! n = Some hn' -> content hn' = content hn -> h_next hn' = h_next hn -> h_prev hn' = k_start e ->
  (forall s, s <> k_start b -> s <> k_start e -> s <> n -> V' !! s = V !! s) ->
  chain V' (pre ++ b' :: e :: post) z.
Proof.
  intros (_ & HA & HS) Hpre Hb Hn Eb Lb Ee Le Vb Cb Pb Nb Ve Ce Pe Ne Vn Cn Nn Pn HO.
  apply area_app in HA as (m & HA1 & Em & Hl & HA2). simpl in Em.
  apply seg_cat in HS as [HS1 HS2]. simpl in HS1. destruct HS2 as [(hb0 & Eb0 & Eb1 & Eb2 & Eb3) HS2].
  rewrite Hb in Eb0. injection Eb0 as <-.
  split; [by destruct pre|]. split.
  { apply area_app. exists m. split; [done|]. simpl. split_and!; try lia.
    replace (m + k_length b' + k_length e) with (m + k_length b) by lia. done. }
  assert (Hpos : forall c, c ∈ pre -> k_start c <> k_start b /\ k_start c <> k_start e).
  { intros c Hc. apply (area_in _ _ _ _ HA1) in Hc. lia. }
  assert (Hpost : forall c, c ∈ post -> k_start c <> k_start b /\ k_start c <> k_start e /\ (0 <= m -> k_start c <> 0)).
  { intros c Hc. apply (area_in _ _ _ _ HA2) in Hc. lia. }
  pose proof (area_le _ _ _ HA1) as Hm.
  assert (Hmid : forall p, h_prev hb = p -> seg V' p [b'; e] n).
  { intros p Hp. simpl. split; [|split; [|done]].
    - exists hb'. rewrite Eb. simpl in Pb. split_and!; congruence.
    - exists he. rewrite Eb. split_and!; try congruence. by rewrite Ne, Eb3. }
  apply seg_cat. destruct post as [|c1 post].
  - destruct pre as [|m0 pre]; [done|]. destruct HA1 as (Em0 & Lm0 & HA1). simpl in n. subst n. rewrite <- Em0 in Hn, Vn, HO.
    assert (El : last_start 0 ((m0 :: pre) ++ [b'; e]) = k_start e) by (rewrite last_start_app; done).
    assert (El0 : last_start 0 ((m0 :: pre) ++ [b]) = k_start b) by (rewrite last_start_app; done).
    rewrite El. rewrite El0 in HS1, Eb2. rewrite last_start_cons in Eb2 |- *. split.
    + cbn [first_start]. rewrite Eb. eapply (seg_prev V V' _ _ m0 pre _ hn hn'); try done.
      intros x Hx. apply HO; [apply Hpos; by right|apply Hpos; by right|]. intros E. apply (area_in _ _ _ _ HA1) in Hx. lia.
    + apply Hmid. done.
  - assert (El : last_start 0 (pre ++ b' :: e :: c1 :: post) = last_start 0 (pre ++ b :: c1 :: post)) by (by rewrite !last_start_app, !last_start_cons).
    rewrite El. split.
    + simpl. rewrite Eb. eapply seg_frame; [exact HS1|]. intros c Hc. apply HO; [apply Hpos, Hc..|].
      destruct HA2 as [E1 _]. simpl. apply (area_in _ _ _ _ HA1) in Hc. subst n. simpl. lia.
    + apply (seg_cat V' _ [b'; e] (c1 :: post)). split; [by apply Hmid|]. rewrite last_start_cons. simpl.
      eapply (seg_prev V V' _ _ c1 post 0 hn hn'); try done. intros x Hx. apply HO.
      * apply Hpost. by right.
      * apply Hpost. by right.
      * destruct HA2 as (E1 & L1 & HA2). apply (area_in _ _ _ _ HA2) in Hx. subst n. simpl. lia.
Qed.
