(* ===== verification/ApaSplit.v ===== *)
(** * ApaSplit: putting a partition into a free block

    [apaInsertPartition] halves a free block until it has the size asked for
    and fills the header of the first part: on the view of ApaTable, and so on
    the media, the ring of partitions gets the new partition and one free block
    for every halving. *)

From stdpp Require Import base numbers list gmap sets.
From Stdlib Require Import ZArith Lia.
From S2P Require Import Prelude Ata ApaState ApaCache ApaFacts Crash ApaCrash ApaPart ApaTable ApaTableOps ApaChain.

Open Scope Z_scope.
Open Scope c_scope.

(** ** Headers written field by field *)

Lemma length_h_id h : length h = 256%nat -> length (h_id h) = 32%nat.
Proof. intros Hl. unfold h_id, words_at. rewrite (proj1 (bytes_of_words_ok _)), length_take, length_drop. lia. Qed.

Lemma length_set_id bs h : length h = 256%nat -> (32 <= length bs)%nat -> length (set_id bs h) = 256%nat.
Proof.
  intros Hl Hb. unfold set_id. assert (E : length (words_of_bytes (take 32 bs)) = 8%nat) by (apply (words_of_bytes_ok 8); rewrite length_take; lia).
  rewrite length_put_words; lia.
Qed.

Lemma get32_set_id bs h j : length h = 256%nat -> (32 <= length bs)%nat -> (j < 4 \/ 12 <= j)%nat -> get32 (set_id bs h) j = get32 h j.
Proof.
  intros Hl Hb Hj. unfold set_id. assert (E : length (words_of_bytes (take 32 bs)) = 8%nat) by (apply (words_of_bytes_ok 8); rewrite length_take; lia).
  apply get32_put_words_ne; rewrite E; lia.
Qed.

Lemma length_empty_id h : length h = 256%nat -> (32 <= length (str_empty ++ [0%Z] ++ drop (length str_empty + 1) (h_id h)))%nat.
Proof. intros Hl. rewrite !length_app, length_drop, length_h_id by done. simpl. lia. Qed.

Lemma length_strcpy_empty h : length h = 256%nat -> length (strcpy_id str_empty h) = 256%nat.
Proof. intros Hl. apply length_set_id; [done|]. by apply length_empty_id. Qed.
Lemma get32_strcpy_empty h j : length h = 256%nat -> (j < 4 \/ 12 <= j)%nat -> get32 (strcpy_id str_empty h) j = get32 h j.
Proof. intros Hl Hj. apply get32_set_id; [done| |done]. by apply length_empty_id. Qed.

Lemma length_set_created t h : length h = 256%nat -> length t = 2%nat -> length (set_created t h) = 256%nat.
Proof. intros Hl Ht. unfold set_created. rewrite length_put_words; [done|]. lia. Qed.
Lemma get32_set_created t h j : length h = 256%nat -> length t = 2%nat -> (j < 20 \/ 22 <= j)%nat -> get32 (set_created t h) j = get32 h j.
Proof. intros Hl Ht Hj. apply get32_put_words_ne; lia. Qed.

(** The header of a block: what the ring and the cache ask of it. *)
Record block_header (start next prev len type : Z) (h : buf) : Prop := {
  bh_len : length h = 256%nat;
  bh_magic : h_magic h = APA_MAGIC;
  bh_start : h_start h = start;
  bh_next : h_next h = next;
  bh_prev : h_prev h = prev;
  bh_length : h_length h = len;
  bh_type : h_type h = type
}.

Lemma bh_readable s nx pv len ty h : block_header s nx pv len ty h -> s <> 0 -> readable s h.
Proof. intros B Hs. split; [apply B|]. intros E. by destruct Hs. Qed.

(** A run of operations leaves alone what each does. *)
Ltac kept_tac := repeat (etransitivity; [eassumption|]); reflexivity.
Ltac fields := unfold set_magic, set_start, set_next, set_prev, set_length, set_type, set_hflags, set_modver,
  set_main, set_number, h_magic, h_start, h_next, h_prev, h_length in *.
Ltac words := repeat first [rewrite get32_set_created by (autorewrite with buf_db; rewrite ?length_strcpy_empty; autorewrite with buf_db; done || lia)
  | rewrite get32_strcpy_empty by (autorewrite with buf_db; done || lia)
  | rewrite get32_set32_eq by (autorewrite with buf_db; lia) | rewrite get32_set32_ne by lia].

Section Split.
Context (dv : Z) (K : gset Z) (d0 : diskmap).
Notation tab := (tab dv K d0).

(** A store to a header whose place is pending already. *)
Lemma wp_store V P D U w i s h f Q : tab (<[s := h]> V) P D U w -> (i, s) ∈ U -> s ∈ P -> length (f h) = 256%nat ->
  (forall w', tab (<[s := f h]> V) P D U w' -> kept w w' -> Q tt w') -> wp (hmod i f) w Q.
Proof.
  intros T Hin HP Hl HQ. eapply wp_hmod; [exact T|done|by rewrite lookup_insert_eq|done|]. intros w' T' Hk.
  rewrite insert_insert_eq in T'. apply HQ; [|done]. by replace P with (P ∪ {[s]}) by set_solver.
Qed.

(** Store and mark. *)
Lemma wp_store_mark V P D U w i s h f Q : tab V P D U w -> (i, s) ∈ U -> V !! s = Some h -> length (f h) = 256%nat -> readable s (f h) -> s ∈ K ->
  (forall w', tab (<[s := f h]> V) (P ∖ {[s]}) (D ∪ {[s]}) U w' -> kept w w' -> Q tt w') -> wp (hmod i f ;;; mark_dirty i) w Q.
Proof.
  intros T Hin HV Hl Hr HK HQ. apply wp_bind. eapply wp_hmod; [exact T|done|done|done|]. intros w1 T1 K1.
  eapply wp_mark; [exact T1|done|by rewrite lookup_insert_eq|done|done|]. intros w2 T2 K2. apply HQ; [|by transitivity w1].
  by replace (P ∖ {[s]}) with ((P ∪ {[s]}) ∖ {[s]}) by set_solver.
Qed.

(** ** A free block *)

Definition free_header (start next prev len : Z) (t : buf) : buf :=
  set_created t (strcpy_id str_empty (set_length len (set_prev prev (set_next next (set_start start (set_magic APA_MAGIC blank_header)))))).

Lemma free_header_ok start next prev len t : is_u32 start -> is_u32 next -> is_u32 prev -> is_u32 len -> length t = 2%nat ->
  block_header start next prev len APA_TYPE_FREE (free_header start next prev len t).
Proof.
  intros H1 H2 H3 H4 Ht. unfold free_header, blank_header.
  assert (HL : length (set_length len (set_prev prev (set_next next (set_start start (set_magic APA_MAGIC (zeros 256)))))) = 256%nat)
    by (fields; by autorewrite with buf_db).
  split.
  - apply length_set_created; [|done]. by apply length_strcpy_empty.
  - fields. by words.
  - fields. words. by apply u32_small.
  - fields. words. by apply u32_small.
  - fields. words. by apply u32_small.
  - fields. words. by apply u32_small.
  - unfold h_type, get16. fields. words. by rewrite get32_zeros.
Qed.

Lemma wp_removePartition V P D U w s nx pv len Q : tab V P D U w -> place dv (ata w) s -> s <> 0 -> is_u32 nx -> is_u32 pv -> is_u32 len ->
  Z.of_nat (length U) < cacheSize w -> s ∉ P -> s ∈ K ->
  (forall i h w', block_header s nx pv len APA_TYPE_FREE h -> tab (<[s := h]> V) P (D ∪ {[s]}) ((i, s) :: U) w' -> kept w w' -> Q (Some i) w') ->
  wp (apaRemovePartition dv s nx pv len) w Q.
Proof.
  intros T Hp Hs0 Hnx Hpv Hlen HU HsP HK HQ.
  assert (Hs : is_u32 s) by (destruct Hp as [Ha _]; unfold addressable in Ha; unfold is_u32; lia).
  unfold apaRemovePartition. apply wp_bind. eapply wp_get_write; [exact T|done|done|]. intros i h w1 Hh T1 K1. cbv beta iota.
  assert (Hin : (i, s) ∈ (i, s) :: U) by left. assert (HP1 : s ∈ P ∪ {[s]}) by set_solver.
  assert (HB : length blank_header = 256%nat) by reflexivity.
  apply wp_bind. eapply wp_store; [exact T1|done|done|done|]. intros w2 T2 K2.
  apply wp_bind. eapply wp_store; [exact T2|done|done|done|]. intros w3 T3 K3.
  apply wp_bind. eapply wp_store; [exact T3|done|done|done|]. intros w4 T4 K4.
  apply wp_bind. eapply wp_store; [exact T4|done|done|done|]. intros w5 T5 K5.
  apply wp_bind. eapply wp_store; [exact T5|done|done|done|]. intros w6 T6 K6.
  apply wp_bind. eapply wp_store; [exact T6|done|done|done|]. intros w7 T7 K7.
  apply wp_bind. eapply wp_store; [exact T7|done|done|by apply length_strcpy_empty|]. intros w8 T8 K8.
  apply wp_bind. eapply wp_time; [exact T8|]. intros t w9 Ht T9 K9. cbv beta.
  pose proof (free_header_ok s nx pv len t Hs Hnx Hpv Hlen Ht) as HF.
  apply wp_bind. eapply wp_store; [exact T9|done|done|apply HF|]. intros w10 T10 K10.
  apply wp_bind. eapply wp_mark; [exact T10|done|by rewrite lookup_insert_eq|by eapply bh_readable|done|]. intros w11 T11 K11.
  apply wp_ret. eapply HQ; [exact HF| |].
  - by replace P with ((P ∪ {[s]}) ∖ {[s]}) by set_solver.
  - kept_tac.
Qed.

(** ** One halving *)

Lemma readable_set32 s i v h : readable s h -> (i <> 1 /\ i < 64)%nat -> readable s (set32 i v h).
Proof.
  intros [H1 H2] [Hi1 Hi2]. split.
  - unfold h_magic in *. by rewrite get32_set32_ne.
  - intros Hs. specialize (H2 Hs). unfold h_mbr_magic, words_at, set32 in *. by rewrite drop_insert_lt.
Qed.

Lemma chain_lookup V l z c : chain V l z -> c ∈ l -> exists h, V !! k_start c = Some h /\ content h = c.
Proof.
  intros (_ & _ & HS) Hc. apply list_elem_of_split in Hc as (l1 & l2 & ->). apply seg_cat in HS as [_ [(h & H1 & H2 & _) _]]. eauto.
Qed.

(** The partition after [b], by way of the master boot record at the end. *)
Lemma chain_next V pre b post z : chain V (pre ++ b :: post) z -> pre <> [] ->
  exists c, c ∈ pre ++ b :: post /\ k_start c = first_start post 0 /\ k_start c <> k_start b /\
    (k_start c < k_start b \/ k_start b + k_length b <= k_start c).
Proof.
  intros (_ & HA & _) Hpre. apply area_app in HA as (m & HA1 & Em & Hl & HA2). simpl in Em. destruct post as [|c post].
  - destruct pre as [|c pre]; [done|]. exists c. destruct HA1 as (E & Hlc & HA1). apply area_le in HA1. simpl.
    split_and!; [left|lia..].
  - exists c. destruct HA2 as (E & _). simpl. split_and!; [set_solver|lia..].
Qed.

Lemma chain_block V pre b post z : chain V (pre ++ b :: post) z -> pre <> [] ->
  0 < k_start b /\ 0 < k_length b /\ k_start b + k_length b <= z /\
  exists h, V !! k_start b = Some h /\ content h = b /\ h_next h = first_start post 0.
Proof.
  intros (_ & HA & HS) Hpre. apply area_app in HA as (m & HA1 & Em & Hl & HA2). simpl in Em.
  apply seg_cat in HS as [_ [(h & H1 & H2 & _ & H3) _]]. apply area_le in HA2. split_and!; try lia; [|by exists h].
  destruct pre as [|c pre]; [done|]. destruct HA1 as (_ & Hlc & HA1). apply area_le in HA1. lia.
Qed.

Lemma content_set32 i v h : content (set32 (4 + i) v h) = set32 i v (content h).
Proof. unfold content, set32. rewrite drop_insert_ge by lia. f_equal. lia. Qed.

Lemma wp_splitStep V U w this pre b post z m params err Q :
  tab V ∅ ∅ ((this, k_start b) :: U) w -> chain V (pre ++ b :: post) z -> pre <> [] -> addressable (ata w) dv 0 z ->
  k_length b = 2 * m -> 0 < m -> m mod unit_size = 0 -> p_size params <> 2 * m -> Z.of_nat (length U) + 3 <= cacheSize w ->
  k_start b ∈ K -> k_start b + m ∈ K -> first_start post 0 ∈ K ->
  (forall V' b' e w', tab V' ∅ ∅ ((this, k_start b) :: U) w' -> chain V' (pre ++ b' :: e :: post) z ->
    k_start b' = k_start b -> k_length b' = m -> k_start e = k_start b + m -> k_length e = m -> k_type e = APA_TYPE_FREE ->
    kept w w' -> Q (inl 0) w') ->
  wp (apaSplitStep dv params this err) w Q.
Proof.
  intros T HC Hpre Ha Hlb Hm0 Hev Hps HU Kb Ke Kn HQ. pose proof (unit_le _ Hm0 Hev) as Hm.
  destruct (chain_block _ _ _ _ _ HC Hpre) as (Hb0 & Hlb0 & Hbz & hb & Vb & Cb & Nb).
  destruct (chain_next _ _ _ _ _ HC Hpre) as (cn & Hcn & En & Hne & Hpos).
  destruct (chain_lookup _ _ _ _ HC Hcn) as (hn & Vn & Cn). rewrite En in *.
  pose proof (t_tabs _ _ _ _ _ _ _ _ T) as TT.
  destruct (t_place _ _ _ _ _ _ _ _ _ TT _ _ Vb) as [(_ & Eb & _) Lb], (t_place _ _ _ _ _ _ _ _ _ TT _ _ Vn) as [_ Ln].
  pose proof (t_read _ _ _ _ _ _ _ _ _ TT _ _ Vb ltac:(set_solver)) as Rb.
  pose proof (t_read _ _ _ _ _ _ _ _ _ TT _ _ Vn ltac:(set_solver)) as Rn.
  assert (Hz : z <= 2 ^ 32) by (unfold addressable in Ha; lia).
  assert (Sb : h_start hb = k_start b) by (by rewrite <- k_start_content, Cb).
  assert (Lh : h_length hb = 2 * m) by (by rewrite <- k_length_content, Cb).
  assert (Hn0 : 0 <= first_start post 0 < 2 ^ 32).
  { destruct HC as (_ & HA & _). apply (area_in _ _ _ _ HA) in Hcn. lia. }
  set (sb := k_start b) in *. set (n := first_start post 0) in *.
  unfold apaSplitStep. apply wp_bind. eapply wp_header; [exact T|left|done|].
  rewrite Lh. rewrite (proj2 (Z.eqb_neq _ _)) by lia.
  apply wp_bind. rewrite Nb. eapply wp_get; [exact T|done|simpl; lia|]. intros next w1 T1 K1. cbv beta iota.
  set (hb1 := set_length (Z.shiftr (h_length hb) 1) hb).
  assert (L1 : length hb1 = 256%nat) by (unfold hb1; fields; by autorewrite with buf_db).
  assert (F1 : h_length hb1 = m /\ h_start hb1 = sb /\ h_next hb1 = n /\ h_prev hb1 = h_prev hb).
  { unfold hb1. fields. rewrite get32_set32_eq, !get32_set32_ne by lia. rewrite Z.shiftr_div_pow2 by lia. rewrite Lh.
    change (2 ^ 1) with 2. rewrite Z.mul_comm, Z.div_mul, u32_small by (unfold is_u32; lia). done. }
  destruct F1 as (Fl & Fs & Fn & Fp).
  apply wp_bind. eapply wp_hmod; [exact T1|right; left|exact Vb|exact L1|]. intros w2 T2 K2. fold hb1 in T2.
  apply wp_bind. eapply wp_header; [exact T2|right; left|by rewrite lookup_insert_eq|]. rewrite Fl, Fs, Fn, u32_small by (unfold is_u32; lia).
  set (e := sb + m) in *.
  assert (Pe : place dv (ata w2) e).
  { apply (kept_place dv w); [kept_tac|]. split_and!.
    - destruct Ha as (A1 & A2 & A3 & A4 & A5). unfold addressable, e. split_and!; try lia. destruct A5; [by left|right; lia].
    - unfold e. by rewrite Zplus_mod, Eb, Hev.
    - unfold clear_of_journal, e. lia. }
  apply wp_bind. eapply wp_removePartition; [exact T2|exact Pe|unfold e; lia|unfold is_u32; lia..| |assert (sb <> e) by (unfold e; lia); set_solver|done|].
  { simpl. destruct K2 as (-> & _), K1 as (-> & _). lia. }
  intros empty he w3 HF T3 K3. apply wp_bind. apply wp_ret.
  apply wp_bind. eapply wp_header; [exact T3|left|by rewrite lookup_insert_eq|]. rewrite (bh_start _ _ _ _ _ _ HF).
  set (hb2 := set_next e hb1). set (hn1 := set_prev e hn).
  assert (Ve3 : <[e := he]> (<[sb := hb1]> V) !! sb = Some hb1) by (rewrite lookup_insert_ne, lookup_insert_eq by (unfold e; lia); done).
  apply wp_bind. eapply wp_hmod; [exact T3|right; right; left|exact Ve3|by unfold set_next; autorewrite with buf_db|]. intros w4 T4 K4. fold hb2 in T4.
  apply wp_bind. eapply wp_mark; [exact T4|right; right; left|by rewrite lookup_insert_eq| |done|].
  { apply readable_set32; [|lia]. by apply readable_set32; [|lia]. }
  intros w5 T5 K5.
  assert (Vn5 : <[sb := hb2]> (<[e := he]> (<[sb := hb1]> V)) !! n = Some hn) by (rewrite !lookup_insert_ne by (unfold e; lia); done).
  apply wp_bind. eapply wp_hmod; [exact T5|right; left|exact Vn5|by unfold set_prev; autorewrite with buf_db|]. intros w6 T6 K6. fold hn1 in T6.
  apply wp_bind. eapply wp_mark; [exact T6|right; left|by rewrite lookup_insert_eq|by apply readable_set32; [|lia]|done|]. intros w7 T7 K7.
  match type of T7 with ApaTable.tab _ _ _ _ ?P _ _ _ => replace P with (∅ : gset Z) in T7 by set_solver end.
  apply wp_bind. eapply wp_flush; [exact T7|]. intros w8 T8 K8.
  apply wp_bind. eapply (wp_free _ _ _ _ _ _ _ [] _ _ empty e); [exact T8|done|set_solver|]. intros w9 T9 K9.
  apply wp_bind. eapply (wp_free _ _ _ _ _ _ _ [] _ _ next n); [exact T9|done|set_solver|]. intros w10 T10 K10.
  apply wp_ret. match type of T10 with ApaTable.tab _ _ _ (seal ?D ?V) _ _ _ _ => set (D' := D) in T10; set (V2 := V) in T10 end.
  assert (V'b : seal D' V2 !! sb = Some (sealed hb2)).
  { unfold V2. rewrite seal_lookup, lookup_insert_ne, lookup_insert_eq by done. simpl. by rewrite decide_True by set_solver. }
  assert (V'e : seal D' V2 !! e = Some (sealed he)).
  { unfold V2. rewrite seal_lookup, !lookup_insert_ne, lookup_insert_eq by (unfold e; lia). simpl. by rewrite decide_True by set_solver. }
  assert (V'n : seal D' V2 !! n = Some (sealed hn1)).
  { unfold V2. rewrite seal_lookup, lookup_insert_eq. simpl. by rewrite decide_True by set_solver. }
  assert (V'o : forall s, s <> sb -> s <> e -> s <> n -> seal D' V2 !! s = V !! s).
  { intros s H1 H2 H3. unfold V2. rewrite seal_lookup, !lookup_insert_ne by done. destruct (V !! s); [|done]. simpl.
    by rewrite decide_False by set_solver. }
  assert (Sb' : k_start (content (sealed hb2)) = sb).
  { rewrite content_sealed, k_start_content. unfold hb2. rewrite <- Fs. fields. by rewrite get32_set32_ne. }
  assert (Lb' : k_length (content (sealed hb2)) = m).
  { rewrite content_sealed, k_length_content. unfold hb2. rewrite <- Fl. fields. by rewrite get32_set32_ne. }
  assert (Se' : k_start (content (sealed he)) = e) by (rewrite content_sealed, k_start_content; apply HF).
  assert (Le' : k_length (content (sealed he)) = m) by (rewrite content_sealed, k_length_content; apply HF).
  eapply (HQ (seal D' V2) (content (sealed hb2)) (content (sealed he))); try done.
  - eapply (chain_split V _ pre b post z _ _ hb (sealed hb2) (sealed he) hn (sealed hn1)); try done; rewrite ?Sb', ?Lb', ?Se', ?Le'; fold sb n; try done; try lia.
    + rewrite prev_sealed. unfold hb2. rewrite <- Fp. fields. by rewrite get32_set32_ne.
    + rewrite next_sealed. unfold hb2. fields. rewrite get32_set32_eq by (fold hb1; lia). apply u32_small. unfold is_u32, e. lia.
    + rewrite prev_sealed. apply HF.
    + rewrite next_sealed, Nb. apply HF.
    + rewrite content_sealed. unfold hn1. by rewrite content_prev.
    + rewrite next_sealed. unfold hn1. fields. by rewrite get32_set32_ne.
    + rewrite prev_sealed. unfold hn1. fields. rewrite get32_set32_eq by lia. apply u32_small. unfold is_u32, e. lia.
  - rewrite content_sealed, k_type_content. apply HF.
  - kept_tac.
Qed.
End Split.
