(* ===== verification/ApaInsert.v ===== *)
(** * ApaInsert: a partition put into a free block

    The header [apaFillHeader] writes, the loop of halvings, and the whole of
    [apaInsertPartition]. *)

From stdpp Require Import base numbers list gmap sets.
From Stdlib Require Import ZArith Lia.
From S2P Require Import Prelude Ata ApaState ApaCache ApaFacts Crash ApaCrash ApaPart ApaTable ApaTableOps ApaChain ApaSplit.

Open Scope Z_scope.
Open Scope c_scope.

(** ** The header of a new partition *)

(** Identifier and passwords fill their fields. *)
Definition names_ok (params : apa_params_t) : Prop :=
  length (p_id params) = 32%nat /\ bytes_ok (p_id params) /\ length (p_rpwd params) = 8%nat /\ length (p_fpwd params) = 8%nat.

Record new_header (params : apa_params_t) (start next prev len : Z) (h : buf) : Prop := {
  nh_block : block_header start next prev len (u16 (p_type params)) h;
  nh_flags : h_flags h = u16 (p_flags params);
  nh_id : h_id h = p_id params
}.

(** A store outside the fields of [new_header] keeps it. *)
Lemma new_header_same params s n p l h h' : new_header params s n p l h -> length h' = 256%nat ->
  (forall i, (1 <= i < 12 \/ 16 <= i < 19)%nat -> get32 h' i = get32 h i) -> new_header params s n p l h'.
Proof.
  intros [[B1 B2 B3 B4 B5 B6 B7] Hf Hi] Hl HG. split; [split|..]; try done.
  - unfold h_magic in *. rewrite HG by lia. done.
  - unfold h_start in *. rewrite HG by lia. done.
  - unfold h_next in *. rewrite HG by lia. done.
  - unfold h_prev in *. rewrite HG by lia. done.
  - unfold h_length in *. rewrite HG by lia. done.
  - unfold h_type, get16 in *. rewrite HG by lia. done.
  - unfold h_flags, get16 in *. rewrite HG by lia. done.
  - rewrite <- Hi. unfold h_id. f_equal. apply list_eq. intros i. unfold words_at.
    destruct (decide (i < 8)%nat) as [Hlt|Hge].
    + rewrite !lookup_take_lt, !lookup_drop by done. specialize (HG (4 + i)%nat ltac:(lia)). rewrite !get32_lookup in HG.
      destruct (lookup_lt_is_Some_2 h' (4 + i)) as [x Ex]; [lia|]. destruct (lookup_lt_is_Some_2 h (4 + i)) as [y Ey]; [lia|].
      rewrite Ex, Ey in *. simpl in HG. by rewrite HG.
    + rewrite !lookup_take_ge by lia. done.
Qed.

Definition base_header (params : apa_params_t) (start next prev len : Z) : buf :=
  set_id (p_id params) (set_modver APA_MODVER (set_hflags (p_flags params) (set_type (p_type params)
    (set_length len (set_prev prev (set_next next (set_start start (set_magic APA_MAGIC blank_header)))))))).

Lemma h_id_set_id bs h : length h = 256%nat -> length bs = 32%nat -> bytes_ok bs -> h_id (set_id bs h) = bs.
Proof.
  intros Hl Hb Ho. unfold h_id, set_id, words_at, put_words. rewrite (take_ge bs) by lia.
  pose proof (proj1 (words_of_bytes_ok 8 bs ltac:(lia))) as E.
  rewrite drop_app_length' by (rewrite length_take; lia). rewrite take_app_length' by lia. by apply (bytes_of_words_of_bytes 8).
Qed.

Lemma base_header_ok params s n p l : names_ok params -> is_u32 s -> is_u32 n -> is_u32 p -> is_u32 l ->
  new_header params s n p l (base_header params s n p l).
Proof.
  intros (H1 & H2 & _ & _) Hs Hn Hp Hl. unfold base_header, blank_header.
  set (h1 := set_length l (set_prev p (set_next n (set_start s (set_magic APA_MAGIC (zeros 256)))))).
  assert (L1 : length h1 = 256%nat) by (unfold h1; fields; by autorewrite with buf_db).
  set (h2 := set_modver APA_MODVER (set_hflags (p_flags params) (set_type (p_type params) h1))).
  assert (L2 : length h2 = 256%nat) by (unfold h2; fields; by autorewrite with buf_db).
  assert (G : forall j, j <> 18%nat -> j <> 24%nat -> (j < 4 \/ 12 <= j)%nat -> get32 (set_id (p_id params) h2) j = get32 h1 j).
  { intros j E1 E2 Hj. rewrite get32_set_id by lia. unfold h2. fields. rewrite get32_set32_ne, !get32_set16_ne by lia. done. }
  assert (G18 : get32 (set_id (p_id params) h2) 18 = get32 (set_hflags (p_flags params) (set_type (p_type params) h1)) 18).
  { rewrite get32_set_id by lia. unfold h2. fields. by rewrite get32_set32_ne by lia. }
  split; [split|..].
  - apply length_set_id; lia.
  - unfold h_magic. rewrite G by lia. unfold h1. fields. by words.
  - unfold h_start. rewrite G by lia. unfold h1. fields. words. by apply u32_small.
  - unfold h_next. rewrite G by lia. unfold h1. fields. words. by apply u32_small.
  - unfold h_prev. rewrite G by lia. unfold h1. fields. words. by apply u32_small.
  - unfold h_length. rewrite G by lia. unfold h1. fields. words. by apply u32_small.
  - unfold h_type, get16. rewrite G18. change (get16 (set_hflags (p_flags params) (set_type (p_type params) h1)) 18 0 = u16 (p_type params)).
    unfold set_hflags, set_type. rewrite get16_set16_other by (rewrite ?length_set16; lia). apply get16_set16; lia.
  - unfold h_flags, get16. rewrite G18. change (get16 (set_hflags (p_flags params) (set_type (p_type params) h1)) 18 1 = u16 (p_flags params)).
    unfold set_hflags, set_type. apply get16_set16; rewrite ?length_set16; lia.
  - by apply h_id_set_id.
Qed.

Section Insert.
Context (dv : Z) (K : gset Z) (d0 : diskmap).
Notation tab := (tab dv K d0).

Lemma wp_fillHeader V P D U w params s nx pv len Q : tab V P D U w -> names_ok params -> place dv (ata w) s -> s <> 0 ->
  is_u32 nx -> is_u32 pv -> is_u32 len -> Z.of_nat (length U) < cacheSize w -> s ∉ P -> s ∈ K ->
  (forall i h w', new_header params s nx pv len h -> tab (<[s := h]> V) P (D ∪ {[s]}) ((i, s) :: U) w' -> kept w w' -> Q (Some i, 0) w') ->
  wp (apaFillHeader dv params s nx pv len) w Q.
Proof.
  intros T HN Hp Hs0 Hnx Hpv Hlen HU HsP HK HQ.
  assert (Hs : is_u32 s) by (destruct Hp as [Ha _]; unfold addressable in Ha; unfold is_u32; lia).
  pose proof (base_header_ok params s nx pv len HN Hs Hnx Hpv Hlen) as HB. destruct HN as (N1 & N2 & N3 & N4).
  unfold apaFillHeader. apply wp_bind. eapply wp_get_write; [exact T|done|done|]. intros i h w1 Hh T1 K1. cbv beta iota.
  assert (Hin : (i, s) ∈ (i, s) :: U) by left. assert (HP1 : s ∈ P ∪ {[s]}) by set_solver.
  assert (L0 : length blank_header = 256%nat) by reflexivity.
  apply wp_bind. eapply wp_store; [exact T1|done|done|done|]. intros w2 T2 K2.
  apply wp_bind. eapply wp_store; [exact T2|done|done|done|]. intros w3 T3 K3.
  apply wp_bind. eapply wp_store; [exact T3|done|done|done|]. intros w4 T4 K4.
  apply wp_bind. eapply wp_store; [exact T4|done|done|done|]. intros w5 T5 K5.
  apply wp_bind. eapply wp_store; [exact T5|done|done|done|]. intros w6 T6 K6.
  apply wp_bind. eapply wp_store; [exact T6|done|done|done|]. intros w7 T7 K7.
  apply wp_bind. eapply wp_store; [exact T7|done|done|done|]. intros w8 T8 K8.
  apply wp_bind. eapply wp_store; [exact T8|done|done|done|]. intros w9 T9 K9.
  apply wp_bind. eapply wp_store; [exact T9|done|done|done|]. intros w10 T10 K10.
  apply wp_bind. eapply wp_store; [exact T10|done|done|by apply HB|]. intros w11 T11 K11.
  assert (Ka : kept w w11) by kept_tac. clear K1 K2 K3 K4 K5 K6 K7 K8 K9 K10 K11 T1 T2 T3 T4 T5 T6 T7 T8 T9 T10 w1 w2 w3 w4 w5 w6 w7 w8 w9 w10.
  assert (HS : forall w1 h1 f (Q' : unit -> world -> Prop), new_header params s nx pv len h1 -> tab (<[s := h1]> V) (P ∪ {[s]}) D ((i, s) :: U) w1 ->
    length (f h1) = 256%nat -> (forall j, (1 <= j < 12 \/ 16 <= j < 19)%nat -> get32 (f h1) j = get32 h1 j) ->
    (forall w2 h2, new_header params s nx pv len h2 -> tab (<[s := h2]> V) (P ∪ {[s]}) D ((i, s) :: U) w2 -> kept w1 w2 -> Q' tt w2) ->
    wp (hmod i f) w1 Q').
  { intros w1 h1 f Q' N T' Hl HG HQ'. eapply wp_store; [exact T'|done|done|done|]. intros w2 T2 K2.
    eapply HQ'; [|exact T2|done]. by eapply new_header_same. }
  assert (HL : forall w1 h1, new_header params s nx pv len h1 -> tab (<[s := h1]> V) (P ∪ {[s]}) D ((i, s) :: U) w1 ->
    length h1 = 256%nat) by (intros w1 h1 N _; apply N).
  set (Mid := fun (_ : unit) w' => exists h', new_header params s nx pv len h' /\
    tab (<[s := h']> V) (P ∪ {[s]}) D ((i, s) :: U) w' /\ kept w11 w').
  apply wp_bind. eapply (wp_mono _ _ Mid).
  - destruct (nz _).
    + apply wp_bind. pose proof (nh_block _ _ _ _ _ _ HB) as [L1 _ _ _ _ _ _].
      eapply HS; [exact HB|exact T11|by unfold set_main; autorewrite with buf_db|intros j Hj; apply get32_set32_ne; lia|].
      intros w2 h2 N2' T2 K2. pose proof (HL _ _ N2' T2).
      eapply HS; [exact N2'|exact T2|by unfold set_number; autorewrite with buf_db|intros j Hj; apply get32_set32_ne; lia|].
      intros w3 h3 N3' T3 K3. exists h3. split_and!; [done..|kept_tac].
    + apply wp_bind. eapply wp_header; [exact T11|left|by rewrite lookup_insert_eq|].
      apply wp_when; intros _; [|exists (base_header params s nx pv len); by split_and!].
      assert (HW : forall bs, length bs = 8%nat -> length (words_of_bytes (take 8 bs)) = 2%nat)
        by (intros bs Hb; apply (words_of_bytes_ok 2); rewrite length_take; lia).
      apply wp_bind. pose proof (HL _ _ HB T11).
      eapply HS; [exact HB|exact T11|unfold set_rpwd; rewrite length_put_words; rewrite ?HW; done || lia|
        intros j Hj; apply get32_put_words_ne; rewrite HW; done || lia|].
      intros w2 h2 N2' T2 K2. pose proof (HL _ _ N2' T2).
      eapply HS; [exact N2'|exact T2|unfold set_fpwd; rewrite length_put_words; rewrite ?HW; done || lia|
        intros j Hj; apply get32_put_words_ne; rewrite HW; done || lia|].
      intros w3 h3 N3' T3 K3. exists h3. split_and!; [done..|kept_tac].
  - intros _ w2 (h2 & N2' & T2 & K2). pose proof (HL _ _ N2' T2).
    apply wp_bind. eapply wp_time; [exact T2|]. intros t w3 Ht T3 K3.
    apply wp_bind. eapply HS; [exact N2'|exact T3|by apply length_set_created|intros j Hj; apply get32_set_created; done || lia|].
    intros w4 h4 N4' T4 K4. apply wp_bind.
    eapply wp_mark; [exact T4|done|by rewrite lookup_insert_eq|eapply bh_readable; [apply N4'|done]|done|]. intros w5 T5 K5.
    apply wp_ret. eapply HQ; [exact N4'| |kept_tac]. by replace P with ((P ∪ {[s]}) ∖ {[s]}) by set_solver.
Qed.

(** ** The halvings *)

(** The free blocks that [k] halvings down to [size] leave, by start and length. *)
Definition buddies (start size : Z) (k : nat) : list (Z * Z) :=
  map (fun j => (start + size * 2 ^ Z.of_nat j, size * 2 ^ Z.of_nat j)) (seq 0 k).
Definition free_block (x : Z * Z) (c : buf) : Prop := k_start c = x.1 /\ k_length c = x.2 /\ k_type c = APA_TYPE_FREE.

Lemma buddies_S start size k : buddies start size (S k) =
  buddies start size k ++ [(start + size * 2 ^ Z.of_nat k, size * 2 ^ Z.of_nat k)].
Proof. unfold buddies. rewrite seq_S, map_app. done. Qed.

Lemma wp_splits this params U z pre Q : 0 < p_size params -> p_size params mod unit_size = 0 -> pre <> [] ->
  forall k V w b post fuel, tab V ∅ ∅ ((this, k_start b) :: U) w -> chain V (pre ++ b :: post) z -> addressable (ata w) dv 0 z ->
  k_length b = p_size params * 2 ^ Z.of_nat k -> (k < fuel)%nat -> Z.of_nat (length U) + 3 <= cacheSize w ->
  k_start b ∈ K -> first_start post 0 ∈ K -> (forall x, x ∈ buddies (k_start b) (p_size params) k -> x.1 ∈ K) ->
  (forall V' b' fs w', tab V' ∅ ∅ ((this, k_start b) :: U) w' -> chain V' (pre ++ b' :: fs ++ post) z ->
    k_start b' = k_start b -> k_length b' = p_size params -> Forall2 free_block (buddies (k_start b) (p_size params) k) fs ->
    kept w w' -> Q (true, 0) w') ->
  wp (while_ fuel (fun err => apaSplitStep dv params this err) 0) w Q.
Proof.
  intros Hsz Hev Hpre. induction k as [|k IH]; intros V w b post fuel T HC Ha Hl Hf HU Kb Kn Kbs HQ.
  - destruct fuel as [|fuel]; [lia|]. simpl in Hl. rewrite Z.mul_1_r in Hl. apply wp_bind.
    destruct (chain_block _ _ _ _ _ HC Hpre) as (_ & _ & _ & hb & Vb & Cb & _).
    unfold apaSplitStep. apply wp_bind. eapply wp_header; [exact T|left|exact Vb|].
    rewrite <- (k_length_content hb), Cb, Hl, Z.eqb_refl. apply wp_ret. apply wp_ret.
    by apply (HQ V b []).
  - destruct fuel as [|fuel]; [lia|]. apply wp_bind. rewrite Nat2Z.inj_succ, Z.pow_succ_r in Hl by lia.
    assert (Hp : 1 <= 2 ^ Z.of_nat k) by (pose proof (Z.pow_pos_nonneg 2 (Z.of_nat k)); lia).
    assert (Hm : 0 < p_size params * 2 ^ Z.of_nat k) by nia.
    rewrite buddies_S in Kbs.
    eapply (wp_splitStep dv K d0 V U w this pre b post z (p_size params * 2 ^ Z.of_nat k)); try done; try lia.
    + rewrite Zmult_mod, Hev. done.
    + nia.
    + apply (Kbs (k_start b + p_size params * 2 ^ Z.of_nat k, p_size params * 2 ^ Z.of_nat k)). set_solver.
    + intros V' b' e w' T' HC' Sb Lb Se Le Te Kw. rewrite <- Sb in T'.
      apply (IH V' w' b' (e :: post)); try done; try lia.
      * destruct Kw as (_ & _ & E). unfold addressable in *. by rewrite E.
      * destruct Kw as (-> & _). lia.
      * by rewrite Sb.
      * simpl. rewrite Se. apply (Kbs (k_start b + p_size params * 2 ^ Z.of_nat k, p_size params * 2 ^ Z.of_nat k)). set_solver.
      * rewrite Sb. intros x Hx. apply Kbs. set_solver.
      * intros V2 b2 fs w2 T2 HC2 Sb2 Lb2 HF Kw2. rewrite Sb in T2, Sb2, HF. apply (HQ V2 b2 (fs ++ [e])); try done.
        -- by rewrite <- app_assoc.
        -- rewrite buddies_S. apply Forall2_app; [done|]. by constructor.
        -- by transitivity w'.
Qed.

(** The header of one partition replaced. *)
Lemma chain_replace V V' pre b post z b' hb h' : chain V (pre ++ b :: post) z -> V !! k_start b = Some hb ->
  k_start b' = k_start b -> k_length b' = k_length b -> V' !! k_start b = Some h' -> content h' = b' ->
  h_prev h' = h_prev hb -> h_next h' = h_next hb -> (forall s, s <> k_start b -> V' !! s = V !! s) ->
  chain V' (pre ++ b' :: post) z.
Proof.
  intros (_ & HA & HS) Vb Sb Lb Vb' Cb' Pb Nb HO. split; [by destruct pre|].
  apply area_app in HA as (m & HA1 & Em & Hl & HA2). split.
  { apply area_app. exists m. split; [done|]. simpl. rewrite Sb, Lb. done. }
  assert (El : last_start 0 (pre ++ b' :: post) = last_start 0 (pre ++ b :: post)) by (rewrite !last_start_app, !last_start_cons; by rewrite Sb).
  rewrite El. apply seg_cat in HS as [HS1 HS2]. destruct HS2 as [(hb0 & E0 & E1 & E2 & E3) HS2]. rewrite Vb in E0. injection E0 as <-.
  apply seg_cat. simpl. rewrite Sb. simpl in HS1. split_and!.
  - eapply seg_frame; [exact HS1|]. intros c Hc. apply HO. apply (area_in _ _ _ _ HA1) in Hc. simpl in Em. lia.
  - exists h'. rewrite Sb. split_and!; congruence.
  - eapply seg_frame; [exact HS2|]. intros c Hc. apply HO. apply (area_in _ _ _ _ HA2) in Hc. simpl in Em. lia.
Qed.
(** The link back of a partition is the start of one. *)
Lemma chain_prev V pre b post z : chain V (pre ++ b :: post) z -> pre <> [] -> forall h, V !! k_start b = Some h ->
  exists c, c ∈ pre /\ h_prev h = k_start c.
Proof.
  intros (_ & _ & HS) Hpre h Hh. apply seg_cat in HS as [_ [(h0 & E & _ & Hp & _) _]]. rewrite Hh in E. injection E as <-. rewrite Hp.
  destruct pre as [|x pre _] using rev_ind; [done|]. exists x. rewrite last_start_app. split; [set_solver|done].
Qed.

(** ** The whole of apaInsertPartition *)

(** The places it writes: the block, its buddies and the partition after it. *)
Definition insert_places (b : buf) (post : list buf) (size : Z) (k : nat) : gset Z :=
  {[k_start b; first_start post 0]} ∪ list_to_set (buddies (k_start b) size k).*1.

Lemma wp_insertPartition V U w pre b post z k params fuel Q :
  tab V ∅ ∅ U w -> chain V (pre ++ b :: post) z -> pre <> [] -> addressable (ata w) dv 0 z ->
  0 < p_size params -> p_size params mod unit_size = 0 -> k_length b = p_size params * 2 ^ Z.of_nat k -> (k < fuel)%nat ->
  Z.of_nat (length U) + 3 <= cacheSize w -> names_ok params -> insert_places b post (p_size params) k ⊆ K ->
  (forall i V' h fs w', tab V' ∅ ∅ ((i, k_start b) :: U) w' -> chain V' (pre ++ content h :: fs ++ post) z ->
    (exists nx pv, new_header params (k_start b) nx pv (p_size params) h) -> V' !! k_start b = Some (sealed h) ->
    Forall2 free_block (buddies (k_start b) (p_size params) k) fs -> kept w w' -> Q (Some i, 0) w') ->
  wp (apaInsertPartition fuel dv params (k_start b)) w Q.
Proof.
  intros T HC Hpre Ha Hsz Hev Hl Hf HU HN HK HQ. unfold insert_places in HK.
  destruct (chain_block _ _ _ _ _ HC Hpre) as (Hb0 & _ & Hbz & hb & Vb & _).
  unfold apaInsertPartition. apply wp_bind. eapply wp_get; [exact T|exact Vb|lia|]. intros this w1 T1 K1. cbv beta iota.
  apply wp_bind. eapply (wp_splits this params U z pre); try done.
  { destruct K1 as (_ & _ & E). unfold addressable in *. by rewrite E. }
  { destruct K1 as (-> & _). lia. }
  { set_solver. } { set_solver. }
  { intros x Hx. apply HK, elem_of_union_r, elem_of_list_to_set. by apply list_elem_of_fmap_2. }
  clear Vb hb. intros V2 b2 fs w2 T2 HC2 Sb Lb HF K2. cbv beta iota. simpl negb.
  destruct (chain_block _ _ _ _ _ HC2 Hpre) as (_ & _ & Hb2z & hb & Vb & Cb & Nb).
  destruct (chain_prev _ _ _ _ _ HC2 Hpre _ Vb) as (cp & Hcp & Pb).
  destruct (chain_next _ _ _ _ _ HC2 Hpre) as (cn & Hcn & En & _). rewrite Sb in Vb.
  assert (Hz : z <= 2 ^ 32) by (unfold addressable in Ha; lia).
  assert (Hp : is_u32 (h_prev hb) /\ is_u32 (h_next hb)).
  { pose proof HC2 as (_ & HA & _). pose proof (area_in _ _ _ cp HA ltac:(set_solver)). pose proof (area_in _ _ _ cn HA Hcn).
    rewrite Pb, Nb, <- En. unfold is_u32. lia. }
  apply wp_bind. eapply (wp_free_header _ _ _ _ _ _ _ [] U w2 this); [exact T2|done|exact Vb|set_solver|]. intros w3 T3 K3 (c3 & E3 & _ & E4). simpl app in T3.
  apply wp_bind. unfold header. apply wp_bind. eapply wp_Done; [exact E3|]. apply wp_ret. rewrite E4.
  assert (Sh : h_start hb = k_start b) by (rewrite <- k_start_content, Cb; done).
  apply wp_bind. rewrite Sh. destruct (t_place _ _ _ _ _ _ _ _ _ (t_tabs _ _ _ _ _ _ _ _ T3) _ _ Vb) as [Pl _].
  eapply wp_fillHeader; [exact T3|done|exact Pl|lia|apply Hp..|unfold is_u32; lia| |set_solver|set_solver|].
  { destruct K3 as (-> & _), K2 as (-> & _), K1 as (-> & _). lia. }
  intros i h w4 NH T4 K4. apply wp_bind. rewrite union_empty_l_L in T4. eapply wp_flush; [exact T4|]. intros w5 T5 K5. apply wp_ret.
  assert (Vh : seal {[k_start b]} (<[k_start b := h]> V2) !! k_start b = Some (sealed h)).
  { rewrite seal_lookup, lookup_insert_eq. simpl. by rewrite decide_True by set_solver. }
  eapply HQ; [exact T5| |eauto|exact Vh|done|kept_tac]. destruct NH as [[B1 B2 B3 B4 B5 B6 B7] _ _].
  eapply (chain_replace V2 _ pre b2 (fs ++ post) z (content h) hb (sealed h)); rewrite ?Sb; try done.
  - by rewrite k_start_content.
  - by rewrite k_length_content, Lb.
  - apply content_sealed.
  - by rewrite prev_sealed.
  - by rewrite next_sealed.
  - intros s Hs. rewrite seal_lookup, lookup_insert_ne by done. destruct (V2 !! s); [|done]. simpl. by rewrite decide_False by set_solver.
Qed.
End Insert.
