(* ===== verification/ApaWalk.v ===== *)
(** * ApaWalk: walking the ring of partitions

    [apaGetNextHeader] goes from one partition to the next with one buffer in
    use; [apaFindPartition] walks the ring from the master boot record and ends
    at the first main partition of the name looked for. *)

From stdpp Require Import base numbers list gmap sets.
From Stdlib Require Import ZArith Lia.
From S2P Require Import Prelude Ata ApaState ApaCache ApaFacts Crash ApaCrash ApaPart ApaTable ApaTableOps ApaChain ApaSplit.

Open Scope Z_scope.
Open Scope c_scope.

(** ** Flags and names of a partition *)

Definition k_flags (c : buf) : Z := get16 c 14 1.
Definition k_id (c : buf) : list Z := bytes_of_words (words_at c 0 8).

Lemma k_flags_content h : k_flags (content h) = h_flags h.
Proof. unfold k_flags, h_flags, get16. by rewrite get32_content. Qed.
Lemma k_id_content h : k_id (content h) = h_id h.
Proof. unfold k_id, h_id, words_at, content. by rewrite drop_0. Qed.

(** A main partition of name [id]. *)
Definition main_named (id : list Z) (c : buf) : bool :=
  negb (nz (Z.land (k_flags c) APA_FLAG_SUB)) && memeq (k_id c) id APA_IDMAX.

Section Walk.
Context (dv : Z) (K : gset Z) (d0 : diskmap).
Notation tab := (tab dv K d0).

Lemma wp_getNextHeader V U w p pre c post z err Q : tab V ∅ ∅ ((p, k_start c) :: U) w -> chain V (pre ++ c :: post) z ->
  Z.of_nat (length U) < cacheSize w ->
  match post with
  | [] => forall w', tab V ∅ ∅ U w' -> kept w w' -> Q (None, err) w'
  | c' :: _ => forall p' w', tab V ∅ ∅ ((p', k_start c') :: U) w' -> kept w w' -> Q (Some p', 0) w'
  end -> wp (apaGetNextHeader p err) w Q.
Proof.
  intros T HC HU HQ. pose proof HC as (_ & HA & HS). apply seg_cat in HS as [_ HS].
  destruct HS as [(h & Vh & Ch & _ & Nh) HS]. unfold apaGetNextHeader.
  apply wp_bind. eapply wp_header; [exact T|left|exact Vh|].
  apply wp_bind. eapply (wp_free_header _ _ _ _ _ _ _ [] U w p); [exact T|done|exact Vh|set_solver|].
  intros w1 T1 K1 (x & Ex & Ed & Eh). simpl app in T1. apply wp_bind. eapply wp_Done; [exact Ex|]. rewrite Eh, Ed, Nh.
  destruct post as [|c' post]; [apply wp_ret; by apply HQ|]. simpl first_start.
  destruct HS as [(h' & Vh' & _ & Ph' & _) _].
  apply area_app in HA as (m & HA1 & Em & Hl & HA2). destruct HA2 as (Em' & _). apply area_le in HA1.
  rewrite (proj2 (Z.eqb_neq _ _)) by lia.
  apply wp_bind. eapply wp_get; [exact T1|exact Vh'|destruct K1 as (-> & _); lia|]. intros p' w2 T2 K2. cbv beta iota.
  destruct (tab_cget _ _ _ _ _ _ _ _ _ _ _ T2 ltac:(left) Vh') as (x' & Ex' & _ & Eh').
  apply wp_bind. eapply wp_Done; [exact Ex'|]. rewrite Eh', Ph', <- (k_start_content h), Ch, Z.eqb_refl.
  apply wp_bind, wp_ret, wp_ret. apply HQ; [done|]. kept_tac.
Qed.

Lemma wp_findPartition V U w l z id fuel Q : tab V ∅ ∅ U w -> chain V l z -> Z.of_nat (length U) < cacheSize w -> (length l < fuel)%nat ->
  match List.find (main_named id) l with
  | Some c => forall i w', tab V ∅ ∅ ((i, k_start c) :: U) w' -> kept w w' -> Q (Some i, 0) w'
  | None => forall w', tab V ∅ ∅ U w' -> kept w w' -> Q (None, - ENOENT) w'
  end -> wp (apaFindPartition fuel dv id) w Q.
Proof.
  intros T HC HU Hf HQ. destruct l as [|c0 l]; [by destruct HC|]. pose proof HC as (_ & (E0 & _) & [(h0 & V0 & _) _]).
  unfold apaFindPartition. apply wp_bind. rewrite E0 in V0. eapply wp_get; [exact T|exact V0|done|]. intros i w1 T1 K1. rewrite <- E0 in T1.
  match goal with |- wp (while_ _ ?B _) _ _ => set (body := B) end.
  assert (HL : forall post pre c n i w1, chain V (pre ++ c :: post) z -> tab V ∅ ∅ ((i, k_start c) :: U) w1 -> kept w w1 -> (S (length post) < n)%nat ->
    match List.find (main_named id) (c :: post) with
    | Some c => forall i w', tab V ∅ ∅ ((i, k_start c) :: U) w' -> kept w w' -> Q (Some i, 0) w'
    | None => forall w', tab V ∅ ∅ U w' -> kept w w' -> Q (None, - ENOENT) w'
    end -> wp (while_ n body (Some i, 0)) w1 Q).
  { clear - HU. intros post pre c n. revert pre c. revert post. induction n as [|n IH]; intros post pre c i w1 HC T K1 Hf HQ; [lia|].
    destruct (chain_lookup _ _ _ c HC ltac:(apply elem_of_app; right; left)) as (h & Vh & Ch). cbn [List.find] in HQ.
    apply wp_bind. unfold body at 1. apply wp_bind. eapply wp_header; [exact T|left|exact Vh|].
    rewrite <- (k_flags_content h), <- (k_id_content h), Ch. fold (main_named id c).
    destruct (main_named id c) eqn:EM; [apply wp_ret, wp_ret; by apply HQ|].
    apply wp_bind. eapply wp_getNextHeader; [exact T|exact HC|destruct K1 as (-> & _); lia|]. simpl in Hf. destruct post as [|c' post].
    - intros w2 T2 K2. apply wp_ret. destruct n as [|n]; [lia|]. apply wp_bind. unfold body. apply wp_ret, wp_ret. apply HQ; [done|kept_tac].
    - intros p' w2 T2 K2. apply wp_ret. apply (IH post (pre ++ [c]) c'); [by rewrite <- app_assoc|done|kept_tac|simpl in Hf; lia|done]. }
  by eapply (HL l [] c0 fuel i w1).
Qed.
End Walk.
