(* ===== verification/Hdd.v ===== *)
(** * Hdd: partition placement and start-up of the APA driver

    iop/hdd/apa/src/hdd.c: [hddAddPartitionHere], which puts a new partition in
    a free block or after the last partition (padding with free blocks until
    the new one is aligned to its size), and the module entry point. *)

From stdpp Require Import base numbers list gmap.
From Stdlib Require Import ZArith Lia.
From S2P Require Import Prelude Ata ApaState ApaCache ApaPart.

Open Scope Z_scope.
Open Scope c_scope.

(** [hddDevices[device]] *)
Definition hddDevice (device : Z) : M world apa_device_t := fun w =>
  if device <? 0 then Undef else
  match hddDevices w !! Z.to_nat device with
  | Some d => Done d w
  | None => Undef
  end.

Definition devmod (device : Z) (f : apa_device_t -> apa_device_t) : M world unit := fun w =>
  match hddDevices w !! Z.to_nat device with
  | Some d => Done tt (with_devices (<[Z.to_nat device := f d]> (hddDevices w)) w)
  | None => Undef
  end.

Definition hddCheckPartitionMax (device size : Z) : M world Z :=
  d <- hddDevice device ;;
  ret (if size <=? d_partitionMaxSize d then 0 else - EINVAL).

(** The first usable entry of [emptyBlocks]: [for(i=0;i<32;i++)]. *)
Fixpoint usableBlock (i : nat) (size : Z) (emptyBlocks : list Z) : option Z :=
  match emptyBlocks with
  | [] => None
  | b :: bs =>
      if (size <=? 2 ^ Z.of_nat i) && negb (b =? 0) then Some b
      else usableBlock (S i) size bs
  end.

(** The inner loop of the padding: the largest halving of [size] above
    0x3FFFF that divides [part_end]. *)
Fixpoint padSize (fuel : nat) (part_end tempSize : Z) : option Z :=
  match fuel with
  | O => None
  | S n =>
      if 0x3FFFF <? tempSize then
        if part_end mod tempSize =? 0 then Some tempSize
        else padSize n part_end (Z.shiftr tempSize 1)
      else None
  end.

(** [while(part_end%params->size)]: one free block per round, when there is
    one that fits.  State: the buffer of the last partition and [part_end]. *)
Definition hddPadLoop (device size : Z) (next : nat)
  : nat * Z -> M world ((nat * Z) + (nat * Z)) :=
  fun '(this, part_end) =>
  if part_end mod size =? 0 then ret (inr (this, part_end))
  else
    match padSize 33 part_end (Z.shiftr size 1) with
    | None => ret (inl (this, part_end))
    | Some tempSize =>
        h <- header this ;;
        clink_new <- apaRemovePartition device part_end 0 (h_start h) tempSize ;;
        hmod this (set_next part_end) ;;;
        mark_dirty this ;;;
        new <- deref clink_new ;;
        hn <- header new ;;
        hmod next (set_prev (h_start hn)) ;;;
        mark_dirty next ;;;
        apaCacheFlushAllDirty device ;;;
        apaCacheFree (Some this) ;;;
        ret (inl (new, u32 (part_end + tempSize)))
    end.

Definition hddAddPartitionHere (fuel : nat) (device : Z) (params : apa_params_t)
    (emptyBlocks : list Z) (sector : Z) : M world (cptr * Z) :=
  let size := p_size params in
  match usableBlock 0 size (take 32 emptyBlocks) with
  | Some b => apaInsertPartition fuel device params b
  | None =>
      let* (clink_this, _) := apaCacheGetHeader device sector APA_IO_MODE_READ in
      this <- deref clink_this ;;
      h <- header this ;;
      let part_end := u32 (h_start h + h_length h) in
      if size =? 0 then undef
      else
        let some_size := part_end mod size in
        let tmp := if nz some_size then size - some_size else 0 in
        d <- hddDevice device ;;
        if (d_totalLBA d <? u32 (part_end + size + tmp)) || (part_end <? sector) then
          apaCacheFree (Some this) ;;;
          ret (None, - ENOSPC)
        else
          let* (clink_next, err) := apaCacheGetHeader device 0 APA_IO_MODE_READ in
          match clink_next with
          | None => apaCacheFree (Some this) ;;; ret (None, err)
          | Some next =>
              let* (this, part_end) := while_ fuel (hddPadLoop device size next) (this, part_end) in
              h <- header this ;;
              let* (clink_new, err) := apaFillHeader device params part_end 0 (h_start h) size in
              match clink_new with
              | Some new =>
                  hmod this (set_next part_end) ;;;
                  mark_dirty this ;;;
                  hn <- header new ;;
                  hmod next (set_prev (h_start hn)) ;;;
                  mark_dirty next ;;;
                  apaCacheFlushAllDirty device ;;;
                  ret tt
              | None => ret tt
              end ;;;
              apaCacheFree (Some this) ;;;
              apaCacheFree (Some next) ;;;
              ret (clink_new, err)
          end
  end.

(** ** Start-up *)

(** What [_start] learns from the other modules: the drives atad found
    ([ata_get_devinfo]: exists, has_packet, total_sectors), the i.Link id and
    the drive's answer to the unlock command, and [AddDrv]'s result. *)
Record startEnv := mkStartEnv {
  ata_get_devinfo : Z -> option (Z * Z * Z);
  sceCdRI : option (list Z);
  ata_device_sce_sec_unlock : Z -> list Z -> Z;
  AddDrv : Z
}.

(** [apaGetIlinkID] of misc.c. *)
Definition apaGetIlinkID (env : startEnv) : Z * list Z :=
  match sceCdRI env with
  | Some id => (0, id)
  | None => (- EIO, replicate 32 0)
  end.

Definition unlockDrive (env : startEnv) (device : Z) : Z :=
  let '(rv, id) := apaGetIlinkID env in
  if rv =? 0 then ata_device_sce_sec_unlock env device id else rv.

Definition str_o : list Z := [45; 111].   (* "-o" *)
Definition str_n : list Z := [45; 110].   (* "-n" *)

(** The option loop: None is [inputError].  State: [cacheSize]. *)
Fixpoint startArgs (fuel : nat) (argv : list (list Z)) (csize : Z) : M world (option Z) :=
  match fuel, argv with
  | S n, a :: rest =>
      if negb (nth 0 a 0 =? 45) then ret (Some csize)
      else if bool_decide (a = str_o) then
        match rest with
        | [] => ret None
        | v :: rest' =>
            let i := strtol10 v in
            when (i - 1 <? 32) (modify (with_maxOpen i)) ;;;
            startArgs n rest' csize
        end
      else if bool_decide (a = str_n) then
        match rest with
        | [] => ret None
        | v :: rest' =>
            let i := strtol10 v in
            startArgs n rest' (if csize <? i then i else csize)
        end
      else startArgs n rest csize
  | _, _ => ret (Some csize)
  end.

Definition dec_status (d : apa_device_t) : apa_device_t :=
  mkDevice (d_totalLBA d) (d_partitionMaxSize d) (d_format d) (d_status d - 1).

Definition zero_slot : hdd_file_slot_t :=
  mkSlot None 0 0 0 (replicate 32 0) (replicate 65 (0, 0)).

Definition MODULE_RESIDENT_END : Z := 0.
Definition MODULE_NO_RESIDENT_END : Z := 1.

(** The probe of drive [i]; [inr] is the early return 0. *)
Definition startProbe (env : startEnv) (i : Z) (_ : unit) : M world (unit + Z) :=
  match ata_get_devinfo env i with
  | None => ret (inr 0)
  | Some (ex, packet, total) =>
      when (nz ex && (packet =? 0))
        (devmod i dec_status ;;;
         devmod i (fun d => mkDevice total (apaGetPartitionMax total) (d_format d) (d_status d)) ;;;
         when (unlockDrive env i =? 0) (devmod i dec_status)) ;;;
      ret (inl tt)
  end.

(** Restoring the journal and checking the format of drive [i]; [inr] is the
    early return 1. *)
Definition startMount (i : Z) (_ : unit) : M world (unit + Z) :=
  d <- hddDevice i ;;
  if d_status d <? 2 then
    r <- apaJournalRestore i ;;
    if nz r then ret (inr 1)
    else
      let* (ok, format) := apaGetFormat i in
      devmod i (fun d => mkDevice (d_totalLBA d) (d_partitionMaxSize d) (s32 format) (d_status d)) ;;;
      when ok (devmod i dec_status) ;;;
      ret (inl tt)
  else ret (inl tt).

Definition _start (env : startEnv) (argv : list (list Z)) : M world Z :=
  args <- startArgs (S (length argv)) (drop 1 argv) 3 ;;
  match args with
  | None => ret 1
  | Some csize =>
      apaGetTime ;;;
      r <- for_break [0; 1] (startProbe env) tt ;;
      match r with
      | inr v => ret v
      | inl _ =>
          mem <- apaAllocMem ;;
          mo <- gets apaMaxOpen ;;
          modify (with_slots (match mem with
                              | Some _ => replicate (Z.to_nat mo) zero_slot
                              | None => []
                              end)) ;;;
          apaCacheInit csize ;;;
          r <- for_break [0; 1] startMount tt ;;
          match r with
          | inr v => ret v
          | inl _ =>
              if AddDrv env =? 0 then ret MODULE_RESIDENT_END
              else ret MODULE_NO_RESIDENT_END
          end
      end
  end.
