(* ===== verification/HddFio.v ===== *)
(** * HddFio: the file operations of the APA driver

    iop/hdd/apa/src/hdd_fio.c: the parser of partition descriptions
    ("id,fpwd,rpwd,size,fstype"), the file slots, opening, reading, seeking,
    removing and renaming partitions, formatting a drive, and the ioctl2 and
    devctl commands.  C strings are byte lists without their NUL.  A function
    that fills a caller's object returns it beside its result. *)

From stdpp Require Import base numbers list gmap.
From Stdlib Require Import ZArith Lia.
From S2P Require Import Prelude Ata Password ApaState ApaCache ApaPart Hdd.

Open Scope Z_scope.
Open Scope c_scope.

Definition O_WRONLY : Z := 0x0002.
Definition O_DIROPEN : Z := 0x0008.
Definition O_CREAT : Z := 0x0200.
Definition SEEK_SET : Z := 0.
Definition SEEK_CUR : Z := 1.
Definition SEEK_END : Z := 2.

(** ** The lock *)

(** A binary semaphore: waiting on a taken one never returns (there is no
    other thread to signal it); signalling beyond 1 has no effect. *)
Definition WaitSema : M world unit := fun w =>
  match fioSema w with
  | None => Done tt w
  | Some n => if 0 <? n then Done tt (with_sema (Some (n - 1)) w) else NoFuel
  end.
Definition SignalSema : M world unit :=
  modify (fun w => with_sema (match fioSema w with
                              | None => None
                              | Some n => Some (Z.min 1 (n + 1))
                              end) w).

Definition hddInit : M world Z := modify (with_sema (Some 1)) ;;; ret 0.
Definition hddDeinit : M world Z := modify (with_sema None) ;;; ret 0.

(** ** Parsing *)

(** sizeList: "128M" "256M" "512M" "1G" "2G" "4G" "8G" "16G" "32G" *)
Definition sizeList : list (list Z) :=
  [[49; 50; 56; 77]; [50; 53; 54; 77]; [53; 49; 50; 77]; [49; 71]; [50; 71];
   [52; 71]; [56; 71]; [49; 54; 71]; [51; 50; 71]].

Fixpoint sizeLookUp (i : Z) (l : list (list Z)) (str : list Z) : Z :=
  match l with
  | [] => - EINVAL
  | s :: l' => if bool_decide (str = s) then Z.shiftl (256 * 1024) i else sizeLookUp (i + 1) l' str
  end.

Definition fioPartitionSizeLookUp (str : list Z) : Z := sizeLookUp 0 sizeList str.

(** [strchr(s, ',')]: the bytes before the first comma and those after it. *)
Fixpoint split_comma (s : list Z) : option (list Z * list Z) :=
  match s with
  | [] => None
  | c :: s' =>
      if c =? 44 then Some ([], s')
      else match split_comma s' with
           | Some (a, b) => Some (c :: a, b)
           | None => None
           end
  end.

Fixpoint skip_spaces (s : list Z) : list Z :=
  match s with
  | c :: s' => if c =? 32 then skip_spaces s' else s
  | [] => []
  end.

(** [memcpy(out, bytes, len)]: bytes that do not fit show as a longer array. *)
Definition memcpy_to (out bytes : list Z) : list Z := bytes ++ drop (length bytes) out.

(** Result: the error code, or [outBuf] with the field copied and the new [arg]. *)
Definition fioInputBreaker (arg outBuf : list Z) (maxout : nat) : Z + (list Z * list Z) :=
  match split_comma arg with
  | Some (field, rest) =>
      if (maxout <? length field)%nat then inl (- EINVAL)
      else inr (memcpy_to outBuf field, skip_spaces rest)
  | None =>
      if (maxout <? length arg)%nat then inl (- EINVAL) else inr (memcpy_to outBuf arg, [])
  end.

(** fsTypes: "PFS" "CFS" "EXT2" "EXT2SWAP" *)
Definition fsTypes : list (list Z * Z) :=
  [([80; 70; 83], APA_TYPE_PFS); ([67; 70; 83], APA_TYPE_CFS);
   ([69; 88; 84; 50], APA_TYPE_EXT2);
   ([69; 88; 84; 50; 83; 87; 65; 80], APA_TYPE_EXT2SWAP)].

Definition zero_params : apa_params_t :=
  mkParams (replicate 32 0) (replicate 8 0) (replicate 8 0) 0 0 0 0 0.

(** A password field: encrypted in place under the id unless it is empty. *)
Definition encryptField (id pw : list Z) : list Z :=
  if nth 0 pw 0 =? 0 then pw else memcpy_to pw (apaEncryptPassword id pw).

(** Result: the return value and [*params]. *)
Definition fioGetInput (arg : list Z) : Z * apa_params_t :=
  let arg := skip_spaces arg in
  let p := zero_params in
  if (nth 0 arg 0 =? 0) || (nth 0 arg 0 =? 44) then (- EINVAL, p) else
  match fioInputBreaker arg (p_id p) APA_IDMAX with
  | inl rv => (rv, p)
  | inr (id, arg) =>
  let p := mkParams id (p_fpwd p) (p_rpwd p) 0 0 0 0 0 in
  if nth 0 arg 0 =? 0 then (0, p) else
  match fioInputBreaker arg (p_fpwd p) APA_PASSMAX with
  | inl rv => (rv, p)
  | inr (fp, arg) =>
  let p := mkParams id (encryptField id fp) (p_rpwd p) 0 0 0 0 0 in
  if nth 0 arg 0 =? 0 then (0, p) else
  match fioInputBreaker arg (p_rpwd p) APA_PASSMAX with
  | inl rv => (rv, p)
  | inr (rp, arg) =>
  let p := mkParams id (p_fpwd p) (encryptField id rp) 0 0 0 0 0 in
  if nth 0 arg 0 =? 0 then (0, p) else
  let argBuf := replicate 32 0 in
  match fioInputBreaker arg argBuf (length argBuf) with
  | inl rv => (rv, p)
  | inr (argBuf, arg) =>
  let rv := fioPartitionSizeLookUp (cstr argBuf) in
  if rv <? 0 then (rv, p) else
  let p := mkParams id (p_fpwd p) (p_rpwd p) rv 0 0 0 0 in
  let argBuf := replicate 32 0 in
  match fioInputBreaker arg argBuf (length argBuf) with
  | inl rv => (rv, p)
  | inr (argBuf, arg) =>
  match list_find (fun e => e.1 = cstr argBuf) fsTypes with
  | Some (_, (_, t)) => (0, mkParams id (p_fpwd p) (p_rpwd p) (p_size p) t 0 0 0)
  | None => (- EINVAL, p)
  end end end end end end.

(** ** Files and slots *)

Definition file (f : nat) : M world iop_file_t := fun w =>
  match files w !! f with Some x => Done x w | None => Undef end.
Definition fmod (f : nat) (g : iop_file_t -> iop_file_t) : M world unit := fun w =>
  match files w !! f with
  | Some x => Done tt (with_files (<[f := g x]> (files w)) w)
  | None => Undef
  end.
Definition slot (i : nat) : M world hdd_file_slot_t := fun w =>
  match hddFileSlots w !! i with Some x => Done x w | None => Undef end.
Definition smod (i : nat) (g : hdd_file_slot_t -> hdd_file_slot_t) : M world unit := fun w =>
  match hddFileSlots w !! i with
  | Some x => Done tt (with_slots (<[i := g x]> (hddFileSlots w)) w)
  | None => Undef
  end.
(** [f->privdata] *)
Definition privdata (f : nat) : M world nat :=
  x <- file f ;;
  match f_privdata x with Some i => ret i | None => undef end.

Definition set_post (v : Z) (s : hdd_file_slot_t) : hdd_file_slot_t :=
  mkSlot (s_f s) (u32 v) (s_nsub s) (s_type s) (s_id s) (s_parts s).
Definition set_slot_f (f : option nat) (s : hdd_file_slot_t) : hdd_file_slot_t :=
  mkSlot f (s_post s) (s_nsub s) (s_type s) (s_id s) (s_parts s).
Definition set_snsub (v : Z) (s : hdd_file_slot_t) : hdd_file_slot_t :=
  mkSlot (s_f s) (s_post s) (u16 v) (s_type s) (s_id s) (s_parts s).
Definition set_part (i : nat) (p : Z * Z) (s : hdd_file_slot_t) : hdd_file_slot_t :=
  mkSlot (s_f s) (s_post s) (s_nsub s) (s_type s) (s_id s) (<[i := p]> (s_parts s)).
(** [fileSlot->parts[i]] *)
Definition part (i : Z) (s : hdd_file_slot_t) : M world (Z * Z) :=
  match s_parts s !! Z.to_nat i with
  | Some p => if i <? 0 then undef else ret p
  | None => undef
  end.

(** Is a slot with this id open: [for(i=0;i<apaMaxOpen;i++)]. *)
Definition isOpen (id : list Z) : M world bool :=
  n <- gets apaMaxOpen ;;
  r <- for_break (seq 0 (Z.to_nat n)) (fun i (_ : unit) =>
         s <- slot i ;;
         match s_f s with
         | Some _ => if memeq (s_id s) id APA_IDMAX then ret (inr tt) else ret (inl tt)
         | None => ret (inl tt)
         end) tt ;;
  ret (match r with inl _ => false | inr _ => true end).

Definition getFileSlot (params : apa_params_t) : M world (Z * option nat) :=
  busy <- isOpen (p_id params) ;;
  if busy : bool then ret (- EBUSY, None)
  else
    n <- gets apaMaxOpen ;;
    r <- for_break (seq 0 (Z.to_nat n)) (fun i (_ : unit) =>
           s <- slot i ;;
           match s_f s with
           | None => ret (inr i)
           | Some _ => ret (inl tt)
           end) tt ;;
    match r with
    | inr i => ret (0, Some i)
    | inl _ => ret (- EMFILE, None)
    end.

(** ** Data transfer *)

(** Result: the return value and the caller's buffer. *)
Definition fioDataTransfer (f : nat) (b : buf) (size mode : Z) : M world (Z * buf) :=
  i <- privdata f ;;
  s <- slot i ;;
  if nz (Z.land size 0x1FF) then ret (- EINVAL, b)
  else
    let size := Z.shiftr size 9 in
    let size := if 0x1FF9 <=? u32 (s_post s + size) then s32 (0x1FF8 - s_post s) else size in
    if nz size then
      WaitSema ;;;
      x <- file f ;;
      p0 <- part 0 s ;;
      let* (r, b') := ata_op (ata_device_sector_io (f_unit x) b
                                (u32 (s_post s + p0.1 + 8)) (u32 size) mode) in
      SignalSema ;;;
      if nz r then ret (- EIO, b')
      else
        smod i (fun s => set_post (s_post s + size) s) ;;;
        ret (Z.shiftl size 9, b')
    else ret (0, b).

(** [hddIoctl2Transfer_t] *)
Record hddIoctl2Transfer_t := mkTransfer {
  t_sub : Z; t_sector : Z; t_size : Z; t_mode : Z; t_buffer : buf
}.

Definition ioctl2Transfer (device : Z) (fileSlot : nat) (arg : hddIoctl2Transfer_t)
  : M world (Z * buf) :=
  s <- slot fileSlot ;;
  if s_nsub s <? t_sub arg then ret (- ENODEV, t_buffer arg)
  else if (t_sub arg =? 0) && (t_sector arg <? 0x2000) then ret (- EINVAL, t_buffer arg)
  else if negb (t_sub arg =? 0) && (t_sector arg <? 2) then ret (- EINVAL, t_buffer arg)
  else
    p <- part (t_sub arg) s ;;
    if p.2 <? u32 (t_sector arg + t_size arg) then ret (- ENXIO, t_buffer arg)
    else
      let* (r, b) := ata_op (ata_device_sector_io device (t_buffer arg)
                               (u32 (p.1 + t_sector arg)) (t_size arg) (t_mode arg)) in
      if nz r then ret (- EIO, b) else ret (0, b).

Definition hddRead (f : nat) (b : buf) (size : Z) : M world (Z * buf) :=
  fioDataTransfer f b size ATA_DIR_READ.

Definition hddWrite (f : nat) (b : buf) (size : Z) : M world (Z * buf) :=
  x <- file f ;;
  if negb (nz (Z.land (f_mode x) O_WRONLY)) then ret (- EACCES, b)
  else fioDataTransfer f b size ATA_DIR_WRITE.

Definition hddLseek (f : nat) (post whence : Z) : M world Z :=
  if whence =? SEEK_END then ret (- EINVAL)
  else if nz (Z.land post 0x1FF) then ret (- EINVAL)
  else
    let post := Z.shiftr post 9 in
    WaitSema ;;;
    i <- privdata f ;;
    s <- slot i ;;
    rv <- (if whence =? SEEK_CUR then
             (* unsigned: the test for < 0 is never true *)
             if 0x1FF9 <=? u32 (s_post s + post) then ret (- EINVAL)
             else smod i (set_post (s_post s + post)) ;;;
                  ret (s32 (Z.shiftl (u32 (s_post s + post)) 9))
           else if whence =? SEEK_SET then
             if (post <? 0) || (0x1FF9 <=? post) then ret (- EINVAL)
             else smod i (set_post post) ;;; ret (Z.shiftl post 9)
           else ret 0) ;;
    SignalSema ;;;
    ret rv.

(** ** Opening, removing, renaming *)

(** The walk of [apaOpen]: looks for the partition and collects free blocks.
    Result: the buffer found, [rv], [emptyBlocks] and the last sector. *)
Definition apaOpenWalk (fuel : nat) (device : Z) (id : list Z)
  : M world (cptr * Z * list Z * Z) :=
  let* (clink, rv) := apaCacheGetHeader device 0 APA_IO_MODE_READ in
  while_ fuel (fun '(clink, rv, empty, sector) =>
    match clink with
    | None => ret (inr (None, rv, empty, sector))
    | Some p =>
        c <- cget p ;;
        let sector := c_sector c in
        let h := c_header c in
        if negb (nz (Z.land (h_flags h) APA_FLAG_SUB)) && memeq (h_id h) id APA_IDMAX
        then ret (inr (Some p, rv, empty, sector))
        else
          let empty := apaAddEmptyBlock h empty in
          let* (clink, rv) := apaGetNextHeader p rv in
          ret (inl (clink, rv, empty, sector))
    end) (clink, rv, replicate 32 0, 0).

(** The sub-partitions of a header. *)
Definition h_subs (h : buf) : list (Z * Z) :=
  map (fun i => (h_sub_start h i, h_sub_length h i)) (seq 0 64).

Definition apaOpen (fuel : nat) (device : Z) (fileSlot : nat) (params : apa_params_t) (mode : Z)
  : M world Z :=
  let* (clink, rv, emptyBlocks, sector) := apaOpenWalk fuel device (p_id params) in
  if nz rv then ret rv
  else
    let* (clink, rv) :=
      match clink with
      | Some p => ret (Some p, - ENOENT)
      | None =>
          if nz (Z.land mode O_CREAT) then
            rv <- hddCheckPartitionMax device (p_size params) ;;
            if 0 <=? rv then
              let* (clink, rv) := hddAddPartitionHere fuel device params emptyBlocks sector in
              match clink with
              | None => ret (None, rv)
              | Some p =>
                  h <- header p ;;
                  let sector := h_start h in
                  clink2 <- apaCacheAlloc ;;
                  p2 <- deref clink2 ;;
                  hmod p2 (fun _ => blank_header) ;;;
                  cache_io device p2 (u32 (sector + 8)) 2 ATA_DIR_WRITE ;;;
                  cache_io device p2 (u32 (sector + 0x2000)) 2 ATA_DIR_WRITE ;;;
                  apaCacheFree clink2 ;;;
                  ret (Some p, rv)
              end
            else ret (None, rv)
          else ret (None, - ENOENT)
      end in
    match clink with
    | None => ret rv
    | Some p =>
        h <- header p ;;
        smod fileSlot (fun s =>
          mkSlot (s_f s) (s_post s) (u16 (h_nsub h)) (h_type h) (h_id h)
                 ((h_start h, h_length h) :: h_subs h)) ;;;
        apaCacheFree (Some p) ;;;
        h <- header p ;;
        if nz (apaPassCmp (h_fpwd h) (p_fpwd params)) then
          if negb (nz (Z.land mode O_WRONLY))
          then ret (apaPassCmp (h_rpwd h) (p_rpwd params))
          else ret (- EACCES)
        else ret 0
    end.

(** [id[0]=='_' && id[1]=='_'] *)
Definition isSystemId (id : list Z) : bool := (nth 0 id 0 =? 95) && (nth 1 id 0 =? 95).

(** Deleting the sub-partitions, last first; [inr] is an early return. *)
Definition apaRemoveSubs (fuel : nat) (device : Z) (p : nat) (nsub : Z) (rv : Z)
  : M world (Z + Z) :=
  for_break (rev (seq 0 (Z.to_nat nsub))) (fun i rv =>
    if (64 <=? i)%nat then undef
    else
      h <- header p ;;
      let* (clink2, rv) := apaCacheGetHeader device (h_sub_start h i) APA_IO_MODE_READ in
      match clink2 with
      | None => ret (inl rv)
      | Some p2 =>
          rv <- apaDelete fuel p2 ;;
          if nz rv then apaCacheFree (Some p) ;;; ret (inr rv) else ret (inl rv)
      end) rv.

Definition apaRemove (fuel : nat) (device : Z) (id fpwd : list Z) : M world Z :=
  busy <- isOpen id ;;
  if busy : bool then ret (- EBUSY)
  else if isSystemId id then ret (- EACCES)
  else
    let* (clink, rv) := apaFindPartition fuel device id in
    match clink with
    | None => ret rv
    | Some p =>
        h <- header p ;;
        if nz (apaPassCmp (h_fpwd h) fpwd) then
          apaCacheFree (Some p) ;;; ret (- EACCES)
        else
          let nsub := h_nsub h in
          hmod p (set_nsub 0) ;;;
          mark_dirty p ;;;
          apaCacheFlushAllDirty device ;;;
          r <- apaRemoveSubs fuel device p nsub rv ;;
          match r with
          | inr rv => ret rv
          | inl rv =>
              if rv =? 0 then apaDelete fuel p
              else apaCacheFree (Some p) ;;; ret rv
          end
    end.

Definition apaRename (fuel : nat) (device : Z) (oldParams newParams : apa_params_t) : M world Z :=
  let* (clink, rv) := apaFindPartition fuel device (p_id newParams) in
  match clink with
  | Some p => apaCacheFree (Some p) ;;; SignalSema ;;; ret (- EEXIST)
  | None =>
      busy <- isOpen (p_id oldParams) ;;
      if busy : bool then SignalSema ;;; ret (- EBUSY)
      else if isSystemId (p_id oldParams) then ret (- EACCES)
      else
        let* (clink, rv) := apaFindPartition fuel device (p_id oldParams) in
        match clink with
        | None => SignalSema ;;; ret rv
        | Some p =>
            h <- header p ;;
            if nz (apaPassCmp (h_fpwd h) (p_fpwd oldParams)) then
              apaCacheFree (Some p) ;;; ret (- EACCES)
            else
              hmod p (set_id (p_id newParams)) ;;;
              hmod p (set_rpwd (p_rpwd newParams)) ;;;
              hmod p (set_fpwd (p_fpwd newParams)) ;;;
              mark_dirty p ;;;
              apaCacheFlushAllDirty device ;;;
              apaCacheFree (Some p) ;;;
              ret 0
        end
  end.

Definition hddRemove (fuel : nat) (f : nat) (name : list Z) : M world Z :=
  let '(rv, params) := fioGetInput name in
  if rv <? 0 then ret rv
  else
    WaitSema ;;;
    x <- file f ;;
    rv <- apaRemove fuel (f_unit x) (p_id params) (p_fpwd params) ;;
    SignalSema ;;;
    ret rv.

Definition hddReName (fuel : nat) (f : nat) (oldname newname : list Z) : M world Z :=
  let '(rv, oldParams) := fioGetInput oldname in
  if rv <? 0 then ret rv
  else
    let '(rv, newParams) := fioGetInput newname in
    if rv <? 0 then ret rv
    else
      WaitSema ;;;
      x <- file f ;;
      rv <- apaRename fuel (f_unit x) oldParams newParams ;;
      SignalSema ;;;
      ret rv.

(** [stack] is what the uninitialised [params] holds when a directory is
    opened. *)
Definition hddOpen (fuel : nat) (stack : apa_params_t) (f : nat) (name : list Z) (flags : Z)
  : M world Z :=
  x <- file f ;;
  if 2 <=? f_unit x then ret (- ENODEV)
  else
    d <- hddDevice (f_unit x) ;;
    if negb (d_status d =? 0) then ret (- ENODEV)
    else
      let dir := nz (Z.land (f_mode x) O_DIROPEN) in
      let '(rv, params) := if dir then (0, stack) else fioGetInput name in
      if rv <? 0 then ret rv
      else
        WaitSema ;;;
        let* (rv, fileSlot) := getFileSlot params in
        rv <- match fileSlot with
              | None => ret rv
              | Some i =>
                  rv <- (if dir then ret 0
                         else apaOpen fuel (f_unit x) i params flags) ;;
                  when (rv =? 0)
                    (smod i (set_slot_f (Some f)) ;;;
                     fmod f (fun x => mkFile (f_mode x) (f_unit x) (Some i))) ;;;
                  ret rv
              end ;;
        SignalSema ;;;
        ret rv.

Definition hddClose (f : nat) : M world Z :=
  WaitSema ;;;
  i <- privdata f ;;
  smod i (fun _ => zero_slot) ;;;
  SignalSema ;;;
  ret 0.

Definition hddDopen (fuel : nat) (stack : apa_params_t) (f : nat) (name : list Z) : M world Z :=
  hddOpen fuel stack f name 0.

(** ** Stat and directory reading *)

Record iox_stat_t := mkStat {
  st_mode : Z; st_attr : Z; st_size : Z; st_ctime : buf; st_atime : buf; st_mtime : buf;
  st_hisize : Z; st_private_0 : Z; st_private_5 : Z   (* private_1..4 are 0 *)
}.

Definition fioGetStatFiller (h : buf) : iox_stat_t :=
  mkStat (h_type h) (h_flags h) (h_length h) (h_created h) (h_created h) (h_created h) 0
    (if nz (Z.land (h_flags h) APA_FLAG_SUB) then h_number h else h_nsub h) 0.

Definition hddGetStat (fuel : nat) (f : nat) (name : list Z) : M world (Z * option iox_stat_t) :=
  let '(rv, params) := fioGetInput name in
  if rv <? 0 then ret (rv, None)
  else
    WaitSema ;;;
    x <- file f ;;
    let* (clink, rv) := apaFindPartition fuel (f_unit x) (p_id params) in
    r <- match clink with
         | None => ret (rv, None)
         | Some p =>
             h <- header p ;;
             let rv := apaPassCmp (h_fpwd h) (p_fpwd params) in
             let rv := if rv =? 0 then rv else apaPassCmp (h_rpwd h) (p_rpwd params) in
             apaCacheFree (Some p) ;;;
             ret (rv, if rv =? 0 then Some (fioGetStatFiller h) else None)
         end ;;
    SignalSema ;;;
    ret r.

(** [strncpy(name, id, 32); name[32] = 0] and its length. *)
Definition direntName (id : list Z) : list Z := cstr (take 32 id).

(** Result: the return value, the name and the stat written to [dirent]. *)
Definition hddDread (f : nat) : M world (Z * option (list Z) * option iox_stat_t) :=
  x <- file f ;;
  if negb (nz (Z.land (f_mode x) O_DIROPEN)) then ret (- ENOTDIR, None, None)
  else
    i <- privdata f ;;
    s <- slot i ;;
    p0 <- part 0 s ;;
    if p0.1 =? 0xFFFFFFFF then ret (0, None, None)
    else
      WaitSema ;;;
      let* (clink, rv) := apaCacheGetHeader (f_unit x) p0.1 APA_IO_MODE_READ in
      r <- match clink with
           | None => ret (rv, None, None)
           | Some p =>
               h <- header p ;;
               if h_length h =? 0 then ret (rv, None, None)
               else
                 let* (rv, name) :=
                   if nz (Z.land (h_flags h) APA_FLAG_SUB) then
                     let* (cmain, rv) := apaCacheGetHeader (f_unit x) (h_main h) APA_IO_MODE_READ in
                     match cmain with
                     | None => ret (rv, None)
                     | Some pm =>
                         hm <- header pm ;;
                         apaCacheFree cmain ;;;
                         ret (Z.of_nat (length (direntName (h_id hm))), Some (direntName (h_id hm)))
                     end
                   else ret (Z.of_nat (length (direntName (h_id h))), Some (direntName (h_id h))) in
                 smod i (fun s => set_part 0 (if h_next h =? 0 then 0xFFFFFFFF else h_next h,
                                              (nth 0 (s_parts s) (0, 0)).2) s) ;;;
                 apaCacheFree (Some p) ;;;
                 ret (rv, name, Some (fioGetStatFiller h))
           end ;;
      SignalSema ;;;
      ret r.

(** ** Formatting *)

(** formatPartList: "__net" "__system" "__sysconf" "__common" *)
Definition formatPartList : list (list Z) :=
  [[95; 95; 110; 101; 116]; [95; 95; 115; 121; 115; 116; 101; 109];
   [95; 95; 115; 121; 115; 99; 111; 110; 102]; [95; 95; 99; 111; 109; 109; 111; 110]].

(** [for(i=1024*8;i<totalLBA;i+=(1024*256))]: clear the places of headers. *)
Definition formatClear (device totalLBA : Z) (p : nat) : Z -> M world (Z + unit) := fun i =>
  if i <? totalLBA then
    cache_io device p i 2 ATA_DIR_WRITE ;;;
    ret (inl (u32 (i + 1024 * 256)))
  else ret (inr tt).

(** The master boot record. *)
Definition formatMbr (device : Z) (p : nat) : M world unit :=
  hmod p (fun _ => blank_header) ;;;
  hmod p (set_magic APA_MAGIC) ;;;
  hmod p (set_length (1024 * 256)) ;;;
  hmod p (set_type APA_TYPE_MBR) ;;;
  hmod p (strcpy_id str_mbr) ;;;
  hmod p (set_mbr_magic apaMBRMagic) ;;;
  hmod p (set_mbr_version APA_MBR_VERSION) ;;;
  hmod p (set_mbr_nsector 0) ;;;
  t <- apaGetTime ;;
  hmod p (set_created t) ;;;
  t <- apaGetTime ;;
  hmod p (set_mbr_created t) ;;;
  hmod p (fun h => set_checksum (apaCheckSum h) h) ;;;
  mark_dirty p ;;;
  apaCacheFlushDirty p ;;;
  ata_op (ata_device_flush_cache device) ;;;
  apaCacheFree (Some p) ;;;
  devmod device (fun d => mkDevice (d_totalLBA d) (d_partitionMaxSize d) APA_MBR_VERSION 0).

(** The system partitions; state: the previous buffer (None before the first
    one), the size and [rv]; [inr] is an early return. *)
Definition formatParts (fuel : nat) (device : Z)
  : list Z -> option nat * Z * Z -> M world ((option nat * Z * Z) + Z) :=
  fun name '(prev, size, rv) =>
  sector <- match prev with
            | None => ret 0
            | Some p => c <- cget p ;; ret (c_sector c)
            end ;;
  let params := mkParams (pad 32 name) (replicate 8 0) (replicate 8 0) size APA_TYPE_PFS 0 0 0 in
  let* (clink, rv) := hddAddPartitionHere fuel device params (replicate 32 0) sector in
  match clink with
  | None => ret (inr rv)
  | Some p =>
      apaCacheFree (Some p) ;;;
      d <- hddDevice device ;;
      let size := u32 (Z.shiftl size 1) in
      let size := if d_partitionMaxSize d <? size then d_partitionMaxSize d else size in
      ret (inl (Some p, size, rv))
  end.

Definition hddFormat (fuel : nat) (f : nat) : M world Z :=
  x <- file f ;;
  let unit := f_unit x in
  if 2 <=? unit then ret (- ENXIO)
  else
    clink <- apaCacheAlloc ;;
    p <- deref clink ;;
    hmod p (fun _ => blank_header) ;;;
    r <- cache_io unit p APA_SECTOR_SECTOR_ERROR 1 ATA_DIR_WRITE ;;
    if nz r then apaCacheFree clink ;;; ret (- EIO)
    else
      r <- cache_io unit p APA_SECTOR_PART_ERROR 1 ATA_DIR_WRITE ;;
      if nz r then apaCacheFree clink ;;; ret (- EIO)
      else
        d <- hddDevice unit ;;
        while_ fuel (formatClear unit (d_totalLBA d) p) (1024 * 8) ;;;
        apaCacheFree clink ;;;
        rv <- apaJournalReset unit ;;
        if nz rv then ret rv
        else
          let* (clink, rv) := apaCacheGetHeader unit 0 APA_IO_MODE_WRITE in
          match clink with
          | Some p => formatMbr unit p
          | None => ret tt
          end ;;;
          r <- for_break formatPartList (formatParts fuel unit) (None, 1024 * 256, rv) ;;
          match r with
          | inr rv => ret rv
          | inl (_, _, rv) => ret rv
          end.

(** ** ioctl2 *)

(** [fileSlot->f] *)
Definition slotFile (i : nat) : M world iop_file_t :=
  s <- slot i ;;
  match s_f s with Some f => file f | None => undef end.

(** The walk collecting free blocks; result: [rv], [emptyBlocks], [sector]. *)
Definition walkEmpty (fuel : nat) (device : Z) : M world (Z * list Z * Z) :=
  let* (clink, rv) := apaCacheGetHeader device 0 APA_IO_MODE_READ in
  while_ fuel (fun '(clink, rv, empty, sector) =>
    match clink with
    | None => ret (inr (rv, empty, sector))
    | Some p =>
        c <- cget p ;;
        let empty := apaAddEmptyBlock (c_header c) empty in
        let* (clink, rv) := apaGetNextHeader p rv in
        ret (inl (clink, rv, empty, c_sector c))
    end) (clink, rv, replicate 32 0, 0).

Definition ioctl2AddSub (fuel : nat) (fileSlot : nat) (argp : list Z) : M world Z :=
  x <- slotFile fileSlot ;;
  let device := f_unit x in
  if negb (nz (Z.land (f_mode x) O_WRONLY)) then ret (- EACCES)
  else
    s <- slot fileSlot ;;
    if negb (s_nsub s <? APA_MAXSUB) then ret (- EFBIG)
    else
      let rv := fioPartitionSizeLookUp argp in
      if rv <? 0 then ret rv
      else
        p0 <- part 0 s ;;
        let params := mkParams (replicate 32 0) (replicate 8 0) (replicate 8 0) rv (s_type s)
                        APA_FLAG_SUB p0.1 (s_nsub s + 1) in
        rv <- hddCheckPartitionMax device (p_size params) ;;
        if rv <? 0 then ret rv
        else
          let* (rv, emptyBlocks, sector) := walkEmpty fuel device in
          if nz rv then ret rv
          else
            let* (clink, rv) := hddAddPartitionHere fuel device params emptyBlocks sector in
            match clink with
            | None => ret rv
            | Some p =>
                h <- header p ;;
                let sector := h_start h in
                let length := h_length h in
                apaCacheFree (Some p) ;;;
                let* (clink, rv) := apaCacheGetHeader device p0.1 APA_IO_MODE_READ in
                match clink with
                | None => ret rv
                | Some m =>
                    hm <- header m ;;
                    if 64 <=? h_nsub hm then undef
                    else
                      hmod m (set_sub (Z.to_nat (h_nsub hm)) sector length) ;;;
                      hmod m (set_nsub (h_nsub hm + 1)) ;;;
                      smod fileSlot (fun s => set_snsub (s_nsub s + 1) s) ;;;
                      smod fileSlot (fun s => set_part (Z.to_nat (s_nsub s)) (sector, length) s) ;;;
                      mark_dirty m ;;;
                      apaCacheFlushAllDirty device ;;;
                      apaCacheFree (Some m) ;;;
                      ret rv
                end
            end.

Definition ioctl2DeleteLastSub (fuel : nat) (fileSlot : nat) : M world Z :=
  x <- slotFile fileSlot ;;
  let device := f_unit x in
  if negb (nz (Z.land (f_mode x) O_WRONLY)) then ret (- EACCES)
  else
    s <- slot fileSlot ;;
    if s_nsub s =? 0 then ret (- ENOENT)
    else
      p0 <- part 0 s ;;
      let* (mainPart, rv) := apaCacheGetHeader device p0.1 APA_IO_MODE_READ in
      match mainPart with
      | None => ret rv
      | Some m =>
          hm <- header m ;;
          if (h_nsub hm <? 1) || (64 <? h_nsub hm) then undef
          else
            let* (subPart, rv) := apaCacheGetHeader device
                                    (h_sub_start hm (Z.to_nat (h_nsub hm - 1))) APA_IO_MODE_READ in
            rv <- match subPart with
                  | None => ret rv
                  | Some sp =>
                      smod fileSlot (fun s => set_snsub (s_nsub s - 1) s) ;;;
                      hmod m (fun h => set_nsub (h_nsub h - 1) h) ;;;
                      mark_dirty m ;;;
                      apaCacheFlushAllDirty device ;;;
                      apaDelete fuel sp
                  end ;;
            apaCacheFree (Some m) ;;;
            ret rv
      end.

(** The argument of an ioctl2 request, by request. *)
Inductive ioctl2Arg : Type :=
| ArgNone
| ArgStr (s : list Z)
| ArgTransfer (t : hddIoctl2Transfer_t)
| ArgU32 (n : Z).

Definition HIOCADDSUB : Z := 0x6801.
Definition HIOCDELSUB : Z := 0x6802.
Definition HIOCNSUB : Z := 0x6803.
Definition HIOCFLUSH : Z := 0x6804.
Definition HIOCTRANSFER : Z := 0x6832.
Definition HIOCGETSIZE : Z := 0x6833.
Definition HIOCSETPARTERROR : Z := 0x6834.
Definition HIOCGETPARTERROR : Z := 0x6835.

(** [rv] is a [u32] here; the transfer buffer is returned with it. *)
Definition hddIoctl2 (fuel : nat) (f : nat) (req : Z) (argp : ioctl2Arg) : M world (Z * option buf) :=
  x <- file f ;;
  let fileSlot := match f_privdata x with Some i => ret i | None => undef end in
  WaitSema ;;;
  r <- (if req =? HIOCADDSUB then
          match argp with
          | ArgStr a => i <- fileSlot ;; rv <- ioctl2AddSub fuel i a ;; ret (rv, None)
          | _ => undef
          end
        else if req =? HIOCDELSUB then i <- fileSlot ;; rv <- ioctl2DeleteLastSub fuel i ;; ret (rv, None)
        else if req =? HIOCNSUB then i <- fileSlot ;; s <- slot i ;; ret (s_nsub s, None)
        else if req =? HIOCFLUSH then ata_op (ata_device_flush_cache (f_unit x)) ;;; ret (0, None)
        else if req =? HIOCTRANSFER then
          match argp with
          | ArgTransfer t =>
              i <- fileSlot ;;
              let* (rv, b) := ioctl2Transfer (f_unit x) i t in ret (rv, Some b)
          | _ => undef
          end
        else if req =? HIOCGETSIZE then
          match argp with
          | ArgU32 n => i <- fileSlot ;; s <- slot i ;; p <- part n s ;; ret (p.2, None)
          | _ => undef
          end
        else if req =? HIOCSETPARTERROR then
          i <- fileSlot ;;
          s <- slot i ;;
          p0 <- part 0 s ;;
          apaSetPartErrorSector (f_unit x) p0.1 ;;; ret (0, None)
        else if req =? HIOCGETPARTERROR then
          let* (rv, lba) := apaGetPartErrorSector (f_unit x) APA_SECTOR_PART_ERROR in
          if 0 <? u32 rv then
            match lba with
            | None => undef          (* err_lba was not written *)
            | Some err_lba =>
                i <- fileSlot ;;
                s <- slot i ;;
                p0 <- part 0 s ;;
                if err_lba =? p0.1 then
                  apaSetPartErrorSector (f_unit x) 0 ;;; ret (0, None)
                else ret (rv, None)
            end
          else ret (rv, None)
        else ret (- EINVAL, None)) ;;
  SignalSema ;;;
  ret (s32 r.1, r.2).

(** ** devctl *)

Definition devctlSwapTemp (fuel : nat) (device : Z) (argp : list Z) : M world Z :=
  let '(rv, params) := fioGetInput argp in
  if rv <? 0 then ret rv
  else if isSystemId (p_id params) then ret (- EINVAL)
  else
    let szBuf := pad 32 str_tmp in
    let* (partTemp, rv) := apaFindPartition fuel device szBuf in
    match partTemp with
    | None => ret rv
    | Some pt =>
        let* (partNew, rv) := apaFindPartition fuel device (p_id params) in
        rv <- match partNew with
              | None => ret rv
              | Some pn =>
                  hn <- header pn ;;
                  let rv := apaPassCmp (h_fpwd hn) (p_fpwd params) in
                  when (rv =? 0)
                    (hmod pt (set_id (h_id hn)) ;;;
                     hn <- header pn ;;
                     hmod pt (set_rpwd (h_rpwd hn)) ;;;
                     hn <- header pn ;;
                     hmod pt (set_fpwd (h_fpwd hn)) ;;;
                     hmod pn (set_id (replicate 32 0)) ;;;
                     hmod pn (strcpy_id str_tmp) ;;;
                     hmod pn (set_rpwd (replicate 8 0)) ;;;
                     hmod pn (set_fpwd (replicate 8 0)) ;;;
                     mark_dirty pt ;;;
                     mark_dirty pn ;;;
                     apaCacheFlushAllDirty device ;;;
                     ret tt) ;;;
                  apaCacheFree (Some pn) ;;;
                  ret rv
              end ;;
        apaCacheFree (Some pt) ;;;
        ret rv
    end.

Definition devctlSetOsdMBR (device start size : Z) : M world Z :=
  let* (clink, rv) := apaCacheGetHeader device APA_SECTOR_MBR APA_IO_MODE_READ in
  match clink with
  | None => ret rv
  | Some p =>
      hmod p (set_mbr_osdStart start) ;;;
      hmod p (set_mbr_osdSize size) ;;;
      mark_dirty p ;;;
      apaCacheFlushAllDirty device ;;;
      apaCacheFree (Some p) ;;;
      ret rv
  end.

(** The commands of [hddDevctl], with their arguments; [HDIOC_MISC] stands for
    the five commands that only forward to the drive or to dev9 (DEV9OFF, IDLE,
    SMARTSTAT, IDLEIMM, SCEIDENTIFY), whose answer is the parameter. *)
Inductive devctlCmd : Type :=
| HDIOC_MISC (answer : Z)
| HDIOC_MAXSECTOR
| HDIOC_TOTALSECTOR
| HDIOC_FLUSH
| HDIOC_SWAPTMP (arg : list Z)
| HDIOC_STATUS
| HDIOC_FORMATVER
| HDIOC_FREESECTOR
| HDIOC_GETTIME
| HDIOC_SETOSDMBR (start size : Z)
| HDIOC_GETSECTORERROR
| HDIOC_GETERRORPARTNAME
| HDIOC_READSECTOR (b : buf) (lba size : Z)
| HDIOC_WRITESECTOR (b : buf) (lba size : Z)
| HDIOC_OTHER.

(** What is written to [bufp]. *)
Inductive devctlOut : Type :=
| OutNone
| OutU32 (v : Z)
| OutBytes (b : list Z)
| OutBuf (b : buf).

Definition hddDevctl (fuel : nat) (f : nat) (cmd : devctlCmd) : M world (Z * devctlOut) :=
  WaitSema ;;;
  x <- file f ;;
  let unit := f_unit x in
  r <- match cmd with
       | HDIOC_MISC rv => ret (rv, OutNone)
       | HDIOC_MAXSECTOR => d <- hddDevice unit ;; ret (s32 (d_partitionMaxSize d), OutNone)
       | HDIOC_TOTALSECTOR => d <- hddDevice unit ;; ret (s32 (d_totalLBA d), OutNone)
       | HDIOC_FLUSH =>
           r <- ata_op (ata_device_flush_cache unit) ;;
           ret (if nz r then - EIO else 0, OutNone)
       | HDIOC_SWAPTMP arg => rv <- devctlSwapTemp fuel unit arg ;; ret (rv, OutNone)
       | HDIOC_STATUS => d <- hddDevice unit ;; ret (d_status d, OutNone)
       | HDIOC_FORMATVER => d <- hddDevice unit ;; ret (d_format d, OutNone)
       | HDIOC_FREESECTOR =>
           devs <- gets hddDevices ;;
           let* (rv, free) := apaGetFreeSectors fuel unit devs in
           ret (rv, OutU32 free)
       | HDIOC_GETTIME => t <- apaGetTime ;; ret (0, OutBuf t)
       | HDIOC_SETOSDMBR start size => rv <- devctlSetOsdMBR unit start size ;; ret (rv, OutNone)
       | HDIOC_GETSECTORERROR =>
           let* (rv, _) := apaGetPartErrorSector unit APA_SECTOR_SECTOR_ERROR in
           ret (rv, OutNone)
       | HDIOC_GETERRORPARTNAME =>
           let* (rv, name) := apaGetPartErrorName fuel unit in
           ret (rv, match name with Some n => OutBytes n | None => OutNone end)
       | HDIOC_READSECTOR b lba size =>
           let* (r, b') := ata_op (ata_device_sector_io unit b lba size ATA_DIR_READ) in
           ret (r, OutBuf b')
       | HDIOC_WRITESECTOR b lba size =>
           let* (r, _) := ata_op (ata_device_sector_io unit b lba size ATA_DIR_WRITE) in
           ret (r, OutNone)
       | HDIOC_OTHER => ret (- EINVAL, OutNone)
       end ;;
  SignalSema ;;;
  ret r.
