(* ===== verification/HddScenario.v ===== *)
(** * HddScenario: a drive formatted by the driver, with a partition open

    The states the witnesses of HddProps run on, each reached from the state
    before [_start] by running the code: the module started on a drive of 32
    GB, the drive formatted, and the partition "TEST" of 128 MB created and
    open for reading and writing. *)

From stdpp Require Import base numbers list gmap.
From Stdlib Require Import ZArith Lia.
From S2P Require Import Prelude Ata ApaState ApaCache ApaPart Hdd HddFio Scenario.

Open Scope Z_scope.
Open Scope c_scope.

Definition env0 : startEnv :=
  mkStartEnv (fun i => Some (if i =? 0 then 1 else 0, 0, 0x4000000)) (Some (replicate 32 0))
    (fun _ _ => 0) 0.

(** "TEST,,,128M,PFS" *)
Definition testName : list Z := [84; 69; 83; 84; 44; 44; 44; 49; 50; 56; 77; 44; 80; 70; 83].

Definition w_started : world := after (_start env0 [[]] ;;; hddInit) w0.
Definition w_formatted : world := after (hddFormat 400 0) w_started.
Definition w_open : world := after (hddOpen 400 zero_params 0 testName (Z.lor O_CREAT 3)) w_formatted.
