(* ===== verification/HddProps.v ===== *)
(** * HddProps: what the APA driver promises to the users of a partition *)

From stdpp Require Import base numbers list gmap.
From Stdlib Require Import ZArith Lia.
From S2P Require Import Prelude Ata ApaState ApaCache ApaFacts ApaPart Hdd HddFio Scenario HddScenario.

Open Scope Z_scope.
Open Scope c_scope.

(** ** Transfers stay inside the open partition *)

Lemma ata_io_any w device b lba n dir :
  disk_ok (ata w) -> addressable (ata w) device lba n -> 128 * n <= Z.of_nat (length b) ->
  wp (ata_op (ata_device_sector_io device b lba n dir)) w (fun '(r, b') w' =>
    exists st, w' = with_ata st w /\ length b' = length b /\ disk_ok st /\
      (forall key, ~ in_run device lba n key -> disk st !! key = disk (ata w) !! key) /\
      (real_faults (ata w) -> r = 0 -> moved device lba dir (Z.to_nat n) b (ata w) b' st) /\ (no_faults (ata w) -> r = 0)).
Proof.
  intros Hd Ha Hb.
  destruct (wp_inv _ _ _ (sector_io_total (ata w) device b lba n dir Hd Ha Hb))
    as ([r b'] & st & E & L & D & O).
  eapply wp_Done; [unfold ata_op; rewrite E; reflexivity|].
  exists st. split; [done|]. split; [done|]. split; [done|]. split; [intros key Hk; by eapply io_only_outside|]. split.
  - intros HR. pose proof (sector_io_moved (ata w) device b lba n dir HR Hd Ha Hb) as W. unfold wp in W. by rewrite E in W.
  - intros HF. destruct (sector_io_moves (ata w) device b lba n dir HF Hd Ha Hb) as [k E']. rewrite E in E'. congruence.
Qed.

Lemma moved_0 device lba lba' dir b st b' st' : moved device lba dir 0 b st b' st' -> moved device lba' dir 0 b st b' st'.
Proof. done. Qed.

(** A run inside an addressable one. *)
Lemma addressable_sub st device start len sec n lo :
  addressable st device start len -> 0 <= lo <= sec -> 0 <= n -> sec + n <= len ->
  addressable st device (u32 (start + sec)) n /\
  (forall key, in_run device (u32 (start + sec)) n key -> in_run device (start + lo) (len - lo) key).
Proof.
  intros (H1 & H2 & H3 & H4 & H5) Hlo Hn Hs. unfold addressable, in_run.
  destruct (Z.eqb_spec (start + sec) (2 ^ 32)) as [E|E].
  - rewrite E. change (u32 (2 ^ 32)) with 0. assert (n = 0) by lia. subst n.
    split; [repeat split; lia | lia].
  - rewrite u32_small by (unfold is_u32; lia).
    split; [repeat split; try lia | lia]. destruct H5; [by left | right; lia].
Qed.

Lemma slot_Done w i s : hddFileSlots w !! i = Some s -> slot i w = Done s w.
Proof. unfold slot. by intros ->. Qed.

Lemma part_Done w s i p : s_parts s !! Z.to_nat i = Some p -> 0 <= i -> part i s w = Done p w.
Proof. unfold part. intros -> H. destruct (Z.ltb_spec i 0); [lia | done]. Qed.

(** The part of a (sub-)partition that [HIOCTRANSFER] gives access to: what
    follows its first 0x2000 sectors (main) or its header (sub). *)
Definition data_start (sub : Z) : Z := if sub =? 0 then 0x2000 else 2.

(** What is wrong with a request, if anything. *)
Definition refusal (s : hdd_file_slot_t) (arg : hddIoctl2Transfer_t) : option Z :=
  if s_nsub s <? t_sub arg then Some (- ENODEV)
  else if t_sector arg <? data_start (t_sub arg) then Some (- EINVAL)
  else match s_parts s !! Z.to_nat (t_sub arg) with
       | Some (_, len) => if len <? t_sector arg + t_size arg then Some (- ENXIO) else None
       | None => None
       end.

(** C10: an [HIOCTRANSFER] on an open partition, whatever the drive does.  A
    request for a sub-partition there is none of, for the part reserved for
    headers, or beyond the end of the (sub-)partition is refused with -ENODEV,
    -EINVAL or -ENXIO and changes nothing.  Any other lies in the data part of
    the (sub-)partition; no sector outside it changes, and nothing of the
    driver; the result is -EIO, or 0 when exactly the sectors asked for were
    moved to or from the buffer (as long as the faults are ones the drive
    reports), and it is 0 on a drive without faults.  The end of the request must not overflow 32 bits. *)
Theorem transfer_confined w device i s arg :
  disk_ok (ata w) -> hddFileSlots w !! i = Some s ->
  0 <= t_sub arg -> 0 <= t_sector arg -> 0 <= t_size arg -> t_sector arg + t_size arg < 2 ^ 32 ->
  128 * t_size arg <= Z.of_nat (length (t_buffer arg)) ->
  (forall start len, s_parts s !! Z.to_nat (t_sub arg) = Some (start, len) ->
     addressable (ata w) device start len) ->
  (t_sub arg <= s_nsub s -> is_Some (s_parts s !! Z.to_nat (t_sub arg))) ->
  wp (ioctl2Transfer device i arg) w (fun '(rv, b) w' =>
    match refusal s arg, s_parts s !! Z.to_nat (t_sub arg) with
    | Some e, _ => rv = e /\ b = t_buffer arg /\ w' = w
    | None, Some (start, len) =>
        let lba := start + t_sector arg in
        start + data_start (t_sub arg) <= lba /\ lba + t_size arg <= start + len /\
        w' = with_ata (ata w') w /\ length b = length (t_buffer arg) /\
        (forall key, ~ in_run device lba (t_size arg) key -> disk (ata w') !! key = disk (ata w) !! key) /\
        (rv = - EIO \/ rv = 0 /\ (real_faults (ata w) ->
           moved device lba (t_mode arg) (Z.to_nat (t_size arg)) (t_buffer arg) (ata w) b (ata w'))) /\
        (no_faults (ata w) -> rv = 0)
    | None, None => False
    end).
Proof.
  intros Hd Hs H1 H2 H3 Hw Hb Ha Hp. unfold ioctl2Transfer, refusal.
  apply wp_bind. eapply wp_Done; [apply slot_Done, Hs|].
  destruct (Z.ltb_spec (s_nsub s) (t_sub arg)) as [Hn|Hn]; [by apply wp_ret|].
  destruct (Hp Hn) as [[start len] Hpart]. rewrite Hpart. specialize (Ha start len Hpart).
  assert (Hlo : t_sector arg <? data_start (t_sub arg) =
    ((t_sub arg =? 0) && (t_sector arg <? 0x2000)) || (negb (t_sub arg =? 0) && (t_sector arg <? 2))).
  { unfold data_start. by destruct (t_sub arg =? 0); cbn [negb andb orb]; rewrite ?orb_false_r. }
  rewrite Hlo. destruct ((t_sub arg =? 0) && (t_sector arg <? 0x2000)); [by apply wp_ret|].
  destruct (negb (t_sub arg =? 0) && (t_sector arg <? 2)); [by apply wp_ret|]. cbn [orb] in *.
  apply Z.ltb_ge in Hlo. assert (Hds : 0 <= data_start (t_sub arg)) by (unfold data_start; destruct (_ =? 0); lia).
  apply wp_bind. eapply wp_Done; [apply part_Done; [exact Hpart | exact H1]|]. cbn [fst snd].
  rewrite u32_small by (unfold is_u32; lia).
  destruct (Z.ltb_spec len (t_sector arg + t_size arg)) as [|Hfit]; [by apply wp_ret|].
  destruct (addressable_sub _ _ _ _ (t_sector arg) (t_size arg) 0 Ha ltac:(lia) H3 Hfit) as [Ha' _].
  apply wp_bind. eapply wp_mono; [by apply ata_io_any|].
  intros [r b] w' (st & -> & Hl & Hst & Hk & Hm & Hf).
  assert (HK : (forall key, ~ in_run device (start + t_sector arg) (t_size arg) key -> disk st !! key = disk (ata w) !! key) /\
    (real_faults (ata w) -> r = 0 -> moved device (start + t_sector arg) (t_mode arg) (Z.to_nat (t_size arg)) (t_buffer arg) (ata w) b st)).
  { destruct (Z.eqb_spec (start + t_sector arg) (2 ^ 32)) as [E|E].
    - assert (t_size arg = 0) as E0 by (destruct Ha as (_ & _ & _ & ? & _); lia). rewrite E0 in *. split.
      + intros key _. apply Hk. unfold in_run. lia.
      + intros HR Hr. eapply moved_0. by apply Hm.
    - rewrite u32_small in Hk, Hm by (unfold is_u32, addressable in *; lia). done. }
  destruct HK as [HK1 HK2]. unfold nz. destruct (Z.eqb_spec r 0) as [->|Hr]; cbn [negb]; apply wp_ret.
  - do 2 (split; [lia|]). split; [done|]. split; [done|]. split; [done|]. split; [right|done]. split; [done|]. intros HR. by apply HK2.
  - do 2 (split; [lia|]). split; [done|]. split; [done|]. split; [done|]. split; [by left|]. intros HF. by destruct Hr; apply Hf.
Qed.

(** The open partition of [w_open]: its only slot. *)
Lemma w_open_slot : exists s, hddFileSlots w_open !! 0%nat = Some s /\
  s_parts s !! 0%nat = Some (0x300000, 0x40000) /\ s_nsub s = 0 /\ s_post s = 0 /\ s_f s = Some 0%nat.
Proof. eexists. vm_compute. eauto 10. Qed.

Lemma w_open_disk : disk_ok (ata w_open).
Proof. apply disk_okb_ok. vm_compute. reflexivity. Qed.

Lemma w_open_addressable n : 0 <= n <= 0x40000 -> addressable (ata w_open) 0 0x300000 n.
Proof. intros H. apply addressable_low; lia. Qed.

Lemma w_open_faults : no_faults (ata w_open).
Proof. intros n. vm_compute. reflexivity. Qed.

Lemma transfer_confined_witness : exists b w', ioctl2Transfer 0 0 (mkTransfer 0 0x2000 2 ATA_DIR_WRITE (zeros 256)) w_open = Done (0, b) w' /\
  moved 0 0x302000 ATA_DIR_WRITE 2 (zeros 256) (ata w_open) b (ata w').
Proof.
  destruct w_open_slot as (s & Hs & Hp & Hn & _). pose proof w_open_faults as HF.
  assert (HA : forall start len, s_parts s !! Z.to_nat 0 = Some (start, len) -> addressable (ata w_open) 0 start len).
  { change (Z.to_nat 0) with 0%nat. rewrite Hp. intros start len [= <- <-]. apply w_open_addressable. lia. }
  assert (HS : 0 <= s_nsub s -> is_Some (s_parts s !! Z.to_nat 0)) by (intros _; change (Z.to_nat 0) with 0%nat; rewrite Hp; by eexists).
  pose proof (transfer_confined w_open 0 0 s (mkTransfer 0 0x2000 2 ATA_DIR_WRITE (zeros 256)) w_open_disk Hs
    ltac:(cbn; lia) ltac:(cbn; lia) ltac:(cbn; lia) ltac:(cbn; lia) ltac:(apply Z.leb_le; reflexivity) HA HS) as W.
  apply wp_inv in W as ([rv b] & w' & E & H). unfold refusal in H. cbn [t_sub t_sector t_size t_mode t_buffer] in H. change (Z.to_nat 0) with 0%nat in H.
  rewrite Hp, Hn in H. destruct H as (_ & _ & _ & _ & _ & H1 & H2). specialize (H2 HF). subst rv. exists b, w'. split; [exact E|].
  destruct H1 as [H1|[_ H1]]; [discriminate H1|]. apply H1. intros n f Hf. by rewrite HF in Hf.
Defined.

(** The end of a request is computed in 32 bits: a request that wraps
    around passes the check against the length of the partition and writes
    sectors before its start. *)
Lemma transfer_wraps :
  let m := ioctl2Transfer 0 0 (mkTransfer 0 0xFFFFFFF8 16 ATA_DIR_WRITE (replicate 2048 1)) in
  result m w_open = Some (0, replicate 2048 1) /\
  disk (ata w_open) !! (0, 0x2FFFF8) = None /\
  disk (ata (after m w_open)) !! (0, 0x2FFFF8) = Some (replicate 128 1).
Proof. vm_compute. auto. Qed.

(** ** The header area of an open partition: read, write, seek *)

(** [post] counts sectors of the 4 MB area that follows the header. *)
Definition post_ok (s : hdd_file_slot_t) : Prop := 0 <= s_post s <= 0x1FF8.

(** The semaphore is free, or was never created. *)
Definition sema_free (w : world) : Prop := fioSema w = None \/ fioSema w = Some 1.

Lemma wp_wait w (Q : unit -> world -> Prop) :
  sema_free w ->
  (forall v, (v = None \/ v = Some 0) -> (fioSema w = None <-> v = None) -> Q tt (with_sema v w)) ->
  wp WaitSema w Q.
Proof.
  intros [H|H] HQ; unfold wp, WaitSema; rewrite H; simpl.
  - replace w with (with_sema None w) by (rewrite <- H; by destruct w).
    apply HQ; [auto|]. rewrite H. done.
  - apply HQ; [auto|]. rewrite H. done.
Qed.

(** Sectors moved by a read or write of [size] bytes at position [post]. *)
Definition clipped (post size : Z) : Z := Z.min (size / 512) (0x1FF8 - post).

Lemma clip_eq post size :
  0 <= post <= 0x1FF8 -> 0 <= size < 2 ^ 31 -> Z.land size 0x1FF = 0 ->
  (if 0x1FF9 <=? u32 (post + Z.shiftr size 9) then s32 (0x1FF8 - post) else Z.shiftr size 9)
  = clipped post size.
Proof.
  intros Hp Hs _. unfold clipped. rewrite Z.shiftr_div_pow2 by lia. change (2 ^ 9) with 512.
  assert (0 <= size / 512 < 2 ^ 23) by (split; [apply Z.div_pos | apply Z.div_lt_upper_bound]; lia).
  rewrite u32_small by (unfold is_u32; lia). rewrite s32_small by lia.
  destruct (Z.leb_spec 0x1FF9 (post + size / 512)); lia.
Qed.

(** C12: [hddRead] and [hddWrite] move the sectors at the position, in the 4 MB
    area after the header of the open partition, and stop at its end: whatever
    the drive does, no sector but those at the position changes, and they lie
    in [start+8, start+0x2000).  The result is -EIO, with the position as it
    was; or it is the number of bytes up to the end of the area, the position
    has advanced by it, and exactly the sectors from the old position on were
    moved to or from the buffer (as long as the faults are ones the drive
    reports).  On a drive without faults it is the latter.
    A size that is not a multiple of 512 is refused. *)
Theorem rw_confined w f x i s b size mode start len :
  disk_ok (ata w) -> files w !! f = Some x -> f_privdata x = Some i -> hddFileSlots w !! i = Some s ->
  s_parts s !! 0%nat = Some (start, len) -> addressable (ata w) (f_unit x) start 0x2000 ->
  post_ok s -> sema_free w -> 0 <= size < 2 ^ 31 -> size <= 4 * Z.of_nat (length b) ->
  wp (fioDataTransfer f b size mode) w (fun '(rv, b') w' =>
    let n := clipped (s_post s) size in
    let lba := start + 8 + s_post s in
    if nz (Z.land size 0x1FF) then rv = - EINVAL /\ b' = b /\ w' = w
    else
      length b' = length b /\ start + 8 <= lba /\ lba + n <= start + 0x2000 /\
      (forall key, ~ in_run (f_unit x) lba n key -> disk (ata w') !! key = disk (ata w) !! key) /\
      (no_faults (ata w) -> rv = 512 * n) /\
      exists s', hddFileSlots w' !! i = Some s' /\ post_ok s' /\
        ((rv = - EIO /\ s_post s' = s_post s) \/
         (rv = 512 * n /\ s_post s' = s_post s + n /\
          (real_faults (ata w) -> moved (f_unit x) lba mode (Z.to_nat n) b (ata w) b' (ata w'))))).
Proof.
  intros Hd Hf Hx Hs Hp Ha Hpost Hsem Hsz Hb. unfold fioDataTransfer, privdata.
  apply wp_bind, wp_bind. eapply wp_Done; [unfold file; rewrite Hf; reflexivity|].
  rewrite Hx. apply wp_ret. apply wp_bind. eapply wp_Done; [apply slot_Done, Hs|].
  destruct (nz (Z.land size 0x1FF)) eqn:El; [by apply wp_ret|].
  apply nz_false in El. cbv zeta. rewrite (clip_eq _ _ Hpost Hsz El).
  assert (Hc : 0 <= clipped (s_post s) size /\ s_post s + clipped (s_post s) size <= 0x1FF8 /\
               128 * clipped (s_post s) size <= Z.of_nat (length b)).
  { unfold clipped, post_ok in *. pose proof (Z.div_pos size 512). pose proof (Z.mul_div_le size 512). lia. }
  set (n := clipped (s_post s) size) in *. unfold post_ok in Hpost.
  destruct (nz n) eqn:En; cycle 1.
  { apply nz_false in En. apply wp_ret. rewrite En in *. split; [done|]. do 2 (split; [lia|]). split; [done|]. split; [done|]. exists s.
    split; [done|]. split; [done|]. right. split; [done|]. split; [lia|]. intros _. unfold moved. by destruct (mode =? _). }
  apply nz_true in En. apply wp_bind. apply wp_wait; [exact Hsem|]. intros v Hv _.
  apply wp_bind. eapply wp_Done; [unfold file; simpl; rewrite Hf; reflexivity|].
  apply wp_bind. eapply wp_Done; [by apply part_Done|]. cbn [fst].
  replace (s_post s + start + 8) with (start + (s_post s + 8)) by lia. rewrite (u32_small n) by (unfold is_u32; lia).
  destruct (addressable_sub _ _ _ _ (s_post s + 8) n 8 Ha ltac:(lia) ltac:(lia) ltac:(lia)) as [Ha' _].
  rewrite u32_small in Ha' |- * by (unfold is_u32, addressable in *; lia). replace (start + (s_post s + 8)) with (start + 8 + s_post s) in * by lia.
  apply wp_bind. eapply wp_mono; [apply ata_io_any; [exact Hd | exact Ha' | lia]|].
  intros [r b'] w' (st & -> & Hl & _ & Hk & Hm & Hfr). apply wp_bind. apply wp_ret.
  unfold nz. destruct (Z.eqb_spec r 0) as [->|Hr]; cbn [negb].
  - apply wp_bind. eapply wp_Done; [unfold smod; simpl; rewrite Hs; reflexivity|].
    apply wp_ret. split; [done|]. do 2 (split; [lia|]). split; [done|]. split; [intros _; rewrite Z.shiftl_mul_pow2 by lia; lia|].
    assert (Hset : s_post (set_post (s_post s + n) s) = s_post s + n)
      by (simpl; rewrite u32_small by (unfold is_u32; lia); done).
    eexists. split; [simpl; apply list_lookup_insert_eq; eapply lookup_lt_Some, Hs|].
    split; [unfold post_ok; rewrite Hset; lia|]. right. split; [rewrite Z.shiftl_mul_pow2 by lia; lia|]. split; [done|]. intros HR. by apply Hm.
  - apply wp_ret. split; [done|]. do 2 (split; [lia|]). split; [done|]. split; [intros HF; by destruct Hr; apply Hfr|]. exists s. split; [done|]. split; [done|]. by left.
Qed.

Lemma rw_confined_witness : exists b' w', fioDataTransfer 0 (zeros 256) 1024 ATA_DIR_WRITE w_open = Done (1024, b') w' /\
  moved 0 0x300008 ATA_DIR_WRITE 2 (zeros 256) (ata w_open) b' (ata w').
Proof.
  destruct w_open_slot as (s & Hs & Hp & Hn & Hpost & Hsf). pose proof w_open_faults as HF.
  assert (HO : post_ok s) by (unfold post_ok; lia). assert (HS : sema_free w_open) by (right; vm_compute; reflexivity).
  assert (HX : files w_open !! 0%nat = Some (mkFile 3 0 (Some 0%nat))) by (vm_compute; reflexivity).
  pose proof (rw_confined w_open 0 (mkFile 3 0 (Some 0%nat)) 0 s (zeros 256) 1024 ATA_DIR_WRITE 0x300000 0x40000 w_open_disk HX eq_refl Hs Hp
    (w_open_addressable 0x2000 ltac:(lia)) HO HS ltac:(lia) ltac:(apply Z.leb_le; reflexivity)) as W.
  apply wp_inv in W as ([rv b'] & w' & E & H). rewrite Hpost in H. change (nz (Z.land 1024 0x1FF)) with false in H. cbv iota zeta in H.
  change (clipped 0 1024) with 2 in H. destruct H as (_ & _ & _ & _ & H1 & s' & _ & _ & H2). specialize (H1 HF). subst rv. exists b', w'. split; [exact E|].
  destruct H2 as [[H2 _]|(_ & _ & H2)]; [discriminate H2|]. apply H2. intros n f Hf. by rewrite HF in Hf.
Defined.
