(* ===== verification/Frame.v ===== *)
(** * Frame: what an operation leaves alone

    [respects R m]: whenever [m] returns, the state before and the state after
    are related by the preorder [R].  The rules follow the shape of the code,
    so that [respects_tac] proves such a fact for a whole operation from those
    of the operations it calls (database [frame_db]).  The operations of libapa
    and of hdd.c are shown to touch neither the lock nor the file slots nor the
    open files of the driver ([same_outer]). *)

From stdpp Require Import base numbers list gmap.
From Stdlib Require Import ZArith Lia RelationClasses.
From S2P Require Import Prelude Ata ApaState ApaCache ApaPart Hdd.

Open Scope Z_scope.
Open Scope c_scope.

Definition respects {S A} (R : S -> S -> Prop) (m : M S A) : Prop :=
  forall s a s', m s = Done a s' -> R s s'.

Section Rules.
Context {S : Type} (R : S -> S -> Prop) `{!PreOrder R}.

Lemma respects_ret {A} (a : A) : respects R (ret a).
Proof. intros s x s' [= _ <-]. reflexivity. Qed.

Lemma respects_undef {A} : respects R (undef (S := S) (A := A)).
Proof. discriminate 1. Qed.

Lemma respects_nofuel {A} : respects R (nofuel (S := S) (A := A)).
Proof. discriminate 1. Qed.

Lemma respects_gets {A} (f : S -> A) : respects R (gets f).
Proof. intros s x s' [= _ <-]. reflexivity. Qed.

Lemma respects_get : respects R (get (S := S)).
Proof. intros s x s' [= _ <-]. reflexivity. Qed.

Lemma respects_bind {A B} (m : M S A) (k : A -> M S B) :
  respects R m -> (forall a, respects R (k a)) -> respects R (bind m k).
Proof.
  intros Hm Hk s b s' H. unfold bind in H. destruct (m s) as [a s1| |] eqn:E; [|done..].
  transitivity s1; [by eapply Hm | by eapply Hk].
Qed.

Lemma respects_modify (f : S -> S) : (forall s, R s (f s)) -> respects R (modify f).
Proof. intros Hf s x s' [= _ <-]. apply Hf. Qed.

Lemma respects_when (b : bool) m : respects R m -> respects R (when b m).
Proof. destruct b; [done | intros _; apply respects_ret]. Qed.

Lemma respects_while {St Q} (body : St -> M S (St + Q)) :
  (forall st, respects R (body st)) -> forall fuel st, respects R (while_ fuel body st).
Proof.
  intros Hb. induction fuel as [|n IH]; intros st; [apply respects_nofuel|].
  simpl. apply respects_bind; [apply Hb|]. intros [st'|v]; [apply IH | apply respects_ret].
Qed.

Lemma respects_for {I St} (body : I -> St -> M S St) :
  (forall i st, respects R (body i st)) -> forall l st, respects R (for_ l body st).
Proof.
  intros Hb. induction l as [|i l IH]; intros st; [apply respects_ret|].
  simpl. apply respects_bind; [apply Hb | intros st'; apply IH].
Qed.

Lemma respects_for_break {I St Q} (body : I -> St -> M S (St + Q)) :
  (forall i st, respects R (body i st)) -> forall l st, respects R (for_break l body st).
Proof.
  intros Hb. induction l as [|i l IH]; intros st; [apply respects_ret|].
  simpl. apply respects_bind; [apply Hb|]. intros [st'|v]; [apply IH | apply respects_ret].
Qed.

Lemma respects_mono (R' : S -> S -> Prop) {A} (m : M S A) :
  (forall s s', R' s s' -> R s s') -> respects R' m -> respects R m.
Proof. intros Hi Hm s a s' H. apply Hi. by eapply Hm. Qed.
End Rules.

Create HintDb frame_db.

(** One step through the code of an operation. *)
Ltac respects_step :=
  match goal with
  | |- respects _ (ret _) => apply respects_ret; exact _
  | |- respects _ undef => apply respects_undef
  | |- respects _ nofuel => apply respects_nofuel
  | |- respects _ (gets _) => apply respects_gets; exact _
  | |- respects _ get => apply respects_get; exact _
  | |- respects _ (bind _ _) => apply respects_bind; [exact _| |intros ?]
  | |- respects _ (when _ _) => apply respects_when; [exact _|]
  | |- respects _ (while_ _ _ _) => apply respects_while; [exact _|intros ?]
  | |- respects _ (for_ _ _ _) => apply respects_for; [exact _|intros ? ?]
  | |- respects _ (for_break _ _ _) => apply respects_for_break; [exact _|intros ? ?]
  | |- respects _ (match ?x with _ => _ end) => destruct x eqn:?
  | |- respects _ (let _ := _ in _) => cbv zeta
  | |- respects _ _ => solve [auto with frame_db]
  end.
Ltac respects_tac := repeat respects_step.

(** ** The state of the driver above libapa *)

(** Lock, file slots, open files. *)
Definition same_outer (w w' : world) : Prop :=
  fioSema w' = fioSema w /\ hddFileSlots w' = hddFileSlots w /\ files w' = files w /\ apaMaxOpen w' = apaMaxOpen w.

#[export] Instance same_outer_preorder : PreOrder same_outer.
Proof. split; [by intros w | intros w1 w2 w3 (?&?&?&?) (?&?&?&?); repeat split; congruence]. Qed.

Lemma outer_ata {A} (m : M ata_st A) : respects same_outer (ata_op m).
Proof. intros w a w' H. unfold ata_op in H. destruct (m (ata w)); [|done..]. by injection H as _ <-. Qed.

Lemma outer_cget p : respects same_outer (cget p).
Proof. intros w a w' H. unfold cget in H. destruct (cacheBuf w !! p); [|done]. by injection H as _ <-. Qed.

Lemma outer_cmod p f : respects same_outer (cmod p f).
Proof. intros w a w' H. unfold cmod in H. destruct (cacheBuf w !! p); [|done]. by injection H as _ <-. Qed.

Lemma outer_devmod d f : respects same_outer (devmod d f).
Proof. intros w a w' H. unfold devmod in H. destruct (hddDevices w !! Z.to_nat d); [|done]. by injection H as _ <-. Qed.

Lemma outer_device d : respects same_outer (hddDevice d).
Proof.
  intros w a w' H. unfold hddDevice in H. destruct (d <? 0); [done|].
  destruct (hddDevices w !! Z.to_nat d); [|done]. by injection H as _ <-.
Qed.

Lemma outer_modify f : (forall w, same_outer w (f w)) -> respects same_outer (modify f).
Proof. apply respects_modify. Qed.

Lemma outer_alloc_mem : respects same_outer apaAllocMem.
Proof. intros w a w' [= _ <-]. done. Qed.

#[export] Hint Resolve outer_ata outer_cget outer_cmod outer_devmod outer_device outer_alloc_mem : frame_db.
#[export] Hint Extern 1 (respects same_outer (modify _)) => (apply outer_modify; intros ?; done) : frame_db.

(** Follow the code of an operation that was unfolded. *)
Ltac outer_tac := intros; respects_tac.

Lemma outer_header p : respects same_outer (header p).
Proof. unfold header. outer_tac. Qed.
Lemma outer_hmod p f : respects same_outer (hmod p f).
Proof. unfold hmod. outer_tac. Qed.
Lemma outer_mark_dirty p : respects same_outer (mark_dirty p).
Proof. unfold mark_dirty. outer_tac. Qed.
#[export] Hint Resolve outer_header outer_hmod outer_mark_dirty : frame_db.

Lemma outer_getTime : respects same_outer apaGetTime.
Proof. unfold apaGetTime. outer_tac. Qed.
Lemma outer_cache_io d p l n dir : respects same_outer (cache_io d p l n dir).
Proof. unfold cache_io. outer_tac. Qed.
#[export] Hint Resolve outer_getTime outer_cache_io : frame_db.

Lemma outer_saveError d p l e : respects same_outer (apaSaveError d p l e).
Proof. unfold apaSaveError. outer_tac. Qed.
Lemma outer_readHeader d p l : respects same_outer (apaReadHeader d p l).
Proof. unfold apaReadHeader. outer_tac. Qed.
Lemma outer_writeHeader d p l : respects same_outer (apaWriteHeader d p l).
Proof. unfold apaWriteHeader. outer_tac. Qed.
Lemma outer_link p q : respects same_outer (apaCacheLink p q).
Proof. unfold apaCacheLink. outer_tac. Qed.
Lemma outer_unlink p : respects same_outer (apaCacheUnLink p).
Proof. unfold apaCacheUnLink. outer_tac. Qed.
Lemma outer_ringEmpty : respects same_outer freeRingEmpty.
Proof. unfold freeRingEmpty. outer_tac. Qed.
#[export] Hint Resolve outer_saveError outer_readHeader outer_writeHeader outer_link outer_unlink outer_ringEmpty : frame_db.

Lemma outer_cacheInit n : respects same_outer (apaCacheInit n).
Proof. unfold apaCacheInit. outer_tac. Qed.
Lemma outer_cacheFree p : respects same_outer (apaCacheFree p).
Proof. unfold apaCacheFree. outer_tac. Qed.
Lemma outer_cacheAlloc : respects same_outer apaCacheAlloc.
Proof. unfold apaCacheAlloc. outer_tac. Qed.
Lemma outer_journalFlush d : respects same_outer (apaJournalFlush d).
Proof. unfold apaJournalFlush. outer_tac. Qed.
#[export] Hint Resolve outer_cacheInit outer_cacheFree outer_cacheAlloc outer_journalFlush : frame_db.

Lemma outer_journalReset d : respects same_outer (apaJournalReset d).
Proof. unfold apaJournalReset. outer_tac. Qed.
Lemma outer_journalWrite p : respects same_outer (apaJournalWrite p).
Proof. unfold apaJournalWrite. outer_tac. Qed.
#[export] Hint Resolve outer_journalReset outer_journalWrite : frame_db.
Lemma outer_journalRestore d : respects same_outer (apaJournalRestore d).
Proof. unfold apaJournalRestore. outer_tac. Qed.
Lemma outer_transfer p t : respects same_outer (apaCacheTransfer p t).
Proof. unfold apaCacheTransfer. outer_tac. Qed.
#[export] Hint Resolve outer_journalRestore outer_transfer : frame_db.
Lemma outer_flushDirty p : respects same_outer (apaCacheFlushDirty p).
Proof. unfold apaCacheFlushDirty. outer_tac. Qed.
Lemma outer_flushAll d : respects same_outer (apaCacheFlushAllDirty d).
Proof. unfold apaCacheFlushAllDirty, forDirty. outer_tac. Qed.
Lemma outer_lookup d s : respects same_outer (cacheLookup d s).
Proof. unfold cacheLookup. outer_tac. Qed.
#[export] Hint Resolve outer_flushDirty outer_flushAll outer_lookup : frame_db.
Lemma outer_getHeader d s m : respects same_outer (apaCacheGetHeader d s m).
Proof. unfold apaCacheGetHeader. outer_tac. Qed.
#[export] Hint Resolve outer_getHeader : frame_db.

(** ** apa.c, free.c and hdd.c *)

Lemma outer_deref p : respects same_outer (deref p).
Proof. unfold deref. outer_tac. Qed.
#[export] Hint Resolve outer_deref : frame_db.
Lemma outer_setPartError d l : respects same_outer (apaSetPartErrorSector d l).
Proof. unfold apaSetPartErrorSector. outer_tac. Qed.
Lemma outer_getPartError d l : respects same_outer (apaGetPartErrorSector d l).
Proof. unfold apaGetPartErrorSector. outer_tac. Qed.
Lemma outer_nextHeader p e : respects same_outer (apaGetNextHeader p e).
Proof. unfold apaGetNextHeader. outer_tac. Qed.
#[export] Hint Resolve outer_setPartError outer_getPartError outer_nextHeader : frame_db.
Lemma outer_partErrorName n d : respects same_outer (apaGetPartErrorName n d).
Proof. unfold apaGetPartErrorName. outer_tac. Qed.
Lemma outer_fillHeader d p s n pr l : respects same_outer (apaFillHeader d p s n pr l).
Proof. unfold apaFillHeader. outer_tac. Qed.
Lemma outer_removePartition d s n p l : respects same_outer (apaRemovePartition d s n p l).
Proof. unfold apaRemovePartition. outer_tac. Qed.
Lemma outer_makeEmpty p : respects same_outer (apaMakeEmpty p).
Proof. unfold apaMakeEmpty. outer_tac. Qed.
#[export] Hint Resolve outer_partErrorName outer_fillHeader outer_removePartition outer_makeEmpty : frame_db.
Lemma outer_splitStep d p t e : respects same_outer (apaSplitStep d p t e).
Proof. unfold apaSplitStep. outer_tac. Qed.
#[export] Hint Resolve outer_splitStep : frame_db.
Lemma outer_insertPartition n d p s : respects same_outer (apaInsertPartition n d p s).
Proof. unfold apaInsertPartition. outer_tac. Qed.
Lemma outer_findPartition n d i : respects same_outer (apaFindPartition n d i).
Proof. unfold apaFindPartition. outer_tac. Qed.
Lemma outer_notBuddy s t : respects same_outer (not_buddy s t).
Proof. unfold not_buddy. outer_tac. Qed.
#[export] Hint Resolve outer_insertPartition outer_findPartition outer_notBuddy : frame_db.
Lemma outer_fixPrev n c e : respects same_outer (apaDeleteFixPrev n c e).
Proof. unfold apaDeleteFixPrev. outer_tac. Qed.
Lemma outer_fixNext n c e : respects same_outer (apaDeleteFixNext n c e).
Proof. unfold apaDeleteFixNext. outer_tac. Qed.
Lemma outer_deleteLast n c m d : respects same_outer (apaDeleteLast n c m d).
Proof. unfold apaDeleteLast. outer_tac. Qed.
#[export] Hint Resolve outer_fixPrev outer_fixNext outer_deleteLast : frame_db.
Lemma outer_deleteMerge n : forall k c e, respects same_outer (apaDeleteMerge n k c e).
Proof. induction k as [|k IH]; intros c e; simpl; outer_tac. Qed.
#[export] Hint Resolve outer_deleteMerge : frame_db.
Lemma outer_delete n c : respects same_outer (apaDelete n c).
Proof. unfold apaDelete. outer_tac. Qed.
Lemma outer_getFormat d : respects same_outer (apaGetFormat d).
Proof. unfold apaGetFormat. outer_tac. Qed.
Lemma outer_freeSectors n d i : respects same_outer (apaGetFreeSectors n d i).
Proof. unfold apaGetFreeSectors. outer_tac. Qed.
Lemma outer_checkMax d s : respects same_outer (hddCheckPartitionMax d s).
Proof. unfold hddCheckPartitionMax. outer_tac. Qed.
Lemma outer_padLoop d s n st : respects same_outer (hddPadLoop d s n st).
Proof. unfold hddPadLoop. outer_tac. Qed.
#[export] Hint Resolve outer_delete outer_getFormat outer_freeSectors outer_checkMax outer_padLoop : frame_db.
Lemma outer_addPartition n d p e s : respects same_outer (hddAddPartitionHere n d p e s).
Proof. unfold hddAddPartitionHere. outer_tac. Qed.
#[export] Hint Resolve outer_addPartition : frame_db.
