(* ===== verification/HddLock.v ===== *)
(** * HddLock: sequences of driver operations, the lock and the positions

    [hdd_op] are the entry points of the driver with their arguments, [step] is
    a call that returns and [reachable] what a sequence of calls can reach from
    a state of the driver.  Two invariants hold in every such state: the lock
    is free between calls, so that no call blocks, and the position of every
    file slot lies in the area that reads and writes may use. *)

From stdpp Require Import base numbers list gmap.
From Stdlib Require Import ZArith Lia RelationClasses.
From S2P Require Import Prelude Ata ApaState ApaCache ApaPart Hdd HddFio Scenario HddScenario HddProps Frame.

Open Scope Z_scope.
Open Scope c_scope.

(** ** Operations that only read slots and files *)

Lemma outer_file f : respects same_outer (file f).
Proof. intros w a w' H. unfold file in H. destruct (files w !! f); [|done]. by injection H as _ <-. Qed.
Lemma outer_slot i : respects same_outer (slot i).
Proof. intros w a w' H. unfold slot in H. destruct (hddFileSlots w !! i); [|done]. by injection H as _ <-. Qed.
#[export] Hint Resolve outer_file outer_slot : frame_db.

Lemma outer_part i s : respects same_outer (part i s).
Proof. unfold part. outer_tac. Qed.
Lemma outer_privdata f : respects same_outer (privdata f).
Proof. unfold privdata. outer_tac. Qed.
Lemma outer_isOpen id : respects same_outer (isOpen id).
Proof. unfold isOpen. outer_tac. Qed.
#[export] Hint Resolve outer_part outer_privdata outer_isOpen : frame_db.
Lemma outer_getFileSlot p : respects same_outer (getFileSlot p).
Proof. unfold getFileSlot. outer_tac. Qed.
Lemma outer_ioctl2Transfer d i t : respects same_outer (ioctl2Transfer d i t).
Proof. unfold ioctl2Transfer. outer_tac. Qed.
Lemma outer_openWalk n d i : respects same_outer (apaOpenWalk n d i).
Proof. unfold apaOpenWalk. outer_tac. Qed.
Lemma outer_removeSubs n d p k r : respects same_outer (apaRemoveSubs n d p k r).
Proof. unfold apaRemoveSubs. outer_tac. Qed.
#[export] Hint Resolve outer_getFileSlot outer_ioctl2Transfer outer_openWalk outer_removeSubs : frame_db.
Lemma outer_remove n d i f : respects same_outer (apaRemove n d i f).
Proof. unfold apaRemove. outer_tac. Qed.
Lemma outer_slotFile i : respects same_outer (slotFile i).
Proof. unfold slotFile. outer_tac. Qed.
Lemma outer_walkEmpty n d : respects same_outer (walkEmpty n d).
Proof. unfold walkEmpty. outer_tac. Qed.
Lemma outer_swapTemp n d a : respects same_outer (devctlSwapTemp n d a).
Proof. unfold devctlSwapTemp. outer_tac. Qed.
Lemma outer_osdMBR d s n : respects same_outer (devctlSetOsdMBR d s n).
Proof. unfold devctlSetOsdMBR. outer_tac. Qed.
Lemma outer_formatClear d t p i : respects same_outer (formatClear d t p i).
Proof. unfold formatClear. outer_tac. Qed.
Lemma outer_formatMbr d p : respects same_outer (formatMbr d p).
Proof. unfold formatMbr. outer_tac. Qed.
Lemma outer_formatParts n d i st : respects same_outer (formatParts n d i st).
Proof. unfold formatParts. outer_tac. Qed.
#[export] Hint Resolve outer_remove outer_slotFile outer_walkEmpty outer_swapTemp outer_osdMBR
  outer_formatClear outer_formatMbr outer_formatParts : frame_db.
Lemma outer_format n f : respects same_outer (hddFormat n f).
Proof. unfold hddFormat. outer_tac. Qed.
#[export] Hint Resolve outer_format : frame_db.

(** ** The lock *)

(** The semaphore keeps existing or not, and counts 0 or 1. *)
Definition sema_range (w : world) : Prop := fioSema w = None \/ fioSema w = Some 0 \/ fioSema w = Some 1.
Definition lock_step (w w' : world) : Prop :=
  (sema_range w -> sema_range w') /\ (fioSema w = None <-> fioSema w' = None).

#[export] Instance lock_step_preorder : PreOrder lock_step.
Proof. split; [by intros w | intros w1 w2 w3 [H1 H2] [H3 H4]; split; [auto | by rewrite H2]]. Qed.

Lemma lock_outer {A} (m : M world A) : respects same_outer m -> respects lock_step m.
Proof.
  apply respects_mono. intros w w' (E & _). unfold lock_step, sema_range. rewrite E. tauto.
Qed.

Lemma lock_signal : respects lock_step SignalSema.
Proof.
  intros w a w' [= _ <-]. unfold lock_step, sema_range. simpl.
  destruct (fioSema w) as [n|]; [|tauto]. split; [|by split].
  intros [? | [[= ->] | [= ->]]]; [done|simpl; auto..].
Qed.

(** Files and slots are not the lock. *)
Lemma lock_fmod f g : respects lock_step (fmod f g).
Proof. intros w a w' H. unfold fmod in H. destruct (files w !! f); [|done]. by injection H as _ <-. Qed.
Lemma lock_smod i g : respects lock_step (smod i g).
Proof. intros w a w' H. unfold smod in H. destruct (hddFileSlots w !! i); [|done]. by injection H as _ <-. Qed.

#[export] Hint Resolve lock_signal lock_fmod lock_smod : frame_db.
#[export] Hint Extern 5 (respects lock_step _) => (apply lock_outer; solve [auto with frame_db]) : frame_db.

(** ** Positions *)

Definition posts_ok (w : world) : Prop := Forall post_ok (hddFileSlots w).
Definition posts_step (w w' : world) : Prop := posts_ok w -> posts_ok w'.

#[export] Instance posts_step_preorder : PreOrder posts_step.
Proof. split; [by intros w Hw | intros w1 w2 w3; unfold posts_step; auto]. Qed.

Lemma posts_same w w' : hddFileSlots w' = hddFileSlots w -> posts_step w w'.
Proof. unfold posts_step, posts_ok. by intros ->. Qed.

Lemma posts_outer {A} (m : M world A) : respects same_outer m -> respects posts_step m.
Proof. apply respects_mono. intros w w' (_ & E & _). by apply posts_same. Qed.

Lemma posts_wait : respects posts_step WaitSema.
Proof.
  intros w a w' H. unfold WaitSema in H. apply posts_same. destruct (fioSema w); [|by injection H as _ <-].
  destruct (0 <? _); [|done]. by injection H as _ <-.
Qed.
Lemma posts_signal : respects posts_step SignalSema.
Proof. intros w a w' [= _ <-]. by apply posts_same. Qed.
Lemma posts_fmod f g : respects posts_step (fmod f g).
Proof.
  intros w a w' H. unfold fmod in H. apply posts_same. destruct (files w !! f); [|done]. by injection H as _ <-.
Qed.

Lemma posts_smod i g : (forall s, post_ok s -> post_ok (g s)) -> respects posts_step (smod i g).
Proof.
  intros Hg w a w' H. unfold smod in H. destruct (hddFileSlots w !! i) as [s|] eqn:E; [|done].
  injection H as _ <-. intros Hw. apply Forall_insert; [done|]. apply Hg.
  by eapply (proj1 (Forall_lookup _ _) Hw).
Qed.

(** A store to [post] after its new value was checked. *)
Lemma posts_set_post i v : 0 <= u32 v <= 0x1FF8 -> respects posts_step (smod i (set_post v)).
Proof. intros Hv. by apply posts_smod. Qed.

#[export] Hint Resolve posts_wait posts_signal posts_fmod : frame_db.
#[export] Hint Extern 1 (respects posts_step (smod _ _)) => (apply posts_smod; intros ? ?; done) : frame_db.
#[export] Hint Extern 5 (respects posts_step _) => (apply posts_outer; solve [auto with frame_db]) : frame_db.

(** ** Calls *)

(** The parts of the handlers that run with the lock held. *)
Lemma lock_apaOpen n d i p m : respects lock_step (apaOpen n d i p m).
Proof. unfold apaOpen. respects_tac. Qed.
Lemma lock_apaRename n d o p : respects lock_step (apaRename n d o p).
Proof. unfold apaRename. respects_tac. Qed.
Lemma lock_addSub n i a : respects lock_step (ioctl2AddSub n i a).
Proof. unfold ioctl2AddSub. respects_tac. Qed.
Lemma lock_deleteSub n i : respects lock_step (ioctl2DeleteLastSub n i).
Proof. unfold ioctl2DeleteLastSub. respects_tac. Qed.
#[export] Hint Resolve lock_apaOpen lock_apaRename lock_addSub lock_deleteSub : frame_db.

Lemma posts_apaOpen n d i p m : respects posts_step (apaOpen n d i p m).
Proof. unfold apaOpen. respects_tac. Qed.
Lemma posts_apaRename n d o p : respects posts_step (apaRename n d o p).
Proof. unfold apaRename. respects_tac. Qed.
Lemma posts_addSub n i a : respects posts_step (ioctl2AddSub n i a).
Proof. unfold ioctl2AddSub. respects_tac. Qed.
Lemma posts_deleteSub n i : respects posts_step (ioctl2DeleteLastSub n i).
Proof. unfold ioctl2DeleteLastSub. respects_tac. Qed.
#[export] Hint Resolve posts_apaOpen posts_apaRename posts_addSub posts_deleteSub : frame_db.

(** A computation that ends with the lock free when it runs with the lock held,
    and one that finds the lock free and leaves it free. *)
Definition releases {A} (m : M world A) : Prop :=
  forall w a w', m w = Done a w' -> sema_range w -> sema_free w'.
Definition lock_ok {A} (m : M world A) : Prop :=
  forall w a w', m w = Done a w' -> sema_free w -> sema_free w'.

(** The lock is not touched. *)
Definition same_sema (w w' : world) : Prop := fioSema w' = fioSema w.
#[export] Instance same_sema_preorder : PreOrder same_sema.
Proof. split; [by intros w | unfold same_sema; intros w1 w2 w3; congruence]. Qed.
Lemma sema_outer {A} (m : M world A) : respects same_outer m -> respects same_sema m.
Proof. apply respects_mono. by intros w w' (E & _). Qed.
Lemma sema_smod i g : respects same_sema (smod i g).
Proof. intros w a w' H. unfold smod in H. destruct (hddFileSlots w !! i); [|done]. by injection H as _ <-. Qed.
#[export] Hint Resolve sema_smod : frame_db.
#[export] Hint Extern 5 (respects same_sema _) => (apply sema_outer; solve [auto with frame_db]) : frame_db.

(** [SignalSema], and what follows it in a handler. *)
Lemma releases_signal {A} (k : M world A) : respects same_sema k -> releases (SignalSema ;;; k).
Proof.
  intros Hk w a w' H Hr. apply bind_inv in H as (u & w1 & [= _ <-] & H). apply Hk in H.
  unfold sema_free. rewrite H. simpl. destruct Hr as [-> | [-> | ->]]; auto.
Qed.

Lemma releases_bind {A B} (m : M world A) (k : A -> M world B) :
  respects lock_step m -> (forall a, releases (k a)) -> releases (bind m k).
Proof.
  intros Hm Hk w b w' H Hr. apply bind_inv in H as (a & w1 & H1 & H2).
  eapply Hk; [exact H2|]. by apply (Hm _ _ _ H1).
Qed.

Lemma lock_ok_wait {A} (k : M world A) : releases k -> lock_ok (WaitSema ;;; k).
Proof.
  intros Hk w a w' H Hf. apply bind_inv in H as (u & w1 & H1 & H2). eapply Hk; [exact H2|].
  unfold WaitSema in H1. destruct Hf as [E | E]; rewrite E in H1; simpl in H1; injection H1 as _ <-.
  - by left.
  - right. by left.
Qed.

Lemma lock_ok_bind {A B} (m : M world A) (k : A -> M world B) :
  respects same_outer m -> (forall a, lock_ok (k a)) -> lock_ok (bind m k).
Proof.
  intros Hm Hk w b w' H Hf. apply bind_inv in H as (a & w1 & H1 & H2).
  eapply Hk; [exact H2|]. unfold sema_free. by destruct (Hm _ _ _ H1) as [-> _].
Qed.

Lemma lock_ok_outer {A} (m : M world A) : respects same_outer m -> lock_ok m.
Proof. intros Hm w a w' H Hf. unfold sema_free. by destruct (Hm _ _ _ H) as [-> _]. Qed.

(** Follow a handler: before the lock, then with it. *)
Ltac lock_step_tac :=
  match goal with
  | |- lock_ok (bind WaitSema _) => apply lock_ok_wait
  | |- lock_ok (bind _ _) => apply lock_ok_bind; [solve [respects_tac] | intros ?]
  | |- lock_ok (match ?x with _ => _ end) => destruct x
  | |- lock_ok (let _ := _ in _) => cbv zeta
  | |- lock_ok _ => apply lock_ok_outer; solve [respects_tac]
  | |- releases (bind SignalSema _) => apply releases_signal; solve [respects_tac]
  | |- releases (bind _ _) => apply releases_bind; [solve [respects_tac] | intros ?]
  | |- releases (match ?x with _ => _ end) => destruct x
  | |- releases (let _ := _ in _) => cbv zeta
  end.
Ltac lock_tac := repeat lock_step_tac.

Lemma lock_dataTransfer f b n m : lock_ok (fioDataTransfer f b n m).
Proof. unfold fioDataTransfer. lock_tac. Qed.
#[export] Hint Resolve lock_dataTransfer : frame_db.

Lemma lock_open n st f nm fl : lock_ok (hddOpen n st f nm fl).
Proof. unfold hddOpen. lock_tac. Qed.

(** ** Entry points *)

Inductive hdd_op : Type :=
| OpFormat (f : nat)
| OpOpen (stack : apa_params_t) (f : nat) (name : list Z) (flags : Z)
| OpClose (f : nat)
| OpRead (f : nat) (b : buf) (size : Z)
| OpWrite (f : nat) (b : buf) (size : Z)
| OpLseek (f : nat) (post whence : Z)
| OpRemove (f : nat) (name : list Z)
| OpReName (f : nat) (oldname newname : list Z)
| OpGetStat (f : nat) (name : list Z)
| OpDopen (stack : apa_params_t) (f : nat) (name : list Z)
| OpDread (f : nat)
| OpIoctl2 (f : nat) (req : Z) (argp : ioctl2Arg)
| OpDevctl (f : nat) (cmd : devctlCmd).

(** The return value of a call; [fuel] bounds its walks over the partitions. *)
Definition run_op (fuel : nat) (op : hdd_op) : M world Z :=
  match op with
  | OpFormat f => hddFormat fuel f
  | OpOpen stack f name flags => hddOpen fuel stack f name flags
  | OpClose f => hddClose f
  | OpRead f b size => r <- hddRead f b size ;; ret r.1
  | OpWrite f b size => r <- hddWrite f b size ;; ret r.1
  | OpLseek f post whence => hddLseek f post whence
  | OpRemove f name => hddRemove fuel f name
  | OpReName f o n => hddReName fuel f o n
  | OpGetStat f name => r <- hddGetStat fuel f name ;; ret r.1
  | OpDopen stack f name => hddDopen fuel stack f name
  | OpDread f => r <- hddDread f ;; ret r.1.1
  | OpIoctl2 f req argp => r <- hddIoctl2 fuel f req argp ;; ret r.1
  | OpDevctl f cmd => r <- hddDevctl fuel f cmd ;; ret r.1
  end.

(** A call that returns, and the states a driver can reach. *)
Inductive step : world -> world -> Prop :=
| step_op fuel op rv w w' : run_op fuel op w = Done rv w' -> step w w'.

Inductive reachable (w0 : world) : world -> Prop :=
| reach_start : reachable w0 w0
| reach_step w w' : reachable w0 w -> step w w' -> reachable w0 w'.

(** Forgetting part of the result. *)
Lemma lock_ok_fst {A B} (m : M world A) (g : A -> B) : lock_ok m -> lock_ok (r <- m ;; ret (g r)).
Proof. intros Hm w b w' H Hf. apply bind_inv in H as (a & w1 & H1 & [= _ <-]). by eapply Hm. Qed.

Lemma lock_op fuel op : lock_ok (run_op fuel op).
Proof.
  destruct op; cbn [run_op]; try apply lock_ok_fst.
  - apply lock_ok_outer. respects_tac.
  - apply lock_open.
  - unfold hddClose. lock_tac.
  - apply lock_dataTransfer.
  - unfold hddWrite. apply lock_ok_bind; [respects_tac | intros x]. destruct (negb _); [lock_tac | apply lock_dataTransfer].
  - unfold hddLseek. lock_tac.
  - unfold hddRemove. lock_tac.
  - unfold hddReName. lock_tac.
  - unfold hddGetStat. lock_tac.
  - apply lock_open.
  - unfold hddDread. lock_tac.
  - unfold hddIoctl2. lock_tac.
  - unfold hddDevctl. lock_tac.
Qed.

(** ** The position of a slot *)

Lemma posts_lseek f p wh : respects posts_step (hddLseek f p wh).
Proof.
  unfold hddLseek. respects_tac; apply posts_set_post.
  - pose proof (u32_range (s_post a1 + Z.shiftr p 9)) as [? _]. lia.
  - rewrite u32_small by (unfold is_u32; lia). lia.
Qed.

(** The new position of a transfer of [n] sectors at [post], clipped. *)
Lemma clip_post post n : 0 <= post <= 0x1FF8 ->
  0 <= u32 (post + (if 0x1FF9 <=? u32 (post + n) then s32 (0x1FF8 - post) else n)) <= 0x1FF8.
Proof.
  intros Hp. pose proof (u32_range (post + n)) as [? _]. destruct (Z.leb_spec 0x1FF9 (u32 (post + n))); [|lia].
  rewrite s32_small by lia. rewrite u32_small by (unfold is_u32; lia). lia.
Qed.

(** The lock alone changes. *)
Lemma slots_wait w u w' : WaitSema w = Done u w' -> hddFileSlots w' = hddFileSlots w.
Proof.
  unfold WaitSema. intros H. destruct (fioSema w); [|by injection H as _ <-].
  destruct (0 <? _); [|done]. by injection H as _ <-.
Qed.

Lemma posts_dataTransfer f b n m : respects posts_step (fioDataTransfer f b n m).
Proof.
  intros w r w' H. unfold fioDataTransfer in H.
  apply bind_inv in H as (i & w1 & H1 & H). apply outer_privdata in H1 as (_ & E1 & _).
  apply bind_inv in H as (s & w2 & H2 & H). unfold slot in H2.
  destruct (hddFileSlots w1 !! i) as [s0|] eqn:Es; [|done]. injection H2 as -> <-. rewrite E1 in Es.
  destruct (nz _); [injection H as _ <-; by apply posts_same|]. cbv zeta in H.
  destruct (nz _); [|injection H as _ <-; by apply posts_same].
  apply bind_inv in H as (u & w3 & H3 & H). apply slots_wait in H3.
  apply bind_inv in H as (x & w4 & H4 & H). apply outer_file in H4 as (_ & E4 & _).
  apply bind_inv in H as (p0 & w5 & H5 & H). apply outer_part in H5 as (_ & E5 & _).
  apply bind_inv in H as ([rr b'] & w6 & H6 & H). apply outer_ata in H6 as (_ & E6 & _).
  apply bind_inv in H as (u' & w7 & [= _ <-] & H).
  assert (E7 : hddFileSlots w6 = hddFileSlots w) by congruence.
  destruct (nz rr); [injection H as _ <-; by apply posts_same|].
  apply bind_inv in H as (u'' & w8 & H8 & [= _ <-]). unfold smod in H8. simpl in H8. rewrite E7, Es in H8.
  injection H8 as _ <-. intros Hw. apply Forall_insert; [done|].
  unfold post_ok. cbn [s_post set_post]. apply clip_post. by apply (proj1 (Forall_lookup _ _) Hw i).
Qed.

Lemma posts_op fuel op : respects posts_step (run_op fuel op).
Proof.
  destruct op; cbn [run_op].
  - respects_tac.
  - unfold hddOpen. respects_tac.
  - unfold hddClose. respects_tac.
  - unfold hddRead. respects_tac; apply posts_dataTransfer.
  - unfold hddWrite. respects_tac. apply posts_dataTransfer.
  - apply posts_lseek.
  - unfold hddRemove. respects_tac.
  - unfold hddReName. respects_tac.
  - unfold hddGetStat. respects_tac.
  - unfold hddDopen, hddOpen. respects_tac.
  - unfold hddDread. respects_tac.
  - unfold hddIoctl2. respects_tac.
  - unfold hddDevctl. respects_tac.
Qed.

(** ** Invariants of every reachable state *)

(** C23: the lock of the driver is free between calls: from a state where the
    semaphore is free, every state that a sequence of calls can reach has it
    free (whatever the calls return, and although [apaRename] signals it on
    some error paths before its caller does), so that a call never blocks. *)
Theorem lock_free_between_calls w w' :
  sema_free w -> reachable w w' -> sema_free w' /\ wp WaitSema w' (fun _ _ => True).
Proof.
  intros Hf Hr. assert (H : sema_free w').
  { induction Hr as [|w1 w2 _ IH Hs]; [done|]. destruct Hs as [fuel op rv w1 w2 E]. exact (lock_op _ _ _ _ _ E IH). }
  split; [done|]. apply wp_wait; auto.
Qed.

(** Closing the open partition of [w_open], then opening it again. *)
Definition w_closed : world := after (run_op 400 (OpClose 0)) w_open.

Lemma run_close : run_op 400 (OpClose 0) w_open = Done 0 w_closed.
Proof. unfold w_closed. apply result_after. vm_compute. reflexivity. Qed.

Lemma w_open_free : sema_free w_open.
Proof. right. vm_compute. reflexivity. Qed.

Lemma lock_free_between_calls_witness : sema_free w_closed /\ wp WaitSema w_closed (fun _ _ => True).
Proof.
  apply (lock_free_between_calls w_open w_closed w_open_free).
  eapply reach_step; [apply reach_start | eapply step_op, run_close].
Defined.

(** In every state that a sequence of calls can reach, the position of
    every file slot lies in the 4 MB area after the header of the partition,
    whatever sizes and offsets (negative ones included) the calls were given. *)
Theorem positions_in_area w w' :
  posts_ok w -> reachable w w' -> forall i s, hddFileSlots w' !! i = Some s -> 0 <= s_post s <= 0x1FF8.
Proof.
  intros Hp Hr. assert (H : posts_ok w').
  { induction Hr as [|w1 w2 _ IH Hs]; [done|]. destruct Hs as [fuel op rv w1 w2 E]. exact (posts_op _ _ _ _ _ E IH). }
  intros i s Hs. by apply (proj1 (Forall_lookup _ _) H i).
Qed.

(** Writing 1024 bytes at the position of the open partition. *)
Definition w_written : world := after (run_op 400 (OpWrite 0 (zeros 256) 1024)) w_open.

Lemma run_write_open : run_op 400 (OpWrite 0 (zeros 256) 1024) w_open = Done 1024 w_written.
Proof. unfold w_written. apply result_after. vm_compute. reflexivity. Qed.

Lemma positions_in_area_witness : exists s,
  hddFileSlots w_written !! 0%nat = Some s /\ s_post s = 2 /\ 0 <= s_post s <= 0x1FF8.
Proof.
  eexists. split; [vm_compute; reflexivity|]. split; [reflexivity|].
  apply (positions_in_area w_open w_written) with (i := 0%nat).
  - apply Forall_lookup. intros i s H. vm_compute in H.
    destruct i as [|i]; [injection H as <-; unfold post_ok; simpl; lia | discriminate H].
  - eapply reach_step; [apply reach_start | eapply step_op, run_write_open].
  - vm_compute. reflexivity.
Defined.
