(* ===== verification/Ends.v ===== *)
(** * Ends: operations that always come to an end

    [ends m]: the computation never runs out of fuel, from any state.  Loops
    over a counter end by their shape ([for_], [for_break]); the transfer loop
    of atad and the operations of libapa that do not walk the partition ring
    are shown to end whatever is on the drive. *)

From stdpp Require Import base numbers list gmap.
From Stdlib Require Import ZArith Lia.
From S2P Require Import Prelude Ata ApaState ApaCache ApaPart Hdd.

Open Scope Z_scope.
Open Scope c_scope.

Definition ends {S A} (m : M S A) : Prop := forall s, m s <> NoFuel.

Section Rules.
Context {S : Type}.

Lemma ends_ret {A} (a : A) : ends (ret (S := S) a).
Proof. discriminate. Qed.
Lemma ends_undef {A} : ends (undef (S := S) (A := A)).
Proof. discriminate. Qed.
Lemma ends_gets {A} (f : S -> A) : ends (gets f).
Proof. discriminate. Qed.
Lemma ends_modify (f : S -> S) : ends (modify f).
Proof. discriminate. Qed.

Lemma ends_bind {A B} (m : M S A) (k : A -> M S B) : ends m -> (forall a, ends (k a)) -> ends (bind m k).
Proof. intros Hm Hk s. unfold bind. specialize (Hm s). destruct (m s); [apply Hk|done|done]. Qed.

Lemma ends_when (b : bool) (m : M S unit) : ends m -> ends (when b m).
Proof. destruct b; [done | intros _; apply ends_ret]. Qed.

Lemma ends_for {I St} (body : I -> St -> M S St) :
  (forall i st, ends (body i st)) -> forall l st, ends (for_ l body st).
Proof.
  intros Hb. induction l as [|i l IH]; intros st; [apply ends_ret|].
  simpl. apply ends_bind; [apply Hb | intros st'; apply IH].
Qed.

Lemma ends_for_break {I St Q} (body : I -> St -> M S (St + Q)) :
  (forall i st, ends (body i st)) -> forall l st, ends (for_break l body st).
Proof.
  intros Hb. induction l as [|i l IH]; intros st; [apply ends_ret|].
  simpl. apply ends_bind; [apply Hb|]. intros [st'|v]; [apply IH | apply ends_ret].
Qed.

(** A loop whose state has a variant that every round decreases. *)
Lemma ends_while {St Q} (body : St -> M S (St + Q)) (ok : St -> Prop) (v : St -> nat) :
  (forall st, ok st -> ends (body st)) ->
  (forall st s st' s', ok st -> body st s = Done (inl st') s' -> ok st' /\ (v st' < v st)%nat) ->
  forall fuel st, ok st -> (v st < fuel)%nat -> ends (while_ fuel body st).
Proof.
  intros Hb Hv. induction fuel as [|n IH]; intros st Hok Hf; [lia|]. intros s.
  rewrite while_S. pose proof (Hb st Hok s) as Hs. destruct (body st s) as [[st'|x] s'| |] eqn:E; [|done..].
  destruct (Hv _ _ _ _ Hok E). apply IH; [done|lia].
Qed.
End Rules.

Create HintDb ends_db.

Ltac ends_step :=
  match goal with
  | |- ends (ret _) => apply ends_ret
  | |- ends undef => apply ends_undef
  | |- ends (gets _) => apply ends_gets
  | |- ends (modify _) => apply ends_modify
  | |- ends (bind _ _) => apply ends_bind; [|intros ?]
  | |- ends (when _ _) => apply ends_when
  | |- ends (for_ _ _ _) => apply ends_for; intros ? ?
  | |- ends (for_break _ _ _) => apply ends_for_break; intros ? ?
  | |- ends (match ?x with _ => _ end) => destruct x
  | |- ends (let _ := _ in _) => cbv zeta
  | |- ends _ => solve [auto with ends_db]
  end.
Ltac ends_tac := intros; repeat ends_step.

(** ** atad *)

Lemma ends_dma d b n s l h sel dir : ends (drive_dma d b n s l h sel dir).
Proof. intros st. unfold drive_dma. destruct (faults st (ncmd st)) as [[]|]; by repeat case_match. Qed.
#[export] Hint Resolve ends_dma : ends_db.

Lemma ends_retry d b n s l h sel dir : ends (ata_retry d b n s l h sel dir).
Proof. unfold ata_retry. ends_tac. Qed.
#[export] Hint Resolve ends_retry : ends_db.

Lemma ends_sector_io d b lba n dir : n < 2 ^ 32 -> ends (ata_device_sector_io d b lba n dir).
Proof.
  intros Hn. unfold ata_device_sector_io. destruct (_ <? _); [apply ends_undef|].
  apply (ends_while _ (fun '(_, _, _, _, k) => k < 2 ^ 32) (fun '(_, _, _, _, k) => Z.to_nat k)); [| |done|lia].
  - intros [[[[r dn] b0] l0] k] _. unfold ata_sector_loop. ends_tac.
  - intros [[[[r dn] b0] l0] k] s st' s' Hk H. unfold ata_sector_loop in H.
    destruct (_ && _) eqn:E; [|done]. apply andb_prop in E as [_ E%Z.ltb_lt].
    unfold bind at 1, gets in H. unfold bind in H. destruct (ata_retry _ _ _ _ _ _ _ _ _) as [[r' b1] s1| |]; [|done..].
    injection H as <- _. pose proof (chunk_len_bounds (lba48 s d) k E) as [Hlen _].
    rewrite u32_small by (unfold is_u32; lia). lia.
Qed.

Lemma ends_flush d : ends (ata_device_flush_cache d).
Proof. intros st. unfold ata_device_flush_cache. by destruct (faults st (ncmd st)) as [[]|]. Qed.

(** ** libapa *)

Lemma ends_ata {A} (m : M ata_st A) : ends m -> ends (ata_op m).
Proof. intros Hm w. unfold ata_op. specialize (Hm (ata w)). by destruct (m (ata w)). Qed.
Lemma ends_cget p : ends (cget p).
Proof. intros w. unfold cget. by destruct (cacheBuf w !! p). Qed.
Lemma ends_cmod p f : ends (cmod p f).
Proof. intros w. unfold cmod. by destruct (cacheBuf w !! p). Qed.
#[export] Hint Resolve ends_flush ends_ata ends_cget ends_cmod : ends_db.
#[export] Hint Extern 2 (ends (ata_op (ata_device_sector_io _ _ _ _ _))) =>
  (apply ends_ata, ends_sector_io; lia) : ends_db.

Lemma ends_header p : ends (header p).
Proof. unfold header. ends_tac. Qed.
Lemma ends_hmod p f : ends (hmod p f).
Proof. unfold hmod. ends_tac. Qed.
Lemma ends_mark_dirty p : ends (mark_dirty p).
Proof. unfold mark_dirty. ends_tac. Qed.
#[export] Hint Resolve ends_header ends_hmod ends_mark_dirty : ends_db.
Lemma ends_cache_io d p l n dir : n < 2 ^ 32 -> ends (cache_io d p l n dir).
Proof. intros Hn. unfold cache_io. ends_tac. Qed.
#[export] Hint Extern 2 (ends (cache_io _ _ _ _ _)) => (apply ends_cache_io; lia) : ends_db.
Lemma ends_getTime : ends apaGetTime.
Proof. unfold apaGetTime. ends_tac. Qed.
Lemma ends_saveError d p l e : ends (apaSaveError d p l e).
Proof. unfold apaSaveError. ends_tac. Qed.
Lemma ends_readHeader d p l : ends (apaReadHeader d p l).
Proof. unfold apaReadHeader. ends_tac. Qed.
Lemma ends_writeHeader d p l : ends (apaWriteHeader d p l).
Proof. unfold apaWriteHeader. ends_tac. Qed.
Lemma ends_link p q : ends (apaCacheLink p q).
Proof. unfold apaCacheLink. ends_tac. Qed.
Lemma ends_unlink p : ends (apaCacheUnLink p).
Proof. unfold apaCacheUnLink. ends_tac. Qed.
Lemma ends_ringEmpty : ends freeRingEmpty.
Proof. unfold freeRingEmpty. ends_tac. Qed.
#[export] Hint Resolve ends_getTime ends_saveError ends_readHeader ends_writeHeader ends_link ends_unlink ends_ringEmpty : ends_db.
Lemma ends_cacheFree p : ends (apaCacheFree p).
Proof. unfold apaCacheFree. ends_tac. Qed.
Lemma ends_cacheAlloc : ends apaCacheAlloc.
Proof. unfold apaCacheAlloc. ends_tac. Qed.
Lemma ends_journalFlush d : ends (apaJournalFlush d).
Proof. unfold apaJournalFlush. ends_tac. Qed.
#[export] Hint Resolve ends_cacheFree ends_cacheAlloc ends_journalFlush : ends_db.
Lemma ends_journalReset d : ends (apaJournalReset d).
Proof. unfold apaJournalReset. ends_tac. Qed.
Lemma ends_journalWrite p : ends (apaJournalWrite p).
Proof. unfold apaJournalWrite. ends_tac. Qed.
Lemma ends_transfer p t : ends (apaCacheTransfer p t).
Proof. unfold apaCacheTransfer. ends_tac. Qed.
#[export] Hint Resolve ends_journalReset ends_journalWrite ends_transfer : ends_db.
Lemma ends_flushAll d : ends (apaCacheFlushAllDirty d).
Proof. unfold apaCacheFlushAllDirty, forDirty. ends_tac. Qed.
Lemma ends_lookup d s : ends (cacheLookup d s).
Proof. unfold cacheLookup. ends_tac. Qed.
#[export] Hint Resolve ends_flushAll ends_lookup : ends_db.
Lemma ends_getHeader d s m : ends (apaCacheGetHeader d s m).
Proof. unfold apaCacheGetHeader. ends_tac. Qed.
Lemma ends_deref p : ends (deref p).
Proof. unfold deref. ends_tac. Qed.
#[export] Hint Resolve ends_getHeader ends_deref : ends_db.
Lemma ends_removePartition d s n p l : ends (apaRemovePartition d s n p l).
Proof. unfold apaRemovePartition. ends_tac. Qed.
#[export] Hint Resolve ends_removePartition : ends_db.
Lemma ends_padLoop d s n st : ends (hddPadLoop d s n st).
Proof. unfold hddPadLoop. ends_tac. Qed.
#[export] Hint Resolve ends_padLoop : ends_db.
Lemma ends_journalRestore d : ends (apaJournalRestore d).
Proof. unfold apaJournalRestore. ends_tac. Qed.
