(* ===== verification/SizeProps.v ===== *)
(** * SizeProps: sizes and placement of partitions *)

From stdpp Require Import base numbers list.
From Stdlib Require Import ZArith Lia.
From S2P Require Import Prelude ApaState ApaPart Hdd Scenario HddScenario Ends.

Open Scope Z_scope.
Open Scope c_scope.

(** ** The largest partition of a drive *)

Lemma land_bit k x : 0 <= k -> nz (Z.land (Z.shiftl 1 k) x) = Z.testbit x k.
Proof.
  intros Hk. destruct (Z.testbit x k) eqn:E.
  - apply nz_true. intros H. assert (Ht : Z.testbit (Z.land (Z.shiftl 1 k) x) k = true).
    { rewrite Z.land_spec, Z.shiftl_1_l, Z.pow2_bits_true by lia. done. }
    rewrite H, Z.testbit_0_l in Ht. done.
  - apply nz_false. apply Z.bits_inj'. intros i Hi. rewrite Z.land_spec, Z.testbit_0_l, Z.shiftl_1_l.
    destruct (Z.eq_dec i k) as [->|]; [by rewrite E, andb_false_r|]. by rewrite Z.pow2_bits_false by lia.
Qed.

Lemma partitionMaxBit_log2 i lba :
  0 < lba -> Z.log2 lba <= Z.of_nat i -> Z.of_nat (partitionMaxBit i lba) = Z.log2 lba.
Proof.
  intros Hl. induction i as [|i IH]; intros Hi; cbn [partitionMaxBit].
  - pose proof (Z.log2_nonneg lba). lia.
  - rewrite land_bit by lia. destruct (Z.eq_dec (Z.log2 lba) (Z.of_nat (S i))) as [E|E].
    + by rewrite <- E, Z.bit_log2.
    + rewrite Z.bits_above_log2 by lia. apply IH. lia.
Qed.

(** The largest partition allowed on a drive is 1/64 of it, rounded up to a
    power of two. *)
Lemma partition_max totalLBA :
  128 <= totalLBA < 2 ^ 32 -> apaGetPartitionMax totalLBA = 2 ^ Z.log2_up (totalLBA / 64).
Proof.
  intros H. unfold apaGetPartitionMax. rewrite Z.shiftr_div_pow2 by lia. change (2 ^ 6) with 64.
  set (lba := totalLBA / 64).
  assert (Hl : 2 <= lba < 2 ^ 26).
  { split; [apply Z.div_le_lower_bound; lia | apply Z.div_lt_upper_bound; lia]. }
  assert (Hlog : 1 <= Z.log2 lba < 26).
  { split; [apply Z.log2_le_pow2; lia | apply Z.log2_lt_pow2; lia]. }
  pose proof (partitionMaxBit_log2 31 lba ltac:(lia) ltac:(lia)) as E.
  set (i := partitionMaxBit 31 lba) in *.
  replace (Nat.max i 1) with i by lia. rewrite !Z.shiftl_1_l, E.
  pose proof (Z.log2_spec lba ltac:(lia)) as Hs.
  assert (Hpow : forall k, 0 <= k < 32 -> u32 (2 ^ k) = 2 ^ k).
  { intros k Hk. apply u32_small. split; [apply Z.pow_nonneg; lia | apply Z.pow_lt_mono_r; lia]. }
  destruct (Z.ltb_spec (2 ^ Z.log2 lba) lba).
  - replace (Z.of_nat (S i)) with (Z.succ (Z.log2 lba)) by lia. rewrite Hpow by lia.
    f_equal. symmetry. apply Z.log2_up_unique; [lia|]. rewrite Z.pred_succ. lia.
  - rewrite E, Hpow by lia. replace lba with (2 ^ Z.log2 lba) at 2 by lia. by rewrite Z.log2_up_pow2 by lia.
Qed.

Lemma partition_max_witness : apaGetPartitionMax 0x4000000 = 2 ^ Z.log2_up (0x4000000 / 64).
Proof. apply (partition_max 0x4000000); lia. Defined.

(** ** Padding in front of a partition *)

(** Sizes of partitions: 128 MB times a power of two. *)
Definition part_size (k : nat) : Z := 0x40000 * 2 ^ Z.of_nat k.

(** The next multiple of [size]. *)
Definition round_up (x size : Z) : Z := (x + size - 1) / size * size.

Lemma part_size_pos k : 0 < part_size k.
Proof. unfold part_size. pose proof (Z.pow_pos_nonneg 2 (Z.of_nat k)). lia. Qed.

Lemma part_size_S k : part_size (S k) = 2 * part_size k.
Proof. unfold part_size. rewrite Nat2Z.inj_succ, Z.pow_succ_r by lia. lia. Qed.

Lemma part_size_half k : Z.shiftr (part_size (S k)) 1 = part_size k.
Proof. rewrite part_size_S, Z.shiftr_div_pow2 by lia. change (2 ^ 1) with 2. rewrite Z.mul_comm. by apply Z.div_mul. Qed.

Lemma part_size_big k : 0x3FFFF < part_size k.
Proof. unfold part_size. pose proof (Z.pow_pos_nonneg 2 (Z.of_nat k)). lia. Qed.

(** The search of the inner loop: the largest size that divides [part_end]. *)
Lemma padSize_found part_end : forall k fuel,
  part_end mod 0x40000 = 0 -> (k < fuel)%nat ->
  exists j, (j <= k)%nat /\ padSize fuel part_end (part_size k) = Some (part_size j) /\
    part_end mod part_size j = 0 /\ ((j < k)%nat -> part_end mod part_size (S j) <> 0).
Proof.
  intros k fuel Hm. revert fuel.
  induction k as [|k IH]; intros [|fuel] Hf; try lia; cbn [padSize];
    rewrite (proj2 (Z.ltb_lt _ _) (part_size_big _)).
  - exists 0%nat. change (part_size 0) with 0x40000. rewrite Hm. simpl. repeat split; lia.
  - destruct (Z.eqb_spec (part_end mod part_size (S k)) 0) as [E|E].
    + exists (S k). rewrite E. repeat split; auto; lia.
    + rewrite part_size_half. destruct (IH fuel ltac:(lia)) as (j & Hj & Hp & Hd & Hn).
      exists j. split; [lia|]. split; [done|]. split; [done|]. intros _.
      destruct (Nat.eq_dec j k) as [->|]; [done | apply Hn; lia].
Qed.

Lemma round_up_spec x size q r : 0 < size -> x = q * size + r -> 0 < r <= size -> round_up x size = (q + 1) * size.
Proof.
  intros Hs -> Hr. unfold round_up. replace (q * size + r + size - 1) with (r - 1 + (q + 1) * size) by lia.
  rewrite Z.div_add, Z.div_small by lia. lia.
Qed.

Lemma round_up_aligned x size : 0 < size -> x mod size = 0 -> round_up x size = x.
Proof.
  intros Hs Hm. assert (E := Z.div_mod x size ltac:(lia)).
  rewrite (round_up_spec x size (x / size - 1) size) by lia. lia.
Qed.

(** Adding a block that divides [x] and [size] stays below the next multiple. *)
Lemma round_up_step x size t :
  0 < t -> (t | size) -> (t | x) -> 0 < size -> x mod size <> 0 ->
  x + t <= round_up x size /\ round_up (x + t) size = round_up x size.
Proof.
  intros Ht [a Ha] [b Hb] Hs Hm. assert (E := Z.div_mod x size ltac:(lia)).
  assert (Hr := Z.mod_pos_bound x size Hs). set (q := x / size) in *. set (r := x mod size) in *.
  assert (Hx : round_up x size = (q + 1) * size) by (apply (round_up_spec x size q r); lia).
  assert (Hle : x + t <= (q + 1) * size).
  { assert (b + 1 <= (q + 1) * a); [|nia]. cut (b < (q + 1) * a); [lia|]. nia. }
  rewrite Hx. split; [done|]. apply (round_up_spec (x + t) size q (x + t - q * size)); lia.
Qed.

Lemma part_size_divide j k : (j <= k)%nat -> (part_size j | part_size k).
Proof.
  intros H. exists (2 ^ Z.of_nat (k - j)). unfold part_size.
  rewrite (Z.mul_comm (2 ^ _)), <- Z.mul_assoc, <- Z.pow_add_r by lia. do 2 f_equal. lia.
Qed.

Lemma aligned_le e j k : (j <= k)%nat -> e mod part_size k = 0 -> e mod part_size j = 0.
Proof.
  intros Hjk H. pose proof (part_size_pos j). pose proof (part_size_pos k).
  apply Z.mod_divide; [lia|]. apply Z.mod_divide in H; [|lia].
  eapply Z.divide_trans; [by apply part_size_divide | done].
Qed.

(** A block of the largest size that divides [e] makes it more aligned. *)
Lemma pad_aligns e j : e mod part_size j = 0 -> e mod part_size (S j) <> 0 -> (e + part_size j) mod part_size (S j) = 0.
Proof.
  rewrite part_size_S. intros H1 H2. pose proof (part_size_pos j). set (t := part_size j) in *.
  apply Z.mod_divide in H1 as [c Hc]; [|lia]. apply Z.mod_divide; [lia|].
  destruct (Z.Even_or_Odd c) as [[d Hd]|[d Hd]].
  - destruct H2. apply Z.mod_divide; [lia|]. exists d. lia.
  - exists (d + 1). lia.
Qed.

(** A round of the loop in the code moves [part_end] by the block found. *)
Lemma hddPadLoop_moves device size next this e w r w' :
  hddPadLoop device size next (this, e) w = Done r w' ->
  match r with
  | inr (_, e') => e mod size = 0 /\ e' = e
  | inl (_, e') => e mod size <> 0 /\
      match padSize 33 e (Z.shiftr size 1) with
      | Some t => e' = u32 (e + t)
      | None => e' = e
      end
  end.
Proof.
  unfold hddPadLoop. destruct (Z.eqb_spec (e mod size) 0) as [E|E]; [by intros [= <- _]|].
  destruct (padSize 33 e (Z.shiftr size 1)) as [t|]; [|by intros [= <- _]].
  intros H. repeat (apply bind_inv in H as (? & ? & _ & H)). injection H as <- _. done.
Qed.

(** By induction on how far the alignment of [e] is from [k]. *)
Lemma padding_loop device next k : forall n fuel this e w,
  (n <= k)%nat -> (k <= 13)%nat -> (n < fuel)%nat -> e mod part_size (k - n) = 0 -> 0 <= e ->
  round_up e (part_size k) < 2 ^ 32 ->
  match while_ fuel (hddPadLoop device (part_size k) next) (this, e) w with
  | Done (_, e') _ => e' = round_up e (part_size k)
  | Undef => True
  | NoFuel => False
  end.
Proof.
  induction n as [|n IH]; intros [|fuel] this e w Hnk Hk Hf Ha He Hmax; try lia; rewrite while_S.
  - rewrite Nat.sub_0_r in Ha. unfold hddPadLoop. rewrite Ha. simpl.
    symmetry. apply round_up_aligned; [apply part_size_pos | done].
  - pose proof (ends_padLoop device (part_size k) next (this, e) w) as Hend.
    destruct (hddPadLoop _ _ _ _ w) as [[[this' e']|[this' e']] w'| |] eqn:E; [| |done|done];
      apply hddPadLoop_moves in E as [Hm He'].
    + destruct k as [|k]; [lia|]. rewrite part_size_half in He'.
      destruct (padSize_found e k 33) as (j & Hj & Hp & Hd & Hn); [|lia|].
      { change 0x40000 with (part_size 0). eapply aligned_le; [|exact Ha]. lia. }
      rewrite Hp in He'. assert (Hj' : e mod part_size (S j) <> 0).
      { destruct (Nat.eq_dec j k) as [->|]; [done | apply Hn; lia]. }
      assert (Hjn : (S k - S n <= j)%nat).
      { destruct (le_lt_dec (S k - S n) j); [done|]. destruct Hj'. eapply aligned_le; [|exact Ha]. lia. }
      pose proof (part_size_pos j). pose proof (part_size_pos (S k)).
      destruct (round_up_step e (part_size (S k)) (part_size j)) as [Hle Hr];
        [done|apply part_size_divide; lia|apply Z.mod_divide; [lia|done]|done|done|].
      rewrite u32_small in He' by (unfold is_u32; lia). subst e'. rewrite <- Hr.
      apply IH; [lia|done|lia| |lia|lia].
      eapply aligned_le; [|by apply pad_aligns]. lia.
    + subst e'. symmetry. apply round_up_aligned; [apply part_size_pos | done].
Qed.

(** Placing a partition of 128 MB times 2^k, [hddAddPartitionHere] pads the
    space after the last partition with free blocks up to the next multiple of
    its size: whatever the drive does, the loop ends after at most k+1 rounds
    and leaves the end of the padding exactly at that multiple. *)
Theorem padding_ends device next k fuel this e w :
  (k <= 13)%nat -> (k < fuel)%nat -> e mod 0x40000 = 0 -> 0 <= e -> round_up e (part_size k) < 2 ^ 32 ->
  match while_ fuel (hddPadLoop device (part_size k) next) (this, e) w with
  | Done (_, e') _ => e' = round_up e (part_size k)
  | Undef => True
  | NoFuel => False
  end.
Proof. intros Hk Hf Hm He Hmax. apply (padding_loop device next k k); auto. by rewrite Nat.sub_diag. Qed.

(** On the formatted drive: 1 GB after the last partition. *)
Lemma padding_ends_witness :
  match while_ 4 (hddPadLoop 0 (part_size 3) 0) (1%nat, 0x140000) w_formatted with
  | Done (_, e') _ => e' = 0x200000
  | Undef => True
  | NoFuel => False
  end.
Proof. apply (padding_ends 0 0 3 4 1%nat 0x140000 w_formatted); [lia|lia|reflexivity|lia|reflexivity]. Defined.
