(* ===== verification/ApaAppend.v ===== *)
(** * ApaAppend: a partition put after the last one

    [hddAddPartitionHere] without a free block to use: free blocks fill the
    space up to the next multiple of the size, the new partition comes after
    them. *)

From stdpp Require Import base numbers list gmap sets.
From Stdlib Require Import ZArith Lia.
From S2P Require Import Prelude Ata ApaState ApaCache ApaFacts Crash ApaCrash ApaPart ApaTable ApaTableOps ApaChain ApaSplit ApaInsert ApaWalk Hdd SizeProps.

Open Scope Z_scope.
Open Scope c_scope.

(** ** A block at the end of the ring *)

Lemma chain_append V V' pre b z e hb hb' he hm hm' :
  chain V (pre ++ [b]) z -> pre <> [] -> V !! k_start b = Some hb -> V !! 0 = Some hm ->
  k_start e = z -> 0 < k_length e ->
  V' !! k_start b = Some hb' -> content hb' = b -> h_prev hb' = h_prev hb -> h_next hb' = z ->
  V' !! z = Some he -> content he = e -> h_prev he = k_start b -> h_next he = 0 ->
  V' !! 0 = Some hm' -> content hm' = content hm -> h_next hm' = h_next hm -> h_prev hm' = z ->
  (forall s, s <> k_start b -> s <> z -> s <> 0 -> V' !! s = V !! s) ->
  chain V' ((pre ++ [b]) ++ [e]) (z + k_length e).
Proof.
  intros (_ & HA & HS) Hpre Hb Hm Ee Le Vb Cb Pb Nb Ve Ce Pe Ne Vm Cm Nm Pm HO.
  split; [by destruct pre|]. split; [apply area_app; exists z; split; [done|]; by simpl|].
  destruct pre as [|m0 pre]; [done|].
  assert (El : last_start 0 (((m0 :: pre) ++ [b]) ++ [e]) = z) by (rewrite last_start_app; done).
  assert (El0 : last_start 0 ((m0 :: pre) ++ [b]) = k_start b) by (rewrite last_start_app; done).
  rewrite El, <- app_assoc. rewrite El0 in HS. apply area_app in HA as (m & HA1 & Em & Hl & HA2). simpl in Em, HA2.
  destruct HA1 as (Em0 & Lm0 & HA1). apply seg_cat in HS as [HS1 [(hb0 & E0 & E1 & E2 & E3) _]]. rewrite Hb in E0. injection E0 as <-.
  rewrite <- Em0 in Hm, Vm, HO. pose proof (area_le _ _ _ HA1) as Hm1. apply seg_cat. split.
  - simpl first_start. eapply (seg_prev V V' _ _ m0 pre _ hm hm'); try done.
    intros x Hx. pose proof (area_in _ _ _ _ HA1 Hx). apply HO; lia.
  - simpl. rewrite Ee. split_and!; [|by exists he; rewrite Ee|done]. exists hb'. rewrite last_start_cons in E2 |- *.
    split_and!; congruence.
Qed.

Lemma in_none (s : Z) (X : Prop) : s ∈ (∅ ∪ ∅ : gset Z) -> X.
Proof. set_solver. Qed.

Section Append.
Context (dv : Z) (K : gset Z) (d0 : diskmap).
Notation tab := (tab dv K d0).

(** The stores that link a block at [z] into the ring, up to the flush. *)
Lemma chain_mbr V pre b z : chain V (pre ++ [b]) z -> pre <> [] -> exists hm, V !! 0 = Some hm.
Proof.
  intros (_ & HA & HS) Hpre. destruct pre as [|m0 pre]; [done|]. destruct HA as (E & _), HS as [(h & Vh & _) _]. rewrite E in Vh. eauto.
Qed.

(** What both places that append do: [this] and [next] are the last partition
    and the master boot record, [new] the block at [z], its header filled. *)
Lemma wp_link {B} V U w this next new pre b z he len ty (rest : Z -> M world B) Q :
  tab (<[z := he]> V) ∅ {[z]} ((new, z) :: (this, k_start b) :: (next, 0) :: U) w ->
  block_header z 0 (k_start b) len ty he -> 0 < len -> is_u32 z ->
  chain V (pre ++ [b]) z -> pre <> [] -> 0 ∈ K -> k_start b ∈ K ->
  (forall V' w', tab V' ∅ ∅ ((new, z) :: (this, k_start b) :: (next, 0) :: U) w' ->
    chain V' ((pre ++ [b]) ++ [content he]) (z + len) -> V' !! z = Some (sealed he) -> kept w w' -> wp (rest 0) w' Q) ->
  wp (hmod this (set_next z) ;;; mark_dirty this ;;; hn <- header new ;; hmod next (set_prev (h_start hn)) ;;;
      mark_dirty next ;;; r <- apaCacheFlushAllDirty dv ;; rest r) w Q.
Proof.
  intros T HB Hlen Hz HC Hpre K0 Kb HQ.
  destruct (chain_block _ _ _ _ _ HC Hpre) as (Hb0 & Hlb0 & Hbz & hb & Vb & Cb & _). destruct (chain_mbr _ _ _ _ HC Hpre) as [hm Vm].
  pose proof (t_tabs _ _ _ _ _ _ _ _ T) as TT. set (sb := k_start b) in *.
  assert (Vb1 : <[z := he]> V !! sb = Some hb) by (rewrite lookup_insert_ne by lia; done).
  assert (Vm1 : <[z := he]> V !! 0 = Some hm) by (rewrite lookup_insert_ne by lia; done).
  destruct (t_place _ _ _ _ _ _ _ _ _ TT _ _ Vb1) as [_ Lb], (t_place _ _ _ _ _ _ _ _ _ TT _ _ Vm1) as [_ Lm].
  pose proof (t_read _ _ _ _ _ _ _ _ _ TT _ _ Vb1 ltac:(set_solver)) as Rb.
  pose proof (t_read _ _ _ _ _ _ _ _ _ TT _ _ Vm1 ltac:(set_solver)) as Rm.
  set (hb1 := set_next z hb). set (hm1 := set_prev z hm).
  assert (L1 : length hb1 = 256%nat /\ length hm1 = 256%nat) by (unfold hb1, hm1; fields; by autorewrite with buf_db). destruct L1 as [L1 L2].
  apply wp_bind. eapply wp_hmod; [exact T|right; left|exact Vb1|exact L1|]. intros w1 T1 K1. fold hb1 in T1.
  apply wp_bind. eapply wp_mark; [exact T1|right; left|by rewrite lookup_insert_eq|by apply readable_set32; [|lia]|done|]. intros w2 T2 K2.
  apply wp_bind. eapply wp_header; [exact T2|left|by rewrite lookup_insert_ne, lookup_insert_eq by lia|]. rewrite (bh_start _ _ _ _ _ _ HB).
  apply wp_bind. eapply wp_hmod; [exact T2|right; right; left|rewrite lookup_insert_ne by lia; exact Vm1|exact L2|]. intros w3 T3 K3. fold hm1 in T3.
  apply wp_bind. eapply wp_mark; [exact T3|right; right; left|by rewrite lookup_insert_eq|by apply readable_set32; [|lia]|done|]. intros w4 T4 K4.
  match type of T4 with ApaTable.tab _ _ _ _ ?P _ _ _ => replace P with (∅ : gset Z) in T4 by set_solver end.
  apply wp_bind. eapply wp_flush; [exact T4|]. intros w5 T5 K5.
  match type of T5 with ApaTable.tab _ _ _ (seal ?D ?V) _ _ _ _ => set (D' := D) in T5; set (V2 := V) in T5 end.
  assert (Ve' : seal D' V2 !! z = Some (sealed he)).
  { unfold V2. rewrite seal_lookup, !lookup_insert_ne, lookup_insert_eq by lia. simpl. by rewrite decide_True by set_solver. }
  assert (Vb' : seal D' V2 !! sb = Some (sealed hb1)).
  { unfold V2. rewrite seal_lookup, lookup_insert_ne, lookup_insert_eq by lia. simpl. by rewrite decide_True by set_solver. }
  assert (Vm' : seal D' V2 !! 0 = Some (sealed hm1)).
  { unfold V2. rewrite seal_lookup, lookup_insert_eq. simpl. by rewrite decide_True by set_solver. }
  apply (HQ (seal D' V2) w5); [done| |done|kept_tac].
  replace len with (k_length (content he)) in * by (rewrite k_length_content; apply HB).
  eapply (chain_append V _ pre b z (content he) hb (sealed hb1) (sealed he) hm (sealed hm1)); try done; fold sb; try done.
  - rewrite k_start_content. apply HB.
  - rewrite content_sealed. unfold hb1. by rewrite content_next.
  - rewrite prev_sealed. unfold hb1. fields. by rewrite get32_set32_ne.
  - rewrite next_sealed. unfold hb1. fields. rewrite get32_set32_eq by lia. by apply u32_small.
  - apply content_sealed.
  - rewrite prev_sealed. apply HB.
  - rewrite next_sealed. apply HB.
  - rewrite content_sealed. unfold hm1. by rewrite content_prev.
  - rewrite next_sealed. unfold hm1. fields. by rewrite get32_set32_ne.
  - rewrite prev_sealed. unfold hm1. fields. rewrite get32_set32_eq by lia. by apply u32_small.
  - intros s H1 H2 H3. unfold V2. rewrite seal_lookup, !lookup_insert_ne by done. destruct (V !! s); [|done]. simpl. by rewrite decide_False by set_solver.
Qed.

(** ** The padding *)

Definition free_aligned (c : buf) : Prop :=
  k_type c = APA_TYPE_FREE /\ exists j, k_length c = part_size j /\ (k_length c | k_start c).

Lemma place_unit w e t z : addressable (ata w) dv 0 z -> e mod unit_size = 0 -> 0 < e -> 2 <= t -> e + t <= z -> place dv (ata w) e.
Proof.
  intros (A1 & A2 & A3 & A4 & A5) Hm He Ht Hz. pose proof (unit_le _ He Hm). split_and!.
  - unfold addressable. split_and!; try lia. destruct A5; [by left|right; lia].
  - done.
  - unfold clear_of_journal. lia.
Qed.

Lemma kept_addressable w w' z : kept w w' -> addressable (ata w) dv 0 z -> addressable (ata w') dv 0 z.
Proof. intros (_ & _ & E). unfold addressable. by rewrite E. Qed.

(** One round: a block of the size [padSize] finds. *)
Lemma wp_padStep V U w this next pre b e z size t j Q :
  tab V ∅ ∅ ((this, k_start b) :: (next, 0) :: U) w -> chain V (pre ++ [b]) e -> pre <> [] -> addressable (ata w) dv 0 z ->
  Z.of_nat (length U) + 3 <= cacheSize w -> e mod size <> 0 -> padSize 33 e (Z.shiftr size 1) = Some t -> t = part_size j ->
  (t | e) -> e + t <= z -> e + t < 2 ^ 32 -> 0 ∈ K -> k_start b ∈ K -> e ∈ K ->
  (forall new V' f w', tab V' ∅ ∅ ((new, e) :: (next, 0) :: U) w' -> chain V' ((pre ++ [b]) ++ [f]) (e + t) ->
    k_start f = e -> free_aligned f -> kept w w' -> Q (inl (new, e + t)) w') ->
  wp (hddPadLoop dv size next (this, e)) w Q.
Proof.
  intros T HC Hpre Ha HU Hm Hp Ht Hd Hz Hez K0 Kb Ke HQ. pose proof (part_size_pos j). pose proof (part_size_big j).
  destruct (chain_block _ _ _ _ _ HC Hpre) as (Hb0 & Hlb0 & Hbz & hb & Vb & Cb & _).
  assert (Hz32 : z <= 2 ^ 32) by (unfold addressable in Ha; lia).
  assert (He0 : e mod unit_size = 0).
  { apply Z.mod_divide; [done|]. eapply Z.divide_trans; [|exact Hd]. rewrite Ht. apply (part_size_divide 0). lia. }
  unfold hddPadLoop. rewrite (proj2 (Z.eqb_neq _ _)) by done. rewrite Hp.
  apply wp_bind. eapply wp_header; [exact T|left|exact Vb|]. rewrite <- (k_start_content hb), Cb.
  apply wp_bind. eapply wp_removePartition; [exact T| |lia|unfold is_u32; lia..| |apply not_elem_of_empty|done|].
  { eapply (place_unit w e t z); done || lia. }
  { simpl. lia. }
  intros new he w1 HB T1 K1. rewrite union_empty_l_L in T1.
  refine (wp_link V U w1 this next new pre b e he t APA_TYPE_FREE (fun _ => _) Q T1 HB _ _ HC Hpre K0 Kb _); [lia|unfold is_u32; lia|].
  intros V' w2 T2 HC2 _ K2. apply wp_bind.
  eapply (wp_free _ _ _ _ _ _ _ [(new, e)] _ _ this (k_start b)); [exact T2|done|apply in_none|]. intros w3 T3 K3. apply wp_ret.
  rewrite u32_small by (unfold is_u32; lia).
  destruct HB as [B1 B2 B3 B4 B5 B6 B7]. eapply HQ; [exact T3|exact HC2|by rewrite k_start_content| |kept_tac].
  split; [by rewrite k_type_content|]. exists j. rewrite k_length_content, k_start_content, B3, B6. done.
Qed.

(** All rounds, by induction on how far the alignment of [e] is from [k]. *)
Lemma wp_padding U z k next Q : (k <= 13)%nat -> 0 ∈ K -> forall n fuel V w this pre b e,
  tab V ∅ ∅ ((this, k_start b) :: (next, 0) :: U) w -> chain V (pre ++ [b]) e -> pre <> [] -> addressable (ata w) dv 0 z ->
  Z.of_nat (length U) + 3 <= cacheSize w -> (n <= k)%nat -> (n < fuel)%nat -> e mod part_size (k - n) = 0 ->
  round_up e (part_size k) <= z -> round_up e (part_size k) < 2 ^ 32 -> k_start b ∈ K ->
  (forall s, e <= s < round_up e (part_size k) -> s mod unit_size = 0 -> s ∈ K) ->
  (forall last V' fs c w', tab V' ∅ ∅ ((last, k_start c) :: (next, 0) :: U) w' ->
    chain V' (pre ++ b :: fs) (round_up e (part_size k)) -> (exists pre', pre ++ b :: fs = pre' ++ [c] /\ pre' <> []) -> k_start c ∈ K ->
    Forall free_aligned fs -> kept w w' -> Q (last, round_up e (part_size k)) w') ->
  wp (while_ fuel (hddPadLoop dv (part_size k) next) (this, e)) w Q.
Proof.
  intros Hk K0. induction n as [|n IH]; intros [|fuel] V w this pre b e T HC Hpre Ha HU Hnk Hf Hal Hz Hz32 Kb KS HQ; try lia.
  all: destruct (chain_block _ _ _ _ _ HC Hpre) as (Hb0 & _ & Hbz & _); pose proof (part_size_pos k) as Hpk.
  all: assert (HE : e mod part_size k = 0 -> wp (while_ (S fuel) (hddPadLoop dv (part_size k) next) (this, e)) w Q) by
   (intros Hm; apply wp_bind; unfold hddPadLoop at 1; rewrite Hm; apply wp_ret, wp_ret; rewrite (round_up_aligned e _ Hpk Hm) in HQ;
    apply (HQ this V [] b w); try done; by exists pre).
  - rewrite Nat.sub_0_r in Hal. auto.
  - destruct (decide (e mod part_size k = 0)) as [|Hm]; [auto|]. clear HE. destruct k as [|k]; [lia|].
    destruct (padSize_found e k 33) as (j & Hj & Hp & Hd & Hn); [|lia|].
    { change 0x40000 with (part_size 0). eapply aligned_le; [|exact Hal]. lia. }
    assert (Hj' : e mod part_size (S j) <> 0) by (destruct (Nat.eq_dec j k) as [->|]; [done | apply Hn; lia]).
    assert (Hjn : (S k - S n <= j)%nat).
    { destruct (le_lt_dec (S k - S n) j); [done|]. destruct Hj'. eapply aligned_le; [|exact Hal]. lia. }
    pose proof (part_size_pos j).
    assert (Hdv : (part_size j | e)) by (apply Z.mod_divide; [lia|done]).
    destruct (round_up_step e (part_size (S k)) (part_size j)) as [Hle Hr]; [done|apply part_size_divide; lia|done|done|done|].
    assert (He0 : e mod unit_size = 0) by (change unit_size with (part_size 0); eapply aligned_le; [|exact Hd]; lia).
    assert (Ke : e ∈ K) by (apply KS; [lia|done]).
    apply wp_bind. eapply (wp_padStep V U w this next pre b e z (part_size (S k)) (part_size j) j); try done; try lia.
    { by rewrite part_size_half. }
    intros new V' f w' T' HC' Ef Ff Kw. rewrite <- Ef in T'.
    apply (IH fuel V' w' new (pre ++ [b]) f (e + part_size j)); try done; try lia; rewrite ?Hr; try done.
    + by destruct pre.
    + by eapply kept_addressable.
    + destruct Kw as (-> & _). done.
    + eapply aligned_le; [|by apply pad_aligns]. lia.
    + by rewrite Ef.
    + intros s Hs. apply KS. lia.
    + intros last V2 fs c w2 T2 HC2 (pre' & E & Hp') Kc HF K2. rewrite <- app_assoc in HC2, E. apply (HQ last V2 (f :: fs) c w2); try done.
      * by exists pre'.
      * by constructor.
      * by transitivity w'.
Qed.

(** ** The whole of hddAddPartitionHere, after the last partition *)

Lemma round_up_mod x size : 0 < size -> x + (if nz (x mod size) then size - x mod size else 0) = round_up x size.
Proof.
  intros Hs. assert (E := Z.div_mod x size ltac:(lia)). assert (Hr := Z.mod_pos_bound x size Hs).
  destruct (nz _) eqn:En.
  - apply nz_true in En. rewrite (round_up_spec x size (x / size) (x mod size)) by lia. lia.
  - apply nz_false in En. rewrite round_up_aligned by lia. lia.
Qed.

Lemma round_up_bounds x size : 0 < size -> x <= round_up x size < x + size.
Proof.
  intros Hs. rewrite <- round_up_mod by done. assert (Hr := Z.mod_pos_bound x size Hs). destruct (nz _) eqn:En; [|lia].
  apply nz_true in En. lia.
Qed.

Lemma round_up_unit x k : x mod unit_size = 0 -> round_up x (part_size k) mod unit_size = 0.
Proof.
  intros Hx. unfold round_up. apply Z.mod_divide; [done|]. apply Z.divide_mul_r. apply (part_size_divide 0). lia.
Qed.

Lemma wp_appendPartition V U w pre b z k params fuel emptyBlocks d (e := round_up z (part_size k)) Q :
  tab V ∅ ∅ U w -> chain V (pre ++ [b]) z -> pre <> [] -> usableBlock 0 (p_size params) (take 32 emptyBlocks) = None ->
  p_size params = part_size k -> (k <= 13)%nat -> (k < fuel)%nat -> names_ok params -> Z.of_nat (length U) + 3 <= cacheSize w ->
  hddDevices w !! Z.to_nat dv = Some d -> z mod unit_size = 0 -> addressable (ata w) dv 0 (d_totalLBA d) -> z <= d_totalLBA d ->
  z + 2 * part_size k <= 2 ^ 32 -> 0 ∈ K -> k_start b ∈ K -> (forall s, z <= s <= e -> s mod unit_size = 0 -> s ∈ K) ->
  (if d_totalLBA d <? e + part_size k then forall w', tab V ∅ ∅ U w' -> kept w w' -> Q (None, - ENOSPC) w'
   else forall i V' fs h w', tab V' ∅ ∅ ((i, e) :: U) w' -> chain V' ((pre ++ b :: fs) ++ [content h]) (e + part_size k) ->
     Forall free_aligned fs -> (exists pv, new_header params e 0 pv (part_size k) h) -> V' !! e = Some (sealed h) ->
     kept w w' -> Q (Some i, 0) w') ->
  wp (hddAddPartitionHere fuel dv params emptyBlocks (k_start b)) w Q.
Proof.
  intros T HC Hpre Hub Hsz Hk Hf HN HU Hd Hz0 Ha Hzl Hz K0 Kb KS HQ. pose proof (part_size_pos k) as Hpk. pose proof (part_size_big k) as Hbig.
  pose proof (round_up_bounds z _ Hpk) as Hr. pose proof (round_up_unit z k Hz0) as He0. fold e in Hr, He0.
  destruct (chain_block _ _ _ _ _ HC Hpre) as (Hb0 & Hlb0 & Hbz & hb & Vb & Cb & _).
  assert (Sb : h_start hb = k_start b /\ h_length hb = k_length b) by (by rewrite <- k_start_content, <- k_length_content, Cb).
  assert (Eb : k_start b + k_length b = z).
  { pose proof HC as (_ & HA & _). apply area_app in HA as (m & _ & Em & _ & HA2). simpl in Em, HA2. lia. }
  destruct Sb as [Sb Lb]. unfold hddAddPartitionHere. rewrite Hub, Hsz.
  apply wp_bind. eapply wp_get; [exact T|exact Vb|lia|]. intros this w1 T1 K1. cbv beta iota. apply wp_bind, wp_ret.
  apply wp_bind. eapply wp_header; [exact T1|left|exact Vb|]. rewrite Sb, Lb, Eb, (u32_small z) by (unfold is_u32; lia).
  rewrite (proj2 (Z.eqb_neq (part_size k) 0)) by lia.
  apply wp_bind. eapply wp_Done.
  { unfold hddDevice. rewrite (proj2 (Z.ltb_ge dv 0)) by (pose proof (t_dev _ _ _ _ _ _ _ _ T); lia).
    destruct K1 as (_ & [= -> _] & _). by rewrite Hd. }
  cbv beta. rewrite (Z.add_comm z), <- Z.add_assoc, round_up_mod, Z.add_comm, u32_small by (fold e; unfold is_u32; lia). fold e.
  rewrite (proj2 (Z.ltb_ge z (k_start b))), orb_false_r by lia.
  destruct (Z.ltb_spec (d_totalLBA d) (e + part_size k)) as [Hno|Hroom].
  { apply wp_bind. eapply (wp_free _ _ _ _ _ _ _ [] _ _ this (k_start b)); [exact T1|done|apply in_none|]. intros w2 T2 K2. apply wp_ret.
    apply HQ; [done|kept_tac]. }
  destruct (chain_mbr _ _ _ _ HC Hpre) as [hm Vm].
  apply wp_bind. eapply wp_get; [exact T1|exact Vm|simpl; destruct K1 as (-> & _); lia|]. intros next w2 T2 K2. cbv beta iota.
  assert (Ka : kept w w2) by kept_tac.
  assert (T2' : tab V ∅ ∅ ((this, k_start b) :: (next, 0) :: U) w2) by (eapply tab_perm; [exact T2|constructor]).
  apply wp_bind. eapply (wp_padding U (d_totalLBA d) k next _ Hk K0 k fuel V w2 this pre b z); try done; fold e; try lia.
  { by eapply kept_addressable. }
  { destruct Ka as (-> & _). lia. }
  { by rewrite Nat.sub_diag. }
  { intros s Hs. apply KS. lia. }
  intros lst V3 fs c w3 T3 HC3 (pre' & Ep & Hp') Kc HF K3. rewrite Ep in *.
  destruct (chain_block _ _ _ _ _ HC3 Hp') as (Hc0 & Hlc0 & Hce & hc & Vc & Cc & _).
  apply wp_bind. eapply wp_header; [exact T3|left|exact Vc|]. rewrite <- (k_start_content hc), Cc.
  apply wp_bind. eapply wp_fillHeader; [exact T3|done| |lia|unfold is_u32; lia..| |apply not_elem_of_empty|apply KS; [lia|done]|].
  { eapply (place_unit w3 e (part_size k) (d_totalLBA d)); try done; try lia. eapply kept_addressable; [|exact Ha]. kept_tac. }
  { simpl. destruct K3 as (-> & _), Ka as (-> & _). lia. }
  intros new h w4 NH T4 K4. rewrite union_empty_l_L in T4. cbv beta iota. apply wp_bind.
  refine (wp_link V3 U w4 lst next new pre' c e h (part_size k) (u16 (p_type params)) (fun _ => _) _ T4 (nh_block _ _ _ _ _ _ NH) _ _ HC3 Hp' K0 Kc _);
    [lia|unfold is_u32; lia|].
  intros V5 w5 T5 HC5 V5e K5. apply wp_ret.
  apply wp_bind. eapply (wp_free _ _ _ _ _ _ _ [(new, e)] _ _ lst (k_start c)); [exact T5|done|apply in_none|]. intros w6 T6 K6.
  apply wp_bind. eapply (wp_free _ _ _ _ _ _ _ [(new, e)] _ _ next 0); [exact T6|done|apply in_none|]. intros w7 T7 K7. apply wp_ret.
  rewrite <- Ep in HC5. eapply HQ; [exact T7|exact HC5|done|eauto|done|]. kept_tac.
Qed.
End Append.
