(* ===== verification/ApaCreate.v ===== *)
(** * ApaCreate: the steps of creating a partition

    The walk of [apaOpen], which notes a free block of each size; the choice of
    the smallest one that fits; both ways of [hddAddPartitionHere]; the sectors
    cleared at the start of a new partition. *)

From stdpp Require Import base numbers list gmap sets.
From Stdlib Require Import ZArith Lia.
From S2P Require Import Prelude Ata ApaState ApaCache ApaFacts ApaRing ApaInv Crash ApaCrash ApaPart ApaTable ApaTableOps ApaChain ApaSplit ApaInsert ApaWalk Hdd HddFio SizeProps ApaAppend.

Open Scope Z_scope.
Open Scope c_scope.

(** ** The free blocks of a ring, by size *)

(** A free block of 2^i sectors. *)
Definition free_pow (i : nat) (c : buf) : Prop := k_type c = APA_TYPE_FREE /\ k_length c = 2 ^ Z.of_nat i /\ k_start c <> 0.

(** Entry [i] of [emptyBlocks]: 0, or such a block. *)
Definition empty_ok (l : list buf) (i : nat) (b : Z) : Prop :=
  (b = 0 -> forall c, c ∈ l -> ~ free_pow i c) /\ (b <> 0 -> exists c, c ∈ l /\ free_pow i c /\ k_start c = b).

Definition empties_ok (l : list buf) (e : list Z) : Prop := length e = 32%nat /\ forall i b, e !! i = Some b -> empty_ok l i b.

Lemma empty_ok_more l c i b : empty_ok l i b -> (b = 0 -> ~ free_pow i c) -> empty_ok (l ++ [c]) i b.
Proof.
  intros [H1 H2] Hc. split.
  - intros Hb x [Hx|Hx]%elem_of_app; [by apply H1|]. apply list_elem_of_singleton in Hx as ->. auto.
  - intros Hb. destruct (H2 Hb) as (x & Hx & Hp). exists x. set_solver.
Qed.

Lemma empties_nil : empties_ok [] (replicate 32 0).
Proof. split; [done|]. intros i b Hb. apply lookup_replicate in Hb as [-> _]. split; [|done]. intros _ c Hc. by apply elem_of_nil in Hc. Qed.

Lemma addEmptyBlock_spec h e : length e = 32%nat -> forall n k, (k + n = 32)%nat ->
  addEmptyBlock h (seq k n) e = e /\ (forall i, (k <= i < 32)%nat -> h_length h = 2 ^ Z.of_nat i -> exists b, e !! i = Some b /\ b <> 0) \/
  exists i, (k <= i < 32)%nat /\ h_length h = 2 ^ Z.of_nat i /\ e !! i = Some 0 /\ addEmptyBlock h (seq k n) e = <[i := h_start h]> e.
Proof.
  intros Hl. induction n as [|n IH]; intros k Hk; [left; split; [done|lia]|]. cbn [seq addEmptyBlock].
  destruct (lookup_lt_is_Some_2 e k) as [b Hb]; [lia|]. assert (En : nth k e 0 = b) by (rewrite nth_lookup, Hb; done). rewrite En.
  destruct (Z.eqb_spec (h_length h) (2 ^ Z.of_nat k)) as [El|El]; cbn [andb].
  - destruct (Z.eqb_spec b APA_TYPE_FREE) as [->|Hne].
    + right. exists k. split_and!; [lia|lia|done..].
    + destruct (IH (S k) ltac:(lia)) as [[E1 E2]|(i & Hi & Hli & _)].
      * left. split; [done|]. intros i Hi Hli. destruct (decide (i = k)) as [->|]; [by exists b|]. apply E2; [lia|done].
      * exfalso. rewrite El in Hli. apply Z.pow_inj_r in Hli; lia.
  - destruct (IH (S k) ltac:(lia)) as [[E1 E2]|(i & Hi & Hli & He & E)].
    + left. split; [done|]. intros i Hi Hli. destruct (decide (i = k)) as [->|]; [done|]. apply E2; [lia|done].
    + right. exists i. split_and!; [lia|lia|done..].
Qed.

Lemma empties_add l e h : empties_ok l e -> empties_ok (l ++ [content h]) (apaAddEmptyBlock h e).
Proof.
  intros [Hl He]. unfold apaAddEmptyBlock. destruct (Z.eqb_spec (h_type h) APA_TYPE_FREE) as [Ef|Ef].
  - destruct (addEmptyBlock_spec h e Hl 32 0 eq_refl) as [[E1 E2]|(i & Hi & Hli & He0 & E)].
    + rewrite E1. split; [done|]. intros i b Hb. apply empty_ok_more; [auto|]. intros Hb0 (_ & Hlen & _).
      rewrite k_length_content in Hlen. destruct (E2 i) as (b' & Hb' & Hne); [apply lookup_lt_Some in Hb; lia|done|]. congruence.
    + rewrite E. split; [by rewrite length_insert|]. intros j b Hj. destruct (decide (j = i)) as [->|Hne].
      * rewrite list_lookup_insert_eq in Hj by lia. injection Hj as <-. destruct (decide (h_start h = 0)) as [Es|Es].
        -- rewrite Es. apply empty_ok_more; [auto|]. intros _ (_ & _ & Hs). by rewrite k_start_content in Hs.
        -- split; [done|]. intros _. exists (content h). rewrite k_start_content. split; [set_solver|]. split; [|done].
           unfold free_pow. by rewrite k_type_content, k_length_content, k_start_content.
      * rewrite list_lookup_insert_ne in Hj by done. apply empty_ok_more; [auto|]. intros _ (_ & Hlen & _).
        rewrite k_length_content, Hli in Hlen. apply Z.pow_inj_r in Hlen; lia.
  - split; [done|]. intros i b Hb. apply empty_ok_more; [auto|]. intros _ [Ht _]. by rewrite k_type_content in Ht.
Qed.

(** The block chosen is the smallest that the size fits in. *)
Lemma usableBlock_spec size e : forall i, match usableBlock i size e with
  | Some b => exists j, e !! j = Some b /\ b <> 0 /\ size <= 2 ^ Z.of_nat (i + j) /\
      forall j' b', (j' < j)%nat -> e !! j' = Some b' -> size <= 2 ^ Z.of_nat (i + j') -> b' = 0
  | None => forall j b, e !! j = Some b -> size <= 2 ^ Z.of_nat (i + j) -> b = 0
  end.
Proof.
  induction e as [|b e IH]; intros i; [done|]. cbn [usableBlock].
  destruct (Z.leb_spec size (2 ^ Z.of_nat i)) as [Hs|Hs]; [destruct (Z.eqb_spec b 0) as [->|Hb]|]; cbn [andb negb].
  - specialize (IH (S i)). destruct (usableBlock (S i) size e) as [b|].
    + destruct IH as (j & Hj & Hb & Hle & Hmin). exists (S j). split_and!; [done|done|by rewrite Nat.add_succ_r|].
      intros [|j'] b' Hlt Hb'; [by injection Hb'|]. rewrite Nat.add_succ_r. apply Hmin; [lia|done].
    + intros [|j] b' Hb'; [by injection Hb'|]. rewrite Nat.add_succ_r. by apply IH.
  - exists 0%nat. rewrite Nat.add_0_r. split_and!; [done..|]. lia.
  - specialize (IH (S i)). destruct (usableBlock (S i) size e) as [b'|].
    + destruct IH as (j & Hj & Hb & Hle & Hmin). exists (S j). split_and!; [done|done|by rewrite Nat.add_succ_r|].
      intros [|j'] b1 Hlt Hb1 Hle1; [rewrite Nat.add_0_r in Hle1; lia|]. rewrite Nat.add_succ_r in Hle1. eapply Hmin; [|done..]. lia.
    + intros [|j] b' Hb' Hle; [rewrite Nat.add_0_r in Hle; lia|]. rewrite Nat.add_succ_r in Hle. by eapply IH.
Qed.

Section Open.
Context (dv : Z) (K : gset Z) (d0 : diskmap).
Notation tab := (tab dv K d0).

(** ** The walk of apaOpen *)

Lemma wp_openWalk V U w l z id fuel Q : tab V ∅ ∅ U w -> chain V l z -> Z.of_nat (length U) < cacheSize w -> (length l < fuel)%nat ->
  match List.find (main_named id) l with
  | Some c => forall i e w', tab V ∅ ∅ ((i, k_start c) :: U) w' -> kept w w' -> Q (Some i, 0, e, k_start c) w'
  | None => forall e w', empties_ok l e -> tab V ∅ ∅ U w' -> kept w w' -> Q (None, 0, e, last_start 0 l) w'
  end -> wp (apaOpenWalk fuel dv id) w Q.
Proof.
  intros T HC HU Hf HQ. destruct l as [|c0 l]; [by destruct HC|]. pose proof HC as (_ & (E0 & _) & [(h0 & V0 & _) _]).
  unfold apaOpenWalk. apply wp_bind. rewrite E0 in V0. eapply wp_get; [exact T|exact V0|done|]. intros i w1 T1 K1. rewrite <- E0 in T1.
  cbv beta iota. match goal with |- wp (while_ _ ?B _) _ _ => set (body := B) end.
  assert (HL : forall n post pre c i w1 e s, chain V (pre ++ c :: post) z -> tab V ∅ ∅ ((i, k_start c) :: U) w1 -> kept w w1 -> (S (length post) < n)%nat ->
    empties_ok pre e ->
    match List.find (main_named id) (c :: post) with
    | Some c => forall i e w', tab V ∅ ∅ ((i, k_start c) :: U) w' -> kept w w' -> Q (Some i, 0, e, k_start c) w'
    | None => forall e w', empties_ok (pre ++ c :: post) e -> tab V ∅ ∅ U w' -> kept w w' -> Q (None, 0, e, last_start 0 (pre ++ c :: post)) w'
    end -> wp (while_ n body (Some i, 0, e, s)) w1 Q).
  { clear - HU. induction n as [|n IH]; intros post pre c i w1 e s HC T K1 Hf HE HQ; [lia|].
    destruct (chain_lookup _ _ _ c HC ltac:(apply elem_of_app; right; left)) as (h & Vh & Ch). cbn [List.find] in HQ.
    destruct (tab_entry _ _ _ _ _ _ _ _ _ _ T ltac:(left)) as (_ & x & Hx & Ed & Es & EV & _). rewrite Vh in EV. injection EV as EV.
    apply wp_bind. unfold body at 1. apply wp_bind. eapply wp_Done; [by apply cget_Done|]. cbv beta zeta. rewrite <- EV, Es.
    rewrite <- (k_flags_content h), <- (k_id_content h), Ch. fold (main_named id c).
    destruct (main_named id c) eqn:EM; [apply wp_ret, wp_ret; by apply HQ|].
    pose proof (empties_add _ _ h HE) as HE'. rewrite Ch in HE'.
    apply wp_bind. eapply wp_getNextHeader; [exact T|exact HC|destruct K1 as (-> & _); lia|]. simpl in Hf. destruct post as [|c' post].
    - intros w2 T2 K2. apply wp_ret. destruct n as [|n]; [lia|]. apply wp_bind. unfold body. apply wp_ret, wp_ret.
      rewrite last_start_app in HQ. apply HQ; [done|done|kept_tac].
    - intros p' w2 T2 K2. apply wp_ret. apply (IH post (pre ++ [c]) c'); [rewrite <- app_assoc; exact HC|exact T2|kept_tac|simpl in Hf; lia|exact HE'|rewrite <- app_assoc; exact HQ]. }
  apply (HL fuel l [] c0 i w1); [exact HC|exact T1|exact K1|exact Hf|apply empties_nil|exact HQ].
Qed.

(** ** Sectors cleared through a buffer of the cache *)

Lemma hdr_events_elsewhere s h d k : 2 <= s mod unit_size <= unit_size - 2 ->
  k.1 <> dv \/ k.2 mod unit_size = 0 \/ k.2 mod unit_size = 1 -> replay d (hdr_events dv s h) !! k = d !! k.
Proof.
  intros Hs Hk. rewrite replay_lookup, last_write_hdr; [done|]. intros [E1 E2]. destruct Hk as [|Hk]; [done|].
  assert (k.2 = s \/ k.2 = s + 1) as [E|E] by lia; rewrite E in Hk; [lia|].
  rewrite Zplus_mod in Hk. change (1 mod unit_size) with 1 in Hk. rewrite Z.mod_small in Hk by lia. lia.
Qed.

Lemma wp_scratch {B} V U w a b (k : M world B) Q : tab V ∅ ∅ U w -> Z.of_nat (length U) < cacheSize w ->
  addressable (ata w) dv a 2 -> addressable (ata w) dv b 2 ->
  2 <= a mod unit_size <= unit_size - 2 -> 2 <= b mod unit_size <= unit_size - 2 ->
  (forall w', settled dv V U w' -> disk (ata w') = replay (replay (disk (ata w)) (hdr_events dv a blank_header)) (hdr_events dv b blank_header) ->
    kept w w' -> wp k w' Q) ->
  wp (clink2 <- apaCacheAlloc ;; p2 <- deref clink2 ;; hmod p2 (fun _ => blank_header) ;;;
      cache_io dv p2 a 2 ATA_DIR_WRITE ;;; cache_io dv p2 b 2 ATA_DIR_WRITE ;;; apaCacheFree clink2 ;;; k) w Q.
Proof.
  intros T HU Ha Hb Ma Mb HQ. destruct (t_cache _ _ _ _ _ _ _ _ T) as [l I].
  pose proof (tab_free_buffer _ _ _ _ _ _ _ _ _ T I HU) as Hl. destruct l as [|i l]; [done|].
  destruct (ring_members _ _ i (proj1 (proj2 I))) as [Hi0 [c Hc]]; [left|].
  destruct (apaCacheAlloc_data w i l c I Hc) as (cs1 & E1 & I1 & S1).
  apply wp_bind. eapply wp_Done; [exact E1|]. apply wp_bind, wp_ret.
  assert (Hc1 : exists c1, cs1 !! i = Some c1 /\ strip c1 = strip (blank_entry c)).
  { apply (f_equal (lookup i)) in S1. rewrite !list_lookup_fmap, list_lookup_insert_eq in S1 by (by eapply lookup_lt_Some).
    destruct (cs1 !! i) as [c1|]; [|done]. exists c1. split; [done|]. by apply (inj Some). }
  destruct Hc1 as (c1 & Hc1 & Ec1). set (y := upd_header blank_header c1).
  apply wp_bind. eapply wp_Done; [by apply (cmod_Done _ i c1)|]. fold y. set (w2 := with_cache _ _).
  assert (Hc2 : cacheBuf w2 !! i = Some y) by (apply list_lookup_insert_eq; by eapply lookup_lt_Some).
  assert (I2 : cache_inv w2 l) by (by eapply (inv_header (with_cache cs1 w) l i c1 y)).
  destruct (cache_io_write w2 dv i y a (t_drive _ _ _ _ _ _ _ _ T) Ha Hc2 eq_refl) as (st1 & Ea & La).
  apply wp_bind. eapply wp_Done; [exact Ea|].
  assert (D1 : drive_ok st1) by (eapply logs_drive_ok; [exact La|apply T|by apply hdr_events_ok]).
  destruct (cache_io_write (with_ata st1 w2) dv i y b D1) as (st2 & Eb & Lb); [|exact Hc2|done|].
  { destruct La as (_ & _ & _ & El). unfold addressable in *. simpl. rewrite El. exact Hb. }
  apply wp_bind. eapply wp_Done; [exact Eb|].
  destruct (apaCacheFree_last (with_ata st2 (with_ata st1 w2)) l i y I2 Hi0 Hc2) as (cs3 & Ef & I3 & S3).
  { injection Ec1. unfold y. simpl. by intros _ _ _ -> _. }
  apply wp_bind. eapply wp_Done; [exact Ef|].
  pose proof Lb as Lb'. destruct La as (_ & Da & Fa & La), Lb as (_ & Db & Fb & Lb). 
  change (disk st1 = replay (disk (ata w)) (hdr_events dv a blank_header)) in Da. change (lba48 st1 = lba48 (ata w)) in La.
  change (disk st2 = replay (disk st1) (hdr_events dv b blank_header)) in Db. change (lba48 st2 = lba48 st1) in Lb.
  apply HQ; [|change (disk st2 = replay (replay (disk (ata w)) (hdr_events dv a blank_header)) (hdr_events dv b blank_header)); by rewrite Db, Da|].
  - destruct T as [T1 T2 T3 T4 T5 T6 T7]. split; try done.
    + by exists (l ++ [i]).
    + simpl. by apply (logs_drive_ok _ _ _ Lb' D1), hdr_events_ok.
    + simpl cacheBuf. simpl ata. rewrite S3. simpl cacheBuf. rewrite strip_insert, (strip_insert cs1), S1, strip_insert, !list_insert_insert_eq.
      assert (Hs : (strip <$> cacheBuf w) !! i = Some (strip c)) by (by rewrite list_lookup_fmap, Hc).
      assert (T8 : tabs dv K d0 V ∅ ∅ U (ata w) (<[i := strip (upd_nused 0 y)]> (strip <$> cacheBuf w))).
      { eapply tabs_unmap; [exact T7|done|exact Hs|..]; simpl.
        - apply (bi_free _ _ (proj2 (proj2 I)) i c Hi0 Hc). left.
        - done.
        - injection Ec1 as _ _ -> _ _. change (s32 (-1)) with (-1). lia.
        - unfold dirty. simpl. injection Ec1 as -> _ _ _ _. done. }
      eapply tabs_media; [exact T8|by rewrite Lb, La|]. intros k0 Hk. rewrite Db, Da. by rewrite !hdr_events_elsewhere.
  - split_and!; [done|done|]. simpl. by rewrite Lb, La.
Qed.
End Open.

(** ** Placing a partition *)

(** Every place a header can have. *)
Definition units : gset Z := list_to_set ((fun i => unit_size * Z.of_nat i) <$> seq 0 (Z.to_nat 0x4000)).

Lemma elem_units s : 0 <= s < 2 ^ 32 -> s mod unit_size = 0 -> s ∈ units.
Proof.
  intros Hs [q ->]%Z.mod_divide; [|done]. unfold units. apply elem_of_list_to_set, list_elem_of_fmap. exists (Z.to_nat q). unfold unit_size in *.
  split; [lia|]. apply elem_of_seq. lia.
Qed.

Lemma unit_of s : s ∈ units -> exists i, s = unit_size * Z.of_nat i.
Proof. unfold units. intros Hs. apply elem_of_list_to_set, list_elem_of_fmap in Hs as (i & -> & _). eauto. Qed.

(** No free block of a ring takes [size] sectors; [i] is the size of the smallest that does. *)
Definition none_fits (l : list buf) (size : Z) : Prop := forall j c, (j < 32)%nat -> c ∈ l -> free_pow j c -> 2 ^ Z.of_nat j < size.
Definition smallest (l : list buf) (size : Z) (i : nat) : Prop :=
  (i < 32)%nat /\ size <= 2 ^ Z.of_nat i /\ forall j c, (j < i)%nat -> c ∈ l -> free_pow j c -> 2 ^ Z.of_nat j < size.

(** Ring [l], which ends at [z], after partition [c] of [size] sectors was placed. *)
Inductive placed (l : list buf) (z size : Z) (c : buf) : list buf -> Z -> Prop :=
  | placed_in i k pre b post fs : smallest l size i -> l = pre ++ b :: post -> free_pow i b -> k_length b = size * 2 ^ Z.of_nat k ->
      k_start c = k_start b -> Forall2 free_block (buddies (k_start b) size k) fs ->
      placed l z size c (pre ++ c :: fs ++ post) z
  | placed_after fs : none_fits l size -> Forall free_aligned fs -> k_start c = round_up z size ->
      placed l z size c ((l ++ fs) ++ [c]) (round_up z size + size).

Section Place.
Context (dv : Z) (d0 : diskmap).
Notation tab := (tab dv units d0).

Lemma view_unit V P D U w s h : tab V P D U w -> V !! s = Some h -> s ∈ units.
Proof.
  intros T HV. destruct (t_place _ _ _ _ _ _ _ _ _ (t_tabs _ _ _ _ _ _ _ _ T) _ _ HV) as [(Ha & Hs & _) _].
  apply elem_units; [|done]. unfold addressable in Ha. lia.
Qed.

Lemma first_start_view V l z pre b post : chain V l z -> l = pre ++ b :: post -> pre <> [] -> exists h, V !! first_start post 0 = Some h.
Proof. intros HC -> Hpre. destruct (chain_next _ _ _ _ _ HC Hpre) as (c & Hc & <- & _). destruct (chain_lookup _ _ _ _ HC Hc) as (h & Hh & _). eauto. Qed.

(** Both ways of [hddAddPartitionHere], or no room. *)
Lemma wp_addPartitionHere V U w l z k params fuel e d Q :
  tab V ∅ ∅ U w -> chain V l z -> (2 <= length l)%nat -> empties_ok l e ->
  p_size params = part_size k -> (k <= 13)%nat -> (32 < fuel)%nat -> names_ok params -> Z.of_nat (length U) + 3 <= cacheSize w ->
  hddDevices w !! Z.to_nat dv = Some d -> z mod unit_size = 0 -> addressable (ata w) dv 0 (d_totalLBA d) -> z <= d_totalLBA d ->
  z + 2 * part_size k <= 2 ^ 32 ->
  (none_fits l (part_size k) -> d_totalLBA d < round_up z (part_size k) + part_size k -> forall w', tab V ∅ ∅ U w' -> kept w w' -> Q (None, - ENOSPC) w') ->
  (forall i V' h l' z' w', tab V' ∅ ∅ ((i, h_start h) :: U) w' -> chain V' l' z' -> placed l z (part_size k) (content h) l' z' ->
    (exists nx pv, new_header params (h_start h) nx pv (part_size k) h) -> V' !! h_start h = Some (sealed h) ->
    h_start h + part_size k <= d_totalLBA d -> kept w w' -> Q (Some i, 0) w') ->
  wp (hddAddPartitionHere fuel dv params e (last_start 0 l)) w Q.
Proof.
  intros T HC Hl2 [Le He] Hsz Hk Hf HN HU Hd Hzm Ha Hzl Hz HQ1 HQ2.
  pose proof (usableBlock_spec (part_size k) e 0) as Hub. rewrite <- (take_ge e 32) in Hub by lia.
  destruct (usableBlock 0 (part_size k) (take 32 e)) as [b|] eqn:Eu.
  - destruct Hub as (i & Hi & Hb0 & Hle & Hmin). rewrite (take_ge e 32) in Hi, Hmin by lia. simpl in Hle, Hmin.
    assert (Hi32 : (i < 32)%nat) by (apply lookup_lt_Some in Hi; lia).
    destruct (proj2 (He i b Hi) Hb0) as (c & Hc & Hfp & <-). apply list_elem_of_split in Hc as (pre & post & ->).
    assert (Hpre : pre <> []) by (intros ->; destruct HC as (_ & (E & _) & _); done).
    pose proof Hfp as (_ & Hlc & _).
    assert (Hik : exists k', 2 ^ Z.of_nat i = part_size k * 2 ^ Z.of_nat k' /\ (k' < 32)%nat).
    { exists (i - 18 - k)%nat. split; [|lia]. unfold part_size in Hle |- *. change 0x40000 with (2 ^ 18) in *.
      rewrite <- Z.pow_add_r in Hle |- * by lia. apply Z.pow_le_mono_r_iff in Hle; [|lia..]. rewrite <- Z.pow_add_r by lia. f_equal. lia. }
    destruct Hik as (k' & Hk' & Hk32). unfold hddAddPartitionHere. rewrite Hsz, Eu.
    pose proof (part_size_pos k) as Hpk.
    assert (Hum : part_size k mod unit_size = 0) by (apply Z.mod_divide; [done|]; apply (part_size_divide 0); lia).
    destruct (chain_block _ _ _ _ _ HC Hpre) as (Hs0 & _ & Hcz & hc & Vc & _).
    destruct (first_start_view _ _ _ _ _ _ HC eq_refl Hpre) as [hn Vn].
    destruct (t_place _ _ _ _ _ _ _ _ _ (t_tabs _ _ _ _ _ _ _ _ T) _ _ Vc) as [(_ & Hcu & _) _].
    eapply (wp_insertPartition dv units d0 V U w pre c post z k' params fuel); [exact T|exact HC|exact Hpre| |rewrite Hsz; lia|by rewrite Hsz|rewrite Hsz; lia|lia|exact HU|exact HN|rewrite Hsz|rewrite Hsz].
    + destruct Ha as (A1 & A2 & A3 & A4 & A5). unfold addressable. split_and!; try lia. destruct A5; [by left|right; lia].
    + unfold insert_places. intros s [Hs|Hs]%elem_of_union.
      * apply elem_of_union in Hs as [->%elem_of_singleton| ->%elem_of_singleton]; by eapply view_unit.
      * apply elem_of_list_to_set, list_elem_of_fmap in Hs as ([s' n] & -> & Hin).
        apply list_elem_of_In, in_map_iff in Hin as (j & [= <- <-] & Hj%in_seq).
        assert (Hj' : 2 ^ Z.of_nat j < 2 ^ Z.of_nat k') by (apply Z.pow_lt_mono_r; lia).
        assert (0 < 2 ^ Z.of_nat j) by (apply Z.pow_pos_nonneg; lia).
        cbn [fst]. apply elem_units.
        -- split; [nia|]. assert (part_size k * 2 ^ Z.of_nat j < k_length c) by nia. unfold addressable in Ha. lia.
        -- rewrite Zplus_mod, Hcu, Zmult_mod, Hum. done.
    + intros i' V' h fs w' T' HC' (nx & pv & HNH) HV' HF Kw. pose proof (bh_start _ _ _ _ _ _ (nh_block _ _ _ _ _ _ HNH)) as Es.
      rewrite <- Es in T', HV', HNH. eapply HQ2; [exact T'|exact HC'| |by exists nx, pv|exact HV'| |exact Kw]; [|assert (1 <= 2 ^ Z.of_nat k') by (pose proof (Z.pow_pos_nonneg 2 (Z.of_nat k')); lia); nia].
      eapply (placed_in _ _ _ _ i k' pre c post fs); try done; [|lia|by rewrite k_start_content].
      split_and!; [done|done|]. intros j x Hj Hx Hfx. destruct (Z.lt_ge_cases (2 ^ Z.of_nat j) (part_size k)) as [|Hge]; [done|]. exfalso.
      destruct (lookup_lt_is_Some_2 e j) as [b' Hb']; [lia|]. by apply (proj1 (He j b' Hb') (Hmin j b' Hj Hb' Hge) x).
  - rewrite (take_ge e 32) in Hub by lia. simpl in Hub.
    assert (HNF : none_fits l (part_size k)).
    { intros j x Hj Hx Hfx. destruct (Z.lt_ge_cases (2 ^ Z.of_nat j) (part_size k)) as [|Hge]; [done|]. exfalso.
      destruct (lookup_lt_is_Some_2 e j) as [b' Hb']; [lia|]. by apply (proj1 (He j b' Hb') (Hub j b' Hb' Hge) x). }
    destruct l as [|x l0 _] using rev_ind; [simpl in Hl2; lia|]. rewrite length_app in Hl2. simpl in Hl2.
    assert (Hpre : l0 <> []) by (intros ->; simpl in Hl2; lia).
    destruct (chain_lookup _ _ _ x HC ltac:(apply elem_of_app; right; left)) as (hx & Vx & _).
    destruct (chain_mbr _ _ _ _ HC Hpre) as [hm Vm]. pose proof (round_up_bounds z _ (part_size_pos k)) as Hr.
    pose proof HC as (_ & HA & _). apply area_le in HA.
    rewrite last_start_app. change (last_start (last_start 0 l0) [x]) with (k_start x).
    eapply (wp_appendPartition dv units d0 V U w l0 x z k params fuel e d); [exact T|exact HC|exact Hpre|by rewrite Hsz|exact Hsz|exact Hk|lia|exact HN|exact HU|exact Hd|exact Hzm|exact Ha|exact Hzl|exact Hz|..].
    + by eapply view_unit.
    + by eapply view_unit.
    + intros s Hs. apply elem_units. unfold addressable in Ha. lia.
    + destruct (Z.ltb_spec (d_totalLBA d) (round_up z (part_size k) + part_size k)) as [Hno|Hroom]; [auto|].
      intros i V' fs h w' T' HC' HF (pv & HNH) HV' Kw. pose proof (bh_start _ _ _ _ _ _ (nh_block _ _ _ _ _ _ HNH)) as Es.
      rewrite <- Es in T', HV', HNH. eapply HQ2; [exact T'|exact HC'| |by exists 0, pv|exact HV'|lia|exact Kw].
      assert (Ea : l0 ++ x :: fs = (l0 ++ [x]) ++ fs) by (by rewrite <- app_assoc). rewrite Ea. apply placed_after; [done|done|by rewrite k_start_content].
Qed.
End Place.
