(* ===== verification/PartProps.v ===== *)
(** * PartProps: the ring of partitions, as the driver's users see it

    [apaOpen] on an intact ring finds the partition, creates it or refuses, as
    the abstract [opened] says, and the media has the new ring; looking a
    partition up ends at it. *)

From stdpp Require Import base numbers list gmap sets.
From Stdlib Require Import ZArith Lia.
From S2P Require Import Prelude Ata Password ApaState ApaCache ApaFacts ApaRing ApaInv Crash ApaCrash Scenario ApaPart ApaTable ApaTableOps ApaChain ApaSplit ApaInsert ApaWalk Hdd HddFio HddScenario SizeProps ApaAppend ApaCreate.

Open Scope Z_scope.
Open Scope c_scope.

(** ** What opening a partition promises *)

(** The access the passwords give. *)
Definition open_result (params : apa_params_t) (mode : Z) (h : buf) : Z :=
  if nz (apaPassCmp (h_fpwd h) (p_fpwd params)) then
    if negb (nz (Z.land mode O_WRONLY)) then apaPassCmp (h_rpwd h) (p_rpwd params) else - EACCES
  else 0.

(** The file slot of an open partition. *)
Definition slot_of (h : buf) (s : hdd_file_slot_t) : hdd_file_slot_t :=
  mkSlot (s_f s) (s_post s) (u16 (h_nsub h)) (h_type h) (h_id h) ((h_start h, h_length h) :: h_subs h).

(** What opening [params] does to ring [l] up to [z] of a drive of [lim]
    sectors: result, header opened, ring after. *)
Inductive opened (params : apa_params_t) (mode max lim : Z) (l : list buf) (z : Z) : Z -> option buf -> list buf -> Z -> Prop :=
  | opened_found h : List.find (main_named (p_id params)) l = Some (content h) ->
      opened params mode max lim l z (open_result params mode h) (Some h) l z
  | opened_absent : List.find (main_named (p_id params)) l = None -> nz (Z.land mode O_CREAT) = false ->
      opened params mode max lim l z (- ENOENT) None l z
  | opened_big : List.find (main_named (p_id params)) l = None -> nz (Z.land mode O_CREAT) = true -> max < p_size params ->
      opened params mode max lim l z (- EINVAL) None l z
  | opened_full : List.find (main_named (p_id params)) l = None -> nz (Z.land mode O_CREAT) = true -> p_size params <= max ->
      none_fits l (p_size params) -> lim < round_up z (p_size params) + p_size params ->
      opened params mode max lim l z (- ENOSPC) None l z
  | opened_new h nx pv l' z' : List.find (main_named (p_id params)) l = None -> nz (Z.land mode O_CREAT) = true -> p_size params <= max ->
      placed l z (p_size params) (content h) l' z' -> new_header params (h_start h) nx pv (p_size params) h ->
      opened params mode max lim l z (open_result params mode h) (Some h) l' z'.

(** The sectors [apaOpen] clears in a new partition. *)
Definition cleared (h : buf) (s : Z) : Prop :=
  s = h_start h + 8 \/ s = h_start h + 9 \/ s = h_start h + 0x2000 \/ s = h_start h + 0x2001.

(** Outside the journal, the places of headers and the sectors cleared the media is the same. *)
Definition data_kept (dv : Z) (oh : option buf) (d d' : diskmap) : Prop :=
  forall k, ~ in_journal dv k -> k.1 <> dv \/ 2 <= k.2 mod unit_size -> (forall h, oh = Some h -> ~ (k.1 = dv /\ cleared h k.2)) -> d' !! k = d !! k.

Lemma rest_data dv d d' : rest_same dv units d d' -> data_kept dv None d d'.
Proof.
  intros H k Hj Hk _. apply H; [done|]. intros s Hs. apply unit_of in Hs as (i & ->).
  split; intros ->; (destruct Hk as [|Hk]; [done|]); cbn [snd] in Hk.
  - rewrite Z.mul_comm, Z.mod_mul in Hk by done. lia.
  - rewrite Z.add_comm, Z.mul_comm, Z.mod_add in Hk by done. vm_compute in Hk. by apply Hk.
Qed.

Lemma sealed_fields h i : i <> 0%nat -> get32 (sealed h) i = get32 h i.
Proof. intros Hi. unfold sealed, set_checksum. by apply get32_set32_ne. Qed.

Lemma new_header_sealed params s n p l h : new_header params s n p l h -> new_header params s n p l (sealed h).
Proof.
  intros H. eapply new_header_same; [exact H| |].
  - rewrite length_sealed. apply H.
  - intros i Hi. apply sealed_fields. lia.
Qed.

(** The state after [apaOpen]. *)
Definition open_post (dv : Z) (params : apa_params_t) (mode : Z) (d : apa_device_t) (i : nat) (s : hdd_file_slot_t)
    (U : list (nat * Z)) (l : list buf) (z : Z) (w : world) (r : Z) (w' : world) : Prop :=
  exists oh V' l' z',
    opened params mode (d_partitionMaxSize d) (d_totalLBA d) l z r oh l' z' /\ settled dv V' U w' /\ chain V' l' z' /\
    hddFileSlots w' = match oh with Some h => <[i := slot_of h s]> (hddFileSlots w) | None => hddFileSlots w end /\
    (forall h, oh = Some h -> V' !! h_start h = Some h) /\ data_kept dv oh (disk (ata w)) (disk (ata w')).

Section OpenSpec.
Context (dv : Z).

(** The end of [apaOpen]: the slot is filled, the header released. *)
Lemma wp_openEnd K d0 V U w p h s i params mode Q : tab dv K d0 V ∅ ∅ ((p, h_start h) :: U) w -> V !! h_start h = Some h ->
  hddFileSlots w !! i = Some s ->
  (forall w', tab dv K d0 V ∅ ∅ U w' -> hddFileSlots w' = <[i := slot_of h s]> (hddFileSlots w) -> Q (open_result params mode h) w') ->
  wp (h <- header p ;;
      smod i (fun s => mkSlot (s_f s) (s_post s) (u16 (h_nsub h)) (h_type h) (h_id h) ((h_start h, h_length h) :: h_subs h)) ;;;
      apaCacheFree (Some p) ;;;
      h <- header p ;;
      if nz (apaPassCmp (h_fpwd h) (p_fpwd params)) then
        if negb (nz (Z.land mode O_WRONLY)) then ret (apaPassCmp (h_rpwd h) (p_rpwd params)) else ret (- EACCES)
      else ret 0) w Q.
Proof.
  intros T HV Hs HQ. apply wp_bind. eapply wp_header; [exact T|left|exact HV|].
  apply wp_bind. eapply wp_Done; [unfold smod; by rewrite Hs|].
  set (w1 := with_slots _ w). assert (T1 : tab dv K d0 V ∅ ∅ ((p, h_start h) :: U) w1) by (destruct T; by split).
  apply wp_bind. eapply (wp_free_header _ _ _ _ _ _ _ [] U w1 p); [exact T1|done|exact HV|apply in_none|].
  intros w2 T2 (_ & [= _ E] & _) (x & Ex & _ & Eh). apply wp_bind. unfold header. apply wp_bind. eapply wp_Done; [exact Ex|]. apply wp_ret. rewrite Eh.
  specialize (HQ w2 T2 E). unfold open_result in HQ. destruct (nz _); [destruct (negb _)|]; by apply wp_ret.
Qed.

Lemma open_none params mode d i s V U l z w r w' : chain V l z ->
  opened params mode (d_partitionMaxSize d) (d_totalLBA d) l z r None l z -> tab dv units (disk (ata w)) V ∅ ∅ U w' -> kept w w' ->
  open_post dv params mode d i s U l z w r w'.
Proof.
  intros HC HO T' (_ & [= _ E] & _). apply tab_settled in T' as [T' HR]. exists None, V, l, z. split_and!; try done. by apply rest_data.
Qed.

(** A new partition: two areas at its start are cleared. *)
Lemma wp_clearNew K d0 V U w p h z Q : tab dv K d0 V ∅ ∅ ((p, h_start h) :: U) w -> V !! h_start h = Some (sealed h) ->
  Z.of_nat (length U) + 2 <= cacheSize w -> addressable (ata w) dv 0 z -> h_start h + 0x2002 <= z ->
  (forall w', settled dv V ((p, h_start h) :: U) w' -> data_kept dv (Some (sealed h)) (disk (ata w)) (disk (ata w')) -> kept w w' -> Q (Some p, 0) w') ->
  wp (h <- header p ;;
      clink2 <- apaCacheAlloc ;;
      p2 <- deref clink2 ;;
      hmod p2 (fun _ => blank_header) ;;;
      cache_io dv p2 (u32 (h_start h + 8)) 2 ATA_DIR_WRITE ;;;
      cache_io dv p2 (u32 (h_start h + 0x2000)) 2 ATA_DIR_WRITE ;;;
      apaCacheFree clink2 ;;;
      ret (Some p, 0)) w Q.
Proof.
  intros T HV HU Ha Hz HQ.
  destruct (t_place _ _ _ _ _ _ _ _ _ (t_tabs _ _ _ _ _ _ _ _ T) _ _ HV) as [(Hp1 & Hp2 & _) _].
  assert (Hs8 : 0 <= h_start h /\ z <= 2 ^ 32) by (unfold addressable in Hp1, Ha; lia).
  assert (HA : forall x, 0 <= x <= 0x2000 -> addressable (ata w) dv (h_start h + x) 2).
  { intros x Hx. destruct Ha as (A1 & A2 & A3 & A4 & A5). unfold addressable. split_and!; try lia. destruct A5; [by left|right; lia]. }
  assert (HM : forall x, 0 <= x < unit_size -> (h_start h + x) mod unit_size = x).
  { intros x Hx. rewrite Zplus_mod, Hp2, Z.add_0_l, Z.mod_mod by done. by apply Z.mod_small. }
  apply wp_bind. eapply wp_header; [exact T|left|exact HV|].
  assert (Esh : h_start (sealed h) = h_start h) by (by apply sealed_fields).
  rewrite Esh, (u32_small (h_start h + 8)), (u32_small (h_start h + 0x2000)) by (unfold is_u32; lia).
  eapply wp_scratch; [exact T|simpl length; lia|apply HA; lia|apply HA; lia|rewrite HM by (unfold unit_size; lia); unfold unit_size; lia..|].
  intros w3 T3 Ed3 K3. apply wp_ret. apply HQ; [done| |done]. intros k _ _ H3. rewrite Ed3.
  assert (HW : forall x h', x = 8 \/ x = 0x2000 -> last_write (hdr_events dv (h_start h + x) h') k = None).
  { intros x h' Hx. apply last_write_hdr. intros [G1 G2]. apply (H3 _ eq_refl). split; [done|]. unfold cleared. rewrite Esh. lia. }
  by rewrite !replay_lookup, !HW by auto.
Qed.

Lemma data_kept_trans oh d1 d2 d3 : data_kept dv None d1 d2 -> data_kept dv oh d2 d3 -> data_kept dv oh d1 d3.
Proof. intros H1 H2 k Hj Hk Hc. rewrite H2 by done. apply H1; [done|done|]. intros ? [=]. Qed.

Lemma data_kept_id d d' : rest_same dv ∅ d d' -> forall oh, data_kept dv oh d d'.
Proof. intros H oh k Hj _ _. apply H; [done|]. intros s Hs. by apply elem_of_empty in Hs. Qed.

Lemma wp_open V U w l z k params mode i s d fuel :
  settled dv V U w -> chain V l z -> (2 <= length l)%nat -> (length l + 32 < fuel)%nat -> Z.of_nat (length U) + 3 <= cacheSize w ->
  p_size params = part_size k -> (k <= 13)%nat -> names_ok params ->
  hddFileSlots w !! i = Some s -> hddDevices w !! Z.to_nat dv = Some d ->
  z mod unit_size = 0 -> addressable (ata w) dv 0 (d_totalLBA d) -> z <= d_totalLBA d -> z + 2 * part_size k <= 2 ^ 32 ->
  wp (apaOpen fuel dv i params mode) w (open_post dv params mode d i s U l z w).
Proof.
  intros T HC Hl2 Hf HU Hsz Hk HN Hs Hd Hzm Ha Hzl Hz. apply (settled_tab dv units) in T.
  unfold apaOpen. apply wp_bind. eapply wp_openWalk; [exact T|exact HC|lia|lia|]. destruct (List.find _ l) as [c|] eqn:EF.
  - intros p e w1 T1 K1. cbv beta iota. change (nz 0) with false. cbv iota. apply wp_bind, wp_ret. cbv beta iota.
    apply find_some in EF as HF. destruct HF as [Hin _].
    destruct (chain_lookup _ _ _ _ HC ltac:(by apply list_elem_of_In)) as (h & Vh & Ch).
    assert (Es : k_start c = h_start h) by (by rewrite <- Ch, k_start_content). rewrite Es in *.
    destruct K1 as (_ & [= _ E1] & _).
    eapply wp_openEnd; [exact T1|exact Vh|by rewrite E1|]. intros w2 T2 E2. apply tab_settled in T2 as [T2 HR].
    exists (Some h), V, l, z. split_and!; [|done|done|by rewrite E2, E1|by intros ? [= <-]|].
    + apply opened_found. by rewrite Ch.
    + intros kk H1 H2 _. apply (rest_data dv _ _ HR kk H1 H2). intros ? [=].
  - intros e w1 HE T1 K1. cbv beta iota. change (nz 0) with false. cbv iota.
    destruct (nz (Z.land mode O_CREAT)) eqn:EC; [|apply wp_bind, wp_ret, wp_ret; eapply open_none; [exact HC|by apply opened_absent|done|done]].
    pose proof (t_dev _ _ _ _ _ _ _ _ T) as Hdv. destruct K1 as (E1 & E2 & E3). injection E2 as E2 E4.
    apply wp_bind, wp_bind. unfold hddCheckPartitionMax. apply wp_bind.
    eapply wp_Done; [unfold hddDevice; rewrite (proj2 (Z.ltb_ge dv 0)) by lia; rewrite E2, Hd; done|]. apply wp_ret.
    destruct (Z.leb_spec (p_size params) (d_partitionMaxSize d)) as [Hmax|Hmax].
    2:{ change (0 <=? - EINVAL) with false. cbv iota. apply wp_ret, wp_ret. eapply open_none; [exact HC|by apply opened_big|done|]. by split_and!; congruence. }
    change (0 <=? 0) with true. cbv iota. apply wp_bind.
    assert (Kw1 : kept w w1) by (split_and!; congruence).
    eapply (wp_addPartitionHere dv (disk (ata w)) V U w1 l z k params fuel e d); [exact T1|exact HC|done|exact HE|done|done|lia|done|lia|by rewrite E2|done| |done|done|..].
    { by eapply kept_addressable. }
    { intros H1 H2 w2 T2 K2. cbv beta iota. apply wp_ret. cbv beta iota. apply wp_ret. eapply open_none; [exact HC| |done|by transitivity w1].
      rewrite <- Hsz in H1, H2. by apply opened_full. }
    intros p V2 h l' z' w2 T2 HC2 HP (nx & pv & HNH) HV2 Hroom K2. cbv beta iota. rewrite <- Hsz in HP, HNH, Hroom.
    assert (Kw2 : kept w w2) by (by transitivity w1). destruct K2 as (Ec & [= _ Esl] & El).
    assert (Esh : h_start (sealed h) = h_start h) by (by apply sealed_fields).
    eapply (wp_clearNew units (disk (ata w)) V2 U w2 p h (d_totalLBA d)); [exact T2|exact HV2|lia|by eapply kept_addressable| |].
    { pose proof (part_size_big k). rewrite Hsz in Hroom. lia. }
    intros w3 T3 HD3 (_ & [= _ Esl3] & _). rewrite <- Esh in T3, HV2.
    eapply (wp_openEnd ∅ (disk (ata w3)) V2 U w3 p (sealed h) s); [exact T3|exact HV2|congruence|].
    intros w4 T4 E5. apply tab_settled in T4 as [T4 HR4]. apply tab_settled in T2 as [_ HR2%rest_data].
    exists (Some (sealed h)), V2, l', z'. split_and!; [|done|done|congruence|by intros ? [= <-]|].
    + eapply (opened_new _ _ _ _ _ _ _ nx pv); try done; [by rewrite content_sealed|]. rewrite Esh. by apply new_header_sealed.
    + eapply data_kept_trans; [exact HR2|]. intros kk H1 H2 H3. rewrite (data_kept_id _ _ HR4 (Some (sealed h))) by done. by apply HD3.
Qed.
End OpenSpec.

(** ** A concrete drive *)

(** After the cache was set up no buffer has a header. *)
Lemma settled_fresh dv V w l : cache_inv w l -> 0 <= cacheSize w <= 126 -> 0 <= dv < 2 ^ 31 -> drive_ok (ata w) ->
  journalBuf w = empty_journal -> length (timeBuf w) = 2%nat ->
  (forall c, c ∈ tail (cacheBuf w) -> c_nused c = 0 /\ c_device c = -1 /\ c_flags c = 0) ->
  (forall s h, V !! s = Some h -> place dv (ata w) s /\ length h = 256%nat /\ readable s h /\ on_disk dv (disk (ata w)) s h) ->
  settled dv V [] w.
Proof.
  intros I Hs Hdv Hd Hj Ht Hc HV. split; [by exists l|done..|]. split.
  - intros i c Hi Hic. rewrite list_lookup_fmap in Hic. destruct (cacheBuf w !! i) as [x|] eqn:Ex; [|done]. injection Hic as <-.
    destruct (Hc x) as (E1 & E2 & E3).
    { apply (list_elem_of_lookup_2 _ (Nat.pred i)). rewrite lookup_tail. by replace (S (Nat.pred i)) with i by lia. }
    split; simpl; rewrite ?E1, ?E2; try lia; try done. unfold dirty. simpl. by rewrite E3.
  - intros ? ? Hx. by apply elem_of_nil in Hx.
  - intros s Hx. by apply (in_none s).
  - intros s h Hh. destruct (HV s h Hh) as (? & ? & _). done.
  - intros s h Hh _. by apply HV.
  - intros s h Hh. left. by apply HV.
  - done.
  - done.
Qed.

(** The headers at [starts] of a drive, and the ring they make, by computation. *)
Definition hdr_at (dv : Z) (d : diskmap) (s : Z) : buf := default [] (d !! (dv, s)) ++ default [] (d !! (dv, s + 1)).
Definition view_of (dv : Z) (d : diskmap) (starts : list Z) : gmap Z buf := list_to_map (map (fun s => (s, hdr_at dv d s)) starts).

Definition headerb (dv : Z) (st : ata_st) (s : Z) : bool :=
  let h := hdr_at dv (disk st) s in
  (0 <=? s) && (s + 2 <=? 2 ^ 32) && lba48 st dv && (s mod unit_size =? 0) && Nat.eqb (length (default [] (disk st !! (dv, s)))) 128 &&
  Nat.eqb (length (default [] (disk st !! (dv, s + 1)))) 128 && (apaCheckSum h =? h_checksum h) &&
  (h_magic h =? APA_MAGIC) && (negb (s =? 0) || strneq (h_mbr_magic h) apaMBRMagic 32).

Lemma headerb_ok dv st s (h := hdr_at dv (disk st) s) : 0 <= dv -> headerb dv st s = true ->
  place dv st s /\ length h = 256%nat /\ readable s h /\ on_disk dv (disk st) s h.
Proof.
  intros Hdv Hb. unfold headerb in Hb. cbv zeta in Hb. fold h in Hb. rewrite !andb_true_iff, !Z.leb_le, !Z.eqb_eq, !Nat.eqb_eq in Hb.
  destruct Hb as ((((((((H1 & H2) & H3) & H4) & H5) & H6) & H7) & H8) & H9).
  assert (E : disk st !! (dv, s) = Some (default [] (disk st !! (dv, s)))) by (destruct (disk st !! (dv, s)); [done|simpl in H5; lia]).
  assert (E' : disk st !! (dv, s + 1) = Some (default [] (disk st !! (dv, s + 1)))) by (destruct (disk st !! (dv, s + 1)); [done|simpl in H6; lia]).
  split_and!.
  - split_and!; [unfold addressable; split_and!; auto; lia|done|]. destruct (decide (s = 0)) as [->|Hs]; [by left|right].
    apply unit_le; [lia|done].
  - unfold h, hdr_at. rewrite length_app. lia.
  - split; [done|]. intros ->. by apply orb_prop in H9 as [|].
  - split_and!; [..|done]; unfold h, hdr_at.
    + rewrite E at 1. f_equal. by rewrite take_app_length'.
    + rewrite E' at 1. f_equal. rewrite drop_app_length' by done. by rewrite take_ge by lia.
Qed.

Lemma view_of_lookup dv d starts s h : view_of dv d starts !! s = Some h -> s ∈ starts /\ h = hdr_at dv d s.
Proof.
  intros H. apply elem_of_list_to_map_2, list_elem_of_In, in_map_iff in H as (x & [= <- <-] & Hx). split; [by apply list_elem_of_In|done].
Qed.

Fixpoint segb (V : gmap Z buf) (prev : Z) (l : list buf) (next : Z) : bool :=
  match l with
  | [] => true
  | c :: l' =>
      match V !! k_start c with
      | Some h => bool_decide (content h = c) && (h_prev h =? prev) && (h_next h =? first_start l' next)
      | None => false
      end && segb V (k_start c) l' next
  end.
Fixpoint areab (a : Z) (l : list buf) (z : Z) : bool :=
  match l with [] => a =? z | c :: l' => (k_start c =? a) && (0 <? k_length c) && areab (a + k_length c) l' z end.

Lemma segb_ok V l : forall prev next, segb V prev l next = true -> seg V prev l next.
Proof.
  induction l as [|c l IH]; intros prev next H; [done|]. simpl in H. apply andb_prop in H as [H1 H2]. split; [|by apply IH].
  unfold linked_at. destruct (V !! k_start c) as [h|]; [|done]. rewrite !andb_true_iff, bool_decide_eq_true, !Z.eqb_eq in H1. exists h. naive_solver.
Qed.
Lemma areab_ok l : forall a z, areab a l z = true -> area a l z.
Proof.
  induction l as [|c l IH]; intros a z H; simpl in H; [by apply Z.eqb_eq|]. rewrite !andb_true_iff, Z.eqb_eq, Z.ltb_lt in H.
  destruct H as ((H1 & H2) & H3). simpl. auto.
Qed.
Lemma chain_of V l z : l <> [] -> areab 0 l z = true -> segb V (last_start 0 l) l 0 = true -> chain V l z.
Proof. intros H1 H2 H3. split_and!; [done|by apply areab_ok|by apply segb_ok]. Qed.

(** The drive formatted by the driver, after a restart of the cache. *)
Definition w_restarted : world := after (apaCacheInit 5) w_formatted.
Definition starts0 : list Z := [0; 0x40000; 0x80000; 0x100000; 0x200000].
Definition V0 : gmap Z buf := view_of 0 (disk (ata w_restarted)) starts0.
Definition ring0 : list buf := map (fun s => content (hdr_at 0 (disk (ata w_restarted)) s)) starts0.

Lemma ring0_chain : chain V0 ring0 0x300000.
Proof. apply chain_of; [done|vm_compute; reflexivity..]. Qed.

Lemma after_init w mem rest : heap w (nalloc w) = Some mem -> heap w (S (nalloc w)) = Some rest ->
  cache_inv (after (apaCacheInit 5) w) (seq 1 (Z.to_nat 5)).
Proof.
  intros H1 H2. pose proof (apaCacheInit_ok w 5 mem rest ltac:(lia) H1 H2) as H.
  unfold wp in H. unfold after. destruct (apaCacheInit 5 w); [apply H|done..].
Qed.

Lemma w_restarted_cache : cache_inv w_restarted (seq 1 (Z.to_nat 5)).
Proof. apply (after_init w_formatted (fun _ => []) (fun _ => [])); vm_compute; reflexivity. Qed.

Lemma w_restarted_unused c : c ∈ tail (cacheBuf w_restarted) -> c_nused c = 0 /\ c_device c = -1 /\ c_flags c = 0.
Proof. revert c. apply Forall_forall. vm_compute. repeat constructor. Qed.

Lemma w_restarted_drive : drive_ok (ata w_restarted).
Proof. split; [intros n; vm_compute; reflexivity|]. apply disk_okb_ok. vm_compute. reflexivity. Qed.

Lemma w_restarted_headers s h : V0 !! s = Some h ->
  place 0 (ata w_restarted) s /\ length h = 256%nat /\ readable s h /\ on_disk 0 (disk (ata w_restarted)) s h.
Proof.
  assert (HF : forallb (headerb 0 (ata w_restarted)) starts0 = true) by (vm_compute; reflexivity).
  rewrite forallb_forall in HF. intros [Hs ->]%view_of_lookup. apply headerb_ok; [lia|]. apply HF. by apply list_elem_of_In.
Qed.

Lemma w_restarted_settled : settled 0 V0 [] w_restarted.
Proof.
  apply (settled_fresh _ _ _ _ w_restarted_cache); [..|apply w_restarted_unused|apply w_restarted_headers].
  - vm_compute. split; discriminate.
  - lia.
  - apply w_restarted_drive.
  - vm_compute. reflexivity.
  - vm_compute. reflexivity.
Qed.

(** ** The properties *)

(** C11: opening a partition on a drive with an intact ring, whatever the
    cache holds: [apaOpen] finds the main partition of that name; or without
    [O_CREAT] there is none; or it is larger than the drive allows, or no room
    is left; or it is created in the smallest free block it fits in, which is
    halved down to its size, and else after the last partition, behind free
    blocks that align it.  The ring stays closed and without gaps, every header
    of it is on the media with its checksum, the file slot describes the
    partition opened, all buffers are released, and no sector changes but the
    journal, the places of headers and the four sectors cleared. *)
Theorem open_partition dv V U w l z k params mode i s d fuel :
  settled dv V U w -> chain V l z -> (2 <= length l)%nat -> (length l + 32 < fuel)%nat -> Z.of_nat (length U) + 3 <= cacheSize w ->
  p_size params = part_size k -> (k <= 13)%nat -> names_ok params ->
  hddFileSlots w !! i = Some s -> hddDevices w !! Z.to_nat dv = Some d ->
  z mod unit_size = 0 -> addressable (ata w) dv 0 (d_totalLBA d) -> z <= d_totalLBA d -> z + 2 * part_size k <= 2 ^ 32 ->
  wp (apaOpen fuel dv i params mode) w (fun r w' =>
    exists oh V' l' z',
      opened params mode (d_partitionMaxSize d) (d_totalLBA d) l z r oh l' z' /\ settled dv V' U w' /\ chain V' l' z' /\
      (forall s h, V' !! s = Some h -> on_disk dv (disk (ata w')) s h) /\
      (forall h, oh = Some h -> V' !! h_start h = Some h) /\
      hddFileSlots w' = match oh with Some h => <[i := slot_of h s]> (hddFileSlots w) | None => hddFileSlots w end /\
      data_kept dv oh (disk (ata w)) (disk (ata w'))).
Proof.
  intros H1 H2 H3 H4 H5 H6 H7 H8 H9 H10 H11 H12 H13 H14. eapply wp_mono; [by apply (wp_open dv V U w l z k params mode i s d)|].
  intros r w' (oh & V' & l' & z' & O & S & C & Hs & Hh & HD). exists oh, V', l', z'. split_and!; try done.
  intros s' h'. by apply tab_on_disk with (K := ∅) (d0 := disk (ata w')) (U := U).
Qed.

(** "TEST", 128 MB, PFS *)
Definition p_test : apa_params_t := mkParams ([84; 69; 83; 84] ++ replicate 28 0) (replicate 8 0) (replicate 8 0) 0x40000 0x100 0 0 0.

Definition slot0 : hdd_file_slot_t := nth 0 (hddFileSlots w_restarted) (mkSlot None 0 0 0 [] []).

Lemma open_partition_witness :
  wp (apaOpen 38 0 0 p_test O_CREAT) w_restarted (fun r w' =>
    exists oh V' l' z', opened p_test O_CREAT 0x100000 0x4000000 ring0 0x300000 r oh l' z' /\ settled 0 V' [] w' /\ chain V' l' z' /\
      (forall s h, V' !! s = Some h -> on_disk 0 (disk (ata w')) s h) /\
      (forall h, oh = Some h -> V' !! h_start h = Some h) /\
      hddFileSlots w' = match oh with Some h => <[0%nat := slot_of h slot0]> (hddFileSlots w_restarted) | None => hddFileSlots w_restarted end /\
      data_kept 0 oh (disk (ata w_restarted)) (disk (ata w'))).
Proof.
  apply (open_partition 0 V0 [] w_restarted ring0 0x300000 0 p_test O_CREAT 0 slot0 (mkDevice 0x4000000 0x100000 2 0) 38);
    [apply w_restarted_settled|apply ring0_chain|vm_compute; lia|vm_compute; lia|vm_compute; discriminate|reflexivity|lia| |vm_compute; reflexivity|vm_compute; reflexivity|reflexivity| |simpl; lia|vm_compute; discriminate].
  - split_and!; [reflexivity| |reflexivity..]. unfold bytes_ok. cbn. repeat (constructor; [lia|]). constructor.
  - unfold addressable. cbn [d_totalLBA]. split_and!; [lia..|left; vm_compute; reflexivity].
Defined.

(** C25: looking for a partition always ends, for every ring, however long: with one
    step per partition and one buffer [apaFindPartition] returns the first main
    partition of the name, in use and with its header read, and [-ENOENT]
    exactly when the ring has none; nothing on the drive changes but the
    journal. *)
Theorem find_partition dv V U w l z id fuel :
  settled dv V U w -> chain V l z -> Z.of_nat (length U) < cacheSize w -> (length l < fuel)%nat ->
  wp (apaFindPartition fuel dv id) w (fun r w' =>
    rest_same dv ∅ (disk (ata w)) (disk (ata w')) /\
    match List.find (main_named id) l with
    | Some c => exists i, r = (Some i, 0) /\ settled dv V ((i, k_start c) :: U) w'
    | None => r = (None, - ENOENT) /\ settled dv V U w'
    end).
Proof.
  intros T HC HU Hf. eapply wp_findPartition; [exact T|exact HC|exact HU|exact Hf|].
  destruct (List.find (main_named id) l); intros; (edestruct tab_settled as [T' HR]; [eassumption|]); eauto.
Qed.

Lemma find_partition_witness :
  wp (apaFindPartition 6 0 ([95; 95; 115; 121; 115; 116; 101; 109] ++ replicate 24 0)) w_restarted (fun r w' =>
    rest_same 0 ∅ (disk (ata w_restarted)) (disk (ata w')) /\
    exists i, r = (Some i, 0) /\ settled 0 V0 [(i, 0x80000)] w').
Proof.
  eapply wp_mono; [apply (find_partition 0 V0 [] w_restarted ring0 0x300000 _ 6);
    [apply w_restarted_settled|apply ring0_chain|vm_compute; reflexivity|vm_compute; lia]|].
  intros r w' [HR H]. split; [done|]. exact H.
Defined.
