(* ===== verification/InputProps.v ===== *)
(** * InputProps: the parser of partition descriptions *)

From stdpp Require Import base numbers list.
From Stdlib Require Import ZArith Lia.
From S2P Require Import Prelude Password ApaState HddFio SizeProps.

Open Scope Z_scope.

(** ** Fields *)

Lemma length_pad n bs : length (pad n bs) = n.
Proof. unfold pad. rewrite length_take, length_app, length_replicate. lia. Qed.

Lemma length_memcpy_to out bytes : (length bytes <= length out)%nat -> length (memcpy_to out bytes) = length out.
Proof. intros H. unfold memcpy_to. rewrite length_app, length_drop. lia. Qed.

Lemma memcpy_zeros n bytes : (length bytes <= n)%nat -> memcpy_to (replicate n 0) bytes = pad n bytes.
Proof.
  intros H. unfold memcpy_to, pad. rewrite drop_replicate, take_app, take_ge, take_replicate by done. do 2 f_equal. lia.
Qed.

Lemma length_encryptField id pw : length pw = 8%nat -> length (encryptField id pw) = 8%nat.
Proof.
  intros H. unfold encryptField. destruct (_ =? 0); [done|]. rewrite length_memcpy_to; [done|]. rewrite H.
  unfold apaEncryptPassword. by destruct (DESEncryptPassword _ _ _ _).
Qed.

Lemma split_comma_app a s : Forall (fun c => c <> 44) a -> split_comma (a ++ 44 :: s) = Some (a, s).
Proof.
  induction 1 as [|c a Hc _ IH]; [done|]. simpl. rewrite IH. by replace (c =? 44) with false by zbool.
Qed.

(** The fields never hold a comma, and nothing is lost. *)
Lemma split_comma_spec s :
  match split_comma s with
  | Some (a, b) => s = a ++ 44 :: b /\ Forall (fun c => c <> 44) a
  | None => Forall (fun c => c <> 44) s
  end.
Proof.
  induction s as [|c s IH]; simpl; [done|]. destruct (Z.eqb_spec c 44) as [->|Hc]; [done|].
  destruct (split_comma s) as [[a b]|]; [destruct IH as [-> Ha]; auto | auto].
Qed.

Lemma sizeLookUp_sizes str : fioPartitionSizeLookUp str = - EINVAL \/ exists i, (i <= 8)%nat /\ fioPartitionSizeLookUp str = part_size i.
Proof.
  unfold fioPartitionSizeLookUp, sizeList. cbn [sizeLookUp].
  repeat (case_bool_decide; [right; first [by exists 0%nat; split; [lia|] | by exists 1%nat; split; [lia|]
    | by exists 2%nat; split; [lia|] | by exists 3%nat; split; [lia|] | by exists 4%nat; split; [lia|]
    | by exists 5%nat; split; [lia|] | by exists 6%nat; split; [lia|] | by exists 7%nat; split; [lia|]
    | by exists 8%nat; split; [lia|]] |]).
  by left.
Qed.

Lemma inputBreaker_error arg out n rv : fioInputBreaker arg out n = inl rv -> rv = - EINVAL.
Proof. unfold fioInputBreaker. repeat case_match; congruence. Qed.

(** The field copied is the whole text up to the comma, and fits. *)
Lemma inputBreaker_field arg out n out' rest : fioInputBreaker arg out n = inr (out', rest) ->
  exists field tl, arg = field ++ tl /\ (tl = [] \/ head tl = Some 44) /\ Forall (fun c => c <> 44) field /\ (length field <= n)%nat /\ out' = memcpy_to out field.
Proof.
  unfold fioInputBreaker. pose proof (split_comma_spec arg) as H. destruct (split_comma arg) as [[f tl]|].
  - destruct H as [-> H]. destruct (Nat.ltb_spec n (length f)); [done|]. intros [= <- <-]. exists f, (44 :: tl). auto 6.
  - destruct (Nat.ltb_spec n (length arg)); [done|]. intros [= <- <-]. exists arg, []. rewrite app_nil_r. auto 6.
Qed.

Lemma inputBreaker_length arg out out' rest : fioInputBreaker arg out (length out) = inr (out', rest) -> length out' = length out.
Proof. intros (field & tl & _ & _ & _ & H & ->)%inputBreaker_field. by apply length_memcpy_to. Qed.

(** What every result of the parser keeps. *)
Definition params_ok (p : apa_params_t) : Prop :=
  length (p_id p) = 32%nat /\ length (p_fpwd p) = 8%nat /\ length (p_rpwd p) = 8%nat /\
  (p_size p = 0 \/ exists i, (i <= 8)%nat /\ p_size p = part_size i) /\
  (p_type p = 0 \/ p_type p ∈ map snd fsTypes) /\ p_flags p = 0 /\ p_main p = 0 /\ p_number p = 0.

Lemma params_ok_intro id fp rp sz ty :
  length id = 32%nat -> length fp = 8%nat -> length rp = 8%nat ->
  (sz = 0 \/ exists i, (i <= 8)%nat /\ sz = part_size i) -> (ty = 0 \/ ty ∈ map snd fsTypes) ->
  params_ok (mkParams id fp rp sz ty 0 0 0).
Proof. by repeat split. Qed.

(** The id of the parameters is the text up to the first comma, all of it. *)
Definition id_of (arg : list Z) (p : apa_params_t) : Prop := exists id tl, skip_spaces arg = id ++ tl /\ (tl = [] \/ head tl = Some 44) /\
  Forall (fun c => c <> 44) id /\ (1 <= length id <= 32)%nat /\ p_id p = pad 32 id.

(** C27: whatever text it is given, no field of it is copied past the end of its
    array: [fioInputBreaker] keeps the length of the array it fills, and
    [fioGetInput] leaves an id of 32 bytes and passwords of 8 bytes, encrypted
    in place.  It returns 0 or -EINVAL; the size is then 0 or one of the nine
    partition sizes (128 MB times 2^i), the type 0 or one of the four types; and
    when it returns 0, the id is the whole text before the first comma, of 1 to
    32 bytes, followed by zeros. *)
Theorem input_wellformed arg :
  (forall text out out' rest, fioInputBreaker text out (length out) = inr (out', rest) -> length out' = length out) /\
  let '(rv, p) := fioGetInput arg in (rv = 0 \/ rv = - EINVAL) /\ params_ok p /\ (rv = 0 -> id_of arg p).
Proof.
  split; [exact inputBreaker_length|].
  assert (Hr : forall p, params_ok p -> (- EINVAL = 0 \/ - EINVAL = - EINVAL) /\ params_ok p /\ (- EINVAL = 0 -> id_of arg p)) by (intros p Hp; split; [by right|]; split; [done|intros H; discriminate H]).
  unfold fioGetInput. destruct (_ || _) eqn:E0; [apply Hr, params_ok_intro; auto|]. apply orb_false_iff in E0 as [E0 E44].
  cbn [p_id p_fpwd p_rpwd p_size zero_params].
  destruct (fioInputBreaker _ _ APA_IDMAX) as [rv|[id arg1]] eqn:E1; [apply inputBreaker_error in E1 as ->; apply Hr, params_ok_intro; auto|].
  apply inputBreaker_field in E1 as (f & tl & Ef & Htl & Hf & Hl & ->). set (id := memcpy_to _ f).
  assert (Hid : length id = 32%nat) by (by apply length_memcpy_to).
  assert (HI : forall fp rp sz ty, id_of arg (mkParams id fp rp sz ty 0 0 0)).
  { intros. exists f, tl. split; [done|]. split; [done|]. split; [done|]. split; [|by apply memcpy_zeros]. split; [|done].
    destruct f; [|simpl; lia]. rewrite Ef in *. destruct Htl as [->|Htl]; [done|]. destruct tl as [|c tl]; [done|]. injection Htl as ->. done. }
  assert (Hok : forall fp rp sz ty, params_ok (mkParams id fp rp sz ty 0 0 0) ->
    (0 = 0 \/ 0 = - EINVAL) /\ params_ok (mkParams id fp rp sz ty 0 0 0) /\ (0 = 0 -> id_of arg (mkParams id fp rp sz ty 0 0 0))) by auto.
  clear Ef Htl Hf Hl E0 E44.
  destruct (nth 0 arg1 0 =? 0); [apply Hok, params_ok_intro; auto|].
  destruct (fioInputBreaker arg1 _ _) as [rv|[fp arg2]] eqn:E2; [apply inputBreaker_error in E2 as ->; apply Hr, params_ok_intro; auto|].
  apply inputBreaker_length in E2. pose proof (length_encryptField id fp E2) as Hfp. cbn [p_id p_fpwd p_rpwd p_size].
  destruct (nth 0 arg2 0 =? 0); [apply Hok, params_ok_intro; auto|].
  destruct (fioInputBreaker arg2 _ _) as [rv|[rp arg3]] eqn:E3; [apply inputBreaker_error in E3 as ->; apply Hr, params_ok_intro; auto|].
  apply inputBreaker_length in E3. pose proof (length_encryptField id rp E3) as Hrp. cbn [p_id p_fpwd p_rpwd p_size].
  destruct (nth 0 arg3 0 =? 0); [apply Hok, params_ok_intro; auto|].
  destruct (fioInputBreaker arg3 _ _) as [rv|[sz arg4]] eqn:E4; [apply inputBreaker_error in E4 as ->; apply Hr, params_ok_intro; auto|].
  destruct (sizeLookUp_sizes (cstr sz)) as [->|(i & Hi & ->)]; [change (- EINVAL <? 0) with true; apply Hr, params_ok_intro; auto|].
  replace (part_size i <? 0) with false by (pose proof (part_size_pos i); zbool). cbn [p_id p_fpwd p_rpwd p_size].
  destruct (fioInputBreaker arg4 _ _) as [rv|[ty arg5]] eqn:E5; [apply inputBreaker_error in E5 as ->; apply Hr, params_ok_intro; eauto|].
  destruct (list_find _ fsTypes) as [[k [nm t]]|] eqn:Ef; [apply Hok|apply Hr]; apply params_ok_intro; eauto.
  right. apply list_find_Some in Ef as (Hk & _). apply list_elem_of_lookup_2 in Hk.
  apply list_elem_of_fmap. eexists. split; [|exact Hk]. done.
Qed.

(** Forty bytes are too many for an id; thirty-two are not. *)
Lemma input_wellformed_witness : fioGetInput (replicate 40 65) = (- EINVAL, zero_params) /\
  (fioGetInput (replicate 32 65)).1 = 0 /\ id_of (replicate 32 65) (fioGetInput (replicate 32 65)).2.
Proof.
  split; [vm_compute; reflexivity|]. pose proof (proj2 (input_wellformed (replicate 32 65))) as H.
  assert (E : (fioGetInput (replicate 32 65)).1 = 0) by (vm_compute; reflexivity). split; [exact E|].
  exact (proj2 (proj2 H) eq_refl).
Defined.

(** ** Printing and parsing *)

(** "id,,,size,type" *)
Definition describe (id sz ty : list Z) : list Z := id ++ [44; 44; 44] ++ sz ++ [44] ++ ty.

Lemma skip_spaces_id c s : c <> 32 -> skip_spaces (c :: s) = c :: s.
Proof. intros H. simpl. by replace (c =? 32) with false by zbool. Qed.

(** C28: a description made of an id (1 to 32 bytes without comma that do not
    start with a space), one of the size names and one of the type names is
    parsed back to that id, size and type, with no passwords. *)
Theorem describe_roundtrip id i k sz ty t :
  (1 <= length id <= 32)%nat -> Forall (fun c => c <> 44 /\ c <> 0) id -> nth 0 id 0 <> 32 ->
  sizeList !! i = Some sz -> fsTypes !! k = Some (ty, t) ->
  fioGetInput (describe id sz ty) =
  (0, mkParams (pad 32 id) (replicate 8 0) (replicate 8 0) (part_size i) t 0 0 0).
Proof.
  intros Hl Hid Hsp Hs Ht. unfold fioGetInput, describe.
  destruct id as [|c id]; [simpl in Hl; lia|]. apply Forall_cons in Hid as Hc. destruct Hc as [[Hc1 Hc2] _].
  cbn [app]. rewrite skip_spaces_id by (exact Hsp). cbn [nth].
  replace (c =? 0) with false by zbool. replace (c =? 44) with false by zbool. cbn [orb].
  unfold fioInputBreaker at 1. rewrite app_comm_cons, (split_comma_app (c :: id)) by (eapply Forall_impl; [exact Hid|tauto]).
  replace (APA_IDMAX <? length (c :: id))%nat with false by (symmetry; apply Nat.ltb_ge; unfold APA_IDMAX; lia).
  cbn [p_id zero_params]. rewrite memcpy_zeros by lia.
  assert (Hi : (i < 9)%nat) by (by apply lookup_lt_Some in Hs). assert (Hk : (k < 4)%nat) by (by apply lookup_lt_Some in Ht).
  do 9 (destruct i as [|i]; [injection Hs as <-;
    do 4 (destruct k as [|k]; [injection Ht as <- <-; reflexivity|]); lia|]). lia.
Qed.

(** "TEST,,,1G,PFS" *)
Lemma describe_roundtrip_witness :
  fioGetInput (describe [84; 69; 83; 84] [49; 71] [80; 70; 83]) =
  (0, mkParams (pad 32 [84; 69; 83; 84]) (replicate 8 0) (replicate 8 0) (part_size 3) APA_TYPE_PFS 0 0 0).
Proof.
  apply (describe_roundtrip [84; 69; 83; 84] 3 0 [49; 71] [80; 70; 83] APA_TYPE_PFS);
    [simpl; lia | repeat constructor; lia | simpl; lia | reflexivity | reflexivity].
Defined.
