(* ===== verification/PfsState.v ===== *)
(** * PfsState: the data of the Playstation File System library

    The structures of iop/hdd/libpfs/include/libpfs.h.  The block device is an
    interface ([BlockDevice], the C table [pfs_block_device_t]), so that what
    is proved of the file system holds of any device that keeps it; the
    instance over the partition manager is in PfsHdd.  An inode, a bitmap
    chunk, a chunk of directory entries and the journal are buffers of 256
    words (1024 bytes, [pfsMetaSize]), with accessors at the C offsets.
    A [pfs_cache_t *] is an index of [pfsCacheBuf] and a [pfs_mount_t *] an
    index of [pfsMountBuf]. *)

From stdpp Require Import base numbers list gmap.
From Stdlib Require Import ZArith Lia.
From S2P Require Import Prelude ApaState.

Open Scope Z_scope.
Open Scope c_scope.

(** ** The block device *)

(** [transfer] also gives back the caller's buffer. *)
Class BlockDevice (D : Type) := {
  bd_transfer : forall (fd : Z) (buffer : buf) (sub sector size mode : Z), M D (Z * buf);
  bd_getSubNumber : Z -> M D Z;
  bd_getSize : Z -> Z -> M D Z;
  bd_setPartitionError : Z -> M D unit;
  bd_flushCache : Z -> M D Z
}.

(** ** Constants *)

Definition pfsBlockSize : Z := 1.
Definition pfsMetaSize : Z := 1024.
Definition pfsBitsPerBitmapChunk : Z := 8192.
Definition PFS_SUPER_MAGIC : Z := 0x50465300.
Definition PFS_JOUNRNAL_MAGIC : Z := 0x5046534C.
Definition PFS_SEGD_MAGIC : Z := 0x53454744.
Definition PFS_SEGI_MAGIC : Z := 0x53454749.
Definition PFS_FORMAT_VERSION : Z := 3.
Definition PFS_MODVER : Z := 0x0202.
Definition PFS_FIO_ATTR_WRITEABLE : Z := 2.
Definition PFS_FIO_ATTR_EXECUTABLE : Z := 4.
Definition PFS_CACHE_FLAG_DIRTY : Z := 1.
Definition PFS_CACHE_FLAG_NOLOAD : Z := 2.
Definition PFS_CACHE_FLAG_MASKSTATUS : Z := 15.
Definition PFS_CACHE_FLAG_NOTHING : Z := 0.
Definition PFS_CACHE_FLAG_SEGD : Z := 16.
Definition PFS_CACHE_FLAG_SEGI : Z := 32.
Definition PFS_CACHE_FLAG_BITMAP : Z := 64.
Definition PFS_CACHE_FLAG_MASKTYPE : Z := 240.
Definition PFS_FSCK_STAT_WRITE_ERROR : Z := 1.
Definition PFS_MODE_SET_FLAG : Z := 0.
Definition PFS_MODE_REMOVE_FLAG : Z := 1.
Definition PFS_IO_MODE_READ : Z := 0.
Definition PFS_IO_MODE_WRITE : Z := 1.
Definition PFS_BITMAP_ALLOC : Z := 0.
Definition PFS_BITMAP_FREE : Z := 1.
Definition PFS_SUPER_SECTOR : Z := 8192.
Definition PFS_SUPER_BACKUP_SECTOR : Z := 8193.
Definition FIO_S_IFMT : Z := 0xF000.
Definition FIO_S_IFDIR : Z := 0x1000.
Definition FIO_S_IFLNK : Z := 0x4000.
Definition FIO_MT_RDONLY : Z := 1.
Definition O_WRONLY : Z := 2.
Definition EROFS : Z := 30.
Definition ENAMETOOLONG : Z := 91.
Definition ELOOP : Z := 92.

(** ** [pfs_blockinfo_t] *)

Record pfs_blockinfo_t := mkBi {
  bi_number : Z;    (* u32 *)
  bi_subpart : Z;   (* u16 *)
  bi_count : Z      (* u16 *)
}.

(** Its two words, at word [i] of a buffer. *)
Definition get_bi (b : buf) (i : nat) : pfs_blockinfo_t :=
  mkBi (get32 b i) (get16 b (i + 1) 0) (get16 b (i + 1) 1).
Definition set_bi (i : nat) (x : pfs_blockinfo_t) (b : buf) : buf :=
  set16 (i + 1) 1 (bi_count x) (set16 (i + 1) 0 (bi_subpart x) (set32 i (bi_number x) b)).

(** ** [pfs_inode_t] *)

Definition i_checksum (b : buf) : Z := get32 b 0.
Definition i_magic (b : buf) : Z := get32 b 1.
Definition i_inode_block (b : buf) : pfs_blockinfo_t := get_bi b 2.
Definition i_next_segment (b : buf) : pfs_blockinfo_t := get_bi b 4.
Definition i_last_segment (b : buf) : pfs_blockinfo_t := get_bi b 6.
Definition i_data (b : buf) (k : nat) : pfs_blockinfo_t := get_bi b (10 + 2 * k).
Definition i_mode (b : buf) : Z := get16 b 238 0.
Definition i_size (b : buf) : Z := get32 b 246 + get32 b 247 * 2 ^ 32.
Definition i_number_blocks (b : buf) : Z := get32 b 248.
Definition i_number_data (b : buf) : Z := get32 b 249.
Definition i_number_segdesg (b : buf) : Z := get32 b 250.
Definition i_subpart (b : buf) : Z := get32 b 251.

Definition set_i_checksum (v : Z) : buf -> buf := set32 0 v.
Definition set_i_magic (v : Z) : buf -> buf := set32 1 v.
Definition set_i_inode_block (x : pfs_blockinfo_t) : buf -> buf := set_bi 2 x.
Definition set_i_next_segment (x : pfs_blockinfo_t) : buf -> buf := set_bi 4 x.
Definition set_i_last_segment (x : pfs_blockinfo_t) : buf -> buf := set_bi 6 x.
Definition set_i_data (k : nat) (x : pfs_blockinfo_t) : buf -> buf := set_bi (10 + 2 * k) x.
Definition set_i_mode (v : Z) : buf -> buf := set16 238 0 v.
Definition set_i_attr (v : Z) : buf -> buf := set16 238 1 v.
Definition set_i_uid (v : Z) : buf -> buf := set16 239 0 v.
Definition set_i_gid (v : Z) : buf -> buf := set16 239 1 v.
Definition set_i_atime (t : buf) : buf -> buf := put_words 240 t.
Definition set_i_ctime (t : buf) : buf -> buf := put_words 242 t.
Definition set_i_mtime (t : buf) : buf -> buf := put_words 244 t.
Definition set_i_size (v : Z) (b : buf) : buf := set32 247 (u64 v / 2 ^ 32) (set32 246 v b).
Definition set_i_number_blocks (v : Z) : buf -> buf := set32 248 v.
Definition set_i_number_data (v : Z) : buf -> buf := set32 249 v.
Definition set_i_number_segdesg (v : Z) : buf -> buf := set32 250 v.
Definition set_i_subpart (v : Z) : buf -> buf := set32 251 v.

(** ** [pfs_super_block_t] *)

Definition sb_magic (b : buf) : Z := get32 b 0.
Definition sb_version (b : buf) : Z := get32 b 1.
Definition sb_fsckStat (b : buf) : Z := get32 b 3.
Definition sb_zone_size (b : buf) : Z := get32 b 4.
Definition sb_num_subs (b : buf) : Z := get32 b 5.
Definition sb_log (b : buf) : pfs_blockinfo_t := get_bi b 6.
Definition sb_root (b : buf) : pfs_blockinfo_t := get_bi b 8.

(** ** [pfs_dentry_t] at byte [o] of a chunk: inode, sub, pLen, aLen, path *)

Definition de_inode (b : buf) (o : nat) : Z := get32 b (o / 4).
Definition de_sub (b : buf) (o : nat) : Z := get8 b (o + 4).
Definition de_pLen (b : buf) (o : nat) : Z := get8 b (o + 5).
Definition de_aLen (b : buf) (o : nat) : Z := get16 b (o / 4 + 1) 1.
Definition de_path (b : buf) (o n : nat) : list Z := map (fun k => get8 b (o + 8 + k)) (seq 0 n).

Definition set_de_inode (o : nat) (v : Z) : buf -> buf := set32 (o / 4) v.
Definition set_de_sub (o : nat) (v : Z) : buf -> buf := set8 (o + 4) v.
Definition set_de_pLen (o : nat) (v : Z) : buf -> buf := set8 (o + 5) v.
Definition set_de_aLen (o : nat) (v : Z) : buf -> buf := set16 (o / 4 + 1) 1 v.
Definition set_de_path (o : nat) (bs : list Z) (b : buf) : buf :=
  foldl (fun b kc => set8 (o + 8 + kc.1) kc.2 b) b (zip (seq 0 (length bs)) bs).

(** ** [pfs_journal_t]: magic, num/checksum, 127 log entries *)

Definition pj_num (j : buf) : Z := get16 j 1 0.
Definition pj_checksum (j : buf) : Z := get16 j 1 1.
Definition pj_sector (j : buf) (i : nat) : Z := get32 j (2 + 2 * i).
Definition pj_sub (j : buf) (i : nat) : Z := get16 j (3 + 2 * i) 0.
Definition pj_logSector (j : buf) (i : nat) : Z := get16 j (3 + 2 * i) 1.
Definition set_pj_num (v : Z) : buf -> buf := set16 1 0 v.
Definition set_pj_checksum (v : Z) : buf -> buf := set16 1 1 v.
Definition set_pj_log (i : nat) (sector sub logSector : Z) (j : buf) : buf :=
  set16 (3 + 2 * i) 1 logSector (set16 (3 + 2 * i) 0 sub (set32 (2 + 2 * i) sector j)).

(** ** Records *)

Record pfs_mount_t := mkMount {
  m_fd : Z;
  m_flags : Z;
  m_total_sector : Z;
  m_zfree : Z;
  m_sector_scale : Z;
  m_inode_scale : Z;
  m_zsize : Z;
  m_num_subs : Z;
  m_root_dir : pfs_blockinfo_t;
  m_log : pfs_blockinfo_t;
  m_current_dir : pfs_blockinfo_t;
  m_lastError : Z;
  m_uid : Z;
  m_gid : Z;
  m_free_zone : list Z     (* u32 free_zone[65] *)
}.

Record pfs_cache_t := mkPc {
  pc_next : nat;
  pc_prev : nat;
  pc_flags : Z;
  pc_nused : Z;
  pc_mount : option nat;
  pc_sub : Z;
  pc_sector : Z;
  pc_data : buf
}.

Record pfs_blockpos_t := mkBp {
  bp_inode : nat;
  bp_segment : Z;
  bp_offset : Z;
  bp_byte : Z
}.

(** Updates of the two records, one per assigned field. *)
Definition pc_link (n p : nat) (c : pfs_cache_t) : pfs_cache_t :=
  mkPc n p (pc_flags c) (pc_nused c) (pc_mount c) (pc_sub c) (pc_sector c) (pc_data c).
Definition pc_set_next (n : nat) (c : pfs_cache_t) : pfs_cache_t := pc_link n (pc_prev c) c.
Definition pc_set_prev (p : nat) (c : pfs_cache_t) : pfs_cache_t := pc_link (pc_next c) p c.
Definition pc_set_flags (v : Z) (c : pfs_cache_t) : pfs_cache_t :=
  mkPc (pc_next c) (pc_prev c) (u16 v) (pc_nused c) (pc_mount c) (pc_sub c) (pc_sector c) (pc_data c).
Definition pc_set_nused (v : Z) (c : pfs_cache_t) : pfs_cache_t :=
  mkPc (pc_next c) (pc_prev c) (pc_flags c) (u16 v) (pc_mount c) (pc_sub c) (pc_sector c) (pc_data c).
Definition pc_set_mount (m : option nat) (c : pfs_cache_t) : pfs_cache_t :=
  mkPc (pc_next c) (pc_prev c) (pc_flags c) (pc_nused c) m (pc_sub c) (pc_sector c) (pc_data c).
Definition pc_set_sub (v : Z) (c : pfs_cache_t) : pfs_cache_t :=
  mkPc (pc_next c) (pc_prev c) (pc_flags c) (pc_nused c) (pc_mount c) v (pc_sector c) (pc_data c).
Definition pc_set_sector (v : Z) (c : pfs_cache_t) : pfs_cache_t :=
  mkPc (pc_next c) (pc_prev c) (pc_flags c) (pc_nused c) (pc_mount c) (pc_sub c) (u32 v) (pc_data c).
Definition pc_set_data (b : buf) (c : pfs_cache_t) : pfs_cache_t :=
  mkPc (pc_next c) (pc_prev c) (pc_flags c) (pc_nused c) (pc_mount c) (pc_sub c) (pc_sector c) b.

Definition m_set_lastError (v : Z) (m : pfs_mount_t) : pfs_mount_t :=
  mkMount (m_fd m) (m_flags m) (m_total_sector m) (m_zfree m) (m_sector_scale m) (m_inode_scale m)
    (m_zsize m) (m_num_subs m) (m_root_dir m) (m_log m) (m_current_dir m) v (m_uid m) (m_gid m)
    (m_free_zone m).
Definition m_set_free (zfree : Z) (fz : list Z) (m : pfs_mount_t) : pfs_mount_t :=
  mkMount (m_fd m) (m_flags m) (m_total_sector m) (u32 zfree) (m_sector_scale m) (m_inode_scale m)
    (m_zsize m) (m_num_subs m) (m_root_dir m) (m_log m) (m_current_dir m) (m_lastError m) (m_uid m)
    (m_gid m) fz.
Definition m_set_total (v : Z) (m : pfs_mount_t) : pfs_mount_t :=
  mkMount (m_fd m) (m_flags m) (u32 v) (m_zfree m) (m_sector_scale m) (m_inode_scale m)
    (m_zsize m) (m_num_subs m) (m_root_dir m) (m_log m) (m_current_dir m) (m_lastError m) (m_uid m)
    (m_gid m) (m_free_zone m).

(** [free_zone[sub]]: a fixed array of 65; [None] is out of range. *)
Definition free_zone (m : pfs_mount_t) (sub : Z) : option Z := m_free_zone m !! Z.to_nat sub.

(** ** The state *)

Record pfs_st (D : Type) := mkPfs {
  dev : D;
  pfsMountBuf : list pfs_mount_t;
  pfsCacheBuf : list pfs_cache_t;
  pfsCacheNumBuffers : Z;
  pfsJournalBuf : buf;                       (* 256 words *)
  pfsSymbolicLinks : Z;
  pfsTimeBuf : buf;                          (* the static of pfsGetTime *)
  pfsReadClock : nat -> Z * sceCdCLOCK;      (* clock script *)
  pfsNClock : nat;
  pfsHeap : nat -> option buf;               (* allocation script *)
  pfsNAlloc : nat
}.
Arguments mkPfs {D}.
Arguments dev {D}. Arguments pfsMountBuf {D}. Arguments pfsCacheBuf {D}.
Arguments pfsCacheNumBuffers {D}. Arguments pfsJournalBuf {D}. Arguments pfsSymbolicLinks {D}.
Arguments pfsTimeBuf {D}. Arguments pfsReadClock {D}. Arguments pfsNClock {D}.
Arguments pfsHeap {D}. Arguments pfsNAlloc {D}.

Section State.
Context {D : Type}.

Definition with_dev (d : D) (s : pfs_st D) : pfs_st D :=
  mkPfs d (pfsMountBuf s) (pfsCacheBuf s) (pfsCacheNumBuffers s) (pfsJournalBuf s)
    (pfsSymbolicLinks s) (pfsTimeBuf s) (pfsReadClock s) (pfsNClock s) (pfsHeap s) (pfsNAlloc s).
Definition with_mounts (m : list pfs_mount_t) (s : pfs_st D) : pfs_st D :=
  mkPfs (dev s) m (pfsCacheBuf s) (pfsCacheNumBuffers s) (pfsJournalBuf s)
    (pfsSymbolicLinks s) (pfsTimeBuf s) (pfsReadClock s) (pfsNClock s) (pfsHeap s) (pfsNAlloc s).
Definition with_pcache (c : list pfs_cache_t) (s : pfs_st D) : pfs_st D :=
  mkPfs (dev s) (pfsMountBuf s) c (pfsCacheNumBuffers s) (pfsJournalBuf s)
    (pfsSymbolicLinks s) (pfsTimeBuf s) (pfsReadClock s) (pfsNClock s) (pfsHeap s) (pfsNAlloc s).
Definition with_numBuffers (n : Z) (s : pfs_st D) : pfs_st D :=
  mkPfs (dev s) (pfsMountBuf s) (pfsCacheBuf s) n (pfsJournalBuf s)
    (pfsSymbolicLinks s) (pfsTimeBuf s) (pfsReadClock s) (pfsNClock s) (pfsHeap s) (pfsNAlloc s).
Definition with_pjournal (j : buf) (s : pfs_st D) : pfs_st D :=
  mkPfs (dev s) (pfsMountBuf s) (pfsCacheBuf s) (pfsCacheNumBuffers s) j
    (pfsSymbolicLinks s) (pfsTimeBuf s) (pfsReadClock s) (pfsNClock s) (pfsHeap s) (pfsNAlloc s).
Definition with_links (n : Z) (s : pfs_st D) : pfs_st D :=
  mkPfs (dev s) (pfsMountBuf s) (pfsCacheBuf s) (pfsCacheNumBuffers s) (pfsJournalBuf s)
    n (pfsTimeBuf s) (pfsReadClock s) (pfsNClock s) (pfsHeap s) (pfsNAlloc s).
Definition with_ptime (t : buf) (n : nat) (s : pfs_st D) : pfs_st D :=
  mkPfs (dev s) (pfsMountBuf s) (pfsCacheBuf s) (pfsCacheNumBuffers s) (pfsJournalBuf s)
    (pfsSymbolicLinks s) t (pfsReadClock s) n (pfsHeap s) (pfsNAlloc s).
Definition with_pnalloc (n : nat) (s : pfs_st D) : pfs_st D :=
  mkPfs (dev s) (pfsMountBuf s) (pfsCacheBuf s) (pfsCacheNumBuffers s) (pfsJournalBuf s)
    (pfsSymbolicLinks s) (pfsTimeBuf s) (pfsReadClock s) (pfsNClock s) (pfsHeap s) n.

(** A device operation, on the device's part of the state. *)
Definition bdev {A} (m : M D A) : M (pfs_st D) A := fun s =>
  match m (dev s) with
  | Done a d => Done a (with_dev d s)
  | Undef => Undef
  | NoFuel => NoFuel
  end.

Definition pget (p : nat) : M (pfs_st D) pfs_cache_t := fun s =>
  match pfsCacheBuf s !! p with Some c => Done c s | None => Undef end.
Definition pmod (p : nat) (f : pfs_cache_t -> pfs_cache_t) : M (pfs_st D) unit := fun s =>
  match pfsCacheBuf s !! p with
  | Some c => Done tt (with_pcache (<[p := f c]> (pfsCacheBuf s)) s)
  | None => Undef
  end.
Definition mget (m : nat) : M (pfs_st D) pfs_mount_t := fun s =>
  match pfsMountBuf s !! m with Some x => Done x s | None => Undef end.
Definition mmod (m : nat) (f : pfs_mount_t -> pfs_mount_t) : M (pfs_st D) unit := fun s =>
  match pfsMountBuf s !! m with
  | Some x => Done tt (with_mounts (<[m := f x]> (pfsMountBuf s)) s)
  | None => Undef
  end.

(** [clink->u.inode] and assignments through it. *)
Definition pdata (p : nat) : M (pfs_st D) buf := c <- pget p ;; ret (pc_data c).
Definition dmod (p : nat) (f : buf -> buf) : M (pfs_st D) unit :=
  pmod p (fun c => pc_set_data (f (pc_data c)) c).
Definition pdirty (p : nat) : M (pfs_st D) unit :=
  pmod p (fun c => pc_set_flags (Z.lor (pc_flags c) PFS_CACHE_FLAG_DIRTY) c).
Definition pclean (p : nat) : M (pfs_st D) unit :=
  pmod p (fun c => pc_set_flags (Z.ldiff (pc_flags c) PFS_CACHE_FLAG_DIRTY) c).

(** [clink->pfsMount], dereferenced. *)
Definition pmount (p : nat) : M (pfs_st D) nat :=
  c <- pget p ;; match pc_mount c with Some m => ret m | None => undef end.

(** [free_zone[sub] += delta; zfree += delta], and an assignment to it. *)
Definition add_free (m : nat) (sub delta : Z) : M (pfs_st D) unit :=
  x <- mget m ;;
  match free_zone x sub with
  | None => undef
  | Some v =>
      mmod m (m_set_free (m_zfree x + delta) (<[Z.to_nat sub := u32 (v + delta)]> (m_free_zone x)))
  end.

(** Indices [1 .. pfsCacheNumBuffers]. *)
Definition pcache_indices (s : pfs_st D) : list nat := seq 1 (Z.to_nat (pfsCacheNumBuffers s)).

Lemma mget_Done (s : pfs_st D) m x : pfsMountBuf s !! m = Some x -> mget m s = Done x s.
Proof. unfold mget. by intros ->. Qed.
End State.
