(* ===== verification/PfsCache.v ===== *)
(** * PfsCache: metadata cache, journal and small helpers of libpfs

    iop/hdd/libpfs/src/cache.c, journal.c, super.c and misc.c (without the
    hdd call table, which is in PfsHdd).  As in libapa the free buffers form a
    ring through [pfsCacheBuf[0]]; dirty metadata is written to the log area
    of the main partition before it is written in place. *)

From stdpp Require Import base numbers list gmap.
From Stdlib Require Import ZArith Lia.
From S2P Require Import Prelude ApaState ApaCache PfsState.

Open Scope Z_scope.
Open Scope c_scope.

(** ** super.c *)

Definition pfsCheckZoneSize (zone_size : Z) : Z :=
  if nz (Z.land zone_size (u32 (zone_size - 1))) || (zone_size <? 2 * 1024) || (128 * 1024 <? zone_size)
  then 0 else 1.

Definition pfsGetBitmapSizeSectors (zoneScale partSize : Z) : Z :=
  let zones := partSize / Z.shiftl 1 zoneScale in
  let w := Z.land zones 7 in
  let zones := zones / 8 + w in
  let w := Z.land zones 511 in
  zones / 512 + w.

Definition pfsGetBitmapSizeBlocks (scale mainsize : Z) : Z :=
  let a := pfsGetBitmapSizeSectors scale mainsize in
  a / Z.shiftl 1 scale + b2z (0 <? a mod Z.shiftl 1 scale).

(** ** misc.c *)

(** [while((size << scale) != num) scale++]; a shift of 32 or more is
    undefined in C. *)
Fixpoint getScale (fuel : nat) (num size scale : Z) : option Z :=
  match fuel with
  | O => None
  | S n => if u32 (Z.shiftl size scale) =? num then Some scale else getScale n num size (scale + 1)
  end.
Definition pfsGetScale (num size : Z) : option Z := getScale 32 num size 0.

Definition pfsFixIndex (index : Z) : Z :=
  if index <? 114 then index else (index - 114) mod 123.

Definition pfsInodeCheckSum (b : buf) : Z :=
  foldl (fun sum i => u32 (sum + get32 b i)) 0 (seq 1 255).

Definition pfsJournalChecksum (b : buf) : Z :=
  Z.land (foldl (fun sum i => u32 (sum + get32 b i)) 0 (seq 2 254)) 65535.

Section Cache.
Context {D : Type} `{BlockDevice D}.
Notation MP := (M (pfs_st D)).

Definition pfsAllocMem : MP (option buf) := fun s =>
  Done (pfsHeap s (pfsNAlloc s)) (with_pnalloc (S (pfsNAlloc s)) s).

Definition pfsGetTime : MP buf :=
  r <- for_break (seq 0 20)
        (fun _ (_ : unit) =>
           rc <- gets (fun s => pfsReadClock s (pfsNClock s)) ;;
           modify (fun s => with_ptime (pfsTimeBuf s) (S (pfsNClock s)) s) ;;;
           let '(rv, cdtime) := rc in
           if nz rv && (cd_stat cdtime =? 0) then
             modify (fun s =>
               with_ptime (ps2time (btoi (cd_second cdtime)) (btoi (cd_minute cdtime))
                             (btoi (cd_hour cdtime)) (btoi (cd_day cdtime))
                             (btoi (Z.land (cd_month cdtime) 127))
                             (btoi (cd_year cdtime) + 2000)) (pfsNClock s) s) ;;;
             ret (inr tt)
           else if negb (nz (Z.land (cd_stat cdtime) 128)) then ret (inr tt)
           else ret (inl tt)) tt ;;
  gets pfsTimeBuf.

(** A transfer between the device of mount [m] and the data of buffer [p]. *)
Definition buf_transfer (m p : nat) (sub sector size mode : Z) : MP Z :=
  x <- mget m ;;
  b <- pdata p ;;
  let* (r, b') := bdev (bd_transfer (m_fd x) b sub sector size mode) in
  dmod p (fun _ => b') ;;;
  ret r.

(** [superblock] is the data of buffer [p]. *)
Definition pfsFsckStat (m p : nat) (stat mode : Z) : MP Z :=
  r <- buf_transfer m p 0 PFS_SUPER_SECTOR 1 PFS_IO_MODE_READ ;;
  if r =? 0 then
    let finish :=
      buf_transfer m p 0 PFS_SUPER_SECTOR 1 PFS_IO_MODE_WRITE ;;;
      x <- mget m ;;
      bdev (bd_flushCache (m_fd x)) ;;;
      ret 0 in
    if mode =? PFS_MODE_SET_FLAG then
      dmod p (fun b => set32 3 (Z.lor (sb_fsckStat b) stat) b) ;;; finish
    else if mode =? PFS_MODE_REMOVE_FLAG then
      dmod p (fun b => set32 3 (Z.ldiff (sb_fsckStat b) stat) b) ;;; finish
    else
      b <- pdata p ;;
      ret (b2z (0 <? Z.land (sb_fsckStat b) stat))
  else ret 0.

(** ** cache.c *)

Definition pfsCacheLink (clink cnew : nat) : MP unit :=
  pmod cnew (pc_set_prev clink) ;;;
  c <- pget clink ;;
  pmod cnew (pc_set_next (pc_next c)) ;;;
  c <- pget clink ;;
  pmod (pc_next c) (pc_set_prev cnew) ;;;
  pmod clink (pc_set_next cnew).

Definition pfsCacheUnLink (clink : nat) : MP nat :=
  c <- pget clink ;;
  pmod (pc_prev c) (pc_set_next (pc_next c)) ;;;
  c <- pget clink ;;
  pmod (pc_next c) (pc_set_prev (pc_prev c)) ;;;
  ret clink.

Definition pfsCacheFree (p : option nat) : MP unit :=
  match p with
  | None => ret tt
  | Some clink =>
      c <- pget clink ;;
      if pc_nused c =? 0 then ret tt
      else
        pmod clink (fun c => pc_set_nused (pc_nused c - 1) c) ;;;
        c <- pget clink ;;
        match pc_mount c with
        | Some _ =>
            if nz (pc_nused c) then ret tt
            else c0 <- pget 0 ;; pfsCacheLink (pc_prev c0) clink
        | None =>
            if nz (pc_nused c) then ret tt else pfsCacheLink 0 clink
        end
  end.

Definition pfsCacheUsedAdd (clink : nat) : MP nat :=
  pmod clink (fun c => pc_set_nused (pc_nused c + 1) c) ;;; ret clink.

Definition has_flag (c : pfs_cache_t) (f : Z) : bool := nz (Z.land (pc_flags c) f).

(** What a read buffer must satisfy. *)
Definition pfsReadError (c : pfs_cache_t) : Z :=
  let err := if has_flag c PFS_CACHE_FLAG_SEGD && negb (i_magic (pc_data c) =? PFS_SEGD_MAGIC)
             then - EIO else 0 in
  let err := if has_flag c PFS_CACHE_FLAG_SEGI && negb (i_magic (pc_data c) =? PFS_SEGI_MAGIC)
             then - EIO else err in
  if has_flag c (Z.lor PFS_CACHE_FLAG_SEGD PFS_CACHE_FLAG_SEGI)
     && negb (i_checksum (pc_data c) =? pfsInodeCheckSum (pc_data c))
  then - EIO else err.

Definition pfsCacheTransfer (clink : nat) (mode : Z) : MP Z :=
  m <- pmount clink ;;
  x <- mget m ;;
  when (m_lastError x =? 0)
    (c <- pget clink ;;
     err <- buf_transfer m clink (pc_sub c) (u32 (Z.shiftl (pc_sector c) pfsBlockSize))
              (Z.shiftl 1 pfsBlockSize) mode ;;
     c <- pget clink ;;
     let err := if (err =? 0) && (mode =? PFS_IO_MODE_READ) then pfsReadError c else err in
     when (nz err)
       (bdev (bd_setPartitionError (m_fd x)) ;;;
        pfsFsckStat m clink PFS_FSCK_STAT_WRITE_ERROR PFS_MODE_SET_FLAG ;;;
        mmod m (m_set_lastError (u32 err)))) ;;;
  pclean clink ;;;
  x <- mget m ;;
  ret (s32 (m_lastError x)).

(** ** journal.c *)

Definition pfs_empty_journal : buf := set32 0 PFS_JOUNRNAL_MAGIC (zeros 256).

Definition log_start (x : pfs_mount_t) : Z := u32 (Z.shiftl (bi_number (m_log x)) (m_sector_scale x)).

(** A transfer of the journal buffer to or from the start of the log. *)
Definition journal_transfer (m : nat) (mode : Z) : MP Z :=
  x <- mget m ;;
  j <- gets pfsJournalBuf ;;
  let* (r, j') := bdev (bd_transfer (m_fd x) j 0 (log_start x) 2 mode) in
  modify (with_pjournal j') ;;;
  ret r.

Definition pfsJournalReset (m : nat) : MP Z :=
  modify (with_pjournal pfs_empty_journal) ;;;
  x <- mget m ;;
  bdev (bd_flushCache (m_fd x)) ;;;
  rv <- journal_transfer m PFS_IO_MODE_WRITE ;;
  bdev (bd_flushCache (m_fd x)) ;;;
  ret rv.

Definition pfsJournalResetThis (fd sector : Z) : MP Z :=
  modify (with_pjournal pfs_empty_journal) ;;;
  j <- gets pfsJournalBuf ;;
  let* (r, _) := bdev (bd_transfer fd j 0 sector 2 1) in
  ret r.

Definition pfsJournalFlush (m : nat) : MP Z :=
  x <- mget m ;;
  bdev (bd_flushCache (m_fd x)) ;;;
  modify (fun s => with_pjournal (set_pj_checksum (pfsJournalChecksum (pfsJournalBuf s)) (pfsJournalBuf s)) s) ;;;
  rv <- journal_transfer m PFS_IO_MODE_WRITE ;;
  bdev (bd_flushCache (m_fd x)) ;;;
  ret rv.

Definition on_mount (m : nat) (c : pfs_cache_t) : bool :=
  match pc_mount c with Some k => (k =? m)%nat | None => false end.

(** One entry of the log: buffer [i], 2 sectors at [logSector]. *)
Definition pfsJournalLog (m : nat) (i : nat) (logSector : Z) : MP unit :=
  c <- pget i ;;
  when (has_flag c PFS_CACHE_FLAG_DIRTY && on_mount m c)
    (when (has_flag c (Z.lor PFS_CACHE_FLAG_SEGD PFS_CACHE_FLAG_SEGI))
       (dmod i (fun b => set_i_checksum (pfsInodeCheckSum b) b)) ;;;
     j <- gets pfsJournalBuf ;;
     if 127 <=? pj_num j then undef
     else
       modify (with_pjournal
         (set_pj_num (pj_num j + 1)
            (set_pj_log (Z.to_nat (pj_num j)) (u32 (Z.shiftl (pc_sector c) pfsBlockSize))
               (pc_sub c) logSector j)))).

(** The data of the buffers are contiguous in memory. *)
Definition pfsJournalWrite (m : nat) : MP unit :=
  idx <- gets pcache_indices ;;
  for_ idx (fun i logSector => pfsJournalLog m i logSector ;;; ret (logSector + 2)) 2 ;;;
  x <- mget m ;;
  s <- get ;;
  let all := concat (map pc_data (drop 1 (pfsCacheBuf s))) in
  let* (r, _) := bdev (bd_transfer (m_fd x) all 0 (u32 (log_start x + 2))
                         (pfsCacheNumBuffers s * 2) PFS_IO_MODE_WRITE) in
  when (0 <=? r) (pfsJournalFlush m ;;; ret tt).

(** ** cache.c, continued *)

Definition dirty_of (m : nat) (c : pfs_cache_t) : bool := on_mount m c && has_flag c PFS_CACHE_FLAG_DIRTY.

Definition pfsCacheFlushAllDirty (m : nat) : MP unit :=
  idx <- gets pcache_indices ;;
  found <- for_ idx (fun i found => c <- pget i ;; ret (found || dirty_of m c)) false ;;
  when found
    (pfsJournalWrite m ;;;
     for_ idx (fun i (_ : unit) =>
       c <- pget i ;;
       when (dirty_of m c) (pfsCacheTransfer i 1 ;;; ret tt)) tt) ;;;
  pfsJournalReset m ;;;
  ret tt.

Definition pfsCacheIsFull : MP bool :=
  c0 <- pget 0 ;;
  if negb (pc_prev c0 =? 0)%nat then ret false
  else t <- pget (pc_prev c0) ;; ret (pc_next t =? pc_prev c0)%nat.

(** Result: the buffer and [*result] where it is written. *)
Definition pfsCacheAlloc (m : option nat) (sub scale flags : Z) : MP (option nat * option Z) :=
  full <- pfsCacheIsFull ;;
  if full : bool then ret (None, Some (- ENOMEM))
  else
    c0 <- pget 0 ;;
    let allocated := pc_next c0 in
    c <- pget allocated ;;
    match pc_mount c with
    | Some k => when (has_flag c PFS_CACHE_FLAG_DIRTY) (pfsCacheFlushAllDirty k)
    | None => ret tt
    end ;;;
    pmod allocated (pc_set_flags (Z.land flags PFS_CACHE_FLAG_MASKTYPE)) ;;;
    pmod allocated (pc_set_mount m) ;;;
    pmod allocated (pc_set_sub sub) ;;;
    pmod allocated (pc_set_sector scale) ;;;
    pmod allocated (pc_set_nused 1) ;;;
    p <- pfsCacheUnLink allocated ;;
    ret (Some p, None).

Definition pcacheLookup (m : nat) (sub sector : Z) : MP (option nat) :=
  idx <- gets pcache_indices ;;
  r <- for_break idx (fun i (_ : unit) =>
         c <- pget i ;;
         if on_mount m c && (pc_sector c =? sector) && (pc_sub c =? sub) then ret (inr i)
         else ret (inl tt)) tt ;;
  match r with inl _ => ret None | inr i => ret (Some i) end.

Definition pfsCacheGetData (m : nat) (sub sector flags : Z) : MP (option nat * Z) :=
  let sub := u16 sub in
  found <- pcacheLookup m sub sector ;;
  match found with
  | Some i =>
      pmod i (fun c => pc_set_flags (Z.land (pc_flags c) PFS_CACHE_FLAG_MASKSTATUS) c) ;;;
      pmod i (fun c => pc_set_flags (Z.lor (pc_flags c) (Z.land flags PFS_CACHE_FLAG_MASKTYPE)) c) ;;;
      c <- pget i ;;
      when (pc_nused c =? 0) (pfsCacheUnLink i ;;; ret tt) ;;;
      pmod i (fun c => pc_set_nused (pc_nused c + 1) c) ;;;
      ret (Some i, 0)
  | None =>
      let* (clink, res) := pfsCacheAlloc (Some m) sub sector flags in
      match clink with
      | None => ret (None, default 0 res)
      | Some p =>
          if nz (Z.land flags PFS_CACHE_FLAG_NOLOAD) then ret (Some p, 0)
          else
            result <- pfsCacheTransfer p PFS_IO_MODE_READ ;;
            if 0 <=? result then ret (Some p, result)
            else
              pmod p (pc_set_mount None) ;;;
              pfsCacheFree (Some p) ;;;
              ret (None, result)
      end
  end.

Definition pfsCacheAllocClean : MP (option nat * Z) :=
  let* (p, res) := pfsCacheAlloc None 0 0 0 in ret (p, default 0 res).

Definition pfsCacheInit (numBuf bufSize : Z) : MP Z :=
  if 127 <? numBuf then ret (- EINVAL)
  else
    cacheData <- pfsAllocMem ;;
    match cacheData with
    | None => ret (- ENOMEM)
    | Some mem =>
        cb <- pfsAllocMem ;;
        match cb with
        | None => modify (with_pcache []) ;;; ret (- ENOMEM)
        | Some _ =>
            modify (with_numBuffers numBuf) ;;;
            modify (with_pcache (replicate (S (Z.to_nat numBuf)) (mkPc 0 0 0 0 None 0 0 []))) ;;;
            for_ (seq 1 (Z.to_nat numBuf))
              (fun i (_ : unit) =>
                 let n := Z.to_nat (bufSize / 4) in
                 pmod i (pc_set_data (take n (drop ((i - 1) * n) mem ++ zeros n))) ;;;
                 c0 <- pget 0 ;;
                 pfsCacheLink (pc_prev c0) i) tt ;;;
            ret 0
        end
    end.

Definition pfsCacheClose (m : nat) : MP unit :=
  pfsCacheFlushAllDirty m ;;;
  idx <- gets pcache_indices ;;
  for_ idx (fun i (_ : unit) =>
    c <- pget i ;;
    when (on_mount m c) (pmod i (pc_set_mount None))) tt.

Definition pfsCacheMarkClean (m : nat) (subpart sectorStart sectorEnd : Z) : MP unit :=
  idx <- gets pcache_indices ;;
  for_ idx (fun i (_ : unit) =>
    c <- pget i ;;
    when (on_mount m c && (pc_sub c =? subpart) && (sectorStart <=? pc_sector c)
          && (pc_sector c <? sectorEnd))
      (pclean i)) tt.

(** [pfsJournalRestore] of journal.c. *)
Definition pfsJournalRestore (m : nat) : MP Z :=
  rv <- journal_transfer m PFS_IO_MODE_READ ;;
  j <- gets pfsJournalBuf ;;
  if nz rv || negb (get32 j 0 =? PFS_JOUNRNAL_MAGIC)
     || negb (pj_checksum j =? u16 (pfsJournalChecksum j)) then pfsJournalReset m
  else if pj_num j =? 0 then pfsJournalReset m
  else
    let* (clink, result) := pfsCacheAllocClean in
    match clink with
    | None => ret result
    | Some p =>
        for_ (seq 0 (Z.to_nat (pj_num j)))
          (fun i (_ : unit) =>
             if (127 <=? i)%nat then undef
             else
               x <- mget m ;;
               rv <- buf_transfer m p 0 (u32 (log_start x + pj_logSector j i)) 2 PFS_IO_MODE_READ ;;
               when (rv =? 0)
                 (buf_transfer m p (pj_sub j i) (pj_sector j i) 2 PFS_IO_MODE_WRITE ;;; ret tt)) tt ;;;
        pfsCacheFree (Some p) ;;;
        pfsJournalReset m
    end.
End Cache.
