(* ===== verification/PfsBitmap.v ===== *)
(** * PfsBitmap: the zone bitmaps of libpfs

    iop/hdd/libpfs/src/bitmap.c.  Each partition of a file system has a bitmap
    with one bit per zone, held in chunks of 8192 bits (one cache buffer); a
    set bit is a used zone.  The loops over the words and bits of a chunk are
    functions on the buffer; the loops over chunks go through the cache. *)

From stdpp Require Import base numbers list gmap.
From Stdlib Require Import ZArith Lia.
From S2P Require Import Prelude ApaState ApaCache PfsState PfsCache.

Open Scope Z_scope.
Open Scope c_scope.

(** ** Words and bits of a chunk *)

(** [for(bit=_bit; bit<32 && count; bit++, count--)] on one word; [n] is
    [32 - bit]. *)
Fixpoint markBits (operation : Z) (n : nat) (bit count w : Z) : Z * Z :=
  match n with
  | O => (w, count)
  | S n' =>
      if count =? 0 then (w, count)
      else
        let w' := if operation =? PFS_BITMAP_ALLOC then Z.lor w (Z.shiftl 1 bit)
                  else Z.ldiff w (Z.shiftl 1 bit) in
        markBits operation n' (bit + 1) (count - 1) w'
  end.

(** [for( ; index<pfsMetaSize/4 && count; index++, _bit=0)] *)
Fixpoint markChunk (operation : Z) (idx : list nat) (bit count : Z) (b : buf) : buf * Z :=
  match idx with
  | [] => (b, count)
  | i :: idx' =>
      if count =? 0 then (b, count)
      else
        let '(w, count') := markBits operation (Z.to_nat (32 - bit)) bit count (get32 b i) in
        markChunk operation idx' 0 count' (set32 i w b)
  end.

(** Indices of words [a .. e-1]. *)
Definition words (a e : Z) : list nat := seq (Z.to_nat a) (Z.to_nat (e - a)).

Definition bit_used (w bit : Z) : bool := nz (Z.land w (Z.shiftl 1 bit)).

(** Extending a run of free zones: the innermost loop of
    [pfsBitmapAllocateAdditionalZones].  The boolean tells that a used zone
    was met. *)
Fixpoint extendBits (n : nat) (bit count res w : Z) : Z * Z * Z * bool :=
  match n with
  | O => (w, count, res, false)
  | S n' =>
      if count =? 0 then (w, count, res, false)
      else if bit_used w bit then (w, count, res, true)
      else extendBits n' (bit + 1) (count - 1) (res + 1) (Z.lor w (Z.shiftl 1 bit))
  end.

Fixpoint extendWords (idx : list nat) (bit count res : Z) (b : buf) : buf * Z * Z * bool :=
  match idx with
  | [] => (b, count, res, false)
  | i :: idx' =>
      if count =? 0 then (b, count, res, false)
      else
        let '(w, count', res', stop) :=
          extendBits (Z.to_nat (32 - bit)) bit count res (get32 b i) in
        let b' := set32 i w b in
        if stop : bool then (b', count', res', true)
        else extendWords idx' 0 count' res' b'
  end.

(** Looking for [amount] free zones in a row: the run so far is [count] zones
    from [start] (chunk, word, bit). *)
Fixpoint scanBits (n : nat) (bit amount : Z) (here : Z -> Z * Z * Z) (w count : Z) (start : Z * Z * Z)
  : (Z * (Z * Z * Z)) + (Z * (Z * Z * Z)) :=
  match n with
  | O => inl (count, start)
  | S n' =>
      if Z.land (Z.shiftr w bit) 1 =? 0 then
        let start' := if count =? 0 then here bit else start in
        if count + 1 =? amount then inr (count + 1, start')
        else scanBits n' (bit + 1) amount here w (count + 1) start'
      else scanBits n' (bit + 1) amount here w 0 start
  end.

Fixpoint scanWords (idx : list nat) (chunk bit amount : Z) (b : buf) (count : Z) (start : Z * Z * Z)
  : (Z * (Z * Z * Z)) + (Z * (Z * Z * Z)) :=
  match idx with
  | [] => inl (count, start)
  | i :: idx' =>
      match scanBits (Z.to_nat (32 - bit)) bit amount (fun b => (chunk, Z.of_nat i, b))
              (get32 b i) count start with
      | inl (count', start') => scanWords idx' chunk 0 amount b count' start'
      | inr r => inr r
      end
  end.

(** Free zones of a byte, four bits at a time. *)
Definition pfsFreeZoneBitmap : list Z := [4; 3; 3; 2; 3; 2; 2; 1; 3; 2; 2; 1; 2; 1; 1; 0].
Definition freeOfByte (x : Z) : Z :=
  nth (Z.to_nat (Z.land x 15)) pfsFreeZoneBitmap 0 + nth (Z.to_nat (Z.shiftr x 4)) pfsFreeZoneBitmap 0.
Definition freeOfChunk (b : buf) (bitmapSize : Z) (zoneFree : Z) : Z :=
  foldl (fun z i => u32 (z + freeOfByte (get8 b i))) zoneFree (seq 0 (Z.to_nat bitmapSize)).

Record pfs_bitmapInfo_t := mkInfo {
  bm_chunk : Z;
  bm_index : Z;
  bm_bit : Z;
  bm_partitionChunks : Z;
  bm_partitionRemainder : Z
}.

(** The bound of the loops over chunks. *)
Definition chunkEnd (info : pfs_bitmapInfo_t) : Z :=
  if bm_partitionRemainder info =? 0 then bm_partitionChunks info else bm_partitionChunks info + 1.

(** The chunks from [info.chunk] on. *)
Definition chunksFrom (info : pfs_bitmapInfo_t) : list Z :=
  range (bm_chunk info) (Z.to_nat (chunkEnd info - bm_chunk info)).

(** Words of the chunk that stand for zones. *)
Definition chunkWords (info : pfs_bitmapInfo_t) (chunk : Z) : Z :=
  if chunk =? bm_partitionChunks info then bm_partitionRemainder info / 32 else pfsMetaSize / 4.

Section Bitmap.
Context {D : Type} `{BlockDevice D}.
Notation MP := (M (pfs_st D)).

Definition pfsBitmapSetupInfo (m : nat) (subpart number : Z) : MP pfs_bitmapInfo_t :=
  x <- mget m ;;
  sz <- bdev (bd_getSize (m_fd x) subpart) ;;
  let size := Z.shiftr (u32 sz) (m_sector_scale x) in
  ret (mkInfo (number / pfsBitsPerBitmapChunk) ((number mod pfsBitsPerBitmapChunk) / 32)
         (Z.land number 31) (size / pfsBitsPerBitmapChunk) (size mod pfsBitsPerBitmapChunk)).

(** The block of bitmap chunk [chunk] of partition [subpart]. *)
Definition bitmapSector (m : nat) (subpart chunk : Z) : MP Z :=
  x <- mget m ;;
  let sector := Z.shiftl 1 (m_inode_scale x) + chunk in
  ret (u32 (if subpart =? 0 then sector + Z.shiftr 0x2000 pfsBlockSize else sector)).

Definition getBitmap (m : nat) (subpart chunk : Z) : MP (option nat) :=
  sector <- bitmapSector m subpart chunk ;;
  let* (c, _) := pfsCacheGetData m subpart sector PFS_CACHE_FLAG_BITMAP in
  ret c.

Definition allocFreeStep (operation subpart : Z)
  : option nat * Z * Z * Z * Z -> MP ((option nat * Z * Z * Z * Z) + unit) :=
  fun '(clink, chunk, index, bit, count) =>
  match clink with
  | None => ret (inr tt)
  | Some p =>
      b <- pdata p ;;
      let '(b', count') := markChunk operation (words index (pfsMetaSize / 4)) bit count b in
      dmod p (fun _ => b') ;;;
      pdirty p ;;;
      pfsCacheFree (Some p) ;;;
      if count' =? 0 then ret (inr tt)
      else
        m <- pmount p ;;
        c <- getBitmap m subpart (chunk + 1) ;;
        ret (inl (c, chunk + 1, 0, 0, count'))
  end.

(** Every round but the first marks 8192 bits. *)
Definition pfsBitmapAllocFree (clink : option nat) (operation subpart chunk index bit count : Z)
  : MP unit :=
  while_ (S (S (Z.to_nat count))) (allocFreeStep operation subpart) (clink, chunk, index, bit, count).

Definition pfsBitmapAllocateAdditionalZones (m : nat) (bi : pfs_blockinfo_t) (count : Z) : MP Z :=
  info <- pfsBitmapSetupInfo m (bi_subpart bi) (u32 (bi_number bi + bi_count bi)) ;;
  let count := if 65535 - bi_count bi <? count then 65535 - bi_count bi else count in
  r <- for_break (chunksFrom info)
         (fun chunk '(index, bit, count, res) =>
            if count =? 0 then ret (inr res)
            else
              c <- getBitmap m (bi_subpart bi) chunk ;;
              match c with
              | None => ret (inr res)
              | Some p =>
                  b <- pdata p ;;
                  let '(b', count', res', stop) :=
                    extendWords (words index (chunkWords info chunk)) bit count res b in
                  dmod p (fun _ => b') ;;;
                  when (res <? res') (pdirty p) ;;;
                  pfsCacheFree (Some p) ;;;
                  if stop : bool then ret (inr res')
                  else ret (inl (0, if index <? chunkWords info chunk then 0 else bit, count', res'))
              end)
         (bm_index info, bm_bit info, count, 0) ;;
  let res := match r with inl (_, _, _, res) => res | inr res => res end in
  add_free m (bi_subpart bi) (- res) ;;;
  ret res.

(** A run was found from (chunk, word, bit). *)
Definition takeRun (m p : nat) (bi : pfs_blockinfo_t) (count : Z) (start : Z * Z * Z)
  : MP (Z * pfs_blockinfo_t) :=
  let '(startChunk, startPos, startBit) := start in
  let bi' := mkBi (u32 (startPos * 32 + startChunk * pfsBitsPerBitmapChunk + startBit))
               (bi_subpart bi) (if count <? bi_count bi then count else bi_count bi) in
  x <- mget m ;;
  c <- pget p ;;
  q <- (if negb (pc_sector c =? u32 (startChunk + Z.shiftl 1 (m_inode_scale x))) then
          pfsCacheFree (Some p) ;;;
          getBitmap m (bi_subpart bi) startChunk
        else ret (Some p)) ;;
  pfsBitmapAllocFree q PFS_BITMAP_ALLOC (bi_subpart bi) startChunk startPos startBit (bi_count bi') ;;;
  ret (1, bi').

(** Result, and [*bi]. *)
Definition pfsBitmapAllocZones (m : nat) (bi : pfs_blockinfo_t) (amount : Z) : MP (Z * pfs_blockinfo_t) :=
  info <- pfsBitmapSetupInfo m (bi_subpart bi) (bi_number bi) ;;
  r <- for_break (chunksFrom info)
         (fun chunk '(index, bit, count, start) =>
            c <- getBitmap m (bi_subpart bi) chunk ;;
            match c with
            | None => ret (inr (0, bi))
            | Some p =>
                b <- pdata p ;;
                match scanWords (words index (chunkWords info chunk)) chunk bit amount b count start with
                | inr (count', start') =>
                    x <- takeRun m p bi count' start' ;; ret (inr x)
                | inl (count', start') =>
                    pfsCacheFree (Some p) ;;;
                    ret (inl (0, if (index <? chunkWords info chunk) then 0 else bit, count', start'))
                end
            end)
         (bm_index info, bm_bit info, 0, (0, 0, 0)) ;;
  match r with inl _ => ret (0, bi) | inr x => ret x end.

(** [for(n = count; n; n /= 2)]: the first [n] that can be allocated. *)
Fixpoint tryHalves (fuel : nat) (m : nat) (bi : pfs_blockinfo_t) (n : Z) : MP (bool * pfs_blockinfo_t) :=
  match fuel with
  | O => nofuel
  | S k =>
      if n =? 0 then ret (false, bi)
      else
        x <- mget m ;;
        match free_zone x (bi_subpart bi) with
        | None => undef
        | Some fz =>
            if n <=? fz then
              let* (ok, bi') := pfsBitmapAllocZones m bi n in
              if nz ok then
                add_free m (bi_subpart bi') (- bi_count bi') ;;;
                ret (true, bi')
              else tryHalves k m bi' (n / 2)
            else tryHalves k m bi (n / 2)
        end
  end.

(** One round of [for(--num; num >= 0; num--)]; [num] is unsigned, so that
    the loop has no other exit than success. *)
Definition searchStep (m : nat) (count : Z)
  : Z * pfs_blockinfo_t -> MP ((Z * pfs_blockinfo_t) + (Z * pfs_blockinfo_t)) :=
  fun '(num, bi) =>
  if 0 <=? num then
    let* (ok, bi') := tryHalves 33 m bi count in
    if ok : bool then ret (inr (0, bi'))
    else
      x <- mget m ;;
      let subpart := u16 (bi_subpart bi' + 1) in
      let subpart := if subpart =? m_num_subs x + 1 then 0 else subpart in
      ret (inl (u32 (num - 1), mkBi 0 subpart (bi_count bi')))
  else ret (inr (- ENOSPC, bi)).

Definition pfsBitmapSearchFreeZone (fuel : nat) (m : nat) (bi : pfs_blockinfo_t) (max_count : Z)
  : MP (Z * pfs_blockinfo_t) :=
  x <- mget m ;;
  let num := u32 (m_num_subs x + 1) in
  let bi := if num <=? bi_subpart bi then mkBi (bi_number bi) 0 (bi_count bi) else bi in
  let num := if nz (bi_number bi) then u32 (m_num_subs x + 2) else num in
  let count := if max_count <? 33 then max_count else 32 in
  let count := if count <? bi_count bi then bi_count bi else count in
  while_ fuel (searchStep m count) (u32 (num - 1), bi).

Definition pfsBitmapFreeBlockSegment (m : nat) (bi : pfs_blockinfo_t) : MP unit :=
  info <- pfsBitmapSetupInfo m (bi_subpart bi) (bi_number bi) ;;
  clink <- getBitmap m (bi_subpart bi) (bm_chunk info) ;;
  match clink with
  | None => ret tt
  | Some p =>
      pfsBitmapAllocFree (Some p) PFS_BITMAP_FREE (bi_subpart bi) (bm_chunk info) (bm_index info)
        (bm_bit info) (bi_count bi) ;;;
      add_free m (bi_subpart bi) (bi_count bi)
  end.

Definition pfsBitmapCalcFreeZones (m : nat) (sub : Z) : MP Z :=
  info <- pfsBitmapSetupInfo m sub 0 ;;
  for_ (chunksFrom info)
    (fun chunk zoneFree =>
       let bitmapSize := if chunk =? bm_partitionChunks info
                         then Z.shiftr (bm_partitionRemainder info) 3 else pfsMetaSize in
       clink <- getBitmap m sub chunk ;;
       match clink with
       | None => ret zoneFree
       | Some p =>
           b <- pdata p ;;
           pfsCacheFree (Some p) ;;;
           ret (freeOfChunk b bitmapSize zoneFree)
       end) 0.

(** The cache traffic of [pfsBitmapShow] (what it prints is not modelled). *)
Definition pfsBitmapShow (m : nat) : MP unit :=
  x <- mget m ;;
  for_ (range 0 (Z.to_nat (m_num_subs x + 1)))
    (fun pn (_ : unit) =>
       info <- pfsBitmapSetupInfo m pn 0 ;;
       for_ (chunksFrom info)
         (fun chunk (_ : unit) =>
            clink <- getBitmap m pn chunk ;;
            match clink with
            | None => undef
            | Some p => pfsCacheFree (Some p)
            end) tt) tt.
End Bitmap.
