(* ===== verification/PfsInode.v ===== *)
(** * PfsInode: block positions, inodes and segments of libpfs

    iop/hdd/libpfs/src/block.c, blockWrite.c and inode.c, with the zone
    allocation of dir.c and [pfsBitmapFreeInodeBlocks] of bitmap.c.  The zones
    of a file are listed as block segments in its inode (114 entries) and in a
    chain of segment descriptors (123 entries each); entry 0 of each is the
    descriptor's own zone. *)

From stdpp Require Import base numbers list gmap.
From Stdlib Require Import ZArith Lia.
From S2P Require Import Prelude ApaState ApaCache PfsState PfsCache PfsBitmap.

Open Scope Z_scope.
Open Scope c_scope.

(** Entry [pfsFixIndex(segment)] of a descriptor. *)
Definition seg_entry (segment : Z) : nat := Z.to_nat (pfsFixIndex segment).

Section Inode.
Context {D : Type} `{BlockDevice D}.
Notation MP := (M (pfs_st D)).

(** ** block.c *)

(** The descriptor after that in [clink]; the buffer is released first. *)
Definition pfsBlockGetNextSegment (clink : nat) : MP (option nat * Z) :=
  pfsCacheFree (Some clink) ;;;
  b <- pdata clink ;;
  if nz (bi_number (i_next_segment b)) then
    m <- pmount clink ;;
    x <- mget m ;;
    pfsCacheGetData m (bi_subpart (i_next_segment b))
      (u32 (Z.shiftl (bi_number (i_next_segment b)) (m_inode_scale x))) PFS_CACHE_FLAG_SEGI
  else ret (None, - EINVAL).

Definition pfsBlockSeekNextSegment (clink : nat) (bp : pfs_blockpos_t) : MP (Z * pfs_blockpos_t) :=
  if nz (bp_byte bp) then ret (-1, bp)
  else if pfsFixIndex (u32 (bp_segment bp + 1)) =? 0 then
    pfsCacheUsedAdd (bp_inode bp) ;;;
    let* (nextSegment, result) := pfsBlockGetNextSegment (bp_inode bp) in
    match nextSegment with
    | None => ret (result, bp)
    | Some q =>
        pfsCacheFree (Some (bp_inode bp)) ;;;
        b <- pdata clink ;;
        let seg := u32 (bp_segment bp + 1) in
        if u32 (i_number_data b - 1) =? seg then ret (- EINVAL, mkBp q seg (bp_offset bp) (bp_byte bp))
        else ret (result, mkBp q (u32 (seg + 1)) 0 (bp_byte bp))
    end
  else ret (0, mkBp (bp_inode bp) (u32 (bp_segment bp + 1)) 0 (bp_byte bp)).

(** Zones to advance by, and the position with its new byte offset. *)
Definition pfsBlockSyncPos (bp : pfs_blockpos_t) (size : Z) : MP (Z * pfs_blockpos_t) :=
  m <- pmount (bp_inode bp) ;;
  x <- mget m ;;
  if m_zsize x =? 0 then undef
  else
    let i := u32 (size / m_zsize x) in
    let byte := u32 (bp_byte bp + size mod m_zsize x) in
    if m_zsize x <=? byte then
      ret (u32 (i + 1), mkBp (bp_inode bp) (bp_segment bp) (bp_offset bp) (byte - m_zsize x))
    else ret (i, mkBp (bp_inode bp) (bp_segment bp) (bp_offset bp) byte).

(** ** inode.c *)

Definition pfsInodeGetData (m : nat) (sub inode : Z) : MP (option nat * Z) :=
  x <- mget m ;;
  pfsCacheGetData m sub (u32 (Z.shiftl inode (m_inode_scale x))) PFS_CACHE_FLAG_SEGD.

Definition pfsInodeSetTime (clink : nat) : MP unit :=
  t <- pfsGetTime ;;
  dmod clink (set_i_mtime t) ;;;
  dmod clink (set_i_ctime t) ;;;
  dmod clink (set_i_atime t) ;;;
  pdirty clink.

(** One round of the loop of [pfsInodeSync]; [i] zones remain.  The position
    keeps its old descriptor when there is no next one ([blockpos->inode] is
    NULL in the code, and the caller gives the position up). *)
Definition syncStep (used_segments : Z)
  : Z * pfs_blockpos_t -> MP ((Z * pfs_blockpos_t) + (Z * option nat * pfs_blockpos_t)) :=
  fun '(i, bp) =>
  if i =? 0 then ret (inr (0, Some (bp_inode bp), bp))
  else
    b <- pdata (bp_inode bp) ;;
    let count := bi_count (i_data b (seg_entry (bp_segment bp))) in
    let i := u32 (i + bp_offset bp) in
    if i <? count then
      ret (inr (0, Some (bp_inode bp), mkBp (bp_inode bp) (bp_segment bp) i (bp_byte bp)))
    else
      let i := i - count in
      let last := u32 (bp_segment bp + 1) =? used_segments in
      if last && (nz i || nz (bp_byte bp)) then
        ret (inr (- EINVAL, Some (bp_inode bp), mkBp (bp_inode bp) (bp_segment bp) count (bp_byte bp)))
      else
        let bp := if last then mkBp (bp_inode bp) (bp_segment bp) count (bp_byte bp)
                  else mkBp (bp_inode bp) (u32 (bp_segment bp + 1)) 0 (bp_byte bp) in
        if nz (pfsFixIndex (bp_segment bp)) then ret (inl (i, bp))
        else
          let* (q, result) := pfsBlockGetNextSegment (bp_inode bp) in
          match q with
          | None => ret (inr (result, None, bp))
          | Some p => ret (inl (u32 (i + 1), mkBp p (bp_segment bp) (bp_offset bp) (bp_byte bp)))
          end.

(** Result, whether [blockpos->inode] is not NULL, and the position. *)
Definition pfsInodeSync (fuel : nat) (bp : pfs_blockpos_t) (size used_segments : Z)
  : MP (Z * option nat * pfs_blockpos_t) :=
  let* (i, bp) := pfsBlockSyncPos bp size in
  while_ fuel (syncStep used_segments) (i, bp).

Definition pfsBlockInitPos (fuel : nat) (clink : nat) (position : Z) : MP (Z * option nat * pfs_blockpos_t) :=
  pfsCacheUsedAdd clink ;;;
  b <- pdata clink ;;
  let bp := if nz (i_size b) then mkBp clink 1 0 0 else mkBp clink 0 1 0 in
  pfsInodeSync fuel bp position (i_number_data b).

Definition pfsGetDentriesChunk (bp : pfs_blockpos_t) : MP (option nat * Z) :=
  m <- pmount (bp_inode bp) ;;
  x <- mget m ;;
  b <- pdata (bp_inode bp) ;;
  let bi := i_data b (seg_entry (bp_segment bp)) in
  pfsCacheGetData m (bi_subpart bi)
    (u32 (Z.shiftl (bi_number bi + bp_offset bp) (m_inode_scale x) + bp_byte bp / pfsMetaSize))
    PFS_CACHE_FLAG_NOTHING.

(** The chunk and the offset in it. *)
Definition pfsGetDentriesAtPos (fuel : nat) (clink : nat) (position : Z) : MP (option nat * Z * Z) :=
  let* (result, q, bp) := pfsBlockInitPos fuel clink position in
  if nz result then ret (None, 0, result)
  else
    let* (r, result) := pfsGetDentriesChunk bp in
    pfsCacheFree (Some (bp_inode bp)) ;;;
    ret (r, bp_byte bp mod pfsMetaSize, result).

(** ** blockWrite.c *)

Definition pfsBlockExpandSegment (clink : nat) (bp : pfs_blockpos_t) (count : Z) : MP Z :=
  if pfsFixIndex (bp_segment bp) =? 0 then ret 0
  else
    b <- pdata (bp_inode bp) ;;
    let e := seg_entry (bp_segment bp) in
    m <- pmount clink ;;
    r <- pfsBitmapAllocateAdditionalZones m (i_data b e) count ;;
    when (nz r)
      (dmod (bp_inode bp) (fun b =>
         set_i_data e (mkBi (bi_number (i_data b e)) (bi_subpart (i_data b e))
                         (bi_count (i_data b e) + r)) b) ;;;
       dmod clink (fun b => set_i_number_blocks (i_number_blocks b + r) b) ;;;
       pdirty (bp_inode bp) ;;;
       pdirty clink) ;;;
    ret r.

Definition pfsBlockGetLastSegmentDescriptorInode (clink : nat) : MP (option nat * Z) :=
  m <- pmount clink ;;
  x <- mget m ;;
  b <- pdata clink ;;
  let l := i_last_segment b in
  let o := i_inode_block b in
  pfsCacheGetData m (bi_subpart l) (u32 (Z.shiftl (bi_number l) (m_inode_scale x)))
    (if (bi_subpart l =? bi_subpart o) && (bi_number l =? bi_number o) then 16 else 32).

(** The zone a new segment is looked for from. *)
Definition afterSegment (bp : pfs_blockpos_t) (count : Z) : MP pfs_blockinfo_t :=
  b <- pdata (bp_inode bp) ;;
  let bi2 := i_data b (seg_entry (bp_segment bp)) in
  ret (mkBi (u32 (bi_number bi2 + bi_count bi2)) (bi_subpart bi2) (u16 count)).

(** A new indirect segment descriptor, in zone [bi]. *)
Definition newDescriptor (m clink : nat) (bp : pfs_blockpos_t) (bi : pfs_blockinfo_t) : MP pfs_blockpos_t :=
  x <- mget m ;;
  let* (c2, _) := pfsCacheGetData m (bi_subpart bi) (u32 (Z.shiftl (bi_number bi) (m_inode_scale x)))
                    (Z.lor PFS_CACHE_FLAG_SEGI PFS_CACHE_FLAG_NOLOAD) in
  match c2 with
  | None => undef
  | Some clink2 =>
      bi0 <- pdata clink ;;
      bl <- pdata (bp_inode bp) ;;
      dmod clink2 (fun _ =>
        set_i_data 0 bi (set_i_last_segment (i_data bl 0)
          (set_i_inode_block (i_inode_block bi0) (set_i_magic PFS_SEGI_MAGIC (zeros 256))))) ;;;
      pdirty clink2 ;;;
      dmod clink (fun b => set_i_number_blocks (i_number_blocks b + bi_count bi) b) ;;;
      dmod clink (fun b => set_i_number_data (i_number_data b + 1) b) ;;;
      dmod clink (set_i_last_segment bi) ;;;
      dmod clink (fun b => set_i_number_segdesg (i_number_segdesg b + 1) b) ;;;
      pdirty clink ;;;
      dmod (bp_inode bp) (set_i_next_segment bi) ;;;
      pdirty (bp_inode bp) ;;;
      pfsCacheFree (Some (bp_inode bp)) ;;;
      ret (mkBp clink2 (u32 (bp_segment bp + 1)) 0 (bp_byte bp))
  end.

Definition pfsBlockAllocNewSegment (fuel : nat) (clink : nat) (bp : pfs_blockpos_t) (blocks : Z)
  : MP (Z * pfs_blockpos_t) :=
  m <- pmount clink ;;
  full <- pfsCacheIsFull ;;
  if full : bool then ret (- ENOMEM, bp)
  else
    b <- pdata clink ;;
    r <- (if pfsFixIndex (i_number_data b) =? 0 then
            bi <- afterSegment bp 1 ;;
            let* (result, bi) := pfsBitmapSearchFreeZone fuel m bi (i_number_blocks b) in
            if result <? 0 then ret (inr result)
            else bp <- newDescriptor m clink bp bi ;; ret (inl bp)
          else ret (inl bp)) ;;
    match r with
    | inr result => ret (result, bp)
    | inl bp =>
        bi <- afterSegment bp blocks ;;
        b <- pdata clink ;;
        let* (result, bi) := pfsBitmapSearchFreeZone fuel m bi (i_number_blocks b) in
        if result <? 0 then ret (result, bp)
        else
          dmod clink (fun b => set_i_number_blocks (i_number_blocks b + bi_count bi) b) ;;;
          dmod clink (fun b => set_i_number_data (i_number_data b + 1) b) ;;;
          pdirty clink ;;;
          let bp := mkBp (bp_inode bp) (u32 (bp_segment bp + 1)) 0 (bp_byte bp) in
          b <- pdata clink ;;
          dmod (bp_inode bp) (set_i_data (seg_entry (u32 (i_number_data b - 1))) bi) ;;;
          pdirty (bp_inode bp) ;;;
          let left := u32 (blocks - bi_count bi) in
          if nz left then
            e <- pfsBlockExpandSegment clink bp left ;;
            ret (s32 (blocks - (left - e)), bp)
          else ret (s32 blocks, bp)
    end.

Definition pfsBlockGetCurrent (bp : pfs_blockpos_t) : MP pfs_blockinfo_t :=
  b <- pdata (bp_inode bp) ;;
  ret (i_data b (seg_entry (bp_segment bp))).

(** ** Zones of a file: dir.c and bitmap.c *)

Definition allocZonesStep (fuel : nat) (clink : nat)
  : Z * Z * pfs_blockpos_t -> MP ((Z * Z * pfs_blockpos_t) + (Z * pfs_blockpos_t)) :=
  fun '(val, result, bp) =>
  if nz val then
    let* (result, bp) := pfsBlockAllocNewSegment fuel clink bp val in
    if 0 <=? result then ret (inl (u32 (val - result), 0, bp)) else ret (inr (result, bp))
  else ret (inr (result, bp)).

Definition pfsAllocZones (fuel : nat) (clink : nat) (msize mode : Z) : MP Z :=
  m <- pmount clink ;;
  x <- mget m ;;
  if m_zsize x =? 0 then undef
  else
    b <- pdata clink ;;
    let zsize := m_zsize x in
    let val := u32 (Z.land (msize - 1 + zsize) (- zsize) / zsize) in
    if (mode =? 0) &&
       (i_size b + msize <=? u64 (u32 (i_number_blocks b - i_number_segdesg b) * zsize))
    then ret 0
    else
      let* (last, result) := pfsBlockGetLastSegmentDescriptorInode clink in
      match last with
      | None => ret result
      | Some q =>
          let bp := mkBp q (u32 (i_number_data b - 1)) 0 0 in
          e <- pfsBlockExpandSegment clink bp val ;;
          let* (result, bp) := while_ fuel (allocZonesStep fuel clink) (u32 (val - e), 0, bp) in
          pfsCacheFree (Some (bp_inode bp)) ;;;
          ret result
      end.

Definition freeSegment (m : nat) (bi : pfs_blockinfo_t) : MP unit :=
  pfsBitmapFreeBlockSegment m bi ;;;
  x <- mget m ;;
  pfsCacheMarkClean m (bi_subpart bi) (u32 (Z.shiftl (bi_number bi) (m_inode_scale x)))
    (u32 (Z.shiftl (bi_number bi + bi_count bi) (m_inode_scale x))).

(** One round of the loop of [pfsBitmapFreeInodeBlocks]: the bound is read
    from the descriptor at hand, and [bi] points into the descriptor held
    before moving to the next one. *)
Definition freeBlocksStep (m : nat) : Z * nat -> MP ((Z * nat) + option nat) :=
  fun '(i, clink) =>
  b <- pdata clink ;;
  if i <? i_number_data b then
    let index := pfsFixIndex i in
    next <- (if nz i && (index =? 0) then let* (q, _) := pfsBlockGetNextSegment clink in ret q
             else ret (Some clink)) ;;
    match next with
    | None => ret (inr None)
    | Some clink' =>
        b <- pdata clink ;;
        freeSegment m (i_data b (Z.to_nat index)) ;;;
        ret (inl (u32 (i + 1), clink'))
    end
  else ret (inr (Some clink)).

Definition pfsBitmapFreeInodeBlocks (fuel : nat) (clink : nat) : MP unit :=
  m <- pmount clink ;;
  pfsCacheUsedAdd clink ;;;
  r <- while_ fuel (freeBlocksStep m) (0, clink) ;;
  match r with
  | None => ret tt
  | Some clink => pfsCacheFree (Some clink)
  end.

(** First loop of [pfsFreeZones]: the segments to keep.  State: [i], [j],
    the descriptor, the number of descriptors and the run to free. *)
Definition keepStep (limit : Z)
  : Z * Z * nat * Z * pfs_blockinfo_t ->
    MP ((Z * Z * nat * Z * pfs_blockinfo_t) + option (Z * nat * Z * pfs_blockinfo_t)) :=
  fun '(i, j, clink, nsd, b) =>
  if (i <? limit) && nz j then
    if pfsFixIndex i =? 0 then
      let* (q, _) := pfsBlockGetNextSegment clink in
      match q with
      | None => ret (inr None)
      | Some p => ret (inl (i + 1, j, p, nsd + 1, b))
      end
    else
      d <- pdata clink ;;
      let e := i_data d (seg_entry i) in
      if j <? bi_count e then
        let kept := u16 (bi_count e - j) in
        dmod clink (set_i_data (seg_entry i) (mkBi (bi_number e) (bi_subpart e) kept)) ;;;
        pdirty clink ;;;
        ret (inl (i + 1, 0, clink, nsd, mkBi (u32 (bi_number e + kept)) (bi_subpart e) (u16 j)))
      else ret (inl (i + 1, j - bi_count e, clink, nsd, b))
  else ret (inr (Some (i, clink, nsd, b))).

(** Second loop: the segments to free. *)
Definition dropStep (m : nat) (limit : Z) : Z * nat -> MP ((Z * nat) + option nat) :=
  fun '(i, clink) =>
  if i <? limit then
    next <- (if pfsFixIndex i =? 0 then let* (q, _) := pfsBlockGetNextSegment clink in ret q
             else ret (Some clink)) ;;
    match next with
    | None => ret (inr None)
    | Some clink =>
        d <- pdata clink ;;
        freeSegment m (i_data d (seg_entry i)) ;;;
        ret (inl (i + 1, clink))
    end
  else ret (inr (Some clink)).

Definition pfsFreeZones (pfree : nat) : MP unit :=
  m <- pmount pfree ;;
  x <- mget m ;;
  inode <- pdata pfree ;;
  if m_zsize x =? 0 then undef
  else
    let limit := i_number_data inode in
    let zones := u32 (i_size inode / m_zsize x) in
    let zones := if nz (i_size inode mod m_zsize x) then u32 (zones + 1) else zones in
    if u32 (i_number_segdesg inode + zones) =? i_number_blocks inode then ret tt
    else
      clink <- pfsCacheUsedAdd pfree ;;
      r <- while_ (S (S (Z.to_nat limit))) (keepStep limit) (1, zones, clink, 1, mkBi 0 0 0) ;;
      match r with
      | None => ret tt
      | Some (i, clink, nsd, b) =>
          dmod pfree (set_i_number_data i) ;;;
          dmod pfree (set_i_number_blocks (zones + nsd)) ;;;
          dmod pfree (set_i_number_segdesg nsd) ;;;
          d <- pdata clink ;;
          dmod pfree (set_i_last_segment (i_data d 0)) ;;;
          pdirty pfree ;;;
          when (nz (bi_number b)) (pfsBitmapFreeBlockSegment m b) ;;;
          r <- while_ (S (Z.to_nat limit)) (dropStep m limit) (i, clink) ;;
          match r with
          | None => ret tt
          | Some clink => pfsCacheFree (Some clink)
          end
      end.
End Inode.
