(* ===== verification/PfsDir.v ===== *)
(** * PfsDir: directories and path lookup of libpfs

    iop/hdd/libpfs/src/dir.c.  A directory is a file of 512-byte blocks of
    entries (inode, sub, pLen, aLen, path); the allocated lengths [aLen] of
    the entries of a block add up to 512.  A [pfs_dentry_t *] is a buffer and
    a byte offset in it; an entry whose first 8 bytes leave the buffer is an
    out-of-range access. *)

From stdpp Require Import base numbers list gmap.
From Stdlib Require Import ZArith Lia.
From S2P Require Import Prelude ApaState ApaCache PfsState PfsCache PfsBitmap PfsInode.

Open Scope Z_scope.
Open Scope c_scope.

(** ** Entries *)

Definition aLen_of (a : Z) : Z := Z.land a 0xFFF.
(** [(pLen + 8 + 3) & ~3] in the 9 bits of an entry length. *)
Definition dentryLen (pLen : Z) : Z := Z.land (pLen + 8 + 3) 0x1FC.
Definition newDentryLen (len : Z) : Z := Z.land (len + 8 + 3) (-4).

(** C string compare of a NUL-terminated path in the entry with a constant. *)
Definition str_dot : list Z := [46].
Definition str_dotdot : list Z := [46; 46].
Definition de_cstr (b : buf) (o : nat) : list Z := cstr (de_path b o 504).

(** What the option asks of an entry. *)
Definition dentryMatch (opt : Z) (path : list Z) (b : buf) (d : nat) (aLen : Z) : bool :=
  let pLen := de_pLen b d in
  let len := Z.of_nat (length path) in
  if opt =? 0 then (len =? pLen) && bool_decide (de_path b d (Z.to_nat pLen) = path)
  else if opt =? 1 then
    if nz (de_inode b d) || (aLen <? newDentryLen len)
    then newDentryLen len <=? aLen - dentryLen pLen else true
  else nz pLen && negb (bool_decide (de_cstr b d = str_dot))
       && negb (bool_decide (de_cstr b d = str_dotdot)).

(** Walk of the entries of one 512-byte block from offset [d] to [d2];
    [size] is the position in the directory.  [inl]: the block is finished;
    [inr (Some d)]: found; [inr None]: a bad entry. *)
Inductive walk_res : Type :=
| WEnd (size : Z)
| WFound (d : nat) (size : Z)
| WBad (size : Z).

Fixpoint walkBlock (fuel : nat) (opt : Z) (path : list Z) (b : buf) (d d2 : nat) (size : Z)
  : option walk_res :=
  match fuel with
  | O => None
  | S n =>
      if (d <? d2)%nat then
        if (1024 <? d + 8)%nat then None
        else
          let aLen := aLen_of (de_aLen b d) in
          if nz (Z.land aLen 3) then Some (WBad size)
          else if aLen <? dentryLen (de_pLen b d) then Some (WBad size)
          else if (d2 <? d + Z.to_nat aLen)%nat then Some (WBad size)
          else if negb ((opt =? 0) || (opt =? 1) || (opt =? 2)) then Some (WBad size)
          else if dentryMatch opt path b d aLen then Some (WFound d size)
          else walkBlock n opt path b (d + Z.to_nat aLen) d2 (u32 (size + aLen))
      else Some (WEnd size)
  end.

(** ** pfsSplitPath

    The first component of [filename] and the index of what follows, or
    [None] if a name is too long.  Reading past the NUL is [Undef], which the
    loops never do. *)
Definition chr (s : list Z) (i : nat) : Z := nth i s 0.

Fixpoint skipSlashes (fuel : nat) (s : list Z) (i : nat) : nat :=
  match fuel with
  | O => i
  | S n => if chr s i =? 47 then skipSlashes n s (S i) else i
  end.

(** [for( ; i<1024 && filename[i] != '/'; i++)]: copies up to 255 bytes. *)
Fixpoint copyName (fuel : nat) (s : list Z) (i : nat) (path : list Z) : nat * list Z :=
  match fuel with
  | O => (i, path)
  | S n =>
      if (i <? 1024)%nat && negb (chr s i =? 47) then
        if chr s i =? 0 then (i, path)
        else copyName n s (S i) (if (length path <? 255)%nat then path ++ [chr s i] else path)
      else (i, path)
  end.

(** [while(filename[i]=='/') if(i<1024) i++; else break;] *)
Fixpoint skipTail (fuel : nat) (s : list Z) (i : nat) : nat :=
  match fuel with
  | O => i
  | S n => if (chr s i =? 47) && (i <? 1024)%nat then skipTail n s (S i) else i
  end.

(** [filename] is a C string, without its NUL. *)
Definition pfsSplitPath (filename : list Z) : option (list Z) * list Z :=
  let n := S (length filename) in
  let i := skipSlashes n filename 0 in
  let '(i, path) := copyName n filename i [] in
  let i := skipTail n filename i in
  if (i <? 1024)%nat then (Some (drop i filename), path) else (None, path).

(** The assignments of [pfsFillDentry] to the entry at offset [dentry]. *)
Definition fillDentry (dentry : nat) (path1 : list Z) (bi : pfs_blockinfo_t) (len mode : Z) (b : buf) : buf :=
  let pLen := u8 (Z.of_nat (length path1)) in
  set_de_path dentry (take (Z.to_nat pLen) path1)
    (set_de_aLen dentry (Z.lor len (Z.land mode FIO_S_IFMT))
       (set_de_pLen dentry pLen
          (set_de_sub dentry (u8 (bi_subpart bi)) (set_de_inode dentry (bi_number bi) b)))).

(** Putting an entry in the unused part of the entry at offset [d]: the length
    of that part, the length [d] keeps, and the chunk. *)
Definition spareLen (d : nat) (b : buf) : Z :=
  let a := de_aLen b d in
  if nz (de_pLen b d) then aLen_of a - Z.land (de_pLen b d + 11) 0x1FC else aLen_of a.
Definition insertDentry (d : nat) (filename : list Z) (bi : pfs_blockinfo_t) (mode : Z) (b : buf) : buf :=
  let a := de_aLen b d in
  let len := spareLen d b in
  let a' := Z.lor (Z.land a FIO_S_IFMT) (aLen_of a - len) in
  fillDentry (d + Z.to_nat (aLen_of a')) filename bi len mode (set_de_aLen d a' b).

(** Giving the entry at offset [d] to the one before it, at [l]. *)
Definition joinDentry (l d : nat) (b : buf) : buf :=
  set_de_aLen l (Z.lor (Z.land (de_aLen b l) FIO_S_IFMT)
                   (aLen_of (de_aLen b l) + aLen_of (de_aLen b d))) b.

Section Dir.
Context {D : Type} `{BlockDevice D}.
Notation MP := (M (pfs_st D)).

(** [goto _exit], with the chunk held (if any) to release. *)
Definition dentryExit (dent : option nat) (inode : option nat) (size : Z)
  : MP (option (nat * nat) * Z) :=
  pfsCacheFree dent ;;; pfsCacheFree inode ;;; ret (None, size).

(** One block of [pfsGetDentry].  State: position, chunk, offsets [d] and
    [d2] in it, [size]. *)
Definition getDentryStep (fuel : nat) (clink : nat) (opt : Z) (path : list Z)
  : pfs_blockpos_t * nat * nat * nat * Z ->
    MP ((pfs_blockpos_t * nat * nat * nat * Z) + (option (nat * nat) * Z)) :=
  fun '(bp, dent, d, d2, size) =>
  inode <- pdata clink ;;
  if size <? i_size inode then
    (* Read another dentry chunk if we need to *)
    r <- (if (1024 <=? d2)%nat then
            let* (res, q, bp') := pfsInodeSync fuel bp pfsMetaSize (i_number_data inode) in
            if nz res then
              x <- dentryExit (Some dent) q size ;; ret (inr x)
            else
              pfsCacheFree (Some dent) ;;;
              let* (c, _) := pfsGetDentriesChunk bp' in
              match c with
              | None => x <- dentryExit None (Some (bp_inode bp')) size ;; ret (inr x)
              | Some p => ret (inl (bp', p, 0%nat))
              end
          else ret (inl (bp, dent, d))) ;;
    match r with
    | inr x => ret (inr x)
    | inl (bp, dent, d) =>
        b <- pdata dent ;;
        match walkBlock 129 opt path b d (d + 512) size with
        | None => undef
        | Some (WEnd size') => ret (inl (bp, dent, (d + 512)%nat, (d + 512)%nat, size'))
        | Some (WBad size') =>
            x <- dentryExit (Some dent) (Some (bp_inode bp)) size' ;; ret (inr x)
        | Some (WFound o size') =>
            pfsCacheFree (Some (bp_inode bp)) ;;;
            ret (inr (Some (dent, o), size'))
        end
    end
  else x <- dentryExit (Some dent) (Some (bp_inode bp)) size ;; ret (inr x).

(** The entry (buffer and offset) if found, and [*size]. *)
Definition pfsGetDentry (fuel : nat) (clink : nat) (path : list Z) (opt : Z)
  : MP (option (nat * nat) * Z) :=
  inode <- pfsCacheUsedAdd clink ;;
  let bp := mkBp inode 1 0 0 in
  let* (dentCache, _) := pfsGetDentriesChunk bp in
  match dentCache with
  | None => pfsCacheFree (Some inode) ;;; ret (None, 0)
  | Some p => while_ fuel (getDentryStep fuel clink opt path) (bp, p, 0%nat, 0%nat, 0)
  end.

(** One round of [pfsGetNextDentry].  The result also says whether
    [blockpos->inode] is still there (it is NULL when the next descriptor
    could not be read). *)
Definition nextDentryStep (fuel : nat) (clink : nat)
  : pfs_blockpos_t * Z * list Z * pfs_blockinfo_t ->
    MP ((pfs_blockpos_t * Z * list Z * pfs_blockinfo_t) +
        (option nat * pfs_blockpos_t * Z * list Z * pfs_blockinfo_t)) :=
  fun '(bp, position, name, bi) =>
  inode <- pdata clink ;;
  if (length name =? 0)%nat && (position <? i_size inode) then
    let* (c, _) := pfsGetDentriesChunk bp in
    match c with
    | None => ret (inr (Some (bp_inode bp), bp, position, name, bi))
    | Some dcache =>
        b <- pdata dcache ;;
        let o := Z.to_nat (bp_byte bp mod pfsMetaSize) in
        let name := de_path b o (Z.to_nat (de_pLen b o)) in
        let bi := mkBi (de_inode b o) (de_sub b o) (bi_count bi) in
        pfsCacheFree (Some dcache) ;;;
        b <- pdata dcache ;;
        let aLen := aLen_of (de_aLen b o) in
        let position := u32 (position + aLen) in
        let* (r, q, bp) := pfsInodeSync fuel bp aLen (i_number_data inode) in
        if nz r then ret (inr (q, bp, position, name, bi)) else ret (inl (bp, position, name, bi))
    end
  else ret (inr (Some (bp_inode bp), bp, position, name, bi)).

(** The name of the entry (its length is the result), the position after it
    and its inode. *)
Definition pfsGetNextDentry (fuel : nat) (clink : nat) (bp : pfs_blockpos_t) (position : Z) (bi : pfs_blockinfo_t)
  : MP (option nat * pfs_blockpos_t * Z * list Z * pfs_blockinfo_t) :=
  while_ fuel (nextDentryStep fuel clink) (bp, position, [], bi).

Definition pfsFillDentry (clink dentry : nat) (path1 : list Z) (bi : pfs_blockinfo_t) (len mode : Z) : MP nat :=
  dmod clink (fillDentry dentry path1 bi len mode) ;;;
  ret clink.

Definition pfsDirAddEntry (fuel : nat) (dir : nat) (filename : list Z) (bi : pfs_blockinfo_t) (mode : Z)
  : MP (option nat * Z) :=
  let* (e, _) := pfsGetDentry fuel dir filename 1 in
  match e with
  | Some (dcache, d) =>
      dmod dcache (insertDentry d filename bi mode) ;;;
      ret (Some dcache, 0)
  | None =>
      result <- pfsAllocZones fuel dir 512 0 ;;
      if result <? 0 then ret (None, result)
      else
        b <- pdata dir ;;
        let* (dcache, offset, result) := pfsGetDentriesAtPos fuel dir (i_size b) in
        match dcache with
        | None => ret (None, result)
        | Some c =>
            dmod dir (fun b => set_i_size (i_size b + 512) b) ;;;
            q <- pfsFillDentry c (Z.to_nat offset) filename bi 512 mode ;;
            ret (Some q, result)
        end
  end.

(** The [do ... while(i<512)] of [pfsDirRemoveEntry]: [dnext] walks the block
    of [dentry], [dlast] follows it. *)
Fixpoint removeWalk (fuel : nat) (clink c : nat) (size : Z) (dentry : nat) (dlast : option nat) (dnext : nat)
  (i : Z) : MP (option nat) :=
  match fuel with
  | O => nofuel
  | S n =>
      b <- pdata c ;;
      let aLen := aLen_of (de_aLen b dnext) in
      if (dnext =? dentry)%nat then
        match dlast with
        | Some l =>
            dmod c (joinDentry l dnext)
        | None =>
            dmod c (set_de_inode dnext 0) ;;;
            dmod c (set_de_pLen dnext 0) ;;;
            inode <- pdata clink ;;
            when (i_size inode <=? u32 (size + aLen))
              (dmod clink (fun b => set_i_size (i_size b - aLen) b))
        end ;;;
        ret (Some c)
      else
        let i := i + aLen in
        if i <? 512 then removeWalk n clink c size dentry (Some dnext) (dnext + Z.to_nat aLen)%nat i
        else ret None
  end.

Definition pfsDirRemoveEntry (fuel : nat) (clink : nat) (path : list Z) : MP (option nat) :=
  let* (e, size) := pfsGetDentry fuel clink path 0 in
  match e with
  | None => ret None
  | Some (c, dentry) => removeWalk 129 clink c size dentry None (dentry / 512 * 512)%nat 0
  end.

Definition pfsCheckDirForFiles (fuel : nat) (clink : nat) : MP Z :=
  let* (e, _) := pfsGetDentry fuel clink [] 2 in
  match e with
  | Some (dcache, _) => pfsCacheFree (Some dcache) ;;; ret 0
  | None => ret 1
  end.

(** The entries "." and ".." of a new directory. *)
Definition selfAndParent (self parent : pfs_blockinfo_t) : buf :=
  let b := zeros 256 in
  let b := set_de_inode 0 (bi_number self) b in
  let b := set_de_path 0 [46; 0] b in
  let b := set_de_sub 0 (bi_subpart self) b in
  let b := set_de_pLen 0 1 b in
  let b := set_de_aLen 0 (Z.lor 12 FIO_S_IFDIR) b in
  let b := set_de_inode 12 (bi_number parent) b in
  let b := set_de_path 12 [46; 46; 0] b in
  let b := set_de_sub 12 (bi_subpart parent) b in
  let b := set_de_pLen 12 2 b in
  set_de_aLen 12 (Z.lor 500 FIO_S_IFDIR) b.

Definition pfsFillSelfAndParentDentries (clink : nat) (self parent : pfs_blockinfo_t) : MP unit :=
  dmod clink (fun _ => selfAndParent self parent).

Definition pfsSetDentryParent (fuel : nat) (clink : nat) (bi : pfs_blockinfo_t) : MP (option nat * Z) :=
  let* (dcache, _, result) := pfsGetDentriesAtPos fuel clink 0 in
  match dcache with
  | None => ret (None, result)
  | Some c =>
      dmod c (fun b => set_de_sub 12 (bi_subpart bi) (set_de_inode 12 (bi_number bi) b)) ;;;
      ret (Some c, result)
  end.

Definition pfsCheckAccess (clink : nat) (flags : Z) : MP Z :=
  m <- pmount clink ;;
  x <- mget m ;;
  if nz (Z.land (m_flags x) FIO_MT_RDONLY) && nz (Z.land flags O_WRONLY) then ret (- EROFS)
  else
    b <- pdata clink ;;
    let mode := if negb (Z.land (i_mode b) FIO_S_IFMT =? FIO_S_IFDIR) && (Z.land (i_mode b) 73 =? 0)
                then 6 else 7 in
    if Z.land (Z.land mode flags) 7 =? flags then ret 0 else ret (- EACCES).

Definition pfsInodeGetFileInDir (fuel : nat) (dirInode : nat) (path : list Z) : MP (option nat * Z) :=
  match path with
  | [] => p <- pfsCacheUsedAdd dirInode ;; ret (Some p, 0)
  | _ =>
      c <- pget dirInode ;;
      m <- pmount dirInode ;;
      x <- mget m ;;
      if (pc_sector c =? u32 (Z.shiftl (bi_number (m_root_dir x)) (m_inode_scale x)))
         && (pc_sub c =? bi_subpart (m_root_dir x)) && bool_decide (path = str_dotdot)
      then p <- pfsCacheUsedAdd dirInode ;; ret (Some p, 0)
      else
        result <- pfsCheckAccess dirInode 1 ;;
        if result <? 0 then ret (None, result)
        else
          let* (e, _) := pfsGetDentry fuel dirInode path 0 in
          match e with
          | Some (clink, d) =>
              pfsCacheFree (Some clink) ;;;
              b <- pdata clink ;;
              pfsInodeGetData m (de_sub b d) (de_inode b d)
          | None => ret (None, - ENOENT)
          end
  end.

Definition pfsInodeFill (ci : nat) (bi : pfs_blockinfo_t) (mode uid gid : Z) : MP unit :=
  let isdir := Z.land mode FIO_S_IFMT =? FIO_S_IFDIR in
  let val := if isdir then 2 else 1 in
  dmod ci (fun _ =>
    let b := set_i_magic PFS_SEGD_MAGIC (zeros 256) in
    let b := set_i_inode_block bi b in
    let b := set_i_last_segment bi b in
    let b := set_i_gid gid (set_i_uid uid (set_i_mode mode b)) in
    let b := if isdir then set_i_size 512 (set_i_attr 0xA0 b) else set_i_size 0 b in
    set_i_number_data val (set_i_number_blocks val b)) ;;;
  t <- pfsGetTime ;;
  dmod ci (fun b =>
    set_i_subpart (bi_subpart bi) (set_i_data 0 bi (set_i_number_segdesg 1
      (set_i_mtime t (set_i_atime t (set_i_ctime t b)))))) ;;;
  pdirty ci.

(** The string at [inode->data[1]]: the target of a symbolic link. *)
Definition linkTarget (b : buf) : list Z := cstr (map (fun k => get8 b (48 + k)) (seq 0 976)).

(** One component of the path; [getFile] resolves a symbolic link. *)
Definition parentStep (getFile : nat -> list Z -> MP (option nat * Z)) (fuel : nat) (m : nat)
  : list Z * option nat -> MP ((list Z * option nat) + (option nat * list Z * Z)) :=
  fun '(filename, clink) =>
  match clink with
  | None => undef
  | Some p =>
      match pfsSplitPath filename with
      | (None, path) => ret (inr (None, path, - ENAMETOOLONG))
      | (Some rest, path) =>
          b <- pdata p ;;
          match rest with
          | [] =>
              if Z.land (i_mode b) FIO_S_IFMT =? FIO_S_IFDIR then ret (inr (Some p, path, 0))
              else pfsCacheFree (Some p) ;;; ret (inr (None, path, - ENOTDIR))
          | _ =>
              let* (inode, result) := pfsInodeGetFileInDir fuel p path in
              match inode with
              | None => pfsCacheFree (Some p) ;;; ret (inr (None, path, result))
              | Some q =>
                  bq <- pdata q ;;
                  if Z.land (i_mode bq) FIO_S_IFMT =? FIO_S_IFLNK then
                    links <- gets pfsSymbolicLinks ;;
                    if 4 <=? links then
                      pfsCacheFree (Some p) ;;; pfsCacheFree (Some q) ;;;
                      ret (inr (None, path, - ELOOP))
                    else
                      modify (with_links (links + 1)) ;;;
                      let* (link, result) := getFile p (linkTarget bq) in
                      modify (fun s => with_links (pfsSymbolicLinks s - 1) s) ;;;
                      match link with
                      | None => pfsCacheFree (Some q) ;;; ret (inr (None, path, result))
                      | Some l => pfsCacheFree (Some q) ;;; ret (inl (rest, Some l))
                      end
                  else pfsCacheFree (Some p) ;;; ret (inl (rest, Some q))
              end
          end
      end
  end.

(** [pfsInodeGetParent] and [pfsInodeGetFile] call each other through
    symbolic links; [depth] bounds that recursion (the code allows 4). *)
Fixpoint getParent (depth fuel : nat) (m : nat) (clink : option nat) (filename : list Z)
  : MP (option nat * list Z * Z) :=
  match depth with
  | O => nofuel
  | S k =>
      let getFile p name :=
        let* (c, path, result) := getParent k fuel m (Some p) name in
        match c with
        | None => ret (None, result)
        | Some d =>
            let* (f, result) := pfsInodeGetFileInDir fuel d path in
            pfsCacheFree (Some d) ;;;
            ret (f, result)
        end in
      match filename with
      | [] =>
          match clink with Some p => pfsCacheFree (Some p) | None => ret tt end ;;;
          ret (None, [], - ENOENT)
      | c0 :: _ =>
          x <- mget m ;;
          let* (clink, result) :=
            (if c0 =? 47 then
               match clink with Some p => pfsCacheFree (Some p) | None => ret tt end ;;;
               pfsInodeGetData m (bi_subpart (m_root_dir x)) (bi_number (m_root_dir x))
             else match clink with
                  | Some p => ret (Some p, 0)
                  | None => pfsInodeGetData m (bi_subpart (m_current_dir x)) (bi_number (m_current_dir x))
                  end) in
          match clink with
          | None => ret (None, [], result)
          | Some _ => while_ (S (length filename)) (parentStep getFile fuel m) (filename, clink)
          end
      end
  end.

Definition pfsInodeGetParent (fuel : nat) (m : nat) (clink : option nat) (filename : list Z)
  : MP (option nat * list Z * Z) := getParent 6 fuel m clink filename.

Definition pfsInodeGetFile (fuel : nat) (m : nat) (clink : option nat) (name : list Z) : MP (option nat * Z) :=
  let* (c, path, result) := pfsInodeGetParent fuel m clink name in
  match c with
  | None => ret (None, result)
  | Some d =>
      let* (f, result) := pfsInodeGetFileInDir fuel d path in
      pfsCacheFree (Some d) ;;;
      ret (f, result)
  end.

Definition pfsInodeRemove (fuel : nat) (parent inode : nat) (path : list Z) : MP Z :=
  entry <- pfsDirRemoveEntry fuel parent path ;;
  rv <- match entry with
        | Some e =>
            pfsInodeSetTime parent ;;;
            pdirty e ;;;
            pfsCacheFree (Some e) ;;;
            ret 0
        | None => ret (- ENOENT)
        end ;;
  pfsCacheFree (Some parent) ;;;
  when (rv =? 0)
    (pclean inode ;;;
     pfsBitmapFreeInodeBlocks fuel inode ;;;
     m <- pmount parent ;;
     x <- mget m ;;
     when (nz (Z.land (m_flags x) PFS_FIO_ATTR_WRITEABLE)) (pfsCacheFlushAllDirty m)) ;;;
  pfsCacheFree (Some inode) ;;;
  ret rv.

(** Percentage of free zones of partition [i]. *)
Definition freePercent (m : nat) (i : Z) : MP Z :=
  x <- mget m ;;
  sz <- bdev (bd_getSize (m_fd x) i) ;;
  match free_zone x i with
  | None => undef
  | Some fz =>
      let total := Z.shiftr (u32 sz) (m_sector_scale x) in
      if total =? 0 then undef else ret (u32 (fz * 100 / total))
  end.

Definition pfsGetMaxIndex (m : nat) : MP Z :=
  x <- mget m ;;
  r <- for_ (range 0 (Z.to_nat (m_num_subs x + 1)))
         (fun i '(max, maxI) =>
            v <- freePercent m i ;;
            if max <? v then ret (v, i) else ret (max, maxI)) (0, 0) ;;
  ret (u16 r.2).

Definition pfsInodeCreate (fuel : nat) (clink : nat) (mode uid gid : Z) : MP (option nat * Z) :=
  m <- pmount clink ;;
  x <- mget m ;;
  b <- pdata clink ;;
  let isdir := Z.land mode FIO_S_IFMT =? FIO_S_IFDIR in
  a <- (if isdir then
          let sub := if i_subpart b <? m_num_subs x then u32 (i_subpart b + 1) else 0 in
          dmod clink (set_i_subpart sub) ;;;
          if m_total_sector x =? 0 then undef
          else
            let j := u32 (m_zfree x * 100 / m_total_sector x) in
            i <- freePercent m (u16 sub) ;;
            if (i <? j) && (11 <=? j - i) then
              k <- pfsGetMaxIndex m ;; ret (mkBi 0 k 1)
            else ret (mkBi 0 (u16 sub) 1)
        else ret (mkBi (bi_number (i_inode_block b)) (bi_subpart (i_inode_block b)) 1)) ;;
  let* (result, a) := pfsBitmapSearchFreeZone fuel m a 2 in
  if result <? 0 then ret (None, result)
  else
    let* (inode, result) := pfsCacheGetData m (bi_subpart a) (u32 (Z.shiftl (bi_number a) (m_inode_scale x)))
                              (Z.lor PFS_CACHE_FLAG_SEGD PFS_CACHE_FLAG_NOLOAD) in
    match inode with
    | None => ret (None, result)
    | Some p =>
        pfsInodeFill p a mode uid gid ;;;
        if negb isdir then ret (Some p, result)
        else
          let bseg := a in
          let* (result, a) := pfsBitmapSearchFreeZone fuel m a 0 in
          if result <? 0 then
            pfsCacheFree (Some p) ;;;
            pfsBitmapFreeBlockSegment m bseg ;;;
            ret (None, result)
          else
            dmod p (set_i_data 1 a) ;;;
            ret (Some p, result)
    end.
End Dir.
