(* ===== verification/PfsSuper.v ===== *)
(** * PfsSuper: formatting and mounting a file system

    iop/hdd/libpfs/src/superWrite.c. *)

From stdpp Require Import base numbers list gmap.
From Stdlib Require Import ZArith Lia.
From S2P Require Import Prelude ApaState ApaCache PfsState PfsCache PfsBitmap PfsInode PfsDir.

Open Scope Z_scope.
Open Scope c_scope.

(** The first sector of a bitmap: the fragment pattern with the first
    [reserved] zones marked as used. *)
Definition fillFragment (fragment : Z) (b : buf) : buf :=
  foldl (fun b i => set32 i fragment b) b (seq 0 128).
Definition markReserved (reserved : Z) (b : buf) : buf :=
  foldl (fun b j => set32 (j / 32) (Z.lor (get32 b (j / 32)) (Z.shiftl 1 (Z.of_nat (j mod 32)))) b)
    b (seq 0 (Z.to_nat reserved)).

(** The superblock that [pfsFormat] writes. *)
Definition newSuperBlock (scale zonesize subnumber mainsize : Z) : buf :=
  let count := 0x20000 / zonesize in
  let count := u16 (if nz count then count else 1) in
  let number := pfsGetBitmapSizeBlocks scale mainsize + Z.shiftr 0x2000 scale + 1 in
  let b := set32 0 PFS_SUPER_MAGIC (zeros 256) in
  let b := set32 1 PFS_FORMAT_VERSION b in
  let b := set32 2 PFS_MODVER b in
  let b := set32 4 zonesize b in
  let b := set32 5 subnumber b in
  let b := set_bi 6 (mkBi (u32 number) 0 count) b in
  set_bi 8 (mkBi (u32 (number + count)) 0 1) b.

Section Super.
Context {D : Type} `{BlockDevice D}.
Notation MP := (M (pfs_st D)).

(** [blockDev->transfer(fd, clink->u.data, ...)] *)
Definition fd_transfer (fd : Z) (p : nat) (sub sector size mode : Z) : MP Z :=
  b <- pdata p ;;
  let* (r, b') := bdev (bd_transfer fd b sub sector size mode) in
  dmod p (fun _ => b') ;;;
  ret r.

(** [while(count-- && (result = transfer(..., sector++, 1, 1)) >= 0)] *)
Fixpoint formatBitmap (count : nat) (fd : Z) (p : nat) (sub sector fragment result : Z) : MP Z :=
  match count with
  | O => ret result
  | S n =>
      result <- fd_transfer fd p sub sector 1 1 ;;
      if 0 <=? result then
        dmod p (fillFragment fragment) ;;;
        formatBitmap n fd p sub (u32 (sector + 1)) fragment result
      else ret result
  end.

Definition pfsFormatSub (fd sub reserved scale fragment : Z) : MP Z :=
  sz <- bdev (bd_getSize fd sub) ;;
  let size := u32 sz in
  let sector := if 2 <=? reserved then Z.shiftl 1 scale + 0x2000 else Z.shiftl 1 scale in
  let count := pfsGetBitmapSizeSectors scale size in
  let reserved := u32 (reserved + pfsGetBitmapSizeBlocks scale size) in
  let* (cache, result) := pfsCacheAllocClean in
  match cache with
  | None => ret result
  | Some p =>
      if 8192 <? reserved then undef
      else
        dmod p (fun b => markReserved reserved (fillFragment fragment b)) ;;;
        result <- formatBitmap (Z.to_nat count) fd p sub sector fragment 0 ;;
        pfsCacheFree (Some p) ;;;
        ret result
  end.

(** The root directory: its block of entries, then its inode. *)
Definition formatRoot (fd scale : Z) (sb : buf) : MP Z :=
  let root := sb_root sb in
  let* (cache, result2) := pfsCacheAllocClean in
  match cache with
  | None => ret result2
  | Some p =>
      pfsFillSelfAndParentDentries p root root ;;;
      r <- fd_transfer fd p 0 (u32 (Z.shiftl (bi_number root + 1) scale)) (Z.shiftl 1 pfsBlockSize) 1 ;;
      r <- (if r =? 0 then
              pfsInodeFill p root 0x11FF 0 0 ;;;
              dmod p (set_i_data 1 (mkBi (u32 (bi_number root + 1)) 0 1)) ;;;
              dmod p (fun b => set_i_checksum (pfsInodeCheckSum b) b) ;;;
              fd_transfer fd p 0 (u32 (Z.shiftl (bi_number root) scale)) (Z.shiftl 1 pfsBlockSize) 1
            else ret r) ;;
      pfsCacheFree (Some p) ;;;
      ret r
  end.

(** The bitmaps of the main partition and of every sub-partition. *)
Definition formatSubs (fd scale fragment subnumber : Z) (sb : buf) (result : Z) : MP Z :=
  r <- for_break (range 0 (Z.to_nat (u32 (subnumber + 1))))
         (fun i _ =>
            result <- pfsFormatSub fd i
              (if nz i then 1 else Z.shiftr 0x2000 scale + bi_count (sb_log sb) + 3) scale fragment ;;
            if result <? 0 then ret (inr result) else ret (inl result)) result ;;
  match r with inl x => ret x | inr x => ret x end.

Definition pfsFormat (fd zonesize fragment : Z) : MP Z :=
  subnumber <- bdev (bd_getSubNumber fd) ;;
  mainsize <- bdev (bd_getSize fd 0) ;;
  let subnumber := u32 subnumber in
  if pfsCheckZoneSize (u32 zonesize) =? 0 then ret (- EINVAL)
  else
    match pfsGetScale zonesize 512 with
    | None => undef
    | Some scale =>
        let* (clink, result) := pfsCacheAllocClean in
        match clink with
        | None => ret result
        | Some p =>
            dmod p (fun _ => newSuperBlock scale zonesize subnumber (u32 mainsize)) ;;;
            sb <- pdata p ;;
            result <- pfsJournalResetThis fd (u32 (Z.shiftl (bi_number (sb_log sb)) scale)) ;;
            result <- (if 0 <=? result then
                         result <- formatRoot fd scale sb ;;
                         if 0 <=? result then
                           result <- formatSubs fd scale fragment subnumber sb result ;;
                           if result =? 0 then
                             result <- fd_transfer fd p 0 PFS_SUPER_BACKUP_SECTOR 1 1 ;;
                             if result =? 0 then fd_transfer fd p 0 PFS_SUPER_SECTOR 1 1
                             else ret result
                           else ret result
                         else ret result
                       else ret result) ;;
            pfsCacheFree (Some p) ;;;
            bdev (bd_flushCache fd) ;;;
            ret result
        end
    end.

(** [superblock] is the data of buffer [p]. *)
Definition pfsUpdateSuperBlock (m p : nat) (sub : Z) : MP Z :=
  x <- mget m ;;
  b <- pdata p ;;
  match pfsGetScale (sb_zone_size b) 512 with
  | None => undef
  | Some scale =>
      r <- for_break (range (sb_num_subs b + 1) (Z.to_nat (sub - sb_num_subs b)))
             (fun i (_ : unit) =>
                rv <- pfsFormatSub (m_fd x) i 1 scale 0 ;;
                if rv <? 0 then ret (inr rv) else ret (inl tt)) tt ;;
      match r with
      | inr rv => ret rv
      | inl _ =>
          dmod p (set32 5 sub) ;;;
          rv <- buf_transfer m p 0 PFS_SUPER_SECTOR 1 PFS_IO_MODE_WRITE ;;
          rv <- (if rv =? 0 then buf_transfer m p 0 PFS_SUPER_BACKUP_SECTOR 1 PFS_IO_MODE_WRITE
                 else ret rv) ;;
          bdev (bd_flushCache (m_fd x)) ;;;
          ret rv
      end
  end.

(** Checks of a superblock that was read. *)
Definition superBlockError (b : buf) (flags sub : Z) : Z :=
  if (pfsCheckZoneSize (sb_zone_size b) =? 0)
     || (nz (Z.land (sb_fsckStat b) PFS_FSCK_STAT_WRITE_ERROR) && nz (Z.land flags PFS_FIO_ATTR_EXECUTABLE))
     || (sub <? sb_num_subs b)
  then - EIO else 0.

(** The mount as the superblock describes it. *)
Definition mountFields (b : buf) (scale iscale : Z) (x : pfs_mount_t) : pfs_mount_t :=
  mkMount (m_fd x) (m_flags x) 0 (m_zfree x) scale iscale (sb_zone_size b) (sb_num_subs b)
    (sb_root b) (sb_log b) (sb_root b) (m_lastError x) 0 0 (m_free_zone x).

(** Free space and total size, partition by partition. *)
Definition countZones (m : nat) : MP unit :=
  x <- mget m ;;
  for_ (range 0 (Z.to_nat (u32 (m_num_subs x + 1))))
    (fun i (_ : unit) =>
       x <- mget m ;;
       sz <- bdev (bd_getSize (m_fd x) i) ;;
       mmod m (fun x => m_set_total (m_total_sector x + Z.shiftr (u32 sz) (m_sector_scale x)) x) ;;;
       free <- pfsBitmapCalcFreeZones m i ;;
       x <- mget m ;;
       if (length (m_free_zone x) <=? Z.to_nat i)%nat then undef
       else
         mmod m (fun x => m_set_free (m_zfree x + free) (<[Z.to_nat i := u32 free]> (m_free_zone x)) x)) tt.

Definition pfsMountSuperBlock (m : nat) : MP Z :=
  x <- mget m ;;
  sub <- bdev (bd_getSubNumber (m_fd x)) ;;
  let sub := u32 sub in
  let* (clink, result) := pfsCacheAllocClean in
  match clink with
  | None => ret result
  | Some p =>
      let leave r := pfsCacheFree (Some p) ;;; ret r in
      result <- buf_transfer m p 0 PFS_SUPER_SECTOR 1 PFS_IO_MODE_READ ;;
      if nz result then leave result
      else
        b <- pdata p ;;
        if negb (sb_magic b =? PFS_SUPER_MAGIC) || (PFS_FORMAT_VERSION <? sb_version b)
        then leave (- EIO)
        else if nz (superBlockError b (m_flags x) sub) then leave (superBlockError b (m_flags x) sub)
        else
          result <- (if sb_num_subs b <? sub then pfsUpdateSuperBlock m p sub else ret 0) ;;
          if nz result then leave result
          else
            b <- pdata p ;;
            match pfsGetScale (sb_zone_size b) 512, pfsGetScale (sb_zone_size b) pfsMetaSize with
            | Some scale, Some iscale =>
                mmod m (mountFields b scale iscale) ;;;
                pfsJournalRestore m ;;;
                countZones m ;;;
                leave 0
            | _, _ => undef
            end
  end.
End Super.
