(* ===== verification/PfsHdd.v ===== *)
(** * PfsHdd: the block device of libpfs over the partition manager

    The table [pfsBlockDeviceCallTable] of libpfs/src/misc.c: each operation
    is an [ioctl2] of the I/O manager on the open partition. *)

From stdpp Require Import base numbers list gmap.
From Stdlib Require Import ZArith Lia.
From S2P Require Import Prelude Ata ApaState ApaCache ApaPart Hdd HddFio PfsState PfsCache.

Open Scope Z_scope.
Open Scope c_scope.

Section Table.
Context {D : Type} (ioctl2 : Z -> Z -> ioctl2Arg -> M D (Z * option buf)).

Definition pfsHddTransfer (fd : Z) (buffer : buf) (sub sector size mode : Z) : M D (Z * buf) :=
  let* (r, b) := ioctl2 fd HIOCTRANSFER (ArgTransfer (mkTransfer sub sector size mode buffer)) in
  ret (r, default buffer b).

Definition pfsHddGetSubCount (fd : Z) : M D Z :=
  let* (r, _) := ioctl2 fd HIOCNSUB ArgNone in ret (u32 r).

Definition pfsHddGetPartSize (fd sub : Z) : M D Z :=
  let* (r, _) := ioctl2 fd HIOCGETSIZE (ArgU32 sub) in ret (u32 r).

Definition pfsHddSetPartError (fd : Z) : M D unit :=
  ioctl2 fd HIOCSETPARTERROR ArgNone ;;; ret tt.

Definition pfsHddFlushCache (fd : Z) : M D Z :=
  let* (r, _) := ioctl2 fd HIOCFLUSH ArgNone in ret r.

Definition pfsBlockDeviceCallTable : BlockDevice D := {|
  bd_transfer := pfsHddTransfer;
  bd_getSubNumber := pfsHddGetSubCount;
  bd_getSize := pfsHddGetPartSize;
  bd_setPartitionError := pfsHddSetPartError;
  bd_flushCache := pfsHddFlushCache
|}.
End Table.

(** ** pfsGetBlockDeviceTable

    The device name before ':' (leading spaces and the part from the first
    digit on dropped) is looked up in the table.  [Undef] is undefined
    behaviour: a name of 32 bytes or more is copied over the end of
    [devname[32]], and one without a digit is searched past its end. *)

Fixpoint before_colon (s : list Z) : option (list Z) :=
  match s with
  | [] => None
  | c :: s' => if c =? 58 then Some [] else match before_colon s' with Some a => Some (c :: a) | None => None end
  end.

Definition isdigit (c : Z) : bool := (48 <=? c) && (c <=? 57).

(** The bytes before the first digit; None: there is none. *)
Fixpoint before_digit (s : list Z) : option (list Z) :=
  match s with
  | [] => None
  | c :: s' => if isdigit c then Some [] else match before_digit s' with Some a => Some (c :: a) | None => None end
  end.

Definition str_hdd : list Z := [104; 100; 100].

(** Is the name that of the only device, "hdd". *)
Definition pfsGetBlockDeviceTable (name : list Z) : M unit bool :=
  match before_colon (skip_spaces name) with
  | None => ret false
  | Some devname =>
      if (32 <=? length devname)%nat then undef
      else
        match before_digit devname with
        | None => undef
        | Some dev => ret (bool_decide (dev = str_hdd))
        end
  end.

(** " hdd0:" is the hdd device; "pfs:" runs off the end of the buffer. *)
Example device_hdd : pfsGetBlockDeviceTable [32; 104; 100; 100; 48; 58] tt = Done true tt.
Proof. reflexivity. Qed.
Example device_no_digit : pfsGetBlockDeviceTable [112; 102; 115; 58] tt = Undef.
Proof. reflexivity. Qed.
