(* ===== verification/PfsScenario.v ===== *)
(** * PfsScenario: a block device in memory and concrete file systems

    [ram] is the simplest device that keeps the [BlockDevice] interface: the
    sectors of each partition, with the range check of [ioctl2Transfer].  The
    witnesses of the file-system properties run on it. *)

From stdpp Require Import base numbers list gmap.
From Stdlib Require Import ZArith Lia.
From S2P Require Import Prelude ApaState PfsState PfsCache PfsBitmap PfsInode PfsDir PfsSuper Scenario.

Open Scope Z_scope.
Open Scope c_scope.

Record ram := mkRam {
  ram_disk : gmap (Z * Z) buf;    (* (partition, sector) *)
  ram_sizes : list Z              (* main partition first *)
}.

Definition ram_sector (r : ram) (sub sector : Z) : buf :=
  default (zeros 128) (ram_disk r !! (sub, sector)).

Fixpoint ram_read (r : ram) (sub sector : Z) (n : nat) : buf :=
  match n with
  | O => []
  | S k => ram_sector r sub sector ++ ram_read r sub (sector + 1) k
  end.

Fixpoint ram_write (r : ram) (sub sector : Z) (n : nat) (b : buf) : ram :=
  match n with
  | O => r
  | S k => ram_write (mkRam (<[(sub, sector) := take 128 b]> (ram_disk r)) (ram_sizes r))
             sub (sector + 1) k (drop 128 b)
  end.

Definition ram_transfer (fd : Z) (b : buf) (sub sector size mode : Z) : M ram (Z * buf) := fun r =>
  if nth (Z.to_nat sub) (ram_sizes r) 0 <? sector + size then Done (- ENXIO, b) r
  else if nz mode then Done (0, b) (ram_write r sub sector (Z.to_nat size) b)
  else Done (0, ram_read r sub sector (Z.to_nat size) ++ drop (Z.to_nat (128 * size)) b) r.

#[export] Instance ram_device : BlockDevice ram := {|
  bd_transfer := ram_transfer;
  bd_getSubNumber := fun _ => gets (fun r => Z.of_nat (length (ram_sizes r)) - 1);
  bd_getSize := fun _ sub => gets (fun r => nth (Z.to_nat sub) (ram_sizes r) 0);
  bd_setPartitionError := fun _ => ret tt;
  bd_flushCache := fun _ => ret 0
|}.

Definition mount0 : pfs_mount_t :=
  mkMount 0 0 0 0 0 0 0 0 (mkBi 0 0 0) (mkBi 0 0 0) (mkBi 0 0 0) 0 0 0 (replicate 65 0).

(** A partition of 128 MB and nothing on it. *)
Definition pfs0 : pfs_st ram :=
  mkPfs (mkRam ∅ [0x40000]) [mount0] [] 0 (zeros 256) 0 [0; 0]
    (fun _ => (1, mkClock 0 0 0 0 1 1 4)) 0 (fun _ => Some []) 0.

Definition pfs_fresh : pfs_st ram := after (pfsCacheInit 8 1024) pfs0.
Definition pfs_formatted : pfs_st ram := after (pfsFormat 0 8192 0) pfs_fresh.
Definition pfs_mounted : pfs_st ram := after (pfsMountSuperBlock 0) pfs_formatted.
