(* ===== verification/PfsBits.v ===== *)
(** * PfsBits: the zones of a bitmap chunk

    Facts about the loops of PfsBitmap on one chunk, stated on zones instead
    of words and bits: zone [z] of a chunk is bit [z mod 32] of word [z / 32].
    [used] is the abstract view of a chunk; [markChunk], [scanWords] and
    [freeOfChunk] are related to it. *)

From stdpp Require Import base numbers list.
From Stdlib Require Import ZArith Lia.
From S2P Require Import Prelude PfsState PfsBitmap.

Open Scope Z_scope.

(** ** Zones *)

Definition used (b : buf) (z : Z) : bool := Z.testbit (get32 b (Z.to_nat (z / 32))) (z mod 32).

Lemma zone_word i k : 0 <= k < 32 -> 0 <= i -> (32 * i + k) / 32 = i /\ (32 * i + k) mod 32 = k.
Proof. intros Hk Hi. Z.div_mod_to_equations. lia. Qed.

Lemma used_word b i k : 0 <= k < 32 -> used b (32 * Z.of_nat i + k) = Z.testbit (get32 b i) k.
Proof.
  intros Hk. unfold used. destruct (zone_word (Z.of_nat i) k Hk ltac:(lia)) as [-> ->].
  by rewrite Nat2Z.id.
Qed.

(** Two chunks with the same zones are the same buffer. *)
Lemma used_ext b b' :
  words_ok b -> words_ok b' -> length b = length b' ->
  (forall z, 0 <= z < 32 * Z.of_nat (length b) -> used b z = used b' z) -> b = b'.
Proof.
  intros Hb Hb' Hl H. apply (nth_ext _ _ 0 0 Hl). intros i Hi.
  change (nth i b 0) with (get32 b i). change (nth i b' 0) with (get32 b' i).
  apply Z.bits_inj'. intros k Hk. destruct (Z.ltb_spec k 32).
  - rewrite <- !used_word by lia. apply H. lia.
  - rewrite !is_u32_high; auto with buf_db.
Qed.

(** ** Marking *)

Lemma markBits_spec op n : forall bit count w w' count',
  0 <= bit -> 0 <= count -> markBits op n bit count w = (w', count') ->
  count' = Z.max 0 (count - Z.of_nat n) /\
  forall k, 0 <= k -> Z.testbit w' k =
    if (bit <=? k) && (k <? bit + Z.min (Z.of_nat n) count) then op =? PFS_BITMAP_ALLOC
    else Z.testbit w k.
Proof.
  induction n as [|n IH]; intros bit count w w' count' Hb Hc H; cbn [markBits] in H.
  { injection H as <- <-. split; [lia|]. intros k Hk.
    destruct (Z.leb_spec bit k), (Z.ltb_spec k (bit + Z.min (Z.of_nat 0) count)); simpl; try lia; done. }
  destruct (Z.eqb_spec count 0) as [->|Hne].
  { injection H as <- <-. split; [lia|]. intros k Hk.
    destruct (Z.leb_spec bit k), (Z.ltb_spec k (bit + Z.min (Z.of_nat (S n)) 0)); simpl; try lia; done. }
  apply IH in H as [-> H]; [|lia|lia]. split; [lia|]. intros k Hk. rewrite (H k Hk).
  destruct (Z.eqb_spec k bit) as [->|Hkb].
  - replace (bit + 1 <=? bit) with false by lia. replace (bit <=? bit) with true by zbool.
    replace (bit <? bit + Z.min (Z.of_nat (S n)) count) with true by zbool. simpl.
    destruct (op =? PFS_BITMAP_ALLOC).
    + rewrite Z.lor_spec, testbit_one by lia. rewrite Z.eqb_refl. apply orb_true_r.
    + rewrite Z.ldiff_spec, testbit_one by lia. rewrite Z.eqb_refl. apply andb_false_r.
  - replace (bit + 1 <=? k) with (bit <=? k) by zbool.
    replace (k <? bit + 1 + Z.min (Z.of_nat n) (count - 1))
      with (k <? bit + Z.min (Z.of_nat (S n)) count) by zbool.
    destruct ((bit <=? k) && _); [done|].
    destruct (op =? PFS_BITMAP_ALLOC).
    + rewrite Z.lor_spec, testbit_one by lia. replace (k =? bit) with false by zbool. apply orb_false_r.
    + rewrite Z.ldiff_spec, testbit_one by lia. replace (k =? bit) with false by zbool. apply andb_true_r.
Qed.

Lemma markBits_u32 op n bit count w w' count' :
  0 <= bit -> 0 <= count -> bit + Z.of_nat n <= 32 -> is_u32 w ->
  markBits op n bit count w = (w', count') -> is_u32 w'.
Proof.
  intros Hb Hc Hn Hw H. apply markBits_spec in H as [_ H]; [|done..].
  apply is_u32_bits. intros k Hk. rewrite H by lia.
  replace (k <? _) with false by zbool. rewrite andb_false_r. by apply is_u32_high.
Qed.

Lemma used_set32 b i v z :
  (i < length b)%nat -> is_u32 v -> 0 <= z ->
  used (set32 i v b) z = if z / 32 =? Z.of_nat i then Z.testbit v (z mod 32) else used b z.
Proof.
  intros Hi Hv Hz. unfold used. assert (0 <= z / 32) by (apply Z.div_pos; lia).
  destruct (Z.eqb_spec (z / 32) (Z.of_nat i)) as [->|Hne].
  - rewrite Nat2Z.id, get32_set32_eq by done. by rewrite u32_small.
  - rewrite get32_set32_ne by lia. done.
Qed.

(** The whole loop over words: [count] zones from (word [i], bit [bit]) on are
    marked, up to the end of the chunk; the rest is returned. *)
Lemma markChunk_spec op n : forall i bit count b b' count',
  words_ok b -> 0 <= bit < 32 -> 0 <= count -> (i + n <= length b)%nat ->
  (n = 0%nat -> bit = 0) ->
  markChunk op (seq i n) bit count b = (b', count') ->
  let start := 32 * Z.of_nat i + bit in
  let stop := 32 * Z.of_nat (i + n) in
  count' = Z.max 0 (count - (stop - start)) /\ length b' = length b /\ words_ok b' /\
  forall z, 0 <= z -> used b' z =
    if (start <=? z) && (z <? Z.min stop (start + count)) then op =? PFS_BITMAP_ALLOC else used b z.
Proof.
  induction n as [|n IH]; intros i bit count b b' count' Hok Hbit Hc Hl H0 H; cbn [seq markChunk] in H; cbv zeta.
  { injection H as <- <-. rewrite H0 by done. repeat split; [lia|done|].
    intros z Hz. replace ((_ <=? z) && _) with false by zbool. done. }
  destruct (Z.eqb_spec count 0) as [->|Hne].
  { injection H as <- <-. repeat split; [lia|done|].
    intros z Hz. replace ((_ <=? z) && _) with false by zbool. done. }
  destruct (markBits _ _ _ _ _) as [w count1] eqn:Em.
  assert (Hw : is_u32 w).
  { eapply markBits_u32; [| | |by apply words_ok_get32|exact Em]; lia. }
  apply markBits_spec in Em as [Hc1 Hbits]; [|lia..].
  rewrite Z2Nat.id in Hc1, Hbits by lia.
  apply IH in H; [|by apply words_ok_set32|lia|lia|rewrite length_set32; lia|done].
  cbv zeta in H. destruct H as (-> & -> & Hok' & Hu). rewrite length_set32.
  split; [lia|]. split; [done|]. split; [done|].
  intros z Hz. rewrite (Hu z Hz), used_set32 by (auto; lia).
  assert (Hzb : 0 <= z mod 32 < 32) by (apply Z.mod_pos_bound; lia).
  assert (Hze : z = 32 * (z / 32) + z mod 32) by (apply Z.div_mod; lia).
  rewrite Hbits by lia. unfold used.
  destruct (Z.eqb_spec (z / 32) (Z.of_nat i)) as [Hi|Hi].
  - replace (_ <=? z) with false by zbool. simpl. rewrite Hi, Nat2Z.id.
    replace (bit <=? z mod 32) with (32 * Z.of_nat i + bit <=? z) by zbool.
    replace (z mod 32 <? bit + Z.min (32 - bit) count)
      with (z <? Z.min (32 * Z.of_nat (i + S n)) (32 * Z.of_nat i + bit + count)) by zbool. done.
  - replace ((32 * Z.of_nat (S i) + 0 <=? z) && _)
      with ((32 * Z.of_nat i + bit <=? z) && (z <? Z.min (32 * Z.of_nat (i + S n)) (32 * Z.of_nat i + bit + count)))
      by zbool. done.
Qed.

(** ** Searching *)

(** The zone named by (chunk, word, bit). *)
Definition zone_of (p : Z * Z * Z) : Z :=
  let '(chunk, pos, bit) := p in chunk * pfsBitsPerBitmapChunk + pos * 32 + bit.

(** Reference search: the first run of [amount] free zones among [n] zones from
    [z], when the [count] zones before [z] are a free run; [inl] is the length
    of the run the search ends with. *)
Fixpoint firstFit (free : Z -> bool) (amount : Z) (n : nat) (z count : Z) : Z + Z :=
  match n with
  | O => inl count
  | S n' =>
      if free z then
        if count + 1 =? amount then inr (z - count) else firstFit free amount n' (z + 1) (count + 1)
      else firstFit free amount n' (z + 1) 0
  end.

Definition free_run (free : Z -> bool) (a b : Z) : Prop := forall y, a <= y < b -> free y = true.

Lemma free_run_snoc free a b : free_run free a b -> free b = true -> free_run free a (b + 1).
Proof. intros H Hb y Hy. destruct (Z.eq_dec y b) as [->|]; [done | apply H; lia]. Qed.

Lemma firstFit_found free amount n : forall z count s,
  0 <= count < amount -> free_run free (z - count) z ->
  firstFit free amount n z count = inr s ->
  z - count <= s /\ s + amount <= z + Z.of_nat n /\ free_run free s (s + amount) /\
  forall s', z - count <= s' < s -> exists y, s' <= y < s' + amount /\ free y = false.
Proof.
  induction n as [|n IH]; intros z count s Hc Hr H; cbn [firstFit] in H; [done|].
  destruct (free z) eqn:Ez.
  - destruct (Z.eqb_spec (count + 1) amount) as [E|E].
    + injection H as <-. pose proof (free_run_snoc _ _ _ Hr Ez).
      repeat split; [lia|lia| |intros; lia]. replace (z - count + amount) with (z + 1) by lia. done.
    + apply IH in H; [|lia|replace (z + 1 - (count + 1)) with (z - count) by lia; by apply free_run_snoc].
      destruct H as (H1 & H2 & H3 & H4). repeat split; [lia|lia|done|]. intros s' Hs'. apply H4. lia.
  - apply IH in H; [|lia|intros y Hy; lia]. destruct H as (H1 & H2 & H3 & H4).
    repeat split; [lia|lia|done|]. intros s' Hs'.
    destruct (Z.leb_spec (z + 1) s'); [apply H4; lia|]. exists z. split; [lia|done].
Qed.

Lemma firstFit_none free amount n : forall z count c,
  0 <= count < amount -> free_run free (z - count) z ->
  firstFit free amount n z count = inl c ->
  0 <= c < amount /\ free_run free (z + Z.of_nat n - c) (z + Z.of_nat n) /\
  forall s', z - count <= s' -> s' + amount <= z + Z.of_nat n ->
    exists y, s' <= y < s' + amount /\ free y = false.
Proof.
  induction n as [|n IH]; intros z count c Hc Hr H; cbn [firstFit] in H.
  { injection H as <-. rewrite Z.add_0_r. repeat split; [lia|lia|done|intros; lia]. }
  replace (z + Z.of_nat (S n)) with (z + 1 + Z.of_nat n) by lia.
  destruct (free z) eqn:Ez.
  - destruct (Z.eqb_spec (count + 1) amount) as [E|E]; [done|].
    apply IH in H; [|lia|replace (z + 1 - (count + 1)) with (z - count) by lia; by apply free_run_snoc].
    destruct H as (H1 & H2 & H3). repeat split; [lia|lia|done|]. intros s' ??. apply H3; lia.
  - apply IH in H; [|lia|intros y Hy; lia]. destruct H as (H1 & H2 & H3).
    repeat split; [lia|lia|done|]. intros s' ??.
    destruct (Z.leb_spec (z + 1) s'); [apply H3; lia|]. exists z. split; [lia|done].
Qed.

(** The result of a search as seen by the code: a position instead of a zone. *)
Definition scan_agrees (amount zend : Z) (r : Z + Z) (res : (Z * (Z * Z * Z)) + (Z * (Z * Z * Z))) : Prop :=
  match res, r with
  | inl (c, st), inl c' => c = c' /\ 0 <= c /\ (0 < c -> zone_of st = zend - c)
  | inr (c, st), inr s => c = amount /\ zone_of st = s
  | _, _ => False
  end.

Lemma land_shiftr_one w k : 0 <= k -> (Z.land (Z.shiftr w k) 1 =? 0) = negb (Z.testbit w k).
Proof.
  intros Hk. change 1 with (Z.ones 1). rewrite Z.land_ones by lia. change (2 ^ 1) with 2.
  rewrite <- Z.bit0_mod, Z.shiftr_spec, Z.add_0_l by lia. by destruct (Z.testbit w k).
Qed.

Lemma scanBits_spec free amount chunk i w n : forall bit count start,
  let here k := (chunk, Z.of_nat i, k) in
  0 <= bit -> 0 <= count ->
  (forall k, bit <= k < bit + Z.of_nat n -> free (zone_of (here k)) = negb (Z.testbit w k)) ->
  (0 < count -> zone_of start = zone_of (here bit) - count) ->
  scan_agrees amount (zone_of (here bit) + Z.of_nat n)
    (firstFit free amount n (zone_of (here bit)) count) (scanBits n bit amount here w count start).
Proof.
  cbv zeta. induction n as [|n IH]; intros bit count start Hb Hc Hf Hs; cbn [firstFit scanBits].
  { rewrite Z.add_0_r. simpl. auto. }
  rewrite land_shiftr_one by lia. rewrite (Hf bit) by lia.
  replace (zone_of (chunk, Z.of_nat i, bit) + Z.of_nat (S n))
    with (zone_of (chunk, Z.of_nat i, bit + 1) + Z.of_nat n) by (simpl; lia).
  replace (zone_of (chunk, Z.of_nat i, bit) + 1) with (zone_of (chunk, Z.of_nat i, bit + 1)) by (simpl; lia).
  destruct (Z.testbit w bit); simpl negb; cbv iota.
  - apply IH; [lia|lia|intros; apply Hf; lia|lia].
  - assert (Hst : zone_of (if count =? 0 then (chunk, Z.of_nat i, bit) else start)
                  = zone_of (chunk, Z.of_nat i, bit) - count).
    { destruct (Z.eqb_spec count 0); [lia | apply Hs; lia]. }
    destruct (Z.eqb_spec (count + 1) amount) as [E|E]; [simpl in Hst |- *; lia|].
    apply IH; [lia|lia|intros; apply Hf; lia|]. intros _. rewrite Hst. simpl. lia.
Qed.

Lemma firstFit_app free amount n1 n2 : forall z count,
  firstFit free amount (n1 + n2) z count =
  match firstFit free amount n1 z count with
  | inl c => firstFit free amount n2 (z + Z.of_nat n1) c
  | inr s => inr s
  end.
Proof.
  induction n1 as [|n1 IH]; intros z count; cbn [firstFit Nat.add]; [by rewrite Z.add_0_r|].
  replace (z + Z.of_nat (S n1)) with (z + 1 + Z.of_nat n1) by lia.
  destruct (free z), (count + 1 =? amount); auto.
Qed.

Lemma scanWords_spec free amount chunk b n : forall i bit count start,
  0 <= bit < 32 -> 0 <= count -> (n = 0%nat -> bit = 0) ->
  (forall z, 32 * Z.of_nat i + bit <= z < 32 * Z.of_nat (i + n) ->
     free (chunk * pfsBitsPerBitmapChunk + z) = negb (used b z)) ->
  let z := zone_of (chunk, Z.of_nat i, bit) in
  let len := 32 * Z.of_nat n - bit in
  (0 < count -> zone_of start = z - count) ->
  scan_agrees amount (z + len) (firstFit free amount (Z.to_nat len) z count)
    (scanWords (seq i n) chunk bit amount b count start).
Proof.
  induction n as [|n IH]; intros i bit count start Hb Hc H0 Hf z len Hs; cbn [seq scanWords].
  { subst len. rewrite H0 by done. simpl. split; [done|]. split; [done|]. intros Hp. rewrite (Hs Hp). lia. }
  set (n1 := Z.to_nat (32 - bit)). set (n2 := (32 * n)%nat).
  replace (Z.to_nat len) with (n1 + n2)%nat by lia. rewrite firstFit_app.
  pose proof (scanBits_spec free amount chunk i (get32 b i) n1 bit count start) as Hbits.
  cbv beta zeta in Hbits. change (zone_of (chunk, Z.of_nat i, bit)) with z in Hbits. specialize (Hbits ltac:(lia) Hc).
  assert (Hk : forall k, bit <= k < bit + Z.of_nat n1 ->
                 free (zone_of (chunk, Z.of_nat i, k)) = negb (Z.testbit (get32 b i) k)).
  { intros k Hk. rewrite <- used_word by lia. rewrite <- Hf by lia. f_equal. simpl. lia. }
  specialize (Hbits Hk Hs).
  destruct (scanBits _ _ _ _ _ _ _) as [[c st]|[c st]], (firstFit free amount n1 z count) as [c'|s];
    [|destruct Hbits..|exact Hbits].
  destruct Hbits as (<- & Hc0 & Hst).
  replace (z + Z.of_nat n1) with (zone_of (chunk, Z.of_nat (S i), 0)) in * by (subst z; unfold zone_of; lia).
  specialize (IH (S i) 0 c st ltac:(lia) Hc0 ltac:(done)). cbv zeta in IH.
  replace (Z.to_nat (32 * Z.of_nat n - 0)) with n2 in IH by lia.
  replace (z + len) with (zone_of (chunk, Z.of_nat (S i), 0) + (32 * Z.of_nat n - 0))
    by (subst z len; unfold zone_of; lia).
  apply IH; [|exact Hst]. intros y Hy. apply Hf. lia.
Qed.

(** ** Counting *)

(** Free zones among [n] zones from [z]. *)
Fixpoint countFree (b : buf) (n : nat) (z : Z) : Z :=
  match n with
  | O => 0
  | S n' => b2z (negb (used b z)) + countFree b n' (z + 1)
  end.

Lemma countFree_bound b n z : 0 <= countFree b n z <= Z.of_nat n.
Proof. revert z. induction n as [|n IH]; intros z; cbn [countFree]; [lia|].
  specialize (IH (z + 1)). destruct (used b z); simpl; lia. Qed.

Lemma countFree_app b n1 n2 z : countFree b (n1 + n2) z = countFree b n1 z + countFree b n2 (z + Z.of_nat n1).
Proof.
  revert z. induction n1 as [|n1 IH]; intros z; cbn [countFree Nat.add]; [by rewrite Z.add_0_r|].
  rewrite IH. replace (z + Z.of_nat (S n1)) with (z + 1 + Z.of_nat n1) by lia. lia.
Qed.

(** The zero bits of a byte. *)
Definition zeroBits (x : Z) : Z := foldl (fun s k => s + b2z (negb (Z.testbit x k))) 0 [0; 1; 2; 3; 4; 5; 6; 7].

Lemma freeOfByte_zeroBits x : 0 <= x < 256 -> freeOfByte x = zeroBits x.
Proof.
  intros Hx. assert (H : forallb (fun k => freeOfByte (Z.of_nat k) =? zeroBits (Z.of_nat k)) (seq 0 256) = true)
    by (vm_compute; reflexivity).
  rewrite forallb_forall in H. specialize (H (Z.to_nat x)). rewrite Z2Nat.id in H by lia.
  apply Z.eqb_eq, H, in_seq. lia.
Qed.

Lemma get8_testbit b o k : 0 <= k < 8 -> Z.testbit (get8 b o) k = used b (8 * Z.of_nat o + k).
Proof.
  intros Hk. unfold get8, u8, used. rewrite Z.mod_pow2_bits_low, Z.shiftr_spec by lia.
  assert (H := Nat.div_mod o 4 ltac:(lia)). assert (H' := Nat.mod_upper_bound o 4 ltac:(lia)).
  set (q := (o / 4)%nat) in *. set (r := (o mod 4)%nat) in *.
  replace (8 * Z.of_nat o + k) with (32 * Z.of_nat q + (k + 8 * Z.of_nat r)) by lia.
  destruct (zone_word (Z.of_nat q) (k + 8 * Z.of_nat r)) as [-> ->]; [lia|lia|].
  by rewrite Nat2Z.id.
Qed.

Lemma freeOfByte_count b o : freeOfByte (get8 b o) = countFree b 8 (8 * Z.of_nat o).
Proof.
  rewrite freeOfByte_zeroBits by (unfold get8, u8; apply Z.mod_pos_bound; lia).
  unfold zeroBits, foldl. rewrite !get8_testbit by lia. cbn [countFree].
  rewrite <- !(Z.add_assoc (8 * Z.of_nat o)).
  change (1 + 1) with 2. change (2 + 1) with 3. change (3 + 1) with 4. change (4 + 1) with 5.
  change (5 + 1) with 6. change (6 + 1) with 7. rewrite (Z.add_0_r (8 * Z.of_nat o)). lia.
Qed.

Lemma freeOfChunk_fold b l : forall z,
  0 <= z -> z + 8 * Z.of_nat (length l) < 2 ^ 32 -> (exists i, l = seq i (length l)) ->
  foldl (fun z i => u32 (z + freeOfByte (get8 b i))) z l =
  z + match l with [] => 0 | i :: _ => countFree b (8 * length l) (8 * Z.of_nat i) end.
Proof.
  induction l as [|i l IH]; intros z Hz Hl [j Hj]; [simpl; lia|].
  simpl in Hj. injection Hj as -> Hj.
  replace (8 * length (j :: l))%nat with (8 + 8 * length l)%nat by (simpl length; lia).
  rewrite countFree_app, <- freeOfByte_count. simpl length in Hl.
  assert (Hb : 0 <= freeOfByte (get8 b j) <= 8) by (rewrite freeOfByte_count; apply (countFree_bound b 8)).
  cbn [foldl]. rewrite u32_small by (unfold is_u32; lia).
  rewrite IH; [|lia|lia|by exists (S j)].
  destruct l as [|i' l']; [simpl; lia|]. simpl in Hj. injection Hj as -> _.
  replace (8 * Z.of_nat j + Z.of_nat 8) with (8 * Z.of_nat (S j)) by lia. lia.
Qed.
