(* ===== verification/PfsProps.v ===== *)
(** * PfsProps: correctness of the zone bitmaps of libpfs *)

From stdpp Require Import base numbers list gmap.
From Stdlib Require Import ZArith Lia.
From S2P Require Import Prelude ApaState PfsState PfsCache PfsBitmap PfsScenario PfsBits.

Open Scope Z_scope.
Open Scope c_scope.

(** ** One chunk *)

(** A bitmap chunk in a cache buffer, and a position in it. *)
Definition chunk_ok (b : buf) : Prop := words_ok b /\ length b = 256%nat.
Definition pos_ok (index bit : Z) : Prop := 0 <= index < 256 /\ 0 <= bit < 32.

Lemma words_seq index : 0 <= index -> words index (pfsMetaSize / 4) = seq (Z.to_nat index) (256 - Z.to_nat index).
Proof.
  intros H. unfold words. change (pfsMetaSize / 4) with 256.
  f_equal. rewrite Z2Nat.inj_sub by lia. reflexivity.
Qed.

(** C13: marking [count] zones of a chunk from (word [index], bit [bit]) on sets
    (or clears) the bits of exactly those zones that lie in the chunk, leaves
    every other zone as it was, and returns how many zones are left for the
    next chunk. *)
Theorem mark_zones op b index bit count :
  chunk_ok b -> pos_ok index bit -> 0 <= count ->
  let start := 32 * index + bit in
  let '(b', rest) := markChunk op (words index (pfsMetaSize / 4)) bit count b in
  rest = Z.max 0 (start + count - pfsBitsPerBitmapChunk) /\ chunk_ok b' /\
  forall z, 0 <= z < pfsBitsPerBitmapChunk ->
    used b' z = if (start <=? z) && (z <? start + count) then op =? PFS_BITMAP_ALLOC else used b z.
Proof.
  intros [Hb Hl] [Hi Hbit] Hc. cbv zeta. rewrite words_seq by lia.
  destruct (markChunk _ _ _ _ _) as [b' rest] eqn:E.
  apply markChunk_spec in E; [|done|done|done|lia|lia]. cbv zeta in E.
  destruct E as (-> & El & Hok & Hu). unfold pfsBitsPerBitmapChunk.
  split; [lia|]. split; [split; [done|lia]|].
  intros z Hz. rewrite Hu by lia.
  replace (z <? Z.min _ _) with (z <? 32 * index + bit + count) by zbool.
  by replace (32 * Z.of_nat (Z.to_nat index) + bit) with (32 * index + bit) by lia.
Qed.

Lemma chunk_zeros : chunk_ok (zeros 256).
Proof. split; [apply words_ok_zeros | apply length_zeros]. Qed.

Lemma mark_zones_witness :
  let '(b', rest) := markChunk PFS_BITMAP_ALLOC (words 254 (pfsMetaSize / 4)) 30 40 (zeros 256) in
  rest = 6 /\ used b' (32 * 254 + 29) = false /\ used b' (32 * 255 + 31) = true.
Proof.
  pose proof (mark_zones PFS_BITMAP_ALLOC (zeros 256) 254 30 40 chunk_zeros ltac:(split; lia) ltac:(lia)) as H.
  cbv zeta in H. destruct (markChunk _ _ _ _ _) as [b' rest]. destruct H as (-> & _ & Hu).
  split; [reflexivity|]. rewrite !Hu by (unfold pfsBitsPerBitmapChunk; lia). split; reflexivity.
Defined.

(** Freeing zones undoes their allocation: when the [count] zones from
    (word [index], bit [bit]) on are free and lie in the chunk, allocating and
    then freeing them gives back the same chunk, bit for bit. *)
Theorem mark_roundtrip b index bit count :
  chunk_ok b -> pos_ok index bit -> 0 <= count ->
  32 * index + bit + count <= pfsBitsPerBitmapChunk ->
  free_run (fun z => negb (used b z)) (32 * index + bit) (32 * index + bit + count) ->
  let allocated := (markChunk PFS_BITMAP_ALLOC (words index (pfsMetaSize / 4)) bit count b).1 in
  markChunk PFS_BITMAP_FREE (words index (pfsMetaSize / 4)) bit count allocated = (b, 0).
Proof.
  intros [Hb Hl] [Hi Hbit] Hc Hfit Hfree. cbv zeta. rewrite words_seq by lia.
  destruct (markChunk PFS_BITMAP_ALLOC _ _ _ _) as [b1 r1] eqn:E1. cbn [fst].
  apply markChunk_spec in E1; [|done|done|done|lia|lia]. cbv zeta in E1. destruct E1 as (_ & Hl1 & Hok1 & Hu1).
  destruct (markChunk PFS_BITMAP_FREE _ _ _ _) as [b2 r2] eqn:E2.
  apply markChunk_spec in E2; [|done|done|done|lia|lia]. cbv zeta in E2. destruct E2 as (-> & Hl2 & Hok2 & Hu2).
  unfold pfsBitsPerBitmapChunk in Hfit. f_equal; [|lia].
  apply used_ext; [done|done|lia|]. intros z Hz. rewrite Hu2, Hu1 by lia.
  destruct (_ && _) eqn:Ez; [|done]. symmetry. simpl.
  apply andb_prop in Ez as [E1%Z.leb_le E2%Z.ltb_lt]. apply negb_true_iff, Hfree. lia.
Qed.

Lemma mark_roundtrip_witness :
  let allocated := (markChunk PFS_BITMAP_ALLOC (words 7 (pfsMetaSize / 4)) 5 100 (zeros 256)).1 in
  markChunk PFS_BITMAP_FREE (words 7 (pfsMetaSize / 4)) 5 100 allocated = (zeros 256, 0).
Proof.
  apply (mark_roundtrip (zeros 256) 7 5 100); [apply chunk_zeros | split; lia | lia |
    unfold pfsBitsPerBitmapChunk; lia |].
  intros y _. unfold used. rewrite get32_zeros, Z.testbit_0_l. reflexivity.
Defined.

(** C15: the search for [amount] free zones is a first-fit search.  With [free]
    the free zones of the partition, and a free run of [count] zones already
    met before (word [index], bit [bit]) of chunk [chunk], scanning the words
    of the chunk either finds the first run of [amount] free zones, or there is
    no such run up to the end of the words scanned, and the run of free zones
    before that end is carried over to the next chunk. *)
Theorem scan_first_fit free b chunk index n bit count amount start :
  pos_ok (Z.of_nat index) bit -> 0 <= count < amount -> (n <> 0)%nat ->
  let zstart := zone_of (chunk, Z.of_nat index, bit) in
  let zend := zone_of (chunk, Z.of_nat (index + n), 0) in
  (forall z, 32 * Z.of_nat index + bit <= z < 32 * Z.of_nat (index + n) ->
     free (chunk * pfsBitsPerBitmapChunk + z) = negb (used b z)) ->
  free_run free (zstart - count) zstart -> (0 < count -> zone_of start = zstart - count) ->
  let no_run s := exists y, s <= y < s + amount /\ free y = false in
  match scanWords (seq index n) chunk bit amount b count start with
  | inr (c, st) =>
      c = amount /\ free_run free (zone_of st) (zone_of st + amount) /\
      zstart - count <= zone_of st /\ zone_of st + amount <= zend /\
      forall s, zstart - count <= s < zone_of st -> no_run s
  | inl (c, st) =>
      0 <= c < amount /\ free_run free (zend - c) zend /\ (0 < c -> zone_of st = zend - c) /\
      forall s, zstart - count <= s -> s + amount <= zend -> no_run s
  end.
Proof.
  intros [Hi Hb] Hc Hn zstart zend Hf Hrun Hst no_run.
  pose proof (scanWords_spec free amount chunk b n index bit count start Hb ltac:(lia) ltac:(done) Hf) as H.
  cbv zeta in H. specialize (H Hst). fold zstart in H.
  set (len := 32 * Z.of_nat n - bit) in H.
  assert (Hend : zstart + len = zend) by (subst zstart zend len; unfold zone_of; lia).
  rewrite Hend in H. assert (Hlen : Z.of_nat (Z.to_nat len) = len) by lia.
  destruct (scanWords _ _ _ _ _ _ _) as [[c st]|[c st]],
    (firstFit free amount (Z.to_nat len) zstart count) as [c'|s] eqn:E; [|destruct H..|].
  - destruct H as (<- & Hc0 & Hs). apply firstFit_none in E; [|done|done].
    rewrite Hlen, Hend in E. destruct E as (E1 & E2 & E3). auto.
  - destruct H as (-> & <-). apply firstFit_found in E; [|done|done].
    rewrite Hlen, Hend in E. destruct E as (E1 & E2 & E3 & E4). auto.
Qed.

(** A chunk whose first 40 zones are used, and zone 50. *)
Definition demo_chunk : buf := set32 1 (255 + 2 ^ 18) (set32 0 (2 ^ 32 - 1) (zeros 256)).

Lemma scan_first_fit_witness :
  match scanWords (seq 0 256) 0 0 20 demo_chunk 0 (0, 0, 0) with
  | inr (c, st) => c = 20 /\ zone_of st = 51
  | inl _ => False
  end.
Proof.
  pose proof (scan_first_fit (fun z => negb (used demo_chunk z)) demo_chunk 0 0 256 0 0 20 (0, 0, 0)
    ltac:(split; lia) ltac:(lia) ltac:(lia)) as H.
  cbv zeta in H. specialize (H ltac:(done) ltac:(intros y Hy; simpl in Hy; lia) ltac:(lia)).
  destruct (scanWords _ _ _ _ _ _ _) as [[c st]|[c st]] eqn:E; vm_compute in E; [discriminate|].
  injection E as <- <-. split; [apply H | reflexivity].
Defined.

(** C16: the table-driven count of [pfsBitmapCalcFreeZones] is the number of
    zones of the first [size] bytes of the chunk whose bit is clear. *)
Theorem free_count b size zoneFree :
  0 <= size <= pfsMetaSize -> 0 <= zoneFree -> zoneFree + 8 * size < 2 ^ 32 ->
  freeOfChunk b size zoneFree = zoneFree + countFree b (8 * Z.to_nat size) 0.
Proof.
  intros Hs Hz Hlt. unfold freeOfChunk. rewrite freeOfChunk_fold.
  - rewrite length_seq. by destruct (Z.to_nat size).
  - done.
  - rewrite length_seq. lia.
  - rewrite length_seq. by exists 0%nat.
Qed.

Lemma free_count_witness : freeOfChunk demo_chunk 1024 7 = 7 + countFree demo_chunk (8 * Z.to_nat 1024) 0.
Proof. apply (free_count demo_chunk 1024 7); unfold pfsMetaSize; lia. Defined.

(** ** A full file system *)

Section Full.
Context {D : Type} `{BlockDevice D}.

(** No partition of mount [x] has a free zone. *)
Definition all_full (x : pfs_mount_t) : Prop :=
  0 <= m_num_subs x < 65535 /\ forall sub, 0 <= sub <= m_num_subs x -> free_zone x sub = Some 0.

Lemma tryHalves_full s m x bi k : forall n fuel,
  pfsMountBuf s !! m = Some x -> free_zone x (bi_subpart bi) = Some 0 ->
  0 <= n < 2 ^ Z.of_nat k -> (k < fuel)%nat -> tryHalves fuel m bi n s = Done (false, bi) s.
Proof.
  induction k as [|k IH]; intros n [|fuel] Hm Hf Hn Hk; try lia; cbn [tryHalves].
  { replace n with 0 by (simpl in Hn; lia). reflexivity. }
  destruct (Z.eqb_spec n 0) as [->|Hne]; [reflexivity|].
  rewrite (bind_Done _ _ _ _ _ (mget_Done s m x Hm)). rewrite Hf.
  replace (n <=? 0) with false by lia. apply IH; try done; [|lia].
  rewrite Nat2Z.inj_succ, Z.pow_succ_r in Hn by lia.
  split; [apply Z.div_pos; lia | apply Z.div_lt_upper_bound; lia].
Qed.

Lemma searchStep_full s m x count num bi :
  pfsMountBuf s !! m = Some x -> all_full x -> 0 <= count < 2 ^ 32 ->
  0 <= num -> 0 <= bi_subpart bi <= m_num_subs x ->
  exists bi', searchStep m count (num, bi) s = Done (inl (u32 (num - 1), bi')) s /\
              0 <= bi_subpart bi' <= m_num_subs x.
Proof.
  intros Hm [Hsubs Hfull] Hc Hn Hb. unfold searchStep. replace (0 <=? num) with true by lia.
  rewrite (bind_Done _ _ _ _ _ (tryHalves_full s m x bi 32 count 33 Hm (Hfull _ Hb) Hc ltac:(lia))).
  rewrite (bind_Done _ _ _ _ _ (mget_Done s m x Hm)).
  eexists. split; [reflexivity|]. cbn [bi_subpart]. rewrite u16_small by lia.
  destruct (Z.eqb_spec (bi_subpart bi + 1) (m_num_subs x + 1)); lia.
Qed.

Lemma searchLoop_full s m x count : forall fuel num bi,
  pfsMountBuf s !! m = Some x -> all_full x -> 0 <= count < 2 ^ 32 ->
  0 <= num -> 0 <= bi_subpart bi <= m_num_subs x ->
  while_ fuel (searchStep m count) (num, bi) s = NoFuel.
Proof.
  induction fuel as [|fuel IH]; intros num bi Hm Hx Hc Hn Hb; [reflexivity|].
  destruct (searchStep_full s m x count num bi Hm Hx Hc Hn Hb) as (bi' & E & Hb').
  rewrite while_S, E. apply IH; auto. apply u32_range.
Qed.

(** C17: on a full file system [pfsBitmapSearchFreeZone] never returns: its
    loop counter is unsigned, so that the condition [num >= 0] always holds
    and the error -ENOSPC, announced by its comment and handled by its
    callers, is never returned. *)
Theorem search_never_ends (s : pfs_st D) m x bi max_count fuel :
  pfsMountBuf s !! m = Some x -> all_full x ->
  0 <= bi_subpart bi -> 0 <= bi_count bi < 2 ^ 16 -> 0 <= max_count < 2 ^ 32 ->
  pfsBitmapSearchFreeZone fuel m bi max_count s = NoFuel.
Proof.
  intros Hm Hx Hb Hbc Hmc. unfold pfsBitmapSearchFreeZone.
  rewrite (bind_Done _ _ _ _ _ (mget_Done s m x Hm)). cbv zeta.
  destruct Hx as [Hsubs Hfull]. rewrite (u32_small (m_num_subs x + 1)) by (unfold is_u32; lia).
  apply (searchLoop_full s m x); [done | done | | apply u32_range |].
  - set (c := if max_count <? 33 then _ else _).
    assert (0 <= c < 2 ^ 32) by (subst c; destruct (Z.ltb_spec max_count 33); lia).
    destruct (c <? _); [|done]. destruct (_ <=? bi_subpart bi); simpl; lia.
  - destruct (Z.leb_spec (m_num_subs x + 1) (bi_subpart bi)); simpl; lia.
Qed.
End Full.

(** A mount of [pfs0] whose counters are all 0 is full. *)
Lemma search_never_ends_witness :
  pfsBitmapSearchFreeZone 100 0 (mkBi 0 0 1) 1 pfs0 = NoFuel.
Proof.
  apply (search_never_ends pfs0 0 mount0); [reflexivity | | simpl; lia.. ].
  split; [simpl; lia|]. intros sub Hs. assert (sub = 0) as -> by (simpl in Hs; lia). reflexivity.
Defined.
