(* ===== verification/PfsSizeProps.v ===== *)
(** * PfsSizeProps: zone sizes, scales and bitmap sizes of libpfs *)

From stdpp Require Import base numbers list.
From Stdlib Require Import ZArith Lia.
From S2P Require Import Prelude PfsState PfsCache.

Open Scope Z_scope.

(** ** Zone sizes *)

(** A number that shares no bit with its predecessor is a power of two. *)
Lemma land_pred_pow2 z : 0 < z -> Z.land z (z - 1) = 0 -> z = 2 ^ Z.log2 z.
Proof.
  intros Hz H. pose proof (Z.log2_spec z Hz) as [H1 H2]. pose proof (Z.log2_nonneg z).
  destruct (Z.eq_dec z (2 ^ Z.log2 z)) as [|Hne]; [done|]. exfalso.
  assert (Hl : Z.log2 (z - 1) = Z.log2 z) by (apply Z.log2_unique; lia).
  assert (Hb : Z.testbit (Z.land z (z - 1)) (Z.log2 z) = true).
  { rewrite Z.land_spec, Z.bit_log2 by lia. rewrite <- Hl. apply Z.bit_log2.
    assert (0 < 2 ^ Z.log2 z) by (apply Z.pow_pos_nonneg; lia). lia. }
  by rewrite H, Z.testbit_0_l in Hb.
Qed.

(** [pfsCheckZoneSize] accepts exactly the powers of two from 2 KB to 128
    KB, and for each of them [pfsGetScale] ends with the scale of the zone over
    a sector: its loop has no other exit, so that it would not end for a size
    that is not a sector times a power of two. *)
Theorem zone_size_scale z :
  0 <= z < 2 ^ 32 ->
  pfsCheckZoneSize z = 1 <-> exists k, 11 <= k <= 17 /\ z = 2 ^ k /\ pfsGetScale z 512 = Some (k - 9).
Proof.
  intros Hz. split.
  - intros H. unfold pfsCheckZoneSize in H.
    destruct (nz _) eqn:En; simpl in H; [done|]. apply nz_false in En.
    destruct (Z.ltb_spec z (2 * 1024)), (Z.ltb_spec (128 * 1024) z); simpl in H; try done.
    rewrite u32_small in En by (unfold is_u32; lia). apply land_pred_pow2 in En; [|lia].
    exists (Z.log2 z). assert (Hk : 11 <= Z.log2 z <= 17).
    { split; [apply Z.log2_le_pow2; lia | apply Z.lt_succ_r, Z.log2_lt_pow2; lia]. }
    split; [done|]. split; [done|]. rewrite En at 1. set (k := Z.log2 z) in *.
    assert (k = 11 \/ k = 12 \/ k = 13 \/ k = 14 \/ k = 15 \/ k = 16 \/ k = 17) as Hc by lia.
    repeat (destruct Hc as [-> | Hc]; [reflexivity|]). rewrite Hc. reflexivity.
  - intros (k & Hk & -> & _).
    assert (k = 11 \/ k = 12 \/ k = 13 \/ k = 14 \/ k = 15 \/ k = 16 \/ k = 17) as Hc by lia.
    repeat (destruct Hc as [-> | Hc]; [reflexivity|]). subst k. reflexivity.
Qed.

Lemma zone_size_scale_witness :
  pfsCheckZoneSize 8192 = 1 <-> exists k, 11 <= k <= 17 /\ 8192 = 2 ^ k /\ pfsGetScale 8192 512 = Some (k - 9).
Proof. apply (zone_size_scale 8192); lia. Defined.

(** ** Size of the bitmap *)

Lemma land_7 x : Z.land x 7 = x mod 8.
Proof. change 7 with (Z.ones 3). rewrite Z.land_ones by lia. done. Qed.
Lemma land_511 x : Z.land x 511 = x mod 512.
Proof. change 511 with (Z.ones 9). rewrite Z.land_ones by lia. done. Qed.

(** C31: the sectors reserved for a bitmap hold a bit for every zone of the
    partition, and exactly that many when the zones fill whole sectors of the
    bitmap; the blocks reserved hold those sectors. *)
Theorem bitmap_holds_zones scale partSize :
  2 <= scale -> 0 <= partSize < 2 ^ 32 ->
  let zones := partSize / 2 ^ scale in
  let sectors := pfsGetBitmapSizeSectors scale partSize in
  zones <= 4096 * sectors /\ (zones mod 4096 = 0 -> 4096 * sectors = zones) /\
  sectors <= pfsGetBitmapSizeBlocks scale partSize * 2 ^ scale.
Proof.
  intros Hs Hp zones sectors. unfold sectors, pfsGetBitmapSizeBlocks.
  unfold pfsGetBitmapSizeSectors. rewrite Z.shiftl_1_l. fold zones.
  rewrite land_7, land_511.
  pose proof (Z.pow_pos_nonneg 2 scale ltac:(lia) ltac:(lia)) as Hpow.
  assert (Hz : 0 <= zones) by (apply Z.div_pos; lia).
  set (a := zones / 8 + zones mod 8). set (n := a / 512 + a mod 512).
  assert (Ha := Z.div_mod zones 8 ltac:(lia)). assert (Ha' := Z.mod_pos_bound zones 8 ltac:(lia)).
  assert (Hn := Z.div_mod a 512 ltac:(lia)). assert (Hn' := Z.mod_pos_bound a 512 ltac:(lia)).
  split; [lia|]. split.
  - intros Hm. assert (Hm' := Z.div_mod zones 4096 ltac:(lia)).
    assert (zones mod 8 = 0) by (rewrite Hm', Hm, Z.add_0_r; replace (4096 * (zones / 4096)) with (512 * (zones / 4096) * 8) by lia; apply Z.mod_mul; lia).
    assert (E : a = zones / 4096 * 512) by lia. rewrite E, Z.mod_mul in Hn' by lia.
    assert (a mod 512 = 0) by (rewrite E; apply Z.mod_mul; lia). lia.
  - assert (Hb := Z.div_mod n (2 ^ scale) ltac:(lia)). assert (Hb' := Z.mod_pos_bound n (2 ^ scale) Hpow).
    destruct (Z.ltb_spec 0 (n mod 2 ^ scale)); unfold b2z; nia.
Qed.

(** A partition of 128 MB with zones of 8 KB: 16384 zones. *)
Lemma bitmap_holds_zones_witness :
  0x40000 / 2 ^ 4 <= 4096 * pfsGetBitmapSizeSectors 4 0x40000.
Proof. apply (bitmap_holds_zones 4 0x40000); lia. Defined.

(** The size is rounded up by the remainder instead of by one: a partition of
    128 MB with zones of 128 KB (1024 zones, 128 bytes of bitmap) gets 128
    sectors for its bitmap where one is enough. *)
Example bitmap_size_wasteful : pfsGetBitmapSizeSectors 8 0x40000 = 128.
Proof. reflexivity. Qed.
