(* ===== verification/PasswordProps.v ===== *)
(** * PasswordProps: partition passwords

    [permute], the bit loops of [DESEncryptPassword], selects the bits its table
    names; from this the initial and final permutations are inverse, and the
    encryption can be undone round by round. *)

From stdpp Require Import base numbers list.
From Stdlib Require Import ZArith Lia.
From S2P Require Import Prelude Password.

Open Scope Z_scope.

(** ** 64-bit values as pairs of words

    Bit [t] (1 to 64, most significant first) of (lo, hi). *)
Definition msb (p : Z * Z) (t : Z) : bool :=
  if t <=? 32 then Z.testbit p.2 (32 - t) else Z.testbit p.1 (64 - t).

Definition pair_ok (p : Z * Z) : Prop := is_u32 p.1 /\ is_u32 p.2.

Lemma pair_ext p q : pair_ok p -> pair_ok q -> (forall t, 1 <= t <= 64 -> msb p t = msb q t) -> p = q.
Proof.
  intros [Hp1 Hp2] [Hq1 Hq2] H. destruct p as [pl ph], q as [ql qh]. simpl in *. f_equal.
  - apply Z.bits_inj'. intros k Hk. destruct (Z.ltb_spec k 32); [|by rewrite !is_u32_high].
    specialize (H (64 - k) ltac:(lia)). unfold msb in H. simpl in H.
    replace (64 - k <=? 32) with false in H by zbool. by replace (64 - (64 - k)) with k in H by lia.
  - apply Z.bits_inj'. intros k Hk. destruct (Z.ltb_spec k 32); [|by rewrite !is_u32_high].
    specialize (H (32 - k) ltac:(lia)). unfold msb in H. simpl in H.
    replace (32 - k <=? 32) with true in H by zbool. by replace (32 - (32 - k)) with k in H by lia.
Qed.

(** The pair with bit [t] alone. *)
Definition single (t : Z) : Z * Z :=
  if t <=? 32 then (0, 2 ^ (32 - t)) else if t <=? 64 then (2 ^ (64 - t), 0) else (0, 0).

(** The masks of the loop, for the 64 positions. *)
Lemma masks_ok t : 1 <= t <= 64 ->
  bitSelect (t - 1) = single t /\
  (Z.lor (srl (single t).1 1) (sll (single t).2 31), srl (single t).2 1) = single (t + 1).
Proof.
  intros Ht.
  assert (H : forallb (fun k => let t := Z.of_nat k in
      bool_decide (bitSelect (t - 1) = single t) &&
      bool_decide ((Z.lor (srl (single t).1 1) (sll (single t).2 31), srl (single t).2 1) = single (t + 1)))
    (seq 1 64) = true) by (vm_compute; reflexivity).
  rewrite forallb_forall in H. specialize (H (Z.to_nat t)). cbv zeta in H. rewrite Z2Nat.id in H by lia.
  apply andb_prop in H as [H1%bool_decide_eq_true_1 H2%bool_decide_eq_true_1]; [done|]. apply in_seq. lia.
Qed.

Lemma single_ok t : 1 <= t -> pair_ok (single t).
Proof.
  intros Ht. unfold single, pair_ok, is_u32. destruct (Z.leb_spec t 32); [|destruct (Z.leb_spec t 64)]; simpl; [..|lia].
  - pose proof (Z.pow_lt_mono_r 2 (32 - t) 32). pose proof (Z.pow_nonneg 2 (32 - t)). lia.
  - pose proof (Z.pow_lt_mono_r 2 (64 - t) 32). pose proof (Z.pow_nonneg 2 (64 - t)). lia.
Qed.

Lemma testbit_pow2 k i : 0 <= k -> Z.testbit (2 ^ k) i = (i =? k).
Proof. intros Hk. rewrite <- Z.shiftl_1_l. by apply testbit_one. Qed.

Lemma msb_single t u : 1 <= t <= 64 -> 1 <= u <= 64 -> msb (single t) u = (u =? t).
Proof.
  intros Ht Hu. unfold msb, single.
  destruct (Z.leb_spec u 32), (Z.leb_spec t 32); try (replace (t <=? 64) with true by zbool); cbn [fst snd];
    rewrite ?Z.testbit_0_l, ?testbit_pow2 by lia; zbool.
Qed.

(** The test of the loop: is the masked bit set. *)
Lemma mask_test p t : 1 <= t <= 64 ->
  nz (Z.lor (Z.land p.1 (single t).1) (Z.land p.2 (single t).2)) = msb p t.
Proof.
  intros Ht. unfold single, msb. destruct (Z.leb_spec t 32); [|replace (t <=? 64) with true by zbool]; cbn [fst snd].
  - rewrite Z.land_0_r, Z.lor_0_l. destruct (Z.testbit p.2 (32 - t)) eqn:E.
    + apply nz_true. intros H0. assert (Hb : Z.testbit (Z.land p.2 (2 ^ (32 - t))) (32 - t) = true)
        by (rewrite Z.land_spec, E, Z.pow2_bits_true by lia; done).
      rewrite H0, Z.testbit_0_l in Hb. done.
    + apply nz_false, Z.bits_inj'. intros i Hi. rewrite Z.land_spec, testbit_pow2, Z.testbit_0_l by lia.
      destruct (Z.eqb_spec i (32 - t)) as [->|]; [by rewrite E | apply andb_false_r].
  - rewrite Z.land_0_r, Z.lor_0_r. destruct (Z.testbit p.1 (64 - t)) eqn:E.
    + apply nz_true. intros H0. assert (Hb : Z.testbit (Z.land p.1 (2 ^ (64 - t))) (64 - t) = true)
        by (rewrite Z.land_spec, E, Z.pow2_bits_true by lia; done).
      rewrite H0, Z.testbit_0_l in Hb. done.
    + apply nz_false, Z.bits_inj'. intros i Hi. rewrite Z.land_spec, testbit_pow2, Z.testbit_0_l by lia.
      destruct (Z.eqb_spec i (64 - t)) as [->|]; [by rewrite E | apply andb_false_r].
Qed.

Lemma is_u32_lor x y : is_u32 x -> is_u32 y -> is_u32 (Z.lor x y).
Proof. intros Hx Hy. apply is_u32_bits. intros k Hk. by rewrite Z.lor_spec, !is_u32_high. Qed.
Lemma is_u32_lxor x y : is_u32 x -> is_u32 y -> is_u32 (Z.lxor x y).
Proof. intros Hx Hy. apply is_u32_bits. intros k Hk. by rewrite Z.lxor_spec, !is_u32_high. Qed.

Lemma msb_lor p q t : msb (Z.lor p.1 q.1, Z.lor p.2 q.2) t = msb p t || msb q t.
Proof. unfold msb. destruct (t <=? 32); simpl; apply Z.lor_spec. Qed.

(** Entries of a table name bits. *)
Definition table_ok (table : list Z) : Prop := (length table <= 64)%nat /\ Forall (fun t => 1 <= t <= 64) table.

(** One round of the loop at position [i]. *)
Lemma permuteStep_eq p o i t : 1 <= t <= 64 -> 1 <= i <= 64 ->
  permuteStep p.1 p.2 (o.1, o.2, (single i).1, (single i).2) t =
  (if msb p t then Z.lor o.1 (single i).1 else o.1,
   if msb p t then Z.lor o.2 (single i).2 else o.2, (single (i + 1)).1, (single (i + 1)).2).
Proof.
  intros Ht Hi. unfold permuteStep. destruct (masks_ok t Ht) as [-> _]. destruct (masks_ok i Hi) as [_ <-].
  rewrite <- (mask_test p t Ht). by destruct (single t).
Qed.

Lemma permute_fold p table : forall i o,
  Forall (fun t => 1 <= t <= 64) table -> 1 <= i -> i + Z.of_nat (length table) <= 65 -> pair_ok o ->
  (forall u, i <= u <= 64 -> msb o u = false) ->
  let '(lo, hi, _, _) := foldl (permuteStep p.1 p.2) (o.1, o.2, (single i).1, (single i).2) table in
  pair_ok (lo, hi) /\
  forall u, 1 <= u <= 64 ->
    msb (lo, hi) u =
    if u <? i then msb o u
    else match table !! Z.to_nat (u - i) with Some t => msb p t | None => false end.
Proof.
  induction table as [|t table IH]; intros i o Ht Hi Hl Ho Hz; cbn [foldl length] in *.
  - destruct o as [lo hi]. split; [done|]. intros u Hu. destruct (Z.ltb_spec u i); [done|]. apply Hz. lia.
  - apply Forall_cons in Ht as [Ht Htab]. rewrite permuteStep_eq by lia.
    set (o' := (if msb p t then Z.lor o.1 (single i).1 else o.1, if msb p t then Z.lor o.2 (single i).2 else o.2)).
    assert (Hm : forall u, 1 <= u <= 64 -> msb o' u = msb o u || (msb p t && (u =? i))).
    { intros u Hu. subst o'. destruct (msb p t); simpl andb.
      - rewrite (msb_lor o (single i)), msb_single by lia. done.
      - rewrite orb_false_r. by destruct o. }
    assert (Ho' : pair_ok o').
    { destruct Ho as [Ho1 Ho2]. destruct (single_ok i Hi) as [Hs1 Hs2]. subst o'.
      destruct (msb p t); split; simpl; auto using is_u32_lor. }
    specialize (IH (i + 1) o' Htab ltac:(lia) ltac:(lia) Ho').
    change (if msb p t then Z.lor o.1 (single i).1 else o.1) with o'.1.
    change (if msb p t then Z.lor o.2 (single i).2 else o.2) with o'.2.
    destruct (foldl _ _ table) as [[[lo hi] bl] bh]. destruct IH as [IH1 IH2].
    { intros u Hu. rewrite Hm, Hz by lia. replace (u =? i) with false by zbool. by rewrite andb_false_r. }
    split; [done|]. intros u Hu. rewrite (IH2 u Hu), Hm by lia.
    destruct (Z.ltb_spec u (i + 1)), (Z.ltb_spec u i); try lia.
    + replace (u =? i) with false by zbool. by rewrite andb_false_r, orb_false_r.
    + assert (u = i) as -> by lia. rewrite Z.eqb_refl, Z.sub_diag, Hz by lia. simpl. apply andb_true_r.
    + replace (Z.to_nat (u - i)) with (S (Z.to_nat (u - (i + 1)))) by lia. done.
Qed.

(** The loop over a table selects the bits it names. *)
Lemma permute_bits table p : table_ok table ->
  pair_ok (permute table p.1 p.2) /\
  forall u, 1 <= u <= 64 ->
    msb (permute table p.1 p.2) u = match table !! Z.to_nat (u - 1) with Some t => msb p t | None => false end.
Proof.
  intros [Hl Ht]. pose proof (permute_fold p table 1 (0, 0) Ht ltac:(lia) ltac:(lia)) as H.
  unfold permute. change (single 1) with (0, 0x80000000) in H. cbn [fst snd] in H.
  destruct (foldl _ _ table) as [[[lo hi] bl] bh].
  destruct H as [H1 H2]; [split; unfold is_u32; simpl; lia| |].
  { intros u _. unfold msb. simpl. rewrite !Z.testbit_0_l. by destruct (u <=? 32). }
  split; [done|]. intros u Hu. rewrite (H2 u Hu). by replace (u <? 1) with false by zbool.
Qed.

Lemma table_okb (table : list Z) :
  (length table <=? 64)%nat && forallb (fun t => (1 <=? t) && (t <=? 64)) table = true -> table_ok table.
Proof.
  intros [H1%Nat.leb_le H2]%andb_prop. split; [done|]. rewrite forallb_forall in H2. apply Forall_forall.
  intros t Ht. apply list_elem_of_In, H2 in Ht. lia.
Qed.

Lemma IP_ok : table_ok IP. Proof. by apply table_okb. Qed.
Lemma FP_ok : table_ok FP. Proof. by apply table_okb. Qed.
Lemma Permutation_ok : table_ok Permutation. Proof. by apply table_okb. Qed.

(** Two tables of 64 bits that undo each other. *)
Definition inverse_tables (t1 t2 : list Z) : bool :=
  forallb (fun u => bool_decide ((t ← t2 !! (u - 1)%nat; t1 !! Z.to_nat (t - 1)) = Some (Z.of_nat u))) (seq 1 64).

Lemma permute_inverse t1 t2 p : table_ok t1 -> table_ok t2 -> inverse_tables t1 t2 = true -> pair_ok p ->
  permute t2 (permute t1 p.1 p.2).1 (permute t1 p.1 p.2).2 = p.
Proof.
  intros H1 H2 Hinv Hp. destruct (permute_bits t1 p H1) as [_ B1].
  destruct (permute_bits t2 (permute t1 p.1 p.2) H2) as [O2 B2].
  apply pair_ext; [done|done|]. intros u Hu. rewrite B2 by done.
  unfold inverse_tables in Hinv. rewrite forallb_forall in Hinv.
  specialize (Hinv (Z.to_nat u) ltac:(apply in_seq; lia)). apply bool_decide_eq_true_1 in Hinv.
  replace (Z.to_nat u - 1)%nat with (Z.to_nat (u - 1)) in Hinv by lia.
  destruct (t2 !! Z.to_nat (u - 1)) as [t|] eqn:E; [|done]. simpl in Hinv.
  destruct H2 as [_ H2]. pose proof (proj1 (Forall_lookup _ _) H2 _ _ E) as Ht. simpl in Ht.
  rewrite B1, Hinv by done. by rewrite Z2Nat.id by lia.
Qed.

(** ** Undoing the encryption *)

Definition undoRound (LR : (Z * Z) * (Z * Z)) (K : Z * Z) : (Z * Z) * (Z * Z) :=
  let '(L, R) := LR in
  let p := cipherF L K in
  ((Z.lxor R.1 p.1, Z.lxor R.2 p.2), L).

Lemma lxor_twice x y : Z.lxor (Z.lxor x y) y = x.
Proof. by rewrite Z.lxor_assoc, Z.lxor_nilpotent, Z.lxor_0_r. Qed.

Lemma undo_round LR K : undoRound (desRound LR K) K = LR.
Proof. destruct LR as [[L1 L2] R]. unfold undoRound, desRound. destruct (cipherF R K) as [p1 p2].
  cbn [fst snd]. by rewrite !lxor_twice. Qed.

Lemma undo_rounds Ks : forall LR, foldl undoRound (foldl desRound LR Ks) (rev Ks) = LR.
Proof.
  induction Ks as [|K Ks IH]; intros LR; [done|]. cbn [foldl rev].
  rewrite foldl_app, IH. apply undo_round.
Qed.

(** The halves are 32-bit values in the high words. *)
Definition halves_ok (LR : (Z * Z) * (Z * Z)) : Prop :=
  LR.1.1 = 0 /\ is_u32 LR.1.2 /\ LR.2.1 = 0 /\ is_u32 LR.2.2.

Lemma cipherF_ok R K : (cipherF R K).1 = 0 /\ is_u32 (cipherF R K).2.
Proof.
  unfold cipherF. destruct (permute Expansion _ _) as [el eh]. destruct (substitute _ _) as [sl sh].
  destruct (permute_bits Permutation (sl, sh) Permutation_ok) as [[O1 O2] B]. cbn [fst snd] in *.
  split; [|done]. set (q := permute Permutation sl sh) in *.
  apply Z.bits_inj'. intros k Hk. rewrite Z.testbit_0_l. destruct (Z.ltb_spec k 32); [|by apply is_u32_high].
  specialize (B (64 - k) ltac:(lia)). unfold msb in B at 1. replace (64 - k <=? 32) with false in B by zbool.
  replace (64 - (64 - k)) with k in B by lia. rewrite B, lookup_ge_None_2; [done|].
  change (length Permutation) with 32%nat. lia.
Qed.

Lemma desRound_ok LR K : halves_ok LR -> halves_ok (desRound LR K).
Proof.
  intros (H1 & H2 & H3 & H4). destruct LR as [L R]. unfold desRound.
  destruct (cipherF_ok R K) as [F1 F2]. destruct (cipherF R K) as [p1 p2]. cbn [fst snd] in *.
  split; [done|]. split; [done|]. cbn [fst snd]. rewrite H1, F1. split; [done | by apply is_u32_lxor].
Qed.

Lemma rounds_ok Ks : forall LR, halves_ok LR -> halves_ok (foldl desRound LR Ks).
Proof. induction Ks as [|K Ks IH]; intros LR H; [done|]. cbn [foldl]. by apply IH, desRound_ok. Qed.

(** The reverse of [DESEncryptPassword]: the id of an encrypted password. *)
Definition DESDecryptPassword (out_lo out_hi password_lo password_hi : Z) : Z * Z :=
  let '(C0, D0) := initialHalves password_lo password_hi in
  let '(L16, R16) := permute IP out_lo out_hi in
  let '(L0, R0) := foldl undoRound ((0, L16), (0, R16)) (rev (keySchedule Rotations C0 D0)) in
  permute FP R0.2 L0.2.

(** C29: [DESEncryptPassword] loses nothing: under the same password, the
    encrypted value determines the id, which the reverse of the 16 rounds with
    the round keys of the code gives back. *)
Theorem password_roundtrip id_lo id_hi pw_lo pw_hi :
  is_u32 id_lo -> is_u32 id_hi ->
  let '(lo, hi) := DESEncryptPassword id_lo id_hi pw_lo pw_hi in
  DESDecryptPassword lo hi pw_lo pw_hi = (id_lo, id_hi).
Proof.
  intros Hl Hh. unfold DESEncryptPassword, DESDecryptPassword.
  destruct (initialHalves pw_lo pw_hi) as [C0 D0]. set (Ks := keySchedule Rotations C0 D0).
  pose proof (permute_inverse IP FP (id_lo, id_hi) IP_ok FP_ok eq_refl (conj Hl Hh)) as Hinv.
  destruct (permute_bits IP (id_lo, id_hi) IP_ok) as [[P1 P2] _]. cbn [fst snd] in *.
  destruct (permute IP id_lo id_hi) as [plo phi]. cbn [fst snd] in *.
  rewrite Z.land_0_r. change 0xFFFFFFFF with (Z.ones 32). rewrite land_ones_small by (done || lia).
  assert (Hs : sll plo 0 = plo) by (unfold sll; change (0 mod 32) with 0; rewrite Z.shiftl_0_r; by apply u32_small).
  rewrite Hs. set (LR0 := ((0, phi), (0, plo))).
  assert (H0 : halves_ok LR0) by (split; [reflexivity|]; split; [exact P2|]; split; [reflexivity | exact P1]).
  pose proof (rounds_ok Ks LR0 H0) as (A1 & A2 & A3 & A4).
  pose proof (undo_rounds Ks LR0) as Hu.
  destruct (foldl desRound LR0 Ks) as [[L1 L2] [R1 R2]]. cbn [fst snd] in *. subst L1 R1.
  unfold srl. change (0 mod 32) with 0. rewrite Z.shiftr_0_r, Z.lor_0_l, Z.lor_0_r.
  pose proof (permute_inverse FP IP (L2, R2) FP_ok IP_ok eq_refl (conj A2 A4)) as Hinv2. cbn [fst snd] in Hinv2.
  destruct (permute FP L2 R2) as [lo hi]. cbn [fst snd] in Hinv2. rewrite Hinv2. cbv beta iota. rewrite Hu.
  exact Hinv.
Qed.

Lemma password_roundtrip_witness :
  let '(lo, hi) := DESEncryptPassword 0x89ABCDEF 0x01234567 0x9BBCDFF1 0x13345779 in
  DESDecryptPassword lo hi 0x9BBCDFF1 0x13345779 = (0x89ABCDEF, 0x01234567).
Proof. apply (password_roundtrip 0x89ABCDEF 0x01234567 0x9BBCDFF1 0x13345779); unfold is_u32; lia. Defined.
