(* ===== verification/PfsDents.v ===== *)
(** * PfsDents: the entries of a directory block

    A 512-byte block of a directory is a sequence of entries whose allocated
    lengths add up to the block ([block]); the entries with a name are its
    contents ([live]).  The fields of an entry and the stores of PfsDir are
    related through the bits of the buffer ([used]), so that a store leaves the
    entries it does not overlap as they were. *)

From stdpp Require Import base numbers list.
From Stdlib Require Import ZArith Lia.
From S2P Require Import Prelude PfsState PfsDir PfsBits.

Open Scope Z_scope.

(** ** Fields and stores as bits of the buffer *)

Lemma used_store32 b i v z : (i < length b)%nat -> 0 <= z ->
  used (set32 i v b) z = if z / 32 =? Z.of_nat i then Z.testbit v (z mod 32) else used b z.
Proof.
  intros Hi Hz. assert (H := Z.mod_pos_bound z 32 ltac:(lia)).
  replace (set32 i v b) with (set32 i (u32 v) b) by (unfold set32; by rewrite u32_idem).
  rewrite used_set32 by (auto using u32_range). unfold u32. by rewrite Z.mod_pow2_bits_low by lia.
Qed.

(** A field of [n] bits at bit [sh] of a word, replaced. *)
Lemma testbit_field w v sh n m k :
  0 <= sh -> 0 <= n -> sh + n <= 32 -> 0 <= k < 32 ->
  m = Z.ones n ->
  Z.testbit (Z.lor (Z.land w (Z.lxor 4294967295 (Z.shiftl m sh))) (Z.shiftl (v mod 2 ^ n) sh)) k =
  if (sh <=? k) && (k <? sh + n) then Z.testbit v (k - sh) else Z.testbit w k.
Proof.
  intros Hs Hn H32 Hk ->. rewrite Z.lor_spec, Z.land_spec, Z.lxor_spec.
  change 4294967295 with (Z.ones 32). rewrite Z.testbit_ones by lia. rewrite !Z.shiftl_spec by lia.
  destruct (Z.leb_spec sh k); cycle 1.
  { rewrite !(Z.testbit_neg_r _ (k - sh)) by lia. replace (k <? 32) with true by zbool.
    replace (0 <=? k) with true by zbool. simpl. by rewrite andb_true_r, orb_false_r. }
  rewrite Z.testbit_ones by lia. destruct (Z.ltb_spec k (sh + n)).
  - rewrite Z.mod_pow2_bits_low by lia. replace ((0 <=? k - sh) && (k - sh <? n)) with true by zbool.
    replace ((0 <=? k) && (k <? 32)) with true by zbool. simpl. by rewrite andb_false_r.
  - rewrite Z.mod_pow2_bits_high by lia. replace ((0 <=? k - sh) && (k - sh <? n)) with false by zbool.
    replace ((0 <=? k) && (k <? 32)) with true by zbool. simpl. by rewrite andb_true_r, orb_false_r.
Qed.

Ltac divmod32 z :=
  let H := fresh in let H' := fresh in
  assert (H := Z.div_mod z 32 ltac:(lia)); assert (H' := Z.mod_pos_bound z 32 ltac:(lia)).

Lemma used_set16 b i h v z : (i < length b)%nat -> h = 0 \/ h = 1 -> 0 <= z ->
  used (set16 i h v b) z =
  if (32 * Z.of_nat i + 16 * h <=? z) && (z <? 32 * Z.of_nat i + 16 * h + 16)
  then Z.testbit v (z - (32 * Z.of_nat i + 16 * h)) else used b z.
Proof.
  intros Hi Hh Hz. unfold set16. rewrite used_store32 by done. divmod32 z.
  destruct (Z.eqb_spec (z / 32) (Z.of_nat i)) as [E|E].
  - unfold u16. rewrite testbit_field by (try reflexivity; lia).
    replace ((16 * h <=? z mod 32) && (z mod 32 <? 16 * h + 16))
      with ((32 * Z.of_nat i + 16 * h <=? z) && (z <? 32 * Z.of_nat i + 16 * h + 16)) by zbool.
    destruct (_ && _); [f_equal; lia|]. unfold used. by rewrite E, Nat2Z.id.
  - replace (_ && _) with false by zbool. done.
Qed.

Lemma used_set8 b o v z : (o < 4 * length b)%nat -> 0 <= z ->
  used (set8 o v b) z =
  if (8 * Z.of_nat o <=? z) && (z <? 8 * Z.of_nat o + 8) then Z.testbit v (z - 8 * Z.of_nat o) else used b z.
Proof.
  intros Ho Hz. unfold set8.
  assert (Hd := Nat.div_mod o 4 ltac:(lia)). assert (Hm := Nat.mod_upper_bound o 4 ltac:(lia)).
  set (i := (o / 4)%nat) in *. set (r := (o mod 4)%nat) in *.
  rewrite used_store32 by lia. divmod32 z.
  destruct (Z.eqb_spec (z / 32) (Z.of_nat i)) as [E|E].
  - unfold u8. rewrite testbit_field by (try reflexivity; lia).
    replace ((8 * Z.of_nat r <=? z mod 32) && (z mod 32 <? 8 * Z.of_nat r + 8))
      with ((8 * Z.of_nat o <=? z) && (z <? 8 * Z.of_nat o + 8)) by zbool.
    destruct (_ && _); [f_equal; lia|]. unfold used. by rewrite E, Nat2Z.id.
  - replace (_ && _) with false by zbool. done.
Qed.

Lemma length_set8 o v b : length (set8 o v b) = length b.
Proof. apply length_set32. Qed.

Lemma words_ok_set16 i h v b : words_ok b -> words_ok (set16 i h v b).
Proof. apply words_ok_set32. Qed.
Lemma words_ok_set8 o v b : words_ok b -> words_ok (set8 o v b).
Proof. apply words_ok_set32. Qed.

Lemma get16_testbit b i h k : h = 0 \/ h = 1 -> 0 <= k < 16 ->
  Z.testbit (get16 b i h) k = used b (32 * Z.of_nat i + 16 * h + k).
Proof.
  intros Hh Hk. unfold get16, u16. rewrite Z.mod_pow2_bits_low, Z.shiftr_spec by lia.
  replace (32 * Z.of_nat i + 16 * h + k) with (32 * Z.of_nat i + (k + 16 * h)) by lia.
  rewrite used_word by lia. done.
Qed.

(** A number is given by its low bits. *)
Lemma bits_eq n x y : 0 <= n -> 0 <= x < 2 ^ n -> 0 <= y < 2 ^ n ->
  (forall k, 0 <= k < n -> Z.testbit x k = Z.testbit y k) -> x = y.
Proof.
  intros Hn Hx Hy H. apply Z.bits_inj'. intros k Hk. destruct (Z.ltb_spec k n); [apply H; lia|].
  rewrite <- (Z.mod_small x (2 ^ n)), <- (Z.mod_small y (2 ^ n)) by done.
  by rewrite !Z.mod_pow2_bits_high by lia.
Qed.

Lemma get8_range b o : 0 <= get8 b o < 2 ^ 8.
Proof. apply Z.mod_pos_bound. lia. Qed.
Lemma get16_range b i h : 0 <= get16 b i h < 2 ^ 16.
Proof. apply Z.mod_pos_bound. lia. Qed.

(** Bytes [a .. e-1] of the two buffers are the same. *)
Definition same_bytes (b b' : buf) (a e : nat) : Prop :=
  forall z, 8 * Z.of_nat a <= z < 8 * Z.of_nat e -> used b' z = used b z.

Lemma same_bytes_sub b b' a e a' e' :
  same_bytes b b' a e -> (a <= a')%nat -> (e' <= e)%nat -> same_bytes b b' a' e'.
Proof. intros H Ha He z Hz. apply H. lia. Qed.

Lemma get8_same b b' a e o : same_bytes b b' a e -> (a <= o < e)%nat -> get8 b' o = get8 b o.
Proof.
  intros H Ho. apply (bits_eq 8); [lia|apply get8_range..|]. intros k Hk.
  rewrite !get8_testbit by lia. apply H. lia.
Qed.

Lemma get16_same b b' a e i h : same_bytes b b' a e -> h = 0 \/ h = 1 ->
  Z.of_nat a <= 4 * Z.of_nat i + 2 * h -> 4 * Z.of_nat i + 2 * h + 2 <= Z.of_nat e ->
  get16 b' i h = get16 b i h.
Proof.
  intros H Hh Ha He. apply (bits_eq 16); [lia|apply get16_range..|]. intros k Hk.
  rewrite !get16_testbit by lia. apply H. lia.
Qed.

Lemma get32_same b b' a e i : same_bytes b b' a e -> words_ok b -> words_ok b' ->
  (a <= 4 * i)%nat -> (4 * i + 4 <= e)%nat -> get32 b' i = get32 b i.
Proof.
  intros H Hb Hb' Ha He. apply (bits_eq 32); [lia|by apply words_ok_get32..|]. intros k Hk.
  rewrite <- !used_word by lia. apply H. lia.
Qed.

(** ** Entries *)

(** Allocated length of the entry at offset [d], and its contents. *)
Definition alen (b : buf) (d : nat) : nat := Z.to_nat (aLen_of (de_aLen b d)).
Definition plen (b : buf) (d : nat) : nat := Z.to_nat (de_pLen b d).
Definition entry (b : buf) (d : nat) : list Z * Z * Z :=
  (de_path b d (plen b d), de_inode b d, de_sub b d).

(** Bytes an entry with a name of [n] bytes needs. *)
Definition need (n : nat) : nat := (4 * ((n + 11) / 4))%nat.

Lemma land_1FC x : 0 <= x < 512 -> Z.land x 0x1FC = 4 * (x / 4).
Proof.
  intros Hx. assert (H : forallb (fun k => Z.land (Z.of_nat k) 0x1FC =? 4 * (Z.of_nat k / 4)) (seq 0 512) = true)
    by (vm_compute; reflexivity).
  rewrite forallb_forall in H. specialize (H (Z.to_nat x)). rewrite Z2Nat.id in H by lia.
  apply Z.eqb_eq, H, in_seq. lia.
Qed.

Lemma dentryLen_need b d : dentryLen (de_pLen b d) = Z.of_nat (need (plen b d)).
Proof.
  unfold dentryLen, need, plen. pose proof (get8_range b (d + 5)) as H. fold (de_pLen b d) in H.
  rewrite land_1FC by lia. rewrite Nat2Z.inj_mul, Nat2Z.inj_div, Nat2Z.inj_add, Z2Nat.id by lia.
  do 2 f_equal. lia.
Qed.

Lemma newDentryLen_need n : newDentryLen (Z.of_nat n) = Z.of_nat (need n).
Proof.
  unfold newDentryLen, need. change (-4) with (Z.lnot (Z.ones 2)). rewrite <- Z.ldiff_land.
  rewrite Z.ldiff_ones_r, Z.shiftl_mul_pow2, Z.shiftr_div_pow2 by lia.
  change (2 ^ 2) with 4. rewrite Nat2Z.inj_mul, Nat2Z.inj_div, Nat2Z.inj_add.
  replace (Z.of_nat n + 8 + 3) with (Z.of_nat n + Z.of_nat 11) by lia. change (Z.of_nat 4) with 4. lia.
Qed.

Lemma need_bounds n : (n + 8 <= need n <= n + 11)%nat /\ (need n mod 4 = 0)%nat.
Proof.
  unfold need. pose proof (Nat.div_mod (n + 11) 4 ltac:(lia)). pose proof (Nat.mod_upper_bound (n + 11) 4 ltac:(lia)).
  split; [lia|]. rewrite Nat.mul_comm. apply Nat.Div0.mod_mul.
Qed.

(** What the walk of [pfsGetDentry] checks of an entry, that it is aligned, and
    that an entry without inode has no name. *)
Record entry_ok (b : buf) (d d2 : nat) : Prop := {
  eo_align : (d mod 4 = 0)%nat;
  eo_alen4 : (alen b d mod 4 = 0)%nat;
  eo_room : (need (plen b d) <= alen b d)%nat;
  eo_end : (d + alen b d <= d2)%nat;
  eo_free : de_inode b d = 0 -> plen b d = 0%nat
}.

(** The entries of the bytes [d .. d2-1], one after the other. *)
Inductive block (b : buf) : nat -> nat -> list nat -> Prop :=
| block_nil d : block b d d []
| block_cons d d2 l : entry_ok b d d2 -> block b (d + alen b d) d2 l -> block b d d2 (d :: l).

(** The entries that hold a name. *)
Definition live (b : buf) (l : list nat) : list (list Z * Z * Z) :=
  map (entry b) (List.filter (fun d => negb (plen b d =? 0)%nat) l).

Lemma alen_min b d d2 : entry_ok b d d2 -> (8 <= alen b d)%nat.
Proof. intros H. pose proof (eo_room _ _ _ H). pose proof (need_bounds (plen b d)). lia. Qed.

Lemma alen_Z b d : aLen_of (de_aLen b d) = Z.of_nat (alen b d).
Proof.
  unfold alen. rewrite Z2Nat.id; [done|]. unfold aLen_of. apply Z.land_nonneg. right. lia.
Qed.

(** Reading an entry only looks at its own bytes. *)
Lemma entry_head_same b b' d n :
  same_bytes b b' d (d + n) -> (8 <= n)%nat -> (d mod 4 = 0)%nat -> words_ok b -> words_ok b' ->
  alen b' d = alen b d /\ plen b' d = plen b d /\ de_inode b' d = de_inode b d /\ de_sub b' d = de_sub b d.
Proof.
  intros H Hn Hd Hb Hb'. assert (E := Nat.div_mod d 4 ltac:(lia)).
  unfold alen, plen, de_pLen, de_inode, de_sub, de_aLen.
  rewrite (get16_same b b' d (d + n)), (get8_same b b' d (d + n)), (get8_same b b' d (d + n) (d + 4)) by (auto; lia).
  rewrite (get32_same b b' d (d + n)) by (auto; lia). auto.
Qed.

Lemma de_path_same b b' d n : same_bytes b b' d (d + 8 + n) -> de_path b' d n = de_path b d n.
Proof.
  intros H. apply map_ext_in. intros k [_ Hk]%in_seq. eapply get8_same; [exact H|lia].
Qed.

Lemma entry_same b b' d d2 :
  same_bytes b b' d (d + alen b d) -> entry_ok b d d2 -> words_ok b -> words_ok b' ->
  entry_ok b' d d2 /\ alen b' d = alen b d /\ plen b' d = plen b d /\ entry b' d = entry b d.
Proof.
  intros H Hok Hb Hb'. pose proof (alen_min _ _ _ Hok).
  destruct Hok as [H1 H2 H3 H4 H5].
  destruct (entry_head_same b b' d (alen b d)) as (E1 & E2 & E3 & E4); [done|done|done|done|done|].
  split; [split; rewrite ?E1, ?E2, ?E3; done|]. split; [done|]. split; [done|].
  unfold entry. rewrite E2, E3, E4. f_equal. f_equal. apply de_path_same.
  eapply same_bytes_sub; [exact H|lia|]. pose proof (need_bounds (plen b d)). lia.
Qed.

Lemma live_cons b d l :
  live b (d :: l) = (if (plen b d =? 0)%nat then [] else [entry b d]) ++ live b l.
Proof. unfold live. simpl. by destruct (plen b d =? 0)%nat. Qed.

Lemma live_app b l1 l2 : live b (l1 ++ l2) = live b l1 ++ live b l2.
Proof. unfold live. by rewrite List.filter_app, map_app. Qed.

Lemma block_same b b' d d2 l :
  words_ok b -> words_ok b' -> block b d d2 l -> same_bytes b b' d d2 ->
  block b' d d2 l /\ live b' l = live b l.
Proof.
  intros Hb Hb' H. induction H as [d|d d2 l Hok H IH]; intros Hs; [split; [constructor|done]|].
  destruct (entry_same b b' d d2) as (E1 & E2 & E3 & E4); [|done..|].
  { eapply same_bytes_sub; [exact Hs|lia|apply (eo_end _ _ _ Hok)]. }
  destruct IH as [IH1 IH2]; [eapply same_bytes_sub; [exact Hs|lia|lia]|].
  split; [constructor; [done|by rewrite E2]|]. by rewrite !live_cons, E3, E4, IH2.
Qed.

Lemma block_le b d d2 l : block b d d2 l -> (d <= d2)%nat.
Proof. induction 1 as [|d d2 l Hok H IH]; lia. Qed.

Lemma entry_ok_weaken b d d2 d3 : entry_ok b d d2 -> (d + alen b d <= d3)%nat -> entry_ok b d d3.
Proof. intros [] H. by split. Qed.

Lemma block_split b d d2 l1 l2 :
  block b d d2 (l1 ++ l2) -> exists m, block b d m l1 /\ block b m d2 l2.
Proof.
  revert d. induction l1 as [|e l1 IH]; intros d H; [exists d; split; [constructor|done]|].
  inversion H as [|? ? ? Hok Hrest]; subst. destruct (IH _ Hrest) as (m & H1 & H2).
  exists m. split; [|done]. constructor; [|done].
  eapply entry_ok_weaken; [exact Hok|]. by eapply block_le.
Qed.

Lemma block_join b d m d2 l1 l2 : block b d m l1 -> block b m d2 l2 -> block b d d2 (l1 ++ l2).
Proof.
  intros H1 H2. induction H1 as [d|d m l Hok H IH]; [done|].
  simpl. constructor; [|auto]. eapply entry_ok_weaken; [exact Hok|].
  apply block_le in H, H2. lia.
Qed.

(** Every entry of a block is aligned and lies in it. *)
Lemma block_elem b d d2 l e : block b d d2 l -> e ∈ l -> entry_ok b e d2 /\ (d <= e)%nat.
Proof.
  intros H He. apply list_elem_of_split in He as (l1 & l2 & ->).
  destruct (block_split _ _ _ _ _ H) as (m & H1 & H2). inversion H2; subst.
  apply block_le in H1. split; [done|lia].
Qed.

(** Entries take at least 8 bytes each. *)
Lemma block_length b d d2 l : block b d d2 l -> (8 * length l <= d2 - d)%nat.
Proof.
  induction 1 as [|d d2 l Hok H IH]; [simpl; lia|].
  pose proof (alen_min _ _ _ Hok). pose proof (block_le _ _ _ _ H). simpl. lia.
Qed.

(** ** The walk *)

Lemma land3_mod4 n : (n mod 4 = 0)%nat -> Z.land (Z.of_nat n) 3 = 0.
Proof.
  intros H. change 3 with (Z.ones 2). rewrite Z.land_ones by lia. change (2 ^ 2) with (Z.of_nat 4).
  by rewrite <- Nat2Z.inj_mod, H.
Qed.

(** What the entry at offset [e] is asked by option [opt]. *)
Definition wanted (opt : Z) (path : list Z) (b : buf) (e : nat) : bool :=
  dentryMatch opt path b e (Z.of_nat (alen b e)).

Lemma walkBlock_block opt path b d2 : forall fuel d l size,
  (opt = 0 \/ opt = 1 \/ opt = 2) -> block b d d2 l -> (d2 <= 1024)%nat -> (d2 - d < 8 * fuel)%nat ->
  0 <= size -> size + Z.of_nat (d2 - d) < 2 ^ 32 ->
  walkBlock fuel opt path b d d2 size =
  Some (match List.find (wanted opt path b) l with
        | Some e => WFound e (size + Z.of_nat (e - d))
        | None => WEnd (size + Z.of_nat (d2 - d))
        end).
Proof.
  induction fuel as [|fuel IH]; intros d l size Ho Hb Hmax Hf Hs Hlt; [lia|].
  cbn [walkBlock]. destruct Hb as [d|d d2 l Hok Hb].
  { rewrite Nat.ltb_irrefl. simpl. rewrite Nat.sub_diag. by rewrite Z.add_0_r. }
  pose proof (alen_min _ _ _ Hok) as Hmin. pose proof (block_le _ _ _ _ Hb) as Hle.
  destruct Hok as [R1 R2 R3 R4 R5]. rewrite alen_Z, dentryLen_need, Nat2Z.id, (land3_mod4 _ R2).
  replace (d <? d2)%nat with true by (symmetry; apply Nat.ltb_lt; lia).
  replace (1024 <? d + 8)%nat with false by (symmetry; apply Nat.ltb_ge; lia).
  replace (d2 <? d + alen b d)%nat with false by (symmetry; apply Nat.ltb_ge; lia).
  replace (Z.of_nat (alen b d) <? Z.of_nat (need (plen b d))) with false by zbool.
  replace (negb _) with false by (destruct Ho as [-> | [-> | ->]]; reflexivity).
  cbn [List.find]. unfold wanted at 1.
  change (nz 0) with false. cbv iota.
  destruct (dentryMatch opt path b d (Z.of_nat (alen b d))).
  { rewrite Nat.sub_diag. by rewrite Z.add_0_r. }
  rewrite u32_small by (unfold is_u32; lia). rewrite (IH _ l) by (auto; lia).
  destruct (List.find _ l) as [e|] eqn:Ef; do 2 f_equal; [|lia].
  apply find_some in Ef as [Ef _]. apply list_elem_of_In in Ef.
  destruct (block_elem _ _ _ _ _ Hb Ef) as [_ He]. lia.
Qed.

(** ** The walk over any bytes *)

(** The lengths of the entry at [d] are right for a block that ends at [d2]. *)
Definition fits (b : buf) (d2 d : nat) : Prop :=
  (alen b d mod 4 = 0 /\ need (plen b d) <= alen b d /\ d + alen b d <= d2)%nat.

(** Entries with right lengths, none of them wanted, lead from [d] to [e]. *)
Inductive passes (opt : Z) (path : list Z) (b : buf) (d2 : nat) : nat -> nat -> Prop :=
| passes_here d : passes opt path b d2 d d
| passes_on d e : (d < d2)%nat -> (d + 8 <= 1024)%nat -> fits b d2 d -> wanted opt path b d = false ->
    passes opt path b d2 (d + alen b d) e -> passes opt path b d2 d e.

Lemma land3_bad n : nz (Z.land (Z.of_nat n) 3) = negb (n mod 4 =? 0)%nat.
Proof.
  change 3 with (Z.ones 2). rewrite Z.land_ones by lia. change (2 ^ 2) with (Z.of_nat 4). rewrite <- Nat2Z.inj_mod.
  unfold nz. f_equal. destruct (Nat.eqb_spec (n mod 4) 0) as [->|Hn]; [done|]. apply Z.eqb_neq. lia.
Qed.

(** One entry of the walk. *)
Lemma walkBlock_step fuel opt path b d d2 size : (opt = 0 \/ opt = 1 \/ opt = 2) -> (d < d2)%nat -> (d + 8 <= 1024)%nat ->
  (fits b d2 d /\ walkBlock (S fuel) opt path b d d2 size =
     (if wanted opt path b d then Some (WFound d size) else walkBlock fuel opt path b (d + alen b d) d2 (u32 (size + Z.of_nat (alen b d))))) \/
  (~ fits b d2 d /\ walkBlock (S fuel) opt path b d d2 size = Some (WBad size)).
Proof.
  intros Ho H1 H2. cbn [walkBlock]. unfold fits, wanted. rewrite alen_Z, dentryLen_need, Nat2Z.id, land3_bad.
  rewrite (proj2 (Nat.ltb_lt d d2)), (proj2 (Nat.ltb_ge 1024 (d + 8))) by lia.
  destruct (Nat.eqb_spec (alen b d mod 4) 0); cbn [negb]; [|right; split; [lia|done]].
  destruct (Z.ltb_spec (Z.of_nat (alen b d)) (Z.of_nat (need (plen b d)))); [right; split; [lia|done]|].
  destruct (Nat.ltb_spec d2 (d + alen b d)); [right; split; [lia|done]|]. left. split; [lia|].
  by replace (negb _) with false by (destruct Ho as [-> | [-> | ->]]; reflexivity).
Qed.

(** What the walk over a block says about it.  It always comes to an end, but
    for an entry that starts in the last word of the buffer. *)
Lemma walkBlock_any opt path b d2 : (opt = 0 \/ opt = 1 \/ opt = 2) -> (d2 <= 1024)%nat -> (d2 mod 4 = 0)%nat ->
  forall fuel d size, (d2 - d < 8 * fuel)%nat -> (d mod 4 = 0)%nat -> (d <= d2)%nat ->
  match walkBlock fuel opt path b d d2 size with
  | Some (WFound e _) => passes opt path b d2 d e /\ (d <= e)%nat /\ fits b d2 e /\ wanted opt path b e = true
  | Some (WEnd _) => passes opt path b d2 d d2
  | Some (WBad _) => exists e, passes opt path b d2 d e /\ (d <= e < d2)%nat /\ ~ fits b d2 e
  | None => d2 = 1024%nat /\ passes opt path b d2 d 1020
  end.
Proof.
  intros Ho Hd2 H4. induction fuel as [|fuel IH]; intros d size Hf Hd Hle; [lia|].
  assert (E := Nat.div_mod d 4 ltac:(lia)). assert (E2 := Nat.div_mod d2 4 ltac:(lia)).
  destruct (decide (d < d2)%nat) as [Hlt|Hge].
  2: { cbn [walkBlock]. rewrite (proj2 (Nat.ltb_ge d d2)) by lia. replace d2 with d by lia. constructor. }
  destruct (decide (d + 8 <= 1024)%nat) as [Hin|Hout].
  2: { cbn [walkBlock]. rewrite (proj2 (Nat.ltb_lt d d2)), (proj2 (Nat.ltb_lt 1024 (d + 8))) by lia.
       assert (d2 = 1024 /\ d = 1020)%nat as [-> ->] by lia. split; [done|constructor]. }
  destruct (walkBlock_step fuel opt path b d d2 size Ho Hlt Hin) as [[HF ->]|[HF ->]].
  2: { exists d. split; [constructor|]. split; [lia|done]. }
  destruct (wanted opt path b d) eqn:Ew; [split; [constructor|]; split; [lia|done]|].
  pose proof (need_bounds (plen b d)). pose proof HF as (F1 & F2 & F3). assert (E3 := Nat.div_mod (alen b d) 4 ltac:(lia)).
  specialize (IH (d + alen b d)%nat (u32 (size + Z.of_nat (alen b d))) ltac:(lia)).
  assert (Hm : ((d + alen b d) mod 4 = 0)%nat).
  { replace (d + alen b d)%nat with ((d / 4 + alen b d / 4) * 4)%nat by lia. apply Nat.Div0.mod_mul. }
  specialize (IH Hm F3). destruct (walkBlock fuel _ _ _ _ _ _) as [[size'|e size'|size']|].
  - by apply passes_on.
  - destruct IH as (P & L & R). split; [by apply passes_on|]. split; [lia|done].
  - destruct IH as (e & P & L & R). exists e. split; [by apply passes_on|]. split; [lia|done].
  - destruct IH as [-> P]. split; [done|by apply passes_on].
Qed.

(** Along such entries the walk goes on. *)
Lemma walkBlock_passes opt path b d2 d e : (opt = 0 \/ opt = 1 \/ opt = 2) -> passes opt path b d2 d e ->
  forall fuel size, (d2 - d < 8 * fuel)%nat -> exists fuel' size', (d2 - e < 8 * fuel')%nat /\
    walkBlock fuel opt path b d d2 size = walkBlock fuel' opt path b e d2 size'.
Proof.
  intros Ho. induction 1 as [d|d e H1 H2 HF Hw HP IH]; intros fuel size Hf; [by exists fuel, size|]. destruct fuel as [|fuel]; [lia|].
  destruct (walkBlock_step fuel opt path b d d2 size Ho H1 H2) as [[_ ->]|[HN _]]; [|done]. rewrite Hw.
  pose proof (need_bounds (plen b d)). destruct HF as (_ & F2 & F3). apply IH. lia.
Qed.

(** ** Stores *)

Fixpoint put_bytes (o : nat) (bs : list Z) (b : buf) : buf :=
  match bs with
  | [] => b
  | c :: bs' => put_bytes (S o) bs' (set8 o c b)
  end.

Lemma set_de_path_from o bs : forall j b,
  foldl (fun b kc => set8 (o + 8 + kc.1) kc.2 b) b (zip (seq j (length bs)) bs) = put_bytes (o + 8 + j) bs b.
Proof.
  induction bs as [|c bs IH]; intros j b; [done|]. cbn [length seq zip zip_with foldl put_bytes fst snd].
  rewrite <- (Nat.add_succ_r (o + 8) j). apply IH.
Qed.

Lemma set_de_path_put o bs b : set_de_path o bs b = put_bytes (o + 8) bs b.
Proof. unfold set_de_path. rewrite set_de_path_from. by rewrite Nat.add_0_r. Qed.

Lemma length_put_bytes bs : forall o b, length (put_bytes o bs b) = length b.
Proof. induction bs as [|c bs IH]; intros o b; simpl; [done|]. by rewrite IH, length_set8. Qed.

Lemma words_ok_put_bytes bs : forall o b, words_ok b -> words_ok (put_bytes o bs b).
Proof. induction bs as [|c bs IH]; intros o b H; simpl; [done|]. by apply IH, words_ok_set8. Qed.

Lemma used_put_bytes bs : forall o b z, (o + length bs <= 4 * length b)%nat -> 0 <= z ->
  used (put_bytes o bs b) z =
  if (8 * Z.of_nat o <=? z) && (z <? 8 * Z.of_nat (o + length bs))
  then Z.testbit (nth (Z.to_nat (z / 8) - o) bs 0) (z mod 8) else used b z.
Proof.
  induction bs as [|c bs IH]; intros o b z Ho Hz; cbn [put_bytes length] in *.
  { replace (_ && _) with false by zbool. done. }
  rewrite IH by (rewrite ?length_set8; lia). rewrite used_set8 by lia.
  assert (E := Z.div_mod z 8 ltac:(lia)). assert (E' := Z.mod_pos_bound z 8 ltac:(lia)).
  assert (0 <= z / 8) by (apply Z.div_pos; lia).
  destruct (Z.eqb_spec (z / 8) (Z.of_nat o)) as [Ez|Ez].
  - replace ((8 * Z.of_nat (S o) <=? z) && _) with false by zbool.
    replace ((8 * Z.of_nat o <=? z) && (z <? 8 * Z.of_nat o + 8)) with true by zbool.
    replace ((8 * Z.of_nat o <=? z) && _) with true by zbool.
    replace (Z.to_nat (z / 8) - o)%nat with 0%nat by lia. simpl. f_equal. lia.
  - replace ((8 * Z.of_nat o <=? z) && (z <? 8 * Z.of_nat o + 8)) with false by zbool.
    replace ((8 * Z.of_nat (S o) <=? z) && (z <? 8 * Z.of_nat (S o + length bs)))
      with ((8 * Z.of_nat o <=? z) && (z <? 8 * Z.of_nat (o + S (length bs)))) by zbool.
    destruct (_ && _) eqn:E3; [|done]. apply andb_prop in E3 as [E3%Z.leb_le _].
    replace (Z.to_nat (z / 8) - o)%nat with (S (Z.to_nat (z / 8) - S o)) by lia. done.
Qed.

(** A field reads as the value its bits are. *)
Lemma get8_field b o v : (forall k, 0 <= k < 8 -> used b (8 * Z.of_nat o + k) = Z.testbit v k) -> get8 b o = u8 v.
Proof.
  intros H. apply (bits_eq 8); [lia|apply get8_range|apply Z.mod_pos_bound; lia|]. intros k Hk.
  rewrite get8_testbit, H by lia. unfold u8. by rewrite Z.mod_pow2_bits_low by lia.
Qed.

Lemma get16_field b i h v : h = 0 \/ h = 1 ->
  (forall k, 0 <= k < 16 -> used b (32 * Z.of_nat i + 16 * h + k) = Z.testbit v k) -> get16 b i h = u16 v.
Proof.
  intros Hh H. apply (bits_eq 16); [lia|apply get16_range|apply Z.mod_pos_bound; lia|]. intros k Hk.
  rewrite get16_testbit, H by lia. unfold u16. by rewrite Z.mod_pow2_bits_low by lia.
Qed.

Lemma get32_field b i v : words_ok b ->
  (forall k, 0 <= k < 32 -> used b (32 * Z.of_nat i + k) = Z.testbit v k) -> get32 b i = u32 v.
Proof.
  intros Hb H. apply (bits_eq 32); [lia|by apply words_ok_get32|apply Z.mod_pos_bound; lia|]. intros k Hk.
  rewrite <- used_word, H by lia. unfold u32. by rewrite Z.mod_pow2_bits_low by lia.
Qed.

Lemma aLen_of_flags len mode : 0 <= len < 4096 ->
  aLen_of (u16 (Z.lor len (Z.land mode FIO_S_IFMT))) = len.
Proof.
  intros H. unfold aLen_of, u16. rewrite <- Z.land_ones by lia. rewrite <- Z.land_assoc.
  change (Z.land (Z.ones 16) 0xFFF) with 0xFFF. rewrite Z.land_lor_distr_l, <- Z.land_assoc.
  change (Z.land FIO_S_IFMT 0xFFF) with 0. rewrite Z.land_0_r, Z.lor_0_r.
  change 0xFFF with (Z.ones 12). rewrite Z.land_ones by lia. apply Z.mod_small. lia.
Qed.

(** Decide the guards [a <= z < c] of the goal. *)
Ltac guards :=
  repeat match goal with
  | |- context [(?a <=? ?x) && (?x <? ?c)] =>
      first [ replace ((a <=? x) && (x <? c)) with true by zbool
            | replace ((a <=? x) && (x <? c)) with false by zbool ]
  end; cbv iota.

Section Fill.
Context (b : buf) (n : nat) (name : list Z) (bi : pfs_blockinfo_t) (len mode : Z).
Hypothesis Hb : words_ok b.
Hypothesis Hn : (n mod 4 = 0)%nat.
Hypothesis Hname : (length name <= 255)%nat.
Hypothesis Hfit : (n + 8 + length name <= 4 * length b)%nat.

Let b' := fillDentry n name bi len mode b.

Lemma fill_form :
  b' = put_bytes (n + 8) name (set16 (n / 4 + 1) 1 (Z.lor len (Z.land mode FIO_S_IFMT))
         (set8 (n + 5) (Z.of_nat (length name))
            (set8 (n + 4) (u8 (bi_subpart bi)) (set32 (n / 4) (bi_number bi) b)))).
Proof.
  subst b'. unfold fillDentry, u8 at 1 2. rewrite (Z.mod_small (Z.of_nat _)) by lia.
  rewrite Nat2Z.id, take_ge by lia. apply set_de_path_put.
Qed.

Lemma fill_length : length b' = length b.
Proof. rewrite fill_form, length_put_bytes, length_set16, !length_set8. apply length_set32. Qed.

Lemma fill_words_ok : words_ok b'.
Proof. rewrite fill_form. by apply words_ok_put_bytes, words_ok_set16, words_ok_set8, words_ok_set8, words_ok_set32. Qed.

Lemma fill_used z : 0 <= z -> used b' z =
  if (8 * Z.of_nat (n + 8) <=? z) && (z <? 8 * Z.of_nat (n + 8 + length name))
  then Z.testbit (nth (Z.to_nat (z / 8) - (n + 8)) name 0) (z mod 8)
  else if (8 * Z.of_nat n + 48 <=? z) && (z <? 8 * Z.of_nat n + 64)
  then Z.testbit (Z.lor len (Z.land mode FIO_S_IFMT)) (z - (8 * Z.of_nat n + 48))
  else if (8 * Z.of_nat n + 40 <=? z) && (z <? 8 * Z.of_nat n + 48)
  then Z.testbit (Z.of_nat (length name)) (z - (8 * Z.of_nat n + 40))
  else if (8 * Z.of_nat n + 32 <=? z) && (z <? 8 * Z.of_nat n + 40)
  then Z.testbit (u8 (bi_subpart bi)) (z - (8 * Z.of_nat n + 32))
  else if (8 * Z.of_nat n <=? z) && (z <? 8 * Z.of_nat n + 32)
  then Z.testbit (bi_number bi) (z - 8 * Z.of_nat n) else used b z.
Proof.
  intros Hz. assert (E := Nat.div_mod n 4 ltac:(lia)). rewrite fill_form.
  rewrite used_put_bytes by (rewrite ?length_set16, ?length_set8, ?length_set32; lia).
  rewrite used_set16 by (rewrite ?length_set8, ?length_set32; lia).
  rewrite !used_set8 by (rewrite ?length_set8, ?length_set32; lia).
  rewrite used_store32 by lia. divmod32 z.
  replace (32 * Z.of_nat (n / 4 + 1) + 16 * 1) with (8 * Z.of_nat n + 48) by lia.
  replace (8 * Z.of_nat n + 48 + 16) with (8 * Z.of_nat n + 64) by lia.
  replace (8 * Z.of_nat (n + 5)) with (8 * Z.of_nat n + 40) by lia.
  replace (8 * Z.of_nat n + 40 + 8) with (8 * Z.of_nat n + 48) by lia.
  replace (8 * Z.of_nat (n + 4)) with (8 * Z.of_nat n + 32) by lia.
  replace (8 * Z.of_nat n + 32 + 8) with (8 * Z.of_nat n + 40) by lia.
  replace (z / 32 =? Z.of_nat (n / 4)) with ((8 * Z.of_nat n <=? z) && (z <? 8 * Z.of_nat n + 32)) by zbool.
  destruct ((8 * Z.of_nat n <=? z) && (z <? 8 * Z.of_nat n + 32)) eqn:Eg; [|done].
  apply andb_prop in Eg as [Eg1%Z.leb_le Eg2%Z.ltb_lt].
  replace (z mod 32) with (z - 8 * Z.of_nat n) by lia. done.
Qed.

Lemma fill_outside a e : (e <= n \/ n + 8 + length name <= a)%nat -> same_bytes b b' a e.
Proof. intros H z Hz. rewrite fill_used by lia. guards. done. Qed.

Lemma fill_inode : de_inode b' n = u32 (bi_number bi).
Proof.
  assert (E := Nat.div_mod n 4 ltac:(lia)).
  apply get32_field; [apply fill_words_ok|]. intros k Hk. rewrite fill_used by lia. guards. f_equal. lia.
Qed.

Lemma fill_sub : de_sub b' n = u8 (bi_subpart bi).
Proof.
  replace (u8 (bi_subpart bi)) with (u8 (u8 (bi_subpart bi))) by (unfold u8; by rewrite Z.mod_mod).
  apply get8_field. intros k Hk. rewrite fill_used by lia. guards. f_equal. lia.
Qed.

Lemma fill_plen : plen b' n = length name.
Proof.
  unfold plen, de_pLen. rewrite (get8_field _ _ (Z.of_nat (length name))).
  - unfold u8. rewrite Z.mod_small by lia. apply Nat2Z.id.
  - intros k Hk. rewrite fill_used by lia. guards. f_equal. lia.
Qed.

Lemma fill_alen : 0 <= len < 4096 -> alen b' n = Z.to_nat len.
Proof.
  intros Hlen. assert (E := Nat.div_mod n 4 ltac:(lia)). unfold alen, de_aLen.
  rewrite (get16_field _ _ _ (Z.lor len (Z.land mode FIO_S_IFMT))).
  - by rewrite aLen_of_flags.
  - auto.
  - intros k Hk. rewrite fill_used by lia. guards. f_equal. lia.
Qed.

Lemma fill_path : Forall (fun c => 0 <= c < 256) name -> de_path b' n (length name) = name.
Proof.
  intros Hc. unfold de_path. apply (nth_ext _ _ 0 0); [by rewrite length_map, length_seq|].
  intros i Hi. rewrite length_map, length_seq in Hi.
  rewrite (nth_indep _ 0 (get8 b' (n + 8 + 0))) by (by rewrite length_map, length_seq).
  rewrite (map_nth (fun k => get8 b' (n + 8 + k)) (seq 0 (length name)) 0%nat i), seq_nth by done.
  rewrite (get8_field _ _ (nth i name 0)).
  - unfold u8. apply Z.mod_small. rewrite Forall_forall in Hc. apply Hc. apply list_elem_of_In, nth_In, Hi.
  - intros k Hk. rewrite fill_used by lia. guards.
    replace (8 * Z.of_nat (n + 8 + (0 + i)) + k) with (k + Z.of_nat (n + 8 + i) * 8) by lia.
    rewrite Z.div_add, Z.div_small, Z.mod_add, Z.mod_small by lia. do 2 f_equal. lia.
Qed.
End Fill.

Lemma same_bytes_trans b b1 b2 a e : same_bytes b b1 a e -> same_bytes b1 b2 a e -> same_bytes b b2 a e.
Proof. intros H1 H2 z Hz. rewrite H2, H1 by done. done. Qed.

(** Changing the allocated length of the entry at [e]. *)
Lemma set_aLen_outside b e v a a' :
  (e mod 4 = 0)%nat -> (e + 8 <= 4 * length b)%nat -> (a' <= e + 6 \/ e + 8 <= a)%nat ->
  same_bytes b (set_de_aLen e v b) a a'.
Proof.
  intros He Hl H z Hz. assert (E := Nat.div_mod e 4 ltac:(lia)). unfold set_de_aLen.
  rewrite used_set16 by lia. guards. done.
Qed.

Lemma set_aLen_alen b e v :
  (e mod 4 = 0)%nat -> (e + 8 <= 4 * length b)%nat -> alen (set_de_aLen e v b) e = Z.to_nat (aLen_of (u16 v)).
Proof.
  intros He Hl. assert (E := Nat.div_mod e 4 ltac:(lia)). unfold alen. do 2 f_equal.
  apply get16_field; [auto|]. intros k Hk. unfold set_de_aLen. rewrite used_set16 by lia. guards. f_equal. lia.
Qed.

(** The entry at [e], cut to length [k], in a buffer that keeps its other bytes. *)
Lemma entry_cut b b' e d2 k :
  entry_ok b e d2 -> words_ok b -> words_ok b' -> alen b' e = k -> (k mod 4 = 0)%nat ->
  (need (plen b e) <= k)%nat -> (e + k <= d2)%nat ->
  same_bytes b b' e (e + 6) -> same_bytes b b' (e + 8) (e + need (plen b e)) ->
  entry_ok b' e d2 /\ plen b' e = plen b e /\ entry b' e = entry b e.
Proof.
  intros Hok Hb Hb' Hk Hk4 Hneed Hend Hs1 Hs2. destruct Hok as [R1 R2 R3 R4 R5].
  assert (E := Nat.div_mod e 4 ltac:(lia)).
  assert (Ep : plen b' e = plen b e).
  { unfold plen, de_pLen. by rewrite (get8_same b b' e (e + 6)) by (auto; lia). }
  assert (Ei : de_inode b' e = de_inode b e).
  { unfold de_inode. apply (get32_same b b' e (e + 6)); auto; lia. }
  split; [split; rewrite ?Hk, ?Ep, ?Ei; auto|]. split; [done|].
  unfold entry. rewrite Ep, Ei. unfold de_sub. rewrite (get8_same b b' e (e + 6)) by (auto; lia).
  do 2 f_equal. apply map_ext_in. intros i [_ Hi]%in_seq.
  pose proof (need_bounds (plen b e)). eapply get8_same; [exact Hs2|lia].
Qed.

(** ** Insertion *)

Lemma spareLen_alen b e : spareLen e b =
  if (plen b e =? 0)%nat then Z.of_nat (alen b e) else Z.of_nat (alen b e) - Z.of_nat (need (plen b e)).
Proof.
  unfold spareLen. rewrite alen_Z. pose proof (get8_range b (e + 5)) as H. fold (de_pLen b e) in H.
  pose proof (dentryLen_need b e) as E. unfold dentryLen in E.
  replace (de_pLen b e + 8 + 3) with (de_pLen b e + 11) in E by lia. rewrite E.
  unfold nz. destruct (Z.eqb_spec (de_pLen b e) 0) as [E0|Hne]; simpl.
  - unfold plen. by rewrite E0.
  - unfold plen at 2. destruct (Nat.eqb_spec (Z.to_nat (de_pLen b e)) 0); [lia|done].
Qed.

Lemma insert_room b e d2 name :
  entry_ok b e d2 -> wanted 1 name b e = true -> Z.of_nat (need (length name)) <= spareLen e b.
Proof.
  intros [R1 R2 R3 R4 R5] H. unfold wanted, dentryMatch in H. change (1 =? 0) with false in H.
  change (1 =? 1) with true in H. cbv iota in H. rewrite newDentryLen_need, dentryLen_need in H.
  rewrite spareLen_alen. destruct (Nat.eqb_spec (plen b e) 0) as [E|E].
  - destruct (nz _ || _) eqn:Eg; [apply Z.leb_le in H; lia|].
    apply orb_false_elim in Eg as [_ Eg%Z.ltb_ge]. done.
  - destruct (nz (de_inode b e)) eqn:En; [apply Z.leb_le in H; lia|].
    apply nz_false in En. specialize (R5 En). lia.
Qed.

(** The bytes of the entry at [e] that stay with it. *)
Definition keptLen (b : buf) (e : nat) : nat := if (plen b e =? 0)%nat then 0%nat else need (plen b e).

Lemma aLen_of_lor len mode : 0 <= len < 4096 -> aLen_of (Z.lor (Z.land mode FIO_S_IFMT) len) = len.
Proof.
  intros H. unfold aLen_of. rewrite Z.land_lor_distr_l, <- Z.land_assoc. change (Z.land FIO_S_IFMT 0xFFF) with 0.
  rewrite Z.land_0_r, Z.lor_0_l. change 0xFFF with (Z.ones 12). by apply land_ones_small.
Qed.

Lemma insert_form b e d2 name bi mode :
  entry_ok b e d2 -> (d2 <= 4095)%nat -> exists v,
  aLen_of (u16 v) = Z.of_nat (keptLen b e) /\
  insertDentry e name bi mode b =
    fillDentry (e + keptLen b e) name bi (Z.of_nat (alen b e - keptLen b e)) mode (set_de_aLen e v b).
Proof.
  intros [R1 R2 R3 R4 R5] Hmax. unfold insertDentry. rewrite alen_Z.
  assert (Hs : spareLen e b = Z.of_nat (alen b e - keptLen b e)).
  { rewrite spareLen_alen. unfold keptLen. destruct (plen b e =? 0)%nat; lia. }
  assert (Hk : (keptLen b e <= alen b e)%nat) by (unfold keptLen; destruct (plen b e =? 0)%nat; lia).
  rewrite Hs. replace (Z.of_nat (alen b e) - Z.of_nat (alen b e - keptLen b e)) with (Z.of_nat (keptLen b e)) by lia.
  exists (Z.lor (Z.land (de_aLen b e) FIO_S_IFMT) (Z.of_nat (keptLen b e))). split.
  - rewrite Z.lor_comm. apply aLen_of_flags. lia.
  - by rewrite aLen_of_lor, Nat2Z.id by lia.
Qed.

Section Insert.
Context (b : buf) (d0 d2 e : nat) (l1 l2 : list nat) (name : list Z) (bi : pfs_blockinfo_t) (mode : Z).
Hypothesis Hb : words_ok b.
Hypothesis Hblk : block b d0 d2 (l1 ++ e :: l2).
Hypothesis Hd2 : (d2 <= 4 * length b)%nat.
Hypothesis Hmax : (d2 <= 4095)%nat.
Hypothesis Hw : wanted 1 name b e = true.
Hypothesis Hname : (1 <= length name <= 255)%nat.
Hypothesis Hbytes : Forall (fun c => 0 <= c < 256) name.
Hypothesis Hnum : u32 (bi_number bi) <> 0.

(** The new entry, and what the store leaves alone. *)
Lemma insert_facts :
  let b' := insertDentry e name bi mode b in
  let n := (e + keptLen b e)%nat in
  words_ok b' /\ length b' = length b /\
  entry_ok b' n (e + alen b e) /\ (n + alen b' n = e + alen b e)%nat /\ plen b' n = length name /\
  entry b' n = (name, u32 (bi_number bi), u8 (bi_subpart bi)) /\
  (forall a a', ((a' <= e + 6 \/ e + 8 <= a) /\ a' <= n \/ e + alen b e <= a)%nat -> same_bytes b b' a a') /\
  (plen b e <> 0%nat -> alen b' e = keptLen b e).
Proof.
  destruct (block_split _ _ _ _ _ Hblk) as (m & _ & Hb2). inversion Hb2 as [|? ? ? Hok Hb3]; subst.
  pose proof (insert_room _ _ _ _ Hok Hw) as Hroom. rewrite spareLen_alen in Hroom.
  pose proof (need_bounds (length name)) as [Hn1 Hn2]. pose proof (need_bounds (plen b e)) as [Hp1 Hp2].
  pose proof (block_le _ _ _ _ Hb3) as Hle3. pose proof (alen_min _ _ _ Hok) as Hmin.
  destruct (insert_form b e d2 name bi mode Hok Hmax) as (v & Hv & ->). cbv zeta.
  pose proof Hok as [R1 R2 R3 R4 R5].
  assert (Hk : (keptLen b e mod 4 = 0 /\ need (length name) <= alen b e - keptLen b e /\
  keptLen b e <= alen b e)%nat).
  { revert Hroom; unfold keptLen; destruct (plen b e =? 0)%nat; intros; (split; [|split]; first [done | lia]). }
  destruct Hk as (Hk4 & Hk & Hk'). set (kept := keptLen b e) in *.
  assert (Hn4 : ((e + kept) mod 4 = 0)%nat) by (rewrite Nat.Div0.add_mod, R1, Hk4; done).
  assert (Hs4 : ((alen b e - kept) mod 4 = 0)%nat).
  { assert (Ea := Nat.div_mod (alen b e) 4 ltac:(lia)). assert (Ek := Nat.div_mod kept 4 ltac:(lia)).
    replace (alen b e - kept)%nat with ((alen b e / 4 - kept / 4) * 4)%nat by lia. apply Nat.Div0.mod_mul. }
  set (b1 := set_de_aLen e v b). assert (Hb1 : words_ok b1) by (by apply words_ok_set16).
  assert (Hl1 : length b1 = length b) by (apply length_set16).
  assert (Hfit : (e + kept + 8 + length name <= 4 * length b1)%nat) by lia.
  set (len := Z.of_nat (alen b e - kept)). set (b' := fillDentry (e + kept) name bi len mode b1).
  assert (Ealen : alen b' (e + kept) = (alen b e - kept)%nat).
  { unfold b'. rewrite fill_alen by (auto; lia). lia. }
  assert (Eplen : plen b' (e + kept) = length name) by (apply fill_plen; auto; lia).
  split; [apply fill_words_ok; auto; lia|]. split; [rewrite <- Hl1; apply fill_length; auto; lia|].
  split; [split; rewrite ?Ealen, ?Eplen; try lia; unfold b'; rewrite fill_inode by (auto; lia); done|].
  split; [lia|]. split; [done|]. split.
  { unfold entry. rewrite Eplen. unfold b'. rewrite fill_inode, fill_sub, fill_path by (auto; lia). done. }
  split.
  - intros a a' Ha. apply (same_bytes_trans _ b1); [apply set_aLen_outside; lia | apply fill_outside; auto; lia].
  - intros Hp. assert (8 <= kept)%nat.
    { subst kept. unfold keptLen. destruct (Nat.eqb_spec (plen b e) 0); lia. }
    destruct (entry_head_same b1 b' e 8) as [-> _]; [apply fill_outside; auto; lia|lia|done|done|apply fill_words_ok; auto; lia|].
    unfold b1. rewrite set_aLen_alen by (auto; lia). rewrite Hv. apply Nat2Z.id.
Qed.

(** Cutting an entry in two keeps the contents and adds the new name. *)
Lemma insert_block :
  let b' := insertDentry e name bi mode b in
  exists l1' n,
    words_ok b' /\ length b' = length b /\ block b' d0 d2 (l1' ++ n :: l2) /\
    live b' l1' = live b (l1 ++ (if (plen b e =? 0)%nat then [] else [e])) /\ live b' l2 = live b l2 /\
    plen b' n = length name /\ entry b' n = (name, u32 (bi_number bi), u8 (bi_subpart bi)) /\
    (forall a a', (a' <= d0 \/ d2 <= a)%nat -> same_bytes b b' a a').
Proof.
  pose proof insert_facts as H. cbv zeta in H. intros b'. fold b' in H.
  destruct H as (Hok' & Hl' & Hnew & Hend & Hpl & Hent & Hsame & Hcut).
  destruct (block_split _ _ _ _ _ Hblk) as (m & Hb1 & Hb2). inversion Hb2 as [|? ? ? Hok Hb3]; subst.
  pose proof (block_le _ _ _ _ Hb1) as Hle1. pose proof (block_le _ _ _ _ Hb3) as Hle3.
  destruct (block_same b b' d0 e l1 Hb Hok' Hb1) as [B1 L1]; [apply Hsame; unfold keptLen; lia|].
  destruct (block_same b b' (e + alen b e) d2 l2 Hb Hok' Hb3) as [B3 L3]; [apply Hsame; lia|].
  assert (Bn : block b' (e + keptLen b e) d2 ((e + keptLen b e)%nat :: l2)).
  { constructor; [eapply entry_ok_weaken; [exact Hnew|lia]|]. by rewrite Hend. }
  assert (Hout : forall a a', (a' <= d0 \/ d2 <= a)%nat -> same_bytes b b' a a').
  { intros a a' Ha. apply Hsame. lia. }
  pose proof (need_bounds (plen b e)) as [Hp1 Hp2].
  unfold keptLen in *. destruct (Nat.eqb_spec (plen b e) 0) as [Ep|Ep].
  - rewrite Nat.add_0_r in *. exists l1, e. rewrite app_nil_r.
    repeat (split; [solve [eauto using block_join]|]). done.
  - pose proof (eo_room _ _ _ Hok) as Hr. pose proof (eo_end _ _ _ Hok) as He.
    destruct (entry_cut b b' e d2 (need (plen b e))) as (E1 & E2 & E3);
      [done|done|done|auto|done|lia|lia|apply Hsame; lia|apply Hsame; lia|].
    assert (Be : block b' e d2 (e :: (e + need (plen b e))%nat :: l2)).
    { constructor; [done|]. by rewrite Hcut. }
    exists (l1 ++ [e]), (e + need (plen b e))%nat. rewrite <- app_assoc.
    repeat (split; [solve [eauto using block_join]|]). split; [|by eauto].
    rewrite !live_app, L1, !live_cons, E2, E3. done.
Qed.
End Insert.

(** ** Removal *)

(** The entry at [e] given to the entry [p] before it. *)
Lemma join_block b d0 d2 l1 p e l2 :
  words_ok b -> block b d0 d2 (l1 ++ p :: e :: l2) -> (d2 <= 4 * length b)%nat -> (d2 <= 4095)%nat ->
  let b' := joinDentry p e b in
  words_ok b' /\ length b' = length b /\ block b' d0 d2 (l1 ++ p :: l2) /\
  live b' (l1 ++ p :: l2) = live b (l1 ++ [p]) ++ live b l2.
Proof.
  intros Hb Hblk Hd2 Hmax b'. destruct (block_split _ _ _ _ _ Hblk) as (m & Hb1 & Hb2).
  inversion Hb2 as [|? ? ? Hok Hb3]; subst. inversion Hb3 as [|? ? ? Hoke Hb4]; subst.
  pose proof (block_le _ _ _ _ Hb4) as Hle. pose proof (alen_min _ _ _ Hok) as Hmin.
  set (k := (alen b p + alen b (p + alen b p))%nat).
  assert (Hok' : words_ok b') by (by apply words_ok_set16).
  assert (Hal : alen b' p = k).
  { unfold b', joinDentry. rewrite set_aLen_alen by (try apply Hok; lia). rewrite !alen_Z, Z.lor_comm, aLen_of_flags by lia. lia. }
  assert (Hsame : forall a a', (a' <= p + 6 \/ p + 8 <= a)%nat -> same_bytes b b' a a').
  { intros a a' Ha. apply set_aLen_outside; [apply Hok|lia|done]. }
  pose proof (eo_alen4 _ _ _ Hok) as A1. pose proof (eo_alen4 _ _ _ Hoke) as A2.
  pose proof (eo_room _ _ _ Hok) as A3.
  destruct (entry_cut b b' p d2 k) as (E1 & E2 & E3); [done|done|done|done| |lia|lia|apply Hsame; lia|apply Hsame; lia|].
  { subst k. rewrite Nat.Div0.add_mod, A1, A2. done. }
  destruct (block_same b b' d0 p l1 Hb Hok' Hb1) as [B1 L1]; [apply Hsame; lia|].
  destruct (block_same b b' _ d2 l2 Hb Hok' Hb4) as [B4 L4]; [apply Hsame; lia|].
  split; [done|]. split; [apply length_set16|]. split.
  - eapply block_join; [exact B1|]. constructor; [done|]. rewrite Hal. subst k. by rewrite Nat.add_assoc.
  - rewrite !live_app, L1, !live_cons, E2, E3, L4. by rewrite app_nil_r, app_assoc.
Qed.

(** The first entry of a block, emptied. *)
Definition clearDentry (e : nat) (b : buf) : buf := set_de_pLen e 0 (set_de_inode e 0 b).

Lemma clear_block b d0 d2 l2 :
  words_ok b -> block b d0 d2 (d0 :: l2) -> (d2 <= 4 * length b)%nat ->
  let b' := clearDentry d0 b in
  words_ok b' /\ length b' = length b /\ block b' d0 d2 (d0 :: l2) /\ live b' (d0 :: l2) = live b l2.
Proof.
  intros Hb Hblk Hd2 b'. inversion Hblk as [|? ? ? Hok Hb3]; subst.
  pose proof (block_le _ _ _ _ Hb3) as Hle. pose proof (alen_min _ _ _ Hok) as Hmin.
  destruct Hok as [R1 R2 R3 R4 R5]. assert (E := Nat.div_mod d0 4 ltac:(lia)).
  assert (Hok' : words_ok b') by (by apply words_ok_set8, words_ok_set32).
  assert (Hu : forall z, 0 <= z -> used b' z =
    if (8 * Z.of_nat d0 + 40 <=? z) && (z <? 8 * Z.of_nat d0 + 48) then false
    else if (8 * Z.of_nat d0 <=? z) && (z <? 8 * Z.of_nat d0 + 32) then false else used b z).
  { intros z Hz. unfold b', clearDentry, set_de_pLen, set_de_inode.
    rewrite used_set8, used_store32 by (rewrite ?length_set32; lia). rewrite !Z.testbit_0_l. divmod32 z.
    replace (8 * Z.of_nat (d0 + 5)) with (8 * Z.of_nat d0 + 40) by lia.
    replace (8 * Z.of_nat d0 + 40 + 8) with (8 * Z.of_nat d0 + 48) by lia.
    replace (z / 32 =? Z.of_nat (d0 / 4)) with ((8 * Z.of_nat d0 <=? z) && (z <? 8 * Z.of_nat d0 + 32)) by zbool.
    done. }
  assert (Ep : plen b' d0 = 0%nat).
  { unfold plen, de_pLen. rewrite (get8_field _ _ 0); [done|]. intros k Hk.
    rewrite Hu, Z.testbit_0_l by lia. guards. done. }
  assert (Ea : alen b' d0 = alen b d0).
  { unfold alen. do 2 f_equal. apply (get16_same b b' (d0 + 6) (d0 + 8)); [|auto|lia|lia].
    intros z Hz. rewrite Hu by lia. guards. done. }
  destruct (block_same b b' (d0 + alen b d0) d2 l2 Hb Hok' Hb3) as [B3 L3].
  { intros z Hz. rewrite Hu by lia. guards. done. }
  split; [done|]. split; [unfold b', clearDentry, set_de_pLen; rewrite length_set8; apply length_set32|].
  split; [constructor; [split; rewrite ?Ea, ?Ep; auto; lia | by rewrite Ea]|].
  rewrite live_cons, Ep, L3. done.
Qed.
