(* ===== verification/PfsDirProps.v ===== *)
(** * PfsDirProps: correctness of directories and path names of libpfs *)

From stdpp Require Import base numbers list gmap.
From Stdlib Require Import ZArith Lia.
From S2P Require Import Prelude ApaState PfsState PfsCache PfsBits PfsDir PfsDents PfsScenario.

Open Scope Z_scope.
Open Scope c_scope.

(** A file name: 1 to 255 bytes. *)
Definition name_ok (name : list Z) : Prop :=
  (1 <= length name <= 255)%nat /\ Forall (fun c => 0 <= c < 256) name.

(** A 512-byte block at [base] of a chunk, with its entries [l]. *)
Definition dir_block (b : buf) (base : nat) (l : list nat) : Prop :=
  words_ok b /\ length b = 256%nat /\ (base = 0 \/ base = 512)%nat /\ block b base (base + 512) l.

Lemma length_de_path b d n : length (de_path b d n) = n.
Proof. unfold de_path. by rewrite length_map, length_seq. Qed.

(** An entry is wanted by a lookup when it has the name. *)
Lemma wanted_name name b e : wanted 0 name b e = bool_decide ((entry b e).1.1 = name).
Proof.
  unfold wanted, dentryMatch, entry. change (0 =? 0) with true. cbv iota. cbn [fst].
  pose proof (get8_range b (e + 5)) as H. fold (de_pLen b e) in H. fold (plen b e).
  destruct (Z.eqb_spec (Z.of_nat (length name)) (de_pLen b e)) as [E|E]; [done|].
  symmetry. apply bool_decide_eq_false_2. intros <-. rewrite length_de_path in E. unfold plen in E. lia.
Qed.

(** The first name of [l] that is [name]. *)
Definition lookup_name (name : list Z) (l : list (list Z * Z * Z)) : option (list Z * Z * Z) :=
  List.find (fun x => bool_decide (x.1.1 = name)) l.

Lemma lookup_name_app name l1 l2 :
  lookup_name name (l1 ++ l2) =
  match lookup_name name l1 with Some x => Some x | None => lookup_name name l2 end.
Proof. induction l1 as [|x l1 IH]; [done|]. unfold lookup_name in *. simpl. by destruct (bool_decide _). Qed.

Lemma elem_mid {A} (x : A) l1 l2 : x ∈ l1 ++ x :: l2.
Proof. apply elem_of_app. right. constructor. Qed.

(** The first element wanted splits the list. *)
Lemma find_split {A} (f : A -> bool) l x :
  List.find f l = Some x -> exists l1 l2, l = l1 ++ x :: l2 /\ f x = true /\ List.find f l1 = None.
Proof.
  induction l as [|y l IH]; simpl; [done|]. destruct (f y) eqn:E.
  - intros [= <-]. by exists [], l.
  - intros H. destruct (IH H) as (l1 & l2 & -> & Hx & Hn). exists (y :: l1), l2. simpl. by rewrite E.
Qed.

Lemma find_live name b l :
  (1 <= length name)%nat ->
  lookup_name name (live b l) = option_map (entry b) (List.find (wanted 0 name b) l).
Proof.
  intros Hn. induction l as [|e l IH]; [done|]. rewrite live_cons. cbn [List.find]. rewrite wanted_name.
  destruct (Nat.eqb_spec (plen b e) 0) as [Ep|Ep]; simpl; rewrite IH; [|by destruct (bool_decide _)].
  rewrite bool_decide_eq_false_2; [done|]. intros E. simpl in E.
  rewrite Ep in E. simpl in E. subst name. simpl in Hn. lia.
Qed.

(** C18: looking a name up in a well-formed block of a directory finds exactly
    the names it holds: the walk of [pfsGetDentry] stops at the entry of the
    first one with that name, with the position of the entry in the directory,
    or goes through the whole block when there is none. *)
Theorem dir_lookup b base l name size :
  dir_block b base l -> name_ok name -> 0 <= size < 2 ^ 32 - 512 ->
  match lookup_name name (live b l) with
  | Some x => exists e, e ∈ l /\ entry b e = x /\
      walkBlock 129 0 name b base (base + 512) size = Some (WFound e (size + Z.of_nat (e - base)))
  | None => walkBlock 129 0 name b base (base + 512) size = Some (WEnd (size + 512))
  end.
Proof.
  intros (Hb & Hl & Hbase & Hblk) [Hn _] Hs. rewrite find_live by lia.
  rewrite (walkBlock_block 0 name b (base + 512) 129 base l) by (auto; lia).
  destruct (List.find _ l) as [e|] eqn:E; simpl; [|do 2 f_equal; lia].
  exists e. apply find_some in E as [E _]. split; [by apply list_elem_of_In|]. done.
Qed.

(** C19: putting a new name in a block where [pfsGetDentry] found room keeps the
    block well formed and all its names, in order, and adds the new one with
    its inode; the other block of the chunk does not change.  Looking the name
    up afterwards finds the new entry, when the block did not hold the name. *)
Theorem dir_insert b base l name bi mode e size :
  dir_block b base l -> name_ok name -> u32 (bi_number bi) <> 0 ->
  walkBlock 129 1 name b base (base + 512) 0 = Some (WFound e size) ->
  lookup_name name (live b l) = None ->
  let b' := insertDentry e name bi mode b in
  let new := (name, u32 (bi_number bi), u8 (bi_subpart bi)) in
  exists l' before after,
    dir_block b' base l' /\ live b l = before ++ after /\ live b' l' = before ++ new :: after /\
    lookup_name name (live b' l') = Some new /\
    same_bytes b b' (512 - base) (1024 - base).
Proof.
  intros (Hb & Hl & Hbase & Hblk) [Hn Hc] Hnum Hw Hnone b' new.
  rewrite (walkBlock_block 1 name b (base + 512) 129 base l) in Hw by (auto; lia).
  destruct (List.find (wanted 1 name b) l) as [e'|] eqn:Ef; [|done]. injection Hw as -> _.
  apply find_some in Ef as [Ein Hw]. apply list_elem_of_In, list_elem_of_split in Ein as (l1 & l2 & ->).
  destruct (insert_block b base (base + 512) e l1 l2 name bi mode) as
    (l1' & n & Hok & Hlen & Hb' & L1 & L2 & Hp & He & Hs); [done|done|lia|lia|done|done|done|done|].
  fold b' in Hok, Hlen, Hb', L1, L2, Hp, He, Hs. fold new in He.
  exists (l1' ++ n :: l2), (live b' l1'), (live b' l2).
  assert (Hnew : live b' (n :: l2) = new :: live b' l2).
  { rewrite live_cons, Hp, He. by replace (length name =? 0)%nat with false by (symmetry; apply Nat.eqb_neq; lia). }
  assert (Hold : live b (l1 ++ e :: l2) = live b' l1' ++ live b' l2).
  { rewrite L1, L2, !live_app, live_cons, <- app_assoc. destruct (plen b e =? 0)%nat eqn:Ep; [done|].
    by rewrite (live_cons b e []), Ep. }
  split; [split; [done|]; split; [lia|]; done|]. split; [done|]. rewrite live_app, Hnew.
  split; [done|]. split; [|apply Hs; lia].
  rewrite Hold in Hnone. rewrite lookup_name_app in Hnone |- *.
  destruct (lookup_name _ (live b' l1')); [done|].
  unfold lookup_name. simpl. by rewrite bool_decide_eq_true_2.
Qed.

(** The block of a new directory: "." and "..". *)
Definition demo_block : buf := selfAndParent (mkBi 5 0 1) (mkBi 3 0 1).
Definition demo_name : list Z := [65; 66].

Lemma demo_block_ok : dir_block demo_block 0 [0%nat; 12%nat].
Proof.
  split; [apply words_okb_ok; vm_compute; reflexivity|]. split; [reflexivity|]. split; [auto|].
  constructor; [split; vm_compute; first [reflexivity | lia | discriminate]|].
  change (0 + alen demo_block 0)%nat with 12%nat.
  constructor; [split; vm_compute; first [reflexivity | lia | discriminate]|].
  change (12 + alen demo_block 12)%nat with (0 + 512)%nat. constructor.
Qed.

Lemma demo_name_ok : name_ok demo_name.
Proof. split; [simpl; lia|]. repeat constructor; lia. Qed.

Lemma dir_lookup_witness :
  exists e, entry demo_block e = (str_dotdot, 3, 0) /\
    walkBlock 129 0 str_dotdot demo_block 0 512 0 = Some (WFound e (Z.of_nat e)).
Proof.
  pose proof (dir_lookup demo_block 0 [0%nat; 12%nat] str_dotdot 0 demo_block_ok
    ltac:(split; [simpl; lia | repeat constructor; lia]) ltac:(lia)) as H.
  change (lookup_name str_dotdot (live demo_block [0%nat; 12%nat])) with (Some (str_dotdot, 3, 0)) in H.
  destruct H as (e & _ & He & Hw). exists e. split; [exact He|]. rewrite Nat.sub_0_r in Hw. exact Hw.
Defined.

Lemma dir_insert_witness :
  exists l', let b' := insertDentry 12 demo_name (mkBi 77 0 1) 0x2000 demo_block in
    dir_block b' 0 l' /\ lookup_name demo_name (live b' l') = Some (demo_name, 77, 0).
Proof.
  destruct (dir_insert demo_block 0 [0%nat; 12%nat] demo_name (mkBi 77 0 1) 0x2000 12 12
    demo_block_ok demo_name_ok ltac:(vm_compute; discriminate)) as (l' & before & after & H1 & _ & _ & H2 & _);
    [vm_compute; reflexivity | vm_compute; reflexivity |].
  exists l'. split; [exact H1 | exact H2].
Defined.

(** ** Removing a name *)

Section Remove.
Context {D : Type} `{BlockDevice D}.

Lemma pdata_Done (s : pfs_st D) c x : pfsCacheBuf s !! c = Some x -> pdata c s = Done (pc_data x) s.
Proof. intros H1. unfold pdata, bind, pget. by rewrite H1. Qed.

Lemma dmod_Done (s : pfs_st D) c x f : pfsCacheBuf s !! c = Some x ->
  dmod c f s = Done tt (with_pcache (<[c := pc_set_data (f (pc_data x)) x]> (pfsCacheBuf s)) s).
Proof. intros H1. unfold dmod, pmod. by rewrite H1. Qed.

(** Buffer [c] holds a chunk with data [b]. *)
Definition holds (s : pfs_st D) (c : nat) (b : buf) : Prop :=
  exists x, pfsCacheBuf s !! c = Some x /\ pc_data x = b.

Lemma wp_dmod (s : pfs_st D) c b f (Q : unit -> pfs_st D -> Prop) :
  holds s c b ->
  (forall s', holds s' c (f b) -> (forall c', c' <> c -> pfsCacheBuf s' !! c' = pfsCacheBuf s !! c') -> Q tt s') ->
  wp (dmod c f) s Q.
Proof.
  intros (x & Hx & <-) HQ. eapply wp_Done; [by apply dmod_Done|]. apply HQ.
  - eexists. split; [apply list_lookup_insert_eq; by eapply lookup_lt_Some | done].
  - intros c' Hc. simpl. by apply list_lookup_insert_ne.
Qed.

Lemma wp_pdata (s : pfs_st D) c b (Q : buf -> pfs_st D -> Prop) : holds s c b -> Q b s -> wp (pdata c) s Q.
Proof. intros (x & Hx & <-) HQ. eapply wp_Done; [by apply pdata_Done | done]. Qed.

(** What removing the entry [e] between [l1] and [l2] must give. *)
Definition removed (b : buf) (c d0 d2 : nat) (l1 l2 : list nat) (r : option nat) (s' : pfs_st D) : Prop :=
  r = Some c /\ exists b' l', holds s' c b' /\ words_ok b' /\ length b' = length b /\
    block b' d0 d2 l' /\ live b' l' = live b l1 ++ live b l2.

(** The walk has reached the entry; [l1] are the entries before it. *)
Lemma removeWalk_here clink c size e d0 d2 l1 l2 b fuel (s : pfs_st D) i :
  holds s c b -> (exists ib, holds s clink ib) -> clink <> c ->
  words_ok b -> (d2 <= 4 * length b)%nat -> (d2 <= 4095)%nat -> block b d0 d2 (l1 ++ e :: l2) ->
  wp (removeWalk (S fuel) clink c size e (last l1) e i) s (removed b c d0 d2 l1 l2).
Proof.
  intros Hc (ib & x & Hx & Hxb) Hne Hb Hl Hmax Hblk. cbn [removeWalk].
  apply wp_bind. eapply wp_pdata; [exact Hc|]. rewrite Nat.eqb_refl.
  destruct (last l1) as [p|] eqn:El.
  - apply wp_bind. eapply wp_dmod; [exact Hc|]. intros s' Hc' _. apply wp_ret. split; [done|].
    apply last_Some in El as [l1' ->]. rewrite <- app_assoc in Hblk. simpl in Hblk.
    destruct (join_block b d0 d2 l1' p e l2) as (J1 & J2 & J3 & J4); [done|done|done|done|].
    exists (joinDentry p e b), (l1' ++ p :: l2). done.
  - apply last_None in El as ->. simpl in Hblk. assert (e = d0) as -> by (inversion Hblk; done).
    destruct (clear_block b d0 d2 l2) as (J1 & J2 & J3 & J4); [done|done|done|].
    apply wp_bind. apply wp_bind. eapply wp_dmod; [exact Hc|]. intros s1 Hc1 Hs1.
    apply wp_bind. eapply wp_dmod; [exact Hc1|]. intros s2 Hc2 Hs2.
    assert (Hi2 : holds s2 clink ib) by (exists x; split; [rewrite Hs2, Hs1 by done; done | done]).
    apply wp_bind. eapply wp_pdata; [exact Hi2|].
    assert (Hend : forall s3, holds s3 c (clearDentry d0 b) -> wp (ret (Some c)) s3 (removed b c d0 d2 [] l2)).
    { intros s3 H3. apply wp_ret. split; [done|]. eexists _, _. split; [exact H3|]. done. }
    apply wp_when; intros _; [|by apply Hend].
    eapply wp_dmod; [exact Hi2|]. intros s3 _ Hs3. apply Hend.
    destruct Hc2 as (y & Hy & Hyb). exists y. split; [|done]. by rewrite Hs3.
Qed.

(** The walk, with the entries [rest] still to pass. *)
Lemma removeWalk_spec clink c size e d0 l2 b : forall rest fuel (s : pfs_st D) l1 dnext,
  holds s c b -> (exists ib, holds s clink ib) -> clink <> c ->
  words_ok b -> (d0 + 512 <= 4 * length b)%nat -> (d0 + 512 <= 4095)%nat ->
  block b d0 (d0 + 512) (l1 ++ rest ++ e :: l2) -> block b dnext (d0 + 512) (rest ++ e :: l2) ->
  (length rest < fuel)%nat ->
  wp (removeWalk fuel clink c size e (last l1) dnext (Z.of_nat (dnext - d0))) s
     (removed b c d0 (d0 + 512) (l1 ++ rest) l2).
Proof.
  induction rest as [|p rest IH]; intros [|fuel] s l1 dnext Hc Hi Hne Hb Hl Hmax Hblk Hn Hf; try (simpl in Hf; lia).
  - inversion Hn; subst. rewrite app_nil_r. by apply removeWalk_here.
  - cbn [removeWalk]. apply wp_bind. eapply wp_pdata; [exact Hc|].
    inversion Hn as [|? ? ? Hok Hn']; subst. pose proof (alen_min _ _ _ Hok) as Hmin.
    destruct (block_elem _ _ _ _ e Hn' (elem_mid _ _ _)) as [Hoke Hle].
    pose proof (alen_min _ _ _ Hoke). pose proof (eo_end _ _ _ Hoke).
    destruct (block_elem _ _ _ _ p Hblk (elem_mid p l1 (rest ++ e :: l2))) as [_ Hp].
    replace (p =? e)%nat with false by (symmetry; apply Nat.eqb_neq; lia).
    rewrite alen_Z, Nat2Z.id. replace (_ <? 512) with true by zbool.
    replace (Z.of_nat (p - d0) + Z.of_nat (alen b p)) with (Z.of_nat (p + alen b p - d0)) by lia.
    replace (l1 ++ p :: rest) with ((l1 ++ [p]) ++ rest) by (by rewrite <- app_assoc).
    rewrite <- (last_snoc p l1) at 1. apply IH; auto; [by rewrite <- app_assoc | simpl in Hf; lia].
Qed.

(** C20: removing a name that [pfsGetDentry] found keeps the block well formed
    and all other names, in order: the walk of [pfsDirRemoveEntry] reaches
    the entry, and gives its bytes to the entry before it or, for the first
    entry of the block, empties it. *)
Theorem dir_remove (s : pfs_st D) clink c b base l name e size0 size :
  holds s c b -> (exists ib, holds s clink ib) -> clink <> c ->
  dir_block b base l -> name_ok name -> 0 <= size0 < 2 ^ 32 - 512 ->
  walkBlock 129 0 name b base (base + 512) size0 = Some (WFound e size) ->
  exists before after,
    live b l = before ++ entry b e :: after /\ (entry b e).1.1 = name /\ lookup_name name before = None /\
    wp (removeWalk 129 clink c size e None (e / 512 * 512) 0) s (fun r s' =>
      r = Some c /\ exists b' l', holds s' c b' /\ dir_block b' base l' /\ live b' l' = before ++ after).
Proof.
  intros Hc Hi Hne (Hb & Hl & Hbase & Hblk) [Hn _] Hs Hw.
  rewrite (walkBlock_block 0 name b (base + 512) 129 base l) in Hw by (auto; lia).
  destruct (List.find (wanted 0 name b) l) as [e'|] eqn:Ef; [|done]. injection Hw as -> _.
  pose proof Ef as (l1 & l2 & -> & Hw & Hnone)%find_split.
  destruct (block_elem _ _ _ _ e Hblk (elem_mid _ _ _)) as [Hok Hle]. pose proof (alen_min _ _ _ Hok).
  pose proof (eo_end _ _ _ Hok). rewrite wanted_name in Hw. apply bool_decide_eq_true_1 in Hw.
  assert (Hp : plen b e <> 0%nat).
  { intros E. unfold entry in Hw. rewrite E in Hw. simpl in Hw. subst name. simpl in Hn. lia. }
  exists (live b l1), (live b l2). split.
  { rewrite live_app, live_cons. by destruct (Nat.eqb_spec (plen b e) 0). }
  split; [done|]. split; [by rewrite find_live, Hnone by lia|].
  assert (Ebase : (e / 512 * 512 = base)%nat).
  { destruct Hbase as [-> | ->]; [rewrite Nat.div_small by lia; done|].
    replace e with (e - 512 + 1 * 512)%nat by lia. rewrite Nat.div_add, Nat.div_small by lia. done. }
  rewrite Ebase. eapply wp_mono.
  - pose proof (removeWalk_spec clink c size e base l2 b l1 129 s [] base) as H'.
    rewrite Nat.sub_diag in H'. apply H'; auto; try lia.
    apply block_length in Hblk. rewrite length_app in Hblk. lia.
  - intros r s' (-> & b' & l' & J1 & J2 & J3 & J4 & J5). split; [done|]. exists b', l'.
    split; [done|]. split; [split; [done|]; split; [lia|]; done | done].
Qed.
End Remove.

(** Buffer 1 holds the block, buffer 2 an inode. *)
Definition demo_state : pfs_st ram :=
  with_pcache [mkPc 0 0 0 0 None 0 0 []; mkPc 1 1 0 1 (Some 0%nat) 0 0 demo_block;
               mkPc 2 2 0 1 (Some 0%nat) 0 0 (zeros 256)] pfs0.

Lemma dir_remove_witness :
  exists before after, live demo_block [0%nat; 12%nat] = before ++ (str_dotdot, 3, 0) :: after /\
    wp (removeWalk 129 2 1 12 12 None 0 0) demo_state (fun r s' =>
      r = Some 1%nat /\ exists b' l', holds s' 1 b' /\ dir_block b' 0 l' /\ live b' l' = before ++ after).
Proof.
  destruct (dir_remove demo_state 2 1 demo_block 0 [0%nat; 12%nat] str_dotdot 12 0 12) as (before & after & H1 & _ & _ & H2).
  - eexists. split; reflexivity.
  - eexists. eexists. split; reflexivity.
  - lia.
  - apply demo_block_ok.
  - split; [simpl; lia | repeat constructor; lia].
  - lia.
  - vm_compute. reflexivity.
  - exists before, after. split; [exact H1 | exact H2].
Defined.

(** ** Damaged directories *)

(** C21: the walk over a block of a directory chunk of any bytes, for the three
    things the driver looks for.  The walk over the first block ends after at
    most 64 entries, and so does that over the second, unless entries with
    right lengths, none of them wanted, lead to the last 4 bytes of the chunk:
    then, and only then, it reads past the end of the buffer.  An entry it
    finds is the first wanted one, and lies in the block with its name; if the
    walk gets to the end of the block, no entry of it is wanted; if it reports
    a bad entry, there is one. *)
Theorem dir_walk_safe b base opt path size :
  (base = 0 \/ base = 512)%nat -> (opt = 0 \/ opt = 1 \/ opt = 2) ->
  match walkBlock 129 opt path b base (base + 512) size with
  | Some (WFound e _) => passes opt path b (base + 512) base e /\ wanted opt path b e = true /\
      (base <= e /\ e + 8 + plen b e <= e + alen b e /\ e + alen b e <= base + 512)%nat
  | Some (WEnd _) => passes opt path b (base + 512) base (base + 512)
  | Some (WBad _) => exists e, passes opt path b (base + 512) base e /\ (base <= e < base + 512)%nat /\ ~ fits b (base + 512) e
  | None => True
  end /\
  (walkBlock 129 opt path b base (base + 512) size = None <-> base = 512%nat /\ passes opt path b 1024 512 1020).
Proof.
  intros Hbase Ho. assert (Hm : (base mod 4 = 0 /\ (base + 512) mod 4 = 0 /\ base + 512 <= 1024)%nat) by (destruct Hbase as [-> | ->]; simpl; lia).
  destruct Hm as (M1 & M2 & M3). pose proof (walkBlock_any opt path b (base + 512) Ho M3 M2 129 base size ltac:(lia) M1 ltac:(lia)) as H. split.
  - destruct (walkBlock _ _ _ _ _ _ _) as [[size'|e size'|size']|]; [done| |done|done]. destruct H as (P & L & (F1 & F2 & F3) & W).
    pose proof (need_bounds (plen b e)). split; [done|]. split; [done|lia].
  - split.
    + intros E. rewrite E in H. destruct H as [E1 P]. rewrite E1 in P. assert (base = 512%nat) as -> by lia. done.
    + intros [-> P]. destruct (walkBlock_passes opt path b 1024 512 1020 Ho P 129 size ltac:(lia)) as (fuel & size' & Hf & E).
      change (512 + 512)%nat with 1024%nat. rewrite E. destruct fuel as [|fuel]; [lia|]. done.
Qed.

(** In the second block an entry of 508 bytes leads to the last word of the
    chunk, where the length of an entry is read past the end. *)
Definition w_overrun : buf := set_de_aLen 512 508 (zeros 256).

Lemma dir_walk_safe_witness : walkBlock 129 0 demo_name w_overrun 512 1024 0 = None.
Proof.
  apply (dir_walk_safe w_overrun 512 0 demo_name 0); [by right|by left|]. split; [done|].
  apply passes_on; [lia|lia|vm_compute; lia|vm_compute; reflexivity|]. replace (512 + alen w_overrun 512)%nat with 1020%nat by (vm_compute; reflexivity). constructor.
Defined.

(** ** Path names *)

(** Splitting at [c]: the bytes [c] in front, and the bytes before the first [c]. *)
Definition not_slash_head (s : list Z) : Prop := chr s 0 <> 47.

Lemma chr_app pre t : chr (pre ++ t) (length pre) = chr t 0.
Proof. unfold chr. rewrite app_nth2, Nat.sub_diag by lia. done. Qed.

Lemma split_slashes t : exists k t', t = replicate k 47 ++ t' /\ not_slash_head t'.
Proof.
  induction t as [|c t (k & t' & -> & Ht)]; [by exists 0%nat, []|].
  destruct (Z.eqb_spec c 47) as [->|Hc]; [by exists (S k), t'|]. by exists 0%nat, (c :: replicate k 47 ++ t').
Qed.

Lemma split_component t : exists comp t', t = comp ++ t' /\ Forall (fun c => c <> 47) comp /\ (t' = [] \/ chr t' 0 = 47).
Proof.
  induction t as [|c t (comp & t' & -> & Hc & Ht)]; [exists [], []; auto|].
  destruct (Z.eqb_spec c 47) as [->|Hne]; [exists [], (47 :: comp ++ t'); auto|].
  exists (c :: comp), t'. auto.
Qed.

Lemma skipSlashes_spec k : forall pre t fuel,
  (k < fuel)%nat -> not_slash_head t ->
  skipSlashes fuel (pre ++ replicate k 47 ++ t) (length pre) = (length pre + k)%nat.
Proof.
  induction k as [|k IH]; intros pre t [|fuel] Hf Ht; try lia; cbn [skipSlashes]; rewrite chr_app.
  - simpl. destruct (Z.eqb_spec (chr t 0) 47); [done|lia].
  - change (chr (replicate (S k) 47 ++ t) 0 =? 47) with true. cbv iota.
    specialize (IH (pre ++ [47]) t fuel ltac:(lia) Ht). rewrite length_app, <- app_assoc in IH. simpl in IH.
    replace (S (length pre)) with (length pre + 1)%nat by lia. simpl. rewrite IH. lia.
Qed.

Lemma skipTail_spec k : forall pre t fuel,
  (k < fuel)%nat -> not_slash_head t -> (length pre + k < 1024)%nat ->
  skipTail fuel (pre ++ replicate k 47 ++ t) (length pre) = (length pre + k)%nat.
Proof.
  induction k as [|k IH]; intros pre t [|fuel] Hf Ht Hl; try lia; cbn [skipTail]; rewrite chr_app.
  - simpl. destruct (Z.eqb_spec (chr t 0) 47); [done|simpl; lia].
  - change (chr (replicate (S k) 47 ++ t) 0 =? 47) with true.
    replace (length pre <? 1024)%nat with true by (symmetry; apply Nat.ltb_lt; lia). cbn [andb].
    specialize (IH (pre ++ [47]) t fuel ltac:(lia) Ht). rewrite length_app, <- app_assoc in IH. simpl in IH.
    replace (S (length pre)) with (length pre + 1)%nat by lia. simpl. rewrite IH by lia. lia.
Qed.

Lemma copyName_spec comp : forall pre t fuel path,
  (length comp < fuel)%nat -> Forall (fun c => c <> 47 /\ c <> 0) comp -> (t = [] \/ chr t 0 = 47) ->
  (length pre + length comp < 1024)%nat ->
  copyName fuel (pre ++ comp ++ t) (length pre) path =
  ((length pre + length comp)%nat, path ++ take (255 - length path) comp).
Proof.
  induction comp as [|c comp IH]; intros pre t [|fuel] path Hf Hc Ht Hl; simpl in Hf, Hl; try lia;
    cbn [copyName]; rewrite chr_app; replace (length pre <? 1024)%nat with true by (symmetry; apply Nat.ltb_lt; lia).
  - simpl. rewrite Nat.add_0_r, take_nil, app_nil_r. destruct Ht as [-> | ->]; done.
  - apply Forall_cons in Hc as [[H47 H0] Hc].
    change (chr ((c :: comp) ++ t) 0) with c.
    replace (c =? 47) with false by zbool. replace (c =? 0) with false by zbool. cbn [andb negb].
    specialize (IH (pre ++ [c]) t fuel (if (length path <? 255)%nat then path ++ [c] else path) ltac:(lia) Hc Ht).
    rewrite length_app, <- app_assoc in IH. cbn [length app] in IH. replace (S (length pre)) with (length pre + 1)%nat by lia.
    cbn [length app]. rewrite IH by lia. f_equal; [lia|].
    destruct (Nat.ltb_spec (length path) 255).
    + rewrite length_app, <- app_assoc. simpl. replace (255 - length path)%nat with (S (255 - (length path + 1))) by lia. done.
    + replace (255 - length path)%nat with 0%nat by lia. done.
Qed.

(** [pfsSplitPath] takes the first component off a path of less than 1024
    bytes: the path is slashes, the component, slashes and the rest, where the
    component holds no slash and the rest does not start with one; the
    component is copied up to 255 bytes, and the rest is returned.  The rest of
    a path that is not empty is shorter, so that walking a path ends. *)
Theorem split_path filename :
  Forall (fun c => c <> 0) filename -> (length filename < 1024)%nat ->
  exists k1 comp k2 rest,
    filename = replicate k1 47 ++ comp ++ replicate k2 47 ++ rest /\
    Forall (fun c => c <> 47) comp /\ not_slash_head rest /\
    pfsSplitPath filename = (Some rest, take 255 comp) /\
    (filename <> [] -> (length rest < length filename)%nat).
Proof.
  intros Hz Hl. destruct (split_slashes filename) as (k1 & t & Ef & Ht).
  destruct (split_component t) as (comp & t1 & Et & Hc & Ht1).
  destruct (split_slashes t1) as (k2 & rest & Er & Hr). subst t t1.
  exists k1, comp, k2, rest. split; [done|]. split; [done|]. split; [done|].
  assert (Hlen : length filename = (k1 + length comp + k2 + length rest)%nat).
  { rewrite Ef, !length_app, !length_replicate. lia. }
  split.
  - unfold pfsSplitPath.
    assert (E1 : skipSlashes (S (length filename)) filename 0 = k1).
    { pose proof (skipSlashes_spec k1 [] (comp ++ replicate k2 47 ++ rest) (S (length filename)) ltac:(lia) Ht) as H.
      cbn [app length Nat.add] in H. by rewrite <- Ef in H. }
    assert (E2 : copyName (S (length filename)) filename k1 [] = ((k1 + length comp)%nat, take 255 comp)).
    { pose proof (copyName_spec comp (replicate k1 47) (replicate k2 47 ++ rest)
        (S (length filename)) []) as H. rewrite length_replicate, <- Ef in H. apply H; [lia| |done|lia].
      rewrite Ef in Hz. apply Forall_app in Hz as [_ Hz]. apply Forall_app in Hz as [Hz _].
      rewrite Forall_forall in *. auto. }
    assert (E3 : skipTail (S (length filename)) filename (k1 + length comp) = (k1 + length comp + k2)%nat).
    { pose proof (skipTail_spec k2 (replicate k1 47 ++ comp) rest
        (S (length filename))) as H. rewrite length_app, length_replicate, <- app_assoc, <- Ef in H. apply H; [lia|done|lia]. }
    rewrite E1, E2, E3. replace (_ <? 1024)%nat with true by (symmetry; apply Nat.ltb_lt; lia).
    do 2 f_equal. rewrite Ef, !app_assoc. apply drop_app_length'. rewrite !length_app, !length_replicate. lia.
  - intros Hne. destruct k1 as [|k1]; [|lia]. destruct comp as [|c comp]; [|simpl in Hlen; lia].
    destruct k2 as [|k2]; [|lia]. simpl in Ef. destruct Ht1 as [Ht1|Ht1].
    + simpl in Ht1. by rewrite Ht1 in Ef.
    + by destruct Hr.
Qed.

(** "//ab/c" *)
Lemma split_path_witness :
  exists k1 comp k2 rest, [47; 47; 97; 98; 47; 99] = replicate k1 47 ++ comp ++ replicate k2 47 ++ rest /\
    pfsSplitPath [47; 47; 97; 98; 47; 99] = (Some rest, take 255 comp).
Proof.
  destruct (split_path [47; 47; 97; 98; 47; 99]) as (k1 & comp & k2 & rest & H1 & _ & _ & H2 & _).
  - repeat constructor; lia.
  - simpl. lia.
  - exists k1, comp, k2, rest. split; [exact H1 | exact H2].
Defined.
