(* ===== verification/Pfs.v ===== *)
(** * Pfs: the state and the start of the pfs module

    iop/hdd/pfs/src/pfs.c and pfs.h: the mount table, the file slots and the
    start of the module.  The library of the file system (PfsState to
    PfsSuper) is one component of the state; the module opens and closes the
    block device through iomanX, which is a second interface
    ([BlockFiles]) beside the call table of the device. *)

From stdpp Require Import base numbers list gmap.
From Stdlib Require Import ZArith Lia.
From S2P Require Import Prelude ApaState PfsState PfsCache.

Open Scope Z_scope.
Open Scope c_scope.

(** [open] and [close] of iomanX on a partition of the block device. *)
Class BlockFiles (D : Type) := {
  bf_open : list Z -> Z -> M D Z;
  bf_close : Z -> M D Z
}.

Definition EBADF : Z := 9.
Definition EISDIR : Z := 21.
Definition ENOTEMPTY : Z := 90.
Definition O_RDONLY : Z := 1.
Definition O_RDWR : Z := 3.
Definition O_DIROPEN : Z := 0x0008.
Definition O_APPEND : Z := 0x0100.
Definition O_CREAT : Z := 0x0200.
Definition O_TRUNC : Z := 0x0400.
Definition O_EXCL : Z := 0x0800.
Definition PFS_FDIRO : Z := 0x0008.
Definition FIO_S_IFREG : Z := 0x2000.
Definition SEEK_SET : Z := 0.
Definition SEEK_CUR : Z := 1.
Definition SEEK_END : Z := 2.
Definition PFS_FIO_ATTR_CLOSED : Z := 0x0080.
Definition PFS_FSCK_STAT_ERRORS_FIXED : Z := 2.
Definition PFS_MODE_CHECK_FLAG : Z := 2.
Definition PFS_MOUNT_BUSY : Z := 0x8000.

(** ** Data *)

Record pfs_unaligned_io_t := mkUn {
  u_dirty : Z;            (* u16 *)
  u_sub : Z;              (* u16 *)
  u_sector : Z;           (* u32 *)
  u_buffer : list Z       (* u8 buffer[512] *)
}.

(** A file slot; [block_pos] is the pointer [ps_inode] and three numbers. *)
Record pfs_file_slot_t := mkPslot {
  ps_fd : option nat;     (* iop_file_t *fd *)
  ps_clink : option nat;
  ps_aentryOffset : Z;
  ps_position : Z;        (* u64 *)
  ps_inode : option nat;
  ps_segment : Z;
  ps_offset : Z;
  ps_byte : Z;
  ps_un : pfs_unaligned_io_t
}.

Definition zero_un : pfs_unaligned_io_t := mkUn 0 0 0 (replicate 512 0).
Definition zero_pslot : pfs_file_slot_t := mkPslot None None 0 0 None 0 0 0 zero_un.

Definition set_fd (f : option nat) (s : pfs_file_slot_t) : pfs_file_slot_t :=
  mkPslot f (ps_clink s) (ps_aentryOffset s) (ps_position s) (ps_inode s) (ps_segment s) (ps_offset s)
    (ps_byte s) (ps_un s).
Definition set_clink (c : option nat) (s : pfs_file_slot_t) : pfs_file_slot_t :=
  mkPslot (ps_fd s) c (ps_aentryOffset s) (ps_position s) (ps_inode s) (ps_segment s) (ps_offset s)
    (ps_byte s) (ps_un s).
Definition set_aentryOffset (v : Z) (s : pfs_file_slot_t) : pfs_file_slot_t :=
  mkPslot (ps_fd s) (ps_clink s) v (ps_position s) (ps_inode s) (ps_segment s) (ps_offset s)
    (ps_byte s) (ps_un s).
Definition set_position (v : Z) (s : pfs_file_slot_t) : pfs_file_slot_t :=
  mkPslot (ps_fd s) (ps_clink s) (ps_aentryOffset s) (u64 v) (ps_inode s) (ps_segment s) (ps_offset s)
    (ps_byte s) (ps_un s).
(** [block_pos], with its inode perhaps NULL. *)
Definition set_bpos (q : option nat) (bp : pfs_blockpos_t) (s : pfs_file_slot_t) : pfs_file_slot_t :=
  mkPslot (ps_fd s) (ps_clink s) (ps_aentryOffset s) (ps_position s) q (bp_segment bp) (bp_offset bp)
    (bp_byte bp) (ps_un s).
Definition set_un (u : pfs_unaligned_io_t) (s : pfs_file_slot_t) : pfs_file_slot_t :=
  mkPslot (ps_fd s) (ps_clink s) (ps_aentryOffset s) (ps_position s) (ps_inode s) (ps_segment s) (ps_offset s)
    (ps_byte s) u.

(** The module: library, slots, semaphore, limits, and the files of iomanX. *)
Record pfs_world (D : Type) := mkPw {
  lib : pfs_st D;
  pfsFileSlots : list pfs_file_slot_t;
  pfsFioSema : option Z;        (* None: not created *)
  maxMount : Z;                 (* pfsConfig, u32 *)
  maxOpen : Z;
  pfiles : list iop_file_t
}.
Arguments mkPw {D}. Arguments lib {D}. Arguments pfsFileSlots {D}. Arguments pfsFioSema {D}.
Arguments maxMount {D}. Arguments maxOpen {D}. Arguments pfiles {D}.

Section World.
Context {D : Type}.
Notation MW := (M (pfs_world D)).

Definition with_lib (l : pfs_st D) (w : pfs_world D) : pfs_world D :=
  mkPw l (pfsFileSlots w) (pfsFioSema w) (maxMount w) (maxOpen w) (pfiles w).
Definition with_pslots (s : list pfs_file_slot_t) (w : pfs_world D) : pfs_world D :=
  mkPw (lib w) s (pfsFioSema w) (maxMount w) (maxOpen w) (pfiles w).
Definition with_psema (v : option Z) (w : pfs_world D) : pfs_world D :=
  mkPw (lib w) (pfsFileSlots w) v (maxMount w) (maxOpen w) (pfiles w).
Definition with_limits (m o : Z) (w : pfs_world D) : pfs_world D :=
  mkPw (lib w) (pfsFileSlots w) (pfsFioSema w) (u32 m) (u32 o) (pfiles w).
Definition with_pfiles (f : list iop_file_t) (w : pfs_world D) : pfs_world D :=
  mkPw (lib w) (pfsFileSlots w) (pfsFioSema w) (maxMount w) (maxOpen w) f.

(** A call of the library. *)
Definition pfs_op {A} (m : M (pfs_st D) A) : MW A := fun w =>
  match m (lib w) with
  | Done a l => Done a (with_lib l w)
  | Undef => Undef
  | NoFuel => NoFuel
  end.

Definition pslot (i : nat) : MW pfs_file_slot_t := fun w =>
  match pfsFileSlots w !! i with Some s => Done s w | None => Undef end.
Definition pslotmod (i : nat) (f : pfs_file_slot_t -> pfs_file_slot_t) : MW unit := fun w =>
  match pfsFileSlots w !! i with
  | Some s => Done tt (with_pslots (<[i := f s]> (pfsFileSlots w)) w)
  | None => Undef
  end.
Definition pfile (f : nat) : MW iop_file_t := fun w =>
  match pfiles w !! f with Some x => Done x w | None => Undef end.
Definition pfilemod (f : nat) (g : iop_file_t -> iop_file_t) : MW unit := fun w =>
  match pfiles w !! f with
  | Some x => Done tt (with_pfiles (<[f := g x]> (pfiles w)) w)
  | None => Undef
  end.

(** [clink] of a slot and its [block_pos], dereferenced. *)
Definition slot_clink (s : pfs_file_slot_t) : MW nat :=
  match ps_clink s with Some c => ret c | None => undef end.
Definition slot_pos (s : pfs_file_slot_t) : MW pfs_blockpos_t :=
  match ps_inode s with Some q => ret (mkBp q (ps_segment s) (ps_offset s) (ps_byte s)) | None => undef end.

(** Waiting for a semaphore that is taken never returns. *)
Definition WaitSema : MW unit := fun w =>
  match pfsFioSema w with
  | None => Done tt w
  | Some n => if 0 <? n then Done tt (with_psema (Some (n - 1)) w) else NoFuel
  end.
Definition SignalSema : MW unit :=
  modify (fun w => with_psema (match pfsFioSema w with
                               | None => None
                               | Some n => Some (Z.min 1 (n + 1))
                               end) w).

(** ** pfs.c *)

Definition zero_mount : pfs_mount_t :=
  mkMount 0 0 0 0 0 0 0 0 (mkBi 0 0 0) (mkBi 0 0 0) (mkBi 0 0 0) 0 0 0 (replicate 65 0).

(** [sizeof(pfs_mount_t)] and [sizeof(pfs_file_slot_t)] *)
Definition sizeof_mount : Z := 328.
Definition sizeof_slot : Z := 560.

Definition allocateMountBuffer (size : Z) : MW Z :=
  let tsize := s32 (size * sizeof_mount) in
  mem <- pfs_op pfsAllocMem ;;
  match mem with
  | None => ret (- ENOMEM)
  | Some _ =>
      pfs_op (modify (with_mounts (replicate (Z.to_nat (tsize / sizeof_mount)) zero_mount))) ;;;
      ret 0
  end.

Definition pfsClearMount (m : nat) : M (pfs_st D) unit := mmod m (fun _ => zero_mount).

(** [unit] is compared as an unsigned number. *)
Definition pfsGetMountedUnit (unit : Z) : MW (option nat) :=
  w <- get ;;
  if maxMount w <=? u32 unit then ret None
  else
    x <- pfs_op (mget (Z.to_nat unit)) ;;
    if Z.land (m_flags x) PFS_MOUNT_BUSY =? 0 then ret None else ret (Some (Z.to_nat unit)).

Definition pfsFioInit : MW Z :=
  modify (with_psema (Some 1)) ;;; ret 0.

Definition opt_m : list Z := [45; 109].
Definition opt_o : list Z := [45; 111].
Definition opt_n : list Z := [45; 110].

(** The option loop.  [inl]: the number of buffers; [inr]: the early return. *)
Fixpoint pfsArgs (fuel : nat) (argv : list (list Z)) (numBuf : Z) : MW (Z + Z) :=
  match fuel, argv with
  | S n, a :: rest =>
      if negb (nth 0 a 0 =? 45) then ret (inl numBuf)
      else if bool_decide (a = opt_m) then
        match rest with
        | [] => ret (inr 1)
        | v :: rest' =>
            let number := strtol10 v in
            when (number <=? 32) (modify (fun w => with_limits number (maxOpen w) w)) ;;;
            pfsArgs n rest' numBuf
        end
      else if bool_decide (a = opt_o) then
        match rest with
        | [] => ret (inr 1)
        | v :: rest' =>
            let number := strtol10 v in
            when (number <=? 32) (modify (fun w => with_limits (maxMount w) number w)) ;;;
            pfsArgs n rest' numBuf
        end
      else if bool_decide (a = opt_n) then
        match rest with
        | [] => ret (inr 1)
        | v :: rest' =>
            let number := strtol10 v in
            let numBuf := if numBuf <? number then number else numBuf in
            if 127 <? numBuf then ret (inr (- EINVAL)) else pfsArgs n rest' numBuf
        end
      else ret (inr 1)
  | _, _ => ret (inl numBuf)
  end.

Definition MODULE_RESIDENT_END : Z := 0.
Definition MODULE_NO_RESIDENT_END : Z := 1.

(** [AddDrv] calls the device's [init], [pfsFioInit], when it has room for
    the device ([room]). *)
Definition _start `{BlockDevice D} (room : bool) (argv : list (list Z)) : MW Z :=
  args <- pfsArgs (S (length argv)) (drop 1 argv) 8 ;;
  match args with
  | inr v => ret v
  | inl numBuf =>
      w <- get ;;
      r <- allocateMountBuffer (s32 (maxMount w)) ;;
      if r <? 0 then ret MODULE_NO_RESIDENT_END
      else
        let size := s32 (maxOpen w * sizeof_slot) in
        mem <- pfs_op pfsAllocMem ;;
        match mem with
        | None => ret MODULE_NO_RESIDENT_END
        | Some _ =>
            modify (with_pslots (replicate (Z.to_nat (size / sizeof_slot)) zero_pslot)) ;;;
            r <- pfs_op (pfsCacheInit numBuf pfsMetaSize) ;;
            if r <? 0 then ret MODULE_NO_RESIDENT_END
            else
              when room (pfsFioInit ;;; ret tt) ;;;
              ret MODULE_RESIDENT_END
        end
  end.
End World.
