(* ===== verification/PfsFio.v ===== *)
(** * PfsFio: the file operations of the pfs module

    iop/hdd/pfs/src/pfs_fio.c, the routines behind the entries of the table
    [pfsOps]: mounting a device, opening a file, moving its bytes, closing its
    slot.  [fuel] bounds the loops of the library and of the transfer; a
    user buffer is an address (only its alignment matters) and its bytes. *)

From stdpp Require Import base numbers list gmap.
From Stdlib Require Import ZArith Lia.
From S2P Require Import Prelude ApaState PfsState PfsCache PfsBitmap PfsInode PfsDir PfsSuper PfsHdd Pfs.

Open Scope Z_scope.
Open Scope c_scope.

(** ** Fields of an inode used here *)

Definition i_attr (b : buf) : Z := get16 b 238 1.
Definition i_uid (b : buf) : Z := get16 b 239 0.
Definition i_gid (b : buf) : Z := get16 b 239 1.
Definition i_atime (b : buf) : buf := words_at b 240 2.
Definition i_ctime (b : buf) : buf := words_at b 242 2.
Definition i_mtime (b : buf) : buf := words_at b 244 2.

Definition is_dir (b : buf) : bool := Z.land (i_mode b) FIO_S_IFMT =? FIO_S_IFDIR.
Definition is_lnk (b : buf) : bool := Z.land (i_mode b) FIO_S_IFMT =? FIO_S_IFLNK.

Definition un_set_dirty (v : Z) (u : pfs_unaligned_io_t) : pfs_unaligned_io_t :=
  mkUn v (u_sub u) (u_sector u) (u_buffer u).
Definition un_set_place (sub sector : Z) (u : pfs_unaligned_io_t) : pfs_unaligned_io_t :=
  mkUn (u_dirty u) sub sector (u_buffer u).
Definition un_set_buffer (b : list Z) (u : pfs_unaligned_io_t) : pfs_unaligned_io_t :=
  mkUn (u_dirty u) (u_sub u) (u_sector u) b.

(** [memcpy(&buffer[o], bs, n)] *)
Definition overwrite (o : nat) (bs l : list Z) : list Z := take o l ++ bs ++ drop (o + length bs) l.

Record iox_stat_t := mkIox {
  x_mode : Z; x_attr : Z; x_size : Z; x_ctime : buf; x_atime : buf; x_mtime : buf; x_hisize : Z;
  x_private_0 : Z; x_private_1 : Z; x_private_2 : Z; x_private_3 : Z; x_private_4 : Z; x_private_5 : Z
}.

Definition fioStatFiller (b : buf) : iox_stat_t :=
  mkIox (i_mode b) (i_attr b) (u32 (i_size b)) (i_ctime b) (i_atime b) (i_mtime b) (u32 (Z.shiftr (i_size b) 32))
    (i_uid b) (i_gid b) (i_number_blocks b) (i_number_data b) 0 0.

(** The second argument of [openFile]: a file slot, NULL, or (from
    [pfsFioSymlink]) the target of a link. *)
Inductive open_arg :=
  | ASlot (i : nat)
  | ANull
  | ALink (target : list Z).

Definition openFlagArray : list Z := [0; 4; 2; 6; 0; 0; 0; 0].

Section Fio.
Context {D : Type} `{BlockDevice D} `{BlockFiles D}.
Notation MW := (M (pfs_world D)).
Notation MP := (M (pfs_st D)).

(** ** Slots and mounts *)

Definition pfsFioCheckForLastError (m : nat) (rv : Z) : MW Z :=
  x <- pfs_op (mget m) ;;
  let err := s32 (m_lastError x) in
  ret (if nz err then err else rv).

Definition pfsFioCheckFileSlot (i : nat) : MW Z :=
  WaitSema ;;;
  s <- pslot i ;;
  match ps_clink s with
  | None => SignalSema ;;; ret (- EBADF)
  | Some _ => ret 0
  end.

(** [f->privdata] *)
Definition pprivdata (f : nat) : MW nat :=
  x <- pfile f ;; match f_privdata x with Some i => ret i | None => undef end.

(** A transfer of the slot's own sector buffer. *)
Definition un_transfer (i m : nat) (mode : Z) : MW Z :=
  s <- pslot i ;;
  x <- pfs_op (mget m) ;;
  let u := ps_un s in
  let* (r, b) := pfs_op (bdev (bd_transfer (m_fd x) (words_of_bytes (u_buffer u)) (u_sub u) (u_sector u) 1 mode)) in
  pslotmod i (fun s => set_un (un_set_buffer (bytes_of_words b) (ps_un s)) s) ;;;
  ret r.

(** [if(pfsMount->flags & PFS_FIO_ATTR_WRITEABLE) pfsCacheFlushAllDirty(pfsMount)] *)
Definition flush_if_writeable (m : nat) : MP unit :=
  x <- mget m ;;
  when (nz (Z.land (m_flags x) PFS_FIO_ATTR_WRITEABLE)) (pfsCacheFlushAllDirty m).

Definition pfsFioCloseFileSlot (i : nat) : MW unit :=
  s <- pslot i ;;
  clink <- slot_clink s ;;
  m <- pfs_op (pmount clink) ;;
  match ps_fd s with
  | None => undef
  | Some f =>
      x <- pfile f ;;
      when (nz (Z.land (f_mode x) O_WRONLY))
        (when (nz (u_dirty (ps_un s))) (un_transfer i m PFS_IO_MODE_WRITE ;;; ret tt) ;;;
         pfs_op (pfsInodeSetTime clink) ;;;
         pfs_op (dmod clink (fun b => set_i_attr (Z.lor (i_attr b) PFS_FIO_ATTR_CLOSED) b)) ;;;
         pfs_op (flush_if_writeable m)) ;;;
      pfs_op (pfsCacheFree (ps_inode s)) ;;;
      pfs_op (pfsCacheFree (Some clink)) ;;;
      pslotmod i (fun _ => zero_pslot)
  end.

Definition pfsFioGetMountedUnit (unit : Z) : MW (option nat) :=
  WaitSema ;;;
  m <- pfsGetMountedUnit unit ;;
  match m with
  | None => SignalSema ;;; ret None
  | Some m => ret (Some m)
  end.

(** The body of an operation on the mount of file [f], and the lock around it. *)
Definition with_mount (f : nat) (body : nat -> MW Z) : MW Z :=
  x <- pfile f ;;
  m <- pfsFioGetMountedUnit (f_unit x) ;;
  match m with
  | None => ret (- ENODEV)
  | Some m => rv <- body m ;; SignalSema ;;; ret rv
  end.

Definition m_set_mounted (fd flags : Z) (x : pfs_mount_t) : pfs_mount_t :=
  mkMount fd (u32 flags) (m_total_sector x) (m_zfree x) (m_sector_scale x) (m_inode_scale x) (m_zsize x)
    (m_num_subs x) (m_root_dir x) (m_log x) (m_current_dir x) (m_lastError x) (m_uid x) (m_gid x) (m_free_zone x).
Definition busy (x : pfs_mount_t) : bool := nz (Z.land (m_flags x) PFS_MOUNT_BUSY).

(** Is the partition open as [fd] mounted?  There is one block device. *)
Definition mountedAs (fd : Z) : MW bool :=
  w <- get ;;
  r <- for_break (range 0 (Z.to_nat (maxMount w)))
         (fun i (_ : unit) =>
            x <- pfs_op (mget (Z.to_nat i)) ;;
            if busy x && (fd =? m_fd x) then ret (inr true) else ret (inl tt)) tt ;;
  match r with inr b => ret b | inl _ => ret false end.

Definition mountDevice (fd unit flag : Z) : MW Z :=
  w <- get ;;
  if maxMount w <=? u32 unit then ret (- EMFILE)
  else
    let m := Z.to_nat unit in
    x <- pfs_op (mget m) ;;
    if busy x then ret (- EBUSY)
    else
      twice <- mountedAs fd ;;
      if twice : bool then ret (- EBUSY)
      else
        pfs_op (mmod m (m_set_mounted fd flag)) ;;;
        rv <- pfs_op (pfsMountSuperBlock m) ;;
        if rv <? 0 then ret rv
        else
          pfs_op (mmod m (fun x => m_set_mounted (m_fd x) (Z.lor (m_flags x) PFS_MOUNT_BUSY) x)) ;;;
          ret 0.

(** ** openFile *)

(** The attribute block after the inode, to be filled. *)
Definition attrBlock (fi : nat) : MP (option nat * Z) :=
  c <- pget fi ;;
  m <- pmount fi ;;
  pfsCacheGetData m (u16 (pc_sub c)) (u32 (pc_sector c + 1)) (Z.lor PFS_CACHE_FLAG_NOLOAD PFS_CACHE_FLAG_NOTHING).

(** An empty attribute block: one free entry of 1024 bytes. *)
Definition clearAttrs (cached : option nat) : MP unit :=
  match cached with
  | None => ret tt
  | Some q => dmod q (fun _ => set16 0 1 1024 (zeros 256)) ;;; pdirty q ;;; pfsCacheFree (Some q)
  end.

(** Following symbolic links.  Result: the code, the directory and file held
    (a file that was already released when the directory of the target is not
    found), and whether to go on. *)
Definition linkStep (fuel : nat) (m : nat)
  : Z * nat * nat * Z -> MP ((Z * nat * nat * Z) + (Z * option nat * option nat * bool)) :=
  fun '(count, parent, fi, result) =>
  b <- pdata fi ;;
  if is_lnk b then
    if 4 <=? count then ret (inr (- ELOOP, Some parent, Some fi, false))
    else
      let* (p, file, result) := pfsInodeGetParent fuel m (Some parent) (linkTarget b) in
      pfsCacheFree (Some fi) ;;;
      match p with
      | None => ret (inr (result, None, Some fi, false))
      | Some p =>
          let* (q, result) := pfsInodeGetFileInDir fuel p file in
          match q with
          | None => ret (inr (result, Some p, None, false))
          | Some q => ret (inl (count + 1, p, q, result))
          end
      end
  else ret (inr (result, Some parent, Some fi, true)).

(** [O_TRUNC] of an existing file. *)
Definition truncateFile (fi : nat) : MP unit :=
  let* (cached, result2) := attrBlock fi in
  clearAttrs cached ;;;
  when (result2 =? 0)
    (dmod fi (set_i_size 0) ;;;
     dmod fi (fun b => set_i_attr (Z.ldiff (i_attr b) PFS_FIO_ATTR_CLOSED) b) ;;;
     pdirty fi ;;;
     pfsFreeZones fi).

(** The file exists. *)
Definition openExisting (fuel m parent fi : nat) (openFlags mode result : Z) : MP (Z * option nat * option nat) :=
  let flags := nth (Z.to_nat (Z.land openFlags O_RDWR)) openFlagArray 0 in
  let flags := if nz (Z.land openFlags O_TRUNC) then Z.lor flags 2 else flags in
  let flags := if nz (Z.land openFlags PFS_FDIRO) then Z.lor flags 4 else flags in
  if nz (Z.land mode 0x10000) || (Z.land openFlags (Z.lor O_CREAT O_EXCL) =? Z.lor O_CREAT O_EXCL)
  then ret (- EEXIST, Some parent, Some fi)
  else
    let* (result, parent, fio, go) := while_ 6 (linkStep fuel m) (0, parent, fi, result) in
    match fio, go with
    | Some fi, true =>
        b <- pdata fi ;;
        let result := if Z.land openFlags PFS_FDIRO =? 0
                      then (if is_dir b then - EISDIR else result)
                      else (if is_dir b then result else - ENOTDIR) in
        if result =? 0 then
          result <- pfsCheckAccess fi (Z.land flags 0xFFFF) ;;
          when ((result =? 0) && nz (Z.land openFlags O_TRUNC)) (truncateFile fi) ;;;
          ret (result, parent, Some fi)
        else ret (result, parent, Some fi)
    | _, _ => ret (result, parent, fio)
    end.

(** A C string, with its NUL, at byte [o] of a buffer. *)
Definition put_str (o : nat) (s : list Z) (b : buf) : buf :=
  foldl (fun b kc => set8 (o + kc.1) kc.2 b) b (zip (seq 0 (S (length s))) (s ++ [0])).

(** The contents of a new file: "." and ".." for a directory, an empty
    attribute block otherwise. *)
Definition fillNew (fi parent : nat) (mode : Z) : MP Z :=
  if Z.land mode FIO_S_IFMT =? FIO_S_IFDIR then
    m <- pmount fi ;;
    x <- mget m ;;
    b <- pdata fi ;;
    let d := i_data b 1 in
    let* (cached, result3) := pfsCacheGetData m (bi_subpart d) (u32 (Z.shiftl (bi_number d) (m_inode_scale x)))
                                (Z.lor PFS_CACHE_FLAG_NOLOAD PFS_CACHE_FLAG_NOTHING) in
    match cached with
    | None => ret tt
    | Some q =>
        b <- pdata fi ;;
        bp <- pdata parent ;;
        pfsFillSelfAndParentDentries q (i_inode_block b) (i_inode_block bp) ;;;
        pdirty q ;;;
        pfsCacheFree (Some q)
    end ;;;
    ret result3
  else
    let* (cached, result4) := attrBlock fi in
    clearAttrs cached ;;;
    ret result4.

(** The file does not exist: result, the new inode, and the argument left. *)
Definition openNew (fuel m parent : nat) (arg : open_arg) (file : list Z) (openFlags mode result : Z)
  : MP (Z * option nat * open_arg) :=
  if negb (nz (Z.land openFlags O_CREAT) && (result =? - ENOENT)) then ret (result, None, arg)
  else
    result <- pfsCheckAccess parent 2 ;;
    if negb (result =? 0) then ret (result, None, arg)
    else
      x <- mget m ;;
      let* (fi, result) := pfsInodeCreate fuel parent (u16 mode) (m_uid x) (m_gid x) in
      match fi with
      | None => ret (result, None, arg)
      | Some fi =>
          arg <- (if Z.land mode FIO_S_IFMT =? FIO_S_IFLNK then
                    match arg with
                    | ALink target =>
                        if (976 <=? length target)%nat then undef
                        else dmod fi (put_str 48 target) ;;; ret ANull
                    | _ => undef
                    end
                  else ret arg) ;;
          result <- fillNew fi parent mode ;;
          if negb (result =? 0) then ret (result, Some fi, arg)
          else
            b <- pdata fi ;;
            let* (cached, result) := pfsDirAddEntry fuel parent file (i_inode_block b) (u16 mode) in
            match cached with
            | None => ret tt
            | Some q => pfsInodeSetTime parent ;;; pdirty q ;;; pfsCacheFree (Some q)
            end ;;;
            ret (result, Some fi, arg)
      end.

(** [freeSlot] takes the file; [None]: opened, [Some r]: the result so far. *)
Definition fillSlot (fuel m i fi : nat) (openFlags : Z) : MW (option Z) :=
  pslotmod i (set_clink (Some fi)) ;;;
  b <- pfs_op (pdata fi) ;;
  let position := if nz (Z.land openFlags O_APPEND) then i_size b else 0 in
  pslotmod i (set_position position) ;;;
  let* (result, q, bp) := pfs_op (pfsBlockInitPos fuel fi position) in
  pslotmod i (set_bpos q bp) ;;;
  r <- (if result =? 0 then
          b <- pfs_op (pdata fi) ;;
          when (nz (Z.land openFlags O_WRONLY) && nz (Z.land (i_attr b) PFS_FIO_ATTR_CLOSED))
            (pfs_op (dmod fi (fun b => set_i_attr (Z.ldiff (i_attr b) PFS_FIO_ATTR_CLOSED) b)) ;;;
             pfs_op (pdirty fi) ;;;
             pfs_op (flush_if_writeable m)) ;;;
          pfsFioCheckForLastError m result
        else ret result) ;;
  if r =? 0 then ret None
  else pslotmod i (set_clink None) ;;; ret (Some r).

Definition openFile (fuel m : nat) (arg : open_arg) (filename : list Z) (openFlags mode : Z) : MW Z :=
  let* (parent, file, result) := pfs_op (pfsInodeGetParent fuel m None filename) in
  match parent with
  | None => ret result
  | Some parent =>
      let* (fi, result) := pfs_op (pfsInodeGetFileInDir fuel parent file) in
      let* (result, parent, fi, arg) :=
        match fi with
        | Some fi => let* (r, p, f) := pfs_op (openExisting fuel m parent fi openFlags mode result) in ret (r, p, f, arg)
        | None => let* (r, f, a) := pfs_op (openNew fuel m parent arg file openFlags mode result) in ret (r, Some parent, f, a)
        end in
      pfs_op (pfsCacheFree parent) ;;;
      left <- match arg, fi with
              | ASlot i, Some fi => if result =? 0 then fillSlot fuel m i fi openFlags else ret (Some result)
              | ALink _, Some _ => if result =? 0 then undef else ret (Some result)
              | _, _ => ret (Some result)
              end ;;
      match left with
      | None => ret 0
      | Some result =>
          match fi with Some fi => pfs_op (pfsCacheFree (Some fi)) | None => ret tt end ;;;
          pfsFioCheckForLastError m result
      end
  end.

(** ** Transfers *)

(** The sector of a position in segment [bi]. *)
Definition sectorOf (x : pfs_mount_t) (bi : pfs_blockinfo_t) (bp : pfs_blockpos_t) : Z :=
  u32 (Z.shiftl (u32 (bi_number bi + bp_offset bp)) (m_sector_scale x) + Z.shiftr (bp_byte bp) 9).

(** Slot [i] holds sector [sector] of [sub] on mount [m]. *)
Definition holds (m : nat) (sub sector : Z) (s : pfs_file_slot_t) : MW bool :=
  match ps_clink s with
  | None => ret false
  | Some c =>
      pc <- pfs_op (pget c) ;;
      ret (bool_decide (pc_mount pc = Some m) && (u_sub (ps_un s) =? sub) && (u_sector (ps_un s) =? sector))
  end.

(** The slot, if any, whose buffer has newer bytes of the sector. *)
Definition dirtySlot (m : nat) (sub sector : Z) : MW (option nat) :=
  w <- get ;;
  r <- for_break (seq 0 (Z.to_nat (maxOpen w)))
         (fun i (_ : unit) =>
            s <- pslot i ;;
            h <- holds m sub sector s ;;
            if h && nz (u_dirty (ps_un s)) then ret (inr i) else ret (inl tt)) tt ;;
  match r with inr i => ret (Some i) | inl _ => ret None end.

(** The other readers of the slot's sector get its buffer. *)
Definition syncReaders (i : nat) (m : nat) : MW unit :=
  w <- get ;;
  for_ (seq 0 (Z.to_nat (maxOpen w)))
    (fun j (_ : unit) =>
       s <- pslot j ;;
       own <- pslot i ;;
       h <- holds m (u_sub (ps_un own)) (u_sector (ps_un own)) s ;;
       when (h && (u_dirty (ps_un s) =? 0))
         (pslotmod j (fun s => set_un (un_set_buffer (u_buffer (ps_un own)) (ps_un s)) s))) tt.

(** Loading the sector into the slot's buffer; [Some r] is an early return. *)
Definition loadSector (i m : nat) (sub sector pos : Z) : MW (option Z) :=
  s <- pslot i ;;
  let u := ps_un s in
  if (u_sector u =? sector) && (u_sub u =? sub) then ret None
  else
    r <- (if nz (u_dirty u) then
            r <- un_transfer i m PFS_IO_MODE_WRITE ;;
            if nz r then ret r
            else pslotmod i (fun s => set_un (un_set_dirty 0 (ps_un s)) s) ;;; ret 0
          else ret 0) ;;
    if nz r then ret (Some r)
    else
      pslotmod i (fun s => set_un (un_set_place sub sector (ps_un s)) s) ;;;
      clink <- slot_clink s ;;
      b <- pfs_op (pdata clink) ;;
      if nz pos || negb (ps_position s =? i_size b) then
        r <- un_transfer i m PFS_IO_MODE_READ ;;
        if nz r then ret (Some (Z.lor r 0x10000)) else ret None
      else ret None.

(** Part of a sector, through the slot's buffer: the result (a size or an
    error) and the user's bytes. *)
Definition fileTransferRemainder (i : nat) (data : list Z) (size operation : Z) : MW (Z * list Z) :=
  s <- pslot i ;;
  clink <- slot_clink s ;;
  m <- pfs_op (pmount clink) ;;
  x <- pfs_op (mget m) ;;
  bp <- slot_pos s ;;
  bi <- pfs_op (pfsBlockGetCurrent bp) ;;
  let sector := sectorOf x bi bp in
  let pos := Z.land (bp_byte bp) 0x1FF in
  newer <- (if operation =? 0 then
              d <- dirtySlot m (bi_subpart bi) sector ;;
              match d with
              | Some j =>
                  if (j =? i)%nat then ret false
                  else
                    s' <- pslot j ;;
                    pslotmod i (fun s => set_un (un_set_buffer (u_buffer (ps_un s')) (ps_un s)) s) ;;;
                    ret true
              | None => ret false
              end
            else ret false) ;;
  r <- (if newer : bool then ret None else loadSector i m (bi_subpart bi) sector pos) ;;
  match r with
  | Some r => ret (r, data)
  | None =>
      let size := Z.min size (512 - pos) in
      if (size <? 0) || (Z.of_nat (length data) <? size) then undef
      else if operation =? 0 then
        s <- pslot i ;;
        ret (size, overwrite 0 (take (Z.to_nat size) (drop (Z.to_nat pos) (u_buffer (ps_un s)))) data)
      else
        pslotmod i (fun s => set_un (un_set_buffer (overwrite (Z.to_nat pos) (take (Z.to_nat size) data)
                                                     (u_buffer (ps_un s))) (ps_un s)) s) ;;;
        if operation =? 1 then
          if nz (Z.land (m_flags x) PFS_FIO_ATTR_WRITEABLE) then
            r <- un_transfer i m operation ;;
            if nz r then ret (r, data)
            else syncReaders i m ;;; ret (size, data)
          else
            pslotmod i (fun s => set_un (un_set_dirty operation (ps_un s)) s) ;;;
            ret (size, data)
        else ret (size, data)
  end.

(** Bytes left in the current segment: 32-bit arithmetic. *)
Definition segmentLeft (x : pfs_mount_t) (bi : pfs_blockinfo_t) (bp : pfs_blockpos_t) : Z :=
  u32 (u32 (bi_count bi - bp_offset bp) * m_zsize x - bp_byte bp).

(** Moving on to the next segment; [Some r] ends the transfer with [r], and
    [true] says that it was a [break]. *)
Definition nextSegment (fuel : nat) (i clink : nat) (x : pfs_mount_t) (size operation : Z) : MW (option (Z * bool)) :=
  s <- pslot i ;;
  bp <- slot_pos s ;;
  b <- pfs_op (pdata clink) ;;
  if bp_segment bp =? u32 (i_number_data b - 1) then
    if operation =? 0 then ret (Some (0, false))
    else if m_zsize x =? 0 then undef
    else
      let* (result, bp) := pfs_op (pfsBlockAllocNewSegment fuel clink bp (u32 (size - 1 + m_zsize x) / m_zsize x)) in
      pslotmod i (set_bpos (Some (bp_inode bp)) bp) ;;;
      if result <? 0 then ret (Some (result, true)) else ret None
  else
    let* (result, bp) := pfs_op (pfsBlockSeekNextSegment clink bp) in
    pslotmod i (set_bpos (Some (bp_inode bp)) bp) ;;;
    if nz result then ret (Some (result, false)) else ret None.

(** Dirty bytes of the sector about to be transferred in part go to the disk
    first. *)
Definition flushPartial (i m : nat) (bi : pfs_blockinfo_t) (bp : pfs_blockpos_t) (x : pfs_mount_t) (size : Z) : MW Z :=
  s <- pslot i ;;
  let u := ps_un s in
  if nz (u_dirty u) && (u_sector u =? sectorOf x bi bp) && (u_sub u =? bi_subpart bi) && (size <? 512) then
    r <- un_transfer i m PFS_IO_MODE_WRITE ;;
    if nz r then ret r
    else pslotmod i (fun s => set_un (un_set_dirty 0 (ps_un s)) s) ;;; ret 0
  else ret 0.

(** Whole sectors, or part of one: the result and the user's bytes. *)
Definition transferPart (i m : nat) (bi : pfs_blockinfo_t) (bp : pfs_blockpos_t) (x : pfs_mount_t)
  (addr : Z) (data : list Z) (size left operation : Z) : MW (Z * list Z) :=
  if nz (Z.land (bp_byte bp) 0x1FF) || (size <? 512) || nz (Z.land addr 3) then
    fileTransferRemainder i data size operation
  else
    let sectors := if size / 512 <? left / 512 then size / 512 else left / 512 in
    let n := Z.to_nat (sectors * 512) in
    if (length data <? n)%nat then undef
    else
      let* (r, b) := pfs_op (bdev (bd_transfer (m_fd x) (words_of_bytes (take n data)) (bi_subpart bi)
                                    (sectorOf x bi bp) sectors operation)) in
      if r <? 0 then ret (Z.lor r 0x10000, overwrite 0 (bytes_of_words b) data)
      else ret (sectors * 512, overwrite 0 (bytes_of_words b) data).

(** One round of the loop of [fileTransfer].  State: bytes done, what is left
    of the user's buffer at [addr], and the size left. *)
Definition transferStep (fuel : nat) (i : nat) (total operation : Z)
  : Z * list Z * list Z * Z * Z -> MW ((Z * list Z * list Z * Z * Z) + (Z * list Z)) :=
  fun '(addr, done, data, size, result) =>
  let stop r := ret (inr ((if r <? 0 then r else total), done ++ data)) in
  if size =? 0 then stop result
  else
    s <- pslot i ;;
    clink <- slot_clink s ;;
    m <- pfs_op (pmount clink) ;;
    x <- pfs_op (mget m) ;;
    bp <- slot_pos s ;;
    bi <- pfs_op (pfsBlockGetCurrent bp) ;;
    moved <- (if segmentLeft x bi bp =? 0 then nextSegment fuel i clink x size operation else ret None) ;;
    match moved with
    | Some (r, true) => stop r
    | Some (r, false) => ret (inr (r, done ++ data))
    | None =>
        s <- pslot i ;;
        bp <- slot_pos s ;;
        bi <- pfs_op (pfsBlockGetCurrent bp) ;;
        let left := segmentLeft x bi bp in
        if left =? 0 then ret (inr (0, done ++ data))
        else
          r <- flushPartial i m bi bp x size ;;
          if nz r then ret (inr (r, done ++ data))
          else
            let* (result, data) := transferPart i m bi bp x addr data size left operation in
            if result <? 0 then ret (inr (result, done ++ data))
            else
              s <- pslot i ;;
              let position := u64 (ps_position s + result) in
              pslotmod i (set_position position) ;;;
              b <- pfs_op (pdata clink) ;;
              when (i_size b <? position)
                (pfs_op (dmod clink (set_i_size position)) ;;; pfs_op (pdirty clink)) ;;;
              let* (zones, bp) := pfs_op (pfsBlockSyncPos bp result) in
              pslotmod i (set_bpos (Some (bp_inode bp))
                            (mkBp (bp_inode bp) (bp_segment bp) (u32 (bp_offset bp + zones)) (bp_byte bp))) ;;;
              let n := Z.to_nat result in
              ret (inl (u32 (addr + result), done ++ take n data, drop n data, s32 (size - result), result))
    end.

(** More zones for the last segment when it cannot hold the data written. *)
Definition expandFor (i : nat) (size : Z) : MW unit :=
  s <- pslot i ;;
  clink <- slot_clink s ;;
  b <- pfs_op (pdata clink) ;;
  bp <- slot_pos s ;;
  when (u32 (i_number_data b - 1) =? bp_segment bp)
    (m <- pfs_op (pmount clink) ;;
     x <- pfs_op (mget m) ;;
     bi <- pfs_op (pfsBlockGetCurrent bp) ;;
     let left := segmentLeft x bi bp in
     when (left <? u32 size)
       (if m_zsize x =? 0 then undef
        else
          pfs_op (pfsBlockExpandSegment clink bp
            (u32 (Z.land (u64 (size - left + m_zsize x - 1)) (u32 (Z.lnot (m_zsize x - 1))) / m_zsize x))) ;;;
          ret tt)).

(** The result and the user's buffer. *)
Definition fileTransfer (fuel : nat) (i : nat) (addr : Z) (data : list Z) (size operation : Z) : MW (Z * list Z) :=
  when (operation =? 1) (expandFor i size) ;;;
  while_ fuel (transferStep fuel i size operation) (addr, [], data, size, 0).
End Fio.
