(* ===== verification/PfsOps.v ===== *)
(** * PfsOps: the entries of the device table of the pfs module

    The rest of iop/hdd/pfs/src/pfs_fio.c: open, close, read, write, seek, the
    directory operations, rename and links, status, mount, unmount and format. *)

From stdpp Require Import base numbers list gmap.
From Stdlib Require Import ZArith Lia.
From S2P Require Import Prelude ApaState PfsState PfsCache PfsBitmap PfsInode PfsDir PfsSuper PfsHdd Pfs PfsFio.

Open Scope Z_scope.
Open Scope c_scope.

Definition FIO_CST_MODE : Z := 0x0001.
Definition FIO_CST_ATTR : Z := 0x0002.
Definition FIO_CST_SIZE : Z := 0x0004.
Definition FIO_CST_CT : Z := 0x0008.
Definition FIO_CST_AT : Z := 0x0010.
Definition FIO_CST_MT : Z := 0x0020.
Definition FIO_CST_PRVT : Z := 0x0040.
Definition PIOCALLOC : Z := 0x7001.
Definition PIOCFREE : Z := 0x7002.
Definition PIOCATTRADD : Z := 0x7003.
Definition PIOCATTRDEL : Z := 0x7004.
Definition PIOCATTRLOOKUP : Z := 0x7005.
Definition PIOCATTRREAD : Z := 0x7006.
Definition PDIOC_ZONESZ : Z := 0x5001.
Definition PDIOC_ZONEFREE : Z := 0x5002.
Definition PDIOC_CLOSEALL : Z := 0x5003.
Definition PDIOC_GETFSCKSTAT : Z := 0x5004.
Definition PDIOC_CLRFSCKSTAT : Z := 0x5005.
Definition PDIOC_SETUID : Z := 0x5032.
Definition PDIOC_SETGID : Z := 0x5033.
Definition PDIOC_SHOWBITMAP : Z := 0xFF.

(** 64-bit signed numbers. *)
Definition s64 (x : Z) : Z := (x + 2 ^ 63) mod 2 ^ 64 - 2 ^ 63.

Section Ops.
Context {D : Type} `{BlockDevice D} `{BlockFiles D}.
Notation MW := (M (pfs_world D)).
Notation MP := (M (pfs_st D)).

(** [return pfsFioCheckForLastError(pfsMount, rv)] after the lock is released. *)
Definition with_mount_err (f : nat) (body : nat -> MW Z) : MW Z :=
  x <- pfile f ;;
  m <- pfsFioGetMountedUnit (f_unit x) ;;
  match m with
  | None => ret (- ENODEV)
  | Some m => rv <- body m ;; SignalSema ;;; pfsFioCheckForLastError m rv
  end.

(** The slot of file [f], with the lock taken; [inl] is the error. *)
Definition with_slot (f : nat) (body : nat -> MW Z) : MW Z :=
  i <- pprivdata f ;;
  rv <- pfsFioCheckFileSlot i ;;
  if nz rv then ret rv
  else rv <- body i ;; SignalSema ;;; ret rv.

(** [pfsGetBlockDeviceTable]: is it the block device? *)
Definition isBlockDevice (name : list Z) : MW bool := fun w =>
  match pfsGetBlockDeviceTable name tt with
  | Done b _ => Done b w
  | Undef => Undef
  | NoFuel => NoFuel
  end.

Definition bfile {A} (m : M D A) : MW A := pfs_op (bdev m).

(** ** Open and close *)

Definition freeSlot : MW (option nat) :=
  w <- get ;;
  r <- for_break (seq 0 (Z.to_nat (maxOpen w)))
         (fun i (_ : unit) =>
            s <- pslot i ;;
            match ps_fd s with None => ret (inr i) | Some _ => ret (inl tt) end) tt ;;
  match r with inr i => ret (Some i) | inl _ => ret None end.

Definition pfsFioOpen (fuel f : nat) (name : option (list Z)) (flags mode : Z) : MW Z :=
  match name with
  | None => ret (- ENOENT)
  | Some name =>
      with_mount f (fun m =>
        i <- freeSlot ;;
        match i with
        | None => ret (- EMFILE)
        | Some i =>
            x <- pfile f ;;
            rv <- openFile fuel m (ASlot i) name (f_mode x) (Z.lor (Z.land mode 0xFFF) FIO_S_IFREG) ;;
            if nz rv then ret rv
            else
              pslotmod i (set_fd (Some f)) ;;;
              pfilemod f (fun x => mkFile (f_mode x) (f_unit x) (Some i)) ;;;
              ret 0
        end)
  end.

Definition pfsFioClose (f : nat) : MW Z :=
  with_slot f (fun i => pfsFioCloseFileSlot i ;;; ret 0).

Definition pfsFioDopen (fuel f : nat) (name : option (list Z)) : MW Z := pfsFioOpen fuel f name 0 0.

(** ** Read, write and seek *)

(** The result, and the user's bytes. *)
Definition pfsFioRead (fuel f : nat) (addr : Z) (data : list Z) (size : Z) : MW (Z * list Z) :=
  i <- pprivdata f ;;
  rv <- pfsFioCheckFileSlot i ;;
  if nz rv then ret (rv, data)
  else
    s <- pslot i ;;
    clink <- slot_clink s ;;
    b <- pfs_op (pdata clink) ;;
    let size := if i_size b <? u64 (ps_position s + size) then s32 (i_size b - ps_position s) else size in
    let* (result, data) := (if nz size then fileTransfer fuel i addr data size 0 else ret (0, data)) in
    s <- pslot i ;;
    clink <- slot_clink s ;;
    m <- pfs_op (pmount clink) ;;
    result <- pfsFioCheckForLastError m result ;;
    SignalSema ;;;
    ret (result, data).

Definition pfsFioWrite (fuel f : nat) (addr : Z) (data : list Z) (size : Z) : MW Z :=
  with_slot f (fun i =>
    s <- pslot i ;;
    clink <- slot_clink s ;;
    m <- pfs_op (pmount clink) ;;
    result <- (if u64 (ps_position s + u32 size) <? ps_position s then ret (- EINVAL)
               else let* (r, _) := fileTransfer fuel i addr data size 1 in ret r) ;;
    pfs_op (flush_if_writeable m) ;;;
    pfsFioCheckForLastError m result).

Definition _seek (fuel i : nat) (offset whence mode : Z) : MW Z :=
  if nz (Z.land mode O_DIROPEN) then ret (- EISDIR)
  else
    s <- pslot i ;;
    clink <- slot_clink s ;;
    b <- pfs_op (pdata clink) ;;
    let start := if whence =? SEEK_SET then Some 0
                 else if whence =? SEEK_CUR then Some (s64 (ps_position s))
                 else if whence =? SEEK_END then Some (s64 (i_size b)) else None in
    match start with
    | None => ret (- EINVAL)
    | Some startPos =>
        let newPos := s64 (startPos + offset) in
        if ((offset <? 0) && (startPos <? newPos)) || ((0 <? offset) && (newPos <? startPos))
           || (i_size b <? u64 newPos)
        then ret (- EINVAL)
        else
          pfs_op (pfsCacheFree (ps_inode s)) ;;;
          let* (rv, q, bp) := pfs_op (pfsBlockInitPos fuel clink (u64 newPos)) in
          pslotmod i (set_bpos q bp) ;;;
          if rv =? 0 then pslotmod i (set_position newPos) ;;; ret newPos
          else
            pslotmod i (set_position 0) ;;;
            let* (_, q, bp) := pfs_op (pfsBlockInitPos fuel clink 0) in
            pslotmod i (set_bpos q bp) ;;;
            ret rv
    end.

Definition pfsFioLseek (fuel f : nat) (pos whence : Z) : MW Z :=
  x <- pfile f ;;
  with_slot f (fun i => r <- _seek fuel i pos whence (f_mode x) ;; ret (s32 r)).

Definition pfsFioLseek64 (fuel f : nat) (offset whence : Z) : MW Z :=
  x <- pfile f ;;
  with_slot f (fun i => _seek fuel i offset whence (f_mode x)).

(** ** Removing *)

(** Is the inode the directory [d]?  The code compares 16 bits of the number. *)
Definition sameDir (b : buf) (d : pfs_blockinfo_t) : bool :=
  (u16 (bi_number (i_inode_block b)) =? bi_number d) && (u16 (bi_subpart (i_inode_block b)) =? bi_subpart d).

Definition mayRemove (fuel m fi : nat) (mode rv : Z) : MP Z :=
  b <- pdata fi ;;
  x <- mget m ;;
  if nz mode then
    if negb (is_dir b) then ret (- ENOTDIR)
    else
      empty <- pfsCheckDirForFiles fuel fi ;;
      if empty =? 0 then ret (- ENOTEMPTY)
      else
        b <- pdata fi ;;
        if sameDir b (m_root_dir x) then ret (- EBUSY)
        else if sameDir b (m_current_dir x) then ret (- EBUSY)
        else ret rv
  else if is_dir b then ret (- EISDIR) else ret rv.

Definition _remove (fuel m : nat) (path : list Z) (mode : Z) : MW Z :=
  let* (parent, szPath, rv) := pfs_op (pfsInodeGetParent fuel m None path) in
  match parent with
  | None => ret rv
  | Some parent =>
      let* (file, rv) := pfs_op (pfsInodeGetFileInDir fuel parent szPath) in
      r <- match file with
           | None => ret (inl rv)
           | Some fi =>
               rv <- pfs_op (mayRemove fuel m fi mode rv) ;;
               rv <- (if rv =? 0 then
                        b <- pfs_op (pdata fi) ;;
                        rv <- (if nz (i_uid b) then pfs_op (pfsCheckAccess fi 2) else ret rv) ;;
                        c <- pfs_op (pget fi) ;;
                        let rv := if 2 <=? pc_nused c then - EBUSY else rv in
                        if rv =? 0 then r <- pfs_op (pfsInodeRemove fuel parent fi szPath) ;; ret (inr r)
                        else ret (inl rv)
                      else ret (inl rv)) ;;
               match rv with
               | inr r => ret (inr r)
               | inl rv => pfs_op (pfsCacheFree (Some fi)) ;;; ret (inl rv)
               end
           end ;;
      match r with
      | inr r => ret r
      | inl rv => pfs_op (pfsCacheFree (Some parent)) ;;; pfsFioCheckForLastError m rv
      end
  end.

Definition pfsFioRemove (fuel f : nat) (name : list Z) : MW Z :=
  with_mount f (fun m => _remove fuel m name 0).

Definition pfsFioMkdir (fuel f : nat) (path : list Z) (mode : Z) : MW Z :=
  let mode := Z.lor (Z.lor (Z.land mode 0xFFF) 0x10000) FIO_S_IFDIR in
  with_mount f (fun m => openFile fuel m ANull path (Z.lor O_CREAT O_WRONLY) mode).

(** The test for a final '.' looks at the NUL after the path and never holds. *)
Definition pfsFioRmdir (fuel f : nat) (path : list Z) : MW Z :=
  if chr path (length path) =? 46 then ret (- EINVAL)
  else with_mount f (fun m => _remove fuel m path 1).

(** ** Directories and status *)

(** The result (length of the name, or an error), the name and the status. *)
Definition dreadEntry (fuel i : nat) : MW (Z * list Z * option iox_stat_t) :=
  s <- pslot i ;;
  clink <- slot_clink s ;;
  m <- pfs_op (pmount clink) ;;
  b <- pfs_op (pdata clink) ;;
  if negb (is_dir b) then ret (- ENOTDIR, [], None)
  else
    let pos := ps_position s mod 2 ^ 32 in
    (* the position is handed over as its low word *)
    if negb (pos <? i_size b) then ret (0, [], None)
    else
      bp <- slot_pos s ;;
      let* (q, bp, pos, name, bi) := pfs_op (pfsGetNextDentry fuel clink bp pos (mkBi 0 0 0)) in
      pslotmod i (set_bpos q bp) ;;;
      pslotmod i (fun s => set_position (ps_position s / 2 ^ 32 * 2 ^ 32 + pos) s) ;;;
      let rv := Z.of_nat (length name) in
      if 0 <? rv then
        let* (c, result) := pfs_op (pfsInodeGetData m (bi_subpart bi) (bi_number bi)) in
        st <- match c with
              | None => ret None
              | Some c =>
                  b <- pfs_op (pdata c) ;;
                  pfs_op (pfsCacheFree (Some c)) ;;;
                  ret (Some (fioStatFiller b))
              end ;;
        ret ((if nz result then result else rv), name, st)
      else ret (rv, name, None).

Definition pfsFioDread (fuel f : nat) : MW (Z * list Z * option iox_stat_t) :=
  i <- pprivdata f ;;
  rv <- pfsFioCheckFileSlot i ;;
  if rv <? 0 then ret (rv, [], None)
  else
    s <- pslot i ;;
    clink <- slot_clink s ;;
    m <- pfs_op (pmount clink) ;;
    let* (rv, name, st) := dreadEntry fuel i in
    rv <- pfsFioCheckForLastError m rv ;;
    SignalSema ;;;
    ret (rv, name, st).

Definition pfsFioGetstat (fuel f : nat) (name : list Z) : MW (Z * option iox_stat_t) :=
  x <- pfile f ;;
  m <- pfsFioGetMountedUnit (f_unit x) ;;
  match m with
  | None => ret (- ENODEV, None)
  | Some m =>
      let* (clink, rv) := pfs_op (pfsInodeGetFile fuel m None name) in
      st <- match clink with
            | None => ret None
            | Some c =>
                b <- pfs_op (pdata c) ;;
                pfs_op (pfsCacheFree (Some c)) ;;;
                ret (Some (fioStatFiller b))
            end ;;
      SignalSema ;;;
      rv <- pfsFioCheckForLastError m rv ;;
      ret (rv, st)
  end.

(** The fields [statmask] names. *)
Definition chstatInode (stat : iox_stat_t) (statmask : Z) (b : buf) : buf :=
  let has k := nz (Z.land statmask k) in
  let b := if has FIO_CST_MODE && negb (is_lnk b)
           then set_i_mode (Z.lor (Z.land (i_mode b) FIO_S_IFMT) (Z.land (x_mode stat) 0xFFF)) b else b in
  let b := if has FIO_CST_ATTR
           then set_i_attr (Z.lor (Z.land (i_attr b) 0xA0) (Z.land (x_attr stat) 0xFF5F)) b else b in
  let b := if has FIO_CST_CT then set_i_ctime (x_ctime stat) b else b in
  let b := if has FIO_CST_AT then set_i_atime (x_atime stat) b else b in
  let b := if has FIO_CST_MT then set_i_mtime (x_mtime stat) b else b in
  if has FIO_CST_PRVT then set_i_gid (x_private_1 stat) (set_i_uid (x_private_0 stat) b) else b.

Definition pfsFioChstat (fuel f : nat) (name : list Z) (stat : iox_stat_t) (statmask : Z) : MW Z :=
  with_mount_err f (fun m =>
    let* (clink, rv) := pfs_op (pfsInodeGetFile fuel m None name) in
    match clink with
    | None => ret rv
    | Some c =>
        rv <- pfs_op (pfsCheckAccess c 2) ;;
        rv <- (if rv =? 0 then
                 pfs_op (pdirty c) ;;;
                 pfs_op (dmod c (chstatInode stat statmask)) ;;;
                 pfs_op (flush_if_writeable m) ;;;
                 ret (if nz (Z.land statmask FIO_CST_SIZE) then - EACCES else rv)
               else ret rv) ;;
        pfs_op (pfsCacheFree (Some c)) ;;;
        ret rv
    end).

Definition m_set_current (d : pfs_blockinfo_t) (x : pfs_mount_t) : pfs_mount_t :=
  mkMount (m_fd x) (m_flags x) (m_total_sector x) (m_zfree x) (m_sector_scale x) (m_inode_scale x) (m_zsize x)
    (m_num_subs x) (m_root_dir x) (m_log x) d (m_lastError x) (m_uid x) (m_gid x) (m_free_zone x).

Definition pfsFioChdir (fuel f : nat) (name : list Z) : MW Z :=
  with_mount_err f (fun m =>
    let* (clink, result) := pfs_op (pfsInodeGetFile fuel m None name) in
    match clink with
    | None => ret result
    | Some c =>
        b <- pfs_op (pdata c) ;;
        result <- (if negb (is_dir b) then ret (- ENOTDIR)
                   else
                     result <- pfs_op (pfsCheckAccess c 1) ;;
                     when (result =? 0) (pfs_op (mmod m (m_set_current (i_inode_block b)))) ;;;
                     ret result) ;;
        pfs_op (pfsCacheFree (Some c)) ;;;
        ret result
    end).

(** ** Mounting *)

Definition pfsFioFormat (blockdev : list Z) (args : list Z) (arglen : Z) : MW Z :=
  match args with
  | [] => undef
  | zonesize :: rest =>
      fragment <- (if arglen =? 12 then
                     match rest with
                     | a :: b :: _ => ret (if a =? 0x2D66 then b else 0)
                     | _ => undef
                     end
                   else ret 0) ;;
      known <- isBlockDevice blockdev ;;
      if negb known then ret (- ENXIO)
      else
        WaitSema ;;;
        fd <- bfile (bf_open blockdev O_RDWR) ;;
        rv <- (if fd <? 0 then ret fd
               else
                 rv <- pfs_op (pfsFormat fd zonesize fragment) ;;
                 bfile (bf_close fd) ;;;
                 ret rv) ;;
        SignalSema ;;;
        ret rv
  end.

Definition pfsFioMount (f : nat) (devname : list Z) (flag : Z) : MW Z :=
  known <- isBlockDevice devname ;;
  if negb known then ret (- ENXIO)
  else
    WaitSema ;;;
    fd <- bfile (bf_open devname (if nz (Z.land flag FIO_MT_RDONLY) then O_RDONLY else O_RDWR)) ;;
    rv <- (if fd <? 0 then ret fd
           else
             x <- pfile f ;;
             rv <- mountDevice fd (f_unit x) flag ;;
             when (rv <? 0) (bfile (bf_close fd) ;;; ret tt) ;;;
             ret rv) ;;
    SignalSema ;;;
    ret rv.

(** Does a file of mount [m] stay open? *)
Definition mountInUse (m : nat) : MW bool :=
  w <- get ;;
  r <- for_break (seq 0 (Z.to_nat (maxOpen w)))
         (fun i (_ : unit) =>
            s <- pslot i ;;
            match ps_clink s with
            | None => ret (inl tt)
            | Some c =>
                pc <- pfs_op (pget c) ;;
                if bool_decide (pc_mount pc = Some m) then ret (inr true) else ret (inl tt)
            end) tt ;;
  match r with inr b => ret b | inl _ => ret false end.

Definition pfsFioUmount (f : nat) : MW Z :=
  with_mount f (fun m =>
    used <- mountInUse m ;;
    if used : bool then ret (- EBUSY)
    else
      pfs_op (pfsCacheClose m) ;;;
      x <- pfs_op (mget m) ;;
      bfile (bf_close (m_fd x)) ;;;
      pfs_op (pfsClearMount m) ;;;
      ret 0).

(** The dirty sectors of all slots. *)
Definition _sync : MW unit :=
  w <- get ;;
  for_ (seq 0 (Z.to_nat (maxOpen w)))
    (fun i (_ : unit) =>
       s <- pslot i ;;
       when (nz (u_dirty (ps_un s)))
         (clink <- slot_clink s ;;
          m <- pfs_op (pmount clink) ;;
          un_transfer i m PFS_IO_MODE_WRITE ;;;
          syncReaders i m ;;;
          pslotmod i (fun s => set_un (un_set_dirty 0 (ps_un s)) s))) tt.

Definition pfsFioSync (f : nat) : MW Z :=
  with_mount_err f (fun m => _sync ;;; pfs_op (pfsCacheFlushAllDirty m) ;;; ret 0).

(** ** Links *)

Definition pfsFioSymlink (fuel f : nat) (old new : option (list Z)) : MW Z :=
  match old, new with
  | Some old, Some new =>
      with_mount f (fun m => openFile fuel m (ALink old) new (Z.lor O_CREAT O_WRONLY) 0x141FF)
  | _, _ => ret (- ENOENT)
  end.

(** The result and the bytes put in the user's buffer.  [buflen] is unsigned. *)
Definition pfsFioReadlink (fuel f : nat) (path : list Z) (buflen : Z) : MW (Z * list Z) :=
  x <- pfile f ;;
  m <- pfsFioGetMountedUnit (f_unit x) ;;
  match m with
  | None => ret (- ENODEV, [])
  | Some m =>
      let* (clink, rv) := pfs_op (pfsInodeGetFile fuel m None path) in
      let* (rv, out) :=
        match clink with
        | None => ret (rv, [])
        | Some c =>
            b <- pfs_op (pdata c) ;;
            pfs_op (pfsCacheFree (Some c)) ;;;
            if is_lnk b then ret (- EINVAL, [])
            else if (976 <=? length (linkTarget b))%nat then undef   (* no NUL in the buffer *)
            else
              let len := Z.of_nat (length (linkTarget b)) in
              let rv := if buflen <? len then buflen else len in
              ret (rv, take (Z.to_nat rv) (linkTarget b))
        end in
      SignalSema ;;;
      rv <- pfsFioCheckForLastError m rv ;;
      ret (rv, out)
  end.

(** ** Renaming *)

(** [if (p) pfsCacheFree(p)] *)
Definition free_if (p : option nat) : MP unit :=
  match p with Some _ => pfsCacheFree p | None => ret tt end.

(** May the target be replaced?  The result, and whether to leave at once (old
    and new name are the same file). *)
Definition checkTarget (fuel : nat) (f : bool) (iFileOld : nat) (iFileNew : option nat) (result : Z) : MP (Z * bool) :=
  match iFileNew with
  | None => ret ((if result =? - ENOENT then 0 else result), false)
  | Some n =>
      b <- pdata n ;;
      let unused :=
        c <- pget n ;;
        if 2 <=? pc_nused c then ret (- EBUSY, false) else ret (result, (iFileOld =? n)%nat) in
      if f then
        if negb (is_dir b) then ret (- ENOTDIR, false)
        else
          empty <- pfsCheckDirForFiles fuel n ;;
          if nz empty then unused else ret (- ENOTEMPTY, false)
      else if is_dir b then ret (- EISDIR, false) else unused
  end.

(** Walking up from the new directory: is the old one on the way? *)
Definition ancestorStep (fuel iFileOld : nat) : nat * Z -> MP ((nat * Z) + (Z * option nat)) :=
  fun '(parent, result) =>
  if (parent =? iFileOld)%nat then ret (inr (- EINVAL, Some parent))
  else
    let* (tmp, result) := pfsInodeGetFileInDir fuel parent str_dotdot in
    pfsCacheFree (Some parent) ;;;
    match tmp with
    | None => ret (inr (result, None))
    | Some t => if (t =? parent)%nat then ret (inr (result, Some parent)) else ret (inl (t, result))
    end.

Definition checkAncestors (fuel iFileOld parentNew : nat) (result : Z) : MP Z :=
  parent <- pfsCacheUsedAdd parentNew ;;
  let* (result, parent) := while_ fuel (ancestorStep fuel iFileOld) (parent, result) in
  pfsCacheFree parent ;;;
  ret result.

(** The buffers [removeNew], [removeOld], [addNew] and [newParent]. *)
Record moved_t := mkMoved {
  mv_removeNew : option nat; mv_removeOld : option nat; mv_addNew : option nat; mv_newParent : option nat
}.
Definition no_move : moved_t := mkMoved None None None None.

Definition dotName (p : list Z) : bool := bool_decide (p = str_dot) || bool_decide (p = str_dotdot).

(** Changing the two directories. *)
Definition moveEntry (fuel : nat) (f : bool) (parentOld parentNew iFileOld : nat) (iFileNew : option nat)
  (path1 path2 : list Z) : MP (Z * moved_t) :=
  result <- (if dotName path1 || dotName path2 then ret (- EINVAL)
             else
               result <- pfsCheckAccess parentOld 3 ;;
               if result =? 0 then pfsCheckAccess parentNew 3 else ret result) ;;
  if negb (result =? 0) then ret (result, no_move)
  else
    removeNew <- match iFileNew with
                 | Some _ => r <- pfsDirRemoveEntry fuel parentNew path2 ;; ret (Some r)
                 | None => ret None
                 end ;;
    match removeNew with
    | Some None => ret (- ENOENT, no_move)
    | _ =>
        let removeNew := match removeNew with Some r => r | None => None end in
        removeOld <- pfsDirRemoveEntry fuel parentOld path1 ;;
        match removeOld with
        | None => ret (- ENOENT, mkMoved removeNew None None None)
        | Some _ =>
            b <- pdata iFileOld ;;
            let* (addNew, result) := pfsDirAddEntry fuel parentNew path2 (i_inode_block b) (i_mode b) in
            match addNew with
            | Some _ =>
                if f && negb (parentOld =? parentNew)%nat then
                  bn <- pdata parentNew ;;
                  let* (newParent, result) := pfsSetDentryParent fuel iFileOld (i_inode_block bn) in
                  ret (result, mkMoved removeNew removeOld addNew newParent)
                else ret (result, mkMoved removeNew removeOld addNew None)
            | None => ret (result, mkMoved removeNew removeOld None None)
            end
        end
    end.

(** [p->pfsMount = NULL]: the buffer is not written back. *)
Definition disown (p : option nat) : MP unit :=
  match p with Some p => pmod p (pc_set_mount None) | None => ret tt end.

(** Committing the change, or giving the changed buffers up. *)
Definition finishRename (fuel m parentOld parentNew iFileOld : nat) (iFileNew : option nat) (result : Z) (mv : moved_t)
  : MP unit :=
  (if nz result then
     disown (mv_removeNew mv) ;;; disown (mv_removeOld mv) ;;; disown (mv_addNew mv) ;;; disown iFileNew ;;;
     disown (Some parentOld) ;;; disown (Some parentNew)
   else
     match mv_removeOld mv, mv_addNew mv with
     | Some ro, Some an =>
         (if (parentOld =? parentNew)%nat then when (negb (ro =? an)%nat) (pdirty ro)
          else pfsInodeSetTime parentOld ;;; pdirty ro) ;;;
         pfsInodeSetTime parentNew ;;;
         pdirty an ;;;
         match mv_newParent mv with
         | Some np => pfsInodeSetTime iFileOld ;;; pdirty np ;;; pfsCacheFree (Some np)
         | None => ret tt
         end ;;;
         match iFileNew with
         | Some n => pclean n ;;; pfsBitmapFreeInodeBlocks fuel n
         | None => ret tt
         end ;;;
         flush_if_writeable m
     | _, _ => undef
     end) ;;;
  free_if (mv_removeOld mv) ;;; free_if (mv_addNew mv) ;;; free_if (mv_removeNew mv).

(** What [pfsFioRename] does once the old directory is found. *)
Definition renameIn (fuel m parentOld : nat) (path1 new : list Z) : MP Z :=
  let leave (iFileNew iFileOld parentNew : option nat) (result : Z) :=
    free_if iFileNew ;;; pfsCacheFree iFileOld ;;; pfsCacheFree (Some parentOld) ;;; pfsCacheFree parentNew ;;;
    ret result in
  c <- pget parentOld ;;
  let nused := pc_nused c in
  if negb (nused =? 1) then leave None None None (- EBUSY)
  else
    let* (fo, result) := pfsInodeGetFileInDir fuel parentOld path1 in
    match fo with
    | None => leave None None None result
    | Some iFileOld =>
        let* (pn, path2, result) := pfsInodeGetParent fuel m None new in
        match pn with
        | None => leave None (Some iFileOld) None result
        | Some parentNew =>
            bo <- pdata iFileOld ;;
            let f := is_dir bo in
            cn <- pget parentNew ;;
            if negb (pc_nused cn =? nused) && (negb (parentOld =? parentNew)%nat || negb (pc_nused cn =? 2))
            then leave None (Some iFileOld) (Some parentNew) (- EBUSY)
            else
              let* (iFileNew, result) := pfsInodeGetFileInDir fuel parentNew path2 in
              let* (result, same) := checkTarget fuel f iFileOld iFileNew result in
              if nz result || same then leave iFileNew (Some iFileOld) (Some parentNew) result
              else
                result <- (if f && negb (parentOld =? parentNew)%nat
                           then checkAncestors fuel iFileOld parentNew result else ret result) ;;
                let* (result, mv) :=
                  (if result =? 0 then moveEntry fuel f parentOld parentNew iFileOld iFileNew path1 path2
                   else ret (result, no_move)) in
                finishRename fuel m parentOld parentNew iFileOld iFileNew result mv ;;;
                leave iFileNew (Some iFileOld) (Some parentNew) result
        end
    end.

Definition pfsFioRename (fuel f : nat) (old new : list Z) : MW Z :=
  with_mount_err f (fun m =>
    let* (parentOld, path1, result) := pfs_op (pfsInodeGetParent fuel m None old) in
    match parentOld with
    | None => ret result
    | Some p => pfs_op (renameIn fuel m p path1 new)
    end).
End Ops.
