(* ===== verification/PfsIoctl.v ===== *)
(** * PfsIoctl: control codes and file attributes of the pfs module

    iop/hdd/pfs/src/pfs_fioctl.c.  The attributes of a file are entries
    (kLen, vLen, aLen, key and value) in the 1024-byte block after its inode;
    an entry is named by its offset. *)

From stdpp Require Import base numbers list gmap.
From Stdlib Require Import ZArith Lia.
From S2P Require Import Prelude ApaState PfsState PfsCache PfsBitmap PfsInode PfsDir PfsSuper Pfs PfsFio PfsOps.

Open Scope Z_scope.
Open Scope c_scope.

(** ** [pfs_aentry_t] at byte [o] *)

Definition ae_kLen (b : buf) (o : nat) : Z := get8 b o.
Definition ae_vLen (b : buf) (o : nat) : Z := get8 b (o + 1).
Definition ae_aLen (b : buf) (o : nat) : Z := get16 b (o / 4) 1.
Definition ae_str (b : buf) (o k n : nat) : list Z := map (fun j => get8 b (o + 4 + k + j)) (seq 0 n).
Definition set_ae (o : nat) (k v a : Z) (b : buf) : buf := set16 (o / 4) 1 a (set8 (o + 1) v (set8 o k b)).
Definition set_ae_aLen (o : nat) (a : Z) : buf -> buf := set16 (o / 4) 1 a.
Definition put_bytes_at (o : nat) (bs : list Z) (b : buf) : buf :=
  foldl (fun b kc => set8 (o + kc.1) kc.2 b) b (zip (seq 0 (length bs)) bs).

(** [(kLen + vLen + 7) & ~3] *)
Definition entryLen (k v : Z) : Z := Z.land (k + v + 7) (-4).

(** What the loop of [getAentry] does with the entry at [o]: [None] is the
    return of NULL, [Some (inl _)] an entry and the block, [Some (inr _)] the
    new [aentryLast]. *)
Definition aentryStep (mode : Z) (key : list Z) (fullsize : Z) (b : buf) (o : nat) (last : option nat)
  : option ((nat * buf) + option nat) :=
  let kLen := Z.of_nat (length key) in
  let same := (kLen =? ae_kLen b o) && bool_decide (ae_str b o 0 (length key) = key) in
  let used := entryLen (ae_kLen b o) (ae_vLen b o) in
  if ae_aLen b o <? used then None
  else if mode =? 0 then Some (if same then inl (o, b) else inr last)
  else if mode =? 1 then
    if (ae_kLen b o =? 0) && (fullsize <=? ae_aLen b o) then Some (inl (o, b))
    else if ae_aLen b o - used <? fullsize then Some (inr last)
    else Some (inl (o, b))
  else if same then
    match last with
    | Some l => Some (inl (o, set_ae_aLen l (ae_aLen b l + ae_aLen b o) b))
    | None => Some (inl (o, set_ae o 0 0 (ae_aLen b o) b))
    end
  else Some (inr (Some o)).

(** The loop runs while the end of the block lies before the entry. *)
Fixpoint aentryLoop (fuel : nat) (mode : Z) (key : list Z) (fullsize : Z) (b : buf) (o : nat) (last : option nat)
  : outcome unit (option (nat * buf)) :=
  match fuel with
  | O => NoFuel
  | S n =>
      if (1024 <? o)%nat then
        if (1024 <? o + 4)%nat then Undef
        else
          match aentryStep mode key fullsize b o last with
          | None => Done None tt
          | Some (inl r) => Done (Some r) tt
          | Some (inr last') => aentryLoop n mode key fullsize b (o + Z.to_nat (ae_aLen b o)) last'
          end
      else Done None tt
  end.

(** [strlen(value)] of a NULL [value] reads the bytes at address 0, where the
    console has memory: [low] is the string there. *)
Definition getAentryIn (low : list Z) (fuel : nat) (b : buf) (key : list Z) (value : option (list Z)) (mode : Z)
  : outcome unit (option (nat * buf)) :=
  let fullsize := entryLen (Z.of_nat (length key)) (Z.of_nat (length (default low value))) in
  aentryLoop fuel mode key fullsize b 0 None.

(** Entries at [*offset], up to one that is used: the key length, key, value
    and the offset after it. *)
Fixpoint attrReadLoop (fuel : nat) (b : buf) (offset : Z) : outcome unit (Z * list Z * list Z * Z) :=
  match fuel with
  | O => NoFuel
  | S n =>
      let o := Z.to_nat offset in
      if (1024 <? o + 4)%nat then Undef
      else
        let k := ae_kLen b o in
        let v := ae_vLen b o in
        if 1024 <? offset + 4 + k + v then Undef
        else
          let key := ae_str b o 0 (Z.to_nat k) in
          let value := ae_str b o (Z.to_nat k) (Z.to_nat v) in
          let offset := u32 (offset + ae_aLen b o) in
          if nz k then Done (k, key, value, offset) tt
          else if offset <? 1024 then attrReadLoop n b offset
          else Done (k, key, value, offset) tt
  end.

(** The argument of [pfsFioIoctl2]: [arg] as the command reads it. *)
Inductive ioctlArg :=
  | PNone
  | PInt (v : Z)
  | PAttr (key value : list Z)
  | PKey (key : list Z).

(** What the command leaves in the caller's buffer. *)
Inductive ioctlOut :=
  | ONone
  | OValue (value : list Z)
  | OAttr (key value : list Z).

Section Ioctl.
Context {D : Type} `{BlockDevice D} `{BlockFiles D}.
Context (low : list Z).
Notation MW := (M (pfs_world D)).
Notation MP := (M (pfs_st D)).

Definition pure_op {A} (o : outcome unit A) : MP A := fun s =>
  match o with Done a _ => Done a s | Undef => Undef | NoFuel => NoFuel end.

(** The entry, with the block changed when one is deleted. *)
Definition getAentry (clink : nat) (key : list Z) (value : option (list Z)) (mode : Z) : MP (option nat) :=
  b <- pdata clink ;;
  r <- pure_op (getAentryIn low 300 b key value mode) ;;
  match r with
  | None => ret None
  | Some (o, b') => dmod clink (fun _ => b') ;;; ret (Some o)
  end.

(** The unused part of the entry at [o], the one it becomes, and the block. *)
Definition addAttr (o : nat) (key value : list Z) (b : buf) : buf :=
  let tmp := if ae_kLen b o =? 0 then ae_aLen b o
             else u32 (ae_aLen b o - entryLen (ae_kLen b o) (ae_vLen b o)) in
  let b := set_ae_aLen o (ae_aLen b o - tmp) b in
  let n := (o + Z.to_nat (ae_aLen b o))%nat in
  put_bytes_at (n + 4) (key ++ value)
    (set_ae n (Z.of_nat (length key)) (Z.of_nat (length value)) tmp b).

Definition ioctl2AttrAdd (clink : nat) (key value : list Z) : MP Z :=
  if (256 <=? length key)%nat || (256 <=? length value)%nat then ret (- EINVAL)
  else if (length key =? 0)%nat || (length value =? 0)%nat then ret (- EINVAL)
  else
    e <- getAentry clink key None 0 ;;
    match e with
    | Some _ => ret (- EEXIST)
    | None =>
        e <- getAentry clink key (Some value) 1 ;;
        match e with
        | None => ret (- ENOSPC)
        | Some o => dmod clink (addAttr o key value) ;;; pdirty clink ;;; ret 0
        end
    end.

Definition ioctl2AttrDelete (clink : nat) (key : list Z) : MP Z :=
  e <- getAentry clink key None 2 ;;
  match e with
  | None => ret (- ENOENT)
  | Some _ => pdirty clink ;;; ret 0
  end.

Definition ioctl2AttrLoopUp (clink : nat) (key : list Z) : MP (Z * ioctlOut) :=
  e <- getAentry clink key None 0 ;;
  match e with
  | Some o =>
      b <- pdata clink ;;
      ret (ae_vLen b o, OValue (ae_str b o (Z.to_nat (ae_kLen b o)) (Z.to_nat (ae_vLen b o))))
  | None => ret (- ENOENT, ONone)
  end.

(** The result, the attribute and the new offset. *)
Definition ioctl2AttrRead (fuel clink : nat) (offset : Z) : MP (Z * ioctlOut * Z) :=
  if 1024 <=? offset then ret (0, ONone, offset)
  else
    b <- pdata clink ;;
    let* (k, key, value, offset) := pure_op (attrReadLoop fuel b offset) in
    ret (k, OAttr key value, offset).

Definition ioctl2Attr (fuel clink : nat) (cmd : Z) (arg : ioctlArg) (offset : Z) : MP (Z * ioctlOut * Z) :=
  c <- pget clink ;;
  m <- pmount clink ;;
  let* (flink, rv) := pfsCacheGetData m (u16 (pc_sub c)) (u32 (pc_sector c + 1)) PFS_CACHE_FLAG_NOTHING in
  match flink with
  | None => ret (rv, ONone, offset)
  | Some q =>
      let* (rv, out, offset) :=
        (if cmd =? PIOCATTRADD then
           match arg with PAttr k v => r <- ioctl2AttrAdd q k v ;; ret (r, ONone, offset) | _ => undef end
         else if cmd =? PIOCATTRDEL then
           match arg with PKey k => r <- ioctl2AttrDelete q k ;; ret (r, ONone, offset) | _ => undef end
         else if cmd =? PIOCATTRLOOKUP then
           match arg with PKey k => let* (r, o) := ioctl2AttrLoopUp q k in ret (r, o, offset) | _ => undef end
         else ioctl2AttrRead fuel q offset) in
      pfsCacheFree (Some q) ;;;
      ret (rv, out, offset)
  end.

Definition pfsFioIoctl : MW Z := ret (-1).

(** The mounts are looked for by slot numbers. *)
Definition pfsFioDevctlCloseAll : MW unit :=
  w <- get ;;
  for_ (seq 0 (Z.to_nat (maxOpen w)))
    (fun i (_ : unit) =>
       s <- pslot i ;;
       match ps_fd s with Some _ => pfsFioCloseFileSlot i | None => ret tt end) tt ;;;
  for_ (range 0 (Z.to_nat (maxOpen w)))
    (fun i (_ : unit) =>
       m <- pfsGetMountedUnit i ;;
       match m with Some m => pfs_op (pfsCacheFlushAllDirty m) | None => ret tt end) tt.

(** Deleting the semaphore leaves none. *)
Definition pfsFioDeinit : MW Z :=
  pfsFioDevctlCloseAll ;;;
  modify (with_psema None) ;;;
  ret 0.

Definition devctlFsckStat (m : nat) (mode : Z) : MP Z :=
  let* (clink, rv) := pfsCacheAllocClean in
  match clink with
  | None => ret rv
  | Some c =>
      rv <- pfsFsckStat m c PFS_FSCK_STAT_ERRORS_FIXED mode ;;
      pfsCacheFree (Some c) ;;;
      ret rv
  end.

Definition m_set_ids (uid gid : Z) (x : pfs_mount_t) : pfs_mount_t :=
  mkMount (m_fd x) (m_flags x) (m_total_sector x) (m_zfree x) (m_sector_scale x) (m_inode_scale x) (m_zsize x)
    (m_num_subs x) (m_root_dir x) (m_log x) (m_current_dir x) (m_lastError x) uid gid (m_free_zone x).

(** [arg]: the u16 that the set commands read. *)
Definition pfsFioDevctl (f : nat) (cmd : Z) (arg : option Z) : MW Z :=
  with_mount f (fun m =>
    x <- pfs_op (mget m) ;;
    if cmd =? PDIOC_ZONESZ then ret (s32 (m_zsize x))
    else if cmd =? PDIOC_ZONEFREE then ret (s32 (m_zfree x))
    else if cmd =? PDIOC_CLOSEALL then pfsFioDevctlCloseAll ;;; ret 0
    else if cmd =? PDIOC_CLRFSCKSTAT then pfs_op (devctlFsckStat m PFS_MODE_REMOVE_FLAG)
    else if cmd =? PDIOC_GETFSCKSTAT then pfs_op (devctlFsckStat m PFS_MODE_CHECK_FLAG)
    else if cmd =? PDIOC_SETUID then
      match arg with Some v => pfs_op (mmod m (fun x => m_set_ids (u16 v) (m_gid x) x)) ;;; ret 0 | None => undef end
    else if cmd =? PDIOC_SETGID then
      match arg with Some v => pfs_op (mmod m (fun x => m_set_ids (m_uid x) (u16 v) x)) ;;; ret 0 | None => undef end
    else if cmd =? PDIOC_SHOWBITMAP then pfs_op (pfsBitmapShow m) ;;; ret 0
    else ret (- EINVAL)).

Definition pfsFioIoctl2 (fuel f : nat) (cmd : Z) (arg : ioctlArg) : MW (Z * ioctlOut) :=
  x <- pfile f ;;
  if nz (Z.land (f_mode x) O_DIROPEN) && (cmd =? PIOCATTRREAD) then ret (- EISDIR, ONone)
  else if (Z.land (f_mode x) O_WRONLY =? 0) && negb (cmd =? PIOCATTRLOOKUP) && negb (cmd =? PIOCATTRREAD)
  then ret (- EACCES, ONone)
  else
    i <- pprivdata f ;;
    rv <- pfsFioCheckFileSlot i ;;
    if rv <? 0 then ret (rv, ONone)
    else
      s <- pslot i ;;
      clink <- slot_clink s ;;
      m <- pfs_op (pmount clink) ;;
      let* (rv, out) :=
        (if cmd =? PIOCALLOC then
           match arg with PInt v => r <- pfs_op (pfsAllocZones fuel clink v 1) ;; ret (r, ONone) | _ => undef end
         else if cmd =? PIOCFREE then pfs_op (pfsFreeZones clink) ;;; ret (rv, ONone)
         else if (cmd =? PIOCATTRADD) || (cmd =? PIOCATTRDEL) || (cmd =? PIOCATTRLOOKUP) || (cmd =? PIOCATTRREAD) then
           let* (rv, out, offset) := pfs_op (ioctl2Attr fuel clink cmd arg (ps_aentryOffset s)) in
           pslotmod i (set_aentryOffset offset) ;;;
           ret (rv, out)
         else ret (- EINVAL, ONone)) in
      pfs_op (flush_if_writeable m) ;;;
      rv <- pfsFioCheckForLastError m rv ;;
      SignalSema ;;;
      ret (rv, out).
End Ioctl.
