(* ===== verification/PfsRam.v ===== *)
(** * PfsRam: the pfs module on a block device in memory

    The device of PfsScenario as the only file of the module, and the states of
    a short session: the witnesses of the module's properties run on it. *)

From stdpp Require Import base numbers list gmap.
From Stdlib Require Import ZArith Lia.
From S2P Require Import Prelude ApaState PfsState PfsCache PfsBitmap PfsInode PfsDir PfsSuper Pfs PfsFio PfsOps PfsIoctl Scenario PfsScenario.

Open Scope Z_scope.
Open Scope c_scope.

#[export] Instance ram_files : BlockFiles ram := {|
  bf_open := fun _ _ => ret 3;
  bf_close := fun _ => ret 0
|}.

Definition lib0 : pfs_st ram :=
  mkPfs (mkRam ∅ [0x20000]) [] [] 0 (zeros 256) 0 [0; 0] (fun _ => (1, mkClock 0 0 0 0 1 1 4)) 0
    (fun _ => Some (zeros 256)) 0.
(** Files of unit 0: read and write, a directory, read only. *)
Definition pw0 : pfs_world ram :=
  mkPw lib0 [] None 1 2 [mkFile (Z.lor O_RDWR O_CREAT) 0 None; mkFile O_DIROPEN 0 None; mkFile O_RDONLY 0 None].

Definition hdd0 : list Z := [104; 100; 100; 48; 58; 43; 120].   (* "hdd0:+x" *)
Definition name_a : list Z := [47; 97].                          (* "/a" *)

Definition pw_started : pfs_world ram := after (_start true [[]]) pw0.
Definition pw_formatted : pfs_world ram := after (pfsFioFormat hdd0 [8192] 4) pw_started.
Definition pw_mounted : pfs_world ram := after (pfsFioMount 0 hdd0 PFS_FIO_ATTR_WRITEABLE) pw_formatted.
Definition pw_open : pfs_world ram := after (pfsFioOpen 200 0 (Some name_a) 0 0x1FF) pw_mounted.
