(* ===== verification/PfsSector.v ===== *)
(** * PfsSector: parts of a sector

    [fileTransferRemainder] moves bytes inside one sector through the buffer
    of the file slot.  The device is known by the interface [SectorStore]: the
    sectors of an open partition, what a transfer of one sector does to them.
    [viewed] is the invariant of a mount that writes through: the buffer of
    every file slot of the mount equals the sector it is labelled with. *)

From stdpp Require Import base numbers list gmap.
From Stdlib Require Import ZArith Lia.
From S2P Require Import Prelude ApaState PfsState PfsCache PfsBitmap PfsInode PfsDir PfsSuper Pfs PfsFio.

Open Scope Z_scope.
Open Scope c_scope.

(** ** One sector of an open partition *)

Class SectorStore (D : Type) `{BlockDevice D} := {
  bd_sector : D -> Z -> Z -> Z -> buf;   (* descriptor, sub-partition, sector *)
  bd_open : D -> Z -> Prop;              (* the descriptor is that of an open partition *)
  bd_sector_ok d fd sub sec : bd_open d fd -> length (bd_sector d fd sub sec) = 128%nat /\ words_ok (bd_sector d fd sub sec);
  bd_write1 d fd b sub sec : bd_open d fd -> length b = 128%nat -> words_ok b -> 0 <= sub -> 0 <= sec < 2 ^ 32 - 1 ->
    wp (bd_transfer fd b sub sec 1 PFS_IO_MODE_WRITE) d (fun '(r, b') d' =>
      bd_open d' fd /\ b' = b /\ (r < 0 \/ r = 0 /\ bd_sector d' fd sub sec = b) /\
      forall sub' sec', (sub', sec') <> (sub, sec) -> bd_sector d' fd sub' sec' = bd_sector d fd sub' sec');
  bd_read1 d fd b sub sec : bd_open d fd -> length b = 128%nat -> words_ok b -> 0 <= sub -> 0 <= sec < 2 ^ 32 - 1 ->
    wp (bd_transfer fd b sub sec 1 PFS_IO_MODE_READ) d (fun '(r, b') d' =>
      bd_open d' fd /\ length b' = 128%nat /\ words_ok b' /\ (r < 0 \/ r = 0 /\ b' = bd_sector d fd sub sec) /\
      forall sub' sec', bd_sector d' fd sub' sec' = bd_sector d fd sub' sec')
}.

Section Sector.
Context {D : Type} {BD : BlockDevice D} {SS : SectorStore D} {BF : BlockFiles D}.
Notation world := (pfs_world D).
Notation MW := (M world).

Definition sector_bytes (d : D) (fd sub sec : Z) : list Z := bytes_of_words (bd_sector d fd sub sec).

(** The states of a transfer: only the device and the slots change. *)
Definition upd (d : D) (sl : list pfs_file_slot_t) (w : world) : world :=
  with_pslots sl (with_lib (with_dev d (lib w)) w).

Lemma upd_upd d d' sl sl' w : upd d sl (upd d' sl' w) = upd d sl w.
Proof. by destruct w as [l]; destruct l. Qed.
Lemma upd_id w : upd (dev (lib w)) (pfsFileSlots w) w = w.
Proof. by destruct w as [l]; destruct l. Qed.

Lemma sector_bytes_ok d fd sub sec : bd_open d fd ->
  length (sector_bytes d fd sub sec) = 512%nat /\ bytes_ok (sector_bytes d fd sub sec).
Proof.
  intros Ho. destruct (bd_sector_ok d fd sub sec Ho) as [HL _]. unfold sector_bytes.
  destruct (bytes_of_words_ok (bd_sector d fd sub sec)) as [H1 H2]. split; [by rewrite H1, HL|done].
Qed.

(** The bytes of a slot's buffer. *)
Definition un_ok (u : pfs_unaligned_io_t) : Prop := length (u_buffer u) = 512%nat /\ bytes_ok (u_buffer u).

Lemma un_words u : un_ok u -> bytes_of_words (words_of_bytes (u_buffer u)) = u_buffer u /\
  length (words_of_bytes (u_buffer u)) = 128%nat /\ words_ok (words_of_bytes (u_buffer u)).
Proof.
  intros [H1 H2]. split; [by apply (bytes_of_words_of_bytes 128)|]. by apply (words_of_bytes_ok 128).
Qed.

Lemma wp_pslot i (w : world) s Q : pfsFileSlots w !! i = Some s -> Q s w -> wp (pslot i) w Q.
Proof. unfold wp, pslot. by intros ->. Qed.
Lemma wp_op {A} (m : M (pfs_st D) A) (w : world) a Q : m (lib w) = Done a (lib w) -> Q a w -> wp (pfs_op m) w Q.
Proof. unfold wp, pfs_op. intros ->. by destruct w. Qed.
Lemma pget_Done c (l : pfs_st D) x : pfsCacheBuf l !! c = Some x -> pget c l = Done x l.
Proof. unfold pget. by intros ->. Qed.
Lemma wp_data c (w : world) pc Q : pfsCacheBuf (lib w) !! c = Some pc -> Q (pc_data pc) w -> wp (pfs_op (pdata c)) w Q.
Proof. intros E. apply wp_op. unfold pdata. by erewrite bind_Done by (by apply pget_Done). Qed.
Lemma wp_slotmod i f (w : world) s (Q : unit -> world -> Prop) : pfsFileSlots w !! i = Some s ->
  Q tt (upd (dev (lib w)) (<[i := f s]> (pfsFileSlots w)) w) -> wp (pslotmod i f) w Q.
Proof. unfold wp, pslotmod. intros -> HQ. by destruct w as [l]; destruct l. Qed.

(** Writing the slot's buffer to its sector. *)
Lemma un_write i m (w : world) s x : pfsFileSlots w !! i = Some s -> pfsMountBuf (lib w) !! m = Some x ->
  un_ok (ps_un s) -> bd_open (dev (lib w)) (m_fd x) -> 0 <= u_sub (ps_un s) -> 0 <= u_sector (ps_un s) < 2 ^ 32 - 1 ->
  wp (un_transfer i m PFS_IO_MODE_WRITE) w (fun r w' => exists d', w' = upd d' (pfsFileSlots w) w /\
    bd_open d' (m_fd x) /\
    (r < 0 \/ r = 0 /\ sector_bytes d' (m_fd x) (u_sub (ps_un s)) (u_sector (ps_un s)) = u_buffer (ps_un s)) /\
    forall sub' sec', (sub', sec') <> (u_sub (ps_un s), u_sector (ps_un s)) ->
      sector_bytes d' (m_fd x) sub' sec' = sector_bytes (dev (lib w)) (m_fd x) sub' sec').
Proof.
  intros Es Ex Hu Ho H1 H2. destruct (un_words _ Hu) as (U1 & U2 & U3). unfold un_transfer.
  apply wp_bind, (wp_pslot _ _ _ _ Es). apply wp_bind, (wp_op _ _ _ _ (mget_Done _ _ _ Ex)). apply wp_bind.
  pose proof (bd_write1 _ _ _ _ _ Ho U2 U3 H1 H2) as HW. apply wp_inv in HW as ([r b'] & d' & E & O' & -> & R & F).
  eapply wp_Done; [unfold pfs_op, bdev; rewrite E; reflexivity|]. apply wp_bind. eapply wp_slotmod; [exact Es|].
  apply wp_ret. exists d'. split.
  - rewrite U1. simpl. rewrite (list_insert_id _ i); [by destruct w as [l]; destruct l|].
    rewrite Es. f_equal. by destruct s as [? ? ? ? ? ? ? ? []].
  - split; [done|]. split.
    + destruct R as [R|[R1 R2]]; [by left|right]. split; [done|]. unfold sector_bytes. by rewrite R2.
    + intros sub' sec' Hn. unfold sector_bytes. by rewrite F.
Qed.

(** Reading the slot's sector into its buffer. *)
Lemma un_read i m (w : world) s x : pfsFileSlots w !! i = Some s -> pfsMountBuf (lib w) !! m = Some x ->
  un_ok (ps_un s) -> bd_open (dev (lib w)) (m_fd x) -> 0 <= u_sub (ps_un s) -> 0 <= u_sector (ps_un s) < 2 ^ 32 - 1 ->
  wp (un_transfer i m PFS_IO_MODE_READ) w (fun r w' => exists d' b, 
    w' = upd d' (<[i := set_un (un_set_buffer b (ps_un s)) s]> (pfsFileSlots w)) w /\
    bd_open d' (m_fd x) /\ length b = 512%nat /\ bytes_ok b /\
    (r < 0 \/ r = 0 /\ b = sector_bytes (dev (lib w)) (m_fd x) (u_sub (ps_un s)) (u_sector (ps_un s))) /\
    forall sub' sec', sector_bytes d' (m_fd x) sub' sec' = sector_bytes (dev (lib w)) (m_fd x) sub' sec').
Proof.
  intros Es Ex Hu Ho H1 H2. destruct (un_words _ Hu) as (U1 & U2 & U3). unfold un_transfer.
  apply wp_bind, (wp_pslot _ _ _ _ Es). apply wp_bind, (wp_op _ _ _ _ (mget_Done _ _ _ Ex)). apply wp_bind.
  pose proof (bd_read1 _ _ _ _ _ Ho U2 U3 H1 H2) as HR. apply wp_inv in HR as ([r b'] & d' & E & O' & L & W & R & F).
  eapply wp_Done; [unfold pfs_op, bdev; rewrite E; reflexivity|]. apply wp_bind. eapply wp_slotmod; [exact Es|].
  destruct (bytes_of_words_ok b') as [B1 B2].
  apply wp_ret. exists d', (bytes_of_words b'). split; [by destruct w as [l]; destruct l|].
  split; [done|]. split; [by rewrite B1, L|]. split; [done|]. split.
  - destruct R as [R|[R1 R2]]; [by left|right]. split; [done|]. unfold sector_bytes. by rewrite R2.
  - intros sub' sec'. unfold sector_bytes. by rewrite F.
Qed.

(** ** The slots of a mount *)

(** The file of the slot is on mount [m]. *)
Definition on_mount (l : pfs_st D) (m : nat) (s : pfs_file_slot_t) : bool :=
  match ps_clink s with
  | None => false
  | Some c => match pfsCacheBuf l !! c with Some pc => bool_decide (pc_mount pc = Some m) | None => false end
  end.

Definition labelled (sub sec : Z) (s : pfs_file_slot_t) : bool := (u_sub (ps_un s) =? sub) && (u_sector (ps_un s) =? sec).

Definition slot_valid (l : pfs_st D) (s : pfs_file_slot_t) : Prop :=
  match ps_clink s with Some c => is_Some (pfsCacheBuf l !! c) | None => True end.

Lemma wp_holds m sub sec s (w : world) Q : slot_valid (lib w) s -> Q (on_mount (lib w) m s && labelled sub sec s) w ->
  wp (holds m sub sec s) w Q.
Proof.
  unfold holds, slot_valid, on_mount, labelled. destruct (ps_clink s) as [c|]; [|by intros _; apply wp_ret].
  intros [pc Ec] HQ. apply wp_bind, (wp_op _ _ _ _ (pget_Done _ _ _ Ec)). apply wp_ret. rewrite Ec in HQ.
  by rewrite <- andb_assoc.
Qed.

(** A clean buffer, equal to the sector it is labelled with.  No file has
    sector 0: it is the label of a slot that was never used. *)
Definition coherent (d : D) (fd : Z) (s : pfs_file_slot_t) : Prop :=
  u_dirty (ps_un s) = 0 /\ un_ok (ps_un s) /\
  (u_sector (ps_un s) <> 0 -> u_buffer (ps_un s) = sector_bytes d fd (u_sub (ps_un s)) (u_sector (ps_un s))).

(** Mount [m] is [x], writes through, and the buffers of its slots are right. *)
Record viewed (w : world) (m : nat) (x : pfs_mount_t) : Prop := {
  v_mount : pfsMountBuf (lib w) !! m = Some x;
  v_robust : nz (Z.land (m_flags x) PFS_FIO_ATTR_WRITEABLE) = true;
  v_open : bd_open (dev (lib w)) (m_fd x);
  v_slots : length (pfsFileSlots w) = Z.to_nat (maxOpen w);
  v_valid : forall j s, pfsFileSlots w !! j = Some s -> slot_valid (lib w) s;
  v_coherent : forall j s, pfsFileSlots w !! j = Some s -> on_mount (lib w) m s = true -> coherent (dev (lib w)) (m_fd x) s
}.

(** No slot of the mount has newer bytes than the device. *)
Lemma dirtySlot_none m x sub sec (w : world) Q : viewed w m x -> Q None w -> wp (dirtySlot m sub sec) w Q.
Proof.
  intros V HQ. unfold dirtySlot. apply wp_bind. unfold get, wp at 1. apply wp_bind.
  assert (HL : forall l, (forall j, j ∈ l -> (j < length (pfsFileSlots w))%nat) ->
    wp (for_break l (fun i (_ : unit) => s <- pslot i ;; h <- holds m sub sec s ;;
         if h && nz (u_dirty (ps_un s)) then ret (inr i) else ret (inl tt)) tt) w (fun r w' => r = inl tt /\ w' = w)).
  { induction l as [|j l IH]; intros Hl; [done|]. simpl. apply wp_bind.
    destruct (lookup_lt_is_Some_2 (pfsFileSlots w) j) as [s Es]; [apply Hl; by left|].
    apply wp_bind, (wp_pslot _ _ _ _ Es). apply wp_bind, wp_holds; [by eapply v_valid|].
    assert (En : on_mount (lib w) m s && labelled sub sec s && nz (u_dirty (ps_un s)) = false).
    { destruct (on_mount (lib w) m s) eqn:Eo; [|done]. destruct (v_coherent _ _ _ V _ _ Es Eo) as [-> _].
      by rewrite andb_false_r. }
    rewrite En. apply wp_ret. apply IH. intros k Hk. apply Hl. by right. }
  eapply wp_mono; [apply HL|].
  - intros j Hj. apply list_elem_of_In, in_seq in Hj. rewrite (v_slots _ _ _ V). lia.
  - intros r w' [-> ->]. by apply wp_ret.
Qed.

(** [syncReaders] gives the buffer of slot [i] to the clean slots of the mount
    with its label. *)
Definition synced (l : pfs_st D) (m : nat) (u : pfs_unaligned_io_t) (s : pfs_file_slot_t) : pfs_file_slot_t :=
  if on_mount l m s && labelled (u_sub u) (u_sector u) s && (u_dirty (ps_un s) =? 0)
  then set_un (un_set_buffer (u_buffer u) (ps_un s)) s else s.

Lemma synced_own l m s : synced l m (ps_un s) s = s.
Proof. unfold synced. destruct (_ && _); [|done]. by destruct s as [? ? ? ? ? ? ? ? []]. Qed.

(** A list mapped up to [k]. *)
Definition mapped {A} (f : A -> A) (k : nat) (l : list A) : list A := take k (f <$> l) ++ drop k l.

Lemma mapped_lookup {A} (f : A -> A) k l j : mapped f k l !! j = (if decide (j < k)%nat then f <$> l !! j else l !! j).
Proof.
  unfold mapped. destruct (decide (j < k)%nat).
  - destruct (decide (j < length l)%nat).
    + rewrite lookup_app_l by (rewrite length_take, length_fmap; lia). rewrite lookup_take_lt by done. apply list_lookup_fmap.
    + rewrite (lookup_ge_None_2 l j) by lia. apply lookup_ge_None_2.
      rewrite length_app, length_take, length_fmap, length_drop. lia.
  - destruct (decide (k <= length l)%nat).
    + rewrite lookup_app_r by (rewrite length_take, length_fmap; lia). rewrite length_take, length_fmap, lookup_drop. f_equal. lia.
    + rewrite (lookup_ge_None_2 l j) by lia. apply lookup_ge_None_2.
      rewrite length_app, length_take, length_fmap, length_drop. lia.
Qed.

Lemma mapped_S {A} (f : A -> A) k l t : l !! k = Some t -> <[k := f t]> (mapped f k l) = mapped f (S k) l.
Proof.
  intros Et. apply list_eq. intros j. assert (Hk : (k < length (mapped f k l))%nat).
  { apply lookup_lt_is_Some_1. rewrite mapped_lookup. by destruct (decide _); rewrite Et. }
  destruct (decide (j = k)) as [->|Hj].
  - rewrite list_lookup_insert_eq by done. rewrite mapped_lookup, Et. by destruct (decide _); [|lia].
  - rewrite list_lookup_insert_ne by done. rewrite !mapped_lookup. by destruct (decide (j < k)%nat), (decide (j < S k)%nat); (lia || done).
Qed.

Lemma syncReaders_spec i m (w : world) s : pfsFileSlots w !! i = Some s ->
  length (pfsFileSlots w) = Z.to_nat (maxOpen w) ->
  (forall j t, pfsFileSlots w !! j = Some t -> slot_valid (lib w) t) ->
  wp (syncReaders i m) w (fun _ w' => w' = upd (dev (lib w)) (synced (lib w) m (ps_un s) <$> pfsFileSlots w) w).
Proof.
  intros Es HL HV. unfold syncReaders. apply wp_bind. unfold get, wp at 1.
  set (sl := pfsFileSlots w) in *. set (f := synced (lib w) m (ps_un s)).
  eapply wp_mono; [apply (wp_for _ (fun l _ w' => exists k, (k <= length sl)%nat /\ l = seq k (length sl - k) /\
    w' = upd (dev (lib w)) (mapped f k sl) w))|].
  - intros j l [] w1 (k & Hk & El & ->).
    assert (Hlt : (k < length sl)%nat) by (destruct (decide (k < length sl)%nat); [done|]; replace (length sl - k)%nat with 0%nat in El by lia; done).
    replace (length sl - k)%nat with (S (length sl - S k)) in El by lia. injection El as -> ->.
    destruct (lookup_lt_is_Some_2 sl k Hlt) as [t Et].
    assert (Ek : mapped f k sl !! k = Some t) by (rewrite mapped_lookup; by destruct (decide _); [lia|]).
    assert (Ei : mapped f k sl !! i = Some s).
    { rewrite mapped_lookup, Es. destruct (decide _); [|done]. simpl. unfold f. by rewrite synced_own. }
    apply wp_bind, (wp_pslot _ _ t); [exact Ek|]. apply wp_bind, (wp_pslot _ _ s); [exact Ei|].
    apply wp_bind, wp_holds; [exact (HV k t Et)|].
    assert (HR : wp (when (on_mount (lib w) m t && labelled (u_sub (ps_un s)) (u_sector (ps_un s)) t && (u_dirty (ps_un t) =? 0))
       (pslotmod k (fun s0 => set_un (un_set_buffer (u_buffer (ps_un s)) (ps_un s0)) s0)))
       (upd (dev (lib w)) (mapped f k sl) w) (fun _ w' => w' = upd (dev (lib w)) (mapped f (S k) sl) w)).
    { rewrite <- (mapped_S f k sl t Et). unfold f, synced. apply wp_when; intros ->.
      - eapply wp_slotmod; [exact Ek|]. by rewrite upd_upd.
      - f_equal. symmetry. by apply list_insert_id. }
    eapply wp_mono; [exact HR|]. intros [] w' ->. exists (S k). split; [lia|]. split; [done|]. done.
  - exists 0%nat. unfold mapped. rewrite take_0, drop_0, Nat.sub_0_r, <- HL. split; [lia|]. split; [done|]. symmetry. apply upd_id.
  - intros [] w' (k & Hk & Ek & ->). assert (k = length sl) as -> by (destruct (length sl - k)%nat eqn:E0; [lia|done]).
    unfold mapped. rewrite drop_all, app_nil_r, take_ge; [done|]. by rewrite length_fmap.
Qed.

(** ** Loading the sector *)

(** The sector is not read when the slot is at the end of its file, at the
    start of a sector it does not have. *)
Definition unread (s : pfs_file_slot_t) (sub sec pos isize : Z) : bool :=
  negb (labelled sub sec s) && (pos =? 0) && (ps_position s =? isize).

Lemma loadSector_spec i m x (w : world) s c pc sub sec pos : viewed w m x -> pfsFileSlots w !! i = Some s ->
  ps_clink s = Some c -> pfsCacheBuf (lib w) !! c = Some pc -> pc_mount pc = Some m ->
  0 <= sub -> 0 < sec < 2 ^ 32 - 1 ->
  wp (loadSector i m sub sec pos) w (fun r w' => match r with
    | Some e => e < 0
    | None => exists d' b, w' = upd d' (<[i := set_un (mkUn 0 sub sec b) s]> (pfsFileSlots w)) w /\
        bd_open d' (m_fd x) /\ length b = 512%nat /\ bytes_ok b /\
        (unread s sub sec pos (i_size (pc_data pc)) = false -> b = sector_bytes (dev (lib w)) (m_fd x) sub sec) /\
        forall sub' sec', sector_bytes d' (m_fd x) sub' sec' = sector_bytes (dev (lib w)) (m_fd x) sub' sec'
    end).
Proof.
  intros V Es Ec Epc Em Hsub Hsec.
  assert (Hon : on_mount (lib w) m s = true) by (unfold on_mount; rewrite Ec, Epc; by apply bool_decide_eq_true).
  destruct (v_coherent _ _ _ V _ _ Es Hon) as (C1 & [C2 C3] & C4). pose proof (v_open _ _ _ V) as Ho.
  unfold loadSector. apply wp_bind, (wp_pslot _ _ _ _ Es). unfold unread, labelled.
  destruct ((u_sector (ps_un s) =? sec) && (u_sub (ps_un s) =? sub)) eqn:EL.
  - apply andb_prop in EL as [L1%Z.eqb_eq L2%Z.eqb_eq]. apply wp_ret. exists (dev (lib w)), (u_buffer (ps_un s)).
    split; [|split; [done|split; [done|split; [done|split; [|done]]]]].
    + rewrite list_insert_id; [symmetry; apply upd_id|]. rewrite Es. f_equal.
      destruct s as [? ? ? ? ? ? ? ? [? ? ? ?]]. simpl in *. by subst.
    + intros _. rewrite C4 by lia. by rewrite L1, L2.
  - rewrite C1. apply wp_bind, wp_ret. simpl nz. cbn [nz negb]. apply wp_bind. eapply wp_slotmod; [exact Es|].
    set (s1 := set_un (un_set_place sub sec (ps_un s)) s). set (w1 := upd _ _ w).
    assert (E1 : pfsFileSlots w1 !! i = Some s1) by (simpl; apply list_lookup_insert_eq; by eapply lookup_lt_Some).
    apply wp_bind. unfold slot_clink. rewrite Ec. apply wp_ret. apply wp_bind.
    eapply wp_data; [exact Epc|].
    rewrite (andb_comm (u_sub (ps_un s) =? sub)), EL. cbn [negb andb].
    assert (HR : wp (r <- un_transfer i m PFS_IO_MODE_READ ;; if nz r then ret (Some (Z.lor r 0x10000)) else ret None) w1
      (fun r w' => match r with
       | Some e => e < 0
       | None => exists d' b, w' = upd d' (<[i := set_un (mkUn 0 sub sec b) s]> (pfsFileSlots w)) w /\
          bd_open d' (m_fd x) /\ length b = 512%nat /\ bytes_ok b /\ b = sector_bytes (dev (lib w)) (m_fd x) sub sec /\
          forall sub' sec', sector_bytes d' (m_fd x) sub' sec' = sector_bytes (dev (lib w)) (m_fd x) sub' sec'
       end)).
    { apply wp_bind. eapply wp_mono; [apply (un_read _ _ _ _ _ E1 (v_mount _ _ _ V)); simpl; (done || lia)|].
      intros r w' (d' & b & -> & O' & B1 & B2 & R & F). simpl in R. unfold nz.
      destruct (Z.eqb_spec r 0) as [->|Hr]; simpl.
      + destruct R as [R|[_ ->]]; [lia|]. apply wp_ret. exists d', (sector_bytes (dev (lib w)) (m_fd x) sub sec).
        split; [|by split]. unfold w1. rewrite upd_upd. simpl. rewrite list_insert_insert_eq. unfold s1.
        unfold set_un, un_set_buffer, un_set_place. simpl. by rewrite C1.
      + apply wp_ret. destruct R as [R|[R _]]; [|done]. apply Z.lor_neg. by left. }
    unfold nz in *.
    destruct (Z.eqb_spec pos 0) as [Hp|Hp]; simpl; [destruct (Z.eqb_spec (ps_position s) (i_size (pc_data pc))); simpl|].
    + apply wp_ret. exists (dev (lib w)), (u_buffer (ps_un s)). split; [|by split].
      unfold w1, s1. do 2 f_equal. unfold un_set_place. by rewrite C1.
    + eapply wp_mono; [exact HR|]. intros [e|] w' Hw; [done|]. destruct Hw as (d' & b & ? & ? & ? & ? & ? & ?). exists d', b. by split_and!.
    + eapply wp_mono; [exact HR|]. intros [e|] w' Hw; [done|]. destruct Hw as (d' & b & ? & ? & ? & ? & ? & ?). exists d', b. by split_and!.
Qed.

(** ** The transfer *)

(** What the code computes from slot [i]: the mount, the sub-partition, the
    sector, the byte in it, and whether the slot is at the end of the file. *)
Definition slot_place (w : world) (i : nat) : option (nat * Z * Z * Z * bool) :=
  s ← pfsFileSlots w !! i;
  c ← ps_clink s;
  pc ← pfsCacheBuf (lib w) !! c;
  m ← pc_mount pc;
  x ← pfsMountBuf (lib w) !! m;
  q ← ps_inode s;
  qc ← pfsCacheBuf (lib w) !! q;
  let bp := mkBp q (ps_segment s) (ps_offset s) (ps_byte s) in
  let bi := i_data (pc_data qc) (seg_entry (ps_segment s)) in
  Some (m, bi_subpart bi, sectorOf x bi bp, Z.land (ps_byte s) 0x1FF, ps_position s =? i_size (pc_data pc)).

(** A clean slot given the sector it holds keeps the invariant. *)
Lemma viewed_upd (w : world) m x i s d' u : viewed w m x -> pfsFileSlots w !! i = Some s -> bd_open d' (m_fd x) ->
  u_dirty u = 0 -> un_ok u -> u_buffer u = sector_bytes d' (m_fd x) (u_sub u) (u_sector u) ->
  (forall sub' sec', (sub', sec') <> (u_sub u, u_sector u) ->
     sector_bytes d' (m_fd x) sub' sec' = sector_bytes (dev (lib w)) (m_fd x) sub' sec') ->
  viewed (upd d' (synced (lib w) m u <$> <[i := set_un u s]> (pfsFileSlots w)) w) m x.
Proof.
  intros V Es Ho Hd Hu Hb Hf. split; simpl; [apply V|apply V|done|by rewrite length_fmap, length_insert; apply V|..].
  - intros j t Et. apply list_lookup_fmap_Some in Et as (t0 & -> & Et).
    assert (H0 : slot_valid (lib w) t0).
    { apply list_lookup_insert_Some in Et as [(<- & <- & _)|[_ Et]]; [exact (v_valid _ _ _ V _ _ Es)|by eapply v_valid]. }
    unfold synced. by destruct (_ && _).
  - intros j t Et Hon. apply list_lookup_fmap_Some in Et as (t0 & -> & Et).
    assert (Hon0 : on_mount (lib w) m t0 = true) by (revert Hon; unfold synced; by destruct (_ && _)).
    apply list_lookup_insert_Some in Et as [(<- & <- & _)|[_ Et]].
    + rewrite (synced_own (lib w) m (set_un u s) : synced (lib w) m u (set_un u s) = set_un u s). by split_and!.
    + destruct (v_coherent _ _ _ V _ _ Et Hon0) as (C1 & C2 & C3). unfold synced. rewrite Hon0, C1. simpl.
      destruct (labelled _ _ t0) eqn:EL; simpl.
      * apply andb_prop in EL as [L1%Z.eqb_eq L2%Z.eqb_eq]. split; [done|]. split; [exact Hu|]. simpl. by rewrite L1, L2.
      * split; [done|]. split; [done|]. intros H0. rewrite C3 by done. symmetry. apply Hf. intros [= L1 L2].
        unfold labelled in EL. by rewrite L1, L2, !Z.eqb_refl in EL.
Qed.

Lemma viewed_read (w : world) m x i s d' u : viewed w m x -> pfsFileSlots w !! i = Some s -> bd_open d' (m_fd x) ->
  u_dirty u = 0 -> un_ok u -> u_buffer u = sector_bytes (dev (lib w)) (m_fd x) (u_sub u) (u_sector u) ->
  (forall sub' sec', sector_bytes d' (m_fd x) sub' sec' = sector_bytes (dev (lib w)) (m_fd x) sub' sec') ->
  viewed (upd d' (<[i := set_un u s]> (pfsFileSlots w)) w) m x.
Proof.
  intros V Es Ho Hd Hu Hb Hf. split; simpl; [apply V|apply V|done|by rewrite length_insert; apply V|..].
  - intros j t Et. apply list_lookup_insert_Some in Et as [(<- & <- & _)|[_ Et]]; [exact (v_valid _ _ _ V _ _ Es)|by eapply v_valid].
  - intros j t Et Hon. apply list_lookup_insert_Some in Et as [(<- & <- & _)|[_ Et]].
    + split_and!; [done..|]. intros _. simpl. by rewrite Hf.
    + destruct (v_coherent _ _ _ V _ _ Et Hon) as (C1 & C2 & C3). split_and!; [done..|]. intros H0. rewrite Hf. auto.
Qed.

Lemma overwrite_ok o bs l : (o + length bs <= length l)%nat -> bytes_ok bs -> bytes_ok l ->
  length (overwrite o bs l) = length l /\ bytes_ok (overwrite o bs l) /\ take (length bs) (drop o (overwrite o bs l)) = bs.
Proof.
  intros Hl Hb Ho. unfold overwrite. split; [rewrite !length_app, length_take, length_drop; lia|]. split.
  - apply Forall_app. split; [by apply Forall_take|]. apply Forall_app. split; [done|by apply Forall_drop].
  - rewrite drop_app_length' by (rewrite length_take; lia). by rewrite take_app_length.
Qed.

(** What a partial transfer promises, with the device [d] before and [d'] after. *)
Definition moved_part (d d' : D) (fd sub sec pos n op : Z) (unread : bool) (data data' : list Z) : Prop :=
  let old := sector_bytes d fd sub sec in
  let new := sector_bytes d' fd sub sec in
  (forall sub' sec', (sub', sec') <> (sub, sec) -> sector_bytes d' fd sub' sec' = sector_bytes d fd sub' sec') /\
  if op =? 0 then
    new = old /\ data' = take (Z.to_nat n) (drop (Z.to_nat pos) old) ++ drop (Z.to_nat n) data
  else
    data' = data /\ take (Z.to_nat n) (drop (Z.to_nat pos) new) = take (Z.to_nat n) data /\
    (unread = false -> new = overwrite (Z.to_nat pos) (take (Z.to_nat n) data) old).

(** The start of [fileTransferRemainder]: the place of the slot. *)
Lemma place_inv (w : world) i m sub sec pos e : slot_place w i = Some (m, sub, sec, pos, e) ->
  exists s c pc x q qc, pfsFileSlots w !! i = Some s /\ ps_clink s = Some c /\ pfsCacheBuf (lib w) !! c = Some pc /\
    pc_mount pc = Some m /\ pfsMountBuf (lib w) !! m = Some x /\ ps_inode s = Some q /\ pfsCacheBuf (lib w) !! q = Some qc /\
    let bp := mkBp q (ps_segment s) (ps_offset s) (ps_byte s) in
    let bi := i_data (pc_data qc) (seg_entry (ps_segment s)) in
    sub = bi_subpart bi /\ sec = sectorOf x bi bp /\ pos = Z.land (ps_byte s) 0x1FF /\ e = (ps_position s =? i_size (pc_data pc)).
Proof.
  unfold slot_place. intros E.
  destruct (pfsFileSlots w !! i) as [s|] eqn:Es; [|done]. simpl in E.
  destruct (ps_clink s) as [c|] eqn:Ec; [|done]. simpl in E.
  destruct (pfsCacheBuf (lib w) !! c) as [pc|] eqn:Epc; [|done]. simpl in E.
  destruct (pc_mount pc) as [m0|] eqn:Em; [|done]. simpl in E.
  destruct (pfsMountBuf (lib w) !! m0) as [x|] eqn:Ex; [|done]. simpl in E.
  destruct (ps_inode s) as [q|] eqn:Eq; [|done]. simpl in E.
  destruct (pfsCacheBuf (lib w) !! q) as [qc|] eqn:Eqc; [|done]. simpl in E.
  injection E as <- <- <- <- <-. exists s, c, pc, x, q, qc. by split_and!.
Qed.
End Sector.
