(* ===== verification/PfsSectorProps.v ===== *)
(** * PfsSectorProps: reading and writing part of a sector of a file

    The transfer of part of a sector, on any device that keeps the interface
    [SectorStore]. *)

From stdpp Require Import base numbers list gmap.
From Stdlib Require Import ZArith Lia.
From S2P Require Import Prelude ApaState PfsState PfsCache PfsBitmap PfsInode PfsDir PfsSuper Pfs PfsFio PfsSector.

Open Scope Z_scope.
Open Scope c_scope.

Section Transfer.
Context {D : Type} {BD : BlockDevice D} {SS : SectorStore D} {BF : BlockFiles D}.
Notation world := (pfs_world D).

Lemma pos_range y : 0 <= Z.land y 0x1FF < 512.
Proof. change 0x1FF with (Z.ones 9). rewrite Z.land_ones by lia. apply Z.mod_pos_bound. lia. Qed.

(** After the sector is in the slot's buffer: the copy, and the write. *)
Lemma transfer_loaded i data size op (w : world) m x s d1 b sub sec pos un : viewed w m x -> pfsFileSlots w !! i = Some s ->
  0 <= sub -> 0 < sec < 2 ^ 32 - 1 -> (op = 0 \/ op = 1) -> 0 <= size -> 0 <= pos < 512 ->
  Z.min size (512 - pos) <= Z.of_nat (length data) -> bytes_ok data ->
  bd_open d1 (m_fd x) -> length b = 512%nat -> bytes_ok b ->
  (op = 0 -> un = false) -> (un = false -> b = sector_bytes (dev (lib w)) (m_fd x) sub sec) ->
  (forall sub' sec', sector_bytes d1 (m_fd x) sub' sec' = sector_bytes (dev (lib w)) (m_fd x) sub' sec') ->
  let w1 := upd d1 (<[i := set_un (mkUn 0 sub sec b) s]> (pfsFileSlots w)) w in
  wp (let size := Z.min size (512 - pos) in
      if (size <? 0) || (Z.of_nat (length data) <? size) then undef
      else if op =? 0 then
        s <- pslot i ;;
        ret (size, overwrite 0 (take (Z.to_nat size) (drop (Z.to_nat pos) (u_buffer (ps_un s)))) data)
      else
        pslotmod i (fun s => set_un (un_set_buffer (overwrite (Z.to_nat pos) (take (Z.to_nat size) data)
                                                     (u_buffer (ps_un s))) (ps_un s)) s) ;;;
        if op =? 1 then
          if nz (Z.land (m_flags x) PFS_FIO_ATTR_WRITEABLE) then
            r <- un_transfer i m op ;;
            if nz r then ret (r, data)
            else syncReaders i m ;;; ret (size, data)
          else
            pslotmod i (fun s => set_un (un_set_dirty op (ps_un s)) s) ;;;
            ret (size, data)
        else ret (size, data)) w1
    (fun '(r, data') w' => r < 0 \/ r = Z.min size (512 - pos) /\ viewed w' m x /\
       moved_part (dev (lib w)) (dev (lib w')) (m_fd x) sub sec pos r op un data data').
Proof.
  intros V Es Hsub Hsec Hop Hsize Hpos Hlen Hdata Ho1 Hb1 Hb2 Hread Hun Hf1 w1.
  set (n := Z.min size (512 - pos)) in *. cbv zeta. fold n.
  replace ((n <? 0) || (Z.of_nat (length data) <? n)) with false by (symmetry; apply orb_false_iff; lia).
  assert (E1 : pfsFileSlots w1 !! i = Some (set_un (mkUn 0 sub sec b) s)) by (simpl; apply list_lookup_insert_eq; by eapply lookup_lt_Some).
  destruct Hop as [-> | ->]; simpl.
  - apply wp_bind, (wp_pslot _ _ _ _ E1). apply wp_ret. right. split; [done|]. specialize (Hun (Hread eq_refl)). clear Hread. rename Hun into Hread.
    split; [apply viewed_read; done|]. split; [by intros; apply Hf1|]. simpl. split; [apply Hf1|].
    unfold overwrite. rewrite take_0. simpl. rewrite <- Hread. f_equal. f_equal.
    rewrite length_take, length_drop. lia.
  - rewrite (v_robust _ _ _ V). apply wp_bind. eapply wp_slotmod; [exact E1|]. simpl.
    set (bs := take (Z.to_nat n) data). assert (Lbs : length bs = Z.to_nat n) by (unfold bs; rewrite length_take; lia).
    destruct (overwrite_ok (Z.to_nat pos) bs b) as (B1 & B2 & B3); [lia|by apply Forall_take|done|].
    set (b2 := overwrite (Z.to_nat pos) bs b) in *. rewrite list_insert_insert_eq. unfold w1. rewrite upd_upd. unfold un_set_buffer.
    change (set_un _ _) with (set_un (mkUn 0 sub sec b2) s). set (s2 := set_un (mkUn 0 sub sec b2) s).
    set (w2 := upd d1 (<[i := s2]> (pfsFileSlots w)) w).
    assert (E2 : pfsFileSlots w2 !! i = Some s2) by (simpl; apply list_lookup_insert_eq; by eapply lookup_lt_Some).
    apply wp_bind. eapply wp_mono; [apply (un_write i m w2 s2 x E2 (v_mount _ _ _ V)); simpl; try done; [split; [exact (eq_trans B1 Hb1)|exact B2]|lia]|].
    intros r w3 (d3 & -> & O3 & R & F3). simpl in R, F3. unfold nz. destruct (Z.eqb_spec r 0) as [->|Hr]; simpl.
    2: { apply wp_ret. destruct R as [R|[R _]]; [by left|done]. }
    destruct R as [R|[_ R]]; [lia|]. apply wp_bind. unfold w2. rewrite upd_upd. simpl.
    eapply wp_mono; [apply (syncReaders_spec i m _ s2)|].
    + exact E2.
    + simpl. rewrite length_insert. apply V.
    + simpl. intros j t Et. apply list_lookup_insert_Some in Et as [(<- & <- & _)|[_ Et]]; [exact (v_valid _ _ _ V _ _ Es)|exact (v_valid _ _ _ V _ _ Et)].
    + intros [] w4 ->. rewrite upd_upd. apply wp_ret. right. split; [done|]. simpl.
      split; [apply (viewed_upd w m x i s d3 (mkUn 0 sub sec b2)); try done; [split; [exact (eq_trans B1 Hb1)|exact B2]|]|].
      { intros sub' sec' Hn. rewrite F3 by done. apply Hf1. }
      split; [intros sub' sec' Hn; rewrite F3 by done; apply Hf1|]. simpl. split; [done|]. rewrite R.
      split; [rewrite Lbs in B3; exact B3|]. intros Hb. by rewrite <- (Hun Hb).
Qed.

(** On a mount that writes through, [fileTransferRemainder] is a transfer of
    bytes of the partition.  It returns an error of the device, or moves
    [min(size, 512 - pos)] bytes at byte [pos] of the sector under the slot: a
    read gives the bytes of the partition and changes none; a write puts the
    user's bytes there and keeps the rest of the sector, unless the slot is at
    the end of the file and at the start of the sector, whose other bytes are
    not part of the file.  No other sector changes, and afterwards the buffer
    of every slot of the mount is again the sector it is labelled with, so the
    same holds for the next transfer, by this slot or another. *)
Lemma partial_transfer (w : world) i m x sub sec pos e data size op :
  viewed w m x -> slot_place w i = Some (m, sub, sec, pos, e) ->
  0 <= sub -> 0 < sec < 2 ^ 32 - 1 -> (op = 0 \/ op = 1) -> 0 <= size ->
  Z.min size (512 - pos) <= Z.of_nat (length data) -> bytes_ok data -> (op = 0 -> (pos =? 0) && e = false) ->
  wp (fileTransferRemainder i data size op) w (fun '(r, data') w' =>
    r < 0 \/ r = Z.min size (512 - pos) /\ viewed w' m x /\
    moved_part (dev (lib w)) (dev (lib w')) (m_fd x) sub sec pos r op ((pos =? 0) && e) data data').
Proof.
  intros V HP Hsub Hsec Hop Hsize Hlen Hdata Hend.
  apply place_inv in HP as (s & c & pc & x' & q & qc & Es & Ec & Epc & Em & Ex & Eq & Eqc & HB).
  rewrite (v_mount _ _ _ V) in Ex. injection Ex as <-. cbv zeta in HB. destruct HB as (-> & -> & -> & ->).
  pose proof (pos_range (ps_byte s)) as Hpos.
  unfold fileTransferRemainder. apply wp_bind, (wp_pslot _ _ _ _ Es). apply wp_bind. unfold slot_clink. rewrite Ec. apply wp_ret.
  apply wp_bind. eapply wp_op; [unfold pmount; erewrite bind_Done by (by apply pget_Done); by rewrite Em|].
  apply wp_bind, (wp_op _ _ _ _ (mget_Done _ _ _ (v_mount _ _ _ V))). apply wp_bind. unfold slot_pos. rewrite Eq. apply wp_ret.
  apply wp_bind. eapply wp_op.
  { unfold pfsBlockGetCurrent. erewrite bind_Done by (unfold pdata; erewrite bind_Done by (by apply pget_Done); done). done. }
  simpl. set (bi := i_data _ _) in *. set (bp := mkBp _ _ _ _) in *. set (pos := Z.land _ _) in *. set (sec := sectorOf _ _ _) in *.
  apply wp_bind.
  assert (HN : forall Q : bool -> world -> Prop, Q false w -> wp (if op =? 0 then
      d <- dirtySlot m (bi_subpart bi) sec ;;
      match d with
      | Some j => if (j =? i)%nat then ret false else s' <- pslot j ;;
          pslotmod i (fun s0 => set_un (un_set_buffer (u_buffer (ps_un s')) (ps_un s0)) s0) ;;; ret true
      | None => ret false
      end else ret false) w Q).
  { intros Q HQ. destruct (op =? 0); [|by apply wp_ret]. apply wp_bind. eapply dirtySlot_none; [exact V|]. by apply wp_ret. }
  apply HN. apply wp_bind. eapply wp_mono; [by apply (loadSector_spec i m x w s c pc)|].
  intros [e|] w1 Hw; [apply wp_ret; by left|]. destruct Hw as (d1 & b & -> & O1 & B1 & B2 & B3 & F1).
  apply transfer_loaded; try done. intros Hu. apply B3. unfold unread. by rewrite <- andb_assoc, Hu, andb_false_r.
Qed.
End Transfer.

(** ** The invariant of the slots, as a test *)

Section Test.
Context {D : Type} {BD : BlockDevice D} {SS : SectorStore D}.

Definition coherentb (r : D) (fd : Z) (s : pfs_file_slot_t) : bool :=
  let u := ps_un s in
  (u_dirty u =? 0) && (length (u_buffer u) =? 512)%nat && forallb (fun v => (0 <=? v) && (v <? 256)) (u_buffer u) &&
  ((u_sector u =? 0) || bool_decide (u_buffer u = sector_bytes r fd (u_sub u) (u_sector u))).

Definition slotsb (w : pfs_world D) (m : nat) (x : pfs_mount_t) : bool :=
  forallb (fun s =>
    match ps_clink s with
    | None => true
    | Some c => bool_decide (is_Some (pfsCacheBuf (lib w) !! c)) && (negb (on_mount (lib w) m s) || coherentb (dev (lib w)) (m_fd x) s)
    end) (pfsFileSlots w).

Lemma coherentb_ok r fd s : coherentb r fd s = true -> coherent r fd s.
Proof.
  unfold coherentb. intros E. apply andb_prop in E as [E E4]. apply andb_prop in E as [E E3]. apply andb_prop in E as [E1 E2].
  split; [by apply Z.eqb_eq|]. split; [split; [by apply Nat.eqb_eq|]|].
  - apply Forall_forall. intros v Hv. rewrite forallb_forall in E3. apply list_elem_of_In, E3, andb_prop in Hv as [? ?]. lia.
  - intros Hn. apply orb_prop in E4 as [E4|E4]; [by apply Z.eqb_eq in E4|by apply bool_decide_eq_true in E4].
Qed.

Lemma slotsb_ok w m x : slotsb w m x = true -> forall j s, pfsFileSlots w !! j = Some s ->
  slot_valid (lib w) s /\ (on_mount (lib w) m s = true -> coherent (dev (lib w)) (m_fd x) s).
Proof.
  unfold slotsb. rewrite forallb_forall. intros Ha j s Es. specialize (Ha s ltac:(apply list_elem_of_In; by eapply list_elem_of_lookup_2)).
  unfold slot_valid. destruct (ps_clink s) as [c|] eqn:Ec; simpl in Ha.
  - apply andb_prop in Ha as [H1 H2]. apply bool_decide_eq_true in H1. split; [done|]. intros Ho. rewrite Ho in H2. by apply coherentb_ok.
  - split; [done|]. unfold on_mount. by rewrite Ec.
Qed.
End Test.
