(* ===== verification/Ioman.v ===== *)
(** * Ioman: the I/O manager (iop/system/iomanx/src/iomanX.c)

    The list of devices, the table of open files, the names "dev<unit>:path",
    and the dispatch of every call to the operations of a device.  A device
    structure is memory of its module: [devices] gives its contents, and the
    operations in it run on the whole state, so that a file system can call
    the manager again.  [junk] stands for the bytes of a structure on the
    stack that the code does not set. *)

From stdpp Require Import base numbers list gmap.
From Stdlib Require Import ZArith Lia.
From S2P Require Import Prelude ApaState.

Open Scope Z_scope.
Open Scope c_scope.

Module IomanX.

(** ** Data *)

(** [iop_device_t *]: NULL, the mark 0xFFFFFFFF of a file being opened, or a device. *)
Inductive devptr := DNull | DMark | Dev (k : nat).

#[export] Instance devptr_eq_dec : EqDecision devptr.
Proof. solve_decision. Defined.

(** [iop_file_t] with its device. *)
Record iop_file := mkIop {
  x_file : iop_file_t;      (* mode, unit, privdata *)
  x_device : devptr
}.

(** A pointer to a file: an entry of the table, or a structure on the stack. *)
Inductive fptr := FTab (i : nat) | FStk (f : iop_file).

Record iox_stat_t := mkXstat {
  xs_mode : Z; xs_attr : Z; xs_size : Z;
  xs_ctime : list Z; xs_atime : list Z; xs_mtime : list Z;
  xs_hisize : Z; xs_private : list Z
}.
Record iox_dirent_t := mkXdirent { xd_stat : iox_stat_t; xd_name : list Z }.

(** The state: devices and files of the manager, and the rest of the machine. *)
Record iox (W : Type) := mkIox {
  dev_list : list (option nat);
  file_table : list iop_file;
  rest : W
}.
Arguments mkIox {W}. Arguments dev_list {W}. Arguments file_table {W}. Arguments rest {W}.

Definition MAX_DEVICES : nat := 32.
Definition MAX_FILES : nat := 32.
Definition IOP_DT_FSEXT : Z := 0x10000000.
Definition EBADF : Z := 9.
Definition O_RDONLY : Z := 1.
Definition O_WRONLY : Z := 2.
Definition SEEK_SET : Z := 0.
Definition SEEK_END : Z := 2.

(** The operations of a device; the arguments of [ioctl2] and [devctl] are
    those of the device. *)
Record iop_device_ops_t (St Arg Out : Type) := mkOps {
  op_init : M St Z;
  op_deinit : M St Z;
  op_format : fptr -> list Z -> list Z -> list Z -> Z -> M St Z;
  op_open : fptr -> list Z -> Z -> Z -> M St Z;
  op_close : fptr -> M St Z;
  op_read : fptr -> Z -> list Z -> Z -> M St (Z * list Z);
  op_write : fptr -> Z -> list Z -> Z -> M St Z;
  op_lseek : fptr -> Z -> Z -> M St Z;
  op_ioctl : fptr -> Z -> Arg -> M St Z;
  op_remove : fptr -> list Z -> M St Z;
  op_mkdir : fptr -> list Z -> Z -> M St Z;
  op_rmdir : fptr -> list Z -> M St Z;
  op_dopen : fptr -> list Z -> M St Z;
  op_dclose : fptr -> M St Z;
  op_dread : fptr -> iox_dirent_t -> M St (Z * iox_dirent_t);
  op_getstat : fptr -> list Z -> iox_stat_t -> M St (Z * iox_stat_t);
  op_chstat : fptr -> list Z -> iox_stat_t -> Z -> M St Z;
  op_rename : fptr -> list Z -> list Z -> M St Z;
  op_chdir : fptr -> list Z -> M St Z;
  op_sync : fptr -> list Z -> Z -> M St Z;
  op_mount : fptr -> list Z -> list Z -> Z -> list Z -> Z -> M St Z;
  op_umount : fptr -> list Z -> M St Z;
  op_lseek64 : fptr -> Z -> Z -> M St Z;
  op_devctl : fptr -> list Z -> Z -> Arg -> M St (Z * Out);
  op_symlink : fptr -> list Z -> list Z -> M St Z;
  op_readlink : fptr -> list Z -> list Z -> Z -> M St (Z * list Z);
  op_ioctl2 : fptr -> Z -> Arg -> M St (Z * Out)
}.

Record iop_device_t (St Arg Out : Type) := mkDev {
  d_name : list Z;
  d_type : Z;
  d_ops : iop_device_ops_t St Arg Out
}.
Arguments d_name {St Arg Out}. Arguments d_type {St Arg Out}. Arguments d_ops {St Arg Out}.

(** ** Modes of older devices *)

Definition FIO_S_IFMT : Z := 0xF000.
Definition FIO_S_IFLNK : Z := 0x4000.
Definition FIO_S_IFREG : Z := 0x2000.
Definition FIO_S_IFDIR : Z := 0x1000.
Definition FIO_S_IRUSR : Z := 0x0100.
Definition FIO_S_IWUSR : Z := 0x0080.
Definition FIO_S_IXUSR : Z := 0x0040.
Definition FIO_S_IRGRP : Z := 0x0020.
Definition FIO_S_IWGRP : Z := 0x0010.
Definition FIO_S_IXGRP : Z := 0x0008.
Definition FIO_S_IROTH : Z := 0x0004.
Definition FIO_S_IWOTH : Z := 0x0002.
Definition FIO_S_IXOTH : Z := 0x0001.
Definition FIO_SO_IFMT : Z := 0x0038.
Definition FIO_SO_IFLNK : Z := 0x0008.
Definition FIO_SO_IFREG : Z := 0x0010.
Definition FIO_SO_IFDIR : Z := 0x0020.
Definition FIO_SO_IROTH : Z := 0x0004.
Definition FIO_SO_IWOTH : Z := 0x0002.
Definition FIO_SO_IXOTH : Z := 0x0001.

(** [if (c) x |= v] *)
Definition or_if (c : bool) (v x : Z) : Z := if c then Z.lor x v else x.

Definition mode2modex (mode : Z) : Z :=
  let typ := Z.land mode FIO_SO_IFMT in
  let has v := nz (Z.land mode v) in
  or_if (has FIO_SO_IXOTH) (Z.lor (Z.lor FIO_S_IXUSR FIO_S_IXGRP) FIO_S_IXOTH)
   (or_if (has FIO_SO_IWOTH) (Z.lor (Z.lor FIO_S_IWUSR FIO_S_IWGRP) FIO_S_IWOTH)
    (or_if (has FIO_SO_IROTH) (Z.lor (Z.lor FIO_S_IRUSR FIO_S_IRGRP) FIO_S_IROTH)
     (or_if (typ =? FIO_SO_IFDIR) FIO_S_IFDIR
      (or_if (typ =? FIO_SO_IFREG) FIO_S_IFREG
       (or_if (typ =? FIO_SO_IFLNK) FIO_S_IFLNK 0))))).

Definition modex2mode (modex : Z) : Z :=
  let typ := Z.land modex FIO_S_IFMT in
  let has v := nz (Z.land modex v) in
  or_if (has (Z.lor (Z.lor FIO_S_IXUSR FIO_S_IXGRP) FIO_S_IXOTH)) FIO_SO_IXOTH
   (or_if (has (Z.lor (Z.lor FIO_S_IWUSR FIO_S_IWGRP) FIO_S_IWOTH)) FIO_SO_IWOTH
    (or_if (has (Z.lor (Z.lor FIO_S_IRUSR FIO_S_IRGRP) FIO_S_IROTH)) FIO_SO_IROTH
     (or_if (typ =? FIO_S_IFDIR) FIO_SO_IFDIR
      (or_if (typ =? FIO_S_IFREG) FIO_SO_IFREG
       (or_if (typ =? FIO_S_IFLNK) FIO_SO_IFLNK 0))))).

Definition with_mode (mode : Z) (s : iox_stat_t) : iox_stat_t :=
  mkXstat mode (xs_attr s) (xs_size s) (xs_ctime s) (xs_atime s) (xs_mtime s) (xs_hisize s) (xs_private s).

Section Manager.
Context {W Arg Out : Type}.
Notation St := (iox W).
Notation MI := (M St).
Notation device := (iop_device_t St Arg Out).
Context (devices : nat -> device) (junk : iop_file) (junk_dirent : iox_dirent_t).

(** ** The tables *)

Definition set_devs (l : list (option nat)) (s : St) : St := mkIox l (file_table s) (rest s).
Definition set_files (l : list iop_file) (s : St) : St := mkIox (dev_list s) l (rest s).
Definition set_rest (w : W) (s : St) : St := mkIox (dev_list s) (file_table s) w.

(** Entry [i] of the table. *)
Definition entry (i : nat) : MI iop_file := fun s =>
  match file_table s !! i with Some f => Done f s | None => Undef end.
Definition set_entry (i : nat) (g : iop_file -> iop_file) : MI unit := fun s =>
  match file_table s !! i with
  | Some f => Done tt (set_files (<[i := g f]> (file_table s)) s)
  | None => Undef
  end.
Definition f_setDevice (d : devptr) (f : iop_file) : iop_file := mkIop (x_file f) d.
Definition f_setMode (m : Z) (f : iop_file) : iop_file :=
  mkIop (mkFile m (f_unit (x_file f)) (f_privdata (x_file f))) (x_device f).
Definition f_setUnit (u : Z) (f : iop_file) : iop_file :=
  mkIop (mkFile (f_mode (x_file f)) u (f_privdata (x_file f))) (x_device f).

(** [f->device->ops] *)
Definition deref_dev (d : devptr) : MI device := match d with Dev k => ret (devices k) | _ => undef end.
Definition ops_of (d : devptr) : MI (iop_device_ops_t St Arg Out) := x <- deref_dev d ;; ret (d_ops x).

(** ** Start-up and drivers *)

(** [hook]: the result of [hook_ioman]. *)
Definition _start (registered hook : Z) : MI Z :=
  if nz registered then ret 1
  else
    modify (fun s => mkIox (replicate MAX_DEVICES None)
                       (replicate MAX_FILES (mkIop (mkFile 0 0 None) DNull)) (rest s)) ;;;
    if nz hook then ret 1 else ret 0.

Definition shutdown : MI Z := ret 1.
Definition GetDeviceList : MI (list (option nat)) := gets dev_list.

(** The first entry for which the test holds. *)
Fixpoint find_from {A} (i : nat) (test : A -> bool) (l : list A) : option nat :=
  match l with
  | [] => None
  | a :: l' => if test a then Some i else find_from (S i) test l'
  end.

Definition AddDrv (k : nat) : MI Z :=
  l <- gets dev_list ;;
  match find_from 0 (fun d => bool_decide (d = None)) l with
  | None => ret (-1)
  | Some i =>
      modify (fun s => set_devs (<[i := Some k]> (dev_list s)) s) ;;;
      res <- op_init _ _ _ (d_ops (devices k)) ;;
      if res <? 0 then modify (fun s => set_devs (<[i := None]> (dev_list s)) s) ;;; ret (-1)
      else ret 0
  end.

Definition named (name : list Z) (d : option nat) : bool :=
  match d with Some k => bool_decide (name = d_name (devices k)) | None => false end.

Definition DelDrv (name : list Z) : MI Z :=
  l <- gets dev_list ;;
  match find_from 0 (named name) l with
  | None => ret (-1)
  | Some i =>
      match l !! i with
      | Some (Some k) =>
          op_deinit _ _ _ (d_ops (devices k)) ;;;
          modify (fun s => set_devs (<[i := None]> (dev_list s)) s) ;;;
          ret 0
      | _ => undef
      end
  end.

(** ** Names *)

(** Leading spaces are skipped but for the last. *)
Fixpoint skip_to_last_space (s : list Z) : list Z :=
  match s with
  | [] => []
  | c :: s' => if (c =? 32) && (nth 0 s' 0 =? 32) then skip_to_last_space s' else s
  end.

(** The bytes before the first ':' and those after it. *)
Fixpoint split_colon (s : list Z) : option (list Z * list Z) :=
  match s with
  | [] => None
  | c :: s' =>
      if c =? 58 then Some ([], s')
      else match split_colon s' with Some (a, b) => Some (c :: a, b) | None => None end
  end.

Definition isnum (c : Z) : bool := (48 <=? c) && (c <=? 57).

(** How many characters are left without the digits at the end; [None]: the
    code looks before the start of the buffer. *)
Fixpoint strip_digits (rev : list Z) : option nat :=
  match rev with
  | [] => None
  | c :: r => if isnum c then strip_digits r else Some (S (length r))
  end.

(** What the code writes to [*unit], and the name for the device with the
    device.  [canon] has 16 bytes. *)
Definition find_iop_device (dev : list Z) : MI (option Z * option (list Z * nat)) :=
  match split_colon (skip_to_last_space dev) with
  | None => ret (None, None)
  | Some (canon, filename) =>
      if (16 <=? length canon)%nat then undef
      else
        match strip_digits (rev canon) with
        | None => undef
        | Some len =>
            let num := if (len =? length canon)%nat then 0 else strtol10 (drop len canon) in
            l <- gets dev_list ;;
            match find_from 0 (named (take len canon)) l with
            | None => ret (Some num, None)
            | Some i =>
                match l !! i with
                | Some (Some k) => ret (Some num, Some (filename, k))
                | _ => undef
                end
            end
        end
  end.

(** ** Files *)

(** A negative descriptor reads before the table. *)
Definition get_file (fd : Z) : MI (option nat) :=
  if Z.of_nat MAX_FILES <=? fd then ret None
  else if fd <? 0 then undef
  else
    f <- entry (Z.to_nat fd) ;;
    ret (match x_device f with DNull => None | _ => Some (Z.to_nat fd) end).

Definition get_new_file : MI (option nat) :=
  t <- gets file_table ;;
  match find_from 0 (fun f => bool_decide (x_device f = DNull)) (take MAX_FILES t) with
  | None => ret None
  | Some i => set_entry i (f_setDevice DMark) ;;; ret (Some i)
  end.

(** [open] and [dopen]: the name is looked up into the entry itself. *)
Definition open_common (name : list Z) (flags : Z) (call : iop_device_ops_t St Arg Out -> fptr -> list Z -> MI Z) : MI Z :=
  f <- get_new_file ;;
  match f with
  | None => ret (- EMFILE)
  | Some i =>
      let* (num, found) := find_iop_device name in
      match num with Some u => set_entry i (f_setUnit u) | None => ret tt end ;;;
      match found with
      | None => set_entry i (f_setDevice DNull) ;;; ret (- ENODEV)
      | Some (filename, k) =>
          set_entry i (f_setDevice (Dev k)) ;;;
          set_entry i (f_setMode flags) ;;;
          res <- call (d_ops (devices k)) (FTab i) filename ;;
          if 0 <=? res then ret (Z.of_nat i)
          else set_entry i (f_setMode 0) ;;; set_entry i (f_setDevice DNull) ;;; ret res
      end
  end.

Definition open (name : list Z) (flags mode : Z) : MI Z :=
  open_common name flags (fun o f filename => op_open _ _ _ o f filename flags mode).
Definition dopen (name : list Z) : MI Z := open_common name 8 (fun o f filename => op_dopen _ _ _ o f filename).

Definition close (fd : Z) : MI Z :=
  f <- get_file fd ;;
  match f with
  | None => ret (- EBADF)
  | Some i =>
      x <- entry i ;;
      o <- ops_of (x_device x) ;;
      res <- (if nz (Z.land (f_mode (x_file x)) 8) then op_dclose _ _ _ o (FTab i) else op_close _ _ _ o (FTab i)) ;;
      set_entry i (f_setMode 0) ;;;
      set_entry i (f_setDevice DNull) ;;;
      ret res
  end.

(** A call on an open file: [bad] when there is none, and [pre] of its mode
    when that is an early return. *)
Definition on_file {A} (fd : Z) (bad : A) (pre : Z -> option A)
  (call : iop_device_ops_t St Arg Out -> Z -> fptr -> MI A) : MI A :=
  f <- get_file fd ;;
  match f with
  | None => ret bad
  | Some i =>
      x <- entry i ;;
      match pre (f_mode (x_file x)) with
      | Some r => ret r
      | None => d <- deref_dev (x_device x) ;; call (d_ops d) (d_type d) (FTab i)
      end
  end.

Definition if_bad {A} (b : bool) (r : A) : option A := if b then Some r else None.

(** Is the device of the extended kind? *)
Definition isExt (type : Z) : bool := Z.land type 0xF0000000 =? IOP_DT_FSEXT.

Definition read (fd addr : Z) (data : list Z) (size : Z) : MI (Z * list Z) :=
  on_file fd (- EBADF, data) (fun m => if_bad (Z.land m O_RDONLY =? 0) (- EBADF, data)) (fun o _ f => op_read _ _ _ o f addr data size).
Definition write (fd addr : Z) (data : list Z) (size : Z) : MI Z :=
  on_file fd (- EBADF) (fun m => if_bad (Z.land m O_WRONLY =? 0) (- EBADF)) (fun o _ f => op_write _ _ _ o f addr data size).
Definition bad_whence (whence : Z) : option Z := if_bad ((whence <? SEEK_SET) || (SEEK_END <? whence)) (- EINVAL).
Definition lseek (fd offset whence : Z) : MI Z :=
  on_file fd (- EBADF) (fun _ => bad_whence whence) (fun o _ f => op_lseek _ _ _ o f offset whence).
Definition lseek64 (fd offset whence : Z) : MI Z :=
  on_file fd (- EBADF) (fun _ => bad_whence whence) (fun o type f =>
    if negb (isExt type) then ret (-48) else op_lseek64 _ _ _ o f offset whence).
Definition ioctl (fd cmd : Z) (arg : Arg) : MI Z :=
  on_file fd (- EBADF) (fun _ => None) (fun o _ f => op_ioctl _ _ _ o f cmd arg).
Definition ioctl2 (fd cmd : Z) (arg : Arg) (out : Out) : MI (Z * Out) :=
  on_file fd (- EBADF, out) (fun _ => None) (fun o _ f => op_ioctl2 _ _ _ o f cmd arg).

(** The entry the older devices fill has no private words; the name is copied
    with [strncpy]. *)
Definition dread (fd : Z) (buf : iox_dirent_t) : MI (Z * iox_dirent_t) :=
  on_file fd (- EBADF, buf) (fun m => if_bad (Z.land m 8 =? 0) (- EBADF, buf)) (fun o type f =>
    if negb (isExt type) then
      let* (res, d) := op_dread _ _ _ o f junk_dirent in
      let t := xd_stat d in
      ret (res, mkXdirent (mkXstat (mode2modex (xs_mode t)) (xs_attr t) (xs_size t) (xs_ctime t) (xs_atime t)
                             (xs_mtime t) (xs_hisize t) (xs_private (xd_stat buf))) (xd_name d))
    else op_dread _ _ _ o f buf).

(** ** Names handed to a device *)

(** [iop_file_t file] on the stack, with unit and device set. *)
Definition stack_file (u : Z) (k : nat) : fptr := FStk (f_setDevice (Dev k) (f_setUnit u junk)).

Definition on_name {A} (name : list Z) (bad : A) (call : device -> fptr -> list Z -> MI A) : MI A :=
  let* (num, found) := find_iop_device name in
  match num, found with
  | Some u, Some (filename, k) => call (devices k) (stack_file u k) filename
  | _, _ => ret bad
  end.

(** The same for the calls only extended devices have. *)
Definition on_ext {A} (name : list Z) (err : Z -> A) (call : iop_device_ops_t St Arg Out -> fptr -> list Z -> MI A) : MI A :=
  on_name name (err (- ENODEV)) (fun d f filename =>
    if negb (isExt (d_type d)) then ret (err (-48)) else call (d_ops d) f filename).

Definition remove (name : list Z) : MI Z :=
  on_name name (- ENODEV) (fun d f filename => op_remove _ _ _ (d_ops d) f filename).

Definition path_common (name : list Z) (arg code : Z) : MI Z :=
  on_name name (- ENODEV) (fun d f filename =>
    if nz (Z.land code 0x100) && negb (isExt (d_type d)) then ret (-48)
    else
      let o := d_ops d in
      if code =? 4 then op_mkdir _ _ _ o f filename arg
      else if code =? 5 then op_rmdir _ _ _ o f filename
      else if code =? 0x103 then op_chdir _ _ _ o f filename
      else if code =? 0x106 then op_sync _ _ _ o f filename arg
      else ret (- EINVAL)).

Definition mkdir (name : list Z) (mode : Z) : MI Z := path_common name mode 4.
Definition rmdir (name : list Z) : MI Z := path_common name 0 5.
Definition chdir (name : list Z) : MI Z := path_common name 0 0x103.
Definition sync (dev : list Z) (flag : Z) : MI Z := path_common dev flag 0x106.

Definition getstat (name : list Z) (stat : iox_stat_t) : MI (Z * iox_stat_t) :=
  on_name name (- ENODEV, stat) (fun d f filename =>
    let* (res, stat) := op_getstat _ _ _ (d_ops d) f filename stat in
    ret (res, if (res =? 0) && negb (isExt (d_type d)) then with_mode (mode2modex (xs_mode stat)) stat else stat)).

(** The caller's [stat] is changed for an older device. *)
Definition chstat (name : list Z) (stat : iox_stat_t) (mask : Z) : MI (Z * iox_stat_t) :=
  on_name name (- ENODEV, stat) (fun d f filename =>
    let stat := if negb (isExt (d_type d)) then with_mode (modex2mode (xs_mode stat)) stat else stat in
    res <- op_chstat _ _ _ (d_ops d) f filename stat mask ;;
    ret (res, stat)).

Definition format (dev blockdev arg : list Z) (arglen : Z) : MI Z :=
  on_name dev (- ENODEV) (fun d f filename => op_format _ _ _ (d_ops d) f filename blockdev arg arglen).

Definition mount (fsname devname : list Z) (flag : Z) (arg : list Z) (arglen : Z) : MI Z :=
  on_ext fsname id (fun o f filename => op_mount _ _ _ o f filename devname flag arg arglen).
Definition umount (fsname : list Z) : MI Z := on_ext fsname id (fun o f filename => op_umount _ _ _ o f filename).
Definition devctl (name : list Z) (cmd : Z) (arg : Arg) (out : Out) : MI (Z * Out) :=
  on_ext name (fun e => (e, out)) (fun o f filename => op_devctl _ _ _ o f filename cmd arg).
Definition readlink (name : list Z) (out : list Z) (buflen : Z) : MI (Z * list Z) :=
  on_ext name (fun e => (e, out)) (fun o f filename => op_readlink _ _ _ o f filename out buflen).

(** [rename] and [symlink]: the new name may carry the same device. *)
Definition link_common (old new : list Z) (code : Z) : MI Z :=
  let* (num, found) := find_iop_device old in
  match num, found with
  | Some u, Some (filename, k) =>
      new_filename <- (match split_colon new with
                       | None => ret (Some new)
                       | Some _ =>
                           let* (num', found') := find_iop_device new in
                           match num', found' with
                           | Some u', Some (new_filename, k') =>
                               ret (if (u' =? u) && (k' =? k)%nat then Some new_filename else None)
                           | _, _ => ret None
                           end
                       end) ;;
      match new_filename with
      | None => ret (- ENXIO)
      | Some new_filename =>
          let d := devices k in
          if negb (isExt (d_type d)) then ret (-48)
          else if code =? 7 then op_rename _ _ _ (d_ops d) (stack_file u k) filename new_filename
          else op_symlink _ _ _ (d_ops d) (stack_file u k) filename new_filename
      end
  | _, _ => ret (- ENODEV)
  end.

Definition rename (old new : list Z) : MI Z := link_common old new 7.
Definition symlink (old new : list Z) : MI Z := link_common old new 8.
End Manager.
End IomanX.
