(* ===== verification/IomanProps.v ===== *)
(** * IomanProps: the descriptors of the I/O manager

    The table of open files refines a map from descriptors to devices: [open]
    takes the lowest free descriptor, [close] gives it back, the calls for whole
    file systems may have the device open and close files, and no other call
    changes the map.  What a device must keep for this is the class
    [FileDevice]. *)

From stdpp Require Import base numbers list gmap relations.
From Stdlib Require Import ZArith Lia RelationClasses.
From S2P Require Import Prelude ApaState Frame Ioman.

Open Scope Z_scope.
Open Scope c_scope.

Import IomanX.

Section Descriptors.
Context {W Arg Out : Type}.
Notation St := (iox W).
Notation MI := (M St).

(** The device of each entry of the table. *)
Definition devs (s : St) : list devptr := x_device <$> file_table s.

Definition same_devs (s s' : St) : Prop := devs s' = devs s.
#[export] Instance same_devs_preorder : PreOrder same_devs.
Proof. split; [by intros s|]. unfold same_devs. intros s1 s2 s3. congruence. Qed.

(** What is open, by descriptor. *)
Notation descriptors := (list (option nat)).

Definition dev_of (d : devptr) : option nat := match d with Dev k => Some k | _ => None end.
Definition fds (s : St) : descriptors := dev_of <$> devs s.

(** The table between calls: all there, and no file is half open. *)
Definition quiet (s : St) : Prop := length (file_table s) = MAX_FILES /\ Forall (fun d => d <> DMark) (devs s).

(** The lowest free descriptor. *)
Definition taken (t : descriptors) (i : nat) : Prop := forall j, (j < i)%nat -> exists k, t !! j = Some (Some k).
Definition lowest_free (t : descriptors) (i : nat) : Prop := t !! i = Some None /\ taken t i.

(** A file opened or closed. *)
Inductive fd_change : descriptors -> descriptors -> Prop :=
  | change_open t i k : lowest_free t i -> (i < MAX_FILES)%nat -> fd_change t (<[i := Some k]> t)
  | change_close t i k : t !! i = Some (Some k) -> fd_change t (<[i := None]> t).

(** Files opened and closed by calls of a device to the manager. *)
Definition nested (s s' : St) : Prop := quiet s -> quiet s' /\ rtc fd_change (fds s) (fds s').
#[export] Instance nested_preorder : PreOrder nested.
Proof.
  split; [by intros s HQ|]. intros s1 s2 s3 H1 H2 HQ. destruct (H1 HQ) as [HQ2 R1], (H2 HQ2) as [HQ3 R2]. split; [done|by etransitivity].
Qed.

(** What the operations of a device may do to the table: change the files, not
    which device has which entry.  Those for whole file systems may open and
    close files. *)
Class FileDevice (d : iop_device_t St Arg Out) := {
  fd_open f name flags mode : respects same_devs (op_open _ _ _ (d_ops d) f name flags mode);
  fd_close f : respects same_devs (op_close _ _ _ (d_ops d) f);
  fd_read f addr data size : respects same_devs (op_read _ _ _ (d_ops d) f addr data size);
  fd_write f addr data size : respects same_devs (op_write _ _ _ (d_ops d) f addr data size);
  fd_lseek f off wh : respects same_devs (op_lseek _ _ _ (d_ops d) f off wh);
  fd_lseek64 f off wh : respects same_devs (op_lseek64 _ _ _ (d_ops d) f off wh);
  fd_ioctl f cmd arg : respects same_devs (op_ioctl _ _ _ (d_ops d) f cmd arg);
  fd_ioctl2 f cmd arg : respects same_devs (op_ioctl2 _ _ _ (d_ops d) f cmd arg);
  fd_remove f name : respects same_devs (op_remove _ _ _ (d_ops d) f name);
  fd_mkdir f name mode : respects same_devs (op_mkdir _ _ _ (d_ops d) f name mode);
  fd_rmdir f name : respects same_devs (op_rmdir _ _ _ (d_ops d) f name);
  fd_dopen f name : respects same_devs (op_dopen _ _ _ (d_ops d) f name);
  fd_dclose f : respects same_devs (op_dclose _ _ _ (d_ops d) f);
  fd_dread f buf : respects same_devs (op_dread _ _ _ (d_ops d) f buf);
  fd_getstat f name st : respects same_devs (op_getstat _ _ _ (d_ops d) f name st);
  fd_chstat f name st mask : respects same_devs (op_chstat _ _ _ (d_ops d) f name st mask);
  fd_rename f old new : respects same_devs (op_rename _ _ _ (d_ops d) f old new);
  fd_symlink f old new : respects same_devs (op_symlink _ _ _ (d_ops d) f old new);
  fd_chdir f name : respects same_devs (op_chdir _ _ _ (d_ops d) f name);
  fd_sync f name flag : respects same_devs (op_sync _ _ _ (d_ops d) f name flag);
  fd_devctl f name cmd arg : respects same_devs (op_devctl _ _ _ (d_ops d) f name cmd arg);
  fd_readlink f name out len : respects same_devs (op_readlink _ _ _ (d_ops d) f name out len);
  fd_format f name block arg len : respects nested (op_format _ _ _ (d_ops d) f name block arg len);
  fd_mount f name dev flag arg len : respects nested (op_mount _ _ _ (d_ops d) f name dev flag arg len);
  fd_umount f name : respects nested (op_umount _ _ _ (d_ops d) f name)
}.

Context (devices : nat -> iop_device_t St Arg Out) (junk : iop_file) (junk_dirent : iox_dirent_t).
Context `{HD : forall k, FileDevice (devices k)}.

(** ** Calls *)

Inductive io_call :=
  | IOpen (name : list Z) (flags mode : Z)
  | IDopen (name : list Z)
  | IClose (fd : Z)
  | IRead (fd addr : Z) (data : list Z) (size : Z)
  | IWrite (fd addr : Z) (data : list Z) (size : Z)
  | ILseek (fd offset whence : Z)
  | ILseek64 (fd offset whence : Z)
  | IIoctl (fd cmd : Z) (arg : Arg)
  | IIoctl2 (fd cmd : Z) (arg : Arg) (out : Out)
  | IDread (fd : Z) (buf : iox_dirent_t)
  | IRemove (name : list Z)
  | IMkdir (name : list Z) (mode : Z)
  | IRmdir (name : list Z)
  | IChdir (name : list Z)
  | ISync (dev : list Z) (flag : Z)
  | IGetstat (name : list Z) (st : iox_stat_t)
  | IChstat (name : list Z) (st : iox_stat_t) (mask : Z)
  | IRename (old new : list Z)
  | ISymlink (old new : list Z)
  | IDevctl (name : list Z) (cmd : Z) (arg : Arg) (out : Out)
  | IReadlink (name : list Z) (out : list Z) (len : Z)
  | IFormat (dev blockdev arg : list Z) (arglen : Z)
  | IMount (fsname devname : list Z) (flag : Z) (arg : list Z) (arglen : Z)
  | IUmount (fsname : list Z).

Definition fst_of {A} (m : MI (Z * A)) : MI Z := let* (r, _) := m in ret r.

Definition io_run (c : io_call) : MI Z :=
  match c with
  | IOpen name flags mode => open devices name flags mode
  | IDopen name => dopen devices name
  | IClose fd => close devices fd
  | IRead fd addr data size => fst_of (read devices fd addr data size)
  | IWrite fd addr data size => write devices fd addr data size
  | ILseek fd off wh => lseek devices fd off wh
  | ILseek64 fd off wh => lseek64 devices fd off wh
  | IIoctl fd cmd arg => ioctl devices fd cmd arg
  | IIoctl2 fd cmd arg out => fst_of (ioctl2 devices fd cmd arg out)
  | IDread fd buf => fst_of (dread devices junk_dirent fd buf)
  | IRemove name => remove devices junk name
  | IMkdir name mode => mkdir devices junk name mode
  | IRmdir name => rmdir devices junk name
  | IChdir name => chdir devices junk name
  | ISync dev flag => sync devices junk dev flag
  | IGetstat name st => fst_of (getstat devices junk name st)
  | IChstat name st mask => fst_of (chstat devices junk name st mask)
  | IRename old new => rename devices junk old new
  | ISymlink old new => symlink devices junk old new
  | IDevctl name cmd arg out => fst_of (devctl devices junk name cmd arg out)
  | IReadlink name out len => fst_of (readlink devices junk name out len)
  | IFormat dev blockdev arg arglen => format devices junk dev blockdev arg arglen
  | IMount fsname devname flag arg arglen => mount devices junk fsname devname flag arg arglen
  | IUmount fsname => umount devices junk fsname
  end.

(** ** The abstract descriptors *)

(** [name] is "dev<unit>:path" for the device, after spaces. *)
Definition addresses (name : list Z) (k : nat) : Prop := exists spaces digits path,
  name = spaces ++ d_name (devices k) ++ digits ++ 58 :: path /\
  Forall (fun c => c = 32) spaces /\ Forall (fun c => isnum c = true) digits.

(** The descriptor a call names, and the name it opens. *)
Definition call_fd (c : io_call) : option Z :=
  match c with
  | IClose fd | IRead fd _ _ _ | IWrite fd _ _ _ | ILseek fd _ _ | ILseek64 fd _ _ | IIoctl fd _ _
  | IIoctl2 fd _ _ _ | IDread fd _ => Some fd
  | _ => None
  end.
Definition call_opens (c : io_call) : option (list Z) :=
  match c with IOpen name _ _ | IDopen name => Some name | _ => None end.
Definition call_closes (c : io_call) : bool := match c with IClose _ => true | _ => false end.
Definition call_mounts (c : io_call) : bool := match c with IFormat _ _ _ _ | IMount _ _ _ _ _ | IUmount _ => true | _ => false end.

Definition is_open (t : descriptors) (fd : Z) : Prop := 0 <= fd /\ exists k, t !! Z.to_nat fd = Some (Some k).

(** What a call may do, given the devices there are. *)
Inductive fd_step (l : list (option nat)) : io_call -> descriptors -> Z -> descriptors -> Prop :=
  | step_full c name t : call_opens c = Some name -> taken t MAX_FILES -> fd_step l c t (- EMFILE) t
  | step_open c name t i k : call_opens c = Some name -> lowest_free t i -> (i < MAX_FILES)%nat ->
      Some k ∈ l -> addresses name k -> fd_step l c t (Z.of_nat i) (<[i := Some k]> t)
  | step_refused c name t r : call_opens c = Some name -> r < 0 -> fd_step l c t r t
  | step_badfd c t fd : call_fd c = Some fd -> ~ is_open t fd -> fd_step l c t (- EBADF) t
  | step_close fd t r : is_open t fd -> fd_step l (IClose fd) t r (<[Z.to_nat fd := None]> t)
  | step_file c t fd r : call_fd c = Some fd -> is_open t fd -> call_closes c = false -> fd_step l c t r t
  | step_name c t r : call_fd c = None -> call_opens c = None -> call_mounts c = false -> fd_step l c t r t
  | step_mounts c t r t' : call_mounts c = true -> rtc fd_change t t' -> fd_step l c t r t'.

(** ** Names *)

Lemma skip_spaces s : exists spaces, s = spaces ++ skip_to_last_space s /\ Forall (fun c => c = 32) spaces.
Proof.
  induction s as [|c s (sp & E & H)]; [by exists []|]. simpl. destruct (Z.eqb_spec c 32) as [->|]; [|by exists []].
  destruct (_ =? _); [|by exists []]. exists (32 :: sp). split; [simpl; by rewrite <- E|by constructor].
Qed.

Lemma split_colon_app s a b : split_colon s = Some (a, b) -> s = a ++ 58 :: b.
Proof.
  revert a. induction s as [|c s IH]; intros a; [done|]. simpl. destruct (Z.eqb_spec c 58) as [->|]; [by intros [= <- <-]|].
  destruct (split_colon s) as [[a' b']|]; [|done]. intros [= <- <-]. simpl. f_equal. by apply IH.
Qed.

Lemma strip_digits_len r n : strip_digits r = Some n -> (n <= length r)%nat /\ Forall (fun c => isnum c = true) (take (length r - n) r).
Proof.
  induction r as [|c r IH]; [done|]. simpl. destruct (isnum c) eqn:E.
  - intros [H1 H2]%IH. split; [lia|]. replace (S (length r) - n)%nat with (S (length r - n)) by lia. by constructor.
  - intros [= <-]. rewrite Nat.sub_diag. split; [lia|constructor].
Qed.

Lemma find_from_Some {A} (test : A -> bool) l i j : find_from i test l = Some j ->
  exists a, (i <= j)%nat /\ l !! (j - i)%nat = Some a /\ test a = true /\
    forall n b, (n < j - i)%nat -> l !! n = Some b -> test b = false.
Proof.
  revert i. induction l as [|a l IH]; intros i; [done|]. simpl. destruct (test a) eqn:E.
  - intros [= ->]. exists a. rewrite Nat.sub_diag. split; [lia|]. split; [done|]. split; [done|]. lia.
  - intros (b & H1 & H2 & H3 & H4)%IH. exists b. replace (j - i)%nat with (S (j - S i)) by lia. split; [lia|].
    split; [done|]. split; [done|]. intros [|n] x Hn; [by intros [= <-]|]. apply H4. lia.
Qed.

Lemma find_from_None {A} (test : A -> bool) l i : find_from i test l = None -> forall n b, l !! n = Some b -> test b = false.
Proof.
  revert i. induction l as [|a l IH]; intros i; [done|]. simpl. destruct (test a) eqn:E; [done|].
  intros H [|n] b; [by intros [= <-]|]. by apply (IH (S i)).
Qed.

(** The lookup changes nothing, and what it finds is what the name says. *)
Lemma find_iop_device_spec name s r s' : find_iop_device devices name s = Done r s' ->
  s' = s /\ forall path k, r.2 = Some (path, k) -> Some k ∈ dev_list s /\ addresses name k.
Proof.
  unfold find_iop_device. destruct (skip_spaces name) as (sp & En & Hsp).
  destruct (split_colon _) as [[canon fn]|] eqn:Ec; [|by intros [= <- <-]]. apply split_colon_app in Ec.
  destruct (_ <=? _)%nat; [done|]. destruct (strip_digits _) as [len|] eqn:El; [|done].
  apply strip_digits_len in El as [Hl Hd]. rewrite length_rev in Hl, Hd. unfold bind, gets.
  destruct (find_from _ _ _) as [i|] eqn:Ef; [|by intros [= <- <-]]. apply find_from_Some in Ef as (d & _ & Hd1 & Hd2 & _).
  rewrite Nat.sub_0_r in Hd1. rewrite Hd1. destruct d as [k|]; [|done]. intros [= <- <-]. split; [done|].
  intros path k' [= <- <-]. split; [by eapply list_elem_of_lookup_2|]. exists sp, (drop len canon), fn.
  apply bool_decide_eq_true in Hd2. rewrite <- Hd2. split; [by rewrite (app_assoc (take _ _)), take_drop, <- Ec|].
  split; [done|]. rewrite <- (rev_involutive canon), skipn_rev, length_rev. by apply Forall_rev.
Qed.

(** ** Which entry has which device *)

Lemma devs_entry i s f s' : entry i s = Done f s' -> s' = s /\ devs s !! i = Some (x_device f).
Proof.
  unfold entry, devs. rewrite list_lookup_fmap. destruct (file_table s !! i); [|done]. by intros [= -> ->].
Qed.

Lemma devs_set_entry i g s u s' : set_entry i g s = Done u s' ->
  exists f, file_table s !! i = Some f /\ dev_list s' = dev_list s /\ devs s' = <[i := x_device (g f)]> (devs s).
Proof.
  unfold set_entry, devs. destruct (file_table s !! i) as [f|] eqn:E; [|done]. intros [= _ <-]. exists f.
  split; [done|]. split; [done|]. simpl. apply list_fmap_insert.
Qed.

Lemma devs_set_entry_same i g : (forall f, x_device (g f) = x_device f) -> respects same_devs (set_entry (W := W) i g).
Proof.
  intros Hg s u s' (f & E & _ & H)%devs_set_entry. unfold same_devs. rewrite H, Hg. apply list_insert_id.
  unfold devs. by rewrite list_lookup_fmap, E.
Qed.
Lemma devs_setMode i m : respects same_devs (set_entry (W := W) i (f_setMode m)).
Proof. by apply devs_set_entry_same. Qed.
Lemma devs_setUnit i u : respects same_devs (set_entry (W := W) i (f_setUnit u)).
Proof. by apply devs_set_entry_same. Qed.

Lemma devs_get_entry i : respects same_devs (entry (W := W) i).
Proof. by intros s f s' [-> _]%devs_entry. Qed.
Lemma devs_find name : respects same_devs (find_iop_device devices name).
Proof. by intros s f s' [-> _]%find_iop_device_spec. Qed.

#[local] Hint Resolve devs_get_entry devs_find devs_setMode devs_setUnit : frame_db.
#[local] Hint Resolve fd_open fd_close fd_read fd_write fd_lseek fd_lseek64 fd_ioctl fd_ioctl2 fd_remove fd_mkdir fd_rmdir
  fd_dopen fd_dclose fd_dread fd_getstat fd_chstat fd_rename fd_symlink fd_chdir fd_sync fd_devctl fd_readlink : frame_db.

(** The calls on a name. *)
Lemma devs_on_name {A} name (bad : A) call :
  (forall k f path, respects same_devs (call (devices k) f path)) -> respects same_devs (on_name devices junk name bad call).
Proof. intros Hc. unfold on_name. respects_tac; apply Hc. Qed.

Lemma devs_link old new code : respects same_devs (link_common devices junk old new code).
Proof. unfold link_common. respects_tac. Qed.

Lemma devs_names c : call_fd c = None -> call_opens c = None -> call_mounts c = false -> respects same_devs (io_run c).
Proof.
  destruct c; try discriminate; intros _ _ _; unfold io_run, fst_of, remove, mkdir, rmdir, chdir, sync, path_common,
    getstat, chstat, rename, symlink, devctl, readlink, on_ext;
    repeat first [match goal with
                  | |- respects _ (on_name _ _ _ _ _) => apply devs_on_name; intros ? ? ?
                  | |- respects _ (link_common _ _ _ _ _) => apply devs_link
                  end | respects_step].
Qed.

(** The calls for whole file systems. *)
Lemma nested_mounts c : call_mounts c = true -> respects nested (io_run c).
Proof.
  assert (Hn : forall (A : Type) name (bad : A) call, (forall k f path, respects nested (call (devices k) f path)) -> respects nested (on_name devices junk name bad call)).
  { intros A name bad call Hc s a s' H. apply bind_inv in H as ([num found] & s1 & [-> _]%find_iop_device_spec & H). revert H.
    destruct num as [u|], found as [[path k]|]; [apply Hc|intros [= _ <-]; reflexivity..]. }
  destruct c; try discriminate; intros _; unfold io_run, format, mount, umount, on_ext; apply Hn; intros k f path; [apply fd_format|..];
    (destruct (negb _); [intros ? ? ? [= _ <-]; reflexivity|]); [apply fd_mount|apply fd_umount].
Qed.

(** The calls on a descriptor. *)
Lemma get_file_spec fd s r s' : quiet s -> get_file fd s = Done r s' -> s' = s /\
  match r with
  | None => ~ is_open (fds s) fd
  | Some i => i = Z.to_nat fd /\ is_open (fds s) fd
  end.
Proof.
  intros [HL HM]. unfold get_file, is_open, fds. destruct (Z.leb_spec (Z.of_nat MAX_FILES) fd); [intros [= <- <-]; split; [done|]|].
  - intros [H1 [k Hk%lookup_lt_Some]]. unfold devs in Hk. rewrite !length_fmap, HL in Hk. lia.
  - destruct (Z.ltb_spec fd 0); [done|]. unfold bind. destruct (entry _ s) as [f s1| |] eqn:E; [|done..].
    intros [= <- <-]. apply devs_entry in E as [-> E]. split; [done|]. rewrite list_lookup_fmap, E.
    destruct (x_device f) as [| |k]; simpl; [by intros [_ [k Hk]]| |by eauto].
    by destruct (proj1 (Forall_lookup _ _) HM _ _ E).
Qed.

Lemma same_devs_quiet s s' : same_devs s s' -> quiet s -> quiet s' /\ fds s' = fds s.
Proof.
  unfold same_devs, quiet, fds. intros E [H1 H2]. rewrite E. split; [split; [|done]|done]. rewrite <- H1.
  apply (f_equal length) in E. unfold devs in E. by rewrite !length_fmap in E.
Qed.

(** An entry given a device, or none. *)
Lemma quiet_insert s i d s' : quiet s -> d <> DMark -> devs s' = <[i := d]> (devs s) ->
  quiet s' /\ fds s' = <[i := dev_of d]> (fds s).
Proof.
  intros [HL HM] Hd E. unfold quiet, fds. rewrite E. split; [|apply list_fmap_insert].
  split; [|by apply Forall_insert]. apply (f_equal length) in E. unfold devs in E.
  by rewrite length_insert, !length_fmap, HL in E.
Qed.

Lemma devs_deref {A} d (k : iop_device_t St Arg Out -> MI A) :
  (forall n, respects same_devs (k (devices n))) -> respects same_devs (bind (deref_dev devices d) k).
Proof. intros Hk. destruct d as [| |k0]; [by intros s a s' H..|]. intros s a s' H. by apply (Hk k0 s a s'). Qed.

Lemma on_file_step {A} fd (bad : A) pre call s r s' :
  (forall k f, respects same_devs (call (d_ops (devices k)) (d_type (devices k)) f)) ->
  quiet s -> on_file devices fd bad pre call s = Done r s' ->
  same_devs s s' /\ (is_open (fds s) fd \/ ~ is_open (fds s) fd /\ r = bad).
Proof.
  intros Hc HQ H. apply bind_inv in H as (o & s1 & Hg & H). destruct (get_file_spec _ _ _ _ HQ Hg) as [-> Hg'].
  destruct o as [i|]; [|injection H as <- <-; split; [done|by right]]. destruct Hg' as [-> Ho]. split; [|by left].
  revert H. apply (respects_bind same_devs); [by auto with frame_db|]. intros x. destruct (pre _); [by apply respects_ret, _|].
  apply devs_deref. auto.
Qed.

Lemma devs_files c fd s r s' : call_fd c = Some fd -> call_closes c = false -> quiet s -> io_run c s = Done r s' ->
  same_devs s s' /\ (is_open (fds s) fd \/ ~ is_open (fds s) fd /\ r = - EBADF).
Proof.
  destruct c; try discriminate; intros [= <-] _ HQ; unfold io_run, fst_of, read, write, lseek, lseek64, ioctl, ioctl2, dread;
    intros H; try (apply bind_inv in H as ([r1 o1] & s1 & H & [= <- <-])).
  all: apply on_file_step in H; [|intros k f; respects_tac|done].
  all: destruct H as [HR H]; split; [done|]; destruct H as [H|[H E]]; [by left|right; split; [done|congruence]].
Qed.

Lemma close_step fd s r s' : quiet s -> close devices fd s = Done r s' ->
  quiet s' /\ (is_open (fds s) fd /\ fds s' = <[Z.to_nat fd := None]> (fds s) \/ ~ is_open (fds s) fd /\ r = - EBADF /\ s' = s).
Proof.
  intros HQ H. apply bind_inv in H as (o & s1 & Hg & H). destruct (get_file_spec _ _ _ _ HQ Hg) as [-> Hg'].
  destruct o as [i|]; [|injection H as <- <-; split; [done|by right]]. destruct Hg' as [-> Ho].
  apply bind_inv in H as (x & s1 & [-> Hx]%devs_entry & H). apply bind_inv in H as (o & s1 & Hd & H).
  apply bind_inv in H as (res & s2 & Hc & H). apply bind_inv in H as (u & s3 & Hm & H). apply bind_inv in H as (u' & s4 & Hn & H).
  injection H as <- <-. apply devs_setMode in Hm.
  assert (Hs : same_devs s s3).
  { transitivity s2; [|done]. revert Hd Hc. unfold ops_of, deref_dev, bind. destruct (x_device x) as [| |k]; [done..|].
    intros [= <- <-]. destruct (nz _); intros Hc; [by eapply fd_dclose|by eapply fd_close]. }
  apply devs_set_entry in Hn as (f & _ & _ & En). rewrite Hs in En.
  apply quiet_insert in En as [HQ' Ef]; [|done..]. split; [done|by left].
Qed.

Lemma get_new_file_spec s r s' : quiet s -> get_new_file s = Done r s' ->
  match r with
  | None => s' = s /\ taken (fds s) MAX_FILES
  | Some i => (i < MAX_FILES)%nat /\ lowest_free (fds s) i /\ devs s !! i = Some DNull /\
      dev_list s' = dev_list s /\ devs s' = <[i := DMark]> (devs s)
  end.
Proof.
  intros [HL HM] H. unfold get_new_file, bind, gets in H. rewrite take_ge in H by lia.
  assert (Hdev : forall j, (j < MAX_FILES)%nat -> exists f, file_table s !! j = Some f /\
    (bool_decide (x_device f = DNull) = false -> exists k, fds s !! j = Some (Some k))).
  { intros j Hj. destruct (lookup_lt_is_Some_2 (file_table s) j) as [f E]; [lia|]. exists f. split; [done|].
    intros Hn%bool_decide_eq_false. unfold fds, devs in *. rewrite !list_lookup_fmap, E. simpl.
    rewrite Forall_fmap in HM. apply (proj1 (Forall_lookup _ _) HM) in E. simpl in E. destruct (x_device f); [done..|by eexists]. }
  destruct (find_from _ _ _) as [i|] eqn:E.
  - apply find_from_Some in E as (f & _ & E & Et%bool_decide_eq_true & Hlow). rewrite Nat.sub_0_r in *.
    apply bind_inv in H as (u & s1 & (f' & _ & Hl & Hs)%devs_set_entry & [= <- <-]).
    assert (Hi : (i < MAX_FILES)%nat) by (apply lookup_lt_Some in E; lia).
    assert (Ed : devs s !! i = Some DNull) by (unfold devs; by rewrite list_lookup_fmap, E, <- Et).
    split; [done|]. split; [|done]. split; [unfold fds; by rewrite list_lookup_fmap, Ed|].
    intros j Hj. destruct (Hdev j) as (g & Hg & Hk); [lia|]. apply Hk. by eapply Hlow.
  - injection H as <- <-. split; [done|]. intros j Hj. destruct (Hdev j Hj) as (g & Hg & Hk). apply Hk.
    exact (find_from_None _ _ _ E j g Hg).
Qed.

Lemma open_step name flags call s r s' :
  (forall k f path, respects same_devs (call (d_ops (devices k)) f path)) ->
  quiet s -> open_common devices name flags call s = Done r s' ->
  quiet s' /\ (fds s' = fds s /\ (r = - EMFILE /\ taken (fds s) MAX_FILES \/ r < 0) \/
    exists i k, lowest_free (fds s) i /\ (i < MAX_FILES)%nat /\ r = Z.of_nat i /\ Some k ∈ dev_list s /\ addresses name k /\
      fds s' = <[i := Some k]> (fds s)).
Proof.
  intros Hc HQ H. apply bind_inv in H as (o & s1 & Hg & H). apply get_new_file_spec in Hg; [|done].
  destruct o as [i|]; [|destruct Hg as [-> Hg]; injection H as <- <-; split; [done|]; left; auto].
  destruct Hg as (Hi & Hlow & Ei & El & E1). apply bind_inv in H as ([num found] & s2 & [-> Hf]%find_iop_device_spec & H).
  apply bind_inv in H as (u & s2 & Hu & H).
  assert (E2 : devs s2 = devs s1) by (destruct num; [by apply devs_setUnit in Hu|by injection Hu as _ <-]).
  destruct found as [[path k]|].
  - specialize (Hf path k eq_refl) as [Hin Hk]. apply bind_inv in H as (u1 & s3 & (f3 & _ & _ & E3)%devs_set_entry & H).
    apply bind_inv in H as (u2 & s4 & E4%devs_setMode & H). apply bind_inv in H as (res & s5 & E5%Hc & H).
    assert (E : devs s5 = <[i := Dev k]> (devs s)) by (rewrite E5, E4, E3, E2, E1; apply list_insert_insert_eq).
    destruct (Z.leb_spec 0 res).
    + injection H as <- <-. apply quiet_insert in E as [HQ' Ef]; [|done..]. split; [done|]. right. exists i, k.
      rewrite <- El. auto 10.
    + apply bind_inv in H as (u3 & s6 & E6%devs_setMode & H). apply bind_inv in H as (u4 & s7 & (f7 & _ & _ & E7)%devs_set_entry & [= <- <-]).
      assert (Hs : same_devs s s7) by (unfold same_devs; rewrite E7, E6, E, list_insert_insert_eq; by apply list_insert_id).
      destruct (same_devs_quiet _ _ Hs HQ). auto.
  - apply bind_inv in H as (u1 & s3 & (f3 & _ & _ & E3)%devs_set_entry & [= <- <-]).
    assert (Hs : same_devs s s3) by (unfold same_devs; rewrite E3, E2, E1, list_insert_insert_eq; by apply list_insert_id).
    destruct (same_devs_quiet _ _ Hs HQ). split; [done|]. left. split; [done|]. by right.
Qed.

(** So a device that opens or closes files when it mounts keeps the class. *)
Lemma same_devs_nested {A} (m : MI A) : respects same_devs m -> respects nested m.
Proof. intros Hm s a s' H HQ. destruct (same_devs_quiet _ _ (Hm _ _ _ H) HQ) as [HQ' ->]. split; [done|reflexivity]. Qed.

Lemma nested_open name flags mode : respects nested (open devices name flags mode).
Proof.
  intros s r s' H HQ. apply open_step in H as [HQ' H]; [|intros k f path; apply fd_open|done]. split; [done|].
  destruct H as [[-> _]|(i & k & Hl & Hi & _ & _ & _ & ->)]; [reflexivity|]. by apply rtc_once, change_open.
Qed.
Lemma nested_close fd : respects nested (close devices fd).
Proof.
  intros s r s' H HQ. apply close_step in H as [HQ' H]; [|done]. split; [done|].
  destruct H as [[[_ [k Hk]] ->]|(_ & _ & ->)]; [|reflexivity]. by apply rtc_once, (change_close _ _ k).
Qed.

(** A descriptor that is not open; a negative one is read before the table. *)
Lemma get_file_closed fd s : quiet s -> ~ is_open (fds s) fd -> get_file fd s = if fd <? 0 then Undef else Done None s.
Proof.
  intros [HL HM] Hn. unfold get_file. destruct (Z.leb_spec (Z.of_nat MAX_FILES) fd) as [H|H].
  { by rewrite (proj2 (Z.ltb_ge fd 0)) by lia. }
  destruct (Z.ltb_spec fd 0); [done|]. unfold bind, entry. destruct (lookup_lt_is_Some_2 (file_table s) (Z.to_nat fd)) as [f Hf]; [lia|]. rewrite Hf.
  destruct (x_device f) as [| |k] eqn:Ed; [done| |].
  - exfalso. unfold devs in HM. rewrite Forall_fmap in HM. by apply (proj1 (Forall_lookup _ _) HM (Z.to_nat fd) f Hf).
  - exfalso. apply Hn. split; [done|]. exists k. unfold fds, devs. rewrite !list_lookup_fmap, Hf. cbn. by rewrite Ed.
Qed.

Lemma closed_call c fd s : quiet s -> call_fd c = Some fd -> ~ is_open (fds s) fd -> io_run c s = if fd <? 0 then Undef else Done (- EBADF) s.
Proof.
  intros HQ Hc Hn. destruct c; try discriminate; injection Hc as ->; unfold io_run, fst_of, read, write, lseek, lseek64, ioctl, ioctl2, dread, close, on_file, bind;
    rewrite (get_file_closed fd s HQ Hn); by destruct (fd <? 0).
Qed.

(** C40: the table of open files implements a map from descriptors to
    devices.  Between calls every entry is free or has a device.  [open] and
    [dopen] take the lowest free descriptor, for a device of the list that the
    name addresses, or leave the map as it was and return an error, -EMFILE
    when there is no free one; [close] frees its descriptor even when the
    device reports an error.  [format], [mount] and [umount] change the map
    only by whole opens and closes, those of the device they call; no other
    call on a file or a name changes it.  A call on a descriptor that is not
    open returns -EBADF and changes nothing, but for a negative one, which the
    code looks up before the start of the table. *)
Theorem descriptors_refine c s : quiet s ->
  (forall r s', io_run c s = Done r s' -> quiet s' /\ fd_step (dev_list s) c (fds s) r (fds s')) /\
  (forall fd, call_fd c = Some fd -> ~ is_open (fds s) fd -> io_run c s = if fd <? 0 then Undef else Done (- EBADF) s).
Proof.
  intros HQ. split; [intros r s' H|by intros fd; apply closed_call]. destruct (call_opens c) as [name|] eqn:Eo.
  - assert (Ho : exists flags call, (forall k f path, respects same_devs (call (d_ops (devices k)) f path)) /\
      io_run c s = open_common devices name flags call s).
    { destruct c as [n flags mode|n| | | | | | | | | | | | | | | | | | | | | |]; try discriminate; injection Eo as ->.
      - exists flags, (fun o f path => op_open _ _ _ o f path flags mode). split; [|done]. intros k f path. apply fd_open.
      - exists 8, (fun o f path => op_dopen _ _ _ o f path). split; [|done]. intros k f path. apply fd_dopen. }
    destruct Ho as (flags & call & Hc & E). rewrite E in H. apply open_step in H as [HQ' H]; [|done..]. split; [done|].
    destruct H as [[-> [[-> Ht]|Hr]]|(i & k & Hl & Hi & -> & Hin & Hk & ->)].
    + by eapply step_full.
    + by eapply step_refused.
    + by eapply step_open.
  - destruct (call_fd c) as [fd|] eqn:Ec.
    + destruct (call_closes c) eqn:Ecl.
      * destruct c; try discriminate. injection Ec as ->. apply close_step in H as [HQ' H]; [|done]. split; [done|].
        destruct H as [[Ho ->]|(Ho & -> & ->)]; [by apply step_close|by eapply step_badfd].
      * apply (devs_files c fd) in H as [HR H]; [|done..]. destruct (same_devs_quiet _ _ HR HQ) as [HQ' ->]. split; [done|].
        destruct H as [H|[H ->]]; [by eapply step_file|by eapply step_badfd].
    + destruct (call_mounts c) eqn:Em.
      * apply nested_mounts in H; [|done]. destruct (H HQ) as [HQ' HR]. split; [done|by apply step_mounts].
      * apply devs_names in H; [|done..]. destruct (same_devs_quiet _ _ H HQ) as [HQ' ->]. split; [done|by apply step_name].
Qed.
End Descriptors.
