(* ===== verification/IoHdd.v ===== *)
(** * IoHdd: the hard disk as a device of the I/O manager

    The table [hddOps] of iop/hdd/apa/src/hdd.c in the list of devices of
    iomanX.  The driver sees the table of open files of the manager as its
    [files]; a file on the stack is one more.  The block device and the files
    of the pfs module are calls of the manager. *)

From stdpp Require Import base numbers list gmap.
From Stdlib Require Import ZArith Lia.
From S2P Require Import Prelude Ata ApaState ApaCache ApaPart Hdd HddFio PfsState PfsCache PfsHdd Pfs Ioman.

Open Scope Z_scope.
Open Scope c_scope.

Import IomanX.

(** The arguments of [ioctl2] and [devctl], and what they write. *)
Inductive hddArg := AIoctl2 (a : ioctl2Arg) | ADevctl (c : devctlCmd).
Inductive hddOut := OIoctl2 (b : option buf) | ODevctl (o : devctlOut).

Notation hddSt := (iox world).

(** The files the driver sees, and the number of the one it is called with. *)
Definition driver_files (f : fptr) (s : hddSt) : list iop_file_t * nat :=
  let t := x_file <$> file_table s in
  match f with
  | FTab i => (t, i)
  | FStk x => (t ++ [x_file x], length t)
  end.

(** The table after the call: the driver has changed its files. *)
Definition back (t : list iop_file) (fs : list iop_file_t) : list iop_file :=
  zip_with (fun x f => mkIop f (x_device x)) t fs.

Definition hdd_call {A} (f : fptr) (m : nat -> M world A) : M hddSt A := fun s =>
  let '(fs, i) := driver_files f s in
  match m i (with_files fs (rest s)) with
  | Done a w => Done a (mkIox (dev_list s) (back (file_table s) (files w)) w)
  | Undef => Undef
  | NoFuel => NoFuel
  end.

(** A call without a file. *)
Definition hdd_plain {A} (m : M world A) : M hddSt A := fun s =>
  match m (rest s) with
  | Done a w => Done a (set_rest w s)
  | Undef => Undef
  | NoFuel => NoFuel
  end.

Definition of_hdd_stat (s : HddFio.iox_stat_t) : iox_stat_t :=
  mkXstat (HddFio.st_mode s) (HddFio.st_attr s) (HddFio.st_size s) (HddFio.st_ctime s) (HddFio.st_atime s)
    (HddFio.st_mtime s) (HddFio.st_hisize s) [HddFio.st_private_0 s; 0; 0; 0; 0; HddFio.st_private_5 s].

(** The handler of the operations a disk does not have; what the caller
    passes is left as it is. *)
Definition hddUnsupported : M hddSt Z := ret (-1).

Section Ops.
Context (fuel : nat) (stack : apa_params_t).

(** User buffers are words to the driver. *)
Definition hddOps : iop_device_ops_t hddSt hddArg hddOut := {|
  op_init := hdd_plain hddInit;
  op_deinit := hdd_plain hddDeinit;
  op_format := fun f _ _ _ _ => hdd_call f (fun i => hddFormat fuel i);
  op_open := fun f name flags _ => hdd_call f (fun i => hddOpen fuel stack i name flags);
  op_close := fun f => hdd_call f hddClose;
  op_read := fun f _ data size =>
    hdd_call f (fun i => let* (r, b) := hddRead i (words_of_bytes data) size in ret (r, bytes_of_words b));
  op_write := fun f _ data size =>
    hdd_call f (fun i => let* (r, _) := hddWrite i (words_of_bytes data) size in ret r);
  op_lseek := fun f off whence => hdd_call f (fun i => hddLseek i off whence);
  op_ioctl := fun _ _ _ => hddUnsupported;
  op_remove := fun f name => hdd_call f (fun i => hddRemove fuel i name);
  op_mkdir := fun _ _ _ => hddUnsupported;
  op_rmdir := fun _ _ => hddUnsupported;
  op_dopen := fun f name => hdd_call f (fun i => hddDopen fuel stack i name);
  op_dclose := fun f => hdd_call f hddClose;
  op_dread := fun f d =>
    hdd_call f (fun i =>
      let* (r, name, st) := hddDread i in
      ret (r, mkXdirent (match st with Some st => of_hdd_stat st | None => xd_stat d end) (default (xd_name d) name)));
  op_getstat := fun f name st =>
    hdd_call f (fun i =>
      let* (r, o) := hddGetStat fuel i name in
      ret (r, match o with Some o => of_hdd_stat o | None => st end));
  op_chstat := fun _ _ _ _ => hddUnsupported;
  op_rename := fun f old new => hdd_call f (fun i => hddReName fuel i old new);
  op_chdir := fun _ _ => hddUnsupported;
  op_sync := fun _ _ _ => hddUnsupported;
  op_mount := fun _ _ _ _ _ _ => hddUnsupported;
  op_umount := fun _ _ => hddUnsupported;
  op_lseek64 := fun _ _ _ => hddUnsupported;
  op_devctl := fun f _ _ arg =>
    match arg with
    | ADevctl c => hdd_call f (fun i => let* (r, o) := hddDevctl fuel i c in ret (r, ODevctl o))
    | AIoctl2 _ => undef
    end;
  op_symlink := fun _ _ _ => hddUnsupported;
  op_readlink := fun _ _ out _ => r <- hddUnsupported ;; ret (r, out);
  op_ioctl2 := fun f cmd arg =>
    match arg with
    | AIoctl2 a => hdd_call f (fun i => let* (r, b) := hddIoctl2 fuel i cmd a in ret (r, OIoctl2 b))
    | ADevctl _ => undef
    end
|}.

Definition hddFioDev : iop_device_t hddSt hddArg hddOut := mkDev _ _ _ str_hdd (Z.lor 4 IOP_DT_FSEXT) hddOps.

(** ** The partition as the pfs module uses it *)

Definition io_ioctl2 (fd cmd : Z) (a : ioctl2Arg) : M hddSt (Z * option buf) :=
  let* (r, o) := IomanX.ioctl2 (fun _ => hddFioDev) fd cmd (AIoctl2 a) (OIoctl2 None) in
  ret (r, match o with OIoctl2 b => b | ODevctl _ => None end).

Definition io_device : BlockDevice hddSt := pfsBlockDeviceCallTable io_ioctl2.

Definition io_files : BlockFiles hddSt := {|
  bf_open := fun name flags => IomanX.open (fun _ => hddFioDev) name flags 0;
  bf_close := fun fd => IomanX.close (fun _ => hddFioDev) fd
|}.
End Ops.
