(* ===== verification/PfsHddStore.v ===== *)
(** * PfsHddStore: the partition manager keeps the interface of the pfs module

    One sector moved by [pfsHddTransfer]: through the I/O manager, [hddIoctl2],
    the checks of [ioctl2Transfer] and the retries of the ATA driver, with any
    faults of the drive.  This discharges [SectorStore] for the real stack. *)

From stdpp Require Import base numbers list gmap.
From Stdlib Require Import ZArith Lia.
From S2P Require Import Prelude Ata ApaState ApaCache ApaFacts ApaPart Hdd HddFio HddProps PfsState PfsCache PfsHdd PfsSector Ioman IoHdd.

Open Scope Z_scope.
Open Scope c_scope.

(** ** One sector of the drive *)

(** One sector moved, or not: the state after it. *)
Definition moved1 (device lba dir : Z) (b : buf) (st : ata_st) (r : Z) (b' : buf) (st' : ata_st) : Prop :=
  faults st' = faults st /\ lba48 st' = lba48 st /\
  if dir =? ATA_DIR_WRITE then
    b' = b /\ (disk st' = <[(device, lba) := b]> (disk st) \/ (r <> 0 /\ disk st' = disk st))
  else disk st' = disk st /\ (b' = sector_at st device lba \/ (r <> 0 /\ b' = b)).

Lemma moved1_trans device lba dir b st r b' st' r2 b2 st2 :
  moved1 device lba dir b st r b' st' -> moved1 device lba dir b' st' r2 b2 st2 -> moved1 device lba dir b st r2 b2 st2.
Proof.
  unfold moved1, sector_at. intros (F1 & L1 & H1) (F2 & L2 & H2). split; [congruence|]. split; [congruence|].
  destruct (_ =? _).
  - destruct H1 as [-> H1], H2 as [-> H2]. split; [done|]. destruct H2 as [-> |[Hr ->]].
    + left. destruct H1 as [-> |[_ ->]]; [apply insert_insert_eq|done].
    + destruct H1 as [-> |[_ ->]]; [by left|by right].
  - destruct H1 as [D1 H1], H2 as [D2 H2]. split; [congruence|]. rewrite <- D1.
    destruct H2 as [-> |[Hr ->]]; [by left|]. destruct H1 as [-> |[_ ->]]; [left; by rewrite D1|by right].
Qed.

Lemma dma_one device b lba select dir sector st : length b = 128%nat -> real_faults st -> disk_ok st ->
  forall lcyl hcyl, drive_lba (lba48 st device) sector lcyl hcyl select = lba ->
  exists started r b' st', drive_dma device b 1 sector lcyl hcyl select dir st = Done (started, r, b') st' /\
    moved1 device lba dir b st r b' st'.
Proof.
  intros Hb Hr Hd lcyl hcyl <-. unfold drive_dma. set (lba := drive_lba _ _ _ _ _).
  assert (HM : forall k r, ((k = 0)%nat -> r <> 0) -> (k <= 1)%nat ->
    let '(b', st') := drive_move device lba dir k b st in moved1 device lba dir b st r b' (bump st')).
  { intros k r Hk Hk1. unfold drive_move, moved1. pose proof (length_sector_at st device lba Hd) as HL.
    destruct k as [|[|k]]; [| |lia]; destruct (dir =? ATA_DIR_WRITE); simpl; (split; [done|split; [done|]]); (split; [done|]).
    - right. auto.
    - right. auto.
    - left. by rewrite take_ge by lia.
    - left. by rewrite drop_ge, !app_nil_r by lia. }
  destruct (faults st (ncmd st)) as [[r|k r]|] eqn:Ef.
  - eexists _, _, _, _. split; [done|]. apply Hr in Ef. specialize (HM 0%nat r ltac:(done) ltac:(lia)). by unfold drive_move in HM; destruct (dir =? _).
  - apply Hr in Ef. specialize (HM (Nat.min k (Z.to_nat 1)) r ltac:(done) ltac:(lia)).
    destruct (drive_move _ _ _ _ _ _) as [b' st']. eexists _, _, _, _. by split.
  - specialize (HM (Z.to_nat 1) 0 ltac:(done) ltac:(done)). destruct (drive_move _ _ _ _ _ _) as [b' st']. eexists _, _, _, _. by split.
Qed.

Lemma moved1_ok device lba dir b st r b' st' : length b = 128%nat -> disk_ok st -> real_faults st ->
  moved1 device lba dir b st r b' st' -> length b' = 128%nat /\ disk_ok st' /\ real_faults st'.
Proof.
  unfold moved1. intros Hb Hd Hr (F & L & H). unfold real_faults. rewrite F. pose proof (length_sector_at st device lba Hd) as HL.
  destruct (_ =? _).
  - destruct H as [-> H]. split; [done|]. split; [|done]. destruct H as [Hs|[_ Hs]]; unfold disk_ok; rewrite Hs; [|done].
    intros k s. rewrite lookup_insert_Some. intros [[_ <-]|[_ E]]; [done|by eapply Hd].
  - destruct H as [Hs H]. split; [by destruct H as [->|[_ ->]]|]. split; [unfold disk_ok; by rewrite Hs|done].
Qed.

Lemma retry_one device b lba dir sector lcyl hcyl select st : length b = 128%nat -> real_faults st -> disk_ok st ->
  drive_lba (lba48 st device) sector lcyl hcyl select = lba ->
  wp (ata_retry device b 1 sector lcyl hcyl select dir) st (fun '(r, b') st' => moved1 device lba dir b st r b' st').
Proof.
  intros Hb Hr Hd Hl. unfold ata_retry. apply wp_bind.
  assert (Hk : forall l r0 b0 s0, (l = [] -> moved1 device lba dir b st r0 b0 s0) ->
    (moved1 device lba dir b st r0 b0 s0 \/ (b0 = b /\ s0 = st)) ->
    wp (for_break l (fun (_ : Z) '(_, b1) =>
           let* (started, res, b') := drive_dma device b1 1 sector lcyl hcyl select dir in
           if negb started then ret (inr (res, b'))
           else if negb (res =? ATA_RES_ERR_ICRC) then ret (inr (res, b'))
           else ret (inl (res, b'))) (r0, b0)) s0
       (fun x s1 => let '(r, b') := match x with inl y => y | inr y => y end in moved1 device lba dir b st r b' s1)).
  { induction l as [|k l IH]; intros r0 b0 s0 H0 Hm; [by apply H0|]. simpl. apply wp_bind.
    assert (HB : length b0 = 128%nat /\ disk_ok s0 /\ real_faults s0 /\ lba48 s0 = lba48 st).
    { destruct Hm as [Hm|[-> ->]]; [|done]. pose proof Hm as (_ & L & _). by destruct (moved1_ok _ _ _ _ _ _ _ _ Hb Hd Hr Hm) as (? & ? & ?). }
    destruct HB as (B1 & B2 & B3 & B4).
    destruct (dma_one device b0 lba select dir sector s0 B1 B3 B2 lcyl hcyl ltac:(by rewrite B4)) as (started & r & b' & s1 & E & M1).
    assert (M2 : moved1 device lba dir b st r b' s1) by (destruct Hm as [Hm|[-> ->]]; [by eapply moved1_trans|done]).
    apply wp_bind. eapply wp_Done; [exact E|]. destruct started; simpl; [|by apply wp_ret].
    destruct (r =? _); simpl; apply wp_ret; [|done]. apply IH; auto. }
  eapply wp_mono; [apply Hk; [done|by right]|]. intros [[r b']|[r b']] s1 M1; by apply wp_ret.
Qed.

(** [ata_device_sector_io] of one sector, whatever the drive does. *)
Lemma sector_io_one device b lba dir st : length b = 128%nat -> real_faults st -> disk_ok st -> addressable st device lba 1 ->
  wp (ata_device_sector_io device b lba 1 dir) st (fun '(r, b') st' => moved1 device lba dir b st r b' st').
Proof.
  intros Hb Hr Hd Ha. unfold ata_device_sector_io. rewrite Hb. simpl. apply (wp_while _
    (fun x st1 => let '(r, done, b1, _, n) := x in (n = 0 /\ moved1 device lba dir b st r (done ++ b1) st1) \/ (x = (0, [], b, lba, 1) /\ st1 = st))
    (fun '(_, _, _, _, n) _ => Z.to_nat n)); [|by right|simpl; lia].
  intros [[[[r dn] b1] l1] n] s1 [[-> HM]|[[= -> -> -> -> ->] ->]]; unfold ata_sector_loop.
  - rewrite andb_false_r. by apply wp_ret.
  - apply wp_bind. unfold gets, wp at 1. simpl. pose proof (chunk_len_bounds (lba48 st device) 1 ltac:(lia)) as (_ & _ & Hc).
    rewrite (Hc ltac:(lia)). apply wp_bind. eapply wp_mono; [apply retry_one; [done|done|done|by eapply regs_lba]|].
    intros [r b'] s1 M1. apply wp_ret. destruct (moved1_ok _ _ _ _ _ _ _ _ Hb Hd Hr M1) as (HL & _ & _).
    split; [left; split; [done|]|vm_compute; lia]. by rewrite take_drop.
Qed.

(** ** An open partition *)

(** The device and the slot behind a descriptor. *)
Definition open_part (w : world) (fd : nat) : option (Z * hdd_file_slot_t) :=
  x ← files w !! fd; i ← f_privdata x; s ← hddFileSlots w !! i; Some (f_unit x, s).

(** The parts of the partition: inside the drive, apart from each other. *)
Record parts_ok (st : ata_st) (device : Z) (s : hdd_file_slot_t) : Prop := {
  po_subs : forall sub, 0 <= sub <= s_nsub s -> is_Some (s_parts s !! Z.to_nat sub);
  po_fit : forall k start len, s_parts s !! k = Some (start, len) -> addressable st device start len;
  po_apart : forall j k a la b lb, s_parts s !! j = Some (a, la) -> s_parts s !! k = Some (b, lb) -> j <> k ->
    a + la <= b \/ b + lb <= a
}.

Record hdd_open (w : world) (fd : nat) : Prop := {
  ho_sema : sema_free w;
  ho_disk : disk_ok (ata w);
  ho_words : forall k b, disk (ata w) !! k = Some b -> words_ok b;
  ho_faults : real_faults (ata w);
  ho_part : exists device s, open_part w fd = Some (device, s) /\ parts_ok (ata w) device s
}.

Definition hdd_sector (w : world) (fd : nat) (sub sec : Z) : buf :=
  match open_part w fd with
  | None => zeros 128
  | Some (device, s) =>
      match s_parts s !! Z.to_nat sub with
      | Some (start, len) =>
          if (0 <=? sub) && (0 <=? sec) && (sec <? len) then sector_at (ata w) device (start + sec) else zeros 128
      | None => zeros 128
      end
  end.

Lemma with_ata_part st w fd : open_part (with_ata st w) fd = open_part w fd.
Proof. done. Qed.

(** What one request does: refused, or one sector of the part moved. *)
Definition part_moved (w : world) (device : Z) (s : hdd_file_slot_t) (b : buf) (sub sec dir : Z) (r : Z) (b' : buf) (w' : world) : Prop :=
  exists st', w' = with_ata st' w /\ -100 < r /\
    ((r < 0 /\ b' = b /\ st' = ata w) \/
     exists start len r', s_parts s !! Z.to_nat sub = Some (start, len) /\ sec < len /\
       moved1 device (start + sec) dir b (ata w) r' b' st' /\ r = if nz r' then - EIO else 0).

Lemma ioctl2Transfer_one w device i s b sub sec dir : disk_ok (ata w) -> real_faults (ata w) -> hddFileSlots w !! i = Some s ->
  parts_ok (ata w) device s -> length b = 128%nat -> 0 <= sub -> 0 <= sec < 2 ^ 32 - 1 ->
  wp (ioctl2Transfer device i (mkTransfer sub sec 1 dir b)) w (fun '(r, b') w' => part_moved w device s b sub sec dir r b' w').
Proof.
  intros Hd Hr Hs Ho Hb Hsub Hsec. unfold ioctl2Transfer. simpl.
  assert (Href : forall rv : Z, -100 < rv < 0 -> wp (ret (rv, b)) w (fun '(r, b') w' => part_moved w device s b sub sec dir r b' w')).
  { intros rv Hrv. apply wp_ret. cbv beta iota. unfold part_moved. exists (ata w). rewrite with_ata_id. split; [done|]. split; [lia|]. left. by split; [lia|]. }
  apply wp_bind. eapply wp_Done; [apply slot_Done, Hs|].
  destruct (Z.ltb_spec (s_nsub s) sub) as [Hn|Hn]; [by apply Href|].
  destruct (po_subs _ _ _ Ho sub ltac:(lia)) as [[start len] Hp].
  destruct (_ && _); [by apply Href|]. destruct (_ && _); [by apply Href|].
  apply wp_bind. eapply wp_Done; [apply part_Done; [exact Hp|lia]|]. cbn [fst snd].
  rewrite u32_small by (unfold is_u32; lia). destruct (Z.ltb_spec len (sec + 1)) as [|Hl]; [by apply Href|].
  pose proof (po_fit _ _ _ Ho _ _ _ Hp) as Ha.
  destruct (addressable_sub _ _ _ _ sec 1 0 Ha ltac:(lia) ltac:(lia) Hl) as [Ha' _].
  rewrite u32_small in * by (unfold is_u32, addressable in *; lia).
  destruct (wp_inv _ _ _ (sector_io_one device b (start + sec) dir (ata w) Hb Hr Hd Ha')) as ([r b'] & st' & E & HM).
  apply wp_bind. eapply wp_Done; [unfold ata_op; by rewrite E|].
  cbv beta iota. destruct (nz r) eqn:En; apply wp_ret; unfold part_moved; exists st'; (split; [done|]); (split; [done|]); right; exists start, len, r; rewrite En;
    (split; [done|split; [lia|done]]).
Qed.

(** The same through [hddIoctl2], which takes and gives back the lock. *)
Lemma hdd_transfer_one fuel w fd device s b sub sec dir : hdd_open w fd -> open_part w fd = Some (device, s) -> parts_ok (ata w) device s ->
  length b = 128%nat -> 0 <= sub -> 0 <= sec < 2 ^ 32 - 1 ->
  wp (hddIoctl2 fuel fd HIOCTRANSFER (ArgTransfer (mkTransfer sub sec 1 dir b))) w (fun '(r, ob) w' =>
    exists b', ob = Some b' /\ part_moved w device s b sub sec dir r b' w').
Proof.
  intros Hw Hp Ho Hb Hsub Hsec. unfold open_part in Hp.
  destruct (files w !! fd) as [x|] eqn:Ex; [|done]. simpl in Hp. destruct (f_privdata x) as [i|] eqn:Ei; [|done]. simpl in Hp.
  destruct (hddFileSlots w !! i) as [s'|] eqn:Es; [|done]. injection Hp as <- <-.
  unfold hddIoctl2. apply wp_bind. eapply wp_Done; [unfold file; by rewrite Ex|].
  apply wp_bind. apply wp_wait; [apply Hw|]. intros v Hv Hn. apply wp_bind. simpl. rewrite Ei. apply wp_bind. simpl. apply wp_ret. apply wp_bind.
  eapply wp_mono; [by apply (ioctl2Transfer_one (with_sema v w)); [apply Hw|apply Hw|exact Es|exact Ho|..]|].
  intros [r b'] w1 (st' & -> & Hr & HM). apply wp_ret. apply wp_bind. unfold SignalSema, modify, wp at 1. apply wp_ret. simpl. exists b'. split; [done|].
  assert (Er : s32 r = r).
  { assert (Hr0 : r <= 0) by (destruct HM as [(? & _)|(? & ? & r' & _ & _ & _ & ->)]; [lia|by destruct (nz r')]).
    unfold s32, u32. destruct (decide (r = 0)) as [->|Hz]; [done|].
    rewrite <- (Z.mod_unique_pos r (2 ^ 32) (-1) (r + 2 ^ 32)) by lia. destruct (Z.ltb_spec (r + 2 ^ 32) (2 ^ 31)); lia. }
  rewrite Er. unfold part_moved. exists st'. split; [|by split].
  destruct (ho_sema _ _ Hw) as [E|E], Hv as [-> | ->]; rewrite E in Hn;
    [|discriminate (proj1 Hn eq_refl)|discriminate (proj2 Hn eq_refl)|]; unfold with_sema, with_ata; simpl; by rewrite E.
Qed.

(** ** The interface *)

Lemma hdd_sector_ok w fd sub sec : hdd_open w fd -> length (hdd_sector w fd sub sec) = 128%nat /\ words_ok (hdd_sector w fd sub sec).
Proof.
  intros Hw. unfold hdd_sector. assert (HZ : length (zeros 128) = 128%nat /\ words_ok (zeros 128)) by (split; [done|apply words_ok_zeros]).
  destruct (open_part w fd) as [[device s]|]; [|done]. destruct (s_parts s !! _) as [[start len]|]; [|done].
  destruct (_ && _); [|done]. split; [apply length_sector_at, Hw|]. unfold sector_at.
  destruct (disk (ata w) !! _) eqn:E; [by eapply ho_words|apply HZ].
Qed.

(** A moved sector keeps the partition open. *)
Lemma hdd_open_moved w fd device lba dir b r b' st' : hdd_open w fd -> length b = 128%nat -> words_ok b ->
  moved1 device lba dir b (ata w) r b' st' -> hdd_open (with_ata st' w) fd /\ words_ok b' /\ length b' = 128%nat.
Proof.
  intros [H1 H2 H3 H4 (dv & s & H5 & H6)] Hb Hwb HM. destruct (moved1_ok _ _ _ _ _ _ _ _ Hb H2 H4 HM) as (L' & D' & F').
  destruct HM as (_ & L & HM). split; [split; simpl; [done|done| |done|]|split; [|done]].
  - destruct (dir =? _); [destruct HM as [_ [->|[_ ->]]]|destruct HM as [-> _]]; [|exact H3..].
    intros k c. rewrite lookup_insert_Some. intros [[_ <-]|[_ E]]; [done|by eapply H3].
  - exists dv, s. split; [done|]. destruct H6 as [P1 P2 P3]. split; [done| |done].
    intros k a la Ek. specialize (P2 _ _ _ Ek). unfold addressable in *. by rewrite L.
  - destruct (dir =? _); [by destruct HM as [-> _]|]. destruct HM as [_ [->|[_ ->]]]; [|done]. unfold sector_at.
    destruct (disk (ata w) !! _) eqn:E; [by eapply H3|apply words_ok_zeros].
Qed.

(** Another sector of the partition is another sector of the drive. *)
Lemma hdd_sector_other w fd device s st' sub sec start len b : open_part w fd = Some (device, s) -> parts_ok (ata w) device s ->
  s_parts s !! Z.to_nat sub = Some (start, len) -> 0 <= sub -> 0 <= sec < len ->
  (disk st' = disk (ata w) \/ disk st' = <[(device, start + sec) := b]> (disk (ata w))) ->
  forall sub' sec', (sub', sec') <> (sub, sec) -> hdd_sector (with_ata st' w) fd sub' sec' = hdd_sector w fd sub' sec'.
Proof.
  intros Hp Ho Hs Hsub Hsec HD sub' sec' Hn. unfold hdd_sector. rewrite with_ata_part, Hp.
  destruct (s_parts s !! Z.to_nat sub') as [[a la]|] eqn:Es'; [|done]. destruct (_ && _) eqn:EB; [|done].
  unfold sector_at. simpl. destruct HD as [-> | ->]; [done|]. rewrite lookup_insert_ne; [done|]. intros [= E].
  apply andb_prop in EB as [[EB1 EB2]%andb_prop EB3].
  destruct (decide (sub' = sub)) as [->|Hne]; [rewrite Hs in Es'; injection Es' as <- <-; apply Hn; f_equal; lia|].
  assert (Z.to_nat sub <> Z.to_nat sub') as Hnat by lia.
  destruct (po_apart _ _ _ Ho _ _ _ _ _ _ Hs Es' Hnat); lia.
Qed.

Lemma hdd_sector_at w fd device s sub sec start len : open_part w fd = Some (device, s) ->
  s_parts s !! Z.to_nat sub = Some (start, len) -> 0 <= sub -> 0 <= sec < len ->
  hdd_sector w fd sub sec = sector_at (ata w) device (start + sec).
Proof. intros Hp Hs Hsub Hsec. unfold hdd_sector. rewrite Hp, Hs. replace (_ && _) with true by lia. done. Qed.

Lemma hdd_write1 fuel w fd b sub sec : hdd_open w fd -> length b = 128%nat -> words_ok b -> 0 <= sub -> 0 <= sec < 2 ^ 32 - 1 ->
  wp (hddIoctl2 fuel fd HIOCTRANSFER (ArgTransfer (mkTransfer sub sec 1 PFS_IO_MODE_WRITE b))) w (fun '(r, ob) w' =>
    files w' = files w /\ ob = Some b /\ hdd_open w' fd /\ (r < 0 \/ r = 0 /\ hdd_sector w' fd sub sec = b) /\
    forall sub' sec', (sub', sec') <> (sub, sec) -> hdd_sector w' fd sub' sec' = hdd_sector w fd sub' sec').
Proof.
  intros Hw Hb Hwb Hsub Hsec. destruct (ho_part _ _ Hw) as (device & s & Hp & Ho).
  eapply wp_mono; [by apply (hdd_transfer_one fuel w fd device s)|].
  intros [r ob] w' (b' & -> & st' & -> & Hr & [(R1 & -> & ->)|(start & len & r' & Hs & Hl & HM & ->)]); (split; [done|]).
  - rewrite with_ata_id. split; [done|]. split; [done|]. split; [by left|done].
  - destruct (hdd_open_moved _ _ _ _ _ _ _ _ _ Hw Hb Hwb HM) as (Hw' & _ & _). destruct HM as (_ & _ & -> & HD).
    split; [done|]. split; [done|]. split.
    + destruct HD as [HD|[Hr' _]]; [|left; by rewrite (proj2 (nz_true r') Hr')].
      destruct (nz r'); [by left|right]. split; [done|].
      rewrite (hdd_sector_at (with_ata st' w) fd device s sub sec start len) by (done || lia).
      unfold sector_at. simpl. rewrite HD. by rewrite lookup_insert_eq.
    + apply (hdd_sector_other w fd device s st' sub sec start len b); [done..|lia|]. destruct HD as [HD|[_ HD]]; auto.
Qed.

Lemma hdd_read1 fuel w fd b sub sec : hdd_open w fd -> length b = 128%nat -> words_ok b -> 0 <= sub -> 0 <= sec < 2 ^ 32 - 1 ->
  wp (hddIoctl2 fuel fd HIOCTRANSFER (ArgTransfer (mkTransfer sub sec 1 PFS_IO_MODE_READ b))) w (fun '(r, ob) w' =>
    files w' = files w /\ hdd_open w' fd /\
    (exists b', ob = Some b' /\ length b' = 128%nat /\ words_ok b' /\ (r < 0 \/ r = 0 /\ b' = hdd_sector w fd sub sec)) /\
    forall sub' sec', hdd_sector w' fd sub' sec' = hdd_sector w fd sub' sec').
Proof.
  intros Hw Hb Hwb Hsub Hsec. destruct (ho_part _ _ Hw) as (device & s & Hp & Ho).
  eapply wp_mono; [by apply (hdd_transfer_one fuel w fd device s)|].
  intros [r ob] w' (b' & -> & st' & -> & Hr & [(R1 & -> & ->)|(start & len & r' & Hs & Hl & HM & ->)]); (split; [done|]).
  - rewrite with_ata_id. split; [done|]. split; [|done]. exists b. split; [done|]. split; [done|]. split; [done|by left].
  - destruct (hdd_open_moved _ _ _ _ _ _ _ _ _ Hw Hb Hwb HM) as (Hw' & W' & L'). destruct HM as (_ & _ & HD & HB).
    split; [done|]. split.
    + exists b'. split; [done|]. split; [done|]. split; [done|].
      destruct HB as [-> |[Hr' _]]; [|left; by rewrite (proj2 (nz_true r') Hr')]. destruct (nz r'); [by left|right].
      split; [done|]. symmetry. apply (hdd_sector_at w fd device s sub sec start len); (done || lia).
    + intros sub' sec'. unfold hdd_sector, sector_at. simpl. by rewrite HD.
Qed.

(** ** Through the I/O manager *)

Import IomanX.

(** The driver's state as it is entered from the manager. *)
Definition driver_view (s : hddSt) : world := with_files (x_file <$> file_table s) (rest s).

Record io_open (s : hddSt) (fd : Z) : Prop := {
  io_range : 0 <= fd < Z.of_nat MAX_FILES;
  io_entry : exists x k, file_table s !! Z.to_nat fd = Some x /\ x_device x = Dev k;
  io_hdd : hdd_open (driver_view s) (Z.to_nat fd)
}.

Definition io_sector (s : hddSt) (fd sub sec : Z) : buf := hdd_sector (driver_view s) (Z.to_nat fd) sub sec.

Lemma back_id t : back t (x_file <$> t) = t.
Proof. unfold back. induction t as [|[f d] t IH]; [done|]. simpl. f_equal. exact IH. Qed.

(** An [ioctl2] on an open partition is that of the driver. *)
Lemma io_ioctl2_run fuel stack s fd cmd a r b w' : io_open s fd ->
  hddIoctl2 fuel (Z.to_nat fd) cmd a (driver_view s) = Done (r, b) w' -> files w' = files (driver_view s) ->
  io_ioctl2 fuel stack fd cmd a s = Done (r, b) (mkIox (dev_list s) (file_table s) w') /\
  driver_view (mkIox (dev_list s) (file_table s) w') = w'.
Proof.
  intros Ho E Ef. destruct (io_range _ _ Ho) as [H0 H1], (io_entry _ _ Ho) as (x & k & Ex & Ek). split.
  - unfold io_ioctl2, IomanX.ioctl2, on_file, get_file. unfold bind at 1.
    replace (Z.of_nat MAX_FILES <=? fd) with false by lia. replace (fd <? 0) with false by lia.
    unfold entry. unfold bind. rewrite Ex, Ek. cbn [ret]. rewrite Ex. cbn [deref_dev ret]. rewrite Ek. cbn.
    unfold hdd_call. simpl. fold (driver_view s). unfold bind. rewrite E. cbn. rewrite Ef. simpl. by rewrite back_id.
  - unfold driver_view. simpl. destruct w'. simpl in *. by rewrite Ef.
Qed.

Lemma io_open_moved s fd w' : io_open s fd -> driver_view (mkIox (dev_list s) (file_table s) w') = w' ->
  hdd_open w' (Z.to_nat fd) -> io_open (mkIox (dev_list s) (file_table s) w') fd.
Proof. intros [H1 H2 _] Ev Hw. split; [done|done|]. by rewrite Ev. Qed.

Section Store.
Context (fuel : nat) (stack : apa_params_t).
Notation transfer := (pfsHddTransfer (io_ioctl2 fuel stack)).

Lemma io_write1 s fd b sub sec : io_open s fd -> length b = 128%nat -> words_ok b -> 0 <= sub -> 0 <= sec < 2 ^ 32 - 1 ->
  wp (transfer fd b sub sec 1 PFS_IO_MODE_WRITE) s (fun '(r, b') s' =>
    io_open s' fd /\ b' = b /\ (r < 0 \/ r = 0 /\ io_sector s' fd sub sec = b) /\
    forall sub' sec', (sub', sec') <> (sub, sec) -> io_sector s' fd sub' sec' = io_sector s fd sub' sec').
Proof.
  intros Ho Hb Hw Hsub Hsec.
  destruct (wp_inv _ _ _ (hdd_write1 fuel _ _ b sub sec (io_hdd _ _ Ho) Hb Hw Hsub Hsec)) as ([r ob] & w' & E & Ef & -> & Hw' & R & F).
  destruct (io_ioctl2_run fuel stack s fd _ _ _ _ _ Ho E Ef) as [E' Ev].
  unfold pfsHddTransfer. apply wp_bind. eapply wp_Done; [exact E'|]. apply wp_ret. unfold io_sector. rewrite Ev.
  split; [by apply io_open_moved|]. by split.
Qed.

Lemma io_read1 s fd b sub sec : io_open s fd -> length b = 128%nat -> words_ok b -> 0 <= sub -> 0 <= sec < 2 ^ 32 - 1 ->
  wp (transfer fd b sub sec 1 PFS_IO_MODE_READ) s (fun '(r, b') s' =>
    io_open s' fd /\ length b' = 128%nat /\ words_ok b' /\ (r < 0 \/ r = 0 /\ b' = io_sector s fd sub sec) /\
    forall sub' sec', io_sector s' fd sub' sec' = io_sector s fd sub' sec').
Proof.
  intros Ho Hb Hw Hsub Hsec.
  destruct (wp_inv _ _ _ (hdd_read1 fuel _ _ b sub sec (io_hdd _ _ Ho) Hb Hw Hsub Hsec))
    as ([r ob] & w' & E & Ef & Hw' & (b' & -> & L & W & R) & F).
  destruct (io_ioctl2_run fuel stack s fd _ _ _ _ _ Ho E Ef) as [E' Ev].
  unfold pfsHddTransfer. apply wp_bind. eapply wp_Done; [exact E'|]. apply wp_ret. unfold io_sector. rewrite Ev.
  split; [by apply io_open_moved|]. by split.
Qed.

(** The partition manager under the I/O manager, as the pfs module sees it. *)
Definition io_store : @SectorStore hddSt (io_device fuel stack).
Proof.
  refine (@Build_SectorStore hddSt (io_device fuel stack) io_sector io_open _ _ _).
  - intros s fd sub sec Ho. exact (hdd_sector_ok _ _ sub sec (io_hdd _ _ Ho)).
  - exact io_write1.
  - exact io_read1.
Defined.
End Store.
