(* ===== verification/Stack.v ===== *)
(** * Stack: the file system on the hard disk, through every layer

    The pfs module on the I/O manager, the partition manager and the ATA
    driver: parts of a sector, down to the sectors of the drive; and a session
    run from the start of the modules. *)

From stdpp Require Import base numbers list gmap.
From Stdlib Require Import ZArith Lia RelationClasses.
From S2P Require Import Prelude Ata ApaState ApaCache ApaPart Hdd HddFio HddProps HddScenario PfsState PfsCache PfsBitmap PfsInode PfsDir PfsSuper PfsHdd Pfs PfsFio PfsOps Scenario Frame PfsSector PfsSectorProps Ioman IoHdd PfsHddStore.

Open Scope Z_scope.
Open Scope c_scope.

Import IomanX.

(** ** What a transfer keeps *)

(** The open partitions of the driver. *)
Definition same_parts (w w' : world) : Prop := files w' = files w /\ hddFileSlots w' = hddFileSlots w.

#[export] Instance same_parts_preorder : PreOrder same_parts.
Proof. split; [by intros w|]. intros w1 w2 w3 [A1 A2] [B1 B2]. split; congruence. Qed.

Lemma transfer_parts fuel f a : respects same_parts (hddIoctl2 fuel f HIOCTRANSFER a).
Proof.
  assert (HF : respects same_parts (file f)) by (intros w x w' E; unfold file in E; destruct (files w !! f); [|done]; by injection E as _ <-).
  assert (HS : forall i, respects same_parts (slot i)).
  { intros i w x w' E. unfold slot in E. destruct (hddFileSlots w !! i); [|done]. by injection E as _ <-. }
  assert (HW : respects same_parts HddFio.WaitSema).
  { intros w x w' E. unfold HddFio.WaitSema in E. destruct (fioSema w) as [n|]; [destruct (0 <? n); [|done]|]; by injection E as _ <-. }
  assert (HG : respects same_parts HddFio.SignalSema) by (intros w x w' [= _ <-]; done).
  assert (HA : forall A (m : M ata_st A), respects same_parts (ata_op m)).
  { intros A m w x w' E. unfold ata_op in E. destruct (m (ata w)); [|done..]. by injection E as _ <-. }
  assert (HP : forall i s, respects same_parts (part i s)) by (intros; unfold part; respects_tac).
  unfold hddIoctl2. cbn [Z.eqb]. unfold ioctl2Transfer. respects_tac; try apply HF; try apply HS; try apply HW; try apply HG; try apply HA; try apply HP.
  all: match goal with E : (HIOCTRANSFER =? _) = _ |- _ => discriminate E end.
Qed.

(** The same through the manager. *)
Definition io_parts (s s' : hddSt) : Prop :=
  dev_list s' = dev_list s /\ file_table s' = file_table s /\ same_parts (driver_view s) (driver_view s').

#[export] Instance io_parts_preorder : PreOrder io_parts.
Proof. split; [by intros s|]. intros s1 s2 s3 (A1 & A2 & A3) (B1 & B2 & B3). split; [congruence|]. split; [congruence|]. by etrans. Qed.

Section Keep.
Context (fuel : nat) (stack : apa_params_t).

Lemma io_transfer_parts fd a : respects io_parts (io_ioctl2 fuel stack fd HIOCTRANSFER a).
Proof.
  unfold io_ioctl2, IomanX.ioctl2, on_file, get_file. 
  assert (HE : forall i, respects io_parts (entry (W := world) i)).
  { intros i s x s' E. unfold entry in E. destruct (file_table s !! i); [|done]. by injection E as _ <-. }
  assert (HC : forall i, respects io_parts (hdd_call (FTab i) (fun j => let* (r, b) := hddIoctl2 fuel j HIOCTRANSFER a in ret (r, OIoctl2 b)))).
  { intros i s x s' E. unfold hdd_call in E. simpl in E. fold (driver_view s) in E.
    destruct (bind _ _ (driver_view s)) as [y w'| |] eqn:Eb; [|done..]. injection E as _ <-.
    apply bind_inv in Eb as ([r b] & w1 & E1 & [= _ <-]). pose proof (transfer_parts _ _ _ _ _ _ E1) as [F1 F2].
    split; [done|]. simpl. rewrite F1. simpl. rewrite back_id. split; [done|]. split; [done|]. done. }
  assert (HD : forall dp i, respects io_parts (d <- deref_dev (fun _ => hddFioDev fuel stack) dp ;;
     op_ioctl2 _ _ _ (d_ops d) (FTab i) HIOCTRANSFER (AIoctl2 a))).
  { intros [| |k] i; [discriminate 1..|]. intros s x s' E. exact (HC i s x s' E). }
  repeat first [apply HD | apply HE | respects_step].
Qed.

(** The pfs module keeps the open partitions: only transfers reach the device. *)
Definition lib_parts (l l' : pfs_st hddSt) : Prop := io_parts (dev l) (dev l').
Definition dev_parts (w w' : pfs_world hddSt) : Prop := lib_parts (lib w) (lib w').

#[local] Instance lib_parts_preorder : PreOrder lib_parts.
Proof. split; [by intros w|]. intros w1 w2 w3 A B. unfold lib_parts in *. by etrans. Qed.
#[local] Instance dev_parts_preorder : PreOrder dev_parts.
Proof. split; [by intros w|]. intros w1 w2 w3 A B. unfold dev_parts in *. by etrans. Qed.

Lemma parts_pslot j : respects dev_parts (@pslot hddSt j).
Proof. intros w x w' E. unfold pslot in E. destruct (pfsFileSlots w !! j); [|done]. by injection E as _ <-. Qed.
Lemma parts_slotmod j f : respects dev_parts (@pslotmod hddSt j f).
Proof. intros w x w' E. unfold pslotmod in E. destruct (pfsFileSlots w !! j); [|done]. by injection E as _ <-. Qed.
Lemma parts_op {A} (m : M (pfs_st hddSt) A) : respects lib_parts m -> respects dev_parts (pfs_op m).
Proof. intros Hm w x w' E. unfold pfs_op in E. destruct (m (lib w)) as [y l| |] eqn:Em; [|done..]. injection E as _ <-. by apply Hm in Em. Qed.
Lemma parts_pget c : respects lib_parts (@pget hddSt c).
Proof. intros w x w' E. unfold pget in E. destruct (pfsCacheBuf w !! c); [|done]. by injection E as _ <-. Qed.
Lemma parts_mget c : respects lib_parts (@mget hddSt c).
Proof. intros w x w' E. unfold mget in E. destruct (pfsMountBuf w !! c); [|done]. by injection E as _ <-. Qed.
Lemma parts_transfer fd b sub sec n mode : respects lib_parts (bdev (@bd_transfer _ (io_device fuel stack) fd b sub sec n mode)).
Proof.
  intros l x l' E. unfold bdev in E. destruct (bd_transfer _ _ _ _ _ _ (dev l)) as [y d| |] eqn:Ed; [|done..]. injection E as _ <-.
  unfold bd_transfer in Ed. simpl in Ed. unfold pfsHddTransfer in Ed. apply bind_inv in Ed as ([r ob] & d1 & E1 & [= _ <-]).
  by apply io_transfer_parts in E1.
Qed.
Hint Resolve parts_pslot parts_slotmod parts_pget parts_mget parts_transfer : frame_db.
Hint Extern 2 (respects dev_parts (pfs_op _)) =>
  (apply parts_op; unfold pmount, pfsBlockGetCurrent, pdata; respects_tac) : frame_db.

Lemma parts_un_transfer i m mode : respects dev_parts (@un_transfer hddSt (io_device fuel stack) i m mode).
Proof. unfold un_transfer. respects_tac. Qed.
Hint Resolve parts_un_transfer : frame_db.

Lemma remainder_parts i data size op : respects dev_parts
  (@fileTransferRemainder hddSt (io_device fuel stack) i data size op).
Proof.
  unfold fileTransferRemainder, loadSector, dirtySlot, syncReaders, holds, slot_clink, slot_pos. respects_tac.
Qed.

(** ** Parts of a sector, on the drive *)

(** The bytes of a sector of the drive. *)
Definition drive_bytes (w : pfs_world hddSt) (device lba : Z) : list Z :=
  bytes_of_words (sector_at (ata (rest (dev (lib w)))) device lba).

(** The drive and the parts of the partition behind a descriptor. *)
Definition partition_of (w : pfs_world hddSt) (fd : Z) : option (Z * hdd_file_slot_t) :=
  open_part (driver_view (dev (lib w))) (Z.to_nat fd).

Lemma partition_kept w w' fd : dev_parts w w' -> partition_of w' fd = partition_of w fd.
Proof. intros (_ & _ & E1 & E2). unfold partition_of, open_part. by rewrite E1, E2. Qed.

Lemma sector_on_drive w fd device s sub sec start len : partition_of w fd = Some (device, s) ->
  s_parts s !! Z.to_nat sub = Some (start, len) -> 0 <= sub -> 0 <= sec < len ->
  @sector_bytes hddSt (io_device fuel stack) (io_store fuel stack) (dev (lib w)) fd sub sec = drive_bytes w device (start + sec).
Proof.
  intros Hp Hs Hsub Hsec. unfold sector_bytes, drive_bytes. simpl. unfold io_sector.
  by rewrite (hdd_sector_at _ _ _ _ _ _ _ _ Hp Hs Hsub Hsec).
Qed.

(** C37: through every layer, [fileTransferRemainder] on a mount that writes
    through moves bytes of one sector of the drive, whatever faults the drive
    has.  It returns an error, or moves [n = min(size, 512 - pos)] bytes at
    byte [pos] of the sector [start + sec] of the drive, the one the file's
    block and the partition table name: a read gives these bytes and changes
    none; a write puts the user's bytes there and keeps the rest of the sector
    (unless the slot is at the end of the file and at the start of a sector,
    whose other bytes are not part of the file).  No other sector of the
    partition changes, and the buffers of all file slots of the mount are again
    equal to the sectors they are labelled with. *)
Theorem stack_partial_transfer (w : pfs_world hddSt) i m x device s sub sec pos e data size op start len :
  @viewed hddSt (io_device fuel stack) (io_store fuel stack) w m x -> slot_place w i = Some (m, sub, sec, pos, e) ->
  partition_of w (m_fd x) = Some (device, s) -> s_parts s !! Z.to_nat sub = Some (start, len) ->
  0 <= sub -> 0 < sec < len -> len < 2 ^ 32 -> (op = 0 \/ op = 1) -> 0 <= size ->
  Z.min size (512 - pos) <= Z.of_nat (length data) -> bytes_ok data -> (op = 0 -> (pos =? 0) && e = false) ->
  wp (@fileTransferRemainder hddSt (io_device fuel stack) i data size op) w (fun '(r, data') w' =>
    r < 0 \/ r = Z.min size (512 - pos) /\
    @viewed hddSt (io_device fuel stack) (io_store fuel stack) w' m x /\
    (let n := Z.to_nat r in
     let old := drive_bytes w device (start + sec) in
     let new := drive_bytes w' device (start + sec) in
     if op =? 0 then new = old /\ data' = take n (drop (Z.to_nat pos) old) ++ drop n data
     else data' = data /\ take n (drop (Z.to_nat pos) new) = take n data /\
          ((pos =? 0) && e = false -> new = overwrite (Z.to_nat pos) (take n data) old)) /\
    forall sub' sec' start' len', s_parts s !! Z.to_nat sub' = Some (start', len') -> 0 <= sub' -> 0 <= sec' < len' ->
      (sub', sec') <> (sub, sec) -> drive_bytes w' device (start' + sec') = drive_bytes w device (start' + sec')).
Proof.
  intros V HP Hpart Hs Hsub Hsec Hlen Hop Hsize Hdata Hb Hend.
  pose proof (@partial_transfer hddSt (io_device fuel stack) (io_store fuel stack) w i m x sub sec pos e data size op
    V HP Hsub ltac:(lia) Hop Hsize Hdata Hb Hend) as HT.
  apply wp_inv in HT as ([r data'] & w' & E & HT). eapply wp_Done; [exact E|]. destruct HT as [HT|(Hr & V' & HF & HM)]; [by left|right].
  pose proof (remainder_parts _ _ _ _ _ _ _ E) as Hk. pose proof (partition_kept _ _ (m_fd x) Hk) as Hpart'. rewrite Hpart in Hpart'.
  split; [done|]. split; [done|].
  assert (HD : forall v sub' sec' start' len', partition_of v (m_fd x) = Some (device, s) -> s_parts s !! Z.to_nat sub' = Some (start', len') ->
    0 <= sub' -> 0 <= sec' < len' -> @sector_bytes hddSt (io_device fuel stack) (io_store fuel stack) (dev (lib v)) (m_fd x) sub' sec'
      = drive_bytes v device (start' + sec')) by (intros; by eapply sector_on_drive).
  rewrite !(HD _ sub sec start len) in HM by (done || lia). split; [exact HM|].
  intros sub' sec' start' len' Hs' H1 H2 Hn. specialize (HF sub' sec' Hn). by rewrite !(HD _ sub' sec' start' len') in HF.
Qed.
End Keep.

(** ** A session *)

Definition part_okb (p : Z * Z) : bool := (0 <=? p.1) && (0 <=? p.2) && (p.1 + p.2 <=? 2 ^ 28).
Definition apartb (p q : Z * Z) : bool := (p.1 + p.2 <=? q.1) || (q.1 + q.2 <=? p.1).
Definition parts_okb (s : hdd_file_slot_t) : bool :=
  forallb (fun k => bool_decide (is_Some (s_parts s !! k))) (seq 0 (S (Z.to_nat (s_nsub s)))) &&
  forallb part_okb (s_parts s) &&
  forallb (fun j => forallb (fun k => (j =? k)%nat || apartb (nth j (s_parts s) (0, 0)) (nth k (s_parts s) (0, 0)))
                     (seq 0 (length (s_parts s)))) (seq 0 (length (s_parts s))).

Lemma parts_okb_ok st device s : 0 <= device -> parts_okb s = true -> parts_ok st device s.
Proof.
  intros Hd E. apply andb_prop in E as [[E1 E2]%andb_prop E3]. rewrite forallb_forall in E1, E2, E3. split.
  - intros sub Hs. specialize (E1 (Z.to_nat sub) ltac:(apply in_seq; lia)). by apply bool_decide_eq_true in E1.
  - intros k start len Ek. assert (Hi : In (start, len) (s_parts s)) by (apply list_elem_of_In; by eapply list_elem_of_lookup_2).
    apply E2, andb_prop in Hi as [[? ?]%andb_prop ?]. simpl in *. unfold addressable. repeat split; lia.
  - intros j k a la b lb Ej Ek Hn. pose proof (lookup_lt_Some _ _ _ Ej). pose proof (lookup_lt_Some _ _ _ Ek).
    specialize (E3 j ltac:(apply in_seq; lia)). rewrite forallb_forall in E3. specialize (E3 k ltac:(apply in_seq; lia)).
    rewrite !nth_lookup, Ej, Ek in E3. simpl in E3. unfold apartb in E3. simpl in E3.
    destruct (Nat.eqb_spec j k); [done|]. simpl in E3. apply orb_prop in E3 as [?|?]; lia.
Qed.

Definition disk_words_okb (st : ata_st) : bool := forallb (fun '(_, b) => (length b =? 128)%nat && words_okb b) (map_to_list (disk st)).
Lemma disk_words_okb_ok st : disk_words_okb st = true -> forall k b, disk st !! k = Some b -> length b = 128%nat /\ words_ok b.
Proof.
  unfold disk_words_okb. rewrite forallb_forall. intros Hr k b E. apply elem_of_map_to_list, list_elem_of_In, Hr in E.
  apply andb_prop in E as [E1%Nat.eqb_eq E2%words_okb_ok]. done.
Qed.

Definition str_hdd0 : list Z := str_hdd ++ [48; 58].             (* "hdd0:" *)
Definition part_name : list Z := str_hdd0 ++ [84; 69; 83; 84].   (* "hdd0:TEST" *)

(** The manager started, the disk registered with it, and a partition made
    through it on the formatted drive. *)
Definition st_made : hddSt :=
  after (IomanX._start 0 0 ;;;
         IomanX.AddDrv (fun _ => hddFioDev 400 zero_params) 0 ;;;
         fd <- IomanX.open (fun _ => hddFioDev 400 zero_params) (str_hdd0 ++ testName) (Z.lor O_CREAT 3) 0 ;;
         IomanX.close (fun _ => hddFioDev 400 zero_params) fd) (mkIox [] [] w_formatted).

Definition stk0 : pfs_world hddSt :=
  mkPw (mkPfs st_made [] [] 0 (zeros 256) 0 [0; 0] (fun _ => (1, mkClock 0 0 0 0 1 1 4)) 0 (fun _ => Some (zeros 256)) 0)
    [] None 1 2 [mkFile (Z.lor 3 O_CREAT) 0 None].

Section Session.
#[local] Instance session_device : BlockDevice hddSt := io_device 400 zero_params.
#[local] Instance session_files : BlockFiles hddSt := io_files 400 zero_params.

(** The file system made on the partition, mounted, and a file of it written. *)
Definition stk_hello : pfs_world hddSt :=
  after (Pfs._start true [[]] ;;;
         pfsFioFormat part_name [8192] 4 ;;;
         pfsFioMount 0 part_name PFS_FIO_ATTR_WRITEABLE ;;;
         pfsFioOpen 200 0 (Some [47; 97]) 0 0x1FF ;;;
         pfsFioWrite 200 0 0 [104; 101; 108; 108; 111] 5 ;;;
         pfsFioLseek 200 0 2 SEEK_SET) stk0.

(** "y!!" over "llo", and the file read back. *)
Example session_reads :
  result (pfsFioWrite 200 0 0 [121; 33; 33] 3 ;;; pfsFioLseek 200 0 0 SEEK_SET ;;; pfsFioRead 200 0 0 (zeros 8) 8) stk_hello
  = Some (5, [104; 101; 121; 33; 33; 0; 0; 0]).
Proof. vm_compute. reflexivity. Qed.
End Session.

Definition stk_mount : pfs_mount_t := default zero_mount (pfsMountBuf (lib stk_hello) !! 0%nat).

Lemma stk_open : io_open (dev (lib stk_hello)) (m_fd stk_mount).
Proof.
  assert (HD : disk_words_okb (ata (driver_view (dev (lib stk_hello)))) = true) by (vm_compute; reflexivity).
  assert (HF : faults (ata (driver_view (dev (lib stk_hello)))) = fun _ => None) by (vm_compute; reflexivity).
  split; [vm_compute; split; [discriminate|reflexivity]| |].
  - eexists _, _. split; vm_compute; reflexivity.
  - split.
    + right. vm_compute. reflexivity.
    + intros k b E. by apply (disk_words_okb_ok _ HD k).
    + intros k b E. by apply (disk_words_okb_ok _ HD k).
    + intros n f. by rewrite HF.
    + eexists _, _. split; [vm_compute; reflexivity|]. apply parts_okb_ok; [lia|]. vm_compute. reflexivity.
Qed.

Lemma stk_viewed : @viewed hddSt (io_device 400 zero_params) (io_store 400 zero_params) stk_hello 0 stk_mount.
Proof.
  assert (HS : @slotsb hddSt (io_device 400 zero_params) (io_store 400 zero_params) stk_hello 0 stk_mount = true) by (vm_compute; reflexivity).
  split; [vm_compute; reflexivity..|exact stk_open|vm_compute; reflexivity| |].
  - intros j s Es. by apply (slotsb_ok _ _ _ HS j).
  - intros j s Es. by apply (slotsb_ok _ _ _ HS j).
Qed.

Lemma stack_partial_transfer_witness : exists device s sub sec start len,
  partition_of stk_hello (m_fd stk_mount) = Some (device, s) /\ s_parts s !! Z.to_nat sub = Some (start, len) /\
  wp (@fileTransferRemainder hddSt (io_device 400 zero_params) 0 [121; 33; 33] 3 1) stk_hello (fun '(r, data') w' =>
    r < 0 \/ r = 3 /\ @viewed hddSt (io_device 400 zero_params) (io_store 400 zero_params) w' 0 stk_mount /\
    (data' = [121; 33; 33] /\
     take (Z.to_nat r) (drop 2 (drive_bytes w' device (start + sec))) = take (Z.to_nat r) [121; 33; 33] /\
     (false = false -> drive_bytes w' device (start + sec)
        = overwrite 2 (take (Z.to_nat r) [121; 33; 33]) (drive_bytes stk_hello device (start + sec)))) /\
    forall sub' sec' start' len', s_parts s !! Z.to_nat sub' = Some (start', len') -> 0 <= sub' -> 0 <= sec' < len' ->
      (sub', sec') <> (sub, sec) -> drive_bytes w' device (start' + sec') = drive_bytes stk_hello device (start' + sec')).
Proof.
  assert (EP : exists device s sub sec start len, slot_place stk_hello 0 = Some (0%nat, sub, sec, 2, false) /\
    partition_of stk_hello (m_fd stk_mount) = Some (device, s) /\ s_parts s !! Z.to_nat sub = Some (start, len) /\
    0 <= sub /\ 0 < sec < len /\ len < 2 ^ 32).
  { eexists _, _, _, _, _, _. split; [vm_compute; reflexivity|]. split; [vm_compute; reflexivity|].
    split; [vm_compute; reflexivity|]. lia. }
  destruct EP as (device & s & sub & sec & start & len & EP & HP & Hs & H1 & H2 & H3).
  exists device, s, sub, sec, start, len. split; [exact HP|]. split; [exact Hs|].
  apply (stack_partial_transfer 400 zero_params stk_hello 0 0 stk_mount device s sub sec 2 false [121; 33; 33] 3 1 start len);
    [exact stk_viewed|exact EP|exact HP|exact Hs|exact H1|exact H2|exact H3|by right|lia|simpl; lia| |done].
  repeat constructor; lia.
Defined.
