(* ===== verification/IoHddProps.v ===== *)
(** * IoHddProps: the hard disk keeps the descriptors of the I/O manager

    No operation of the driver adds or removes a file, so the hard disk is a
    [FileDevice] and the refinement of IomanProps holds of a manager with it. *)

From stdpp Require Import base numbers list gmap.
From Stdlib Require Import ZArith Lia RelationClasses.
From S2P Require Import Prelude Ata ApaState ApaCache ApaPart Hdd HddFio Scenario HddScenario Frame HddLock Ioman IomanProps IoHdd Stack.

Open Scope Z_scope.
Open Scope c_scope.

Import IomanX.

(** ** The files of the driver *)

Definition same_files (w w' : world) : Prop := length (files w') = length (files w).
#[export] Instance same_files_preorder : PreOrder same_files.
Proof. split; [by intros w | unfold same_files; intros w1 w2 w3; congruence]. Qed.

Lemma files_outer {A} (m : M world A) : respects same_outer m -> respects same_files m.
Proof. apply respects_mono. intros w w' (_ & _ & E & _). unfold same_files. by rewrite E. Qed.
Lemma files_wait : respects same_files WaitSema.
Proof.
  intros w a w' H. unfold WaitSema in H. destruct (fioSema w); [|by injection H as _ <-].
  destruct (0 <? _); [|done]. by injection H as _ <-.
Qed.
Lemma files_signal : respects same_files SignalSema.
Proof. by intros w a w' [= _ <-]. Qed.
Lemma files_smod i g : respects same_files (smod i g).
Proof. intros w a w' H. unfold smod in H. destruct (hddFileSlots w !! i); [|done]. by injection H as _ <-. Qed.
Lemma files_fmod f g : respects same_files (fmod f g).
Proof.
  intros w a w' H. unfold fmod in H. destruct (files w !! f); [|done]. injection H as _ <-. apply length_insert.
Qed.
#[local] Hint Resolve files_wait files_signal files_smod files_fmod : frame_db.
#[local] Hint Extern 5 (respects same_files _) => (apply files_outer; solve [auto with frame_db]) : frame_db.

Lemma files_apaOpen n d i p m : respects same_files (apaOpen n d i p m).
Proof. unfold apaOpen. respects_tac. Qed.
Lemma files_apaRename n d o p : respects same_files (apaRename n d o p).
Proof. unfold apaRename. respects_tac. Qed.
Lemma files_addSub n i a : respects same_files (ioctl2AddSub n i a).
Proof. unfold ioctl2AddSub. respects_tac. Qed.
Lemma files_deleteSub n i : respects same_files (ioctl2DeleteLastSub n i).
Proof. unfold ioctl2DeleteLastSub. respects_tac. Qed.
Lemma files_dataTransfer f b n m : respects same_files (fioDataTransfer f b n m).
Proof. unfold fioDataTransfer. respects_tac. Qed.
#[local] Hint Resolve files_apaOpen files_apaRename files_addSub files_deleteSub files_dataTransfer : frame_db.

(** ** The driver in the manager *)

Lemma devs_hdd_call {A} f (m : nat -> M world A) : (forall i, respects same_files (m i)) -> respects same_devs (hdd_call f m).
Proof.
  intros Hm s a s' H. unfold hdd_call in H. destruct (driver_files f s) as [fs i] eqn:Ed.
  destruct (m i _) as [a' w| |] eqn:E; [|done..]. injection H as _ <-. apply Hm in E. unfold same_files in E. simpl in E.
  unfold same_devs, devs, back. simpl. assert (HL : (length (file_table s) <= length (files w))%nat).
  { rewrite E. unfold driver_files in Ed. destruct f; injection Ed as <- _; rewrite ?length_app, length_fmap; lia. }
  clear -HL. revert HL. generalize (files w). induction (file_table s) as [|x t IH]; intros [|y l] HL; try done; simpl in *; [lia|].
  f_equal. apply IH. lia.
Qed.

#[export] Instance hdd_FileDevice fuel stack : FileDevice (hddFioDev fuel stack).
Proof.
  constructor; intros; simpl; unfold hddUnsupported; try match goal with a : hddArg |- _ => destruct a end;
    try (apply devs_hdd_call; intros i).
  all: try (apply same_devs_nested; try (apply devs_hdd_call; intros i)).
  all: unfold hddFormat, hddDopen, hddOpen, hddClose, hddRead, hddWrite, hddLseek, hddIoctl2, hddRemove, hddDread, hddGetStat, hddReName, hddDevctl; respects_tac.
Qed.

(** ** A partition opened on the machine of [st_made] *)

Definition hdd_dev : nat -> iop_device_t hddSt hddArg hddOut := fun _ => hddFioDev 400 zero_params.
#[local] Instance hdd_dev_ok k : FileDevice (hdd_dev k) := hdd_FileDevice 400 zero_params.
Definition no_file : iop_file := mkIop (mkFile 0 0 None) DNull.
Definition no_dirent : iox_dirent_t := mkXdirent (mkXstat 0 0 0 [] [] [] 0 []) [].
Definition open_part : io_call (Arg := hddArg) (Out := hddOut) := IOpen part_name 3 0.

Lemma made_quiet : quiet st_made.
Proof.
  split; [vm_compute; reflexivity|]. assert (E : devs st_made = replicate 32 DNull) by (vm_compute; reflexivity).
  rewrite E. by apply Forall_replicate.
Qed.

(** It is opened as descriptor 0, which was not open before. *)
Lemma descriptors_refine_witness : exists s',
  io_run hdd_dev no_file no_dirent open_part st_made = Done 0 s' /\ quiet s' /\
  fd_step hdd_dev (dev_list st_made) open_part (fds st_made) 0 (fds s') /\
  io_run hdd_dev no_file no_dirent (IClose 0) st_made = Done (- EBADF) st_made.
Proof.
  assert (E : result (io_run hdd_dev no_file no_dirent open_part) st_made = Some 0) by (vm_compute; reflexivity).
  apply result_after in E. destruct (proj1 (descriptors_refine hdd_dev no_file no_dirent open_part st_made made_quiet) 0 _ E) as [HQ HS].
  eexists. split; [exact E|]. split; [exact HQ|]. split; [exact HS|].
  apply (proj2 (descriptors_refine hdd_dev no_file no_dirent (IClose 0) st_made made_quiet) 0 eq_refl).
  intros [_ [k Hk]]. assert (E0 : fds st_made !! Z.to_nat 0 = Some None) by (vm_compute; reflexivity). rewrite E0 in Hk. discriminate Hk.
Defined.
