(* ===== verification/PfsFioProps.v ===== *)
(** * PfsFioProps: sectors written whole, and attributes

    Two places where the pfs module does not do what it means to: a write of
    whole sectors passes the buffers of the file slots by, and the scan of the
    attributes of a file never starts. *)

From stdpp Require Import base numbers list gmap.
From Stdlib Require Import ZArith Lia.
From S2P Require Import Prelude Ata ApaState ApaCache ApaPart Hdd HddFio HddProps HddScenario PfsState PfsCache PfsBitmap PfsInode PfsDir PfsSuper PfsHdd Pfs PfsFio PfsOps PfsIoctl Scenario PfsScenario PfsRam Frame PfsSector PfsSectorProps Ioman IoHdd PfsHddStore Stack.

Open Scope Z_scope.
Open Scope c_scope.

(** ** Whole sectors *)

Section Whole.
Context {D : Type} `{BlockDevice D} `{BlockFiles D}.

(** Whole sectors go between the user's buffer and the device: no file slot
    changes, whatever sector its own buffer holds. *)
Lemma whole_keeps_slots i m bi bp x addr data size left op (w : pfs_world D) r w' :
  Z.land (bp_byte bp) 0x1FF = 0 -> 512 <= size -> Z.land addr 3 = 0 ->
  transferPart i m bi bp x addr data size left op w = Done r w' -> pfsFileSlots w' = pfsFileSlots w.
Proof.
  intros H1 H2 H3 E. unfold transferPart in E. rewrite H1, H3 in E. replace (size <? 512) with false in E by lia.
  cbn [nz Z.eqb negb orb] in E. destruct (_ <? _)%nat in E; [done|].
  apply bind_inv in E as ([v b] & w1 & E1 & E). unfold pfs_op in E1. destruct (bdev _ (lib w)) as [y l| |]; [|done..].
  injection E1 as _ <-. by destruct (v <? 0); injection E as _ <-.
Qed.
End Whole.

Definition hello : list Z := [104; 101; 108; 108; 111].

(** "hello", a seek to the start, 512 bytes from an aligned buffer. *)
Definition rewrite_sector : M (pfs_world ram) unit :=
  pfsFioWrite 200 0 0 hello 5 ;;;
  pfsFioLseek 200 0 0 SEEK_SET ;;;
  pfsFioWrite 200 0 0 (replicate 512 7) 512 ;;;
  pfsFioLseek 200 0 0 SEEK_SET ;;;
  ret tt.

(** The same disk, mounted without the flag that makes writes go through. *)
Definition pw_plain : pfs_world ram :=
  after (pfsFioMount 0 hdd0 0 ;;; pfsFioOpen 200 0 (Some name_a) 0 0x1FF) pw_formatted.

(** The finding in a session: bytes 0 to 4 of a file are written, then its
    first 512 bytes.  Where writes go through, a read of the start still gives
    the first five bytes; where they do not, closing the file writes them over
    the 512 bytes. *)
Example rewrite_session :
  result (rewrite_sector ;;; pfsFioRead 200 0 0 (zeros 4) 4) pw_open = Some (4, take 4 hello) /\
  result (rewrite_sector ;;; pfsFioClose 0 ;;; pfsFioOpen 200 0 (Some name_a) 0 0x1FF ;;; pfsFioRead 200 0 0 (zeros 7) 7) pw_plain
    = Some (7, hello ++ [0; 0]).
Proof. vm_compute. split; reflexivity. Qed.

(** ** A sector written whole while a slot holds it *)

Section Stale.
Context {D : Type} {BD : BlockDevice D} {SS : SectorStore D} {BF : BlockFiles D}.
Notation world := (pfs_world D).

(** Slot [i] is [s], its file is on mount [m], its buffer is labelled with
    sector [sec] of [sub], and no other slot of the mount has newer bytes of
    that sector. *)
Record holding (w : world) (i m : nat) (s : pfs_file_slot_t) (sub sec : Z) : Prop := {
  h_slot : pfsFileSlots w !! i = Some s;
  h_on : on_mount (lib w) m s = true;
  h_label : labelled sub sec s = true;
  h_bytes : un_ok (ps_un s);
  h_slots : length (pfsFileSlots w) = Z.to_nat (maxOpen w);
  h_valid : forall j t, pfsFileSlots w !! j = Some t -> slot_valid (lib w) t;
  h_others : forall j t, pfsFileSlots w !! j = Some t -> j <> i -> on_mount (lib w) m t = true -> labelled sub sec t = true ->
    u_dirty (ps_un t) = 0
}.

Lemma holding_upd d w i m s sub sec : holding w i m s sub sec -> holding (upd d (pfsFileSlots w) w) i m s sub sec.
Proof. intros H. by destruct H. Qed.

Lemma slot_place_upd d (w : world) i : slot_place (upd d (pfsFileSlots w) w) i = slot_place w i.
Proof. by destruct w as [l]; destruct l. Qed.

(** The newest bytes are those of the slot itself, or on the device. *)
Lemma dirtySlot_self i m s sub sec (w : world) (Q : option nat -> world -> Prop) : holding w i m s sub sec ->
  Q None w -> Q (Some i) w -> wp (dirtySlot m sub sec) w Q.
Proof.
  intros H Q1 Q2. unfold dirtySlot. apply wp_bind. unfold get, wp at 1. apply wp_bind.
  assert (HL : forall l, (forall j, j ∈ l -> (j < length (pfsFileSlots w))%nat) ->
    wp (for_break l (fun i (_ : unit) => s <- pslot i ;; h <- holds m sub sec s ;;
         if h && nz (u_dirty (ps_un s)) then ret (inr i) else ret (inl tt)) tt) w (fun r w' => (r = inl tt \/ r = inr i) /\ w' = w)).
  { induction l as [|j l IH]; intros Hl; [by split; [left|]|]. simpl. apply wp_bind.
    destruct (lookup_lt_is_Some_2 (pfsFileSlots w) j) as [t Et]; [apply Hl; by left|].
    apply wp_bind, (wp_pslot _ _ _ _ Et). apply wp_bind, wp_holds; [by eapply h_valid|].
    destruct (on_mount (lib w) m t && labelled sub sec t && nz (u_dirty (ps_un t))) eqn:En.
    - apply wp_ret. apply wp_ret. split; [|done]. right. f_equal. destruct (decide (j = i)) as [->|Hj]; [done|].
      apply andb_prop in En as [[E1 E2]%andb_prop E3]. by rewrite (h_others _ _ _ _ _ _ H j t Et Hj E1 E2) in E3.
    - apply wp_ret. apply IH. intros k Hk. apply Hl. by right. }
  eapply wp_mono; [apply HL|].
  - intros j Hj. apply list_elem_of_In, in_seq in Hj. rewrite (h_slots _ _ _ _ _ _ H). lia.
  - intros r w' [[-> | ->] ->]; by apply wp_ret.
Qed.

(** Part of the sector is read from the buffer of the slot: the device is not
    asked, and nothing changes. *)
Lemma buffered_read i m s sub sec pos e out n (w : world) : holding w i m s sub sec ->
  slot_place w i = Some (m, sub, sec, pos, e) -> 0 <= n <= 512 - pos -> n <= Z.of_nat (length out) ->
  wp (fileTransferRemainder i out n 0) w (fun v w' =>
    w' = w /\ v = (n, overwrite 0 (take (Z.to_nat n) (drop (Z.to_nat pos) (u_buffer (ps_un s)))) out)).
Proof.
  intros H HP Hn Hl. apply place_inv in HP as (t & c & pc & x & q & qc & Es & Ec & Epc & Em & Ex & Eq & Eqc & HB).
  rewrite (h_slot _ _ _ _ _ _ H) in Es. injection Es as <-. pose proof (h_slot _ _ _ _ _ _ H) as Es.
  cbv zeta in HB. destruct HB as (-> & -> & -> & _).
  unfold fileTransferRemainder. apply wp_bind, (wp_pslot _ _ _ _ Es). apply wp_bind. unfold slot_clink. rewrite Ec. apply wp_ret.
  apply wp_bind. eapply wp_op; [unfold pmount; erewrite bind_Done by (by apply pget_Done); by rewrite Em|].
  apply wp_bind, (wp_op _ _ _ _ (mget_Done _ _ _ Ex)). apply wp_bind. unfold slot_pos. rewrite Eq. apply wp_ret.
  apply wp_bind. eapply wp_op.
  { unfold pfsBlockGetCurrent. erewrite bind_Done by (unfold pdata; erewrite bind_Done by (by apply pget_Done); done). done. }
  simpl. set (sub := bi_subpart _) in *. set (sec := sectorOf _ _ _) in *. set (pos := Z.land _ _) in *.
  apply wp_bind, wp_bind. pose proof (h_label _ _ _ _ _ _ H) as HL.
  assert (HT : wp (ret false) w (fun (newer : bool) w0 => wp (r <- (if newer then ret None else loadSector i m sub sec pos) ;;
      match r with
      | Some r0 => ret (r0, out)
      | None => if (Z.min n (512 - pos) <? 0) || (Z.of_nat (length out) <? Z.min n (512 - pos)) then undef
          else s0 <- pslot i ;; ret (Z.min n (512 - pos),
            overwrite 0 (take (Z.to_nat (Z.min n (512 - pos))) (drop (Z.to_nat pos) (u_buffer (ps_un s0)))) out)
      end) w0 (fun v w' => w' = w /\ v = (n, overwrite 0 (take (Z.to_nat n) (drop (Z.to_nat pos) (u_buffer (ps_un s)))) out)))).
  { apply wp_ret. apply wp_bind. unfold loadSector. apply wp_bind, (wp_pslot _ _ _ _ Es). unfold labelled in HL.
    rewrite andb_comm in HL. rewrite HL. apply wp_ret. rewrite Z.min_l by lia.
    replace ((n <? 0) || (Z.of_nat (length out) <? n)) with false by (symmetry; apply orb_false_iff; lia).
    apply wp_bind, (wp_pslot _ _ _ _ Es). by apply wp_ret. }
  apply (dirtySlot_self i m s _ _ w); [done|exact HT|]. rewrite Nat.eqb_refl. exact HT.
Qed.

(** C38: a write of a whole sector passes by the buffer of the slot that holds
    it.  Let slot [i] hold a sector and let a write of one whole sector (on a
    sector boundary, from a buffer on a word boundary) go to it.  It fails, or
    the device has the user's 512 bytes and nothing else changed: the slot still
    has the old bytes.
    Then, wherever in the sector the slot moves, as long as its buffer stays,
    a read of part of the sector gives the OLD bytes, not those written; and
    writing the buffer back, which is what closing the file does when the
    buffer is dirty, puts all 512 old bytes over those written. *)
Theorem aligned_write_lost i m bi bp x addr data size left s sec (w : world) :
  sec = sectorOf x bi bp -> holding w i m s (bi_subpart bi) sec ->
  pfsMountBuf (lib w) !! m = Some x -> bd_open (dev (lib w)) (m_fd x) -> 0 <= bi_subpart bi -> 0 <= sec < 2 ^ 32 - 1 ->
  Z.land (bp_byte bp) 0x1FF = 0 -> Z.land addr 3 = 0 -> 512 <= size -> Z.min (size / 512) (left / 512) = 1 ->
  (512 <= length data)%nat -> bytes_ok data ->
  wp (transferPart i m bi bp x addr data size left 1) w (fun '(r, _) w1 => r < 0 \/
    r = 512 /\ sector_bytes (dev (lib w1)) (m_fd x) (bi_subpart bi) sec = take 512 data /\
    w1 = upd (dev (lib w1)) (pfsFileSlots w) w /\ holding w1 i m s (bi_subpart bi) sec /\
    (forall w2 s2 pos e out n, holding w2 i m s2 (bi_subpart bi) sec -> ps_un s2 = ps_un s ->
       slot_place w2 i = Some (m, bi_subpart bi, sec, pos, e) -> 0 <= n <= 512 - pos -> n <= Z.of_nat (length out) ->
       fileTransferRemainder i out n 0 w2
         = Done (n, overwrite 0 (take (Z.to_nat n) (drop (Z.to_nat pos) (u_buffer (ps_un s)))) out) w2) /\
    wp (un_transfer i m PFS_IO_MODE_WRITE) w1 (fun r w2 => r < 0 \/
      r = 0 /\ sector_bytes (dev (lib w2)) (m_fd x) (bi_subpart bi) sec = u_buffer (ps_un s))).
Proof.
  intros Hsec H Ex Ho Hsub Hs H1 H2 H3 H4 H5 H6. unfold transferPart. rewrite H1, H2. replace (size <? 512) with false by lia.
  cbn [nz Z.eqb negb orb]. replace (if size / 512 <? left / 512 then _ else _) with 1 by (destruct (Z.ltb_spec (size / 512) (left / 512)); lia).
  change (Z.to_nat (1 * 512)) with 512%nat. replace (length data <? 512)%nat with false by (symmetry; by apply Nat.ltb_ge).
  assert (HT : length (take 512 data) = 512%nat) by (rewrite length_take; lia).
  assert (HB : bytes_ok (take 512 data)) by (by apply Forall_take).
  destruct (words_of_bytes_ok 128 (take 512 data)) as [B1 B2]; [done..|].
  rewrite <- Hsec. pose proof (bd_write1 _ _ _ _ _ Ho B1 B2 Hsub Hs) as HW. apply wp_inv in HW as ([r b'] & d' & E & O' & -> & R & _).
  change PFS_IO_MODE_WRITE with 1 in E. apply wp_bind. eapply wp_Done; [unfold pfs_op, bdev; rewrite E; reflexivity|].
  destruct (Z.ltb_spec r 0); [|destruct R as [?|[-> R]]; [lia|]].
  { rewrite (proj2 (Z.ltb_lt r 0)) by done. apply wp_ret. left. apply Z.lor_neg. by left. }
  change (0 <? 0) with false. apply wp_ret. right. split; [done|]. change (with_lib _ w) with (upd d' (pfsFileSlots w) w).
  split; [|split; [reflexivity|split; [by apply holding_upd|split]]].
  - simpl. unfold sector_bytes. rewrite R. by apply (bytes_of_words_of_bytes 128).
  - intros w2 s2 pos e out n Hw2 Hu HP Hn Hout. pose proof (buffered_read _ _ _ _ _ _ _ _ _ _ Hw2 HP Hn Hout) as HR.
    apply wp_inv in HR as (v & w' & -> & -> & ->). by rewrite Hu.
  - pose proof (h_label _ _ _ _ _ _ H) as HL. apply andb_prop in HL as [L1%Z.eqb_eq L2%Z.eqb_eq].
    eapply wp_mono; [apply (un_write i m _ s x); simpl; try done; [apply H..|lia|lia]|].
    intros r w2 (d2 & -> & _ & RR & _). rewrite L1, L2 in RR. exact RR.
Qed.
End Stale.

(** On the whole stack: the file holds "hello", 512 bytes of 7 go to its
    sector, and the slot, at byte 2, still reads "llo" and writes "hello" back. *)
Lemma aligned_write_lost_witness : exists bi bp s sec,
  sec = sectorOf stk_mount bi bp /\
  wp (@transferPart hddSt (io_device 400 zero_params) 0 0 bi bp stk_mount 0 (replicate 512 7) 512 512 1) stk_hello (fun '(r, _) w1 => r < 0 \/
    r = 512 /\
    @sector_bytes hddSt (io_device 400 zero_params) (io_store 400 zero_params) (dev (lib w1)) (m_fd stk_mount) (bi_subpart bi) sec
      = replicate 512 7 /\
    @fileTransferRemainder hddSt (io_device 400 zero_params) 0 (zeros 3) 3 0 w1 = Done (3, [108; 108; 111]) w1 /\
    wp (@un_transfer hddSt (io_device 400 zero_params) 0 0 PFS_IO_MODE_WRITE) w1 (fun r w2 => r < 0 \/
      r = 0 /\
      @sector_bytes hddSt (io_device 400 zero_params) (io_store 400 zero_params) (dev (lib w2)) (m_fd stk_mount) (bi_subpart bi) sec
        = u_buffer (ps_un s))) /\
  take 5 (u_buffer (ps_un s)) = hello.
Proof.
  pose proof stk_viewed as V. assert (EP : exists s c pc q qc, pfsFileSlots stk_hello !! 0%nat = Some s /\ ps_clink s = Some c /\
    pfsCacheBuf (lib stk_hello) !! c = Some pc /\ pc_mount pc = Some 0%nat /\
    ps_inode s = Some q /\ pfsCacheBuf (lib stk_hello) !! q = Some qc /\
    let bp := mkBp q (ps_segment s) (ps_offset s) 0 in
    let bi := i_data (pc_data qc) (seg_entry (ps_segment s)) in
    labelled (bi_subpart bi) (sectorOf stk_mount bi bp) s = true /\ 0 <= bi_subpart bi /\ 0 <= sectorOf stk_mount bi bp < 2 ^ 32 - 1 /\
    slot_place stk_hello 0 = Some (0%nat, bi_subpart bi, sectorOf stk_mount bi bp, 2, false) /\
    take 5 (u_buffer (ps_un s)) = hello).
  { eexists _, _, _, _, _. do 6 (split; [vm_compute; reflexivity|]). cbv zeta. split; [vm_compute; reflexivity|].
    split; [apply Z.leb_le; vm_compute; reflexivity|].
    split; [split; [apply Z.leb_le|apply Z.ltb_lt]; vm_compute; reflexivity|]. split; vm_compute; reflexivity. }
  destruct EP as (s & c & pc & q & qc & Es & Ec & Epc & Em & Eq & Eqc & HL & Hsub & Hsec & HP & Hh).
  set (bp := mkBp _ _ _ _) in *. set (bi := i_data _ _) in *.
  assert (Hon : on_mount (lib stk_hello) 0 s = true) by (unfold on_mount; rewrite Ec, Epc; by apply bool_decide_eq_true).
  assert (HH : @holding hddSt stk_hello 0 0 s (bi_subpart bi) (sectorOf stk_mount bi bp)).
  { split; [exact Es|exact Hon|exact HL|exact (proj1 (proj2 (v_coherent _ _ _ V _ _ Es Hon)))|exact (v_slots _ _ _ V)|exact (v_valid _ _ _ V)|].
    intros j t Et _ Ho _. exact (proj1 (v_coherent _ _ _ V _ _ Et Ho)). }
  exists bi, bp, s, (sectorOf stk_mount bi bp). split; [reflexivity|]. split; [|exact Hh].
  eapply wp_mono; [exact (@aligned_write_lost hddSt (io_device 400 zero_params) (io_store 400 zero_params) 0 0 bi bp stk_mount 0 (replicate 512 7) 512 512 s
    (sectorOf stk_mount bi bp) stk_hello eq_refl HH (v_mount _ _ _ V) stk_open Hsub Hsec
    eq_refl eq_refl ltac:(lia) eq_refl ltac:(rewrite length_replicate; lia) ltac:(apply Forall_replicate; lia))|].
  intros [r out] w1 [Hr|(Hr & Hs & E1 & H1 & HR & HW)]; [by left|right]. split; [exact Hr|]. split; [exact Hs|]. split; [|exact HW].
  assert (HP1 : slot_place w1 0 = Some (0%nat, bi_subpart bi, sectorOf stk_mount bi bp, 2, false)) by (rewrite E1, slot_place_upd; exact HP).
  assert (Hb : take 3 (drop 2 (u_buffer (ps_un s))) = [108; 108; 111]) by (rewrite take_drop_commute; exact (f_equal (drop 2) Hh)).
  rewrite (HR w1 s 2 false (zeros 3) 3 H1 eq_refl HP1) by (simpl; lia).
  change (Z.to_nat 3) with 3%nat. change (Z.to_nat 2) with 2%nat. by rewrite Hb.
Defined.

(** ** Attributes *)

Section Attributes.
Context {D : Type} `{BlockDevice D} `{BlockFiles D} (low : list Z).

(** The loop of [getAentry] runs while the end of the block is before the
    entry: not once. *)
Lemma getAentry_none q pc key value mode (s : pfs_st D) : pfsCacheBuf s !! q = Some pc ->
  getAentry low q key value mode s = Done None s.
Proof.
  intros E. unfold getAentry, pdata. rewrite (bind_Done _ _ s (pc_data pc) s); [done|].
  by rewrite (bind_Done _ _ s pc s) by (by apply pget_Done).
Qed.

(** No attribute is ever stored, found or deleted.  Whatever the block of
    attributes holds, adding one ends with -EINVAL or -ENOSPC, deleting and
    looking up with -ENOENT, and nothing changes. *)
Theorem attributes_never_found q pc key value (s : pfs_st D) : pfsCacheBuf s !! q = Some pc ->
  (exists r, ioctl2AttrAdd low q key value s = Done r s /\ (r = - EINVAL \/ r = - ENOSPC)) /\
  ioctl2AttrDelete low q key s = Done (- ENOENT) s /\
  ioctl2AttrLoopUp low q key s = Done (- ENOENT, ONone) s.
Proof.
  intros E. unfold ioctl2AttrAdd, ioctl2AttrDelete, ioctl2AttrLoopUp.
  rewrite !(bind_Done _ _ s None s) by (by eapply getAentry_none). split; [|done].
  destruct (_ || _); [eauto|]. destruct (_ || _); [eauto|]. exists (- ENOSPC). split; [|by right].
  by rewrite !(bind_Done _ _ s None s) by (by eapply getAentry_none).
Qed.
End Attributes.

Lemma attributes_never_found_witness :
  exists q pc, pfsCacheBuf (lib pw_open) !! q = Some pc /\
  (exists r, ioctl2AttrAdd [] q [107] [118] (lib pw_open) = Done r (lib pw_open) /\ (r = - EINVAL \/ r = - ENOSPC)) /\
  ioctl2AttrDelete [] q [107] (lib pw_open) = Done (- ENOENT) (lib pw_open) /\
  ioctl2AttrLoopUp [] q [107] (lib pw_open) = Done (- ENOENT, ONone) (lib pw_open).
Proof.
  exists 1%nat. eexists. split; [vm_compute; reflexivity|].
  eapply (attributes_never_found [] 1 _ [107] [118] (lib pw_open)). vm_compute. reflexivity.
Defined.
