(* ===== verification/PfsFrame.v ===== *)
(** * PfsFrame: the library of the file system keeps the mount table

    Every operation of libpfs leaves the identity of each mount (the open
    partition and the flags) as it was: proved along the code, operation by
    operation, with the rules of Frame. *)

From stdpp Require Import base numbers list gmap.
From Stdlib Require Import ZArith Lia RelationClasses.
From S2P Require Import Prelude ApaState PfsState PfsCache PfsBitmap PfsInode PfsDir PfsSuper Frame.

Open Scope Z_scope.
Open Scope c_scope.

Definition ident (x : pfs_mount_t) : Z * Z := (m_fd x, m_flags x).
Definition same_ids {D} (s s' : pfs_st D) : Prop := ident <$> pfsMountBuf s' = ident <$> pfsMountBuf s.

#[export] Instance same_ids_preorder D : PreOrder (@same_ids D).
Proof. split; [by intros s | unfold same_ids; intros s1 s2 s3; congruence]. Qed.

Section Frame.
Context {D : Type} `{BlockDevice D}.
Notation keeps := (respects (@same_ids D)).

Lemma ids_mounts (s s' : pfs_st D) : pfsMountBuf s' = pfsMountBuf s -> same_ids s s'.
Proof. unfold same_ids. by intros ->. Qed.

Lemma ids_bdev {A} (m : M D A) : keeps (bdev m).
Proof. intros s a s' E. unfold bdev in E. destruct (m (dev s)); [|done..]. injection E as _ <-. by apply ids_mounts. Qed.
Lemma ids_pget p : keeps (pget p).
Proof. intros s a s' E. unfold pget in E. destruct (pfsCacheBuf s !! p); [|done]. by injection E as _ <-. Qed.
Lemma ids_pmod p f : keeps (pmod p f).
Proof. intros s a s' E. unfold pmod in E. destruct (pfsCacheBuf s !! p); [|done]. injection E as _ <-. by apply ids_mounts. Qed.
Lemma ids_mget m : keeps (mget m).
Proof. intros s a s' E. unfold mget in E. destruct (pfsMountBuf s !! m); [|done]. by injection E as _ <-. Qed.
Lemma ids_modify f : (forall s : pfs_st D, pfsMountBuf (f s) = pfsMountBuf s) -> keeps (modify f).
Proof. intros Hf. apply respects_modify. intros s. by apply ids_mounts. Qed.

(** An update of a mount that keeps its identity. *)
Lemma ids_mmod m f : (forall x, ident (f x) = ident x) -> keeps (mmod m f).
Proof.
  intros Hf s a s' E. unfold mmod in E. destruct (pfsMountBuf s !! m) as [x|] eqn:Em; [|done]. injection E as _ <-.
  unfold same_ids. simpl. rewrite list_fmap_insert, Hf. apply list_insert_id. by rewrite list_lookup_fmap, Em.
Qed.

Hint Resolve ids_bdev ids_pget ids_pmod ids_mget : frame_db.
Hint Extern 1 (respects same_ids (modify _)) => (apply ids_modify; intros ?; done) : frame_db.
Hint Extern 1 (respects same_ids (mmod _ _)) => (apply ids_mmod; intros ?; done) : frame_db.

Lemma ids_pdata p : keeps (pdata p).
Proof. unfold pdata. respects_tac. Qed.
Lemma ids_dmod p f : keeps (dmod p f).
Proof. unfold dmod. respects_tac. Qed.
Lemma ids_pdirty p : keeps (pdirty p).
Proof. unfold pdirty. respects_tac. Qed.
Lemma ids_pclean p : keeps (pclean p).
Proof. unfold pclean. respects_tac. Qed.
Lemma ids_pmount p : keeps (pmount p).
Proof. unfold pmount. respects_tac. Qed.
Hint Resolve ids_pdata ids_dmod ids_pdirty ids_pclean ids_pmount : frame_db.
Lemma ids_add_free m sub d : keeps (add_free m sub d).
Proof. unfold add_free. respects_tac. Qed.
Hint Resolve ids_add_free : frame_db.

(** ** cache.c and journal.c *)

Lemma ids_pfsAllocMem : keeps (pfsAllocMem).
Proof. intros s a s' [= _ <-]. done. Qed.
Hint Resolve ids_pfsAllocMem : frame_db.
Lemma ids_pfsGetTime : keeps (pfsGetTime).
Proof. unfold pfsGetTime. respects_tac. Qed.
Hint Resolve ids_pfsGetTime : frame_db.
Lemma ids_buf_transfer m p sub sector size mode : keeps (buf_transfer m p sub sector size mode).
Proof. unfold buf_transfer. respects_tac. Qed.
Hint Resolve ids_buf_transfer : frame_db.
Lemma ids_pfsFsckStat m p stat mode : keeps (pfsFsckStat m p stat mode).
Proof. unfold pfsFsckStat. respects_tac. Qed.
Hint Resolve ids_pfsFsckStat : frame_db.
Lemma ids_pfsCacheLink clink cnew : keeps (pfsCacheLink clink cnew).
Proof. unfold pfsCacheLink. respects_tac. Qed.
Hint Resolve ids_pfsCacheLink : frame_db.
Lemma ids_pfsCacheUnLink clink : keeps (pfsCacheUnLink clink).
Proof. unfold pfsCacheUnLink. respects_tac. Qed.
Hint Resolve ids_pfsCacheUnLink : frame_db.
Lemma ids_pfsCacheFree p : keeps (pfsCacheFree p).
Proof. unfold pfsCacheFree. respects_tac. Qed.
Hint Resolve ids_pfsCacheFree : frame_db.
Lemma ids_pfsCacheUsedAdd clink : keeps (pfsCacheUsedAdd clink).
Proof. unfold pfsCacheUsedAdd. respects_tac. Qed.
Hint Resolve ids_pfsCacheUsedAdd : frame_db.
Lemma ids_pfsCacheTransfer clink mode : keeps (pfsCacheTransfer clink mode).
Proof. unfold pfsCacheTransfer. respects_tac. Qed.
Hint Resolve ids_pfsCacheTransfer : frame_db.
Lemma ids_journal_transfer m mode : keeps (journal_transfer m mode).
Proof. unfold journal_transfer. respects_tac. Qed.
Hint Resolve ids_journal_transfer : frame_db.
Lemma ids_pfsJournalReset m : keeps (pfsJournalReset m).
Proof. unfold pfsJournalReset. respects_tac. Qed.
Hint Resolve ids_pfsJournalReset : frame_db.
Lemma ids_pfsJournalResetThis fd sector : keeps (pfsJournalResetThis fd sector).
Proof. unfold pfsJournalResetThis. respects_tac. Qed.
Hint Resolve ids_pfsJournalResetThis : frame_db.
Lemma ids_pfsJournalFlush m : keeps (pfsJournalFlush m).
Proof. unfold pfsJournalFlush. respects_tac. Qed.
Hint Resolve ids_pfsJournalFlush : frame_db.
Lemma ids_pfsJournalLog m i logSector : keeps (pfsJournalLog m i logSector).
Proof. unfold pfsJournalLog. respects_tac. Qed.
Hint Resolve ids_pfsJournalLog : frame_db.
Lemma ids_pfsJournalWrite m : keeps (pfsJournalWrite m).
Proof. unfold pfsJournalWrite. respects_tac. Qed.
Hint Resolve ids_pfsJournalWrite : frame_db.
Lemma ids_pfsCacheFlushAllDirty m : keeps (pfsCacheFlushAllDirty m).
Proof. unfold pfsCacheFlushAllDirty. respects_tac. Qed.
Hint Resolve ids_pfsCacheFlushAllDirty : frame_db.
Lemma ids_pfsCacheIsFull : keeps (pfsCacheIsFull).
Proof. unfold pfsCacheIsFull. respects_tac. Qed.
Hint Resolve ids_pfsCacheIsFull : frame_db.
Lemma ids_pfsCacheAlloc m sub scale flags : keeps (pfsCacheAlloc m sub scale flags).
Proof. unfold pfsCacheAlloc. respects_tac. Qed.
Hint Resolve ids_pfsCacheAlloc : frame_db.
Lemma ids_pcacheLookup m sub sector : keeps (pcacheLookup m sub sector).
Proof. unfold pcacheLookup. respects_tac. Qed.
Hint Resolve ids_pcacheLookup : frame_db.
Lemma ids_pfsCacheGetData m sub sector flags : keeps (pfsCacheGetData m sub sector flags).
Proof. unfold pfsCacheGetData. respects_tac. Qed.
Hint Resolve ids_pfsCacheGetData : frame_db.
Lemma ids_pfsCacheAllocClean : keeps (pfsCacheAllocClean).
Proof. unfold pfsCacheAllocClean. respects_tac. Qed.
Hint Resolve ids_pfsCacheAllocClean : frame_db.
Lemma ids_pfsCacheInit numBuf bufSize : keeps (pfsCacheInit numBuf bufSize).
Proof. unfold pfsCacheInit. respects_tac. Qed.
Hint Resolve ids_pfsCacheInit : frame_db.
Lemma ids_pfsCacheClose m : keeps (pfsCacheClose m).
Proof. unfold pfsCacheClose. respects_tac. Qed.
Hint Resolve ids_pfsCacheClose : frame_db.
Lemma ids_pfsCacheMarkClean m subpart sectorStart sectorEnd : keeps (pfsCacheMarkClean m subpart sectorStart sectorEnd).
Proof. unfold pfsCacheMarkClean. respects_tac. Qed.
Hint Resolve ids_pfsCacheMarkClean : frame_db.
Lemma ids_pfsJournalRestore m : keeps (pfsJournalRestore m).
Proof. unfold pfsJournalRestore. respects_tac. Qed.
Hint Resolve ids_pfsJournalRestore : frame_db.
(** ** bitmap.c *)

Lemma ids_pfsBitmapSetupInfo m subpart number : keeps (pfsBitmapSetupInfo m subpart number).
Proof. unfold pfsBitmapSetupInfo. respects_tac. Qed.
Hint Resolve ids_pfsBitmapSetupInfo : frame_db.
Lemma ids_bitmapSector m subpart chunk : keeps (bitmapSector m subpart chunk).
Proof. unfold bitmapSector. respects_tac. Qed.
Hint Resolve ids_bitmapSector : frame_db.
Lemma ids_getBitmap m subpart chunk : keeps (getBitmap m subpart chunk).
Proof. unfold getBitmap. respects_tac. Qed.
Hint Resolve ids_getBitmap : frame_db.
Lemma ids_allocFreeStep operation subpart st : keeps (allocFreeStep operation subpart st).
Proof. unfold allocFreeStep. respects_tac. Qed.
Hint Resolve ids_allocFreeStep : frame_db.
Lemma ids_pfsBitmapAllocFree clink operation subpart chunk index bit count : keeps (pfsBitmapAllocFree clink operation subpart chunk index bit count).
Proof. unfold pfsBitmapAllocFree. respects_tac. Qed.
Hint Resolve ids_pfsBitmapAllocFree : frame_db.
Lemma ids_pfsBitmapAllocateAdditionalZones m bi count : keeps (pfsBitmapAllocateAdditionalZones m bi count).
Proof. unfold pfsBitmapAllocateAdditionalZones. respects_tac. Qed.
Hint Resolve ids_pfsBitmapAllocateAdditionalZones : frame_db.
Lemma ids_takeRun m p bi count start : keeps (takeRun m p bi count start).
Proof. unfold takeRun. respects_tac. Qed.
Hint Resolve ids_takeRun : frame_db.
Lemma ids_pfsBitmapAllocZones m bi amount : keeps (pfsBitmapAllocZones m bi amount).
Proof. unfold pfsBitmapAllocZones. respects_tac. Qed.
Hint Resolve ids_pfsBitmapAllocZones : frame_db.
Lemma ids_tryHalves fuel m bi n : keeps (tryHalves fuel m bi n).
Proof. revert bi n. induction fuel as [|k IH]; intros bi n; simpl; respects_tac; apply IH. Qed.
Hint Resolve ids_tryHalves : frame_db.
Lemma ids_searchStep m count st : keeps (searchStep m count st).
Proof. unfold searchStep. respects_tac. Qed.
Hint Resolve ids_searchStep : frame_db.
Lemma ids_pfsBitmapSearchFreeZone fuel m bi max_count : keeps (pfsBitmapSearchFreeZone fuel m bi max_count).
Proof. unfold pfsBitmapSearchFreeZone. respects_tac. Qed.
Hint Resolve ids_pfsBitmapSearchFreeZone : frame_db.
Lemma ids_pfsBitmapFreeBlockSegment m bi : keeps (pfsBitmapFreeBlockSegment m bi).
Proof. unfold pfsBitmapFreeBlockSegment. respects_tac. Qed.
Hint Resolve ids_pfsBitmapFreeBlockSegment : frame_db.
Lemma ids_pfsBitmapCalcFreeZones m sub : keeps (pfsBitmapCalcFreeZones m sub).
Proof. unfold pfsBitmapCalcFreeZones. respects_tac. Qed.
Hint Resolve ids_pfsBitmapCalcFreeZones : frame_db.
Lemma ids_pfsBitmapShow m : keeps (pfsBitmapShow m).
Proof. unfold pfsBitmapShow. respects_tac. Qed.
Hint Resolve ids_pfsBitmapShow : frame_db.
(** ** block.c and inode.c *)

Lemma ids_pfsBlockGetNextSegment clink : keeps (pfsBlockGetNextSegment clink).
Proof. unfold pfsBlockGetNextSegment. respects_tac. Qed.
Hint Resolve ids_pfsBlockGetNextSegment : frame_db.
Lemma ids_pfsBlockSeekNextSegment clink bp : keeps (pfsBlockSeekNextSegment clink bp).
Proof. unfold pfsBlockSeekNextSegment. respects_tac. Qed.
Hint Resolve ids_pfsBlockSeekNextSegment : frame_db.
Lemma ids_pfsBlockSyncPos bp size : keeps (pfsBlockSyncPos bp size).
Proof. unfold pfsBlockSyncPos. respects_tac. Qed.
Hint Resolve ids_pfsBlockSyncPos : frame_db.
Lemma ids_pfsInodeGetData m sub inode : keeps (pfsInodeGetData m sub inode).
Proof. unfold pfsInodeGetData. respects_tac. Qed.
Hint Resolve ids_pfsInodeGetData : frame_db.
Lemma ids_pfsInodeSetTime clink : keeps (pfsInodeSetTime clink).
Proof. unfold pfsInodeSetTime. respects_tac. Qed.
Hint Resolve ids_pfsInodeSetTime : frame_db.
Lemma ids_syncStep used_segments st : keeps (syncStep used_segments st).
Proof. unfold syncStep. respects_tac. Qed.
Hint Resolve ids_syncStep : frame_db.
Lemma ids_pfsInodeSync fuel bp size used_segments : keeps (pfsInodeSync fuel bp size used_segments).
Proof. unfold pfsInodeSync. respects_tac. Qed.
Hint Resolve ids_pfsInodeSync : frame_db.
Lemma ids_pfsBlockInitPos fuel clink position : keeps (pfsBlockInitPos fuel clink position).
Proof. unfold pfsBlockInitPos. respects_tac. Qed.
Hint Resolve ids_pfsBlockInitPos : frame_db.
Lemma ids_pfsGetDentriesChunk bp : keeps (pfsGetDentriesChunk bp).
Proof. unfold pfsGetDentriesChunk. respects_tac. Qed.
Hint Resolve ids_pfsGetDentriesChunk : frame_db.
Lemma ids_pfsGetDentriesAtPos fuel clink position : keeps (pfsGetDentriesAtPos fuel clink position).
Proof. unfold pfsGetDentriesAtPos. respects_tac. Qed.
Hint Resolve ids_pfsGetDentriesAtPos : frame_db.
Lemma ids_pfsBlockExpandSegment clink bp count : keeps (pfsBlockExpandSegment clink bp count).
Proof. unfold pfsBlockExpandSegment. respects_tac. Qed.
Hint Resolve ids_pfsBlockExpandSegment : frame_db.
Lemma ids_pfsBlockGetLastSegmentDescriptorInode clink : keeps (pfsBlockGetLastSegmentDescriptorInode clink).
Proof. unfold pfsBlockGetLastSegmentDescriptorInode. respects_tac. Qed.
Hint Resolve ids_pfsBlockGetLastSegmentDescriptorInode : frame_db.
Lemma ids_afterSegment bp count : keeps (afterSegment bp count).
Proof. unfold afterSegment. respects_tac. Qed.
Hint Resolve ids_afterSegment : frame_db.
Lemma ids_newDescriptor m clink bp bi : keeps (newDescriptor m clink bp bi).
Proof. unfold newDescriptor. respects_tac. Qed.
Hint Resolve ids_newDescriptor : frame_db.
Lemma ids_pfsBlockAllocNewSegment fuel clink bp blocks : keeps (pfsBlockAllocNewSegment fuel clink bp blocks).
Proof. unfold pfsBlockAllocNewSegment. respects_tac. Qed.
Hint Resolve ids_pfsBlockAllocNewSegment : frame_db.
Lemma ids_pfsBlockGetCurrent bp : keeps (pfsBlockGetCurrent bp).
Proof. unfold pfsBlockGetCurrent. respects_tac. Qed.
Hint Resolve ids_pfsBlockGetCurrent : frame_db.
Lemma ids_allocZonesStep fuel clink st : keeps (allocZonesStep fuel clink st).
Proof. unfold allocZonesStep. respects_tac. Qed.
Hint Resolve ids_allocZonesStep : frame_db.
Lemma ids_pfsAllocZones fuel clink msize mode : keeps (pfsAllocZones fuel clink msize mode).
Proof. unfold pfsAllocZones. respects_tac. Qed.
Hint Resolve ids_pfsAllocZones : frame_db.
Lemma ids_freeSegment m bi : keeps (freeSegment m bi).
Proof. unfold freeSegment. respects_tac. Qed.
Hint Resolve ids_freeSegment : frame_db.
Lemma ids_freeBlocksStep m st : keeps (freeBlocksStep m st).
Proof. unfold freeBlocksStep. respects_tac. Qed.
Hint Resolve ids_freeBlocksStep : frame_db.
Lemma ids_pfsBitmapFreeInodeBlocks fuel clink : keeps (pfsBitmapFreeInodeBlocks fuel clink).
Proof. unfold pfsBitmapFreeInodeBlocks. respects_tac. Qed.
Hint Resolve ids_pfsBitmapFreeInodeBlocks : frame_db.
Lemma ids_keepStep limit st : keeps (keepStep limit st).
Proof. unfold keepStep. respects_tac. Qed.
Hint Resolve ids_keepStep : frame_db.
Lemma ids_dropStep m limit st : keeps (dropStep m limit st).
Proof. unfold dropStep. respects_tac. Qed.
Hint Resolve ids_dropStep : frame_db.
Lemma ids_pfsFreeZones pfree : keeps (pfsFreeZones pfree).
Proof. unfold pfsFreeZones. respects_tac. Qed.
Hint Resolve ids_pfsFreeZones : frame_db.
(** ** dir.c *)

Lemma ids_dentryExit dent inode size : keeps (dentryExit dent inode size).
Proof. unfold dentryExit. respects_tac. Qed.
Hint Resolve ids_dentryExit : frame_db.
Lemma ids_getDentryStep fuel clink opt path st : keeps (getDentryStep fuel clink opt path st).
Proof. unfold getDentryStep. respects_tac. Qed.
Hint Resolve ids_getDentryStep : frame_db.
Lemma ids_pfsGetDentry fuel clink path opt : keeps (pfsGetDentry fuel clink path opt).
Proof. unfold pfsGetDentry. respects_tac. Qed.
Hint Resolve ids_pfsGetDentry : frame_db.
Lemma ids_nextDentryStep fuel clink st : keeps (nextDentryStep fuel clink st).
Proof. unfold nextDentryStep. respects_tac. Qed.
Hint Resolve ids_nextDentryStep : frame_db.
Lemma ids_pfsGetNextDentry fuel clink bp position bi : keeps (pfsGetNextDentry fuel clink bp position bi).
Proof. unfold pfsGetNextDentry. respects_tac. Qed.
Hint Resolve ids_pfsGetNextDentry : frame_db.
Lemma ids_pfsFillDentry clink dentry path1 bi len mode : keeps (pfsFillDentry clink dentry path1 bi len mode).
Proof. unfold pfsFillDentry. respects_tac. Qed.
Hint Resolve ids_pfsFillDentry : frame_db.
Lemma ids_pfsDirAddEntry fuel dir filename bi mode : keeps (pfsDirAddEntry fuel dir filename bi mode).
Proof. unfold pfsDirAddEntry. respects_tac. Qed.
Hint Resolve ids_pfsDirAddEntry : frame_db.
Lemma ids_removeWalk fuel clink c size dentry dlast dnext i : keeps (removeWalk fuel clink c size dentry dlast dnext i).
Proof. revert dlast dnext i. induction fuel as [|k IH]; intros dlast dnext i; simpl; respects_tac; apply IH. Qed.
Hint Resolve ids_removeWalk : frame_db.
Lemma ids_pfsDirRemoveEntry fuel clink path : keeps (pfsDirRemoveEntry fuel clink path).
Proof. unfold pfsDirRemoveEntry. respects_tac. Qed.
Hint Resolve ids_pfsDirRemoveEntry : frame_db.
Lemma ids_pfsCheckDirForFiles fuel clink : keeps (pfsCheckDirForFiles fuel clink).
Proof. unfold pfsCheckDirForFiles. respects_tac. Qed.
Hint Resolve ids_pfsCheckDirForFiles : frame_db.
Lemma ids_pfsFillSelfAndParentDentries clink self parent : keeps (pfsFillSelfAndParentDentries clink self parent).
Proof. unfold pfsFillSelfAndParentDentries. respects_tac. Qed.
Hint Resolve ids_pfsFillSelfAndParentDentries : frame_db.
Lemma ids_pfsSetDentryParent fuel clink bi : keeps (pfsSetDentryParent fuel clink bi).
Proof. unfold pfsSetDentryParent. respects_tac. Qed.
Hint Resolve ids_pfsSetDentryParent : frame_db.
Lemma ids_pfsCheckAccess clink flags : keeps (pfsCheckAccess clink flags).
Proof. unfold pfsCheckAccess. respects_tac. Qed.
Hint Resolve ids_pfsCheckAccess : frame_db.
Lemma ids_pfsInodeGetFileInDir fuel dirInode path : keeps (pfsInodeGetFileInDir fuel dirInode path).
Proof. unfold pfsInodeGetFileInDir. respects_tac. Qed.
Hint Resolve ids_pfsInodeGetFileInDir : frame_db.
Lemma ids_pfsInodeFill ci bi mode uid gid : keeps (pfsInodeFill ci bi mode uid gid).
Proof. unfold pfsInodeFill. respects_tac. Qed.
Hint Resolve ids_pfsInodeFill : frame_db.
Lemma ids_parentStep getFile fuel m st : (forall p name, keeps (getFile p name)) -> keeps (parentStep getFile fuel m st).
Proof. intros HG. unfold parentStep. respects_tac. Qed.
Lemma ids_getParent depth fuel m clink filename : keeps (getParent depth fuel m clink filename).
Proof.
  revert clink filename. induction depth as [|k IH]; intros clink filename; simpl; [respects_tac|].
  respects_tac; apply ids_parentStep; intros; respects_tac; apply IH.
Qed.
Hint Resolve ids_getParent : frame_db.
Lemma ids_pfsInodeGetParent fuel m clink filename : keeps (pfsInodeGetParent fuel m clink filename).
Proof. unfold pfsInodeGetParent. respects_tac. Qed.
Hint Resolve ids_pfsInodeGetParent : frame_db.
Lemma ids_pfsInodeGetFile fuel m clink name : keeps (pfsInodeGetFile fuel m clink name).
Proof. unfold pfsInodeGetFile. respects_tac. Qed.
Hint Resolve ids_pfsInodeGetFile : frame_db.
Lemma ids_pfsInodeRemove fuel parent inode path : keeps (pfsInodeRemove fuel parent inode path).
Proof. unfold pfsInodeRemove. respects_tac. Qed.
Hint Resolve ids_pfsInodeRemove : frame_db.
Lemma ids_freePercent m i : keeps (freePercent m i).
Proof. unfold freePercent. respects_tac. Qed.
Hint Resolve ids_freePercent : frame_db.
Lemma ids_pfsGetMaxIndex m : keeps (pfsGetMaxIndex m).
Proof. unfold pfsGetMaxIndex. respects_tac. Qed.
Hint Resolve ids_pfsGetMaxIndex : frame_db.
Lemma ids_pfsInodeCreate fuel clink mode uid gid : keeps (pfsInodeCreate fuel clink mode uid gid).
Proof. unfold pfsInodeCreate. respects_tac. Qed.
Hint Resolve ids_pfsInodeCreate : frame_db.
(** ** superWrite.c *)

Lemma ids_fd_transfer fd p sub sector size mode : keeps (fd_transfer fd p sub sector size mode).
Proof. unfold fd_transfer. respects_tac. Qed.
Hint Resolve ids_fd_transfer : frame_db.
Lemma ids_formatBitmap count fd p sub sector fragment result : keeps (formatBitmap count fd p sub sector fragment result).
Proof. revert sector result. induction count as [|k IH]; intros sector result; simpl; respects_tac; apply IH. Qed.
Hint Resolve ids_formatBitmap : frame_db.
Lemma ids_pfsFormatSub fd sub reserved scale fragment : keeps (pfsFormatSub fd sub reserved scale fragment).
Proof. unfold pfsFormatSub. respects_tac. Qed.
Hint Resolve ids_pfsFormatSub : frame_db.
Lemma ids_formatRoot fd scale sb : keeps (formatRoot fd scale sb).
Proof. unfold formatRoot. respects_tac. Qed.
Hint Resolve ids_formatRoot : frame_db.
Lemma ids_formatSubs fd scale fragment subnumber sb result : keeps (formatSubs fd scale fragment subnumber sb result).
Proof. unfold formatSubs. respects_tac. Qed.
Hint Resolve ids_formatSubs : frame_db.
Lemma ids_pfsFormat fd zonesize fragment : keeps (pfsFormat fd zonesize fragment).
Proof. unfold pfsFormat. respects_tac. Qed.
Hint Resolve ids_pfsFormat : frame_db.
Lemma ids_pfsUpdateSuperBlock m p sub : keeps (pfsUpdateSuperBlock m p sub).
Proof. unfold pfsUpdateSuperBlock. respects_tac. Qed.
Hint Resolve ids_pfsUpdateSuperBlock : frame_db.
Lemma ids_countZones m : keeps (countZones m).
Proof. unfold countZones. respects_tac. Qed.
Hint Resolve ids_countZones : frame_db.
Lemma ids_pfsMountSuperBlock m : keeps (pfsMountSuperBlock m).
Proof. unfold pfsMountSuperBlock. respects_tac. Qed.
Hint Resolve ids_pfsMountSuperBlock : frame_db.
End Frame.

#[export] Hint Resolve ids_bdev ids_pget ids_pmod ids_mget ids_pdata ids_dmod ids_pdirty ids_pclean ids_pmount ids_add_free
  ids_pfsAllocMem ids_pfsGetTime ids_buf_transfer ids_pfsFsckStat ids_pfsCacheLink ids_pfsCacheUnLink
  ids_pfsCacheFree ids_pfsCacheUsedAdd ids_pfsCacheTransfer ids_journal_transfer ids_pfsJournalReset
  ids_pfsJournalResetThis ids_pfsJournalFlush ids_pfsJournalLog ids_pfsJournalWrite ids_pfsCacheFlushAllDirty
  ids_pfsCacheIsFull ids_pfsCacheAlloc ids_pcacheLookup ids_pfsCacheGetData ids_pfsCacheAllocClean
  ids_pfsCacheInit ids_pfsCacheClose ids_pfsCacheMarkClean ids_pfsJournalRestore ids_pfsBitmapSetupInfo
  ids_bitmapSector ids_getBitmap ids_allocFreeStep ids_pfsBitmapAllocFree ids_pfsBitmapAllocateAdditionalZones
  ids_takeRun ids_pfsBitmapAllocZones ids_tryHalves ids_searchStep ids_pfsBitmapSearchFreeZone
  ids_pfsBitmapFreeBlockSegment ids_pfsBitmapCalcFreeZones ids_pfsBitmapShow ids_pfsBlockGetNextSegment
  ids_pfsBlockSeekNextSegment ids_pfsBlockSyncPos ids_pfsInodeGetData ids_pfsInodeSetTime ids_syncStep
  ids_pfsInodeSync ids_pfsBlockInitPos ids_pfsGetDentriesChunk ids_pfsGetDentriesAtPos ids_pfsBlockExpandSegment
  ids_pfsBlockGetLastSegmentDescriptorInode ids_afterSegment ids_newDescriptor ids_pfsBlockAllocNewSegment
  ids_pfsBlockGetCurrent ids_allocZonesStep ids_pfsAllocZones ids_freeSegment ids_freeBlocksStep
  ids_pfsBitmapFreeInodeBlocks ids_keepStep ids_dropStep ids_pfsFreeZones ids_dentryExit ids_getDentryStep
  ids_pfsGetDentry ids_nextDentryStep ids_pfsGetNextDentry ids_pfsFillDentry ids_pfsDirAddEntry ids_removeWalk
  ids_pfsDirRemoveEntry ids_pfsCheckDirForFiles ids_pfsFillSelfAndParentDentries ids_pfsSetDentryParent
  ids_pfsCheckAccess ids_pfsInodeGetFileInDir ids_pfsInodeFill ids_getParent ids_pfsInodeGetParent
  ids_pfsInodeGetFile ids_pfsInodeRemove ids_freePercent ids_pfsGetMaxIndex ids_pfsInodeCreate ids_fd_transfer
  ids_formatBitmap ids_pfsFormatSub ids_formatRoot ids_formatSubs ids_pfsFormat ids_pfsUpdateSuperBlock
  ids_countZones ids_pfsMountSuperBlock : frame_db.
#[export] Hint Extern 1 (respects same_ids (modify _)) => (apply ids_modify; intros ?; done) : frame_db.
#[export] Hint Extern 1 (respects same_ids (mmod _ _)) => (apply ids_mmod; intros ?; done) : frame_db.
