(* ===== verification/PfsMod.v ===== *)
(** * PfsMod: what the operations of the pfs module leave alone

    The rules of Frame for the state of the module: the library keeps slots,
    lock and limits; the transfers keep which slots are open; opening a file
    touches one slot only ([keep_except]).  [post] states what an operation
    returns. *)

From stdpp Require Import base numbers list gmap.
From Stdlib Require Import ZArith Lia RelationClasses.
From S2P Require Import Prelude ApaState PfsState PfsCache PfsBitmap PfsInode PfsDir PfsSuper Pfs PfsFio PfsOps PfsIoctl Frame PfsFrame.

Open Scope Z_scope.
Open Scope c_scope.

(** ** The library's part of the module *)

Section Lib.
Context {D : Type} `{BlockDevice D} `{BlockFiles D}.
Notation keeps := (respects (@same_ids D)).

Lemma ids_flush_if m : keeps (flush_if_writeable m).
Proof. unfold flush_if_writeable. respects_tac. Qed.
Lemma ids_attrBlock fi : keeps (attrBlock fi).
Proof. unfold attrBlock. respects_tac. Qed.
Lemma ids_clearAttrs c : keeps (clearAttrs c).
Proof. unfold clearAttrs. respects_tac. Qed.
Lemma ids_linkStep fuel m st : keeps (linkStep fuel m st).
Proof. unfold linkStep. respects_tac. Qed.
Hint Resolve ids_flush_if ids_attrBlock ids_clearAttrs ids_linkStep : frame_db.
Lemma ids_truncateFile fi : keeps (truncateFile fi).
Proof. unfold truncateFile. respects_tac. Qed.
Lemma ids_fillNew fi parent mode : keeps (fillNew fi parent mode).
Proof. unfold fillNew. respects_tac. Qed.
Hint Resolve ids_truncateFile ids_fillNew : frame_db.
Lemma ids_openExisting fuel m parent fi fl mode r : keeps (openExisting fuel m parent fi fl mode r).
Proof. unfold openExisting. respects_tac. Qed.
Lemma ids_openNew fuel m parent arg file fl mode r : keeps (openNew fuel m parent arg file fl mode r).
Proof. unfold openNew. respects_tac. Qed.
Lemma ids_mayRemove fuel m fi mode r : keeps (mayRemove fuel m fi mode r).
Proof. unfold mayRemove. respects_tac. Qed.
Lemma ids_free_if p : keeps (free_if p).
Proof. unfold free_if. respects_tac. Qed.
Lemma ids_checkTarget fuel f fo fn r : keeps (checkTarget fuel f fo fn r).
Proof. unfold checkTarget. respects_tac. Qed.
Lemma ids_ancestorStep fuel fo st : keeps (ancestorStep fuel fo st).
Proof. unfold ancestorStep. respects_tac. Qed.
Lemma ids_disown p : keeps (disown p).
Proof. unfold disown. respects_tac. Qed.
Hint Resolve ids_openExisting ids_openNew ids_mayRemove ids_free_if ids_checkTarget ids_ancestorStep ids_disown : frame_db.
Lemma ids_checkAncestors fuel fo pn r : keeps (checkAncestors fuel fo pn r).
Proof. unfold checkAncestors. respects_tac. Qed.
Lemma ids_moveEntry fuel f po pn fo fn p1 p2 : keeps (moveEntry fuel f po pn fo fn p1 p2).
Proof. unfold moveEntry. respects_tac. Qed.
Lemma ids_finishRename fuel m po pn fo fn r mv : keeps (finishRename fuel m po pn fo fn r mv).
Proof. unfold finishRename. respects_tac. Qed.
Hint Resolve ids_checkAncestors ids_moveEntry ids_finishRename : frame_db.
Lemma ids_renameIn fuel m po p1 new : keeps (renameIn fuel m po p1 new).
Proof. unfold renameIn. respects_tac. Qed.

(** ioctls *)
Context (low : list Z).
Lemma ids_pure {A} (o : outcome unit A) : keeps (pure_op o).
Proof. intros s a s' E. unfold pure_op in E. destruct o; [|done..]. by injection E as _ <-. Qed.
Hint Resolve ids_pure : frame_db.
Lemma ids_getAentry c k v mode : keeps (getAentry low c k v mode).
Proof. unfold getAentry. respects_tac. Qed.
Hint Resolve ids_getAentry : frame_db.
Lemma ids_attrAdd c k v : keeps (ioctl2AttrAdd low c k v).
Proof. unfold ioctl2AttrAdd. respects_tac. Qed.
Lemma ids_attrDelete c k : keeps (ioctl2AttrDelete low c k).
Proof. unfold ioctl2AttrDelete. respects_tac. Qed.
Lemma ids_attrLoopUp c k : keeps (ioctl2AttrLoopUp low c k).
Proof. unfold ioctl2AttrLoopUp. respects_tac. Qed.
Lemma ids_attrRead fuel c o : keeps (ioctl2AttrRead fuel c o).
Proof. unfold ioctl2AttrRead. respects_tac. Qed.
Hint Resolve ids_attrAdd ids_attrDelete ids_attrLoopUp ids_attrRead : frame_db.
Lemma ids_ioctl2Attr fuel c cmd arg o : keeps (ioctl2Attr low fuel c cmd arg o).
Proof. unfold ioctl2Attr. respects_tac. Qed.
Lemma ids_fsckStat m mode : keeps (devctlFsckStat m mode).
Proof. unfold devctlFsckStat. respects_tac. Qed.
End Lib.

#[export] Hint Resolve ids_flush_if ids_openExisting ids_openNew ids_mayRemove ids_renameIn ids_ioctl2Attr ids_fsckStat
  : frame_db.

(** ** The state of the module *)

Section Mod.
Context {D : Type}.
Notation world := (pfs_world D).

(** Which slots are open, to which file, except the inode of slot [x]. *)
Definition slots_except (x : option nat) (s s' : list pfs_file_slot_t) : Prop :=
  forall j, ps_fd <$> s' !! j = ps_fd <$> s !! j /\ (Some j <> x -> ps_clink <$> s' !! j = ps_clink <$> s !! j).

Definition keep_except (x : option nat) (w w' : world) : Prop :=
  pfsFioSema w' = pfsFioSema w /\ maxMount w' = maxMount w /\ same_ids (lib w) (lib w') /\
  slots_except x (pfsFileSlots w) (pfsFileSlots w').

#[export] Instance keep_except_preorder x : PreOrder (keep_except x).
Proof.
  split.
  - intros w. repeat split; done.
  - intros w1 w2 w3 (A1 & A2 & A3 & A4) (B1 & B2 & B3 & B4).
    split; [congruence|]. split; [congruence|]. split; [by etrans|].
    intros j. destruct (A4 j) as [C1 C2], (B4 j) as [E1 E2]. split; [congruence|]. intros Hj. rewrite E2, C2; done.
Qed.

Lemma keep_weaken x w w' : keep_except None w w' -> keep_except x w w'.
Proof.
  intros (A1 & A2 & A3 & A4). split; [done|]. split; [done|]. split; [done|]. intros j. destruct (A4 j) as [C1 C2].
  split; [done|]. intros _. by apply C2.
Qed.

Lemma keep_op {A} x (m : M (pfs_st D) A) : respects same_ids m -> respects (keep_except x) (pfs_op m).
Proof.
  intros Hm w a w' E. unfold pfs_op in E. destruct (m (lib w)) as [b l| |] eqn:Em; [|done..]. injection E as _ <-.
  split; [done|]. split; [done|]. split; [by eapply Hm|]. intros j. done.
Qed.

Lemma keep_pslot x i : respects (keep_except x) (@pslot D i).
Proof. intros w a w' E. unfold pslot in E. destruct (pfsFileSlots w !! i); [|done]. by injection E as _ <-. Qed.
Lemma keep_pfile x f : respects (keep_except x) (@pfile D f).
Proof. intros w a w' E. unfold pfile in E. destruct (pfiles w !! f); [|done]. by injection E as _ <-. Qed.
Lemma keep_clink x s : respects (keep_except x) (@slot_clink D s).
Proof. unfold slot_clink. destruct (ps_clink s); [apply respects_ret; exact _|apply respects_undef]. Qed.
Lemma keep_pos x s : respects (keep_except x) (@slot_pos D s).
Proof. unfold slot_pos. destruct (ps_inode s); [apply respects_ret; exact _|apply respects_undef]. Qed.

(** A change of slot [i] that keeps its file, and its inode unless it is the
    excepted one. *)
Lemma keep_slotmod x i f : (forall s, ps_fd (f s) = ps_fd s) -> (Some i <> x -> forall s, ps_clink (f s) = ps_clink s) ->
  respects (keep_except x) (@pslotmod D i f).
Proof.
  intros H1 H2 w a w' E. unfold pslotmod in E. destruct (pfsFileSlots w !! i) as [s|] eqn:Ei; [|done]. injection E as _ <-.
  split; [done|]. split; [done|]. split; [done|]. intros j. simpl.
  destruct (decide (i = j)) as [<-|Hj].
  - rewrite list_lookup_insert_eq by (by eapply lookup_lt_Some). rewrite Ei. simpl. rewrite H1. split; [done|].
    intros Hx. by rewrite H2.
  - by rewrite list_lookup_insert_ne.
Qed.

Lemma keep_filemod x f g : respects (keep_except x) (@pfilemod D f g).
Proof. intros w a w' E. unfold pfilemod in E. destruct (pfiles w !! f); [|done]. injection E as _ <-. repeat split; done. Qed.
End Mod.

#[export] Hint Resolve keep_op keep_pslot keep_pfile keep_clink keep_pos keep_filemod : frame_db.
#[export] Hint Extern 1 (respects (keep_except _) (pslotmod _ _)) =>
  (apply keep_slotmod; [intros ?; done|intros ? ?; done]) : frame_db.
#[export] Hint Extern 1 (respects (keep_except (Some ?i)) (pslotmod ?i _)) =>
  (apply keep_slotmod; [intros ?; done|intros []; done]) : frame_db.
#[export] Hint Extern 3 (respects (keep_except _) (pfs_op _)) => (apply keep_op; solve [auto with frame_db]) : frame_db.

Section Keep.
Context {D : Type} `{BlockDevice D} `{BlockFiles D} (x : option nat).
Notation keeps := (respects (@keep_except D x)).

Lemma keep_lastError m r : keeps (pfsFioCheckForLastError m r).
Proof. unfold pfsFioCheckForLastError. respects_tac. Qed.
Lemma keep_un_transfer i m mode : keeps (un_transfer i m mode).
Proof. unfold un_transfer. respects_tac. Qed.
Lemma keep_holds m sub sec s : keeps (holds m sub sec s).
Proof. unfold holds. respects_tac. Qed.
Hint Resolve keep_lastError keep_un_transfer keep_holds : frame_db.
Lemma keep_dirtySlot m sub sec : keeps (dirtySlot m sub sec).
Proof. unfold dirtySlot. respects_tac. Qed.
Lemma keep_syncReaders i m : keeps (syncReaders i m).
Proof. unfold syncReaders. respects_tac. Qed.
Lemma keep_loadSector i m sub sec pos : keeps (loadSector i m sub sec pos).
Proof. unfold loadSector. respects_tac. Qed.
Hint Resolve keep_dirtySlot keep_syncReaders keep_loadSector : frame_db.
Lemma keep_remainder i data size op : keeps (fileTransferRemainder i data size op).
Proof. unfold fileTransferRemainder. respects_tac. Qed.
Lemma keep_nextSegment fuel i c y size op : keeps (nextSegment fuel i c y size op).
Proof. unfold nextSegment. respects_tac. Qed.
Lemma keep_flushPartial i m bi bp y size : keeps (flushPartial i m bi bp y size).
Proof. unfold flushPartial. respects_tac. Qed.
Lemma keep_bdev {A} (m : M D A) : keeps (pfs_op (bdev m)).
Proof. apply keep_op, ids_bdev. Qed.
Hint Resolve keep_remainder keep_nextSegment keep_flushPartial keep_bdev : frame_db.
Lemma keep_transferPart i m bi bp y addr data size left op : keeps (transferPart i m bi bp y addr data size left op).
Proof. unfold transferPart. respects_tac. Qed.
Hint Resolve keep_transferPart : frame_db.
Lemma keep_transferStep fuel i total op st : keeps (transferStep fuel i total op st).
Proof. unfold transferStep. respects_tac. Qed.
Lemma keep_expandFor i size : keeps (expandFor i size).
Proof. unfold expandFor. respects_tac. Qed.
Hint Resolve keep_transferStep keep_expandFor : frame_db.
Lemma keep_fileTransfer fuel i addr data size op : keeps (fileTransfer fuel i addr data size op).
Proof. unfold fileTransfer. respects_tac. Qed.
Lemma keep_freeSlot : keeps freeSlot.
Proof. unfold freeSlot. respects_tac. Qed.
Lemma keep_seek fuel i off wh mode : keeps (_seek fuel i off wh mode).
Proof. unfold _seek. respects_tac. Qed.
Lemma keep_remove fuel m path mode : keeps (_remove fuel m path mode).
Proof. unfold _remove. respects_tac. Qed.
Lemma keep_dreadEntry fuel i : keeps (dreadEntry fuel i).
Proof. unfold dreadEntry. respects_tac. Qed.
Lemma keep_sync : keeps _sync.
Proof. unfold _sync. respects_tac. Qed.
Lemma keep_mountInUse m : keeps (mountInUse m).
Proof. unfold mountInUse. respects_tac. Qed.
Lemma keep_mountedUnit u : keeps (pfsGetMountedUnit u).
Proof. unfold pfsGetMountedUnit. respects_tac. Qed.
Lemma keep_mountedAs fd : keeps (mountedAs fd).
Proof. unfold mountedAs. respects_tac. Qed.
Lemma keep_isBlock n : keeps (isBlockDevice n).
Proof.
  intros w a w' E. unfold isBlockDevice in E. destruct (PfsHdd.pfsGetBlockDeviceTable n tt); [|done..].
  by injection E as _ <-.
Qed.
Lemma keep_bfile {A} (m : M D A) : keeps (bfile m).
Proof. apply keep_bdev. Qed.
Lemma keep_privdata f : keeps (pprivdata f).
Proof. unfold pprivdata. respects_tac. Qed.
End Keep.

#[export] Hint Resolve keep_lastError keep_un_transfer keep_fileTransfer keep_freeSlot keep_seek keep_remove keep_dreadEntry
  keep_sync keep_mountInUse keep_mountedUnit keep_mountedAs keep_isBlock keep_bfile keep_privdata keep_bdev : frame_db.

(** Opening a file touches the slot it fills. *)
Section Open.
Context {D : Type} `{BlockDevice D} `{BlockFiles D} (i : nat).
Notation keeps := (respects (@keep_except D (Some i))).

Lemma keep_fillSlot fuel m fi fl : keeps (fillSlot fuel m i fi fl).
Proof. unfold fillSlot. respects_tac. Qed.
Hint Resolve keep_fillSlot : frame_db.
End Open.

(** ** Results *)

(** [post m Q]: what [m] returns satisfies [Q]. *)
Definition post {S A} (m : M S A) (Q : A -> Prop) : Prop := forall s a s', m s = Done a s' -> Q a.

Lemma post_ret {S A} (a : A) (Q : A -> Prop) : Q a -> post (S := S) (ret a) Q.
Proof. intros HQ s b s' [= <- _]. done. Qed.
Lemma post_undef {S A} (Q : A -> Prop) : post (S := S) undef Q.
Proof. discriminate 1. Qed.
Lemma post_bind {S A B} (m : M S A) (k : A -> M S B) (Q : B -> Prop) :
  (forall a, post (k a) Q) -> post (bind m k) Q.
Proof. intros Hk s b s' E. apply bind_inv in E as (a & s1 & E1 & E2). by eapply Hk. Qed.
Lemma post_bind' {S A B} (m : M S A) (k : A -> M S B) (P : A -> Prop) (Q : B -> Prop) :
  post m P -> (forall a, P a -> post (k a) Q) -> post (bind m k) Q.
Proof. intros Hm Hk s b s' E. apply bind_inv in E as (a & s1 & E1 & E2). eapply Hk; [by eapply Hm|exact E2]. Qed.
Lemma post_while {S St R} (body : St -> M S (St + R)) (Q : R -> Prop) :
  (forall st, post (body st) (fun r => match r with inr x => Q x | inl _ => True end)) ->
  forall fuel st, post (while_ fuel body st) Q.
Proof.
  intros Hb. induction fuel as [|n IH]; intros st; [discriminate 1|]. simpl.
  eapply post_bind'; [apply Hb|]. intros [st'|r] Hr; [apply IH|by apply post_ret].
Qed.

Ltac post_step :=
  match goal with
  | |- post (ret _) _ => apply post_ret
  | |- post undef _ => apply post_undef
  | |- post (bind _ _) _ => apply post_bind; intros ?
  | |- post (match ?x with _ => _ end) _ => destruct x eqn:?
  end.
Ltac post_tac := repeat post_step.

(** A lookup that finds nothing reports an error. *)
Definition found_or_error {A} (r : option A * Z) : Prop := r.1 = None -> r.2 <> 0.

Section Results.
Context {D : Type} `{BlockDevice D} `{BlockFiles D}.

Lemma alloc_result m sub sec fl : post (pfsCacheAlloc (D := D) m sub sec fl) (fun r => r.1 = None -> r.2 = Some (- ENOMEM)).
Proof. unfold pfsCacheAlloc. post_tac; done. Qed.

Lemma getData_result m sub sec fl : post (pfsCacheGetData (D := D) m sub sec fl) found_or_error.
Proof.
  unfold pfsCacheGetData, found_or_error. cbv zeta. apply post_bind. intros [i|]; [post_tac; done|].
  eapply post_bind'; [apply alloc_result|]. intros [[p|] r] Hr; simpl in Hr.
  - destruct (nz _); [post_tac; done|]. apply post_bind. intros v.
    destruct (Z.leb_spec 0 v); post_tac; simpl; try done. lia.
  - rewrite Hr by done. post_tac. done.
Qed.

Lemma getFileInDir_result fuel d path : post (pfsInodeGetFileInDir (D := D) fuel d path) found_or_error.
Proof.
  unfold pfsInodeGetFileInDir, found_or_error.
  destruct path; [post_tac; done|]. do 3 (apply post_bind; intros ?). destruct (_ && _); [post_tac; done|].
  apply post_bind. intros v. destruct (Z.ltb_spec v 0); [post_tac; simpl; lia|].
  apply post_bind. intros [[[cl o]|] sz]; [|post_tac; done].
  do 2 (apply post_bind; intros ?). unfold pfsInodeGetData. apply post_bind. intros y. apply getData_result.
Qed.

Lemma create_result fuel c mode uid gid : post (pfsInodeCreate (D := D) fuel c mode uid gid) found_or_error.
Proof.
  unfold pfsInodeCreate. do 4 (apply post_bind; intros ?). apply post_bind. intros [r b]. destruct (Z.ltb_spec r 0).
  { apply post_ret. unfold found_or_error. simpl. lia. }
  eapply post_bind'; [apply getData_result|]. intros [[p|] r2] Hr; [|by apply post_ret].
  apply post_bind. intros _. destruct (negb _); [apply post_ret; done|]. apply post_bind. intros [r3 b3].
  destruct (Z.ltb_spec r3 0); post_tac; unfold found_or_error; simpl; try done. lia.
Qed.

Definition dir_or_error (r : option nat * list Z * Z) : Prop := r.1.1 = None -> r.2 <> 0.

Lemma fileOf_result fuel (c : option nat) path r : (c = None -> r <> 0) ->
  post (S := pfs_st D) match c with
       | None => ret (None, r)
       | Some d => x <- pfsInodeGetFileInDir fuel d path ;; (let (f, r) := x in pfsCacheFree (Some d) ;;; ret (f, r))
       end found_or_error.
Proof.
  intros Hr. destruct c as [d|]; [|apply post_ret; exact (fun _ => Hr eq_refl)].
  eapply post_bind'; [apply getFileInDir_result|]. intros [f r'] Hf. apply post_bind. intros _. by apply post_ret.
Qed.

Lemma parentStep_result getFile fuel m st : (forall p name, post (getFile p name) found_or_error) ->
  post (parentStep (D := D) getFile fuel m st) (fun r => match r with inr x => dir_or_error x | inl _ => True end).
Proof.
  intros HG. destruct st as [filename [p|]]; unfold parentStep; [|apply post_undef].
  destruct (pfsSplitPath filename) as [[rest|] path]; [|apply post_ret; done].
  apply post_bind. intros b. destruct rest as [|c rest]; [destruct (_ =? _); post_tac; done|].
  eapply post_bind'; [apply getFileInDir_result|]. intros [[q|] r] Hr.
  - apply post_bind. intros bq. destruct (_ =? _); [|post_tac; done]. apply post_bind. intros links.
    destruct (4 <=? links); [post_tac; done|]. apply post_bind. intros _.
    eapply post_bind'; [apply HG|]. intros [[l|] r2] Hr2; post_tac; (done || (intros _; by apply Hr2)).
  - post_tac. intros _. by apply Hr.
Qed.

Lemma getParent_result depth fuel m c name : post (getParent (D := D) depth fuel m c name) dir_or_error.
Proof.
  revert c name. induction depth as [|k IH]; intros c name; [discriminate 1|]. simpl.
  destruct name as [|c0 name]; [post_tac; done|]. apply post_bind. intros x.
  eapply (post_bind' _ _ found_or_error).
  - destruct (c0 =? 47); [apply post_bind; intros _|destruct c; [by apply post_ret|]];
      unfold pfsInodeGetData; apply post_bind; intros y; apply getData_result.
  - intros [[d|] r] Hr; [|apply post_ret; intros _; by apply Hr]. apply (post_while (parentStep _ fuel m)).
    intros st. apply parentStep_result. intros p nm. eapply post_bind'; [apply IH|].
    intros [[e path] r2] Hr2. by apply fileOf_result.
Qed.

Lemma inodeGetParent_result fuel m c name : post (pfsInodeGetParent (D := D) fuel m c name) dir_or_error.
Proof. unfold pfsInodeGetParent. apply getParent_result. Qed.

Lemma openExisting_result fuel m p fi fl mode r : post (openExisting (D := D) fuel m p fi fl mode r)
  (fun x => x.2 = None -> x.1.1 <> 0).
Proof.
  unfold openExisting. cbv zeta. destruct (_ || _); [by apply post_ret|].
  eapply (post_bind' _ _ (fun x : Z * option nat * option nat * bool => x.1.2 = None -> x.1.1.1 <> 0)).
  - apply post_while. intros [[[count parent] f] res]. unfold linkStep. apply post_bind. intros b.
    destruct (is_lnk b); [|post_tac; done]. destruct (4 <=? count); [post_tac; done|].
    apply post_bind. intros [[[q|] file] r1]; [|post_tac; done]. apply post_bind. intros _.
    eapply post_bind'; [apply getFileInDir_result|]. intros [[g|] r2] Hr; post_tac; [done|]. intros _. by apply Hr.
  - intros [[[r1 p1] [f1|]] go] Hr; simpl in Hr; [|apply post_ret; done]. destruct go; post_tac; done.
Qed.

Lemma openNew_result fuel m p arg file fl mode r : r <> 0 -> post (openNew (D := D) fuel m p arg file fl mode r)
  (fun x => (x.1.2 = None -> x.1.1 <> 0) /\ (x.2 = arg \/ x.2 = ANull /\ exists t, arg = ALink t)).
Proof.
  intros Hr. unfold openNew. destruct (negb _); [apply post_ret; simpl; auto|]. apply post_bind. intros v.
  destruct (Z.eqb_spec v 0); simpl; [|apply post_ret; simpl; auto].
  apply post_bind. intros x. eapply post_bind'; [apply create_result|]. intros [[f|] r2] Hr2; [|apply post_ret; simpl; auto].
  eapply (post_bind' _ _ (fun a => a = arg \/ a = ANull /\ exists t, arg = ALink t)).
  - destruct (_ =? _); [|apply post_ret; auto]. destruct arg; post_tac; eauto.
  - intros a Ha. post_tac; simpl; auto.
Qed.
End Results.

(** What [openFile] does to the slot it is given. *)
Section OpenFile.
Context {D : Type} `{BlockDevice D} `{BlockFiles D}.

Definition slot_at (w : pfs_world D) (i : nat) (P : pfs_file_slot_t -> Prop) : Prop :=
  exists s, pfsFileSlots w !! i = Some s /\ P s.

Lemma keep_slot_at (P : pfs_file_slot_t -> Prop) w w' i :
  (forall s s', ps_clink s' = ps_clink s -> P s -> P s') -> keep_except None w w' ->
  slot_at w i P -> slot_at w' i P.
Proof.
  intros HP (_ & _ & _ & K) (s & Es & Hs). destruct (K i) as [_ K2]. rewrite Es in K2. specialize (K2 ltac:(done)).
  simpl in K2. destruct (pfsFileSlots w' !! i) as [s'|] eqn:E'; [|done]. simpl in K2. exists s'. split; [done|].
  eapply HP; [|exact Hs]. congruence.
Qed.

Lemma pslotmod_at (w w' : pfs_world D) i f u : pslotmod i f w = Done u w' -> slot_at w' i (fun s => exists t, s = f t).
Proof.
  unfold pslotmod. destruct (pfsFileSlots w !! i) as [s|] eqn:E; [|done]. intros [= _ <-]. exists (f s).
  split; [|eauto]. simpl. apply list_lookup_insert_eq. by eapply lookup_lt_Some.
Qed.

(** A slot filled without an error has its inode. *)
Lemma fillSlot_result fuel m i fi fl w r w' : fillSlot fuel m i fi fl w = Done r w' ->
  match r with None => slot_at w' i (fun s => ps_clink s = Some fi) | Some v => v <> 0 end.
Proof.
  unfold fillSlot. intros E. apply bind_inv in E as (u & w1 & E1 & E).
  assert (S1 : slot_at w1 i (fun s => ps_clink s = Some fi)).
  { destruct (pslotmod_at _ _ _ _ _ E1) as (s & Hs & t & ->). by exists (set_clink (Some fi) t). }
  assert (K : forall A (k : M (pfs_world D) A) a wx wy, k wx = Done a wy -> respects (keep_except None) k ->
    slot_at wx i (fun s => ps_clink s = Some fi) -> slot_at wy i (fun s => ps_clink s = Some fi)).
  { intros A k a wx wy Ek Hk. apply keep_slot_at; [by intros s s' ->|by eapply Hk]. }
  apply bind_inv in E as (b & w2 & E2 & E). apply (K _ _ _ _ _ E2) in S1; [|solve [auto with frame_db]].
  apply bind_inv in E as (u2 & w3 & E3 & E). apply (K _ _ _ _ _ E3) in S1; [|solve [auto with frame_db]].
  apply bind_inv in E as ([[res q] bp] & w4 & E4 & E). apply (K _ _ _ _ _ E4) in S1; [|solve [auto with frame_db]].
  apply bind_inv in E as (u5 & w5 & E5 & E). apply (K _ _ _ _ _ E5) in S1; [|solve [auto with frame_db]].
  apply bind_inv in E as (v & w6 & E6 & E). apply (K _ _ _ _ _ E6) in S1; [|clear; respects_tac].
  destruct (Z.eqb_spec v 0) as [->|Hv]; [by injection E as <- <-|].
  apply bind_inv in E as (u7 & w7 & E7 & [= <- <-]). done.
Qed.

Lemma lastError_result m r : post (pfsFioCheckForLastError (D := D) m r) (fun v => r <> 0 -> v <> 0).
Proof.
  unfold pfsFioCheckForLastError. apply post_bind. intros x. apply post_ret. intros Hr.
  destruct (nz _) eqn:E; [|done]. by apply nz_true.
Qed.

Lemma op_keep {A} (m : M (pfs_st D) A) w a w' x : pfs_op m w = Done a w' -> respects same_ids m ->
  keep_except x w w' /\ exists l, m (lib w) = Done a l.
Proof.
  intros E Hm. split; [by eapply (keep_op x m Hm)|]. unfold pfs_op in E.
  destruct (m (lib w)) as [b l| |]; [|done..]. injection E as -> _. eauto.
Qed.

(** The file, or an error, before the slot is filled. *)
Lemma openBody_result fuel m parent fi file arg fl mode r x w y w' : (fi = None -> r <> 0) ->
  match fi with
  | Some f => z <- pfs_op (openExisting fuel m parent f fl mode r) ;; (let (y, f) := z in let (r, p) := y in ret (r, p, f, arg))
  | None => z <- pfs_op (openNew fuel m parent arg file fl mode r) ;; (let (y, a) := z in let (r, f) := y in ret (r, Some parent, f, a))
  end w = Done y w' ->
  keep_except x w w' /\ (y.1.2 = None -> y.1.1.1 <> 0) /\ (y.2 = arg \/ y.2 = ANull /\ exists t, arg = ALink t).
Proof.
  intros Hr E. destruct fi as [f|].
  - apply bind_inv in E as ([[r1 p1] f1] & w1 & E1 & [= <- <-]).
    destruct (op_keep _ _ _ _ x E1 ltac:(auto with frame_db)) as [K (l & El)]. split; [done|].
    split; [exact (openExisting_result _ _ _ _ _ _ _ _ _ _ El)|by left].
  - apply bind_inv in E as ([[r1 f1] a1] & w1 & E1 & [= <- <-]).
    destruct (op_keep _ _ _ _ x E1 ltac:(auto with frame_db)) as [K (l & El)]. split; [done|].
    exact (openNew_result _ _ _ _ _ _ _ _ (Hr eq_refl) _ _ _ El).
Qed.

(** [openFile] with a slot: only that slot changes, and when the file was
    opened it holds the inode. *)
Lemma openFile_slot fuel m i name fl mode w rv w' : openFile fuel m (ASlot i) name fl mode w = Done rv w' ->
  keep_except (Some i) w w' /\ (rv = 0 -> slot_at w' i (fun s => is_Some (ps_clink s))).
Proof.
  unfold openFile. intros E. apply bind_inv in E as ([[parent file] r0] & w1 & E1 & E).
  destruct (op_keep _ _ _ _ (Some i) E1 ltac:(auto with frame_db)) as [K1 (l1 & El1)]. apply inodeGetParent_result in El1.
  destruct parent as [parent|].
  2: { injection E as <- <-. split; [done|]. intros ->. by destruct El1. }
  apply bind_inv in E as ([fi r] & w2 & E2 & E).
  destruct (op_keep _ _ _ _ (Some i) E2 ltac:(auto with frame_db)) as [K2 (l2 & El2)]. apply getFileInDir_result in El2.
  apply bind_inv in E as ([[[r3 p3] f3] a3] & w3 & E3 & E).
  destruct (openBody_result fuel m parent fi file (ASlot i) fl mode r (Some i) w2 _ w3 El2 E3) as (K3 & R3 & A3). simpl in R3, A3.
  apply bind_inv in E as ([] & w4 & E4 & E). destruct (op_keep _ _ _ _ (Some i) E4 ltac:(auto with frame_db)) as [K4 _].
  apply bind_inv in E as (left & w5 & E5 & E).
  assert (K : keep_except (Some i) w w4) by (etrans; [exact K1|etrans; [exact K2|etrans; [exact K3|exact K4]]]).
  destruct A3 as [-> |[_ [t [=]]]].
  assert (H5 : keep_except (Some i) w4 w5 /\
    match left with None => slot_at w5 i (fun s => is_Some (ps_clink s)) | Some v => v <> 0 end).
  { destruct f3 as [f3|]; [|injection E5 as <- <-; split; [done|by apply R3]].
    destruct (Z.eqb_spec r3 0); [|by injection E5 as <- <-].
    split; [by eapply keep_fillSlot|]. apply fillSlot_result in E5. destruct left; [done|].
    destruct E5 as (s & Es & Hs). exists s. rewrite Hs. eauto. }
  destruct H5 as [K5 R5]. destruct left as [v|].
  2: { injection E as <- <-. split; [by etrans|done]. }
  apply bind_inv in E as ([] & w6 & E6 & E).
  assert (K6 : keep_except (Some i) w5 w6).
  { destruct f3; [|by injection E6 as <-]. by destruct (op_keep _ _ _ _ (Some i) E6 ltac:(auto with frame_db)) as [? _]. }
  split.
  - etrans; [exact K|etrans; [exact K5|etrans; [exact K6|]]]. by eapply keep_lastError.
  - intros ->. by destruct (lastError_result _ _ _ _ _ E R5).
Qed.

(** Without a slot (a new directory or link) no slot changes. *)
Lemma openFile_keep fuel m arg name fl mode x : (forall i, arg <> ASlot i) ->
  respects (keep_except x) (openFile (D := D) fuel m arg name fl mode).
Proof.
  intros Ha. unfold openFile. apply respects_bind; [exact _|solve [auto with frame_db]|]. intros [[[p|] f] r]; [|respects_tac].
  apply respects_bind; [exact _|solve [auto with frame_db]|]. intros [fi r2].
  intros w a w' E. apply bind_inv in E as ([[[r3 p3] f3] a3] & w1 & E1 & E). transitivity w1.
  - revert E1. destruct fi; apply respects_bind; [exact _|solve [auto with frame_db]| |exact _|solve [auto with frame_db]|];
      intros [[? ?] ?]; respects_tac.
  - assert (A3 : forall i, a3 <> ASlot i).
    { destruct fi; apply bind_inv in E1 as ([[? ?] ?] & w2 & E2 & [= ]); subst; [done|].
      destruct (op_keep _ _ _ _ None E2 ltac:(auto with frame_db)) as [_ (l & El)].
      destruct (Z.eqb_spec r2 0) as [->|Hr].
      - unfold openNew in El. rewrite andb_comm in El. simpl in El. injection El as <- <- <- _. done.
      - by destruct (openNew_result _ _ _ _ _ _ _ _ Hr _ _ _ El) as [_ [R|[R _]]]; simpl in R; subst. }
    clear E1. revert w1 a w' E. refine (_ : respects _ _). destruct a3 as [k| |t]; [by destruct (A3 k)|..]; respects_tac.
Qed.
End OpenFile.
