(* ===== verification/PfsInv.v ===== *)
(** * PfsInv: the invariant of the pfs module

    Between two calls the lock is free, no descriptor is mounted twice, and
    every slot with an open file has its inode.  [steps p m q] states what [m]
    does to the lock: [p] before, [q] (of the result) after. *)

From stdpp Require Import base numbers list gmap.
From Stdlib Require Import ZArith Lia RelationClasses.
From S2P Require Import Prelude ApaState PfsState PfsCache PfsBitmap PfsInode PfsDir PfsSuper Pfs PfsFio PfsOps PfsIoctl Frame PfsFrame PfsMod.

Open Scope Z_scope.
Open Scope c_scope.

(** ** The invariant *)

Section Inv.
Context {D : Type}.
Notation world := (pfs_world D).

(** Two mounts in use have different descriptors, and the scan of
    [pfsConfig.maxMount] entries meets every mount. *)
Definition mounts_ok (w : world) : Prop :=
  (forall i j x y, pfsMountBuf (lib w) !! i = Some x -> pfsMountBuf (lib w) !! j = Some y ->
     busy x = true -> busy y = true -> m_fd x = m_fd y -> i = j) /\
  (length (pfsMountBuf (lib w)) <= Z.to_nat (maxMount w))%nat.

(** An open file has its inode. *)
Definition slots_ok (w : world) : Prop :=
  forall i s, pfsFileSlots w !! i = Some s -> is_Some (ps_fd s) -> is_Some (ps_clink s).

Inductive phase := Free | Taken.

(** The lock, which before [pfsFioInit] and after [pfsFioDeinit] does not exist. *)
Definition at_phase (p : phase) (w : world) : Prop :=
  pfsFioSema w = None \/ pfsFioSema w = Some (match p with Free => 1 | Taken => 0 end).

Definition good (w : world) : Prop := mounts_ok w /\ slots_ok w.

(** Keeping lock and invariant. *)
Definition keep_good (w w' : world) : Prop := good w -> pfsFioSema w' = pfsFioSema w /\ good w'.

#[export] Instance keep_good_preorder : PreOrder keep_good.
Proof. split; [by intros w|]. intros w1 w2 w3 A B G. destruct (A G) as [A1 A2], (B A2) as [B1 B2]. split; [congruence|done]. Qed.

Lemma ids_lookup (s s' : pfs_st D) i : same_ids s s' -> ident <$> pfsMountBuf s' !! i = ident <$> pfsMountBuf s !! i.
Proof. unfold same_ids. rewrite <- !list_lookup_fmap. by intros ->. Qed.

Lemma ident_inv (x y : pfs_mount_t) : ident x = ident y -> m_fd x = m_fd y /\ busy x = busy y.
Proof. unfold ident, busy. intros [= -> ->]. done. Qed.

Lemma ids_lookup_Some (s s' : pfs_st D) i x : same_ids s s' -> pfsMountBuf s' !! i = Some x ->
  exists y, pfsMountBuf s !! i = Some y /\ m_fd x = m_fd y /\ busy x = busy y.
Proof.
  intros Hs E. pose proof (ids_lookup _ _ i Hs) as Hi. rewrite E in Hi.
  destruct (pfsMountBuf s !! i) as [y|]; [|done]. injection Hi as Hi. exists y. split; [done|].
  apply ident_inv. by unfold ident; f_equal.
Qed.

Lemma keep_mounts_ok (w w' : world) : maxMount w' = maxMount w -> same_ids (lib w) (lib w') -> mounts_ok w -> mounts_ok w'.
Proof.
  intros Hm Hs [H1 H2]. split.
  - intros i j x y Ei Ej Bx By Ef.
    destruct (ids_lookup_Some _ _ _ _ Hs Ei) as (x' & Ex & Fx & Gx), (ids_lookup_Some _ _ _ _ Hs Ej) as (y' & Ey & Fy & Gy).
    apply (H1 i j x' y'); congruence.
  - rewrite Hm. rewrite <- (length_fmap ident (pfsMountBuf (lib w'))), Hs, length_fmap. done.
Qed.

Lemma keep_slots_ok (w w' : world) : slots_except None (pfsFileSlots w) (pfsFileSlots w') -> slots_ok w -> slots_ok w'.
Proof.
  intros Hs Ok i s' E' Hf. destruct (Hs i) as [F C]. specialize (C ltac:(done)). rewrite E' in F, C. simpl in F, C.
  destruct (pfsFileSlots w !! i) as [s|] eqn:E; [|done]. simpl in F, C. injection F as F. injection C as C.
  rewrite C. rewrite F in Hf. by eapply Ok.
Qed.

Lemma keep_is_good w w' : keep_except None w w' -> keep_good w w'.
Proof.
  intros (A1 & A2 & A3 & A4) [G1 G2]. split; [done|]. split; [by eapply keep_mounts_ok|by eapply keep_slots_ok].
Qed.

Lemma good_keep {A} (m : M world A) : respects (keep_except None) m -> respects keep_good m.
Proof. apply respects_mono. exact keep_is_good. Qed.

(** ** The lock *)

Definition steps {A} (p : phase) (m : M world A) (q : A -> phase) : Prop :=
  forall w a w', m w = Done a w' -> at_phase p w -> good w -> at_phase (q a) w' /\ good w'.

Lemma steps_ret {A} p q (a : A) : q a = p -> steps p (ret a) q.
Proof. intros <- w b w' [= -> <-]. done. Qed.
Lemma steps_undef {A} p (q : A -> phase) : steps p undef q.
Proof. discriminate 1. Qed.
Lemma steps_bind {A B} p (q : A -> phase) r (m : M world A) (k : A -> M world B) :
  steps p m q -> (forall a, steps (q a) (k a) r) -> steps p (bind m k) r.
Proof.
  intros Hm Hk w b w' E Hp G. apply bind_inv in E as (a & w1 & E1 & E2). destruct (Hm _ _ _ E1 Hp G) as [H1 G1].
  by apply (Hk a _ _ _ E2).
Qed.
Lemma steps_keep {A} p (m : M world A) : respects keep_good m -> steps p m (fun _ => p).
Proof. intros Hm w a w' E Hp G. destruct (Hm _ _ _ E G) as [Hs Hg]. split; [|done]. unfold at_phase in *. by rewrite Hs. Qed.
Lemma steps_kbind {A B} p r (m : M world A) (k : A -> M world B) :
  respects keep_good m -> (forall a, steps p (k a) r) -> steps p (bind m k) r.
Proof. intros Hm Hk. eapply steps_bind; [by apply steps_keep|]. intros a. apply Hk. Qed.

Lemma good_sema v w : good (with_psema v w) <-> good w.
Proof. done. Qed.
Lemma steps_wait : steps Free WaitSema (fun _ => Taken).
Proof.
  intros w [] w' E Hp G. unfold WaitSema in E. unfold at_phase in *. destruct Hp as [Hp|Hp]; rewrite Hp in E; simpl in E; injection E as <-; auto.
Qed.
Lemma steps_signal : steps Taken SignalSema (fun _ => Free).
Proof. intros w [] w' [= <-] Hp G. unfold at_phase in *. simpl. destruct Hp as [Hp|Hp]; rewrite Hp; auto. Qed.
End Inv.

#[export] Hint Extern 4 (respects keep_good _) => (apply good_keep; solve [auto with frame_db]) : frame_db.

(** ** What changes the mounts and the slots *)

Section Change.
Context {D : Type} `{BlockDevice D} `{BlockFiles D}.
Notation world := (pfs_world D).

(** A mount replaced by one that is not in use, or whose descriptor is new. *)
Definition new_mount (w : world) (i : nat) (y : pfs_mount_t) : Prop :=
  busy y = true -> forall j x, j <> i -> pfsMountBuf (lib w) !! j = Some x -> busy x = true -> m_fd x <> m_fd y.

Lemma insert_mount (w : world) l i y : new_mount w i y -> pfsMountBuf l = <[i := y]> (pfsMountBuf (lib w)) ->
  mounts_ok w -> mounts_ok (with_lib l w).
Proof.
  intros Hy El [H1 H2]. split; [|simpl; by rewrite El, length_insert]. simpl. rewrite El.
  intros j k x z Ej Ek Bx Bz Ef. apply list_lookup_insert_Some in Ej, Ek.
  destruct Ej as [(<- & <- & _)|[Nj Ej]], Ek as [(<- & <- & _)|[Nk Ek]]; [done|..].
  - by destruct (Hy Bx k z).
  - by destruct (Hy Bz j x).
  - by apply (H1 j k x z).
Qed.

Lemma mmod_good m f (w : world) w' u : pfs_op (mmod m f) w = Done u w' ->
  (forall x, pfsMountBuf (lib w) !! m = Some x -> new_mount w m (f x)) -> keep_good w w'.
Proof.
  unfold pfs_op, mmod. intros E Hn. destruct (pfsMountBuf (lib w) !! m) as [x|] eqn:Em; [|done].
  injection E as _ <-. intros [G1 G2]. split; [done|]. split; [|exact G2].
  eapply insert_mount; [by apply Hn| |done]. done.
Qed.

Lemma good_clearMount m : respects keep_good (pfs_op (D := D) (pfsClearMount m)).
Proof. intros w u w' E. eapply mmod_good; [exact E|]. intros x _. discriminate 1. Qed.

(** A scan that leaves the loop at the first hit. *)
Lemma for_break_scan {S I R} (body : I -> unit -> M S (unit + R)) (P : I -> Prop) (Q : R -> Prop) s :
  (forall i s' r, body i tt s = Done r s' -> s' = s /\ match r with inl _ => P i | inr v => Q v end) ->
  forall l r s', for_break l body tt s = Done r s' ->
  s' = s /\ match r with inl _ => forall i, i ∈ l -> P i | inr v => Q v end.
Proof.
  intros Hb. induction l as [|i l IH]; intros r s' E; simpl in E.
  - injection E as <- <-. split; [done|]. intros i Hi. by apply elem_of_nil in Hi.
  - apply bind_inv in E as ([[]|v] & s1 & E1 & E2); destruct (Hb _ _ _ E1) as [-> Hi].
    + destruct (IH _ _ E2) as [-> Hl]. split; [done|]. destruct r as [[]|v]; [|done]. intros j Hj.
      apply elem_of_cons in Hj as [->|Hj]; auto.
    + by injection E2 as <- <-.
Qed.

Lemma op_mget m (w : world) x w' : pfs_op (mget m) w = Done x w' -> pfsMountBuf (lib w) !! m = Some x /\ w' = w.
Proof.
  unfold pfs_op, mget. destruct (pfsMountBuf (lib w) !! m) as [y|]; [|done]. intros [= <- <-]. by destruct w.
Qed.

(** A negative answer of the scan: no mount in use has the descriptor. *)
Lemma mountedAs_none fd (w : world) w' : mountedAs fd w = Done false w' -> mounts_ok w ->
  w' = w /\ forall j x, pfsMountBuf (lib w) !! j = Some x -> busy x = true -> m_fd x <> fd.
Proof.
  unfold mountedAs. intros E [_ HL]. apply bind_inv in E as (w0 & w1 & [= <- <-] & E).
  apply bind_inv in E as (r & w2 & E1 & E2).
  apply (for_break_scan _ (fun i => forall x, pfsMountBuf (lib w) !! Z.to_nat i = Some x -> busy x = true -> m_fd x <> fd)
    (fun b => b = true)) in E1.
  2: { intros i w3 rr Eb. apply bind_inv in Eb as (y & w4 & E3 & E4). apply op_mget in E3 as [Ey ->].
    destruct (busy y) eqn:By; simpl in E4; [destruct (Z.eqb_spec fd (m_fd y))|]; injection E4 as <- <-;
      (split; [done|]); [done|..]; rewrite Ey; intros ? [= <-]; congruence. }
  destruct E1 as [-> HP]. destruct r as [[]|b]; injection E2; [|congruence]. intros <-. split; [done|].
  intros j x Ej. pose proof (lookup_lt_Some _ _ _ Ej) as Hj. rewrite <- (Nat2Z.id j) in Ej. revert Ej. apply HP.
  unfold range. apply list_elem_of_In, in_map_iff. exists j. split; [lia|]. apply in_seq. lia.
Qed.

(** The descriptor [fd] is that of mount [m] only. *)
Definition only_mount (s : pfs_st D) (m : nat) (fd : Z) : Prop :=
  (forall x, pfsMountBuf s !! m = Some x -> m_fd x = fd) /\
  forall j x, j <> m -> pfsMountBuf s !! j = Some x -> busy x = true -> m_fd x <> fd.

Lemma only_mount_ids (s s' : pfs_st D) m fd : same_ids s s' -> only_mount s m fd -> only_mount s' m fd.
Proof.
  intros Hs [H1 H2]. split.
  - intros x E. destruct (ids_lookup_Some _ _ _ _ Hs E) as (y & Ey & -> & _). eauto.
  - intros j x Hj E Hb. destruct (ids_lookup_Some _ _ _ _ Hs E) as (y & Ey & -> & Eb). eapply H2; [done..|congruence].
Qed.

Lemma only_mount_insert (s s' : pfs_st D) m fd x : m_fd x = fd -> pfsMountBuf s' = <[m := x]> (pfsMountBuf s) ->
  (forall j y, pfsMountBuf s !! j = Some y -> busy y = true -> m_fd y <> fd) -> only_mount s' m fd.
Proof.
  intros Hx E Hn. split; rewrite E.
  - intros y Ey. apply list_lookup_insert_Some in Ey as [(_ & <- & _)|[? _]]; done.
  - intros j y Hj Ey. rewrite list_lookup_insert_ne in Ey by done. by apply (Hn j).
Qed.

(** [mountDevice] takes the mount only for a descriptor no mount in use has. *)
Lemma good_mountDevice fd unit flag : respects keep_good (mountDevice (D := D) fd unit flag).
Proof.
  intros w rv w' E. unfold mountDevice in E. apply bind_inv in E as (? & ? & [= <- <-] & E).
  destruct (_ <=? _); [by injection E as _ <-|]. set (m := Z.to_nat unit) in *.
  apply bind_inv in E as (x & w1 & E1 & E). apply op_mget in E1 as [Ex ->].
  destruct (busy x); [by injection E as _ <-|]. apply bind_inv in E as ([] & w1 & E1 & E).
  { injection E as _ <-. apply keep_is_good. by eapply keep_mountedAs. }
  intros G. destruct (mountedAs_none _ _ _ E1 (proj1 G)) as [-> Hn].
  apply bind_inv in E as ([] & w2 & E2 & E). apply bind_inv in E as (r & w3 & E3 & E).
  assert (K2 : keep_good w w2) by (eapply mmod_good; [exact E2|]; intros y Ey B j z Hj Ez Bz; by eapply Hn).
  assert (O2 : only_mount (lib w2) m fd).
  { unfold pfs_op, mmod in E2. rewrite Ex in E2. injection E2 as <-. by apply (only_mount_insert (lib w) _ m fd (m_set_mounted fd flag x)). }
  destruct (op_keep _ _ _ _ None E3 ltac:(auto with frame_db)) as [K3 (l & El)].
  assert (O3 : only_mount (lib w3) m fd) by (eapply only_mount_ids; [apply K3|done]).
  apply keep_is_good in K3. refine ((_ : keep_good w w') G). destruct (r <? 0); [injection E as _ <-; by etrans|].
  apply bind_inv in E as ([] & w4 & E4 & [= _ <-]). etrans; [exact K2|]. etrans; [exact K3|].
  eapply mmod_good; [exact E4|]. intros y Ey _ j z Hj Ez Bz. simpl. rewrite (proj1 O3 y Ey). by apply (proj2 O3 j).
Qed.

(** A slot gets a file once it has an inode, and is cleared as a whole. *)
Lemma slotmod_good i f (w : world) u w' : pslotmod i f w = Done u w' ->
  (forall s, pfsFileSlots w !! i = Some s -> is_Some (ps_fd (f s)) -> is_Some (ps_clink (f s))) ->
  (forall j s, j <> i -> pfsFileSlots w !! j = Some s -> is_Some (ps_fd s) -> is_Some (ps_clink s)) ->
  mounts_ok w -> pfsFioSema w' = pfsFioSema w /\ good w'.
Proof.
  unfold pslotmod. destruct (pfsFileSlots w !! i) as [s|] eqn:Es; [|done]. intros [= _ <-] Hi Hj G.
  split; [done|]. split; [exact G|]. intros j t Ej. simpl in Ej.
  apply list_lookup_insert_Some in Ej as [(<- & <- & _)|[Nj Ej]]; [by apply Hi|]. by apply (Hj j).
Qed.

Lemma good_zeroSlot i : respects keep_good (pslotmod (D := D) i (fun _ => zero_pslot)).
Proof. intros w u w' E [G1 G2]. eapply slotmod_good; [exact E| |eauto|done]. intros s _ []. done. Qed.

Lemma freeSlot_spec (w : world) i w' : freeSlot w = Done (Some i) w' -> w' = w /\ slot_at w i (fun s => ps_fd s = None).
Proof.
  unfold freeSlot. intros E. apply bind_inv in E as (? & ? & [= <- <-] & E). apply bind_inv in E as (r & w1 & E1 & E).
  apply (for_break_scan _ (fun _ => True) (fun i => slot_at w i (fun s => ps_fd s = None))) in E1.
  2: { intros j w2 r2 Eb. apply bind_inv in Eb as (s & w3 & E3 & E4). unfold pslot in E3.
    destruct (pfsFileSlots w !! j) as [t|] eqn:Et; [|done]. injection E3 as <- <-.
    destruct (ps_fd t) eqn:Ef; injection E4 as <- <-; split; try done. by exists t. }
  destruct E1 as [-> H1]. destruct r as [[]|j]; [done|]. by injection E as -> <-.
Qed.

(** A file opened in a free slot. *)
Lemma good_openSlot fuel f m i name fl mode (w : world) rv w' : slot_at w i (fun s => ps_fd s = None) ->
  (rv <- openFile fuel m (ASlot i) name fl mode ;;
   if nz rv then ret rv
   else pslotmod i (set_fd (Some f)) ;;; pfilemod f (fun x => mkFile (f_mode x) (f_unit x) (Some i)) ;;; ret 0) w
   = Done rv w' -> keep_good w w'.
Proof.
  intros (s0 & Es0 & F0) E [G1 G2]. apply bind_inv in E as (r & w1 & E1 & E).
  apply openFile_slot in E1 as [(K1 & K2 & K3 & K4) S1].
  assert (M1 : mounts_ok w1) by by eapply keep_mounts_ok.
  assert (J : forall j s, j <> i -> pfsFileSlots w1 !! j = Some s -> is_Some (ps_fd s) -> is_Some (ps_clink s)).
  { intros j s Hj Es Hf. destruct (K4 j) as [A B]. specialize (B ltac:(congruence)). rewrite Es in A, B. simpl in A, B.
    destruct (pfsFileSlots w !! j) as [t|] eqn:Et; [|done]. simpl in A, B. injection A as A. injection B as B.
    rewrite B. rewrite A in Hf. by eapply G2. }
  destruct (nz r) eqn:Er.
  - injection E as <- <-. split; [done|]. split; [done|]. intros j s Es Hf. destruct (decide (j = i)) as [->|Hj]; [|by eapply J].
    destruct (K4 i) as [A _]. rewrite Es, Es0 in A. injection A as A. rewrite A, F0 in Hf. by destruct Hf.
  - apply bind_inv in E as ([] & w2 & E2 & E). apply bind_inv in E as ([] & w3 & E3 & [= <- <-]).
    destruct S1 as (s1 & Es1 & C1); [by apply nz_false|].
    destruct (slotmod_good _ _ _ _ _ E2) as [K Gw]; [|done..|].
    { intros s Es _. rewrite Es1 in Es. by injection Es as <-. }
    eapply (keep_filemod None), keep_is_good in E3. destruct (E3 Gw) as [L Gw3]. split; [congruence|done].
Qed.

Lemma good_closeFileSlot i : respects keep_good (pfsFioCloseFileSlot (D := D) i).
Proof.
  unfold pfsFioCloseFileSlot.
  repeat (apply respects_bind; [exact _|solve [auto with frame_db]|intros ?]). destruct (ps_fd _); [|apply respects_undef].
  do 2 (apply respects_bind; [exact _|solve [auto with frame_db | apply good_keep; respects_tac]|intros ?]).
  repeat (apply respects_bind; [exact _|solve [auto with frame_db]|intros ?]). apply good_zeroSlot.
Qed.

Lemma good_closeAll : respects keep_good (pfsFioDevctlCloseAll (D := D)).
Proof.
  unfold pfsFioDevctlCloseAll. apply respects_bind; [exact _|apply respects_get; exact _|intros w].
  apply respects_bind; [exact _| |intros _; apply good_keep; respects_tac].
  apply respects_for; [exact _|]. intros i _. apply respects_bind; [exact _|solve [auto with frame_db]|intros s].
  destruct (ps_fd s); [apply good_closeFileSlot|apply respects_ret; exact _].
Qed.

Lemma good_mmod_ids m f : (forall x, ident (f x) = ident x) -> respects keep_good (pfs_op (D := D) (mmod m f)).
Proof. intros Hf. apply good_keep, keep_op, ids_mmod, Hf. Qed.
End Change.

#[export] Hint Resolve good_clearMount good_mountDevice good_closeFileSlot good_closeAll : frame_db.
