(* ===== verification/PfsCalls.v ===== *)
(** * PfsCalls: every entry of the device table keeps the invariant

    One lemma per handler of pfs_fio.c and pfs_fioctl.c: entered with the lock
    free, it returns with the lock free and the invariant of PfsInv kept. *)

From stdpp Require Import base numbers list gmap.
From Stdlib Require Import ZArith Lia RelationClasses.
From S2P Require Import Prelude ApaState PfsState PfsCache PfsBitmap PfsInode PfsDir PfsSuper Pfs PfsFio PfsOps PfsIoctl Frame PfsFrame PfsMod PfsInv.

Open Scope Z_scope.
Open Scope c_scope.

Section Handlers.
Context {D : Type} `{BlockDevice D} `{BlockFiles D}.
Notation world := (pfs_world D).
Notation MW := (M world).

(** A handler: the lock is free before and after. *)
Notation handler m := (steps Free m (fun _ => Free)).

Lemma steps_bodyret {A} (a : A) : steps (D := D) Taken (SignalSema ;;; ret a) (fun _ => Free).
Proof. eapply steps_bind; [apply steps_signal|]. intros []. by apply steps_ret. Qed.

Lemma steps_mountedUnit u : steps (D := D) Free (pfsFioGetMountedUnit u)
  (fun m => match m with Some _ => Taken | None => Free end).
Proof.
  unfold pfsFioGetMountedUnit. eapply steps_bind; [apply steps_wait|]. intros [].
  apply steps_kbind; [auto with frame_db|]. intros [m|]; [by apply steps_ret|].
  eapply steps_bind; [apply steps_signal|]. intros []. by apply steps_ret.
Qed.

(** The handlers that begin with the mount of the file, or with its slot. *)
Lemma steps_onMount {A} f (k : option nat -> MW A) : handler (k None) ->
  (forall m, steps Taken (k (Some m)) (fun _ => Free)) ->
  handler (x <- pfile f ;; m <- pfsFioGetMountedUnit (f_unit x) ;; k m).
Proof.
  intros H1 H2. apply steps_kbind; [auto with frame_db|]. intros x. eapply steps_bind; [apply steps_mountedUnit|].
  intros [m|]; auto.
Qed.

Lemma checkSlot_result i : post (pfsFioCheckFileSlot (D := D) i) (fun rv => rv = 0 \/ rv = - EBADF).
Proof. unfold pfsFioCheckFileSlot. post_tac; auto. Qed.

Lemma steps_checkSlot {A} i (k : Z -> MW A) : steps Taken (k 0) (fun _ => Free) -> handler (k (- EBADF)) ->
  handler (rv <- pfsFioCheckFileSlot i ;; k rv).
Proof.
  intros H1 H2.
  assert (HC : steps (D := D) Free (pfsFioCheckFileSlot i) (fun rv => if rv =? 0 then Taken else Free)).
  { unfold pfsFioCheckFileSlot. eapply steps_bind; [apply steps_wait|]. intros []. apply steps_kbind; [auto with frame_db|].
    intros s. destruct (ps_clink s); [by apply steps_ret|]. eapply steps_bind; [apply steps_signal|]. intros []. by apply steps_ret. }
  intros w b w' E Hp G. apply bind_inv in E as (rv & w1 & E1 & E2). destruct (HC _ _ _ E1 Hp G) as [P1 G1].
  destruct (checkSlot_result _ _ _ _ E1) as [-> | ->]; [by apply (H1 w1 b w')|by apply (H2 w1 b w')].
Qed.

Lemma steps_with_mount f (body : nat -> MW Z) : (forall m, respects keep_good (body m)) -> handler (with_mount f body).
Proof.
  intros Hb. unfold with_mount. apply steps_onMount; [by apply steps_ret|]. intros m.
  apply steps_kbind; [apply Hb|]. intros rv. apply steps_bodyret.
Qed.

Lemma steps_with_mount_err f (body : nat -> MW Z) : (forall m, respects keep_good (body m)) -> handler (with_mount_err f body).
Proof.
  intros Hb. unfold with_mount_err. apply steps_onMount; [by apply steps_ret|]. intros m.
  apply steps_kbind; [apply Hb|]. intros rv. eapply steps_bind; [apply steps_signal|]. intros [].
  apply steps_keep. auto with frame_db.
Qed.

Lemma steps_with_slot f (body : nat -> MW Z) : (forall i, respects keep_good (body i)) -> handler (with_slot f body).
Proof.
  intros Hb. unfold with_slot. apply steps_kbind; [auto with frame_db|]. intros i.
  apply steps_checkSlot; [|by apply steps_ret]. simpl. apply steps_kbind; [apply Hb|]. intros rv. apply steps_bodyret.
Qed.
End Handlers.

Notation handler m := (steps Free m (fun _ => Free)).

(** Most bodies change neither a mount nor which slots are open. *)
Ltac kept := apply good_keep; respects_tac.

Section Table.
Context {D : Type} `{BlockDevice D} `{BlockFiles D}.
Notation world := (pfs_world D).
Notation MW := (M world).
Hint Extern 3 (respects (keep_except _) (openFile _ _ _ _ _ _)) => (apply openFile_keep; done) : frame_db.

Lemma steps_open fuel f name flags mode : handler (pfsFioOpen (D := D) fuel f name flags mode).
Proof.
  unfold pfsFioOpen. destruct name as [name|]; [|by apply steps_ret]. apply steps_with_mount. intros m w rv w' E.
  apply bind_inv in E as ([i|] & w1 & E1 & E).
  - apply freeSlot_spec in E1 as [-> S1]. apply bind_inv in E as (x & w2 & E2 & E). unfold pfile in E2.
    destruct (pfiles w !! f); [|done]. injection E2 as _ <-. by eapply good_openSlot.
  - injection E as _ <-. apply keep_is_good. by eapply keep_freeSlot.
Qed.
Lemma steps_close f : handler (pfsFioClose (D := D) f).
Proof.
  apply steps_with_slot. intros i. apply respects_bind; [exact _|apply good_closeFileSlot|intros _]. apply respects_ret. exact _.
Qed.
Lemma steps_read fuel f addr data size : handler (pfsFioRead (D := D) fuel f addr data size).
Proof.
  unfold pfsFioRead. apply steps_kbind; [auto with frame_db|]. intros i. apply steps_checkSlot; [|by apply steps_ret]. simpl.
  do 3 (apply steps_kbind; [auto with frame_db|]; intros ?).
  apply steps_kbind; [kept|]. intros [result d]. do 4 (apply steps_kbind; [auto with frame_db|]; intros ?). apply steps_bodyret.
Qed.
Lemma steps_write fuel f addr data size : handler (pfsFioWrite (D := D) fuel f addr data size).
Proof. apply steps_with_slot. intros i. kept. Qed.
Lemma steps_lseek fuel f pos whence : handler (pfsFioLseek (D := D) fuel f pos whence).
Proof. unfold pfsFioLseek. apply steps_kbind; [auto with frame_db|]. intros x. apply steps_with_slot. intros i. kept. Qed.
Lemma steps_lseek64 fuel f pos whence : handler (pfsFioLseek64 (D := D) fuel f pos whence).
Proof. unfold pfsFioLseek64. apply steps_kbind; [auto with frame_db|]. intros x. apply steps_with_slot. intros i. kept. Qed.
Lemma steps_remove fuel f name : handler (pfsFioRemove (D := D) fuel f name).
Proof. apply steps_with_mount. intros m. kept. Qed.
Lemma steps_mkdir fuel f path mode : handler (pfsFioMkdir (D := D) fuel f path mode).
Proof. apply steps_with_mount. intros m. kept. Qed.
Lemma steps_rmdir fuel f path : handler (pfsFioRmdir (D := D) fuel f path).
Proof. unfold pfsFioRmdir. destruct (_ =? _); [by apply steps_ret|]. apply steps_with_mount. intros m. kept. Qed.
Lemma steps_dread fuel f : handler (pfsFioDread (D := D) fuel f).
Proof.
  unfold pfsFioDread. apply steps_kbind; [auto with frame_db|]. intros i. apply steps_checkSlot; [|by apply steps_ret]. simpl.
  do 3 (apply steps_kbind; [auto with frame_db|]; intros ?). apply steps_kbind; [kept|]. intros [[rv nm] st].
  apply steps_kbind; [kept|]. intros ?. apply steps_bodyret.
Qed.
Lemma steps_getstat fuel f name : handler (pfsFioGetstat (D := D) fuel f name).
Proof.
  apply steps_onMount; [by apply steps_ret|]. intros m. apply steps_kbind; [auto with frame_db|]. intros [c rv].
  apply steps_kbind; [kept|]. intros st. eapply steps_bind; [apply steps_signal|]. intros [].
  apply steps_kbind; [auto with frame_db|]. intros ?. by apply steps_ret.
Qed.
Lemma steps_chstat fuel f name st mask : handler (pfsFioChstat (D := D) fuel f name st mask).
Proof. apply steps_with_mount_err. intros m. kept. Qed.
Lemma steps_chdir fuel f name : handler (pfsFioChdir (D := D) fuel f name).
Proof. apply steps_with_mount_err. intros m. kept. Qed.
Lemma steps_format dev args arglen : handler (pfsFioFormat (D := D) dev args arglen).
Proof.
  unfold pfsFioFormat. destruct args as [|z rest]; [apply steps_undef|]. apply steps_kbind; [kept|]. intros fr.
  apply steps_kbind; [kept|]. intros []; [|by apply steps_ret]. simpl. eapply steps_bind; [apply steps_wait|]. intros [].
  apply steps_kbind; [kept|]. intros fd. apply steps_kbind; [kept|]. intros rv. apply steps_bodyret.
Qed.
Lemma steps_mount f dev flag : handler (pfsFioMount (D := D) f dev flag).
Proof.
  unfold pfsFioMount. apply steps_kbind; [kept|]. intros []; [|by apply steps_ret]. simpl.
  eapply steps_bind; [apply steps_wait|]. intros []. apply steps_kbind; [kept|]. intros fd.
  apply steps_kbind; [|intros rv; apply steps_bodyret]. destruct (fd <? 0); [apply respects_ret; exact _|].
  apply respects_bind; [exact _|auto with frame_db|intros x]. apply respects_bind; [exact _|auto with frame_db|intros rv]. kept.
Qed.
Lemma steps_umount f : handler (pfsFioUmount (D := D) f).
Proof.
  apply steps_with_mount. intros m. apply respects_bind; [exact _|auto with frame_db|]. intros []; [kept|].
  repeat (apply respects_bind; [exact _|solve [auto with frame_db]|intros ?]). apply respects_ret. exact _.
Qed.
Lemma steps_sync f : handler (pfsFioSync (D := D) f).
Proof. apply steps_with_mount_err. intros m. kept. Qed.
Lemma steps_symlink fuel f old new : handler (pfsFioSymlink (D := D) fuel f old new).
Proof. unfold pfsFioSymlink. destruct old, new; try by apply steps_ret. apply steps_with_mount. intros m. kept. Qed.
Lemma steps_readlink fuel f path len : handler (pfsFioReadlink (D := D) fuel f path len).
Proof.
  apply steps_onMount; [by apply steps_ret|]. intros m. apply steps_kbind; [auto with frame_db|]. intros [c rv].
  apply steps_kbind; [kept|]. intros [rv' out]. eapply steps_bind; [apply steps_signal|]. intros [].
  apply steps_kbind; [auto with frame_db|]. intros ?. by apply steps_ret.
Qed.
Lemma steps_rename fuel f old new : handler (pfsFioRename (D := D) fuel f old new).
Proof. apply steps_with_mount_err. intros m. kept. Qed.
Lemma steps_devctl f cmd arg : handler (pfsFioDevctl (D := D) f cmd arg).
Proof.
  apply steps_with_mount. intros m. apply respects_bind; [exact _|auto with frame_db|intros x].
  do 2 (destruct (_ =? _); [kept|]).
  destruct (_ =? _); [apply respects_bind; [exact _|apply good_closeAll|intros _; apply respects_ret; exact _]|]. kept.
Qed.
Lemma steps_ioctl2 low fuel f cmd arg : handler (pfsFioIoctl2 (D := D) low fuel f cmd arg).
Proof.
  unfold pfsFioIoctl2. apply steps_kbind; [auto with frame_db|]. intros x. do 2 (destruct (_ && _); [by apply steps_ret|]).
  apply steps_kbind; [auto with frame_db|]. intros i. apply steps_checkSlot; [|by apply steps_ret]. simpl.
  do 3 (apply steps_kbind; [auto with frame_db|]; intros ?). apply steps_kbind; [kept|]. intros [rv out].
  do 2 (apply steps_kbind; [kept|]; intros ?). apply steps_bodyret.
Qed.
Lemma steps_deinit : handler (pfsFioDeinit (D := D)).
Proof.
  unfold pfsFioDeinit. apply steps_kbind; [apply good_closeAll|]. intros _ w a w' E _ G.
  apply bind_inv in E as ([] & w1 & [= <-] & [= <- <-]). split; [by left|done].
Qed.
End Table.
