(* ===== verification/PfsReach.v ===== *)
(** * PfsReach: the pfs module over any sequence of calls

    The calls iomanX makes on the module, the states they reach after the
    module was started, and the invariant of these states. *)

From stdpp Require Import base numbers list gmap.
From Stdlib Require Import ZArith Lia RelationClasses.
From S2P Require Import Prelude ApaState PfsState PfsCache PfsBitmap PfsInode PfsDir PfsSuper Pfs PfsFio PfsOps PfsIoctl Frame PfsFrame PfsMod PfsInv PfsCalls Scenario PfsScenario PfsRam.

Open Scope Z_scope.
Open Scope c_scope.

(** A call through the table [pfsOps]. *)
Inductive pfs_call :=
  | COpen (f : nat) (name : option (list Z)) (flags mode : Z)
  | CClose (f : nat)
  | CRead (f : nat) (addr : Z) (data : list Z) (size : Z)
  | CWrite (f : nat) (addr : Z) (data : list Z) (size : Z)
  | CLseek (f : nat) (pos whence : Z)
  | CLseek64 (f : nat) (pos whence : Z)
  | CIoctl
  | CIoctl2 (f : nat) (cmd : Z) (arg : ioctlArg)
  | CRemove (f : nat) (name : list Z)
  | CMkdir (f : nat) (path : list Z) (mode : Z)
  | CRmdir (f : nat) (path : list Z)
  | CDopen (f : nat) (name : option (list Z))
  | CDread (f : nat)
  | CGetstat (f : nat) (name : list Z)
  | CChstat (f : nat) (name : list Z) (st : iox_stat_t) (mask : Z)
  | CRename (f : nat) (old new : list Z)
  | CChdir (f : nat) (name : list Z)
  | CSync (f : nat)
  | CFormat (dev args : list Z) (arglen : Z)
  | CMount (f : nat) (dev : list Z) (flag : Z)
  | CUmount (f : nat)
  | CDevctl (f : nat) (cmd : Z) (arg : option Z)
  | CSymlink (f : nat) (old new : option (list Z))
  | CReadlink (f : nat) (path : list Z) (len : Z)
  | CDeinit.

Section Reach.
Context {D : Type} `{BlockDevice D} `{BlockFiles D} (low : list Z) (fuel : nat).
Notation world := (pfs_world D).
Notation MW := (M world).

Definition nores {A} (m : MW A) : MW unit := m ;;; ret tt.

Definition pfsOps (c : pfs_call) : MW unit :=
  match c with
  | COpen f name flags mode => nores (pfsFioOpen fuel f name flags mode)
  | CClose f => nores (pfsFioClose f)
  | CRead f addr data size => nores (pfsFioRead fuel f addr data size)
  | CWrite f addr data size => nores (pfsFioWrite fuel f addr data size)
  | CLseek f pos whence => nores (pfsFioLseek fuel f pos whence)
  | CLseek64 f pos whence => nores (pfsFioLseek64 fuel f pos whence)
  | CIoctl => nores pfsFioIoctl
  | CIoctl2 f cmd arg => nores (pfsFioIoctl2 low fuel f cmd arg)
  | CRemove f name => nores (pfsFioRemove fuel f name)
  | CMkdir f path mode => nores (pfsFioMkdir fuel f path mode)
  | CRmdir f path => nores (pfsFioRmdir fuel f path)
  | CDopen f name => nores (pfsFioDopen fuel f name)
  | CDread f => nores (pfsFioDread fuel f)
  | CGetstat f name => nores (pfsFioGetstat fuel f name)
  | CChstat f name st mask => nores (pfsFioChstat fuel f name st mask)
  | CRename f old new => nores (pfsFioRename fuel f old new)
  | CChdir f name => nores (pfsFioChdir fuel f name)
  | CSync f => nores (pfsFioSync f)
  | CFormat dev args arglen => nores (pfsFioFormat dev args arglen)
  | CMount f dev flag => nores (pfsFioMount f dev flag)
  | CUmount f => nores (pfsFioUmount f)
  | CDevctl f cmd arg => nores (pfsFioDevctl f cmd arg)
  | CSymlink f old new => nores (pfsFioSymlink fuel f old new)
  | CReadlink f path len => nores (pfsFioReadlink fuel f path len)
  | CDeinit => nores pfsFioDeinit
  end.

(** The module as it is loaded. *)
Definition loaded (w : world) : Prop :=
  pfsMountBuf (lib w) = [] /\ pfsFileSlots w = [] /\ pfsFioSema w = None /\ maxMount w = 1.

(** Started, then called any number of times; between two calls iomanX may
    change its own files. *)
Inductive reached : world -> Prop :=
  | reached_start w room argv r w' : loaded w -> _start room argv w = Done r w' -> reached w'
  | reached_call c w w' : reached w -> pfsOps c w = Done tt w' -> reached w'
  | reached_files fs w : reached w -> reached (with_pfiles fs w).

Lemma steps_call c : steps Free (pfsOps c) (fun _ => Free).
Proof.
  assert (HN : forall A (m : MW A), steps Free m (fun _ => Free) -> steps Free (nores m) (fun _ => Free)).
  { intros A m Hm. eapply steps_bind; [exact Hm|]. intros a. by apply steps_ret. }
  destruct c; simpl; apply HN; try apply steps_open;
    eauto using steps_close, steps_read, steps_write, steps_lseek, steps_lseek64, steps_ioctl2, steps_remove,
      steps_mkdir, steps_rmdir, steps_dread, steps_getstat, steps_chstat, steps_rename, steps_chdir, steps_sync,
      steps_format, steps_mount, steps_umount, steps_devctl, steps_symlink, steps_readlink, steps_deinit, steps_ret.
Qed.

(** *** Starting *)

(** The option loop changes the limits only. *)
Definition same_but_limits (w w' : world) : Prop :=
  lib w' = lib w /\ pfsFileSlots w' = pfsFileSlots w /\ pfsFioSema w' = pfsFioSema w /\
  (0 <= maxMount w < 2 ^ 32 -> 0 <= maxMount w' < 2 ^ 32).

#[local] Instance same_but_limits_preorder : PreOrder same_but_limits.
Proof.
  split; [by intros w|]. intros w1 w2 w3 (?&?&?&?) (?&?&?&?). split_and!; [congruence..|]. auto.
Qed.

Lemma args_limits k argv n : respects same_but_limits (pfsArgs (D := D) k argv n).
Proof.
  assert (HM : forall m o, respects same_but_limits (modify (fun w : world => with_limits (m w) (o w) w))).
  { intros m o. apply respects_modify. intros w. split_and!; [done..|]. intros _. simpl. apply u32_range. }
  revert argv n. induction k as [|k IH]; intros argv n; [apply respects_ret; exact _|]. simpl.
  destruct argv as [|a rest]; [apply respects_ret; exact _|]. destruct (negb _); [apply respects_ret; exact _|].
  repeat (destruct (bool_decide _); [destruct rest as [|v rest']; [apply respects_ret; exact _|]|]).
  - apply respects_bind; [exact _|apply respects_when; [exact _|apply (HM (fun _ => _) maxOpen)]|intros _; apply IH].
  - apply respects_bind; [exact _|apply respects_when; [exact _|apply (HM maxMount (fun _ => _))]|intros _; apply IH].
  - destruct (_ <? _); [apply respects_ret; exact _|apply IH].
  - apply respects_ret. exact _.
Qed.

(** The mounts allocated are at most those [maxMount] counts. *)
Lemma alloc_count (n : Z) : 0 <= n < 2 ^ 32 ->
  (Z.to_nat (s32 (s32 n * sizeof_mount) / sizeof_mount) <= Z.to_nat n)%nat.
Proof.
  intros Hn. assert (HB : s32 (s32 n * sizeof_mount) / sizeof_mount <= n); [|lia].
  apply Z.div_le_upper_bound; [done|]. unfold sizeof_mount, s32, u32.
  assert (0 <= n mod 2 ^ 32 < 2 ^ 32) by (apply Z.mod_pos_bound; lia). rewrite (Z.mod_small n) by done.
  set (k := (if n <? _ then _ else _) * 328). pose proof (Z.mod_pos_bound k (2 ^ 32) ltac:(lia)).
  destruct (Z.ltb_spec n (2 ^ 31)).
  - pose proof (Z.mod_le k (2 ^ 32) ltac:(lia) ltac:(lia)). destruct (_ <? _); lia.
  - destruct (Z.ltb_spec (k mod 2 ^ 32) (2 ^ 31)); lia.
Qed.

Lemma zero_mounts_ok k (w : world) : (k <= Z.to_nat (maxMount w))%nat -> pfsMountBuf (lib w) = replicate k zero_mount ->
  mounts_ok w.
Proof.
  intros Hk E. split; [|by rewrite E, length_replicate]. rewrite E. intros i j x y Ei _ Bx.
  apply lookup_replicate in Ei as [-> _]. done.
Qed.

Lemma steps_modify p (f : world -> world) : (forall w, good w -> at_phase p w -> good (f w) /\ at_phase p (f w)) ->
  steps p (modify f) (fun _ => p).
Proof. intros Hf w [] w' [= <-] Hp G. destruct (Hf w G Hp). done. Qed.

Lemma alloc_good (w : world) r w' : 0 <= maxMount w < 2 ^ 32 -> allocateMountBuffer (s32 (maxMount w)) w = Done r w' ->
  at_phase Free w -> good w -> at_phase Free w' /\ good w'.
Proof.
  intros Hm E Hp G. unfold allocateMountBuffer in E. apply bind_inv in E as (mem & w1 & E1 & E).
  destruct (op_keep _ _ _ _ None E1 ltac:(auto with frame_db)) as [K _]. destruct (keep_is_good _ _ K G) as [S1 G1].
  assert (P1 : at_phase Free w1) by (unfold at_phase in *; by rewrite S1).
  destruct mem; [|by injection E as _ <-]. apply bind_inv in E as ([] & w2 & [= <-] & [= _ <-]).
  split; [exact P1|]. split; [|exact (proj2 G1)]. eapply zero_mounts_ok; [|done]. simpl. rewrite (proj1 (proj2 K)).
  by apply alloc_count.
Qed.

(** What [_start] does once the mounts are allocated. *)
Lemma steps_started (size numBuf : Z) (room : bool) : steps (D := D) Free
  (mem <- pfs_op pfsAllocMem ;;
   match mem with
   | None => ret MODULE_NO_RESIDENT_END
   | Some _ =>
       modify (with_pslots (replicate (Z.to_nat size) zero_pslot)) ;;;
       r <- pfs_op (pfsCacheInit numBuf pfsMetaSize) ;;
       if r <? 0 then ret MODULE_NO_RESIDENT_END
       else when room (pfsFioInit ;;; ret tt) ;;; ret MODULE_RESIDENT_END
   end) (fun _ => Free).
Proof.
  apply steps_kbind; [auto with frame_db|]. intros [b|]; [|by apply steps_ret]. eapply steps_bind.
  { apply steps_modify. intros w [G1 G2] Hp. split; [|exact Hp]. split; [exact G1|]. intros i s Es. simpl in Es.
    apply lookup_replicate in Es as [-> _]. by intros []. }
  intros []. apply steps_kbind; [auto with frame_db|]. intros r. destruct (r <? 0); [by apply steps_ret|].
  eapply (steps_bind _ (fun _ => Free)); [|intros []; by apply steps_ret]. destruct room; [|by apply steps_ret].
  intros w [] w' [= <-] _ G. split; [by right|exact G].
Qed.

Lemma start_good w room argv r w' : loaded w -> _start room argv w = Done r w' -> at_phase Free w' /\ good w'.
Proof.
  intros (L1 & L2 & L3 & L4) E. unfold _start in E. apply bind_inv in E as (args & w1 & E1 & E).
  apply args_limits in E1 as (A1 & A2 & A3 & A4). rewrite L4 in A4. specialize (A4 ltac:(lia)).
  assert (P1 : at_phase Free w1 /\ good w1).
  { split; [left; congruence|]. split.
    - apply (zero_mounts_ok 0); [lia|]. by rewrite A1, L1.
    - intros i s Es. rewrite A2, L2 in Es. done. }
  destruct args as [numBuf|v]; [|by injection E as <- <-].
  apply bind_inv in E as (? & ? & [= <- <-] & E). apply bind_inv in E as (v & w2 & E2 & E).
  destruct (alloc_good _ _ _ A4 E2 (proj1 P1) (proj2 P1)) as [P2 G2].
  destruct (v <? 0); [by injection E as _ <-|]. by apply (steps_started _ _ _ _ _ _ E).
Qed.

(** C36: whatever the calls, the module is back with its lock free, no
    descriptor is mounted twice, and every slot with an open file has its
    inode. *)
Theorem module_invariant w : reached w -> at_phase Free w /\ mounts_ok w /\ slots_ok w.
Proof.
  induction 1 as [w room argv r w' HL E|c w w' _ [Hp G] E|fs w _ [Hp G]].
  - by apply (start_good _ _ _ _ _ HL E).
  - by apply (steps_call c _ _ _ E).
  - done.
Qed.
End Reach.

(** The session of PfsRam ends in a reached state. *)
Lemma module_invariant_witness : at_phase Free pw_open /\ mounts_ok pw_open /\ slots_ok pw_open.
Proof.
  apply (module_invariant [] 200).
  eapply (reached_call _ _ (COpen 0 (Some name_a) 0 0x1FF) pw_mounted); [|vm_compute; reflexivity].
  eapply (reached_call _ _ (CMount 0 hdd0 PFS_FIO_ATTR_WRITEABLE) pw_formatted); [|vm_compute; reflexivity].
  eapply (reached_call _ _ (CFormat hdd0 [8192] 4) pw_started); [|vm_compute; reflexivity].
  eapply (reached_start _ _ pw0 true [[]] 0); [by vm_compute|vm_compute; reflexivity].
Defined.
