(* ===== verification/Alloc.v ===== *)
(** * Alloc: the heap of the IOP

    iop/system/alloc/src/alloc.c: [malloc], [realloc], [calloc], [memalign]
    and [free] over an area obtained once from the kernel.  The allocated
    blocks form a doubly linked list in address order; each block starts with
    a header of 16 bytes (ptr, size, prev, next), kept in the heap itself, and
    the free space is what lies between them.  Memory is a map from addresses
    to bytes; a word access that is not aligned or leaves the heap is
    undefined.  Pointers and sizes are 32-bit numbers and wrap. *)

From stdpp Require Import base numbers list gmap.
From Stdlib Require Import ZArith Lia.
From S2P Require Import Prelude.

Open Scope Z_scope.
Open Scope c_scope.

(** ** State *)

Record heap_st := mkHeap {
  heap_mem : gmap Z Z;     (* bytes; one never written reads as 0 *)
  heap_start : Z;
  heap_end : Z;
  _heap_ptr : Z;
  __alloc_heap_base : Z;   (* 0 is NULL *)
  __alloc_heap_head : Z;
  __alloc_heap_tail : Z;
  alloc_sema : option Z    (* None: alloc_sema < 0 *)
}.

Definition with_mem (m : gmap Z Z) (s : heap_st) : heap_st :=
  mkHeap m (heap_start s) (heap_end s) (_heap_ptr s) (__alloc_heap_base s) (__alloc_heap_head s)
    (__alloc_heap_tail s) (alloc_sema s).
Definition with_ptr (p : Z) (s : heap_st) : heap_st :=
  mkHeap (heap_mem s) (heap_start s) (heap_end s) p (__alloc_heap_base s) (__alloc_heap_head s)
    (__alloc_heap_tail s) (alloc_sema s).
Definition with_base (p : Z) (s : heap_st) : heap_st :=
  mkHeap (heap_mem s) (heap_start s) (heap_end s) (_heap_ptr s) p (__alloc_heap_head s)
    (__alloc_heap_tail s) (alloc_sema s).
Definition with_head (p : Z) (s : heap_st) : heap_st :=
  mkHeap (heap_mem s) (heap_start s) (heap_end s) (_heap_ptr s) (__alloc_heap_base s) p
    (__alloc_heap_tail s) (alloc_sema s).
Definition with_tail (p : Z) (s : heap_st) : heap_st :=
  mkHeap (heap_mem s) (heap_start s) (heap_end s) (_heap_ptr s) (__alloc_heap_base s)
    (__alloc_heap_head s) p (alloc_sema s).
Definition with_alock (v : option Z) (s : heap_st) : heap_st :=
  mkHeap (heap_mem s) (heap_start s) (heap_end s) (_heap_ptr s) (__alloc_heap_base s)
    (__alloc_heap_head s) (__alloc_heap_tail s) v.

(** ** Memory *)

Definition byte_at (m : gmap Z Z) (a : Z) : Z := default 0 (m !! a).
Definition load (m : gmap Z Z) (a : Z) : Z :=
  word_of_bytes (byte_at m a) (byte_at m (a + 1)) (byte_at m (a + 2)) (byte_at m (a + 3)).
Definition store (a v : Z) (m : gmap Z Z) : gmap Z Z :=
  <[a := u8 v]> (<[a + 1 := u8 (Z.shiftr v 8)]> (<[a + 2 := u8 (Z.shiftr v 16)]>
    (<[a + 3 := u8 (Z.shiftr v 24)]> m))).

(** The CPU can reach word [a] of the heap. *)
Definition word_ok (s : heap_st) (a : Z) : bool :=
  (a mod 4 =? 0) && (heap_start s <=? a) && (a + 4 <=? heap_end s).

Definition ld (a : Z) : M heap_st Z := fun s =>
  if word_ok s a then Done (load (heap_mem s) a) s else Undef.
Definition st (a v : Z) : M heap_st unit := fun s =>
  if word_ok s a then Done tt (with_mem (store a v (heap_mem s)) s) else Undef.

(** The fields of the header at [h]. *)
Definition get_ptr (h : Z) : M heap_st Z := ld h.
Definition get_size (h : Z) : M heap_st Z := ld (h + 4).
Definition get_prev (h : Z) : M heap_st Z := ld (h + 8).
Definition get_next (h : Z) : M heap_st Z := ld (h + 12).
Definition put_ptr (h v : Z) : M heap_st unit := st h v.
Definition put_size (h v : Z) : M heap_st unit := st (h + 4) v.
Definition put_prev (h v : Z) : M heap_st unit := st (h + 8) v.
Definition put_next (h v : Z) : M heap_st unit := st (h + 12) v.

(** [memset(p, 0, n)] and [memcpy(d, p, n)] of regions that do not overlap. *)
Fixpoint zero_bytes (p : Z) (n : nat) (m : gmap Z Z) : gmap Z Z :=
  match n with
  | O => m
  | S k => zero_bytes (p + 1) k (<[p := 0]> m)
  end.
Fixpoint copy_bytes (d p : Z) (n : nat) (m : gmap Z Z) : gmap Z Z :=
  match n with
  | O => m
  | S k => copy_bytes (d + 1) (p + 1) k (<[d := byte_at m p]> m)
  end.
Definition region_ok (s : heap_st) (p n : Z) : bool :=
  (heap_start s <=? p) && (p + n <=? heap_end s).
Definition memset0 (p n : Z) : M heap_st unit := fun s =>
  if region_ok s p n then Done tt (with_mem (zero_bytes p (Z.to_nat n) (heap_mem s)) s) else Undef.
Definition memcpy (d p n : Z) : M heap_st unit := fun s =>
  if region_ok s d n && region_ok s p n
  then Done tt (with_mem (copy_bytes d p (Z.to_nat n) (heap_mem s)) s) else Undef.

(** ** The lock: waiting for a taken semaphore never returns *)

Definition alloc_lock : M heap_st unit := fun s =>
  match alloc_sema s with
  | None => Done tt s
  | Some n => if 0 <? n then Done tt (with_alock (Some (n - 1)) s) else NoFuel
  end.
Definition alloc_unlock : M heap_st unit :=
  modify (fun s => with_alock (match alloc_sema s with
                               | None => None
                               | Some n => Some (Z.min 1 (n + 1))
                               end) s).

(** ** Start of the module *)

Definition DEFAULT_HEAP_SIZE : Z := 128 * 1024.

(** The value of a digit of [strtoul] in base [b]. *)
Definition digit_of (b c : Z) : option Z :=
  let v := if (48 <=? c) && (c <=? 57) then c - 48
           else if (97 <=? c) && (c <=? 122) then c - 87
           else if (65 <=? c) && (c <=? 90) then c - 55 else 255 in
  if v <? b then Some v else None.
Fixpoint digits_in (b acc : Z) (s : list Z) : Z :=
  match s with
  | [] => acc
  | c :: s' => match digit_of b c with Some v => digits_in b (acc * b + v) s' | None => acc end
  end.
(** [strtoul(s, NULL, 0)]: hexadecimal after "0x", octal after "0". *)
Fixpoint strtoul (s : list Z) : Z :=
  match s with
  | 32 :: s' => strtoul s'
  | 48 :: 120 :: s' => u32 (digits_in 16 0 s')
  | 48 :: 88 :: s' => u32 (digits_in 16 0 s')
  | 48 :: s' => u32 (digits_in 8 0 s')
  | _ => u32 (digits_in 10 0 s)
  end.

(** The kernel: does the library register, the address of the memory it gives
    (0 is NULL), and the semaphore created (negative is an error). *)
Record allocEnv := mkAllocEnv {
  ae_register : Z;
  ae_AllocSysMemory : Z -> Z;
  ae_CreateSema : Z
}.

Definition _start (env : allocEnv) (argv : list (list Z)) : M heap_st Z :=
  if nz (ae_register env) then ret 1
  else
    let heap_size := match argv with
                     | _ :: a :: _ => strtoul a
                     | _ => DEFAULT_HEAP_SIZE
                     end in
    let start := ae_AllocSysMemory env heap_size in
    if start =? 0 then
      modify (fun s => mkHeap (heap_mem s) 0 (heap_end s) (_heap_ptr s) (__alloc_heap_base s)
                         (__alloc_heap_head s) (__alloc_heap_tail s) (alloc_sema s)) ;;;
      ret (-1)
    else
      modify (fun s => mkHeap (heap_mem s) start (u32 (start + heap_size)) start
                         (__alloc_heap_base s) (__alloc_heap_head s) (__alloc_heap_tail s)
                         (if 0 <=? ae_CreateSema env then Some 1 else None)) ;;;
      ret 0.

(** [shutdown] gives the semaphore and the memory back; waiting for a
    semaphore that was deleted is an error the code does not look at, so that
    from then on there is no lock. *)
Definition shutdown : M heap_st Z :=
  modify (fun s => with_alock None s) ;;; ret 0.

(** ** The allocator *)

Definition DEFAULT_ALIGNMENT : Z := 16.
(** [sizeof(heap_mem_header_t)] *)
Definition header_size : Z := 16.
Definition ALIGN (x align : Z) : Z := Z.land (u32 (x + (align - 1))) (u32 (Z.lnot (align - 1))).

(** The pointer -1. *)
Definition sbrk_failed : Z := u32 (-1).

Definition alloc_sbrk (increment : Z) : M heap_st Z :=
  if increment =? 0 then gets _heap_ptr
  else
    s <- get ;;
    let mp := u32 (_heap_ptr s + increment) in
    if mp <=? heap_end s then modify (with_ptr mp) ;;; ret (_heap_ptr s)
    else ret sbrk_failed.

(** A list of headers, 16 bytes each, fits in the heap this many times. *)
Definition heap_fuel (s : heap_st) : nat := Z.to_nat ((heap_end s - heap_start s) / 16 + 2).

(** The loop of [_heap_mem_fit]. *)
Definition fitStep (size : Z) : Z -> M heap_st (Z + Z) := fun prev_mem =>
  if prev_mem =? 0 then ret (inr 0)
  else
    next <- get_next prev_mem ;;
    fits <- (if next =? 0 then ret false
             else
               p <- get_ptr prev_mem ;;
               sz <- get_size prev_mem ;;
               let prev_top := u32 (p + sz) in
               let next_bot := u32 (next - prev_top) in
               ret (size <=? next_bot)) ;;
    if fits : bool then ret (inr prev_mem) else ret (inl next).

Definition _heap_mem_fit (head size : Z) : M heap_st Z :=
  fuel <- gets heap_fuel ;;
  while_ fuel (fitStep size) head.

(** The header of a new block. *)
Definition put_header (h ptr size prev next : Z) : M heap_st unit :=
  put_ptr h ptr ;;; put_size h size ;;; put_prev h prev ;;; put_next h next.

(** Size of the block for a request: header included, a multiple of 16. *)
Definition block_size (size : Z) : Z :=
  let mem_sz := u32 (size + header_size) in
  if nz (Z.land mem_sz (DEFAULT_ALIGNMENT - 1)) then ALIGN mem_sz DEFAULT_ALIGNMENT else mem_sz.

(** [malloc] on an empty list. *)
Definition mallocFirst (mem_sz : Z) : M heap_st Z :=
  base <- gets __alloc_heap_base ;;
  when (base =? 0)
    (p <- alloc_sbrk 0 ;;
     alloc_sbrk (Z.land p (DEFAULT_ALIGNMENT - 1)) ;;;
     p <- alloc_sbrk 0 ;;
     modify (with_base p)) ;;;
  mem_ptr <- alloc_sbrk mem_sz ;;
  if mem_ptr =? sbrk_failed then ret 0     (* the lock is not released *)
  else
    let ptr := u32 (mem_ptr + header_size) in
    modify (with_head mem_ptr) ;;;
    put_header mem_ptr ptr (u32 (mem_sz - header_size)) 0 0 ;;;
    modify (with_tail mem_ptr) ;;;
    alloc_unlock ;;;
    ret ptr.

(** Below the first block. *)
Definition mallocBelow (mem_sz : Z) : M heap_st Z :=
  s <- get ;;
  let new_mem := __alloc_heap_base s in
  let ptr := u32 (new_mem + header_size) in
  put_header new_mem ptr (u32 (mem_sz - header_size)) 0 (__alloc_heap_head s) ;;;
  next <- get_next new_mem ;;
  put_prev next new_mem ;;;
  modify (with_head new_mem) ;;;
  alloc_unlock ;;;
  ret ptr.

(** After block [prev_mem], before the next one. *)
Definition mallocBetween (prev_mem mem_sz : Z) : M heap_st Z :=
  p <- get_ptr prev_mem ;;
  sz <- get_size prev_mem ;;
  let new_mem := u32 (p + sz) in
  let ptr := u32 (new_mem + header_size) in
  next <- get_next prev_mem ;;
  put_header new_mem ptr (u32 (mem_sz - header_size)) prev_mem next ;;;
  next <- get_next new_mem ;;
  put_prev next new_mem ;;;
  put_next prev_mem new_mem ;;;
  alloc_unlock ;;;
  ret ptr.

(** At the end of the heap. *)
Definition mallocAfter (mem_sz : Z) : M heap_st Z :=
  mem_ptr <- alloc_sbrk mem_sz ;;
  if mem_ptr =? sbrk_failed then alloc_unlock ;;; ret 0
  else
    let ptr := u32 (mem_ptr + header_size) in
    tail <- gets __alloc_heap_tail ;;
    put_header mem_ptr ptr (u32 (mem_sz - header_size)) tail 0 ;;;
    put_next tail mem_ptr ;;;
    modify (with_tail mem_ptr) ;;;
    alloc_unlock ;;;
    ret ptr.

Definition malloc (size : Z) : M heap_st Z :=
  let mem_sz := block_size size in
  alloc_lock ;;;
  s <- get ;;
  if __alloc_heap_head s =? 0 then mallocFirst mem_sz
  else if u32 (__alloc_heap_base s + mem_sz) <? __alloc_heap_head s then mallocBelow mem_sz
  else
    prev_mem <- _heap_mem_fit (__alloc_heap_head s) mem_sz ;;
    if nz prev_mem then mallocBetween prev_mem mem_sz else mallocAfter mem_sz.

(** The search of [free]: [inr 0] is a pointer that is not in the list. *)
Definition findStep (ptr : Z) : Z -> M heap_st (Z + Z) := fun cur =>
  p <- get_ptr cur ;;
  if ptr =? p then ret (inr cur)
  else
    next <- get_next cur ;;
    if next =? 0 then ret (inr 0) else ret (inl next).

Definition freeHead (head : Z) : M heap_st unit :=
  sz <- get_size head ;;
  p <- get_ptr head ;;
  let size := u32 (sz + u32 (p - head)) in
  next <- get_next head ;;
  modify (with_head next) ;;;
  if nz next then put_prev next 0
  else modify (with_tail 0) ;;; alloc_sbrk (u32 (- size)) ;;; ret tt.

Definition freeBlock (cur : Z) : M heap_st unit :=
  next <- get_next cur ;;
  prev <- get_prev cur ;;
  (if nz next then put_prev next prev
   else
     modify (with_tail prev) ;;;
     heap_top <- alloc_sbrk 0 ;;
     p <- get_ptr prev ;;
     sz <- get_size prev ;;
     let size := u32 (heap_top - u32 (p + sz)) in
     alloc_sbrk (u32 (- size)) ;;; ret tt) ;;;
  prev <- get_prev cur ;;
  next <- get_next cur ;;
  put_next prev next.

Definition free (ptr : Z) : M heap_st unit :=
  if ptr =? 0 then ret tt
  else
    alloc_lock ;;;
    head <- gets __alloc_heap_head ;;
    if head =? 0 then alloc_unlock
    else
      p <- get_ptr head ;;
      if ptr =? p then freeHead head ;;; alloc_unlock
      else
        fuel <- gets heap_fuel ;;
        cur <- while_ fuel (findStep ptr) head ;;
        when (nz cur) (freeBlock cur) ;;;
        alloc_unlock.

Definition realloc (ptr size : Z) : M heap_st Z :=
  if (size =? 0) && nz ptr then free ptr ;;; ret 0
  else if ptr =? 0 then malloc size
  else
    let size := if nz (Z.land size (DEFAULT_ALIGNMENT - 1)) then ALIGN size DEFAULT_ALIGNMENT else size in
    alloc_lock ;;;
    let prev_mem := u32 (ptr - header_size) in
    old <- get_size prev_mem ;;
    next <- get_next prev_mem ;;
    if size <=? old then
      when (next =? 0)
        (top <- alloc_sbrk 0 ;; alloc_sbrk (u32 (ptr + size - top)) ;;; ret tt) ;;;
      put_size prev_mem size ;;;
      alloc_unlock ;;;
      ret ptr
    else if next =? 0 then
      r <- alloc_sbrk (u32 (size - old)) ;;
      if r =? sbrk_failed then ret 0     (* the lock is not released *)
      else put_size prev_mem size ;;; alloc_unlock ;;; ret ptr
    else
      next_ptr <- get_ptr next ;;
      if size <? u32 (next_ptr - ptr) then
        put_size prev_mem size ;;; alloc_unlock ;;; ret ptr
      else
        alloc_unlock ;;;
        new_ptr <- malloc size ;;
        if new_ptr =? 0 then ret 0
        else
          old <- get_size prev_mem ;;
          memcpy new_ptr ptr old ;;;
          free ptr ;;;
          ret new_ptr.

Definition calloc (n size : Z) : M heap_st Z :=
  let sz := u32 (n * size) in
  ptr <- malloc sz ;;
  if ptr =? 0 then ret 0 else memset0 ptr sz ;;; ret ptr.

(** Moving the header of the block at [ptr] up to an aligned place. *)
Definition memalignFix (align ptr : Z) : M heap_st Z :=
  alloc_lock ;;;
  let old_mem := u32 (ptr - header_size) in
  sz <- get_size old_mem ;;
  put_size old_mem (u32 (sz - align)) ;;;
  let ptr := ALIGN ptr align in
  p <- get_ptr old_mem ;;
  sz <- get_size old_mem ;;
  prev <- get_prev old_mem ;;
  next <- get_next old_mem ;;
  let cur_mem := u32 (ptr - header_size) in
  put_header cur_mem p sz prev next ;;;
  prev <- get_prev cur_mem ;;
  when (nz prev) (put_next prev cur_mem) ;;;
  next <- get_next cur_mem ;;
  when (nz next) (put_prev next cur_mem) ;;;
  s <- get ;;
  when (__alloc_heap_head s =? old_mem) (modify (with_head cur_mem)) ;;;
  when (__alloc_heap_tail s =? old_mem) (modify (with_tail cur_mem)) ;;;
  put_ptr cur_mem ptr ;;;
  alloc_unlock ;;;
  ret ptr.

Definition memalign (align size : Z) : M heap_st Z :=
  if align <=? DEFAULT_ALIGNMENT then malloc size
  else
    ptr <- malloc (u32 (size + align)) ;;
    if ptr =? 0 then ret 0
    else if Z.land ptr (u32 (align - 1)) =? 0 then ret ptr
    else memalignFix align ptr.

(** ** Walking the blocks *)

Definition __mem_walk_begin : M heap_st Z := gets __alloc_heap_head.
(** size, ptr and valid *)
Definition __mem_walk_read (token : Z) : M heap_st (Z * Z * Z) :=
  size <- get_size token ;; ptr <- get_ptr token ;; ret (size, ptr, 1).
Definition __mem_walk_inc (token : Z) : M heap_st Z := get_next token.
Definition __mem_walk_end (token : Z) : Z := b2z (token =? 0).
