(* ===== verification/AllocInv.v ===== *)
(** * AllocInv: the abstract heap behind alloc.c

    A heap is represented by the list of its blocks in address order.  The
    invariant [heap_inv] ties the list to the headers in memory; this file has
    the lemmas on memory, on the linked list of headers ([seg]) and on the
    layout of the blocks ([layout]) from which the operations are proved. *)

From stdpp Require Import base numbers list gmap.
From Stdlib Require Import ZArith Lia.
From S2P Require Import Prelude Alloc.

Open Scope Z_scope.
Open Scope c_scope.

(** ** Memory *)

Lemma byte_store a v m x :
  byte_at (store a v m) x =
  if x =? a then u8 v else if x =? a + 1 then u8 (Z.shiftr v 8)
  else if x =? a + 2 then u8 (Z.shiftr v 16) else if x =? a + 3 then u8 (Z.shiftr v 24)
  else byte_at m x.
Proof.
  unfold byte_at, store.
  destruct (Z.eqb_spec x a) as [->|?]; [by rewrite lookup_insert_eq|]. rewrite lookup_insert_ne by done.
  destruct (Z.eqb_spec x (a + 1)) as [->|?]; [by rewrite lookup_insert_eq|]. rewrite lookup_insert_ne by done.
  destruct (Z.eqb_spec x (a + 2)) as [->|?]; [by rewrite lookup_insert_eq|]. rewrite lookup_insert_ne by done.
  destruct (Z.eqb_spec x (a + 3)) as [->|?]; [by rewrite lookup_insert_eq|]. by rewrite lookup_insert_ne by done.
Qed.

Lemma byte_store_out a v m x : x < a \/ a + 4 <= x -> byte_at (store a v m) x = byte_at m x.
Proof.
  intros H. rewrite byte_store.
  by rewrite !(proj2 (Z.eqb_neq _ _)) by lia.
Qed.

Lemma load_same m m' a :
  (forall x, a <= x < a + 4 -> byte_at m' x = byte_at m x) -> load m' a = load m a.
Proof. intros H. unfold load. by rewrite !H by lia. Qed.

Lemma load_store_ne a v m x : x + 4 <= a \/ a + 4 <= x -> load (store a v m) x = load m x.
Proof. intros H. apply load_same. intros y Hy. apply byte_store_out. lia. Qed.

Lemma load_store a v m : is_u32 v -> load (store a v m) a = v.
Proof.
  intros Hv. unfold load. rewrite !byte_store, Z.eqb_refl.
  repeat (rewrite (proj2 (Z.eqb_neq _ _)) by lia). rewrite !Z.eqb_refl.
  repeat (rewrite (proj2 (Z.eqb_neq _ _)) by lia).
  unfold word_of_bytes, u8. rewrite !Z.shiftr_div_pow2, !Z.mod_mod by lia.
  unfold is_u32 in Hv. Z.div_mod_to_equations. lia.
Qed.

(** The four words of a header. *)
Definition hdr_store (h p sz pv nx : Z) (m : gmap Z Z) : gmap Z Z :=
  store (h + 12) nx (store (h + 8) pv (store (h + 4) sz (store h p m))).

Lemma hdr_store_out h p sz pv nx m x :
  x < h \/ h + 16 <= x -> byte_at (hdr_store h p sz pv nx m) x = byte_at m x.
Proof. intros H. unfold hdr_store. by rewrite !byte_store_out by lia. Qed.

Lemma hdr_store_load h p sz pv nx m :
  is_u32 p -> is_u32 sz -> is_u32 pv -> is_u32 nx ->
  let m' := hdr_store h p sz pv nx m in
  load m' h = p /\ load m' (h + 4) = sz /\ load m' (h + 8) = pv /\ load m' (h + 12) = nx.
Proof.
  intros H1 H2 H3 H4 m'. subst m'. unfold hdr_store. repeat split.
  - rewrite !load_store_ne by lia. by apply load_store.
  - rewrite !(load_store_ne _ _ _ (h + 4)) by lia. by apply load_store.
  - rewrite !(load_store_ne _ _ _ (h + 8)) by lia. by apply load_store.
  - by apply load_store.
Qed.

Lemma store_comm a v b w m : a + 4 <= b \/ b + 4 <= a -> store a v (store b w m) = store b w (store a v m).
Proof.
  intros H. apply map_eq. intros i. unfold store. rewrite !lookup_insert. repeat case_decide; (done || lia).
Qed.

Lemma store_twice a v w m : store a v (store a w m) = store a v m.
Proof. apply map_eq. intros i. unfold store. rewrite !lookup_insert. repeat case_decide; (done || lia). Qed.

Lemma hdr_store_ptr h p q sz pv nx m : store h q (hdr_store h p sz pv nx m) = hdr_store h q sz pv nx m.
Proof. unfold hdr_store. rewrite !(store_comm h q) by lia. by rewrite store_twice. Qed.

(** ** Blocks *)

Record block := mkBlk { bk_hdr : Z; bk_size : Z }.
Definition bk_ptr (b : block) : Z := bk_hdr b + 16.
Definition bk_end (b : block) : Z := bk_hdr b + 16 + bk_size b.

Definition first_hdr (bs : list block) (d : Z) : Z := match bs with [] => d | b :: _ => bk_hdr b end.
Fixpoint last_hdr (bs : list block) (d : Z) : Z :=
  match bs with [] => d | b :: bs' => last_hdr bs' (bk_hdr b) end.
(** The end of the last block. *)
Fixpoint top (lo : Z) (bs : list block) : Z :=
  match bs with [] => lo | b :: bs' => top (bk_end b) bs' end.

(** The blocks lie in [lo, hi) in order, without overlap, aligned. *)
Fixpoint layout (lo : Z) (bs : list block) (hi : Z) : Prop :=
  match bs with
  | [] => lo <= hi
  | b :: bs' => lo <= bk_hdr b /\ bk_hdr b mod 16 = 0 /\ 0 <= bk_size b /\ bk_size b mod 16 = 0 /\
      layout (bk_end b) bs' hi
  end.

(** The header of a block, with the links it should hold. *)
Definition hdr_at (m : gmap Z Z) (b : block) (pv nx : Z) : Prop :=
  load m (bk_hdr b) = bk_ptr b /\ load m (bk_hdr b + 4) = bk_size b /\
  load m (bk_hdr b + 8) = pv /\ load m (bk_hdr b + 12) = nx.

(** A segment of the list: [pv] before it, [nx] after it. *)
Fixpoint seg (m : gmap Z Z) (pv : Z) (bs : list block) (nx : Z) : Prop :=
  match bs with
  | [] => True
  | b :: bs' => hdr_at m b pv (first_hdr bs' nx) /\ seg m (bk_hdr b) bs' nx
  end.

Record heap_inv (s : heap_st) (bs : list block) : Prop := {
  hi_start : 0 < heap_start s /\ heap_start s mod 16 = 0;
  hi_ptr : heap_start s <= _heap_ptr s <= heap_end s /\ _heap_ptr s mod 16 = 0;
  hi_end : heap_end s < 2 ^ 32;
  hi_base : __alloc_heap_base s = heap_start s \/
            (__alloc_heap_base s = 0 /\ bs = [] /\ _heap_ptr s = heap_start s);
  hi_layout : layout (heap_start s) bs (_heap_ptr s);
  hi_seg : seg (heap_mem s) 0 bs 0;
  hi_head : __alloc_heap_head s = first_hdr bs 0;
  hi_tail : __alloc_heap_tail s = last_hdr bs 0
}.

(** ** Lists of blocks *)

Lemma top_app lo bs1 bs2 : top lo (bs1 ++ bs2) = top (top lo bs1) bs2.
Proof. revert lo. by induction bs1 as [|b bs1 IH]; intros lo; [|apply IH]. Qed.

Lemma last_hdr_app bs1 bs2 d : last_hdr (bs1 ++ bs2) d = last_hdr bs2 (last_hdr bs1 d).
Proof. revert d. by induction bs1 as [|b bs1 IH]; intros d; [|apply IH]. Qed.

Lemma first_hdr_app bs1 bs2 d : first_hdr (bs1 ++ bs2) d = first_hdr bs1 (first_hdr bs2 d).
Proof. by destruct bs1. Qed.

Lemma layout_top lo bs hi : layout lo bs hi -> lo <= top lo bs <= hi.
Proof.
  revert lo. induction bs as [|b bs IH]; intros lo; simpl; [lia|].
  intros (H1 & _ & H2 & _ & H3). apply IH in H3. unfold bk_end in *. lia.
Qed.

Lemma layout_app lo bs1 bs2 hi :
  layout lo (bs1 ++ bs2) hi <-> layout lo bs1 (top lo bs1) /\ layout (top lo bs1) bs2 hi.
Proof.
  revert lo. induction bs1 as [|b bs1 IH]; intros lo; simpl.
  - intuition lia.
  - rewrite IH. tauto.
Qed.

Lemma layout_weaken lo lo' bs hi hi' : layout lo bs hi -> lo' <= lo -> hi <= hi' -> layout lo' bs hi'.
Proof.
  revert lo lo'. induction bs as [|b bs IH]; intros lo lo'; simpl; [lia|].
  intros (H1 & H2 & H3 & H4 & H5) Hlo Hhi. repeat split; try lia. by eapply IH; [exact H5| |].
Qed.

Lemma layout_to_top lo bs hi hi' : layout lo bs hi -> top lo bs <= hi' -> layout lo bs hi'.
Proof.
  revert lo. induction bs as [|b bs IH]; intros lo; simpl; [done|].
  intros (H1 & H2 & H3 & H4 & H5) Hhi. repeat split; try done. by apply IH.
Qed.

Lemma layout_elem lo bs hi b :
  layout lo bs hi -> b ∈ bs ->
  lo <= bk_hdr b /\ bk_end b <= hi /\ bk_hdr b mod 16 = 0 /\ 0 <= bk_size b /\ bk_size b mod 16 = 0.
Proof.
  revert lo. induction bs as [|c bs IH]; intros lo; simpl; [by intros _ ?%elem_of_nil|].
  intros (H1 & H2 & H3 & H4 & H5) [->|Hb]%elem_of_cons.
  - apply layout_top in H5. lia.
  - apply (IH _ H5) in Hb. unfold bk_end in *. lia.
Qed.

(** The end of the blocks is aligned when their start is. *)
Lemma layout_top_mod lo bs hi : layout lo bs hi -> lo mod 16 = 0 -> top lo bs mod 16 = 0.
Proof.
  revert lo. induction bs as [|b bs IH]; intros lo; simpl; [done|].
  intros (H1 & H2 & H3 & H4 & H5) _. apply IH; [done|]. unfold bk_end.
  Z.div_mod_to_equations. lia.
Qed.

(** Two blocks of a layout do not overlap. *)
Lemma layout_sep lo bs1 b bs2 hi c :
  layout lo (bs1 ++ b :: bs2) hi -> c ∈ bs1 ++ bs2 ->
  bk_end c <= bk_hdr b \/ bk_end b <= bk_hdr c.
Proof.
  rewrite layout_app. simpl. intros (H1 & H2 & _ & _ & _ & H3) [Hc|Hc]%elem_of_app.
  - apply (layout_elem _ _ _ _ H1) in Hc. lia.
  - apply (layout_elem _ _ _ _ H3) in Hc. lia.
Qed.

Lemma layout_length lo bs hi : layout lo bs hi -> 16 * Z.of_nat (length bs) <= hi - lo.
Proof.
  revert lo. induction bs as [|b bs IH]; intros lo; simpl; [lia|].
  intros (H1 & _ & H2 & _ & H3). apply IH in H3. unfold bk_end in H3. lia.
Qed.

Lemma layout_insert lo bs1 bs2 hi hi' b :
  layout lo (bs1 ++ bs2) hi -> top lo bs1 <= bk_hdr b -> bk_hdr b mod 16 = 0 ->
  0 <= bk_size b -> bk_size b mod 16 = 0 -> bk_end b <= first_hdr bs2 hi' -> hi <= hi' ->
  layout lo (bs1 ++ b :: bs2) hi'.
Proof.
  rewrite !layout_app. intros [H1 H2] Hb1 Hm Hs Hsm Hb2 Hhi. split; [done|]. simpl.
  do 4 (split; [done|]). destruct bs2 as [|c bs2]; simpl in *; [done|].
  destruct H2 as (Hc1 & Hc2 & Hc3 & Hc4 & Hc5). repeat split; try done.
  by eapply layout_weaken; [exact Hc5| |].
Qed.

Lemma layout_remove lo bs1 b bs2 hi : layout lo (bs1 ++ b :: bs2) hi -> layout lo (bs1 ++ bs2) hi.
Proof.
  rewrite !layout_app. simpl. intros [H1 (H2 & _ & H3 & _ & H4)]. split; [done|].
  eapply layout_weaken; [exact H4| |done]. unfold bk_end. lia.
Qed.

(** ** Segments *)

Lemma seg_app m pv bs1 bs2 nx :
  seg m pv (bs1 ++ bs2) nx <->
  seg m pv bs1 (first_hdr bs2 nx) /\ seg m (last_hdr bs1 pv) bs2 nx.
Proof.
  revert pv. induction bs1 as [|b bs1 IH]; intros pv; simpl; [tauto|].
  rewrite IH, first_hdr_app. tauto.
Qed.

(** Only the headers matter. *)
Definition same_headers (bs : list block) (m m' : gmap Z Z) : Prop :=
  forall b, b ∈ bs -> forall x, bk_hdr b <= x < bk_hdr b + 16 -> byte_at m' x = byte_at m x.

Lemma hdr_at_same m m' b pv nx :
  (forall x, bk_hdr b <= x < bk_hdr b + 16 -> byte_at m' x = byte_at m x) ->
  hdr_at m b pv nx -> hdr_at m' b pv nx.
Proof.
  intros H. unfold hdr_at. by rewrite !(load_same m m') by (intros; apply H; lia).
Qed.

Lemma seg_same m m' pv bs nx : same_headers bs m m' -> seg m pv bs nx -> seg m' pv bs nx.
Proof.
  revert pv. induction bs as [|b bs IH]; intros pv H; simpl; [done|]. intros [H1 H2]. split.
  - eapply hdr_at_same; [|exact H1]. apply H. apply elem_of_cons. by left.
  - apply IH; [|done]. intros c Hc. apply H. apply elem_of_cons. by right.
Qed.

(** Writing one word of the header of [b] keeps the other headers. *)
Lemma store_same_headers lo bs1 b bs2 hi bs a v m :
  layout lo (bs1 ++ b :: bs2) hi -> (forall c, c ∈ bs -> c ∈ bs1 ++ bs2) ->
  bk_hdr b <= a <= bk_hdr b + 12 -> same_headers bs m (store a v m).
Proof.
  intros HL Hbs Ha c Hc x Hx. apply byte_store_out.
  pose proof (layout_sep _ _ _ _ _ c HL (Hbs c Hc)) as Hs.
  assert (0 <= bk_size b) by (eapply layout_elem; [exact HL|]; apply elem_of_app; right; apply elem_of_cons; by left).
  assert (0 <= bk_size c).
  { eapply layout_elem; [exact HL|]. apply Hbs in Hc. apply elem_of_app.
    apply elem_of_app in Hc as [?|?]; [by left|right; apply elem_of_cons; by right]. }
  unfold bk_end in Hs. lia.
Qed.

(** [b->prev = v] and [b->next = v] *)
Lemma hdr_at_prev m b pv nx v :
  is_u32 v -> hdr_at m b pv nx -> hdr_at (store (bk_hdr b + 8) v m) b v nx.
Proof.
  intros Hv (H1 & H2 & H3 & H4). unfold hdr_at.
  by rewrite !(load_store_ne _ _ _ (bk_hdr b)), !(load_store_ne _ _ _ (bk_hdr b + 4)),
    !(load_store_ne _ _ _ (bk_hdr b + 12)), load_store by (done || lia).
Qed.

Lemma hdr_at_next m b pv nx v :
  is_u32 v -> hdr_at m b pv nx -> hdr_at (store (bk_hdr b + 12) v m) b pv v.
Proof.
  intros Hv (H1 & H2 & H3 & H4). unfold hdr_at.
  by rewrite !(load_store_ne _ _ _ (bk_hdr b)), !(load_store_ne _ _ _ (bk_hdr b + 4)),
    !(load_store_ne _ _ _ (bk_hdr b + 8)), load_store by (done || lia).
Qed.

Lemma hdr_at_size m b pv nx v :
  is_u32 v -> hdr_at m b pv nx ->
  hdr_at (store (bk_hdr b + 4) v m) (mkBlk (bk_hdr b) v) pv nx.
Proof.
  intros Hv (H1 & H2 & H3 & H4). unfold hdr_at, bk_ptr. simpl.
  by rewrite !(load_store_ne _ _ _ (bk_hdr b)), !(load_store_ne _ _ _ (bk_hdr b + 8)),
    !(load_store_ne _ _ _ (bk_hdr b + 12)), load_store by (done || lia).
Qed.

(** ** Linking a block in and out *)

(** The first block of [bs] gets [v] as its prev link, the last one as its
    next link. *)
Definition set_first_prev (bs : list block) (v : Z) (m : gmap Z Z) : gmap Z Z :=
  match bs with [] => m | c :: _ => store (bk_hdr c + 8) v m end.
Definition set_last_next (bs : list block) (v : Z) (m : gmap Z Z) : gmap Z Z :=
  match bs with [] => m | _ => store (last_hdr bs 0 + 12) v m end.

(** Byte [x] is in the header of a block of [bs]. *)
Definition in_header (bs : list block) (x : Z) : Prop :=
  exists b, b ∈ bs /\ bk_hdr b <= x < bk_hdr b + 16.

Lemma in_header_app bs1 bs2 x : in_header (bs1 ++ bs2) x <-> in_header bs1 x \/ in_header bs2 x.
Proof. unfold in_header. setoid_rewrite elem_of_app. naive_solver. Qed.

Lemma in_header_cons b bs x : in_header (b :: bs) x <-> bk_hdr b <= x < bk_hdr b + 16 \/ in_header bs x.
Proof. unfold in_header. setoid_rewrite elem_of_cons. naive_solver. Qed.

Lemma last_hdr_snoc bs b d : last_hdr (bs ++ [b]) d = bk_hdr b.
Proof. by rewrite last_hdr_app. Qed.

Lemma set_last_next_snoc bs b v m : set_last_next (bs ++ [b]) v m = store (bk_hdr b + 12) v m.
Proof. unfold set_last_next. rewrite last_hdr_snoc. by destruct bs. Qed.

Lemma set_first_prev_out bs v m x : ~ in_header bs x -> byte_at (set_first_prev bs v m) x = byte_at m x.
Proof.
  destruct bs as [|c bs]; [done|]. rewrite in_header_cons. intros H. simpl. apply byte_store_out. lia.
Qed.

Lemma set_last_next_out bs v m x : ~ in_header bs x -> byte_at (set_last_next bs v m) x = byte_at m x.
Proof.
  destruct bs as [|c bs _] using rev_ind; [done|]. rewrite in_header_app, in_header_cons. intros H.
  rewrite set_last_next_snoc. apply byte_store_out. lia.
Qed.

Lemma layout_not_header lo bs1 bs2 hi b x :
  layout lo (bs1 ++ bs2) hi -> b ∈ bs1 -> bk_hdr b <= x < bk_end b -> ~ in_header bs2 x.
Proof.
  rewrite layout_app. intros [H1 H2] Hb Hx (c & Hc & Hx2).
  apply (layout_elem _ _ _ _ H1) in Hb. apply (layout_elem _ _ _ _ H2) in Hc. lia.
Qed.

Lemma layout_not_header' lo bs1 bs2 hi b x :
  layout lo (bs1 ++ bs2) hi -> b ∈ bs2 -> bk_hdr b <= x < bk_end b -> ~ in_header bs1 x.
Proof.
  rewrite layout_app. intros [H1 H2] Hb Hx (c & Hc & Hx2).
  apply (layout_elem _ _ _ _ H1) in Hc. apply (layout_elem _ _ _ _ H2) in Hb. unfold bk_end in *. lia.
Qed.

Lemma seg_set_first_prev lo bs hi m pv nx v :
  layout lo bs hi -> is_u32 v -> seg m pv bs nx -> seg (set_first_prev bs v m) v bs nx.
Proof.
  destruct bs as [|b bs]; [done|]. intros HL Hv [H1 H2]. split.
  - by eapply hdr_at_prev.
  - eapply seg_same; [|exact H2]. by apply (store_same_headers lo [] b bs hi); [| |lia].
Qed.

Lemma seg_set_last_next lo bs hi m pv nx v :
  layout lo bs hi -> is_u32 v -> seg m pv bs nx -> seg (set_last_next bs v m) pv bs v.
Proof.
  destruct bs as [|b bs _] using rev_ind; [done|]. intros HL Hv. rewrite set_last_next_snoc, !seg_app.
  simpl. intros [H1 [H2 _]]. split; [|split; [|done]].
  - eapply seg_same; [|exact H1].
    apply (store_same_headers lo bs b [] hi); [done| |lia]. intros c Hc. by rewrite app_nil_r.
  - by eapply hdr_at_next.
Qed.

Definition link_in (bs1 : list block) (b : block) (bs2 : list block) (m : gmap Z Z) : gmap Z Z :=
  set_last_next bs1 (bk_hdr b) (set_first_prev bs2 (bk_hdr b)
    (hdr_store (bk_hdr b) (bk_ptr b) (bk_size b) (last_hdr bs1 0) (first_hdr bs2 0) m)).

Definition link_out (bs1 bs2 : list block) (m : gmap Z Z) : gmap Z Z :=
  set_last_next bs1 (first_hdr bs2 0) (set_first_prev bs2 (last_hdr bs1 0) m).

Lemma layout_u32_hdr lo bs hi : 0 <= lo -> hi < 2 ^ 32 -> layout lo bs hi ->
  is_u32 (first_hdr bs 0) /\ is_u32 (last_hdr bs 0).
Proof.
  intros Hlo Hhi HL. split.
  - destruct bs as [|b bs]; [done|]. destruct (layout_elem _ _ _ b HL) as (H1 & H2 & _ & H3 & _).
    { apply elem_of_cons. by left. } unfold bk_end, is_u32 in *. simpl. lia.
  - destruct bs as [|b bs _] using rev_ind; [done|]. rewrite last_hdr_snoc.
    destruct (layout_elem _ _ _ b HL) as (H1 & H2 & _ & H3 & _).
    { apply elem_of_app. right. apply list_elem_of_here. } unfold bk_end, is_u32 in *. lia.
Qed.

Lemma same_headers_out bs m m' :
  (forall x, in_header bs x -> byte_at m' x = byte_at m x) -> same_headers bs m m'.
Proof. intros H b Hb x Hx. apply H. by exists b. Qed.

Lemma seg_link_in lo bs1 b bs2 hi m :
  layout lo (bs1 ++ b :: bs2) hi -> 0 <= lo -> hi < 2 ^ 32 ->
  (exists x y, seg m 0 bs1 x /\ seg m y bs2 0) -> seg (link_in bs1 b bs2 m) 0 (bs1 ++ b :: bs2) 0.
Proof.
  intros HL Hlo Hhi (x0 & y0 & S1 & S2). rewrite !seg_app.
  pose proof HL as [L1 L2]%layout_app. simpl in L2. destruct L2 as (Hb1 & Hb2 & Hb3 & Hb4 & L2).
  pose proof (layout_top _ _ _ L1). pose proof (layout_top _ _ _ L2).
  assert (Ub : is_u32 (bk_hdr b)) by (unfold bk_end, is_u32 in *; lia).
  destruct (layout_u32_hdr lo bs1 (top lo bs1)) as [_ U1]; [lia|unfold bk_end in *; lia|done|].
  destruct (layout_u32_hdr (bk_end b) bs2 hi) as [U2 _]; [unfold bk_end in *; lia|lia|done|].
  assert (Ub' : is_u32 (bk_ptr b)) by (unfold bk_ptr, bk_end, is_u32 in *; lia).
  assert (Us : is_u32 (bk_size b)) by (unfold bk_end, is_u32 in *; lia).
  assert (N1 : forall x, in_header bs1 x -> x < bk_hdr b).
  { intros x (c & Hc & Hx). apply (layout_elem _ _ _ _ L1) in Hc. unfold bk_end in *. lia. }
  assert (N2 : forall x, in_header bs2 x -> bk_end b <= x).
  { intros x (c & Hc & Hx). apply (layout_elem _ _ _ _ L2) in Hc. lia. }
  unfold link_in. set (m1 := hdr_store _ _ _ _ _ m).
  assert (B1 : seg m1 0 bs1 x0).
  { eapply seg_same; [|exact S1]. apply same_headers_out. intros x Hx%N1. apply hdr_store_out. lia. }
  assert (B2 : seg m1 y0 bs2 0).
  { eapply seg_same; [|exact S2]. apply same_headers_out. intros x Hx%N2. apply hdr_store_out. unfold bk_end in *. lia. }
  assert (Bb : hdr_at m1 b (last_hdr bs1 0) (first_hdr bs2 0)) by (by apply hdr_store_load).
  split; [|simpl; split].
  - eapply (seg_set_last_next lo _ (top lo bs1)); [done|done|].
    eapply seg_same; [|exact B1]. apply same_headers_out. intros x Hx%N1. apply set_first_prev_out.
    intros Hx2%N2. unfold bk_end in *. lia.
  - eapply hdr_at_same; [|exact Bb]. intros x Hx. rewrite set_last_next_out, set_first_prev_out; [done| |].
    + intros Hx2%N2. unfold bk_end in *. lia.
    + intros Hx2%N1. lia.
  - eapply seg_same; [|eapply (seg_set_first_prev (bk_end b) _ hi); [done| |exact B2]; done].
    apply same_headers_out. intros x Hx%N2. apply set_last_next_out. intros Hx2%N1. unfold bk_end in *. lia.
Qed.

Lemma link_in_out bs1 b bs2 m x :
  ~ in_header (bs1 ++ b :: bs2) x -> byte_at (link_in bs1 b bs2 m) x = byte_at m x.
Proof.
  rewrite in_header_app, in_header_cons. intros H. unfold link_in.
  rewrite set_last_next_out, set_first_prev_out by tauto. apply hdr_store_out. lia.
Qed.

Lemma seg_link_out lo bs1 b bs2 hi m :
  layout lo (bs1 ++ b :: bs2) hi -> 0 <= lo -> hi < 2 ^ 32 ->
  seg m 0 (bs1 ++ b :: bs2) 0 -> seg (link_out bs1 bs2 m) 0 (bs1 ++ bs2) 0.
Proof.
  intros HL Hlo Hhi. rewrite !seg_app. simpl. intros [S1 [_ S2]].
  pose proof (layout_remove _ _ _ _ _ HL) as HL'. pose proof HL' as [L1 L2]%layout_app.
  pose proof (layout_top _ _ _ L1). pose proof (layout_top _ _ _ L2).
  destruct (layout_u32_hdr lo bs1 (top lo bs1)) as [_ U1]; [lia|lia|done|].
  destruct (layout_u32_hdr (top lo bs1) bs2 hi) as [U2 _]; [lia|lia|done|].
  assert (N : forall x, in_header bs1 x -> ~ in_header bs2 x).
  { intros x (c & Hc & Hx). eapply (layout_not_header lo bs1 bs2 hi c); [done|done|].
    apply (layout_elem _ _ _ _ L1) in Hc. unfold bk_end in *. lia. }
  unfold link_out. split.
  - eapply (seg_set_last_next lo _ (top lo bs1)); [done|done|].
    eapply seg_same; [|exact S1]. apply same_headers_out. intros x Hx. by apply set_first_prev_out, N.
  - eapply seg_same; [|eapply (seg_set_first_prev (top lo bs1) _ hi); [done| |exact S2]; done].
    apply same_headers_out. intros x Hx. apply set_last_next_out. intros Hx1. by apply (N x).
Qed.

Lemma link_out_out bs1 bs2 m x :
  ~ in_header (bs1 ++ bs2) x -> byte_at (link_out bs1 bs2 m) x = byte_at m x.
Proof.
  rewrite in_header_app. intros H. unfold link_out.
  by rewrite set_last_next_out, set_first_prev_out by tauto.
Qed.

(** ** The data of the blocks *)

(** The bytes of the blocks of [bs] are the same. *)
Definition same_data (bs : list block) (m m' : gmap Z Z) : Prop :=
  forall b, b ∈ bs -> forall x, bk_ptr b <= x < bk_end b -> byte_at m' x = byte_at m x.

Lemma data_not_header lo bs hi b x :
  layout lo bs hi -> b ∈ bs -> bk_ptr b <= x < bk_end b -> ~ in_header bs x.
Proof.
  intros HL (bs1 & bs2 & ->)%list_elem_of_split Hx (c & Hc & Hxc).
  pose proof (layout_elem _ _ _ c HL Hc) as (_ & _ & _ & Hcs & _).
  apply elem_of_app in Hc as [Hc|[->|Hc]%elem_of_cons].
  - destruct (layout_sep _ _ _ _ _ c HL) as [?|?]; [apply elem_of_app; by left| |];
      unfold bk_end, bk_ptr in *; lia.
  - unfold bk_ptr in Hx. lia.
  - destruct (layout_sep _ _ _ _ _ c HL) as [?|?]; [apply elem_of_app; by right| |];
      unfold bk_end, bk_ptr in *; lia.
Qed.

Lemma same_data_headers lo bs hi bs' m m' :
  layout lo bs hi -> (forall b, b ∈ bs' -> b ∈ bs) ->
  (forall x, ~ in_header bs x -> byte_at m' x = byte_at m x) -> same_data bs' m m'.
Proof. intros HL Hbs H b Hb x Hx. apply H. eapply data_not_header; [done|by apply Hbs|done]. Qed.
