(* ===== verification/AllocSpec.v ===== *)
(** * AllocSpec: what the operations of alloc.c do to the list of blocks

    The steps of [malloc], [free], [realloc] and [memalign], each proved to
    refine an operation on the list of blocks of AllocInv, with no access
    outside the heap and enough fuel for the searches. *)

From stdpp Require Import base numbers list gmap.
From Stdlib Require Import ZArith Lia.
From S2P Require Import Prelude Alloc AllocInv.

Open Scope Z_scope.
Open Scope c_scope.

(** ** Sizes *)

Lemma land15 x : Z.land x 15 = x mod 16.
Proof. change 15 with (Z.ones 4). by rewrite Z.land_ones by lia. Qed.

(** Rounding up to a power of two. *)
Lemma ALIGN_eq x k : 0 <= k < 32 -> 0 <= x -> x + 2 ^ k < 2 ^ 32 ->
  ALIGN x (2 ^ k) = 2 ^ k * ((x + (2 ^ k - 1)) / 2 ^ k).
Proof.
  intros Hk Hx Hb. assert (Hp : 0 < 2 ^ k) by (apply Z.pow_pos_nonneg; lia).
  unfold ALIGN. rewrite u32_small by (unfold is_u32; lia).
  set (y := x + (2 ^ k - 1)). assert (Hy : 0 <= y < 2 ^ 32) by lia.
  rewrite Z.mul_comm, <- Z.shiftl_mul_pow2, <- Z.shiftr_div_pow2 by lia.
  apply Z.bits_inj'. intros i Hi. rewrite Z.land_spec, Z.shiftl_spec by lia.
  destruct (Z.ltb_spec i k) as [Hik|Hik].
  - rewrite (Z.testbit_neg_r _ (i - k)) by lia. apply andb_false_iff. right.
    unfold u32. rewrite Z.mod_pow2_bits_low by lia. rewrite Z.lnot_spec, negb_false_iff by lia.
    replace (2 ^ k - 1) with (Z.ones k) by (rewrite Z.ones_equiv; lia).
    by apply Z.ones_spec_low.
  - rewrite Z.shiftr_spec by lia. replace (i - k + k) with i by lia.
    destruct (Z.ltb_spec i 32) as [Hi32|Hi32].
    + unfold u32. rewrite Z.mod_pow2_bits_low, Z.lnot_spec by lia.
      replace (2 ^ k - 1) with (Z.ones k) by (rewrite Z.ones_equiv; lia).
      rewrite Z.ones_spec_high by lia. by rewrite andb_true_r.
    + by rewrite (is_u32_high y i) by (unfold is_u32; lia).
Qed.

Lemma block_size_eq size : 0 <= size -> size + 48 <= 2 ^ 32 ->
  block_size size = 16 * ((size + 31) / 16).
Proof.
  intros H0 H1. unfold block_size, header_size, DEFAULT_ALIGNMENT.
  rewrite u32_small by (unfold is_u32; lia). change (16 - 1) with 15. rewrite land15.
  destruct (nz _) eqn:E.
  - change 16 with (2 ^ 4) at 2. rewrite ALIGN_eq by lia. simpl (2 ^ 4). do 2 f_equal. lia.
  - apply nz_false in E. Z.div_mod_to_equations. lia.
Qed.

Lemma block_size_bounds size : 0 <= size -> size + 48 <= 2 ^ 32 ->
  block_size size mod 16 = 0 /\ size + 16 <= block_size size < size + 32.
Proof. intros H0 H1. rewrite block_size_eq by done. Z.div_mod_to_equations. lia. Qed.

(** ** Access to headers *)

(** The header at [h] lies in the heap. *)
Definition hdr_ok (s : heap_st) (h : Z) : Prop :=
  h mod 16 = 0 /\ heap_start s <= h /\ h + 16 <= heap_end s.

Lemma word_ok_hdr s h k : hdr_ok s h -> k mod 4 = 0 -> 0 <= k <= 12 -> word_ok s (h + k) = true.
Proof.
  intros (H1 & H2 & H3) Hk Hk2. unfold word_ok.
  apply andb_true_intro. split; [apply andb_true_intro; split|].
  - apply Z.eqb_eq. Z.div_mod_to_equations. lia.
  - apply Z.leb_le. lia.
  - apply Z.leb_le. lia.
Qed.

Lemma ld_hdr s h k : hdr_ok s h -> k mod 4 = 0 -> 0 <= k <= 12 ->
  ld (h + k) s = Done (load (heap_mem s) (h + k)) s.
Proof. intros H1 H2 H3. unfold ld. by rewrite word_ok_hdr. Qed.

Lemma stw_hdr s h k v : hdr_ok s h -> k mod 4 = 0 -> 0 <= k <= 12 ->
  st (h + k) v s = Done tt (with_mem (store (h + k) v (heap_mem s)) s).
Proof. intros H1 H2 H3. unfold st. by rewrite word_ok_hdr. Qed.

Lemma put_header_Done s h p sz pv nx : hdr_ok s h ->
  put_header h p sz pv nx s = Done tt (with_mem (hdr_store h p sz pv nx (heap_mem s)) s).
Proof.
  intros H. unfold put_header, put_ptr, put_size, put_prev, put_next, hdr_store.
  rewrite <- (Z.add_0_r h) at 1. rewrite (bind_Done _ _ _ _ _ (stw_hdr s h 0 p H eq_refl ltac:(lia))).
  rewrite Z.add_0_r.
  erewrite bind_Done by (by apply stw_hdr). erewrite bind_Done by (by apply stw_hdr).
  by rewrite stw_hdr.
Qed.

Section Fields.
Context (s : heap_st) (b : block) (pv nx : Z).
Context (Hok : hdr_ok s (bk_hdr b)) (Hat : hdr_at (heap_mem s) b pv nx).

Lemma get_ptr_Done : get_ptr (bk_hdr b) s = Done (bk_ptr b) s.
Proof.
  unfold get_ptr. destruct Hat as (<- & _). rewrite <- (Z.add_0_r (bk_hdr b)) at 1.
  rewrite ld_hdr by (done || lia). by rewrite Z.add_0_r.
Qed.
Lemma get_size_Done : get_size (bk_hdr b) s = Done (bk_size b) s.
Proof. unfold get_size. destruct Hat as (_ & <- & _). by apply ld_hdr. Qed.
Lemma get_prev_Done : get_prev (bk_hdr b) s = Done pv s.
Proof. unfold get_prev. destruct Hat as (_ & _ & <- & _). by apply ld_hdr. Qed.
Lemma get_next_Done : get_next (bk_hdr b) s = Done nx s.
Proof. unfold get_next. destruct Hat as (_ & _ & _ & <-). by apply ld_hdr. Qed.
End Fields.

Lemma put_size_Done s h v : hdr_ok s h -> put_size h v s = Done tt (with_mem (store (h + 4) v (heap_mem s)) s).
Proof. intros H. by apply stw_hdr. Qed.
Lemma put_prev_Done s h v : hdr_ok s h -> put_prev h v s = Done tt (with_mem (store (h + 8) v (heap_mem s)) s).
Proof. intros H. by apply stw_hdr. Qed.
Lemma put_next_Done s h v : hdr_ok s h -> put_next h v s = Done tt (with_mem (store (h + 12) v (heap_mem s)) s).
Proof. intros H. by apply stw_hdr. Qed.

Lemma inv_block s bs1 b bs2 : heap_inv s (bs1 ++ b :: bs2) ->
  hdr_ok s (bk_hdr b) /\ hdr_at (heap_mem s) b (last_hdr bs1 0) (first_hdr bs2 0).
Proof.
  intros I. split.
  - destruct (layout_elem _ _ _ b (hi_layout _ _ I)) as (H1 & H2 & H3 & H4 & _).
    { apply elem_of_app. right. apply elem_of_cons. by left. }
    pose proof (hi_ptr _ _ I). unfold hdr_ok, bk_end in *. lia.
  - pose proof (hi_seg _ _ I) as S. rewrite seg_app in S. by destruct S as [_ [S _]].
Qed.

Lemma inv_fuel s bs : heap_inv s bs -> (length bs + 1 < heap_fuel s)%nat.
Proof.
  intros I. pose proof (layout_length _ _ _ (hi_layout _ _ I)). pose proof (hi_ptr _ _ I).
  unfold heap_fuel. Z.div_mod_to_equations. lia.
Qed.

Lemma first_hdr_0 s bs1 bs2 : heap_inv s (bs1 ++ bs2) -> first_hdr bs2 0 = 0 -> bs2 = [].
Proof.
  intros I. destruct bs2 as [|b bs2]; [done|]. simpl. intros E.
  destruct (inv_block _ _ _ _ I) as [(_ & H & _) _]. pose proof (hi_start _ _ I). lia.
Qed.

(** ** The searches *)

(** No block of the list can be followed by [size] more bytes. *)
Fixpoint no_gap (size : Z) (bs : list block) : Prop :=
  match bs with
  | b :: ((c :: _) as bs') => bk_hdr c - bk_end b < size /\ no_gap size bs'
  | _ => True
  end.

Lemma inv_gap s pre b c bs : heap_inv s (pre ++ b :: c :: bs) ->
  is_u32 (bk_end b) /\ 0 <= bk_hdr c - bk_end b /\ is_u32 (bk_hdr c).
Proof.
  intros I. destruct (inv_block _ _ _ _ I) as [(_ & H1 & _) _].
  pose proof (hi_layout _ _ I) as L.
  assert (L' : layout (heap_start s) ((pre ++ [b]) ++ c :: bs) (_heap_ptr s)) by (by rewrite <- app_assoc).
  apply layout_app in L' as [_ L2]. rewrite top_app in L2. simpl in L2. destruct L2 as (H2 & _).
  destruct (layout_elem _ _ _ b L) as (_ & H3 & _ & H4 & _); [apply elem_of_app; right; apply elem_of_cons; by left|].
  destruct (layout_elem _ _ _ c L) as (_ & H5 & _ & H6 & _).
  { apply elem_of_app; right; apply elem_of_cons; right; apply elem_of_cons; by left. }
  pose proof (hi_start _ _ I). pose proof (hi_ptr _ _ I). pose proof (hi_end _ _ I).
  unfold is_u32, bk_end in *. lia.
Qed.

Lemma inv_hdr_nz s pre b bs : heap_inv s (pre ++ b :: bs) -> (bk_hdr b =? 0) = false.
Proof.
  intros I. destruct (inv_block _ _ _ _ I) as [(_ & H & _) _]. pose proof (hi_start _ _ I).
  apply Z.eqb_neq. lia.
Qed.

Lemma fitStep_eq s size pre b bs : heap_inv s (pre ++ b :: bs) ->
  fitStep size (bk_hdr b) s =
  Done (match bs with
        | [] => inl 0
        | c :: _ => if size <=? bk_hdr c - bk_end b then inr (bk_hdr b) else inl (bk_hdr c)
        end) s.
Proof.
  intros I. destruct (inv_block _ _ _ _ I) as [Hok Hat]. unfold fitStep.
  rewrite (inv_hdr_nz _ _ _ _ I), (bind_Done _ _ _ _ _ (get_next_Done _ _ _ _ Hok Hat)).
  destruct bs as [|c bs]; [done|]. cbn [first_hdr].
  rewrite (inv_hdr_nz s (pre ++ [b]) c bs) by (by rewrite <- app_assoc).
  destruct (inv_gap _ _ _ _ _ I) as (U1 & Hg & U2).
  erewrite bind_Done; [|erewrite bind_Done by (by eapply get_ptr_Done);
    erewrite bind_Done by (by eapply get_size_Done); reflexivity].
  change (bk_ptr b + bk_size b) with (bk_end b).
  rewrite (u32_small (bk_end b)), (u32_small (bk_hdr c - bk_end b)) by (done || unfold is_u32 in *; lia).
  by destruct (_ <=? _).
Qed.

Lemma fit_loop s size bs : forall pre fuel, heap_inv s (pre ++ bs) -> (length bs < fuel)%nat ->
  (while_ fuel (fitStep size) (first_hdr bs 0) s = Done 0 s /\ no_gap size bs) \/
  exists bs1 p n bs2, bs = bs1 ++ p :: n :: bs2 /\ size <= bk_hdr n - bk_end p /\
    while_ fuel (fitStep size) (first_hdr bs 0) s = Done (bk_hdr p) s.
Proof.
  induction bs as [|b bs IH]; intros pre [|fuel] I Hf; try (simpl in Hf; lia); rewrite while_S; [by left|].
  cbn [first_hdr]. rewrite (fitStep_eq _ _ _ _ _ I).
  specialize (IH (pre ++ [b]) fuel ltac:(by rewrite <- app_assoc) ltac:(simpl in Hf; lia)).
  destruct bs as [|c bs]; cbn [first_hdr] in IH.
  - left. destruct IH as [[-> _]|(bs1 & p & n & bs2 & E & _)]; [done|]. by destruct bs1.
  - destruct (Z.leb_spec size (bk_hdr c - bk_end b)); [right; by exists [], b, c, bs|].
    destruct IH as [[-> Hn]|(bs1 & p & n & bs2 & E & Hp & ->)]; [by left|].
    right. exists (b :: bs1), p, n, bs2. by rewrite E.
Qed.

(** The block a pointer names. *)
Lemma findStep_eq s ptr pre b bs : heap_inv s (pre ++ b :: bs) ->
  findStep ptr (bk_hdr b) s =
  Done (if ptr =? bk_ptr b then inr (bk_hdr b)
        else match bs with [] => inr 0 | c :: _ => inl (bk_hdr c) end) s.
Proof.
  intros I. destruct (inv_block _ _ _ _ I) as [Hok Hat]. unfold findStep.
  rewrite (bind_Done _ _ _ _ _ (get_ptr_Done _ _ _ _ Hok Hat)).
  destruct (_ =? _); [done|].
  rewrite (bind_Done _ _ _ _ _ (get_next_Done _ _ _ _ Hok Hat)).
  destruct bs as [|c bs]; [done|]. cbn [first_hdr].
  by rewrite (inv_hdr_nz s (pre ++ [b]) c bs) by (by rewrite <- app_assoc).
Qed.

Lemma find_loop s ptr bs : forall pre b fuel, heap_inv s (pre ++ b :: bs) -> (length bs + 1 < fuel)%nat ->
  (while_ fuel (findStep ptr) (bk_hdr b) s = Done 0 s /\ forall c, c ∈ b :: bs -> bk_ptr c <> ptr) \/
  exists bs1 c bs2, b :: bs = bs1 ++ c :: bs2 /\ bk_ptr c = ptr /\
    while_ fuel (findStep ptr) (bk_hdr b) s = Done (bk_hdr c) s.
Proof.
  induction bs as [|c bs IH]; intros pre b [|fuel] I Hf; try (simpl in Hf; lia);
    rewrite while_S, (findStep_eq _ _ _ _ _ I);
    (destruct (Z.eqb_spec ptr (bk_ptr b)) as [->|Hne]; [right; eexists [], b, _; done|]).
  - left. split; [done|]. intros c [->|Hc%elem_of_nil]%elem_of_cons; [congruence|done].
  - destruct (IH (pre ++ [b]) c fuel) as [[-> Hn]|(bs1 & d & bs2 & E & Hp & ->)];
      [by rewrite <- app_assoc|simpl in Hf; lia| |].
    + left. split; [done|]. intros d [->|Hd]%elem_of_cons; [congruence|by apply Hn].
    + right. exists (b :: bs1), d, bs2. by rewrite E.
Qed.

(** ** malloc *)

(** The list after a block was linked in. *)
Lemma inv_link_in s bs1 b bs2 s' :
  heap_inv s (bs1 ++ bs2) -> top (heap_start s) bs1 <= bk_hdr b -> bk_hdr b mod 16 = 0 ->
  0 <= bk_size b -> bk_size b mod 16 = 0 -> bk_end b <= first_hdr bs2 (_heap_ptr s') ->
  heap_start s' = heap_start s -> heap_end s' = heap_end s -> __alloc_heap_base s' = heap_start s ->
  _heap_ptr s <= _heap_ptr s' <= heap_end s -> _heap_ptr s' mod 16 = 0 ->
  heap_mem s' = link_in bs1 b bs2 (heap_mem s) ->
  __alloc_heap_head s' = first_hdr (bs1 ++ [b]) 0 -> __alloc_heap_tail s' = last_hdr bs2 (bk_hdr b) ->
  heap_inv s' (bs1 ++ b :: bs2) /\ same_data (bs1 ++ bs2) (heap_mem s) (heap_mem s').
Proof.
  intros I Ht Hm Hs Hsm He Es Ee Eb Hp Hpm Em Eh Etl.
  pose proof (hi_start _ _ I) as [Hs1 Hs2]. pose proof (hi_end _ _ I).
  assert (L : layout (heap_start s) (bs1 ++ b :: bs2) (_heap_ptr s')).
  { eapply layout_insert; [exact (hi_layout _ _ I)|..]; done || lia. }
  split; [constructor|].
  - by rewrite Es.
  - rewrite Es, Ee. pose proof (hi_ptr _ _ I). lia.
  - by rewrite Ee.
  - left. congruence.
  - by rewrite Es.
  - rewrite Em. eapply seg_link_in; [exact L|lia|lia|]. pose proof (hi_seg _ _ I) as S. rewrite seg_app in S. eauto.
  - rewrite Eh. by rewrite !first_hdr_app.
  - rewrite Etl, last_hdr_app. done.
  - rewrite Em. eapply same_data_headers; [exact L| |intros x; apply link_in_out].
    intros c. rewrite !elem_of_app, elem_of_cons. tauto.
Qed.

(** The lock is free, or there is none. *)
Definition lockable (s : heap_st) : Prop := alloc_sema s = None \/ alloc_sema s = Some 1.
Definition locked (v : option Z) : option Z := match v with None => None | Some n => Some (n - 1) end.

Lemma lock_Done s : lockable s -> alloc_lock s = Done tt (with_alock (locked (alloc_sema s)) s).
Proof. intros [E|E]; destruct s; simpl in *; by subst. Qed.

Lemma unlock_Done s t : lockable t -> alloc_sema s = locked (alloc_sema t) ->
  alloc_unlock s = Done tt (with_alock (alloc_sema t) s).
Proof.
  intros [E|E] Es; unfold alloc_unlock, modify; rewrite Es, E; done.
Qed.

Lemma inv_alock s bs v : heap_inv s bs -> heap_inv (with_alock v s) bs.
Proof. intros []. by constructor. Qed.

Lemma sbrk_grow s n : 0 < n -> 0 <= _heap_ptr s -> _heap_ptr s + n < 2 ^ 32 ->
  alloc_sbrk n s = if _heap_ptr s + n <=? heap_end s
                   then Done (_heap_ptr s) (with_ptr (_heap_ptr s + n) s) else Done sbrk_failed s.
Proof.
  intros Hn H0 Hb. unfold alloc_sbrk. rewrite (proj2 (Z.eqb_neq n 0)) by lia.
  unfold bind, get. rewrite u32_small by (unfold is_u32; lia). by destruct (_ <=? _).
Qed.

(** A block of [need] bytes, header included, was added to the list [bs]. *)
Definition inserted (v : option Z) (bs : list block) (need : Z) (s : heap_st) (p : Z) (s' : heap_st) : Prop :=
  exists bs1 b bs2, bs = bs1 ++ bs2 /\ heap_inv s' (bs1 ++ b :: bs2) /\ p = bk_ptr b /\
    bk_size b = need - 16 /\ same_data bs (heap_mem s) (heap_mem s') /\ alloc_sema s' = v /\
    heap_start s' = heap_start s /\ heap_end s' = heap_end s.

Lemma inserted_link s bs1 b bs2 s' v need :
  heap_inv s (bs1 ++ bs2) -> need mod 16 = 0 /\ 16 <= need -> bk_size b = need - 16 ->
  top (heap_start s) bs1 <= bk_hdr b -> bk_hdr b mod 16 = 0 -> bk_end b <= first_hdr bs2 (_heap_ptr s') ->
  heap_start s' = heap_start s -> heap_end s' = heap_end s -> __alloc_heap_base s' = heap_start s ->
  _heap_ptr s <= _heap_ptr s' <= heap_end s -> _heap_ptr s' mod 16 = 0 ->
  heap_mem s' = link_in bs1 b bs2 (heap_mem s) ->
  __alloc_heap_head s' = first_hdr (bs1 ++ [b]) 0 -> __alloc_heap_tail s' = last_hdr bs2 (bk_hdr b) ->
  alloc_sema s' = v -> inserted v (bs1 ++ bs2) need s (bk_ptr b) s'.
Proof.
  intros I [Hn Hn2] Hsz Ht Hm He Es Ee Eb Hp Hpm Em Eh Etl Ev.
  destruct (inv_link_in s bs1 b bs2 s') as [I' D']; try done; [lia| |by exists bs1, b, bs2].
  rewrite Hsz. Z.div_mod_to_equations. lia.
Qed.

Lemma inv_tail_ok s bs : heap_inv s bs -> bs <> [] -> hdr_ok s (last_hdr bs 0).
Proof.
  intros I Hne. destruct bs as [|c bs _] using rev_ind; [done|]. rewrite last_hdr_snoc.
  apply (inv_block _ _ _ _ I).
Qed.

Lemma with_base_id s p : __alloc_heap_base s = p -> with_base p s = s.
Proof. by destruct s; simpl; intros ->. Qed.

Section Malloc.
Context (s : heap_st) (bs : list block) (v : option Z) (need : Z).
Context (I : heap_inv s bs) (Hv : v = None \/ v = Some 1) (Hlock : alloc_sema s = locked v).
Context (Hneed : need mod 16 = 0 /\ 16 <= need /\ heap_end s + need < 2 ^ 32).

Lemma unlock_v s' : alloc_sema s' = locked v -> alloc_unlock s' = Done tt (with_alock v s').
Proof. intros E. unfold alloc_unlock, modify. rewrite E. by destruct Hv as [-> | ->]. Qed.

Lemma new_u32 h : heap_start s <= h -> h <= heap_end s ->
  u32 (h + header_size) = h + 16 /\ u32 (need - header_size) = need - 16.
Proof.
  intros H1 H2. pose proof (hi_start _ _ I). unfold header_size.
  rewrite !u32_small by (unfold is_u32; lia). done.
Qed.

Lemma mallocBelow_ok : bs <> [] -> heap_start s + need < first_hdr bs 0 ->
  __alloc_heap_base s = heap_start s ->
  exists p s', mallocBelow need s = Done p s' /\ inserted v bs need s p s'.
Proof.
  intros Hne Hfit Hbase. pose proof new_u32 as NU. destruct bs as [|c bs'] eqn:Ebs; [done|]. cbn [first_hdr] in Hfit.
  destruct (inv_block s [] c bs' I) as [Hcok Hcat]. pose proof (hi_start _ _ I) as [Hs0 Hs16].
  set (b := mkBlk (heap_start s) (need - 16)).
  assert (Hbok : hdr_ok s (bk_hdr b)). { destruct Hcok as (_ & _ & ?). unfold hdr_ok; simpl; lia. }
  destruct (NU (heap_start s)) as [E1 E2]; [lia|destruct Hcok as (_ & _ & ?); lia|].
  unfold mallocBelow. rewrite (bind_Done get _ s s s eq_refl). cbv zeta. rewrite Hbase, E1, E2, (hi_head _ _ I).
  change (heap_start s) with (bk_hdr b) at 1.
  rewrite (bind_Done _ _ _ _ _ (put_header_Done s (bk_hdr b) _ _ _ _ Hbok)).
  set (s1 := with_mem _ s).
  assert (Hat : hdr_at (heap_mem s1) b 0 (bk_hdr c)).
  { apply hdr_store_load; unfold bk_ptr, is_u32 in *; simpl; destruct Hcok as (_ & ? & ?);
      pose proof (hi_end _ _ I); lia. }
  rewrite (bind_Done _ _ _ _ _ (get_next_Done s1 b _ _ Hbok Hat)).
  rewrite (bind_Done _ _ _ _ _ (put_prev_Done s1 (bk_hdr c) (bk_hdr b) Hcok)).
  unfold bind at 1, modify at 1. erewrite bind_Done by (apply unlock_v; exact Hlock).
  eexists _, _. split; [reflexivity|].
  pose proof (hi_ptr _ _ I). pose proof (hi_tail _ _ I).
  apply (inserted_link s [] b (c :: bs')); try done; unfold bk_end; simpl; lia.
Qed.

Lemma mallocBetween_ok bs1 p n bs2 : bs = bs1 ++ p :: n :: bs2 -> need <= bk_hdr n - bk_end p ->
  __alloc_heap_base s = heap_start s ->
  exists q s', mallocBetween (bk_hdr p) need s = Done q s' /\ inserted v bs need s q s'.
Proof.
  intros Ebs Hfit Hbase. pose proof new_u32 as NU. subst bs. destruct (inv_block _ _ _ _ I) as [Hpok Hpat].
  pose proof I as I2. rewrite (app_assoc bs1 [p] (n :: bs2) : _ ++ p :: n :: bs2 = _) in I2.
  destruct (inv_block _ _ _ _ I2) as [Hnok Hnat]. destruct (inv_gap _ _ _ _ _ I) as (U1 & Hg & U2).
  set (b := mkBlk (bk_end p) (need - 16)).
  assert (Hbok : hdr_ok s (bk_hdr b)).
  { destruct (layout_elem _ _ _ p (hi_layout _ _ I)) as (? & _ & ? & ? & ?);
      [apply elem_of_app; right; apply elem_of_cons; by left|].
    destruct Hnok as (_ & _ & ?). unfold hdr_ok, bk_end in *; simpl. Z.div_mod_to_equations. lia. }
  destruct (NU (bk_end p)) as [E1 E2]; [apply Hbok|destruct Hbok as (_ & _ & Hb); simpl in Hb; lia|].
  unfold mallocBetween. rewrite (bind_Done _ _ _ _ _ (get_ptr_Done _ _ _ _ Hpok Hpat)).
  rewrite (bind_Done _ _ _ _ _ (get_size_Done _ _ _ _ Hpok Hpat)). cbv zeta.
  change (bk_ptr p + bk_size p) with (bk_end p). rewrite (u32_small (bk_end p)) by done. rewrite E1, E2.
  rewrite (bind_Done _ _ _ _ _ (get_next_Done _ _ _ _ Hpok Hpat)). cbn [first_hdr].
  change (bk_end p) with (bk_hdr b) at 1.
  rewrite (bind_Done _ _ _ _ _ (put_header_Done s (bk_hdr b) _ _ _ _ Hbok)).
  set (s1 := with_mem _ s).
  assert (Hat : hdr_at (heap_mem s1) b (bk_hdr p) (bk_hdr n)).
  { apply hdr_store_load; unfold bk_ptr, is_u32 in *; simpl; destruct Hpok as (_ & ? & ?), Hnok as (_ & ? & ?);
      pose proof (hi_end _ _ I); pose proof (hi_start _ _ I); lia. }
  rewrite (bind_Done _ _ _ _ _ (get_next_Done s1 b _ _ Hbok Hat)).
  rewrite (bind_Done _ _ _ _ _ (put_prev_Done s1 (bk_hdr n) (bk_hdr b) Hnok)).
  erewrite bind_Done by (apply put_next_Done, Hpok). erewrite bind_Done by (apply unlock_v; exact Hlock).
  eexists _, _. split; [reflexivity|]. rewrite (app_assoc bs1 [p] (n :: bs2) : _ ++ p :: n :: bs2 = _).
  pose proof (hi_ptr _ _ I). pose proof (hi_head _ _ I) as Hh. pose proof (hi_tail _ _ I) as Htl.
  apply (inserted_link s (bs1 ++ [p]) b (n :: bs2)); try done.
  - by destruct Hneed as (? & ? & _).
  - rewrite top_app. simpl. lia.
  - apply Hbok.
  - unfold bk_end. simpl. lia.
  - simpl. lia.
  - simpl. lia.
  - unfold link_in. rewrite set_last_next_snoc, last_hdr_snoc. done.
  - simpl. rewrite Hh, !first_hdr_app. done.
  - simpl. rewrite Htl, last_hdr_app. done.
Qed.

(** A new last block, from the break. *)
Lemma break_link s' : _heap_ptr s + need <= heap_end s ->
  let b := mkBlk (_heap_ptr s) (need - 16) in
  heap_start s' = heap_start s -> heap_end s' = heap_end s -> __alloc_heap_base s' = heap_start s ->
  _heap_ptr s' = _heap_ptr s + need -> heap_mem s' = link_in bs b [] (heap_mem s) ->
  __alloc_heap_head s' = first_hdr (bs ++ [b]) 0 -> __alloc_heap_tail s' = bk_hdr b -> alloc_sema s' = v ->
  inserted v bs need s (bk_ptr b) s'.
Proof.
  intros Hb b E1 E2 E3 E4 E5 E6 E7 E8. pose proof (hi_ptr _ _ I) as [H1 H2].
  pose proof (layout_top _ _ _ (hi_layout _ _ I)). destruct Hneed as (N1 & N2 & _).
  rewrite <- (app_nil_r bs). apply (inserted_link s bs b []); try done; try (by rewrite app_nil_r).
  - simpl. lia.
  - cbn [first_hdr]. unfold bk_end. simpl. lia.
  - lia.
  - rewrite E4. Z.div_mod_to_equations. lia.
Qed.

Lemma hdr_ok_break : _heap_ptr s + need <= heap_end s -> hdr_ok s (_heap_ptr s).
Proof. pose proof (hi_ptr _ _ I). unfold hdr_ok. lia. Qed.

Lemma mallocAfter_ok : bs <> [] -> __alloc_heap_base s = heap_start s ->
  exists p s', mallocAfter need s = Done p s' /\
    ((heap_end s < _heap_ptr s + need /\ p = 0 /\ s' = with_alock v s) \/ inserted v bs need s p s').
Proof.
  intros Hne Hbase. pose proof (hi_ptr _ _ I) as [Hp1 Hp2]. pose proof (hi_start _ _ I).
  unfold mallocAfter. destruct (Z.leb_spec (_heap_ptr s + need) (heap_end s)) as [Hle|Hgt].
  - erewrite bind_Done; [|rewrite sbrk_grow, (proj2 (Z.leb_le _ _) Hle) by lia; reflexivity].
    rewrite (proj2 (Z.eqb_neq _ _)) by (unfold sbrk_failed; change (u32 (-1)) with 4294967295; lia). cbv zeta.
    destruct (new_u32 (_heap_ptr s)) as [-> ->]; [lia|lia|].
    set (s1 := with_ptr _ s). change (bind (gets __alloc_heap_tail) ?k s1) with (k (__alloc_heap_tail s1) s1).
    cbv beta. erewrite bind_Done by (apply put_header_Done; exact (hdr_ok_break Hle)).
    assert (Et : __alloc_heap_tail s1 = last_hdr bs 0) by exact (hi_tail _ _ I). rewrite Et.
    erewrite bind_Done by (apply put_next_Done; exact (inv_tail_ok _ _ I Hne)).
    unfold bind at 1, modify at 1. erewrite bind_Done by (apply unlock_v; exact Hlock).
    eexists _, _. split; [reflexivity|]. right. apply break_link; try done.
    + unfold link_in. simpl. by destruct bs.
    + simpl. rewrite (hi_head _ _ I). by destruct bs.
  - erewrite bind_Done; [|rewrite sbrk_grow, (proj2 (Z.leb_gt _ _) Hgt) by lia; reflexivity].
    rewrite Z.eqb_refl. erewrite bind_Done by (apply unlock_v; exact Hlock).
    eexists _, _. split; [reflexivity|]. left. by split; [lia|].
Qed.

(** The base of the heap, set by the first call. *)
Lemma first_base (k : unit -> M heap_st Z) :
  (base <- gets __alloc_heap_base ;;
   when (base =? 0) (p <- alloc_sbrk 0 ;; alloc_sbrk (Z.land p (DEFAULT_ALIGNMENT - 1)) ;;;
     p <- alloc_sbrk 0 ;; modify (with_base p)) ;;; k tt) s = k tt (with_base (heap_start s) s).
Proof.
  pose proof (hi_ptr _ _ I) as [Hp1 Hp2]. pose proof (hi_start _ _ I) as [Hs1 Hs2].
  unfold bind at 1, gets at 1. destruct (hi_base _ _ I) as [E|(E & _ & Ep)]; rewrite E.
  - rewrite (proj2 (Z.eqb_neq _ _)) by lia. by rewrite with_base_id.
  - unfold when. change (0 =? 0) with true. unfold bind, alloc_sbrk. simpl. unfold gets.
    change (DEFAULT_ALIGNMENT - 1) with 15. rewrite land15, Hp2. simpl. unfold modify.
    by rewrite Ep.
Qed.

Lemma mallocFirst_full : heap_end s < _heap_ptr s + need -> mallocFirst need s = Done 0 (with_base (heap_start s) s).
Proof.
  intros Hgt. pose proof (hi_ptr _ _ I) as [Hp1 Hp2]. pose proof (hi_start _ _ I) as [Hs1 Hs2].
  unfold mallocFirst. rewrite (first_base (fun _ => _)). set (s1 := with_base _ s).
  erewrite bind_Done; [|rewrite sbrk_grow, (proj2 (Z.leb_gt (_heap_ptr s1 + need) (heap_end s1)) Hgt) by (simpl; lia); reflexivity].
  by rewrite Z.eqb_refl.
Qed.

Lemma mallocFirst_ok : bs = [] ->
  exists p s', mallocFirst need s = Done p s' /\
    ((heap_end s < _heap_ptr s + need /\ p = 0 /\ s' = with_base (heap_start s) s) \/
     inserted v bs need s p s').
Proof.
  intros Hnil. destruct (Z.leb_spec (_heap_ptr s + need) (heap_end s)) as [Hle|Hgt];
    [|rewrite mallocFirst_full by done; eauto 10].
  pose proof (hi_ptr _ _ I) as [Hp1 Hp2]. pose proof (hi_start _ _ I) as [Hs1 Hs2].
  unfold mallocFirst. rewrite (first_base (fun _ => _)). set (s1 := with_base _ s).
  erewrite bind_Done; [|rewrite sbrk_grow, (proj2 (Z.leb_le (_heap_ptr s1 + need) (heap_end s1)) Hle) by (simpl; lia); reflexivity].
  rewrite (proj2 (Z.eqb_neq _ _)) by (unfold sbrk_failed; change (u32 (-1)) with 4294967295; simpl; lia). cbv zeta.
  change (_heap_ptr s1) with (_heap_ptr s). destruct (new_u32 (_heap_ptr s)) as [-> ->]; [lia|lia|].
  unfold bind at 1, modify at 1. erewrite bind_Done by (apply put_header_Done; exact (hdr_ok_break Hle)).
  unfold bind at 1, modify at 1. erewrite bind_Done by (apply unlock_v; exact Hlock).
  eexists _, _. split; [reflexivity|]. right. apply break_link; try done; by rewrite Hnil.
Qed.
End Malloc.

(** Neither the space below the first block (the code wants more than it
    needs there) nor a gap takes [need] bytes. *)
Definition no_room (need : Z) (bs : list block) (s : heap_st) : Prop :=
  first_hdr bs 0 <= heap_start s + need /\ no_gap need bs.

(** What [malloc] leaves behind: NULL, with the list as it was, when neither
    the gaps nor the rest of the heap have room; or a new block. *)
Definition malloc_post (size : Z) (bs : list block) (s : heap_st) (p : Z) (s' : heap_st) : Prop :=
  (p = 0 /\ heap_inv s' bs /\ heap_mem s' = heap_mem s /\ _heap_ptr s' = _heap_ptr s /\
   heap_start s' = heap_start s /\ heap_end s' = heap_end s /\
   heap_end s < _heap_ptr s + block_size size /\ no_room (block_size size) bs s /\
   alloc_sema s' = match bs with [] => locked (alloc_sema s) | _ => alloc_sema s end) \/
  inserted (alloc_sema s) bs (block_size size) s p s'.

Lemma malloc_spec s bs size : heap_inv s bs -> lockable s -> 0 <= size -> heap_end s + size + 48 <= 2 ^ 32 ->
  wp (malloc size) s (malloc_post size bs s).
Proof.
  intros I Hl H0 H1. pose proof (hi_start _ _ I) as [Hs1 Hs2]. pose proof (hi_ptr _ _ I) as [Hp1 Hp2].
  destruct (block_size_bounds size) as [N1 N2]; [lia|lia|].
  unfold malloc. cbv zeta.
  set (need := block_size size) in *. apply wp_bind. eapply wp_Done; [by apply lock_Done|].
  set (v := alloc_sema s). set (s1 := with_alock (locked v) s).
  assert (I1 : heap_inv s1 bs) by (by apply inv_alock).
  apply wp_bind. eapply wp_Done; [reflexivity|].
  assert (Hn : need mod 16 = 0 /\ 16 <= need /\ heap_end s1 + need < 2 ^ 32) by (simpl; lia).
  rewrite (hi_head _ _ I1).
  destruct bs as [|c bs'].
  { cbn [first_hdr]. rewrite Z.eqb_refl.
    destruct (mallocFirst_ok s1 [] v need I1 Hl eq_refl Hn eq_refl) as (p & s' & E & [(H & -> & ->)|H]);
      (eapply wp_Done; [exact E|]); [left|by right].
    split; [done|]. split; [destruct I1; constructor; try done; by left|].
    do 5 (split; [done|]). split; [split; [simpl; lia|done]|done]. }
  cbn [first_hdr]. rewrite (inv_hdr_nz s1 [] c bs' I1).
  assert (Eb : __alloc_heap_base s1 = heap_start s1) by (destruct (hi_base _ _ I1) as [E|(_ & E & _)]; done).
  destruct (inv_block s1 [] c bs' I1) as [(_ & Hc1 & Hc2) _].
  rewrite Eb, u32_small by (unfold is_u32; simpl in *; lia).
  destruct (Z.ltb_spec (heap_start s1 + need) (bk_hdr c)) as [Hlt|Hge].
  { destruct (mallocBelow_ok s1 (c :: bs') v need I1 Hl eq_refl Hn) as (p & s' & E & H); [done|done|done|].
    eapply wp_Done; [exact E|]. by right. }
  apply wp_bind. unfold _heap_mem_fit. apply wp_bind. eapply wp_Done; [reflexivity|].
  pose proof (inv_fuel _ _ I1) as Hf.
  destruct (fit_loop s1 need (c :: bs') [] (heap_fuel s1) I1) as [[E Hg]|(bs1 & p & n & bs2 & Ebs & Hp & E)];
    [lia| |]; (eapply wp_Done; [exact E|]).
  - change (nz 0) with false. cbv iota.
    destruct (mallocAfter_ok s1 (c :: bs') v need I1 Hl eq_refl Hn) as (q & s' & E2 & [(H & -> & ->)|H]);
      [done|done|..]; (eapply wp_Done; [exact E2|]); [left|by right].
    split; [done|]. split; [by apply inv_alock|]. do 5 (split; [done|]). split; [split; [simpl in *; lia|done]|done].
  - rewrite Ebs in I1. rewrite (proj2 (nz_true _)) by (apply Z.eqb_neq, (inv_hdr_nz _ _ _ _ I1)).
    rewrite <- Ebs in I1.
    destruct (mallocBetween_ok s1 (c :: bs') v need I1 Hl eq_refl Hn bs1 p n bs2) as (q & s' & E2 & H); [done|done|done|].
    eapply wp_Done; [exact E2|]. by right.
Qed.

(** ** free *)

Lemma sbrk_shrink s n : 0 < n <= _heap_ptr s -> _heap_ptr s <= heap_end s < 2 ^ 32 ->
  alloc_sbrk (u32 (- n)) s = Done (_heap_ptr s) (with_ptr (_heap_ptr s - n) s).
Proof.
  intros Hn Hp. unfold alloc_sbrk.
  assert (E : u32 (- n) = 2 ^ 32 - n).
  { unfold u32. rewrite <- (Z.mod_add (- n) 1) by lia. rewrite Z.mod_small by lia. lia. }
  rewrite E, (proj2 (Z.eqb_neq _ _)) by lia. unfold bind, get.
  assert (E2 : u32 (_heap_ptr s + (2 ^ 32 - n)) = _heap_ptr s - n).
  { unfold u32. replace (_ + _) with (_heap_ptr s - n + 1 * 2 ^ 32) by lia.
    rewrite Z.mod_add by lia. apply Z.mod_small. lia. }
  rewrite E2, (proj2 (Z.leb_le _ _)) by lia. done.
Qed.

Lemma inv_base s b bs1 bs2 : heap_inv s (bs1 ++ b :: bs2) -> __alloc_heap_base s = heap_start s.
Proof. intros I. destruct (hi_base _ _ I) as [E|(_ & E & _)]; [done|]. by destruct bs1. Qed.

Lemma inv_link_out s bs1 b bs2 s' :
  heap_inv s (bs1 ++ b :: bs2) ->
  heap_start s' = heap_start s -> heap_end s' = heap_end s -> __alloc_heap_base s' = heap_start s ->
  top (heap_start s) (bs1 ++ bs2) <= _heap_ptr s' <= _heap_ptr s -> _heap_ptr s' mod 16 = 0 ->
  heap_mem s' = link_out bs1 bs2 (heap_mem s) ->
  __alloc_heap_head s' = first_hdr (bs1 ++ bs2) 0 -> __alloc_heap_tail s' = last_hdr (bs1 ++ bs2) 0 ->
  heap_inv s' (bs1 ++ bs2) /\ same_data (bs1 ++ bs2) (heap_mem s) (heap_mem s').
Proof.
  intros I Es Ee Eb Hp Hpm Em Eh Etl.
  pose proof (hi_start _ _ I) as [Hs1 Hs2]. pose proof (hi_end _ _ I). pose proof (hi_ptr _ _ I) as [Hp1 _].
  pose proof (layout_remove _ _ _ _ _ (hi_layout _ _ I)) as L. pose proof (layout_top _ _ _ L).
  split; [constructor|].
  - by rewrite Es.
  - rewrite Es, Ee. lia.
  - by rewrite Ee.
  - left. congruence.
  - rewrite Es. eapply layout_to_top; [exact L|lia].
  - rewrite Em. eapply seg_link_out; [exact (hi_layout _ _ I)|lia|lia|exact (hi_seg _ _ I)].
  - done.
  - done.
  - rewrite Em. eapply same_data_headers; [exact L|done|intros x; apply link_out_out].
Qed.

(** The block [b] was taken out of the list. *)
Definition removed (v : option Z) (bs : list block) (s s' : heap_st) : Prop :=
  heap_inv s' bs /\ same_data bs (heap_mem s) (heap_mem s') /\ alloc_sema s' = v /\
  heap_start s' = heap_start s /\ heap_end s' = heap_end s /\ _heap_ptr s' <= _heap_ptr s.

Lemma freeHead_ok s b bs : heap_inv s (b :: bs) ->
  exists s', freeHead (bk_hdr b) s = Done tt s' /\ removed (alloc_sema s) bs s s'.
Proof.
  intros I. destruct (inv_block s [] b bs I) as [Hok Hat]. pose proof (hi_start _ _ I) as [Hs1 Hs2].
  pose proof (hi_ptr _ _ I) as [Hp1 Hp2]. pose proof (hi_end _ _ I). pose proof (inv_base s b [] bs I) as Eb.
  pose proof (hi_layout _ _ I) as (L1 & _ & L2 & L3 & L4). pose proof (layout_top _ _ _ L4) as L5.
  unfold freeHead. rewrite (bind_Done _ _ _ _ _ (get_size_Done _ _ _ _ Hok Hat)).
  rewrite (bind_Done _ _ _ _ _ (get_ptr_Done _ _ _ _ Hok Hat)). cbv zeta.
  rewrite (bind_Done _ _ _ _ _ (get_next_Done _ _ _ _ Hok Hat)). unfold bind at 1, modify at 1.
  assert (Esz : u32 (bk_size b + u32 (bk_ptr b - bk_hdr b)) = bk_size b + 16).
  { unfold bk_ptr, bk_end in *. rewrite (u32_small (_ - _)), u32_small by (unfold is_u32; lia). lia. }
  rewrite Esz. destruct bs as [|c bs].
  - change (nz (first_hdr [] 0)) with false. cbv iota. unfold bind at 1, modify at 1.
    unfold bk_end in L5. simpl in L5.
    erewrite bind_Done; [|apply sbrk_shrink; simpl; lia]. eexists. split; [reflexivity|].
    destruct (inv_link_out s [] b [] (with_ptr (_heap_ptr s - (bk_size b + 16)) (with_tail 0 (with_head 0 s))) I)
      as [I' D']; simpl; try done; try lia; [Z.div_mod_to_equations; lia|].
    split; [exact I'|]. split; [exact D'|]. simpl. by repeat split; lia.
  - cbn [first_hdr]. destruct (inv_block s [b] c bs I) as [Hcok _].
    rewrite (proj2 (nz_true _)) by (apply Z.eqb_neq, (inv_hdr_nz s [b] c bs I)).
    eexists. split; [apply put_prev_Done; exact Hcok|].
    destruct (inv_link_out s [] b (c :: bs)
      (with_mem (store (bk_hdr c + 8) 0 (heap_mem s)) (with_head (bk_hdr c) s)) I) as [I' D']; simpl; try done.
    + split; [|lia]. pose proof (layout_top _ _ _ (layout_remove _ [] _ _ _ (hi_layout _ _ I))) as L. simpl in L. lia.
    + apply (hi_tail _ _ I).
Qed.

Lemma freeLast_ok s bs1 p b : heap_inv s (bs1 ++ [p; b]) ->
  exists s', freeBlock (bk_hdr b) s = Done tt s' /\ removed (alloc_sema s) (bs1 ++ [p]) s s'.
Proof.
  intros I. destruct (inv_block _ bs1 p [b] I) as [Hpok Hpat].
  assert (I2 : heap_inv s ((bs1 ++ [p]) ++ b :: [])) by (by rewrite <- app_assoc).
  destruct (inv_block _ _ _ _ I2) as [Hok Hat]. rewrite last_hdr_snoc in Hat. cbn [first_hdr] in Hat.
  pose proof (hi_start _ _ I) as [Hs1 Hs2]. pose proof (hi_ptr _ _ I) as [Hp1 Hp2]. pose proof (hi_end _ _ I).
  pose proof (hi_layout _ _ I2) as L. pose proof L as [L1 (Lb1 & _ & Lb2 & _ & Lb3)]%layout_app. simpl in Lb3.
  pose proof (layout_top _ _ _ L1) as T1. pose proof (layout_top_mod _ _ _ L1 Hs2) as T2.
  rewrite top_app in *. simpl top in *.
  unfold freeBlock. rewrite (bind_Done _ _ _ _ _ (get_next_Done _ _ _ _ Hok Hat)).
  rewrite (bind_Done _ _ _ _ _ (get_prev_Done _ _ _ _ Hok Hat)). change (nz 0) with false. cbv iota.
  set (s1 := with_tail (bk_hdr p) s).
  set (s2 := with_ptr (bk_end p) s1).
  assert (E : (modify (with_tail (bk_hdr p)) ;;; heap_top <- alloc_sbrk 0 ;; q <- get_ptr (bk_hdr p) ;;
      sz <- get_size (bk_hdr p) ;;
      alloc_sbrk (u32 (- u32 (heap_top - u32 (q + sz)))) ;;; ret tt) s = Done tt s2).
  { unfold bind at 1, modify at 1. fold s1. rewrite (bind_Done _ _ s1 (_heap_ptr s) s1) by done.
    rewrite (bind_Done _ _ _ _ _ (get_ptr_Done s1 p _ _ Hpok Hpat)).
    rewrite (bind_Done _ _ _ _ _ (get_size_Done s1 p _ _ Hpok Hpat)).
    change (bk_ptr p + bk_size p) with (bk_end p). unfold bk_end in Lb1, Lb3, T1 at 1.
    fold (bk_end p) in *. rewrite (u32_small (bk_end p)), (u32_small (_ - _)) by (unfold bk_end, is_u32 in *; lia).
    erewrite bind_Done; [|apply sbrk_shrink; simpl; unfold bk_end in *; lia].
    unfold ret, s2. do 2 f_equal. simpl. lia. }
  rewrite (bind_Done _ _ _ _ _ E).
  rewrite (bind_Done _ _ _ _ _ (get_prev_Done s2 b _ _ Hok Hat)).
  rewrite (bind_Done _ _ _ _ _ (get_next_Done s2 b _ _ Hok Hat)).
  eexists. split; [apply put_next_Done; exact Hpok|].
  destruct (inv_link_out s (bs1 ++ [p]) b [] (with_mem (store (bk_hdr p + 12) 0 (heap_mem s2)) s2) I2) as [I' D'];
    simpl; try done.
  - apply (inv_base _ _ _ _ I2).
  - rewrite app_nil_r, top_app. simpl. unfold bk_end in *. lia.
  - unfold link_out. by rewrite set_last_next_snoc.
  - rewrite (hi_head _ _ I). rewrite !first_hdr_app. done.
  - rewrite app_nil_r. by rewrite last_hdr_snoc.
  - rewrite app_nil_r in *. split; [exact I'|]. split; [exact D'|]. simpl. repeat split. unfold bk_end in *. lia.
Qed.

Lemma freeMid_ok s bs1 p b c bs2 : heap_inv s (bs1 ++ p :: b :: c :: bs2) ->
  exists s', freeBlock (bk_hdr b) s = Done tt s' /\ removed (alloc_sema s) (bs1 ++ p :: c :: bs2) s s'.
Proof.
  intros I. destruct (inv_block _ bs1 p (b :: c :: bs2) I) as [Hpok _].
  assert (I2 : heap_inv s ((bs1 ++ [p]) ++ b :: c :: bs2)) by (by rewrite <- app_assoc).
  assert (I3 : heap_inv s ((bs1 ++ [p; b]) ++ c :: bs2)) by (by rewrite <- app_assoc).
  destruct (inv_block _ _ _ _ I2) as [Hok Hat]. destruct (inv_block _ _ _ _ I3) as [Hcok _].
  rewrite last_hdr_snoc in Hat. cbn [first_hdr] in Hat.
  unfold freeBlock. rewrite (bind_Done _ _ _ _ _ (get_next_Done _ _ _ _ Hok Hat)).
  rewrite (bind_Done _ _ _ _ _ (get_prev_Done _ _ _ _ Hok Hat)).
  rewrite (proj2 (nz_true _)) by (apply Z.eqb_neq, (inv_hdr_nz _ _ _ _ I3)).
  rewrite (bind_Done _ _ _ _ _ (put_prev_Done s (bk_hdr c) (bk_hdr p) Hcok)).
  set (s1 := with_mem _ s).
  assert (Hat1 : hdr_at (heap_mem s1) b (bk_hdr p) (bk_hdr c)).
  { eapply hdr_at_same; [|exact Hat]. intros x Hx. apply byte_store_out.
    destruct (inv_gap s (bs1 ++ [p]) b c bs2 I2) as (_ & ? & _).
    destruct (layout_elem _ _ _ b (hi_layout _ _ I2)) as (_ & _ & _ & ? & _);
      [apply elem_of_app; right; apply elem_of_cons; by left|]. unfold bk_end in *. lia. }
  rewrite (bind_Done _ _ _ _ _ (get_prev_Done s1 b _ _ Hok Hat1)).
  rewrite (bind_Done _ _ _ _ _ (get_next_Done s1 b _ _ Hok Hat1)).
  eexists. split; [apply put_next_Done; exact Hpok|].
  pose proof (hi_ptr _ _ I) as [Hp1 Hp2].
  destruct (inv_link_out s (bs1 ++ [p]) b (c :: bs2)
    (with_mem (store (bk_hdr p + 12) (bk_hdr c) (heap_mem s1)) s1) I2) as [I' D']; simpl; try done.
  - apply (inv_base _ _ _ _ I2).
  - split; [|lia]. apply (layout_top _ _ _ (layout_remove _ _ _ _ _ (hi_layout _ _ I2))).
  - unfold link_out. by rewrite set_last_next_snoc, last_hdr_snoc.
  - rewrite (hi_head _ _ I), <- app_assoc, !first_hdr_app. done.
  - rewrite (hi_tail _ _ I), <- app_assoc, !last_hdr_app. done.
  - rewrite <- app_assoc in *. split; [exact I'|]. split; [exact D'|]. done.
Qed.

Lemma free_spec s bs ptr : heap_inv s bs -> lockable s ->
  wp (free ptr) s (fun _ s' =>
    (s' = s /\ forall b, b ∈ bs -> bk_ptr b <> ptr) \/
    exists bs1 b bs2, bs = bs1 ++ b :: bs2 /\ bk_ptr b = ptr /\ removed (alloc_sema s) (bs1 ++ bs2) s s').
Proof.
  intros I Hl. unfold free. pose proof (hi_start _ _ I) as [Hs1 _].
  destruct (Z.eqb_spec ptr 0) as [->|Hp0].
  { apply wp_ret. left. split; [done|]. intros b (bs1 & bs2 & ->)%list_elem_of_split.
    destruct (inv_block _ _ _ _ I) as [(_ & ? & _) _]. unfold bk_ptr. lia. }
  set (v := alloc_sema s). set (s1 := with_alock (locked v) s).
  assert (I1 : heap_inv s1 bs) by (by apply inv_alock).
  assert (HU : forall s', alloc_sema s' = locked v -> alloc_unlock s' = Done tt (with_alock v s')).
  { intros s' E. by apply (unlock_Done s' s). }
  assert (Hback : forall bs' s', removed (locked v) bs' s1 s' -> removed v bs' s (with_alock v s')).
  { intros bs' s' (R1 & R2 & R3 & R4). split; [by apply inv_alock|]. done. }
  apply wp_bind. eapply wp_Done; [by apply lock_Done|]. apply wp_bind. eapply wp_Done; [reflexivity|].
  fold v. fold s1. rewrite (hi_head _ _ I1). destruct bs as [|c bs].
  { cbn [first_hdr]. rewrite Z.eqb_refl. eapply wp_Done; [by apply HU|]. left. split; [by destruct s|].
    by intros b ?%elem_of_nil. }
  cbn [first_hdr]. rewrite (inv_hdr_nz s1 [] c bs I1). destruct (inv_block s1 [] c bs I1) as [Hok Hat].
  apply wp_bind. eapply wp_Done; [apply (get_ptr_Done _ _ _ _ Hok Hat)|].
  destruct (Z.eqb_spec ptr (bk_ptr c)) as [->|Hne].
  { destruct (freeHead_ok s1 c bs I1) as (s' & E & R). apply wp_bind. eapply wp_Done; [exact E|].
    eapply wp_Done; [apply HU; apply R|]. right. exists [], c, bs. split; [done|]. split; [done|]. by apply Hback. }
  apply wp_bind. eapply wp_Done; [reflexivity|]. pose proof (inv_fuel _ _ I1) as Hf. simpl in Hf.
  apply wp_bind. destruct (find_loop s1 ptr bs [] c (heap_fuel s1) I1) as [[E Hn]|(bs1 & b & bs2 & E & Hb & E2)];
    [lia| |]; (eapply wp_Done; [first [exact E|exact E2]|]).
  - change (nz 0) with false. apply wp_bind, wp_ret. eapply wp_Done; [by apply HU|].
    left. split; [by destruct s|done].
  - assert (bs1 <> []) as Hne1 by (intros ->; simpl in E; congruence).
    rewrite E in I1. rewrite (proj2 (nz_true _)) by (apply Z.eqb_neq, (inv_hdr_nz _ _ _ _ I1)).
    assert (exists s', freeBlock (bk_hdr b) s1 = Done tt s' /\ removed (locked v) (bs1 ++ bs2) s1 s') as (s' & E3 & R).
    { destruct bs1 as [|p bs1 _] using rev_ind; [done|]. rewrite <- app_assoc in *.
      destruct bs2 as [|d bs2]; [by apply freeLast_ok|by apply freeMid_ok]. }
    apply wp_bind. eapply wp_Done; [exact E3|]. eapply wp_Done; [apply HU; apply R|].
    right. exists bs1, b, bs2. split; [done|]. split; [done|]. by apply Hback.
Qed.

(** ** realloc *)

Lemma inv_resize s bs1 b bs2 sz s' :
  heap_inv s (bs1 ++ b :: bs2) -> let b' := mkBlk (bk_hdr b) sz in
  0 <= sz -> sz mod 16 = 0 -> bk_end b' <= first_hdr bs2 (bk_end b') -> top (bk_end b') bs2 <= _heap_ptr s' ->
  heap_start s' = heap_start s -> heap_end s' = heap_end s -> __alloc_heap_base s' = heap_start s ->
  _heap_ptr s' <= heap_end s -> _heap_ptr s' mod 16 = 0 ->
  heap_mem s' = store (bk_hdr b + 4) sz (heap_mem s) ->
  __alloc_heap_head s' = __alloc_heap_head s -> __alloc_heap_tail s' = __alloc_heap_tail s ->
  heap_inv s' (bs1 ++ b' :: bs2) /\ same_data (bs1 ++ b :: bs2) (heap_mem s) (heap_mem s').
Proof.
  intros I b' Hs0 Hs1 Hb2 Ht Es Ee Eb Hp Hpm Em Eh Etl.
  pose proof (hi_start _ _ I) as [Hst1 Hst2]. pose proof (hi_end _ _ I) as Hend.
  pose proof (hi_layout _ _ I) as L. pose proof L as [L1 (Lb1 & Lb2 & Lb3 & Lb4 & L2)]%layout_app.
  pose proof (layout_top _ _ _ L1) as T1.
  assert (L' : layout (heap_start s) (bs1 ++ b' :: bs2) (_heap_ptr s')).
  { eapply (layout_to_top _ _ (Z.max (_heap_ptr s) (bk_end b'))); [|rewrite top_app; exact Ht].
    eapply layout_insert; [exact (layout_remove _ _ _ _ _ L)|done|done|done|done| |lia].
    destruct bs2; simpl in *; lia. }
  assert (Hx : forall x, ~ in_header (bs1 ++ b :: bs2) x -> byte_at (heap_mem s') x = byte_at (heap_mem s) x).
  { intros x. rewrite in_header_app, in_header_cons, Em. intros Hx. apply byte_store_out. lia. }
  split; [constructor|].
  - by rewrite Es.
  - rewrite Es, Ee. pose proof (layout_top _ _ _ L'). lia.
  - by rewrite Ee.
  - left. congruence.
  - by rewrite Es.
  - rewrite Em. pose proof (hi_seg _ _ I) as S. rewrite !seg_app in *. simpl in *. destruct S as (S1 & S2 & S3).
    split; [|split].
    + eapply seg_same; [|exact S1]. eapply store_same_headers; [exact L| |lia].
      intros c Hc. apply elem_of_app. by left.
    + apply hdr_at_size; [|done]. pose proof (layout_top _ _ _ L'). rewrite top_app in *. simpl in *.
      pose proof (layout_elem _ _ _ b' L'). unfold bk_end, is_u32 in *. simpl in *.
      assert (b' ∈ bs1 ++ b' :: bs2) by (apply elem_of_app; right; apply elem_of_cons; by left).
      intuition lia.
    + eapply seg_same; [|exact S3]. eapply store_same_headers; [exact L| |lia].
      intros c Hc. apply elem_of_app. by right.
  - rewrite Eh, (hi_head _ _ I), !first_hdr_app. done.
  - rewrite Etl, (hi_tail _ _ I), !last_hdr_app. done.
  - eapply same_data_headers; [exact L|done|exact Hx].
Qed.

(** The bytes [memcpy] moves. *)
Lemma copy_bytes_out n : forall d p m x, (x < d \/ d + Z.of_nat n <= x) ->
  byte_at (copy_bytes d p n m) x = byte_at m x.
Proof.
  induction n as [|n IH]; intros d p m x H; [done|]. cbn [copy_bytes]. rewrite IH by lia.
  unfold byte_at. rewrite lookup_insert_ne by lia. done.
Qed.

Lemma copy_bytes_in n : forall d p m k, (d + Z.of_nat n <= p \/ p + Z.of_nat n <= d) -> 0 <= k < Z.of_nat n ->
  byte_at (copy_bytes d p n m) (d + k) = byte_at m (p + k).
Proof.
  induction n as [|n IH]; intros d p m k Hs Hk; [lia|]. cbn [copy_bytes].
  destruct (decide (k = 0)) as [->|Hk0].
  - rewrite copy_bytes_out by lia. unfold byte_at. by rewrite !Z.add_0_r, lookup_insert_eq.
  - replace (d + k) with (d + 1 + (k - 1)) by lia. rewrite IH by lia.
    unfold byte_at. rewrite lookup_insert_ne by lia. do 2 f_equal. lia.
Qed.

(** Blocks are told apart by their pointers. *)
Lemma layout_same_ptr lo bs hi b c : layout lo bs hi -> b ∈ bs -> c ∈ bs -> bk_ptr b = bk_ptr c -> b = c.
Proof.
  intros L (bs1 & bs2 & ->)%list_elem_of_split Hc E.
  destruct (layout_elem _ _ _ b L) as (_ & _ & _ & Hb & _); [apply elem_of_app; right; apply elem_of_cons; by left|].
  pose proof (layout_elem _ _ _ c L Hc) as (_ & _ & _ & Hc' & _).
  apply elem_of_app in Hc as [Hc|[->|Hc]%elem_of_cons]; [|done|];
    (destruct (layout_sep _ _ _ _ _ c L) as [?|?]; [apply elem_of_app; auto| |]); unfold bk_ptr, bk_end in *; lia.
Qed.

(** What [realloc] of block [b] leaves: the block resized or moved, with the
    bytes it had; the other blocks with their bytes. *)
Definition resized (bs1 : list block) (b : block) (bs2 : list block) (size : Z) (s : heap_st) (p : Z) (s' : heap_st) : Prop :=
  exists bs' b', bs' ≡ₚ b' :: bs1 ++ bs2 /\ heap_inv s' bs' /\ p = bk_ptr b' /\ size <= bk_size b' /\
    same_data (bs1 ++ bs2) (heap_mem s) (heap_mem s') /\
    (forall k, 0 <= k < Z.min size (bk_size b) -> byte_at (heap_mem s') (p + k) = byte_at (heap_mem s) (bk_ptr b + k)) /\
    alloc_sema s' = alloc_sema s /\ heap_start s' = heap_start s /\ heap_end s' = heap_end s.

Lemma resized_in_place bs1 b bs2 size s s' sz :
  heap_inv s' (bs1 ++ mkBlk (bk_hdr b) sz :: bs2) -> size <= sz ->
  same_data (bs1 ++ b :: bs2) (heap_mem s) (heap_mem s') ->
  alloc_sema s' = alloc_sema s -> heap_start s' = heap_start s -> heap_end s' = heap_end s ->
  resized bs1 b bs2 size s (bk_ptr b) s'.
Proof.
  intros I Hsz D E1 E2 E3. exists (bs1 ++ mkBlk (bk_hdr b) sz :: bs2), (mkBlk (bk_hdr b) sz).
  split; [by rewrite Permutation_middle|]. split; [done|]. split; [done|]. split; [done|].
  split; [|split; [|done]].
  - intros c Hc. apply D. apply elem_of_app. apply elem_of_app in Hc as [?|?]; [by left|right; apply elem_of_cons; by right].
  - intros k Hk. apply (D b); [apply elem_of_app; right; apply elem_of_cons; by left|]. unfold bk_end, bk_ptr. lia.
Qed.

(** Writing inside one block keeps the list and the other blocks. *)
Lemma inv_write s bs b m : heap_inv s bs -> b ∈ bs ->
  (forall x, x < bk_ptr b \/ bk_end b <= x -> byte_at m x = byte_at (heap_mem s) x) ->
  heap_inv (with_mem m s) bs /\
  (forall c, c ∈ bs -> c <> b -> forall x, bk_ptr c <= x < bk_end c -> byte_at m x = byte_at (heap_mem s) x).
Proof.
  intros I Hb Hout. pose proof (hi_layout _ _ I) as L.
  assert (Hsep : forall c, c ∈ bs -> c <> b -> bk_end c <= bk_hdr b \/ bk_end b <= bk_hdr c).
  { intros c Hc Hcn. pose proof Hb as (l1 & l2 & ->)%list_elem_of_split.
    eapply layout_sep; [exact L|]. rewrite elem_of_app in *. rewrite elem_of_cons in Hc. naive_solver. }
  split.
  - destruct I as [X1 X2 X3 X4 X5 X6 X7 X8]. constructor; try done. simpl. eapply seg_same; [|exact X6].
    apply same_headers_out. intros x (c & Hc & Hx). apply Hout.
    destruct (decide (bk_hdr c = bk_hdr b)) as [E|E]; [unfold bk_ptr; lia|].
    pose proof (layout_elem _ _ _ _ L Hc) as (_ & _ & _ & ? & _).
    destruct (Hsep c Hc) as [?|?]; [congruence| |]; unfold bk_end, bk_ptr in *; lia.
  - intros c Hc Hcn x Hx. apply Hout. destruct (Hsep c Hc Hcn) as [?|?]; unfold bk_end, bk_ptr in *; lia.
Qed.

Lemma memcpy_blocks s bs nb b : heap_inv s bs -> nb ∈ bs -> b ∈ bs -> nb <> b -> bk_size b <= bk_size nb ->
  exists m, memcpy (bk_ptr nb) (bk_ptr b) (bk_size b) s = Done tt (with_mem m s) /\
    heap_inv (with_mem m s) bs /\
    (forall c, c ∈ bs -> c <> nb -> forall x, bk_ptr c <= x < bk_end c -> byte_at m x = byte_at (heap_mem s) x) /\
    (forall k, 0 <= k < bk_size b -> byte_at m (bk_ptr nb + k) = byte_at (heap_mem s) (bk_ptr b + k)).
Proof.
  intros I Hn Hb Hne Hsz. pose proof (hi_layout _ _ I) as L. pose proof (hi_ptr _ _ I) as [Hp _].
  pose proof (layout_elem _ _ _ _ L Hb) as (Hb1 & Hb2 & _ & Hb3 & _).
  pose proof (layout_elem _ _ _ _ L Hn) as (Hn1 & Hn2 & _ & Hn3 & _).
  set (m := copy_bytes (bk_ptr nb) (bk_ptr b) (Z.to_nat (bk_size b)) (heap_mem s)).
  destruct (inv_write s bs nb m I Hn) as [I' D'].
  { intros x Hx. apply copy_bytes_out. unfold bk_end, bk_ptr in *. lia. }
  exists m. split; [|split; [done|split; [done|]]].
  - unfold memcpy, region_ok. rewrite !(proj2 (Z.leb_le _ _)) by (unfold bk_end, bk_ptr in *; lia). done.
  - intros k Hk. apply copy_bytes_in; [|lia]. pose proof Hn as (l1 & l2 & ->)%list_elem_of_split.
    destruct (layout_sep _ _ _ _ _ b L) as [?|?]; [|unfold bk_end, bk_ptr in *; lia..].
    rewrite elem_of_app in *. rewrite elem_of_cons in Hb. naive_solver.
Qed.

(** NULL: the list and the data are as they were; the lock is [v]. *)
Definition refused (v : option Z) (bs : list block) (s : heap_st) (p : Z) (s' : heap_st) : Prop :=
  p = 0 /\ heap_inv s' bs /\ heap_mem s' = heap_mem s /\ alloc_sema s' = v /\
  heap_start s' = heap_start s /\ heap_end s' = heap_end s.

Lemma realloc_move s bs1 b bs2 size : heap_inv s (bs1 ++ b :: bs2) -> lockable s ->
  bk_size b <= size -> heap_end s + size + 48 <= 2 ^ 32 ->
  wp (new_ptr <- malloc size ;;
      if new_ptr =? 0 then ret 0
      else old <- get_size (bk_hdr b) ;; memcpy new_ptr (bk_ptr b) old ;;; free (bk_ptr b) ;;; ret new_ptr) s
    (fun p s' => refused (alloc_sema s) (bs1 ++ b :: bs2) s p s' \/ resized bs1 b bs2 size s p s').
Proof.
  intros I Hl Hsz Hend.
  assert (Hb : b ∈ bs1 ++ b :: bs2) by (apply elem_of_app; right; apply elem_of_cons; by left).
  destruct (layout_elem _ _ _ b (hi_layout _ _ I) Hb) as (_ & _ & _ & Hb0 & _).
  apply wp_bind. eapply wp_mono; [apply (malloc_spec s _ size I Hl); lia|].
  intros p s1 [(-> & I1 & Em & _ & Es & Ee & _ & _ & Ev)|(ba & nb & bb & Ebs & I1 & -> & Hnsz & D1 & Ev & Es & Ee)].
  { apply wp_ret. left. split; [done|]. split; [done|]. split; [done|]. split; [|done]. by destruct bs1. }
  destruct (block_size_bounds size) as [_ HB]; [lia|pose proof (hi_start _ _ I); pose proof (hi_ptr _ _ I); lia|].
  destruct (inv_block _ _ _ _ I1) as [(_ & Hnb1 & _) _]. pose proof (hi_start _ _ I1) as [Hst _].
  rewrite (proj2 (Z.eqb_neq _ _)) by (unfold bk_ptr; lia).
  assert (Hb1 : b ∈ ba ++ nb :: bb).
  { rewrite Ebs in Hb. rewrite elem_of_app in *. rewrite elem_of_cons. tauto. }
  assert (Hn1 : nb ∈ ba ++ nb :: bb) by (apply elem_of_app; right; apply elem_of_cons; by left).
  assert (Hsep : forall c, c ∈ bs1 ++ b :: bs2 -> c <> nb).
  { intros c Hc ->. rewrite Ebs in Hc.
    pose proof (layout_sep _ _ _ _ _ nb (hi_layout _ _ I1) Hc). unfold bk_end in *. lia. }
  pose proof Hb1 as (l1 & l2 & El)%list_elem_of_split. pose proof I1 as I1b. rewrite El in I1b.
  destruct (inv_block _ _ _ _ I1b) as [Hok Hat]. apply wp_bind.
  eapply wp_Done; [apply (get_size_Done _ _ _ _ Hok Hat)|].
  destruct (memcpy_blocks s1 _ nb b I1 Hn1 Hb1) as (m & E & I2 & Dc & Db); [by intros <-; apply (Hsep nb)|lia|].
  apply wp_bind. eapply wp_Done; [exact E|]. apply wp_bind.
  eapply wp_mono; [eapply free_spec; [exact I2|]; unfold lockable; simpl; rewrite Ev; exact Hl|].
  intros [] s3 [[_ Hno]|(x1 & c & x2 & Ex & Hc & (I3 & D3 & Ev3 & Es3 & Ee3 & _))].
  { exfalso. by apply (Hno b). }
  assert (c = b) as ->.
  { eapply (layout_same_ptr _ _ _ c b (hi_layout _ _ I1)); [rewrite Ex; apply elem_of_app; right; apply elem_of_cons; by left|done|done]. }
  apply wp_ret. right. exists (x1 ++ x2), nb.
  assert (HP : x1 ++ x2 ≡ₚ nb :: bs1 ++ bs2).
  { apply (Permutation_cons_inv (a := b)). rewrite Permutation_middle, <- Ex, <- Permutation_middle, <- Ebs,
      <- (Permutation_middle bs1). constructor. }
  assert (Hin : forall d, d ∈ bs1 ++ bs2 -> d ∈ x1 ++ x2) by (intros d Hd; rewrite HP; apply elem_of_cons; by right).
  split; [done|]. split; [done|]. split; [done|]. split; [lia|].
  split; [|split; [|simpl in *; split; [congruence|split; congruence]]].
  - intros d Hd x Hx. rewrite (D3 d (Hin d Hd) x Hx). simpl.
    assert (Hd' : d ∈ bs1 ++ b :: bs2) by (rewrite elem_of_app, elem_of_cons; rewrite elem_of_app in Hd; tauto).
    rewrite (Dc d); [by apply (D1 d)| |by apply Hsep|done].
    rewrite Ebs in Hd'. rewrite elem_of_app in *. rewrite elem_of_cons. tauto.
  - intros k Hk. assert (nb ∈ x1 ++ x2) as Hnx by (rewrite HP; apply elem_of_cons; by left).
    rewrite (D3 nb Hnx) by (unfold bk_end, bk_ptr; lia). simpl. rewrite Db by lia.
    apply (D1 b Hb). unfold bk_end, bk_ptr. lia.
Qed.

Lemma align16 size : 0 <= size -> size + 16 < 2 ^ 32 ->
  (if nz (Z.land size (DEFAULT_ALIGNMENT - 1)) then ALIGN size DEFAULT_ALIGNMENT else size)
  = 16 * ((size + 15) / 16).
Proof.
  intros H0 H1. change (DEFAULT_ALIGNMENT - 1) with 15. rewrite land15. destruct (nz _) eqn:E.
  - unfold DEFAULT_ALIGNMENT. change 16 with (2 ^ 4) at 1. rewrite ALIGN_eq by lia. simpl (2 ^ 4). by do 2 f_equal.
  - apply nz_false in E. Z.div_mod_to_equations. lia.
Qed.
