(* ===== verification/AllocMove.v ===== *)
(** * AllocMove: memalign, calloc and realloc

    [memalign] asks [malloc] for more than it needs and moves the header up to
    the aligned place; [calloc] clears the block it got; [realloc] changes the
    size in place where it can and moves the bytes where it cannot. *)

From stdpp Require Import base numbers list gmap.
From Stdlib Require Import ZArith Lia.
From S2P Require Import Prelude Alloc AllocInv AllocSpec.

Open Scope Z_scope.
Open Scope c_scope.

(** ** memalign *)

(** The place a pointer is moved up to. *)
Lemma ALIGN_up x k : 5 <= k < 32 -> 0 <= x -> x mod 16 = 0 -> x mod 2 ^ k <> 0 -> x + 2 ^ k < 2 ^ 32 ->
  ALIGN x (2 ^ k) mod 2 ^ k = 0 /\ ALIGN x (2 ^ k) mod 16 = 0 /\ x + 16 <= ALIGN x (2 ^ k) <= x + 2 ^ k - 16.
Proof.
  intros Hk Hx H16 Hne Hb. rewrite ALIGN_eq by lia.
  assert (Hp : 2 ^ k = 16 * 2 ^ (k - 4)) by (rewrite <- (Z.pow_add_r 2 4) by lia; f_equal; lia).
  assert (0 < 2 ^ (k - 4)) by (apply Z.pow_pos_nonneg; lia).
  set (a := 2 ^ k) in *. set (c := 2 ^ (k - 4)) in *. set (q := (x + (a - 1)) / a).
  pose proof (Z.div_mod (x + (a - 1)) a ltac:(lia)) as D. fold q in D.
  pose proof (Z.mod_pos_bound (x + (a - 1)) a ltac:(lia)) as R.
  split; [rewrite Z.mul_comm; apply Z.mod_mul; lia|].
  assert (M16 : (a * q) mod 16 = 0).
  { rewrite Hp. replace (16 * c * q) with (c * q * 16) by ring. apply Z.mod_mul. lia. }
  split; [done|]. assert (a * q <> x).
  { intros E. apply Hne. rewrite <- E, Z.mul_comm. apply Z.mod_mul. lia. }
  clearbody q c a. Z.div_mod_to_equations. nia.
Qed.

Lemma set_last_next_comm bs1 bs2 v w m lo hi : layout lo (bs1 ++ bs2) hi ->
  set_first_prev bs2 v (set_last_next bs1 w m) = set_last_next bs1 w (set_first_prev bs2 v m).
Proof.
  intros L. destruct bs2 as [|c bs2]; [done|]. destruct bs1 as [|b bs1 _] using rev_ind; [done|].
  rewrite !set_last_next_snoc. simpl. apply store_comm. rewrite <- app_assoc in L.
  pose proof L as [_ (_ & _ & Hb & _ & Hc & _)]%layout_app. unfold bk_end in Hc. lia.
Qed.

Lemma set_last_next_store bs1 v a w m : ~ in_header bs1 a -> ~ in_header bs1 (a + 3) ->
  store a w (set_last_next bs1 v m) = set_last_next bs1 v (store a w m).
Proof.
  destruct bs1 as [|b bs1 _] using rev_ind; [done|]. rewrite !set_last_next_snoc, !in_header_app, !in_header_cons.
  intros H1 H2. apply store_comm. lia.
Qed.

Lemma set_first_prev_store bs2 v a w m : ~ in_header bs2 a -> ~ in_header bs2 (a + 3) ->
  store a w (set_first_prev bs2 v m) = set_first_prev bs2 v (store a w m).
Proof.
  destruct bs2 as [|b bs2]; [done|]. rewrite !in_header_cons. intros H1 H2. simpl. apply store_comm. lia.
Qed.

(** [cur_mem->prev->next = cur_mem] and [cur_mem->next->prev = cur_mem]. *)
Lemma put_last_next s bs2 bs1 v : heap_inv s (bs1 ++ bs2) ->
  forall s', heap_start s' = heap_start s -> heap_end s' = heap_end s ->
  when (nz (last_hdr bs1 0)) (put_next (last_hdr bs1 0) v) s' =
  Done tt (with_mem (set_last_next bs1 v (heap_mem s')) s').
Proof.
  intros I s' E1 E2. destruct bs1 as [|b bs1 _] using rev_ind; [by destruct s'|].
  rewrite last_hdr_snoc, set_last_next_snoc. rewrite <- app_assoc in I. destruct (inv_block _ _ _ _ I) as [Hok _].
  rewrite (proj2 (nz_true _)) by (apply Z.eqb_neq, (inv_hdr_nz _ _ _ _ I)).
  apply put_next_Done. unfold hdr_ok in *. by rewrite E1, E2.
Qed.

Lemma put_first_prev s bs1 bs2 v : heap_inv s (bs1 ++ bs2) ->
  forall s', heap_start s' = heap_start s -> heap_end s' = heap_end s ->
  when (nz (first_hdr bs2 0)) (put_prev (first_hdr bs2 0) v) s' =
  Done tt (with_mem (set_first_prev bs2 v (heap_mem s')) s').
Proof.
  intros I s' E1 E2. destruct bs2 as [|b bs2]; [by destruct s'|]. cbn [first_hdr set_first_prev].
  destruct (inv_block _ _ _ _ I) as [Hok _].
  rewrite (proj2 (nz_true _)) by (apply Z.eqb_neq, (inv_hdr_nz _ _ _ _ I)).
  apply put_prev_Done. unfold hdr_ok in *. by rewrite E1, E2.
Qed.

(** ** The block after the move *)

Lemma layout_replace lo bs1 b b' bs2 hi : layout lo (bs1 ++ b :: bs2) hi ->
  bk_hdr b <= bk_hdr b' -> bk_end b' <= bk_end b -> bk_hdr b' mod 16 = 0 -> 0 <= bk_size b' ->
  bk_size b' mod 16 = 0 -> layout lo (bs1 ++ b' :: bs2) hi.
Proof.
  rewrite !layout_app. simpl. intros (H1 & H2 & _ & _ & _ & H3) ?????. do 5 (split; [done || lia|]).
  by eapply layout_weaken.
Qed.

Section Move.
Context (s : heap_st) (bs1 : list block) (b b' : block) (bs2 : list block).
Context (I : heap_inv s (bs1 ++ b :: bs2)).
Context (Hup : bk_ptr b <= bk_hdr b') (Hend : bk_end b' <= bk_end b) (H16 : bk_hdr b' mod 16 = 0).
Context (Hsz : 0 <= bk_size b' /\ bk_size b' mod 16 = 0).

Definition moved_mem : gmap Z Z :=
  link_in bs1 b' bs2 (store (bk_hdr b + 4) (bk_size b') (heap_mem s)).

Lemma moved_layout : layout (heap_start s) (bs1 ++ b' :: bs2) (_heap_ptr s).
Proof.
  eapply layout_replace; [exact (hi_layout _ _ I)|..]; try apply Hsz; try done. unfold bk_ptr in Hup. lia.
Qed.

(** The links of the other blocks, and their bytes. *)
Lemma moved_seg : seg moved_mem 0 (bs1 ++ b' :: bs2) 0.
Proof.
  pose proof (hi_start _ _ I). pose proof (hi_ptr _ _ I). pose proof (hi_end _ _ I).
  eapply seg_link_in; [exact moved_layout|lia|lia|].
  pose proof (hi_seg _ _ I) as S. rewrite seg_app in S. destruct S as [S1 [_ S2]].
  eexists _, _. split; (eapply seg_same; [|eassumption]);
    (eapply store_same_headers; [exact (hi_layout _ _ I)| |lia]); intros c Hc; apply elem_of_app; auto.
Qed.

Lemma moved_data : same_data (bs1 ++ bs2) (heap_mem s) moved_mem.
Proof.
  intros c Hc x Hx. unfold moved_mem. rewrite link_in_out.
  - apply byte_store_out. pose proof (layout_sep _ _ _ _ _ c (hi_layout _ _ I) Hc).
    destruct (layout_elem _ _ _ b (hi_layout _ _ I)) as (_ & _ & _ & ? & _);
      [apply elem_of_app; right; apply elem_of_cons; by left|]. unfold bk_end, bk_ptr in *. lia.
  - eapply data_not_header; [exact moved_layout| |exact Hx].
    rewrite elem_of_app in *. rewrite elem_of_cons. tauto.
Qed.

Lemma inv_move s' :
  heap_start s' = heap_start s -> heap_end s' = heap_end s -> __alloc_heap_base s' = __alloc_heap_base s ->
  _heap_ptr s' = _heap_ptr s -> heap_mem s' = moved_mem ->
  __alloc_heap_head s' = first_hdr (bs1 ++ [b']) 0 -> __alloc_heap_tail s' = last_hdr bs2 (bk_hdr b') ->
  heap_inv s' (bs1 ++ b' :: bs2).
Proof.
  intros E1 E2 E3 E4 E5 E6 E7. pose proof moved_layout. pose proof moved_seg.
  constructor; rewrite ?E1, ?E2, ?E3, ?E4, ?E5, ?E6, ?E7; try apply I; try done.
  - left. apply (inv_base _ _ _ _ I).
  - by rewrite !first_hdr_app.
  - by rewrite last_hdr_app.
Qed.
End Move.

Lemma with_mem_mem m m' s : with_mem m (with_mem m' s) = with_mem m s.
Proof. done. Qed.

(** The stores of [memalign], in the order the code makes them. *)
Lemma move_stores s bs1 b b' bs2 m : heap_inv s (bs1 ++ b :: bs2) ->
  bk_ptr b <= bk_hdr b' -> bk_end b' <= bk_end b -> 0 <= bk_size b' ->
  store (bk_hdr b') (bk_ptr b') (set_first_prev bs2 (bk_hdr b') (set_last_next bs1 (bk_hdr b')
    (hdr_store (bk_hdr b') (bk_ptr b) (bk_size b') (last_hdr bs1 0) (first_hdr bs2 0) m)))
  = link_in bs1 b' bs2 m.
Proof.
  intros I H1 H2 H3. pose proof (hi_layout _ _ I) as L.
  assert (Hd : forall x, bk_hdr b' <= x < bk_hdr b' + 16 -> ~ in_header (bs1 ++ bs2) x).
  { intros x Hx Hh. apply (data_not_header _ _ _ b x L); [apply elem_of_app; right; apply elem_of_cons; by left| |].
    - unfold bk_end, bk_ptr in *. lia.
    - rewrite in_header_app in *. rewrite in_header_cons. tauto. }
  rewrite (set_last_next_comm _ _ _ _ _ (heap_start s) (_heap_ptr s)) by exact (layout_remove _ _ _ _ _ L).
  assert (Ha : forall x, bk_hdr b' <= x < bk_hdr b' + 16 -> ~ in_header bs1 x /\ ~ in_header bs2 x).
  { intros x Hx. specialize (Hd x Hx). rewrite in_header_app in Hd. tauto. }
  rewrite set_last_next_store by (apply Ha; lia). rewrite set_first_prev_store by (apply Ha; lia).
  by rewrite hdr_store_ptr.
Qed.

Lemma ld_hdr_store s h p sz pv nx m : hdr_ok s h -> is_u32 p -> is_u32 sz -> is_u32 pv -> is_u32 nx ->
  heap_mem s = hdr_store h p sz pv nx m -> get_prev h s = Done pv s.
Proof.
  intros Hok H1 H2 H3 H4 E. unfold get_prev. rewrite ld_hdr by (done || lia). rewrite E.
  destruct (hdr_store_load h p sz pv nx m H1 H2 H3 H4) as (_ & _ & -> & _). done.
Qed.

Lemma ld_next_kept s bs1 b b' bs2 h p sz pv nx m v : heap_inv s (bs1 ++ b :: bs2) ->
  bk_ptr b <= bk_hdr b' -> bk_hdr b' + 16 <= bk_end b -> h = bk_hdr b' ->
  hdr_ok s h -> is_u32 p -> is_u32 sz -> is_u32 pv -> is_u32 nx ->
  load (set_last_next bs1 v (hdr_store h p sz pv nx m)) (h + 12) = nx.
Proof.
  intros I H1 H2 -> Hok U1 U2 U3 U4.
  destruct (hdr_store_load (bk_hdr b') p sz pv nx m U1 U2 U3 U4) as (_ & _ & _ & E). rewrite <- E at 2.
  apply load_same. intros x Hx. apply set_last_next_out. intros Hh.
  apply (data_not_header _ _ _ b x (hi_layout _ _ I)); [apply elem_of_app; right; apply elem_of_cons; by left| |].
  - unfold bk_ptr in *. lia.
  - rewrite in_header_app. by left.
Qed.

(** [b] is the first block of the list exactly when the head names it, and
    the last one when the tail does. *)
Lemma head_is s bs1 b bs2 : heap_inv s (bs1 ++ b :: bs2) ->
  (__alloc_heap_head s =? bk_hdr b) = match bs1 with [] => true | _ => false end.
Proof.
  intros I. rewrite (hi_head _ _ I). destruct bs1 as [|c bs1]; [apply Z.eqb_refl|]. apply Z.eqb_neq. simpl. intros E.
  assert (c = b) as ->; [|pose proof (layout_sep _ _ _ _ _ b (hi_layout _ _ I)) as H].
  { eapply layout_same_ptr; [exact (hi_layout _ _ I)|..|unfold bk_ptr; congruence].
    - apply list_elem_of_here.
    - apply elem_of_app. right. apply list_elem_of_here. }
  destruct (layout_elem _ _ _ b (hi_layout _ _ I)) as (_ & _ & _ & ? & _); [apply list_elem_of_here|].
  unfold bk_end in H. destruct H; [apply list_elem_of_here|lia|lia].
Qed.

Lemma tail_is s bs1 b bs2 : heap_inv s (bs1 ++ b :: bs2) ->
  (__alloc_heap_tail s =? bk_hdr b) = match bs2 with [] => true | _ => false end.
Proof.
  intros I. rewrite (hi_tail _ _ I), last_hdr_app. destruct bs2 as [|c bs2 _] using rev_ind; [apply Z.eqb_refl|].
  simpl. rewrite last_hdr_snoc. replace (match bs2 ++ [c] with [] => true | _ => false end) with false by (by destruct bs2).
  apply Z.eqb_neq. intros E.
  destruct (layout_sep _ _ _ _ _ c (hi_layout _ _ I)) as [H|H]; [rewrite !elem_of_app; right; right; apply list_elem_of_here|..].
  all: destruct (layout_elem _ _ _ c (hi_layout _ _ I)) as (_ & _ & _ & ? & _);
    [rewrite !elem_of_app, elem_of_cons, elem_of_app; do 3 right; apply list_elem_of_here|].
  all: destruct (layout_elem _ _ _ b (hi_layout _ _ I)) as (_ & _ & _ & ? & _);
    [rewrite elem_of_app; right; apply list_elem_of_here|]; unfold bk_end in *; lia.
Qed.

Lemma put_ptr_Done s h v : hdr_ok s h -> put_ptr h v s = Done tt (with_mem (store h v (heap_mem s)) s).
Proof. intros H. unfold put_ptr. rewrite <- (Z.add_0_r h). by apply stw_hdr. Qed.

Lemma heap_ext s m ps pe p ba hd tl v : heap_mem s = m -> heap_start s = ps -> heap_end s = pe -> _heap_ptr s = p ->
  __alloc_heap_base s = ba -> __alloc_heap_head s = hd -> __alloc_heap_tail s = tl -> alloc_sema s = v ->
  s = mkHeap m ps pe p ba hd tl v.
Proof. intros <- <- <- <- <- <- <- <-. by destruct s. Qed.

Lemma bk_ptr_mk x n : bk_ptr (mkBlk (x - 16) n) = x.
Proof. unfold bk_ptr. simpl. lia. Qed.

(** The place the header moves to lies in the block. *)
Lemma move_target s bs1 b bs2 k : heap_inv s (bs1 ++ b :: bs2) -> 5 <= k < 32 ->
  2 ^ k <= bk_size b -> heap_end s + 2 ^ k < 2 ^ 32 -> bk_ptr b mod 2 ^ k <> 0 ->
  let b' := mkBlk (ALIGN (bk_ptr b) (2 ^ k) - 16) (bk_size b - 2 ^ k) in
  (bk_ptr b <= bk_hdr b' /\ bk_end b' <= bk_end b /\ bk_hdr b' mod 16 = 0) /\
  (0 <= bk_size b' /\ bk_size b' mod 16 = 0) /\ hdr_ok s (bk_hdr b') /\ bk_ptr b' mod 2 ^ k = 0.
Proof.
  intros I Hk Hsz Hend Hal b'. destruct (inv_block _ _ _ _ I) as [(Hh1 & Hh2 & Hh3) _].
  destruct (layout_elem _ _ _ b (hi_layout _ _ I)) as (_ & Lb2 & _ & _ & Lb5);
    [apply elem_of_app; right; apply list_elem_of_here|].
  pose proof (hi_start _ _ I) as [Hs1 _]. pose proof (hi_ptr _ _ I) as [Hp1 _]. pose proof (hi_end _ _ I) as He.
  assert (Hpm : bk_ptr b mod 16 = 0) by (unfold bk_ptr; Z.div_mod_to_equations; lia).
  destruct (ALIGN_up (bk_ptr b) k) as (A1 & A2 & A3); try done; try (unfold bk_ptr, bk_end in *; lia).
  assert (P16 : 2 ^ k mod 16 = 0).
  { replace (2 ^ k) with (2 ^ (k - 4) * 16); [by apply Z.mod_mul|]. rewrite <- (Z.pow_add_r 2 _ 4) by lia. f_equal. lia. }
  assert (Hip : bk_ptr b' = ALIGN (bk_ptr b) (2 ^ k)) by apply bk_ptr_mk. rewrite Hip.
  unfold hdr_ok, bk_end, bk_ptr, b' in *. simpl in *. set (al := ALIGN _ _) in *. clearbody al.
  split; [|split; [|split; [|done]]]; clear A1 Hal; set (a := 2 ^ k) in *; clearbody a; repeat split;
    lia || (Z.div_mod_to_equations; lia).
Qed.

Lemma inv_u32 s bs1 b bs2 : heap_inv s (bs1 ++ b :: bs2) ->
  is_u32 (last_hdr bs1 0) /\ is_u32 (first_hdr bs2 0) /\ is_u32 (bk_ptr b) /\ is_u32 (bk_end b).
Proof.
  intros I. pose proof (hi_start _ _ I) as [Hs1 _]. pose proof (hi_ptr _ _ I) as [Hp1 _]. pose proof (hi_end _ _ I) as He.
  pose proof (hi_layout _ _ I) as [L1 (Hb & _ & Hs & _ & L2)]%layout_app. pose proof (layout_top _ _ _ L1).
  pose proof (layout_top _ _ _ L2).
  destruct (layout_u32_hdr (heap_start s) bs1 (top (heap_start s) bs1)) as [_ U1];
    [lia|unfold bk_end in *; lia|done|].
  destruct (layout_u32_hdr (bk_end b) bs2 (_heap_ptr s)) as [U2 _]; [unfold bk_end; lia|lia|done|].
  unfold is_u32, bk_end, bk_ptr in *. repeat split; lia || done.
Qed.

Lemma move_ends s bs1 b bs2 b' : heap_inv s (bs1 ++ b :: bs2) -> forall s', __alloc_heap_head s' = __alloc_heap_head s ->
  __alloc_heap_tail s' = __alloc_heap_tail s -> forall A (k : M heap_st A),
  (t <- get ;; when (__alloc_heap_head t =? bk_hdr b) (modify (with_head (bk_hdr b'))) ;;;
   when (__alloc_heap_tail t =? bk_hdr b) (modify (with_tail (bk_hdr b'))) ;;; k) s' =
  k (with_tail (last_hdr bs2 (bk_hdr b')) (with_head (first_hdr (bs1 ++ [b']) 0) s')).
Proof.
  intros I s' Eh Et A k. rewrite (bind_Done get _ s' s' s' eq_refl). cbv beta. rewrite Eh, Et, (head_is _ _ _ _ I), (tail_is _ _ _ _ I).
  pose proof (hi_head _ _ I) as Hh. pose proof (hi_tail _ _ I) as Htl. rewrite last_hdr_app in Htl.
  rewrite first_hdr_app in *. cbn [first_hdr last_hdr] in *. rewrite <- Et in Htl. rewrite <- Eh in Hh. clear I Eh Et.
  unfold when, bind, modify, ret, with_tail, with_head. destruct s'. simpl in *.
  destruct bs1 as [|c bs1], bs2 as [|d bs2]; simpl in *; congruence.
Qed.

(** What [memalign] does to the block [malloc] gave it. *)
Lemma memalignFix_ok s bs1 b bs2 k : heap_inv s (bs1 ++ b :: bs2) -> lockable s -> 5 <= k < 32 ->
  2 ^ k <= bk_size b -> heap_end s + 2 ^ k < 2 ^ 32 -> bk_ptr b mod 2 ^ k <> 0 ->
  let b' := mkBlk (ALIGN (bk_ptr b) (2 ^ k) - 16) (bk_size b - 2 ^ k) in
  memalignFix (2 ^ k) (bk_ptr b) s =
  Done (bk_ptr b') (mkHeap (moved_mem s bs1 b b' bs2) (heap_start s) (heap_end s) (_heap_ptr s) (__alloc_heap_base s)
    (first_hdr (bs1 ++ [b']) 0) (last_hdr bs2 (bk_hdr b')) (alloc_sema s)).
Proof.
  intros I Hl Hk Hsz Hend Hal b'. destruct (inv_block _ _ _ _ I) as [Hok Hat].
  destruct (move_target s bs1 b bs2 k) as ((T1 & T2 & T3) & (T4 & T5) & Hok' & T6); try done. fold b' in T1, T2, T3, T4, T5, T6, Hok'.
  destruct (inv_u32 _ _ _ _ I) as (U1 & U2 & U3 & U4). pose proof (hi_start _ _ I) as [Hs1 _].
  assert (U5 : is_u32 (bk_size b')) by (unfold is_u32, bk_end, bk_ptr, hdr_ok in *; lia).
  assert (U6 : is_u32 (bk_hdr b')) by (unfold is_u32, bk_end, bk_ptr, hdr_ok in *; lia).
  assert (Hip : ALIGN (bk_ptr b) (2 ^ k) = bk_ptr b') by (symmetry; apply bk_ptr_mk).
  assert (Hh : forall c, is_u32 (bk_hdr c) -> u32 (bk_ptr c - header_size) = bk_hdr c).
  { intros c Hc. unfold bk_ptr, header_size. rewrite <- (u32_small (bk_hdr c) Hc) at 2. f_equal. lia. }
  unfold memalignFix. rewrite (bind_Done _ _ _ _ _ (lock_Done _ Hl)). cbv zeta.
  set (s1 := with_alock _ s). rewrite Hh by (unfold is_u32, bk_ptr, hdr_ok in *; lia).
  rewrite (bind_Done _ _ _ _ _ (get_size_Done s1 b _ _ Hok Hat)).
  rewrite (u32_small (bk_size b - _)) by exact U5. change (bk_size b - 2 ^ k) with (bk_size b').
  rewrite (bind_Done _ _ _ _ _ (put_size_Done s1 _ _ Hok)). set (s2 := with_mem _ s1).
  pose proof (hdr_at_size _ _ _ _ _ U5 Hat : hdr_at (heap_mem s2) (mkBlk (bk_hdr b) (bk_size b')) _ _) as Hat2.
  rewrite (bind_Done _ _ _ _ _ (get_ptr_Done s2 (mkBlk (bk_hdr b) _) _ _ Hok Hat2)).
  rewrite (bind_Done _ _ _ _ _ (get_size_Done s2 (mkBlk (bk_hdr b) _) _ _ Hok Hat2)).
  rewrite (bind_Done _ _ _ _ _ (get_prev_Done s2 (mkBlk (bk_hdr b) _) _ _ Hok Hat2)).
  rewrite (bind_Done _ _ _ _ _ (get_next_Done s2 (mkBlk (bk_hdr b) _) _ _ Hok Hat2)).
  rewrite Hip, Hh by done.
  rewrite (bind_Done _ _ _ _ _ (put_header_Done s2 _ _ _ _ _ Hok')). set (s3 := with_mem _ s2).
  rewrite (bind_Done _ _ _ _ _ (ld_hdr_store s3 (bk_hdr b') _ _ _ _ _ Hok' U3 U5 U1 U2 eq_refl)).
  rewrite (bind_Done _ _ _ _ _ (put_last_next s (b :: bs2) bs1 (bk_hdr b') I s3 eq_refl eq_refl)).
  set (s4 := with_mem _ s3).
  assert (En : get_next (bk_hdr b') s4 = Done (first_hdr bs2 0) s4).
  { unfold get_next. rewrite ld_hdr by (done || lia). f_equal.
    apply (ld_next_kept s bs1 b b' bs2); try done. unfold bk_end in *. lia. }
  rewrite (bind_Done _ _ _ _ _ En).
  assert (I' : heap_inv s ((bs1 ++ [b]) ++ bs2)) by (by rewrite <- app_assoc).
  rewrite (bind_Done _ _ _ _ _ (put_first_prev s (bs1 ++ [b]) bs2 (bk_hdr b') I' s4 eq_refl eq_refl)).
  set (s5 := with_mem _ s4). rewrite (move_ends _ _ _ _ b' I s5 eq_refl eq_refl).
  set (s6 := with_tail _ _). rewrite (bind_Done _ _ _ _ _ (put_ptr_Done s6 _ (bk_ptr b') Hok')).
  set (s7 := with_mem _ s6). rewrite (bind_Done _ _ _ _ _ (unlock_Done s7 s Hl eq_refl)).
  unfold ret. f_equal. apply heap_ext; try reflexivity. apply (move_stores s bs1 b b' bs2); done.
Qed.

(** [memalign] gave out block [b]: aligned, as large as was asked for, the
    other blocks and their bytes kept. *)
Definition allotted (bs : list block) (align size : Z) (s : heap_st) (p : Z) (s' : heap_st) : Prop :=
  exists bs1 b bs2, bs = bs1 ++ bs2 /\ heap_inv s' (bs1 ++ b :: bs2) /\ p = bk_ptr b /\
    size <= bk_size b /\ p mod align = 0 /\ same_data bs (heap_mem s) (heap_mem s') /\
    alloc_sema s' = alloc_sema s /\ heap_start s' = heap_start s /\ heap_end s' = heap_end s.

Definition lost_lock (bs : list block) (v : option Z) : option Z :=
  match bs with [] => locked v | _ => v end.

Lemma bk_ptr16 s bs b : heap_inv s bs -> b ∈ bs -> bk_ptr b mod 16 = 0 /\ bk_ptr b <> 0 /\ is_u32 (bk_ptr b).
Proof.
  intros I Hb. destruct (layout_elem _ _ _ b (hi_layout _ _ I) Hb) as (H1 & H2 & H3 & H4 & _).
  pose proof (hi_start _ _ I). pose proof (hi_ptr _ _ I). pose proof (hi_end _ _ I).
  unfold bk_ptr, bk_end, is_u32 in *. repeat split; try lia. Z.div_mod_to_equations. lia.
Qed.

Lemma inserted_allotted s bs size p s' k : heap_inv s bs -> 0 <= size -> size + 48 <= 2 ^ 32 -> 0 <= k <= 4 ->
  inserted (alloc_sema s) bs (block_size size) s p s' -> allotted bs (2 ^ k) size s p s'.
Proof.
  intros I H0 H1 Hk (bs1 & b & bs2 & -> & I' & -> & Hsz & D & Ev & Es & Ee).
  destruct (block_size_bounds size) as [_ Hb]; [done|done|].
  exists bs1, b, bs2. split; [done|]. split; [done|]. split; [done|]. split; [lia|]. split; [|done].
  destruct (bk_ptr16 _ _ b I') as [H16 _]; [apply elem_of_app; right; apply list_elem_of_here|].
  apply Z.mod_divide in H16; [|lia]. apply Z.mod_divide; [pose proof (Z.pow_pos_nonneg 2 k); lia|].
  etrans; [|exact H16]. exists (2 ^ (4 - k)). rewrite <- Z.pow_add_r by lia. by replace (4 - k + k) with 4 by lia.
Qed.

Lemma memalign_spec s bs k size : heap_inv s bs -> lockable s -> 0 <= k < 32 -> 0 <= size ->
  heap_end s + size + 2 ^ k + 48 <= 2 ^ 32 ->
  wp (memalign (2 ^ k) size) s (fun p s' =>
    refused (lost_lock bs (alloc_sema s)) bs s p s' \/ allotted bs (2 ^ k) size s p s').
Proof.
  intros I Hl Hk H0 H1. pose proof (hi_start _ _ I) as [Hs _]. pose proof (hi_ptr _ _ I) as [Hp _].
  assert (Hpk : 0 < 2 ^ k) by (apply Z.pow_pos_nonneg; lia).
  assert (Hfail : forall n p s', 0 <= n -> malloc_post n bs s p s' -> 
    refused (lost_lock bs (alloc_sema s)) bs s p s' \/ inserted (alloc_sema s) bs (block_size n) s p s').
  { intros n p s' _ [(-> & ? & ? & ? & ? & ? & ? & ? & ?)|H]; [left|by right]. done. }
  unfold memalign, DEFAULT_ALIGNMENT. destruct (Z.leb_spec (2 ^ k) 16) as [Hle|Hgt].
  - eapply wp_mono; [apply (malloc_spec s bs size I Hl); lia|]. intros p s' [H|H]%Hfail; [by left|right|lia].
    apply inserted_allotted; try done; try lia. split; [lia|].
    apply Z.nlt_ge. intros Hk4. assert (2 ^ 5 <= 2 ^ k) by (apply Z.pow_le_mono_r; lia). lia.
  - assert (Hk4 : 4 < k). { apply Z.nle_gt. intros H. assert (2 ^ k <= 2 ^ 4) by (apply Z.pow_le_mono_r; lia). lia. }
    rewrite u32_small by (unfold is_u32; lia). apply wp_bind.
    eapply wp_mono; [apply (malloc_spec s bs (size + 2 ^ k) I Hl); lia|].
    intros p s' [H|H]%Hfail; [|clear Hfail|lia].
    { destruct H as (-> & H). rewrite Z.eqb_refl. apply wp_ret. left. by split. }
    destruct H as (bs1 & b & bs2 & -> & I' & -> & Hsz & D & Ev & Es & Ee).
    destruct (block_size_bounds (size + 2 ^ k)) as [_ Hb]; [lia|lia|].
    destruct (bk_ptr16 _ _ b I') as (_ & Hnz & Hu); [apply elem_of_app; right; apply list_elem_of_here|].
    rewrite (proj2 (Z.eqb_neq _ 0)) by done. rewrite u32_small by (unfold is_u32; lia).
    replace (2 ^ k - 1) with (Z.ones k) by (rewrite Z.ones_equiv; lia). rewrite Z.land_ones by lia.
    destruct (Z.eqb_spec (bk_ptr b mod 2 ^ k) 0) as [E|E].
    { apply wp_ret. right. exists bs1, b, bs2. split; [done|]. split; [done|]. split; [done|]. split; [lia|done]. }
    assert (Hl' : lockable s') by (unfold lockable; by rewrite Ev).
    eapply wp_Done; [apply (memalignFix_ok s' bs1 b bs2 k); (done || lia)|].
    destruct (move_target s' bs1 b bs2 k) as ((T1 & T2 & T3) & T4 & _ & T6); try done; try lia.
    right. eexists bs1, (mkBlk _ _), bs2. split; [done|].
    split; [eapply inv_move; [exact I'|exact T1|exact T2|exact T3|exact T4|reflexivity..]|].
    split; [done|]. split; [simpl; lia|]. split; [done|]. split; [|done].
    intros c Hc x Hx. rewrite <- (D c Hc x Hx). simpl. by eapply moved_data.
Qed.

(** ** calloc *)

Lemma zero_bytes_out n : forall p m x, x < p \/ p + Z.of_nat n <= x -> byte_at (zero_bytes p n m) x = byte_at m x.
Proof.
  induction n as [|n IH]; intros p m x H; [done|]. cbn [zero_bytes]. rewrite IH by lia.
  unfold byte_at. by rewrite lookup_insert_ne by lia.
Qed.

Lemma zero_bytes_in n : forall p m x, p <= x < p + Z.of_nat n -> byte_at (zero_bytes p n m) x = 0.
Proof.
  induction n as [|n IH]; intros p m x H; [lia|]. cbn [zero_bytes].
  destruct (decide (x = p)) as [->|Hx]; [|apply IH; lia].
  rewrite zero_bytes_out by lia. unfold byte_at. by rewrite lookup_insert_eq.
Qed.

Lemma calloc_spec s bs n size : heap_inv s bs -> lockable s -> 0 <= n * size -> heap_end s + n * size + 48 <= 2 ^ 32 ->
  wp (calloc n size) s (fun p s' =>
    refused (lost_lock bs (alloc_sema s)) bs s p s' \/
    allotted bs 16 (n * size) s p s' /\ forall k, 0 <= k < n * size -> byte_at (heap_mem s') (p + k) = 0).
Proof.
  intros I Hl H0 H1. pose proof (hi_start _ _ I) as [Hs _]. pose proof (hi_ptr _ _ I) as [Hp _].
  unfold calloc. cbv zeta. rewrite u32_small by (unfold is_u32; lia). apply wp_bind.
  eapply wp_mono; [apply (malloc_spec s bs _ I Hl); lia|].
  intros p s' [(-> & ? & ? & ? & ? & ? & ? & ? & ?)|H].
  { rewrite Z.eqb_refl. apply wp_ret. by left. }
  apply (inserted_allotted _ _ _ _ _ 4 I) in H; [|lia|lia|lia].
  destruct H as (bs1 & b & bs2 & -> & I' & -> & Hsz & Hal & D & Ev & Es & Ee).
  assert (Hb : b ∈ bs1 ++ b :: bs2) by (apply elem_of_app; right; apply list_elem_of_here).
  destruct (bk_ptr16 _ _ b I' Hb) as (_ & Hnz & _). rewrite (proj2 (Z.eqb_neq _ 0)) by done.
  destruct (layout_elem _ _ _ _ (hi_layout _ _ I') Hb) as (Hb1 & Hb2 & _ & Hb3 & _).
  pose proof (hi_ptr _ _ I') as [Hp' _].
  set (m := zero_bytes (bk_ptr b) (Z.to_nat (n * size)) (heap_mem s')).
  destruct (inv_write s' _ b m I' Hb) as [I2 D2].
  { intros x Hx. apply zero_bytes_out. unfold bk_end, bk_ptr in *. lia. }
  apply wp_bind. eapply wp_Done.
  { unfold memset0, region_ok. rewrite !(proj2 (Z.leb_le _ _)) by (unfold bk_end, bk_ptr in *; lia). reflexivity. }
  apply wp_ret. right. split; [|intros k Hk; apply zero_bytes_in; lia].
  exists bs1, b, bs2. do 5 (split; [done|]). split; [|done].
  intros c Hc x Hx. rewrite <- (D c Hc x Hx). apply (D2 c); [rewrite elem_of_app in *; rewrite elem_of_cons; tauto| |done].
  intros ->. destruct (layout_sep _ _ _ _ _ b (hi_layout _ _ I') Hc); unfold bk_end in *; lia.
Qed.

(** ** realloc *)

Lemma with_ptr_same s : with_ptr (_heap_ptr s) s = s.
Proof. by destruct s. Qed.

Lemma nil_or_cons (bs : list block) : bs = [] \/ exists c bs', bs = c :: bs'.
Proof. destruct bs; eauto. Qed.

Section Realloc.
Context (s : heap_st) (bs1 : list block) (b : block) (bs2 : list block) (size sz : Z).
Context (I : heap_inv s (bs1 ++ b :: bs2)) (Hl : lockable s).
Context (Hsz : 0 < size /\ size <= sz < size + 16 /\ sz mod 16 = 0) (Hend : heap_end s + size + 80 <= 2 ^ 32).

(** The state inside the lock. *)
Definition inside : heap_st := with_alock (locked (alloc_sema s)) s.
Definition inPlace : M heap_st Z := put_size (bk_hdr b) sz ;;; alloc_unlock ;;; ret (bk_ptr b).

Lemma inside_unlock s' : alloc_sema s' = locked (alloc_sema s) ->
  alloc_unlock s' = Done tt (with_alock (alloc_sema s) s').
Proof. by apply unlock_Done. Qed.

Lemma realloc_bounds : bk_end b <= top (bk_end b) bs2 <= _heap_ptr s /\ heap_start s <= bk_hdr b /\
  bk_hdr b mod 16 = 0 /\ 0 <= bk_size b /\ bk_size b mod 16 = 0.
Proof.
  pose proof (hi_layout _ _ I) as [L1 (Lb1 & Lb2 & Lb3 & Lb4 & L2)]%layout_app.
  pose proof (layout_top _ _ _ L2). pose proof (layout_top _ _ _ L1). lia.
Qed.

(** The block resized where it is, with the break at [q]. *)
Lemma inPlace_ok q : top (bk_end (mkBlk (bk_hdr b) sz)) bs2 <= q <= heap_end s ->
  bk_end (mkBlk (bk_hdr b) sz) <= first_hdr bs2 (bk_end (mkBlk (bk_hdr b) sz)) -> q mod 16 = 0 ->
  wp inPlace (with_ptr q inside) (resized bs1 b bs2 size s).
Proof.
  intros Ht Hf Hm. destruct (inv_block _ _ _ _ I) as [Hok _]. unfold inPlace.
  apply wp_bind. eapply wp_Done; [by apply put_size_Done|].
  apply wp_bind. eapply wp_Done; [by apply inside_unlock|]. apply wp_ret.
  edestruct (inv_resize s bs1 b bs2 sz) as [I' D']; [exact I|..|
    apply (resized_in_place bs1 b bs2 size s _ sz); [exact I'|lia|exact D'|reflexivity..]];
    simpl; try lia; try done. apply (inv_base _ _ _ _ I).
Qed.

Lemma inPlace_here : bk_end (mkBlk (bk_hdr b) sz) <= first_hdr bs2 0 -> bs2 <> [] ->
  wp inPlace inside (resized bs1 b bs2 size s).
Proof.
  intros Hf Hne. pose proof (hi_ptr _ _ I) as [Hp1 Hp2]. pose proof realloc_bounds as (Hb & _).
  rewrite <- (with_ptr_same inside). change (_heap_ptr inside) with (_heap_ptr s).
  destruct (nil_or_cons bs2) as [E|(c & bs2' & E)]; [done|].
  apply inPlace_ok; rewrite E in *; simpl in *; (done || lia).
Qed.

Lemma realloc_shrink : sz <= bk_size b ->
  wp (when (first_hdr bs2 0 =? 0)
        (t <- alloc_sbrk 0 ;; alloc_sbrk (u32 (bk_ptr b + sz - t)) ;;; ret tt) ;;; inPlace) inside
    (resized bs1 b bs2 size s).
Proof.
  intros Hle. pose proof realloc_bounds as (Hb1 & Hb2 & Hb3 & Hb4 & Hb5). pose proof (hi_start _ _ I) as [Hs1 _].
  pose proof (hi_ptr _ _ I) as [Hp1 Hp2]. destruct (nil_or_cons bs2) as [Ebs|(c & bs2' & Ebs)].
  - rewrite Ebs in Hb1. rewrite Ebs at 1. cbn [first_hdr top] in *. rewrite Z.eqb_refl. apply wp_bind, wp_bind. eapply wp_Done; [reflexivity|].
    set (q := bk_ptr b + sz). assert (Hq : 0 <= q <= _heap_ptr s) by (unfold q, bk_end, bk_ptr in *; lia).
    assert (E : (alloc_sbrk (u32 (q - _heap_ptr s)) ;;; ret tt) inside = Done tt (with_ptr q inside)).
    { replace (q - _heap_ptr s) with (- (_heap_ptr s - q)) by lia.
      destruct (decide (_heap_ptr s = q)) as [Eq|Eq].
      - rewrite Eq, Z.sub_diag. unfold bind. simpl. unfold ret. f_equal. rewrite <- Eq. symmetry. apply (with_ptr_same inside).
      - erewrite bind_Done; [|apply sbrk_shrink; simpl; lia]. unfold ret. do 2 f_equal. simpl. lia. }
    eapply wp_Done; [exact E|]. apply inPlace_ok; rewrite ?Ebs;
      unfold q, bk_end, bk_ptr in *; simpl; try lia. Z.div_mod_to_equations. lia.
  - pose proof (hi_layout _ _ I) as L. rewrite Ebs in L. apply layout_app in L as [_ (_ & _ & _ & _ & Hc & _)].
    rewrite Ebs at 1. cbn [first_hdr].
    rewrite (inv_hdr_nz s (bs1 ++ [b]) c bs2') by (by rewrite <- app_assoc, <- Ebs). apply wp_bind, wp_ret.
    apply inPlace_here; rewrite Ebs; [|done]. unfold bk_end in *. simpl in *. lia.
Qed.

Lemma realloc_last : bs2 = [] -> bk_size b < sz ->
  wp (r <- alloc_sbrk (u32 (sz - bk_size b)) ;; if r =? sbrk_failed then ret 0 else inPlace) inside (fun p s' =>
    resized bs1 b bs2 size s p s' \/ refused (locked (alloc_sema s)) (bs1 ++ b :: bs2) s p s').
Proof.
  intros Ebs Hgt. pose proof realloc_bounds as (Hb1 & Hb2 & Hb3 & Hb4 & Hb5). pose proof (hi_start _ _ I) as [Hs1 _].
  pose proof (hi_ptr _ _ I) as [Hp1 Hp2]. rewrite u32_small by (unfold is_u32; lia).
  apply wp_bind. destruct (Z.leb_spec (_heap_ptr s + (sz - bk_size b)) (heap_end s)) as [Hfit|Hno].
  - eapply wp_Done;
      [rewrite sbrk_grow, (proj2 (Z.leb_le (_heap_ptr inside + _) (heap_end inside)) Hfit) by (simpl; lia); reflexivity|].
    rewrite (proj2 (Z.eqb_neq _ _)) by (unfold sbrk_failed; change (u32 (-1)) with 4294967295; simpl; lia).
    eapply wp_mono; [apply inPlace_ok; rewrite Ebs in *; unfold bk_end, bk_ptr in *; simpl in *; try lia|by left].
    Z.div_mod_to_equations. lia.
  - eapply wp_Done;
      [rewrite sbrk_grow, (proj2 (Z.leb_gt (_heap_ptr inside + _) (heap_end inside)) Hno) by (simpl; lia); reflexivity|].
    rewrite Z.eqb_refl. apply wp_ret. right. split; [done|]. split; [by apply inv_alock|done].
Qed.

Lemma realloc_next c bs2' : bs2 = c :: bs2' -> bk_size b < sz ->
  wp (next_ptr <- get_ptr (bk_hdr c) ;;
      if sz <? u32 (next_ptr - bk_ptr b) then inPlace
      else
        alloc_unlock ;;;
        new_ptr <- malloc sz ;;
        if new_ptr =? 0 then ret 0
        else old <- get_size (bk_hdr b) ;; memcpy new_ptr (bk_ptr b) old ;;; free (bk_ptr b) ;;; ret new_ptr) inside
    (fun p s' => resized bs1 b bs2 size s p s' \/ refused (alloc_sema s) (bs1 ++ b :: bs2) s p s').
Proof.
  intros Ebs Hgt. pose proof (hi_start _ _ I) as [Hs1 _]. pose proof (hi_ptr _ _ I) as [Hp1 Hp2].
  pose proof realloc_bounds as (Hb1 & Hb2 & Hb3 & Hb4 & Hb5).
  assert (I3 : heap_inv inside ((bs1 ++ [b]) ++ c :: bs2')) by (rewrite <- app_assoc, <- Ebs; by apply inv_alock).
  destruct (inv_block _ _ _ _ I3) as [Hcok Hcat]. pose proof Hcok as (Hc1 & Hc2 & Hc3). simpl in Hc2, Hc3.
  pose proof (hi_layout _ _ I) as L. rewrite Ebs in L. apply layout_app in L as [_ (_ & _ & _ & _ & Hc & _)].
  apply wp_bind. eapply wp_Done; [apply (get_ptr_Done _ _ _ _ Hcok Hcat)|].
  rewrite u32_small by (unfold is_u32, bk_end, bk_ptr in *; lia).
  destruct (Z.ltb_spec sz (bk_ptr c - bk_ptr b)) as [Hfit|Hno].
  - eapply wp_mono; [apply inPlace_here; rewrite Ebs; [|done]|by left].
    unfold bk_end, bk_ptr in *. simpl in *. Z.div_mod_to_equations. lia.
  - apply wp_bind. eapply wp_Done; [by apply inside_unlock|].
    replace (with_alock _ inside) with s by (unfold inside; by destruct s).
    eapply wp_mono; [apply (realloc_move s bs1 b bs2 sz I Hl); lia|].
    intros p s' [H|(bs' & b' & H1 & H2 & H3 & H4 & H5 & H6 & H7)]; [by right|left].
    exists bs', b'. split; [done|]. split; [done|]. split; [done|]. split; [lia|]. split; [done|].
    split; [|done]. intros k Hk. apply H6. lia.
Qed.
End Realloc.

Lemma realloc_spec s bs1 b bs2 size :
  heap_inv s (bs1 ++ b :: bs2) -> lockable s -> 0 < size -> heap_end s + size + 80 <= 2 ^ 32 ->
  wp (realloc (bk_ptr b) size) s (fun p s' =>
    resized bs1 b bs2 size s p s' \/
    refused (lost_lock bs2 (alloc_sema s)) (bs1 ++ b :: bs2) s p s').
Proof.
  intros I Hl Hsz Hend. pose proof (hi_start _ _ I) as [Hs1 Hs2]. pose proof (hi_ptr _ _ I) as [Hp1 Hp2].
  destruct (inv_block _ _ _ _ I) as [Hok Hat]. pose proof Hok as (Hh1 & Hh2 & Hh3).
  unfold realloc. rewrite (proj2 (Z.eqb_neq size 0)) by lia. cbn [andb].
  rewrite (proj2 (Z.eqb_neq (bk_ptr b) 0)) by (unfold bk_ptr; lia). rewrite align16 by lia.
  set (sz := 16 * ((size + 15) / 16)). assert (Hsz16 : 0 < size /\ size <= sz < size + 16 /\ sz mod 16 = 0).
  { subst sz. Z.div_mod_to_equations. lia. }
  assert (Epm : u32 (bk_ptr b - header_size) = bk_hdr b).
  { unfold bk_ptr, header_size. rewrite u32_small by (unfold is_u32; lia). lia. }
  cbv zeta. rewrite Epm.
  apply wp_bind. eapply wp_Done; [by apply lock_Done|]. fold (inside s).
  apply wp_bind. eapply wp_Done; [apply (get_size_Done (inside s) b _ _ Hok Hat)|].
  apply wp_bind. eapply wp_Done; [apply (get_next_Done (inside s) b _ _ Hok Hat)|].
  destruct (Z.leb_spec sz (bk_size b)) as [Hle|Hgt].
  { eapply wp_mono; [apply (realloc_shrink s bs1 b bs2 size sz); done|by left]. }
  destruct bs2 as [|c bs2'].
  - apply (realloc_last s bs1 b [] size sz); done.
  - cbn [first_hdr]. rewrite (inv_hdr_nz s (bs1 ++ [b]) c bs2') by (by rewrite <- app_assoc).
    eapply realloc_next; done.
Qed.
