(* ===== verification/AllocRefine.v ===== *)
(** * AllocRefine: the heap a client sees

    To its client the heap is a map from pointers to the bytes of the block
    given out at that pointer.  [heap_step] says what each call may do to the
    map; the functions of alloc.c are proved to do one of these things. *)

From stdpp Require Import base numbers list gmap.
From Stdlib Require Import ZArith Lia.
From S2P Require Import Prelude Alloc AllocInv AllocSpec AllocMove.

Open Scope Z_scope.
Open Scope c_scope.

(** ** The abstract heap *)

Notation aheap := (gmap Z (list Z)).

(** The bytes of a block. *)
Definition contents (m : gmap Z Z) (b : block) : list Z :=
  (fun i => byte_at m (bk_ptr b + Z.of_nat i)) <$> seq 0 (Z.to_nat (bk_size b)).

Definition abstract (m : gmap Z Z) (bs : list block) : aheap :=
  list_to_map ((fun b => (bk_ptr b, contents m b)) <$> bs).

Definition repr (s : heap_st) (a : aheap) : Prop :=
  exists bs, heap_inv s bs /\ a = abstract (heap_mem s) bs.

Lemma length_contents m b : 0 <= bk_size b -> Z.of_nat (length (contents m b)) = bk_size b.
Proof. intros H. unfold contents. rewrite length_fmap, length_seq. lia. Qed.

Lemma contents_lookup m b i : 0 <= i < bk_size b ->
  contents m b !! Z.to_nat i = Some (byte_at m (bk_ptr b + i)).
Proof.
  intros Hi. unfold contents. rewrite list_lookup_fmap, lookup_seq_lt by lia. simpl. do 3 f_equal. lia.
Qed.

Lemma contents_same m m' b : (forall x, bk_ptr b <= x < bk_end b -> byte_at m' x = byte_at m x) ->
  contents m' b = contents m b.
Proof.
  intros H. unfold contents. apply list_fmap_ext. intros i x Hx%lookup_seq. simpl. apply H.
  unfold bk_end, bk_ptr. lia.
Qed.

(** Two blocks' bytes agree up to [n]. *)
Lemma contents_prefix m m' b b' n : 0 <= n <= bk_size b -> n <= bk_size b' ->
  (forall k, 0 <= k < n -> byte_at m' (bk_ptr b' + k) = byte_at m (bk_ptr b + k)) ->
  take (Z.to_nat n) (contents m' b') = take (Z.to_nat n) (contents m b).
Proof.
  intros H1 H2 H. apply list_eq. intros i. destruct (decide (i < Z.to_nat n)%nat) as [Hi|Hi].
  - rewrite !lookup_take_lt by done. rewrite <- (Nat2Z.id i), !contents_lookup by lia. by rewrite H by lia.
  - by rewrite !lookup_take_ge by lia.
Qed.

Lemma abstract_same m m' bs : same_data bs m m' -> abstract m' bs = abstract m bs.
Proof.
  intros H. unfold abstract. f_equal. apply list_fmap_ext. intros i b Hb%list_elem_of_lookup_2.
  by rewrite (contents_same m m' b) by (by apply H).
Qed.

Lemma abstract_cons m b bs : abstract m (b :: bs) = <[bk_ptr b := contents m b]> (abstract m bs).
Proof. done. Qed.

(** ** Facts of a represented heap *)

Lemma layout_ptrs_nodup lo bs hi : layout lo bs hi -> NoDup (bk_ptr <$> bs).
Proof.
  revert lo. induction bs as [|b bs IH]; intros lo; simpl; [constructor|].
  intros (H1 & _ & H2 & _ & H3). constructor; [|by eapply IH].
  intros (c & Hc & Hin)%list_elem_of_fmap. apply (layout_elem _ _ _ _ H3) in Hin. unfold bk_ptr, bk_end in *. lia.
Qed.

Section Repr.
Context (s : heap_st) (bs : list block) (I : heap_inv s bs).

Lemma repr_keys : NoDup ((fun b => (bk_ptr b, contents (heap_mem s) b)) <$> bs).*1.
Proof.
  rewrite <- list_fmap_compose. apply (layout_ptrs_nodup _ _ _ (hi_layout _ _ I)).
Qed.

Lemma repr_lookup p c : abstract (heap_mem s) bs !! p = Some c <->
  exists b, b ∈ bs /\ bk_ptr b = p /\ c = contents (heap_mem s) b.
Proof.
  unfold abstract. rewrite <- elem_of_list_to_map by apply repr_keys. rewrite list_elem_of_fmap.
  naive_solver.
Qed.

Lemma repr_fresh b bs' : bs ≡ₚ b :: bs' -> abstract (heap_mem s) bs' !! bk_ptr b = None /\
  abstract (heap_mem s) bs = <[bk_ptr b := contents (heap_mem s) b]> (abstract (heap_mem s) bs').
Proof.
  intros HP. pose proof repr_keys as N.
  assert (HP' : (fun b => (bk_ptr b, contents (heap_mem s) b)) <$> bs ≡ₚ
                (fun b => (bk_ptr b, contents (heap_mem s) b)) <$> (b :: bs')) by (by rewrite HP).
  split.
  - rewrite HP' in N. simpl in N. apply NoDup_cons in N as [N _]. unfold abstract.
    by apply not_elem_of_list_to_map_1.
  - unfold abstract. rewrite (list_to_map_proper _ _ N HP'). done.
Qed.
End Repr.

(** The blocks of a represented heap lie in the heap, aligned, and two of them
    do not overlap. *)
Definition separate (s : heap_st) (a : aheap) : Prop :=
  (forall p c, a !! p = Some c ->
     p mod 16 = 0 /\ heap_start s <= p /\ p + Z.of_nat (length c) <= heap_end s) /\
  (forall p q c d, a !! p = Some c -> a !! q = Some d -> p <> q ->
     p + Z.of_nat (length c) <= q \/ q + Z.of_nat (length d) <= p).

Lemma repr_separate s a : repr s a -> separate s a.
Proof.
  intros (bs & I & ->). pose proof (hi_layout _ _ I) as L. pose proof (hi_ptr _ _ I). split.
  - intros p c (b & Hb & <- & ->)%(repr_lookup s bs I).
    destruct (layout_elem _ _ _ b L Hb) as (H1 & H2 & H3 & H4 & _). rewrite length_contents by done.
    split; [apply (bk_ptr16 _ _ _ I Hb)|]. unfold bk_ptr, bk_end in *. lia.
  - intros p q c d (b & Hb & <- & ->)%(repr_lookup s bs I) (e & He & <- & ->)%(repr_lookup s bs I) Hne.
    destruct (layout_elem _ _ _ b L Hb) as (_ & _ & _ & Hb0 & _).
    destruct (layout_elem _ _ _ e L He) as (_ & _ & _ & He0 & _). rewrite !length_contents by done.
    pose proof Hb as (l1 & l2 & ->)%list_elem_of_split.
    destruct (layout_sep _ _ _ _ _ e L) as [?|?]; [|unfold bk_ptr, bk_end in *; lia..].
    rewrite elem_of_app in *. rewrite elem_of_cons in He. naive_solver.
Qed.

(** ** Calls *)

Inductive heap_op :=
  | OpMalloc (n : Z)
  | OpCalloc (n size : Z)
  | OpMemalign (k n : Z)           (* alignment 2^k *)
  | OpRealloc (p n : Z)
  | OpFree (p : Z)
  | OpWrite (p i v : Z).           (* the client stores byte [v] at [p + i] *)

Definition run (op : heap_op) : M heap_st Z :=
  match op with
  | OpMalloc n => malloc n
  | OpCalloc n size => calloc n size
  | OpMemalign k n => memalign (2 ^ k) n
  | OpRealloc p n => realloc p n
  | OpFree p => free p ;;; ret 0
  | OpWrite p i v => modify (fun s => with_mem (<[p + i := v]> (heap_mem s)) s) ;;; ret 0
  end.

(** What the client must respect: sizes that do not wrap round the end of the
    heap, and blocks it owns. *)
Definition op_ok (hend : Z) (op : heap_op) (a : aheap) : Prop :=
  match op with
  | OpMalloc n => 0 <= n /\ hend + n + 48 <= 2 ^ 32
  | OpCalloc n size => 0 <= n * size /\ hend + n * size + 48 <= 2 ^ 32
  | OpMemalign k n => 0 <= k < 32 /\ 0 <= n /\ hend + n + 2 ^ k + 48 <= 2 ^ 32
  | OpRealloc p n => (p = 0 \/ is_Some (a !! p)) /\ 0 <= n /\ hend + n + 80 <= 2 ^ 32
  | OpFree p => True
  | OpWrite p i v => exists c, a !! p = Some c /\ 0 <= i < Z.of_nat (length c)
  end.

(** A new block of at least [n] bytes at [r], or NULL and no change. *)
Definition gives (n align : Z) (good : list Z -> Prop) (a : aheap) (r : Z) (a' : aheap) : Prop :=
  (r = 0 /\ a' = a) \/
  (r <> 0 /\ r mod align = 0 /\ a !! r = None /\
   exists c, n <= Z.of_nat (length c) /\ good c /\ a' = <[r := c]> a).

(** The block at [p] resized, perhaps moved to [r], with the bytes it had. *)
Definition resizes (p n : Z) (a : aheap) (r : Z) (a' : aheap) : Prop :=
  (r = 0 /\ a' = a) \/
  exists old, a !! p = Some old /\
    gives n 16 (fun c => let k := Nat.min (Z.to_nat n) (length old) in take k c = take k old)
      (delete p a) r a' /\ r <> 0.

Definition heap_step (op : heap_op) (a : aheap) (r : Z) (a' : aheap) : Prop :=
  match op with
  | OpMalloc n => gives n 16 (fun _ => True) a r a'
  | OpCalloc n size => gives (n * size) 16 (fun c => forall i, 0 <= i < n * size -> c !! Z.to_nat i = Some 0) a r a'
  | OpMemalign k n => gives n (2 ^ k) (fun _ => True) a r a'
  | OpRealloc p n =>
      if p =? 0 then gives n 16 (fun _ => True) a r a'
      else if n =? 0 then r = 0 /\ a' = delete p a
      else resizes p n a r a'
  | OpFree p => r = 0 /\ a' = delete p a
  | OpWrite p i v => r = 0 /\ a' = alter (<[Z.to_nat i := v]>) p a
  end.

(** Can a call that returned [r] have kept the lock? *)
Definition may_lose (op : heap_op) (r : Z) : Prop :=
  match op with
  | OpMalloc _ | OpCalloc _ _ | OpMemalign _ _ => r = 0
  | OpRealloc p n => r = 0 /\ (p = 0 \/ n <> 0)
  | OpFree _ | OpWrite _ _ _ => False
  end.

(** What a call leaves: one of the steps, and the lock as it was, or taken. *)
Definition served (op : heap_op) (s : heap_st) (a : aheap) (r : Z) (s' : heap_st) : Prop :=
  (exists a', heap_step op a r a' /\ repr s' a') /\
  heap_start s' = heap_start s /\ heap_end s' = heap_end s /\
  (alloc_sema s' = alloc_sema s \/ (may_lose op r /\ alloc_sema s' = locked (alloc_sema s))).

Lemma lost_lock_cases bs v : lost_lock bs v = v \/ lost_lock bs v = locked v.
Proof. destruct bs; simpl; auto. Qed.

Lemma refused_repr v bs s p s' : refused v bs s p s' -> repr s' (abstract (heap_mem s) bs) /\ p = 0.
Proof. intros (-> & I & <- & _). split; [|done]. by exists bs. Qed.

Lemma allotted_gives bs al size s p s' (good : list Z -> Prop) : heap_inv s bs -> allotted bs al size s p s' ->
  (forall b, p = bk_ptr b -> size <= bk_size b -> good (contents (heap_mem s') b)) ->
  exists a', gives size al good (abstract (heap_mem s) bs) p a' /\ repr s' a'.
Proof.
  intros I (bs1 & b & bs2 & -> & I' & -> & Hsz & Hal & D & _) Hg.
  destruct (repr_fresh s' _ I' b (bs1 ++ bs2)) as [F E]; [by rewrite Permutation_middle|].
  rewrite (abstract_same _ _ _ D) in F, E.
  assert (Hb : b ∈ bs1 ++ b :: bs2) by (apply elem_of_app; right; apply list_elem_of_here).
  destruct (layout_elem _ _ _ b (hi_layout _ _ I') Hb) as (_ & _ & _ & H0 & _).
  exists (abstract (heap_mem s') (bs1 ++ b :: bs2)). split; [|eexists; by split]. right. split; [apply (bk_ptr16 _ _ _ I' Hb)|]. split; [done|]. split; [done|].
  eexists. split; [by rewrite length_contents|]. split; [|exact E]. by apply Hg.
Qed.

Lemma removed_delete s bs1 b bs2 v s' : heap_inv s (bs1 ++ b :: bs2) -> removed v (bs1 ++ bs2) s s' ->
  repr s' (delete (bk_ptr b) (abstract (heap_mem s) (bs1 ++ b :: bs2))).
Proof.
  intros I (I' & D & _). exists (bs1 ++ bs2). split; [done|].
  destruct (repr_fresh s _ I b (bs1 ++ bs2)) as [F E]; [by rewrite Permutation_middle|].
  rewrite E, delete_insert_id by done. by rewrite (abstract_same _ _ _ D).
Qed.

(** ** The refinement, call by call *)

Section Refine.
Context (s : heap_st) (bs : list block) (I : heap_inv s bs) (Hl : lockable s).
Notation a := (abstract (heap_mem s) bs).

Lemma gives_served op n al good r s' :
  (forall r a', heap_step op a r a' <-> gives n al good a r a') -> (r = 0 -> may_lose op r) ->
  refused (lost_lock bs (alloc_sema s)) bs s r s' \/
  (allotted bs al n s r s' /\ forall b, r = bk_ptr b -> n <= bk_size b -> good (contents (heap_mem s') b)) ->
  served op s a r s'.
Proof.
  intros Hop Hlose [R|[A Hg]].
  - destruct (refused_repr _ _ _ _ _ R) as [HR ->]. destruct R as (_ & _ & _ & Ev & Es & Ee).
    split; [exists a; split; [apply Hop; by left|done]|]. split; [done|]. split; [done|].
    rewrite Ev. destruct (lost_lock_cases bs (alloc_sema s)) as [->| ->]; [by left|right; auto].
  - destruct (allotted_gives _ _ _ _ _ _ good I A Hg) as (a' & G & R).
    destruct A as (_ & _ & _ & _ & _ & _ & _ & _ & _ & Ev & Es & Ee).
    split; [exists a'; split; [by apply Hop|done]|]. by auto.
Qed.

Lemma malloc_gives n r s' : 0 <= n -> n + 48 <= 2 ^ 32 -> malloc_post n bs s r s' ->
  refused (lost_lock bs (alloc_sema s)) bs s r s' \/
  (allotted bs 16 n s r s' /\ forall b, r = bk_ptr b -> n <= bk_size b -> True).
Proof.
  intros H0 H1 [(-> & ? & ? & ? & ? & ? & ? & ? & ?)|H]; [by left|right; split; [|done]].
  by apply (inserted_allotted _ _ _ _ _ 4).
Qed.

Lemma malloc_served op n : (forall r a', heap_step op a r a' <-> gives n 16 (fun _ => True) a r a') ->
  (forall r, r = 0 -> may_lose op r) -> 0 <= n -> heap_end s + n + 48 <= 2 ^ 32 ->
  wp (malloc n) s (served op s a).
Proof.
  intros Hop Hlose H0 H1. pose proof (hi_start _ _ I) as Hs. pose proof (hi_ptr _ _ I) as Hpp.
  eapply wp_mono; [by apply malloc_spec|]. intros r s' H.
  eapply gives_served; [exact Hop|auto|]. apply malloc_gives; [lia|lia|done].
Qed.

Lemma calloc_served n size : op_ok (heap_end s) (OpCalloc n size) a ->
  wp (calloc n size) s (served (OpCalloc n size) s a).
Proof.
  intros [H0 H1]. eapply wp_mono; [by apply calloc_spec|]. intros r s' H.
  eapply gives_served; [done|done|]. destruct H as [H|[A Hz]]; [by left|right; split; [done|]].
  intros b -> Hb i Hi. rewrite contents_lookup by lia. by rewrite Hz.
Qed.

Lemma memalign_served k n : op_ok (heap_end s) (OpMemalign k n) a ->
  wp (memalign (2 ^ k) n) s (served (OpMemalign k n) s a).
Proof.
  intros (Hk & H0 & H1). eapply wp_mono; [by apply memalign_spec|]. intros r s' H.
  eapply gives_served; [done|done|]. destruct H as [H|A]; [by left|by right].
Qed.

Lemma free_repr p : wp (free p) s (fun _ s' => repr s' (delete p a) /\ heap_start s' = heap_start s /\
  heap_end s' = heap_end s /\ alloc_sema s' = alloc_sema s).
Proof.
  eapply wp_mono; [by apply free_spec|]. intros [] s' [[-> Hno]|(bs1 & b & bs2 & E & <- & R)].
  - split; [|done]. exists bs. split; [done|]. apply delete_id.
    destruct (a !! p) as [c|] eqn:Ep; [|done]. apply (repr_lookup _ _ I) in Ep as (b & Hb & Hp & _). by destruct (Hno b Hb).
  - split; [|by destruct R as (_ & _ & ? & ? & ? & _)]. subst bs. by eapply removed_delete.
Qed.

Lemma free_served p : wp (run (OpFree p)) s (served (OpFree p) s a).
Proof.
  simpl. apply wp_bind. eapply wp_mono; [apply free_repr|]. intros [] s' (R & Es & Ee & Ev). apply wp_ret.
  split; [eexists; by split|]. auto.
Qed.

Lemma resized_gives bs1 b bs2 n r s' : bs = bs1 ++ b :: bs2 -> 0 < n -> resized bs1 b bs2 n s r s' ->
  exists a', gives n 16 (fun c => let k := Nat.min (Z.to_nat n) (length (contents (heap_mem s) b)) in
                              take k c = take k (contents (heap_mem s) b)) (delete (bk_ptr b) a) r a' /\
    r <> 0 /\ repr s' a'.
Proof.
  intros E Hn (bs' & b' & HP & I' & -> & Hsz & D & Hk & _). subst bs.
  destruct (repr_fresh s' _ I' b' (bs1 ++ bs2) HP) as [F E'].
  destruct (repr_fresh s _ I b (bs1 ++ bs2)) as [F0 E0]; [by rewrite Permutation_middle|].
  rewrite (abstract_same _ _ _ D) in F, E'. rewrite E0, delete_insert_id by done.
  assert (Hb' : b' ∈ bs') by (rewrite HP; apply list_elem_of_here).
  destruct (layout_elem _ _ _ b' (hi_layout _ _ I') Hb') as (_ & _ & _ & H0 & _).
  destruct (layout_elem _ _ _ b (hi_layout _ _ I)) as (_ & _ & _ & H0' & _);
    [apply elem_of_app; right; apply list_elem_of_here|].
  destruct (bk_ptr16 _ _ _ I' Hb') as (H16 & Hnz & _).
  exists (abstract (heap_mem s') bs'). split; [|split; [done|by exists bs']]. right. split; [done|]. split; [done|].
  split; [done|]. exists (contents (heap_mem s') b'). split; [by rewrite length_contents|]. split; [|done].
  cbv zeta. replace (Nat.min _ _) with (Z.to_nat (Z.min n (bk_size b)))
    by (pose proof (length_contents (heap_mem s) b H0'); lia).
  apply contents_prefix; [lia|lia|exact Hk].
Qed.

Lemma realloc_served p n : op_ok (heap_end s) (OpRealloc p n) a -> wp (realloc p n) s (served (OpRealloc p n) s a).
Proof.
  intros (Hp & H0 & H1). destruct (Z.eqb_spec p 0) as [->|Hp0].
  - unfold realloc. rewrite andb_false_r, Z.eqb_refl. apply malloc_served; [done|by intros r ->; split; [|left]|done|lia].
  - destruct Hp as [?|[c Hc]]; [done|]. destruct (Z.eqb_spec n 0) as [->|Hn0].
    + unfold realloc. rewrite (proj2 (nz_true p)) by done. simpl. apply wp_bind.
      eapply wp_mono; [apply free_repr|]. intros [] s' (R & Es & Ee & Ev). apply wp_ret.
      split; [exists (delete p a); split; [|done]|by auto].
      unfold heap_step. by rewrite (proj2 (Z.eqb_neq p 0)), Z.eqb_refl.
    + apply (repr_lookup _ _ I) in Hc as (b & Hb & <- & ->). pose proof Hb as (bs1 & bs2 & E)%list_elem_of_split.
      pose proof I as I'. rewrite E in I'. eapply wp_mono; [apply (realloc_spec s bs1 b bs2 n I' Hl); lia|].
      assert (Hstep : forall r a', resizes (bk_ptr b) n a r a' -> heap_step (OpRealloc (bk_ptr b) n) a r a').
      { intros r a'. unfold heap_step. by rewrite !(proj2 (Z.eqb_neq _ 0)) by done. }
      intros r s' [H|H].
      * destruct (resized_gives bs1 b bs2 n r s' E ltac:(lia) H) as (a' & G & Hr & R).
        destruct H as (_ & _ & _ & _ & _ & _ & _ & _ & Ev & Es & Ee). split; [|by auto].
        exists a'. split; [|done]. apply Hstep. right. exists (contents (heap_mem s) b). split; [|done].
        apply (repr_lookup _ _ I). eauto.
      * destruct (refused_repr _ _ _ _ _ H) as [R ->]. destruct H as (_ & _ & _ & Ev & Es & Ee). rewrite <- E in R.
        split; [exists a; split; [apply Hstep; by left|done]|]. split; [done|]. split; [done|]. rewrite Ev.
        destruct (lost_lock_cases bs2 (alloc_sema s)) as [->| ->]; [by left|right]. split; [|done]. by split; [|right].
Qed.

Lemma write_served p i v : op_ok (heap_end s) (OpWrite p i v) a ->
  wp (run (OpWrite p i v)) s (served (OpWrite p i v) s a).
Proof.
  intros (c & Hc & Hi). simpl. apply wp_bind. eapply wp_Done; [reflexivity|]. apply wp_ret.
  set (m := <[p + i := v]> (heap_mem s)).
  pose proof Hc as (b & Hb & <- & ->)%(repr_lookup _ _ I).
  destruct (layout_elem _ _ _ b (hi_layout _ _ I) Hb) as (_ & _ & _ & H0 & _). rewrite length_contents in Hi by done.
  destruct (inv_write s bs b m I Hb) as [I' D].
  { intros x Hx. unfold m, byte_at. rewrite lookup_insert_ne; [done|]. unfold bk_end, bk_ptr in *. lia. }
  split; [|split; [done|split; [done|by left]]].
  eexists. split; [by split|]. exists bs. split; [done|]. apply map_eq. intros q.
  assert (Hm : contents m b = <[Z.to_nat i := v]> (contents (heap_mem s) b)).
  { apply list_eq. intros j. destruct (decide (j < Z.to_nat (bk_size b))%nat) as [Hj|Hj].
    - rewrite <- (Nat2Z.id j), contents_lookup by lia. rewrite list_lookup_insert, contents_lookup by lia.
      unfold m, byte_at. rewrite lookup_insert. repeat case_decide; try done; try lia.
      pose proof (length_contents (heap_mem s) b H0). lia.
    - pose proof (length_contents m b H0). pose proof (length_contents (heap_mem s) b H0).
      rewrite !lookup_ge_None_2; [done|rewrite length_insert; lia|lia]. }
  apply option_eq. intros d. rewrite (repr_lookup (with_mem m s) bs I'). rewrite lookup_alter. case_decide as Hq.
  - subst q. rewrite Hc. simpl. rewrite <- Hm. split.
    + intros [= <-]. by exists b.
    + intros (e & He & Hp & ->). by rewrite (layout_same_ptr _ _ _ e b (hi_layout _ _ I) He Hb Hp).
  - rewrite (repr_lookup s bs I). split.
    + intros (e & He & Hp & ->). exists e. split; [done|]. split; [done|]. symmetry. apply contents_same.
      apply D; [done|]. by intros ->.
    + intros (e & He & Hp & ->). exists e. split; [done|]. split; [done|]. apply contents_same.
      apply D; [done|]. by intros ->.
Qed.
End Refine.

(** Every call is one of the steps of the abstract heap. *)
Lemma run_served op s a : repr s a -> lockable s -> op_ok (heap_end s) op a -> wp (run op) s (served op s a).
Proof.
  intros (bs & I & ->) Hl Hok. destruct op.
  - apply malloc_served; done || apply Hok.
  - by apply calloc_served.
  - by apply memalign_served.
  - by apply realloc_served.
  - by apply free_served.
  - by apply write_served.
Qed.

(** ** Clients *)

(** A client makes calls and goes on as their results tell. *)
Inductive client :=
  | Stop
  | Call (op : heap_op) (k : Z -> client).

Fixpoint serve (c : client) : M heap_st unit :=
  match c with
  | Stop => ret tt
  | Call op k => r <- run op ;; serve (k r)
  end.

(** The client keeps to the rules whatever the abstract heap answers. *)
Fixpoint well_behaved (hend : Z) (c : client) (a : aheap) : Prop :=
  match c with
  | Stop => True
  | Call op k => op_ok hend op a /\ forall r a', heap_step op a r a' -> well_behaved hend (k r) a'
  end.

(** The client stops when it is refused memory. *)
Fixpoint gives_up (c : client) : Prop :=
  match c with
  | Stop => True
  | Call op k => (forall r, may_lose op r -> k r = Stop) /\ forall r, gives_up (k r)
  end.

Lemma serve_ok c : forall s a, repr s a -> well_behaved (heap_end s) c a ->
  alloc_sema s = None \/ (alloc_sema s = Some 1 /\ gives_up c) ->
  wp (serve c) s (fun _ s' => exists a', repr s' a' /\ heap_start s' = heap_start s /\ heap_end s' = heap_end s).
Proof.
  induction c as [|op k IH]; intros s a R W L; simpl; [apply wp_ret; eauto|].
  destruct W as [Hok W]. apply wp_bind.
  eapply wp_mono; [apply (run_served op s a); [done|by destruct L as [?|[? _]]; [left|right]|done]|].
  intros r s' ((a' & Hs & R') & Es & Ee & Hv). rewrite <- Es, <- Ee. rewrite <- Ee in W.
  destruct L as [L|[L [G1 G2]]].
  - apply (IH r s' a'); [done|by apply W|]. left. destruct Hv as [->|[_ ->]]; [done|by rewrite L].
  - destruct Hv as [Hv|[Hv _]]; [apply (IH r s' a'); [done|by apply W|right]|].
    + split; [by rewrite Hv|done].
    + rewrite (G1 r Hv). apply wp_ret. eauto.
Qed.
