(* ===== verification/AllocProps.v ===== *)
(** * AllocProps: the properties of the IOP heap

    The heap as its clients see it ([AllocRefine]), what [malloc] refuses, the
    lock it loses, and the sizes that wrap. *)

From stdpp Require Import base numbers list gmap.
From Stdlib Require Import ZArith Lia.
From S2P Require Import Prelude Alloc AllocInv AllocSpec AllocMove AllocRefine Scenario.

Open Scope Z_scope.
Open Scope c_scope.

(** ** Start *)

(** The module as it is loaded. *)
Definition boot : heap_st := mkHeap ∅ 0 0 0 0 0 0 None.

(** The kernel gives memory in blocks of 256 bytes, below 4 GB. *)
Definition kernel_memory (env : allocEnv) : Prop := forall n,
  let p := ae_AllocSysMemory env n in p <> 0 -> 0 < p /\ p mod 256 = 0 /\ p + n < 2 ^ 32.

Lemma strtoul_u32 a : is_u32 (strtoul a).
Proof.
  assert (U : forall n, is_u32 (u32 n)) by (intros n; unfold is_u32, u32; apply Z.mod_pos_bound; lia).
  induction a as [|c a IH]; simpl; [apply U|].
  repeat (match goal with |- is_u32 (match ?x with _ => _ end) => destruct x end; try apply U; try apply IH).
Qed.

Lemma start_inv env argv s : kernel_memory env -> _start env argv boot = Done 0 s ->
  heap_inv s [] /\ alloc_sema s = (if 0 <=? ae_CreateSema env then Some 1 else None).
Proof.
  intros K. unfold _start. destruct (nz _); [by intros [=]|].
  set (n := match argv with _ :: a :: _ => _ | _ => _ end).
  assert (Hn : is_u32 n). { subst n. destruct argv as [|? [|a ?]]; [done|done|apply strtoul_u32]. }
  destruct (Z.eqb_spec (ae_AllocSysMemory env n) 0) as [E|E]; [by intros [=]|].
  destruct (K n E) as (K1 & K2 & K3). set (p := ae_AllocSysMemory env n) in *.
  unfold bind, modify, ret. intros [= <-]. split; [|done]. unfold is_u32 in Hn.
  rewrite u32_small by (unfold is_u32; lia).
  constructor; simpl; try done; try lia; repeat split; try lia; try (by right); Z.div_mod_to_equations; lia.
Qed.

Definition env0 : allocEnv := mkAllocEnv 0 (fun n => if n <=? 0x100000 then 0x10000 else 0) 5.
Definition s_heap : heap_st := after (_start env0 [[]; [52; 48; 57; 54]]) boot.   (* "4096" *)

Lemma s_heap_start : _start env0 [[]; [52; 48; 57; 54]] boot = Done 0 s_heap.
Proof. apply result_after. vm_compute. reflexivity. Qed.

Lemma s_heap_inv : heap_inv s_heap [].
Proof. constructor; vm_compute; repeat split; try discriminate; auto. Qed.

Lemma s_heap_repr : repr s_heap ∅.
Proof. exists []. split; [apply s_heap_inv|done]. Qed.

(** ** The heap as a map of blocks *)

(** C32: every call implements the abstract heap.  From a state that
    represents the map [a] of blocks to bytes, [malloc], [calloc], [memalign],
    [realloc], [free] and a client's store each return and leave a state that
    represents a map the abstract step allows: a new block at an aligned fresh
    address and as long as asked for (cleared for [calloc], with the old bytes
    for [realloc]), or NULL and the same map; every other block keeps its
    bytes; and the blocks lie in the heap and do not overlap. *)
Theorem heap_refines s a op : repr s a -> lockable s -> op_ok (heap_end s) op a ->
  wp (run op) s (fun r s' => exists a', heap_step op a r a' /\ repr s' a' /\ separate s' a' /\
    (alloc_sema s' = alloc_sema s \/ may_lose op r)).
Proof.
  intros R L O. eapply wp_mono; [exact (run_served op s a R L O)|].
  intros r s' ((a' & Hs & R') & _ & _ & Hv). exists a'. split; [done|]. split; [done|].
  split; [by apply repr_separate|]. destruct Hv as [?|[? _]]; auto.
Qed.

Lemma heap_refines_witness : wp (run (OpMalloc 100)) s_heap (fun r s' => exists a',
  heap_step (OpMalloc 100) ∅ r a' /\ repr s' a' /\ separate s' a' /\
  (alloc_sema s' = alloc_sema s_heap \/ may_lose (OpMalloc 100) r)).
Proof.
  apply (heap_refines s_heap ∅ (OpMalloc 100)).
  - exact s_heap_repr.
  - right. vm_compute. reflexivity.
  - vm_compute. split; discriminate.
Defined.

(** C33: whole programs.  Started by [_start] on memory of the kernel, the heap
    serves any client that keeps to the rules (it stores only inside blocks it
    owns, reallocates only those, and asks for sizes that do not wrap) and,
    where the module has its semaphore, stops when it is refused memory: no
    call touches memory outside the heap or waits for ever, and the blocks the
    client then owns lie in the heap, aligned, and do not overlap. *)
Theorem heap_clients_safe env argv s c : kernel_memory env -> _start env argv boot = Done 0 s ->
  well_behaved (heap_end s) c ∅ -> ae_CreateSema env < 0 \/ gives_up c ->
  wp (serve c) s (fun _ s' => exists a, repr s' a /\ separate s' a).
Proof.
  intros K E W G. destruct (start_inv env argv s K E) as [I Ev].
  eapply wp_mono; [apply (serve_ok c s ∅); [by exists []|done|]|].
  - rewrite Ev. destruct (Z.leb_spec 0 (ae_CreateSema env)); [right|by left]. destruct G; [lia|done].
  - intros [] s' (a & R & _). exists a. split; [done|by apply repr_separate].
Qed.

(** A client that takes a block, writes to it and gives it back. *)
Definition c_demo : client :=
  Call (OpMalloc 100) (fun p => if p =? 0 then Stop else
  Call (OpWrite p 99 7) (fun _ => Call (OpFree p) (fun _ => Stop))).

Lemma heap_clients_safe_witness : wp (serve c_demo) s_heap (fun _ s' => exists a, repr s' a /\ separate s' a).
Proof.
  apply (heap_clients_safe env0 [[]; [52; 48; 57; 54]]).
  - intros n. simpl. destruct (Z.leb_spec n 1048576); [|done]. repeat split; reflexivity || lia.
  - exact s_heap_start.
  - split; [vm_compute; split; discriminate|]. intros r a' [[-> ->]|(Hr & _ & _ & c & Hc & _ & ->)]; [done|].
    rewrite (proj2 (Z.eqb_neq r 0)) by done. split; [|by intros].
    exists c. split; [apply lookup_insert_eq|lia].
  - right. split; [intros r ->; done|]. intros r. destruct (r =? 0); [done|]. split; [done|]. intros _. by split.
Defined.

(** ** What malloc refuses *)

(** C34: [malloc] returns NULL only when the heap has no room: the space up to
    the first block, every gap between blocks and the space after the break
    are too small for the block and its header (below the first block a space
    of exactly the right size is not used).  The memory, the break and the
    blocks are then as they were; the semaphore is free again if there are
    blocks, and still taken if there are none.  Otherwise the block it returns
    overlaps no block there was, the bytes of those are kept, and the semaphore
    is free. *)
Theorem malloc_fails_only_full s bs size : heap_inv s bs -> lockable s -> 0 <= size ->
  heap_end s + size + 48 <= 2 ^ 32 ->
  wp (malloc size) s (fun r s' =>
    if r =? 0 then no_room (block_size size) bs s /\ heap_end s < _heap_ptr s + block_size size /\
                   heap_mem s' = heap_mem s /\ _heap_ptr s' = _heap_ptr s /\ heap_inv s' bs /\
                   alloc_sema s' = match bs with [] => locked (alloc_sema s) | _ => alloc_sema s end
    else (forall b, b ∈ bs -> bk_end b <= r - 16 \/ r + size <= bk_hdr b) /\ same_data bs (heap_mem s) (heap_mem s') /\
         alloc_sema s' = alloc_sema s).
Proof.
  intros I L H0 H1. eapply wp_mono; [by apply malloc_spec|].
  pose proof (hi_start _ _ I). pose proof (hi_ptr _ _ I). destruct (block_size_bounds size) as [_ Hbs]; [lia|lia|].
  intros r s' [(-> & I' & Em & Ep & _ & _ & Hp & Hn & El)|(bs1 & b & bs2 & -> & I' & -> & Hsz & Hd & Hv & _)]; [done|].
  destruct (bk_ptr16 _ _ b I') as (_ & Hnz & _); [apply elem_of_app; right; apply list_elem_of_here|].
  rewrite (proj2 (Z.eqb_neq _ 0)) by done. split; [intros c Hc|done].
  pose proof (layout_sep _ _ _ _ _ c (hi_layout _ _ I') Hc). unfold bk_end, bk_ptr in *. lia.
Qed.

(** A heap of 4 KB that is too small: NULL, and the semaphore stays taken. *)
Lemma malloc_fails_only_full_witness : exists s', malloc 5000 s_heap = Done 0 s' /\ heap_mem s' = heap_mem s_heap /\ heap_inv s' [] /\ alloc_sema s' = Some 0.
Proof.
  pose proof (malloc_fails_only_full s_heap [] 5000 s_heap_inv ltac:(right; vm_compute; reflexivity) ltac:(lia) ltac:(vm_compute; discriminate)) as W.
  apply wp_inv in W as (r & s' & E & H). assert (E0 : match malloc 5000 s_heap with Done r _ => r | _ => 1 end = 0) by (vm_compute; reflexivity).
  rewrite E in E0. subst r. destruct H as (_ & _ & H1 & _ & H2 & H3). exists s'. split; [exact E|]. split; [exact H1|]. split; [exact H2|exact H3].
Defined.

(** ** The lock that is lost *)

(** C35: [malloc] on an empty heap that cannot hold the block returns NULL
    without releasing the semaphore: the next call of [malloc] or [free] (of a
    pointer other than NULL) waits for ever. *)
Theorem malloc_loses_lock s size : heap_inv s [] -> alloc_sema s = Some 1 -> 0 <= size ->
  heap_end s + size + 48 <= 2 ^ 32 -> heap_end s < _heap_ptr s + size + 16 ->
  exists s', malloc size s = Done 0 s' /\ (forall n, malloc n s' = NoFuel) /\ (forall p, p <> 0 -> free p s' = NoFuel).
Proof.
  intros I L H0 H1 Hfull. pose proof (hi_start _ _ I). pose proof (hi_ptr _ _ I).
  destruct (block_size_bounds size) as [N1 N2]; [lia|lia|].
  exists (with_base (heap_start s) (with_alock (Some 0) s)). split; [|split].
  - unfold malloc. cbv zeta. rewrite (bind_Done _ _ _ _ _ (lock_Done s (or_intror L))). rewrite L.
    set (s1 := with_alock _ s). assert (I1 : heap_inv s1 []) by (by apply inv_alock).
    rewrite (bind_Done get _ s1 s1 s1 eq_refl). rewrite (hi_head _ _ I1), Z.eqb_refl.
    apply (mallocFirst_full s1 [] _ I1); simpl; lia.
  - intros n. done.
  - intros p Hp. unfold free. by rewrite (proj2 (Z.eqb_neq p 0)).
Qed.

Lemma malloc_loses_lock_witness : exists s', malloc 5000 s_heap = Done 0 s' /\
  (forall n, malloc n s' = NoFuel) /\ (forall p, p <> 0 -> free p s' = NoFuel).
Proof.
  apply (malloc_loses_lock s_heap 5000 s_heap_inv).
  - vm_compute. reflexivity.
  - lia.
  - vm_compute. discriminate.
  - vm_compute. reflexivity.
Defined.

(** ** Sizes that wrap *)

(** A size that wraps past the end of the address space is taken to fit below
    the first block: [malloc] writes a new header at the base of the heap and
    returns an address that can belong to the client already. *)
Theorem malloc_wrap_aliases s b bs size : heap_inv s (b :: bs) -> lockable s -> bk_hdr b = heap_start s ->
  2 ^ 32 <= heap_start s + size + 16 -> size + 48 <= 2 ^ 32 ->
  exists s', malloc size s = Done (bk_ptr b) s'.
Proof.
  intros I L Hb H1 H2. pose proof (hi_start _ _ I). pose proof (hi_ptr _ _ I). pose proof (hi_end _ _ I).
  destruct (inv_block s [] b bs I) as [Hok _]. pose proof Hok as (_ & Ho1 & Ho2).
  destruct (block_size_bounds size) as [N1 N2]; [lia|lia|].
  unfold malloc. cbv zeta. rewrite (bind_Done _ _ _ _ _ (lock_Done s L)). set (s1 := with_alock _ s).
  assert (I1 : heap_inv s1 (b :: bs)) by (by apply inv_alock).
  rewrite (bind_Done get _ s1 s1 s1 eq_refl), (hi_head _ _ I1). cbn [first_hdr].
  rewrite (inv_hdr_nz s1 [] b bs I1), (inv_base s1 b [] bs I1).
  replace (u32 (heap_start s1 + block_size size)) with (heap_start s + block_size size - 2 ^ 32).
  2: { unfold u32. rewrite <- (Z.mod_add (heap_start s1 + block_size size) (-1)) by lia.
       rewrite Z.mod_small by (simpl; lia). simpl. lia. }
  rewrite (proj2 (Z.ltb_lt _ (bk_hdr b))) by (rewrite Hb; lia).
  unfold mallocBelow. rewrite (bind_Done get _ s1 s1 s1 eq_refl). cbv zeta.
  rewrite (inv_base s1 b [] bs I1), (hi_head _ _ I1). cbn [first_hdr]. change (heap_start s1) with (heap_start s).
  rewrite <- Hb. rewrite (bind_Done _ _ _ _ _ (put_header_Done s1 (bk_hdr b) _ _ _ _ Hok)).
  set (s2 := with_mem _ s1). unfold get_next. erewrite bind_Done by (apply ld_hdr; [exact Hok|done|lia]).
  assert (En : load (heap_mem s2) (bk_hdr b + 12) = bk_hdr b).
  { apply load_store. destruct Hok as (_ & ? & ?). unfold is_u32. lia. }
  rewrite En. erewrite bind_Done by (by apply put_prev_Done). unfold bind, modify, alloc_unlock, ret.
  eexists. f_equal. unfold bk_ptr, header_size. apply u32_small. destruct Hok as (_ & ? & ?). unfold is_u32. lia.
Qed.
