(* ===== verification/McUtil.v ===== *)
(** * McUtil: checks and strings of the memory card manager

    iop/memorycard/mcman/src/main.c, the routines that keep no state: the
    parity byte of a packet ([mcman_calcEDC]), the error-correcting code of a
    page ([McDataChecksum], [mcman_correctdata]), names and patterns
    ([mcman_chrpos], [mcman_checkpath], [mcman_checkdirpath]) and the wide
    multiplication.  A C string is the list of its bytes before the NUL. *)

From stdpp Require Import base numbers list.
From Stdlib Require Import ZArith Lia.
From S2P Require Import Prelude.

Open Scope Z_scope.
Open Scope c_scope.

(** [char] is signed on the IOP. *)
Definition s8 (x : Z) : Z := let y := u8 x in if y <? 128 then y else y - 256.

(** ** The error-correcting code *)

Definition mcman_xortable : list Z :=
  [0x00; 0x87; 0x96; 0x11; 0xA5; 0x22; 0x33; 0xB4; 0xB4; 0x33; 0x22; 0xA5; 0x11; 0x96; 0x87; 0x00;
   0xC3; 0x44; 0x55; 0xD2; 0x66; 0xE1; 0xF0; 0x77; 0x77; 0xF0; 0xE1; 0x66; 0xD2; 0x55; 0x44; 0xC3;
   0xD2; 0x55; 0x44; 0xC3; 0x77; 0xF0; 0xE1; 0x66; 0x66; 0xE1; 0xF0; 0x77; 0xC3; 0x44; 0x55; 0xD2;
   0x11; 0x96; 0x87; 0x00; 0xB4; 0x33; 0x22; 0xA5; 0xA5; 0x22; 0x33; 0xB4; 0x00; 0x87; 0x96; 0x11;
   0xE1; 0x66; 0x77; 0xF0; 0x44; 0xC3; 0xD2; 0x55; 0x55; 0xD2; 0xC3; 0x44; 0xF0; 0x77; 0x66; 0xE1;
   0x22; 0xA5; 0xB4; 0x33; 0x87; 0x00; 0x11; 0x96; 0x96; 0x11; 0x00; 0x87; 0x33; 0xB4; 0xA5; 0x22;
   0x33; 0xB4; 0xA5; 0x22; 0x96; 0x11; 0x00; 0x87; 0x87; 0x00; 0x11; 0x96; 0x22; 0xA5; 0xB4; 0x33;
   0xF0; 0x77; 0x66; 0xE1; 0x55; 0xD2; 0xC3; 0x44; 0x44; 0xC3; 0xD2; 0x55; 0xE1; 0x66; 0x77; 0xF0;
   0xF0; 0x77; 0x66; 0xE1; 0x55; 0xD2; 0xC3; 0x44; 0x44; 0xC3; 0xD2; 0x55; 0xE1; 0x66; 0x77; 0xF0;
   0x33; 0xB4; 0xA5; 0x22; 0x96; 0x11; 0x00; 0x87; 0x87; 0x00; 0x11; 0x96; 0x22; 0xA5; 0xB4; 0x33;
   0x22; 0xA5; 0xB4; 0x33; 0x87; 0x00; 0x11; 0x96; 0x96; 0x11; 0x00; 0x87; 0x33; 0xB4; 0xA5; 0x22;
   0xE1; 0x66; 0x77; 0xF0; 0x44; 0xC3; 0xD2; 0x55; 0x55; 0xD2; 0xC3; 0x44; 0xF0; 0x77; 0x66; 0xE1;
   0x11; 0x96; 0x87; 0x00; 0xB4; 0x33; 0x22; 0xA5; 0xA5; 0x22; 0x33; 0xB4; 0x00; 0x87; 0x96; 0x11;
   0xD2; 0x55; 0x44; 0xC3; 0x77; 0xF0; 0xE1; 0x66; 0x66; 0xE1; 0xF0; 0x77; 0xC3; 0x44; 0x55; 0xD2;
   0xC3; 0x44; 0x55; 0xD2; 0x66; 0xE1; 0xF0; 0x77; 0x77; 0xF0; 0xE1; 0x66; 0xD2; 0x55; 0x44; 0xC3;
   0x00; 0x87; 0x96; 0x11; 0xA5; 0x22; 0x33; 0xB4; 0xB4; 0x33; 0x22; 0xA5; 0x11; 0x96; 0x87; 0x00].

(** One byte of [McDataChecksum]: [a2], [a3], [t0] are [int]. *)
Definition checksumByte (i : Z) (b : Z) (acc : Z * Z * Z) : Z * Z * Z :=
  let '(a2, a3, t0) := acc in
  let v := nth (Z.to_nat b) mcman_xortable 0 in
  let a2 := Z.lxor a2 v in
  if nz (Z.land v 0x80) then (a2, Z.lxor a3 (Z.lnot i), Z.lxor t0 i) else (a2, a3, t0).

Fixpoint checksumBytes (i : Z) (p : list Z) (acc : Z * Z * Z) : Z * Z * Z :=
  match p with
  | [] => acc
  | b :: p' => checksumBytes (i + 1) p' (checksumByte i b acc)
  end.

(** The three bytes stored at [ecc] for the 128 bytes at [buf]. *)
Definition McDataChecksum (buf : list Z) : Z * Z * Z :=
  let '(a2, a3, t0) := checksumBytes 0 (take 128 buf) (0, 0, 0) in
  (Z.land (Z.lnot a2) 0x77, Z.land (Z.lnot a3) 0x7F, Z.land (Z.lnot t0) 0x7F).

(** [do { if (x & 1) n++; x >>= 1; } while (--k >= 0)]: the low [k] bits set. *)
Fixpoint countBits (k : nat) (x : Z) : Z :=
  match k with
  | O => 0
  | S k' => (if nz (Z.land x 1) then 1 else 0) + countBits k' (Z.shiftr x 1)
  end.

(** [p] is the memory from [ecc] on: a store outside it is undefined. *)
Definition mcman_correctdata (buf : list Z) (p : list Z) : option (Z * list Z) :=
  let '(e0, e1, e2) := McDataChecksum buf in
  let xor0 := Z.lxor (nth 0 p 0) e0 in
  let xor1 := Z.lxor (nth 1 p 0) e1 in
  let xor2 := Z.lxor (nth 2 p 0) e2 in
  let xor3 := Z.lxor xor1 xor2 in
  let xor4 := Z.lxor (Z.land xor0 0xf) (Z.shiftr xor0 4) in
  if negb (nz xor0) && negb (nz xor1) && negb (nz xor2) then Some (0, p)
  else if (xor3 =? 0x7f) && (xor4 =? 0x7) then
    match p !! Z.to_nat xor2 with
    | Some b => Some (-1, <[Z.to_nat xor2 := u8 (Z.lxor b (Z.shiftl 1 (Z.shiftr xor0 4)))]> p)
    | None => None
    end
  else if countBits 8 xor3 + countBits 4 xor4 =? 1 then Some (-2, p)
  else Some (-3, p).

(** ** Packets *)

Definition mcman_calcEDC (p : list Z) (size : Z) : Z :=
  Z.land (foldl Z.lxor 0 (take (Z.to_nat size) p)) 0xff.

(** ** Names *)

(** [p] is the place of the scan. *)
Fixpoint chrposFrom (p : Z) (str : list Z) (chr : Z) : Z :=
  match str with
  | [] => if 0 =? chr then p else -1
  | x :: str' => if s8 x =? chr then p else chrposFrom (p + 1) str' chr
  end.

Definition mcman_chrpos (str : list Z) (chr : Z) : Z := chrposFrom 0 str (u8 chr).

Definition mcman_checkpath (str : list Z) : bool :=
  forallb (fun c => negb ((u8 c =? 63) || (u8 c =? 42)) && negb (u8 c <? 32)) str.

(** [while (p2[0] == '?')]: [None] when [p1] ends, which is a match. *)
Fixpoint skipQuestion (p1 p2 : list Z) : option (list Z * list Z) :=
  match p2 with
  | 63 :: p2' => match p1 with [] => None | _ :: p1' => skipQuestion p1' p2' end
  | _ => Some (p1, p2)
  end.

(** [while ((p2[0] == '*') || (p2[0] == '?'))] *)
Fixpoint skipWild (p2 : list Z) : list Z :=
  match p2 with
  | c :: p2' => if (c =? 42) || (c =? 63) then skipWild p2' else p2
  | [] => []
  end.

(** The search after a star: [check] is the recursive call. *)
Fixpoint starSearch (fuel : nat) (check : list Z -> list Z -> option bool) (p1 p2 : list Z) : option bool :=
  match fuel with
  | O => None
  | S n =>
      let pos := mcman_chrpos p1 (nth 0 p2 0) in
      if pos <? 0 then Some false
      else
        let p1 := drop (Z.to_nat pos) p1 in
        match check p1 p2 with
        | None => None
        | Some true => Some true
        | Some false => starSearch n check (tail p1) p2
        end
  end.

Fixpoint mcman_checkdirpath (fuel : nat) (p1 p2 : list Z) : option bool :=
  match fuel with
  | O => None
  | S n =>
      let pos1 := mcman_chrpos p2 63 in
      let pos2 := mcman_chrpos p2 42 in
      if (pos1 <? 0) && (pos2 <? 0) then Some (bool_decide (p2 = p1))
      else
        let pos :=
          if 0 <=? pos1 then
            if 0 <=? pos2 then if pos1 <? pos2 then pos1 else pos2 else pos1
          else pos2 in
        let k := Z.to_nat pos in
        if negb (bool_decide (take k p2 = take k p1)) then Some false
        else
          match skipQuestion (drop k p1) (drop k p2) with
          | None => Some true
          | Some (p1, p2) =>
              if nth 0 p2 0 =? 42 then
                match skipWild p2 with
                | [] => Some true
                | p2' => starSearch (S (length p1)) (mcman_checkdirpath n) p1 p2'
                end
              else mcman_checkdirpath n p1 p2
          end
  end.

(** ** Arithmetic *)

(** [long] has 32 bits on the IOP. *)
Definition long_multiply (v1 v2 : Z) : Z * Z :=
  let a := Z.land (Z.shiftr v1 16) 0xffff in
  let b := Z.land v1 0xffff in
  let c := Z.land (Z.shiftr v2 16) 0xffff in
  let d := Z.land v2 0xffff in
  let LO := u32 (b * d) in
  let x := s32 (a * d + c * b) in
  let y := s32 (Z.land (Z.shiftr LO 16) 0xffff + x) in
  let LO := Z.lor (Z.land LO 0xffff) (u32 (Z.shiftl (Z.land y 0xffff) 16)) in
  let HI := Z.land (Z.shiftr y 16) 0xffff in
  (u32 (HI + a * c), LO).
