(* ===== verification/Mc.v ===== *)
(** * Mc: the cache of the memory card manager

    iop/memorycard/mcman/src/main.c: pages read with their error-correcting
    code ([McReadPage]), the cache of 36 clusters with its order of use
    ([mcman_readcluster], [mcman_addcacheentry], [mcman_flushcacheentry] and
    the rest), the file allocation table ([mcman_getFATentry],
    [mcman_setFATentry], [mcman_findfree2], [mcman_fatRseek]) and directory
    entries ([mcman_readdirentry]).  The commands of the serial bus (mcsio2.c)
    are the class [CardIO]. *)

From stdpp Require Import base numbers list.
From Stdlib Require Import ZArith Lia.
From S2P Require Import Prelude McUtil.

Open Scope Z_scope.
Open Scope c_scope.

(** ** Constants *)

Definition sceMcResSucceed : Z := 0.
Definition sceMcResChangedCard : Z := -1.
Definition sceMcResNoFormat : Z := -2.
Definition sceMcResFullDevice : Z := -3.
Definition sceMcResNoEntry : Z := -4.
Definition sceMcResFailReplace : Z := -8.
Definition sceMcTypePS1 : Z := 1.
Definition sceMcTypePS2 : Z := 2.
Definition sceMcTypePDA : Z := 3.
Definition CF_USE_ECC : Z := 1.
Definition CF_ERASE_ZEROES : Z := 16.
Definition MAX_CACHEENTRY : nat := 36.
Definition MCMAN_CLUSTERSIZE : Z := 1024.
Definition MCMAN_MAXSLOT : nat := 4.

(** ** State *)

(** [cl_data] is the slice of [mcman_cachebuf] the entry points to. *)
Record McCacheEntry := mkMce {
  cluster : Z;
  cl_data : list Z;
  mc_slot : Z;
  wr_flag : Z;
  mc_port : Z;
  rd_flag : Z
}.

Record MCDevInfo := mkDev {
  pagesize : Z;
  pages_per_cluster : Z;
  blocksize : Z;
  clusters_per_card : Z;
  alloc_offset : Z;
  alloc_end : Z;
  rootdir_cluster : Z;
  backup_block1 : Z;
  backup_block2 : Z;
  ifc_list : list Z;
  bad_block_list : list Z;
  cardtype : Z;
  cardflags : Z;
  cluster_size : Z;
  FATentries_per_cluster : Z;
  clusters_per_block : Z;
  unknown2 : Z;
  max_allocatable_clusters : Z;
  cardform : Z;
  rootdir_cluster2 : Z;
  unknown1 : Z
}.

Record MC_FHANDLE := mkFh {
  status : Z;
  wrflag : Z;
  rdflag : Z;
  fh_unknown1 : Z;
  drdflag : Z;
  fh_unknown2 : Z;
  fh_port : Z;
  fh_slot : Z;
  position : Z;
  filesize : Z;
  freeclink : Z;
  clink : Z;
  clust_offset : Z;
  field_20 : Z;
  field_24 : Z;
  field_28 : Z;
  field_2C : Z
}.

(** [mcman_dircache] (the bytes of three entries), [PS1CardFlag] and
    [mcman_fsmodtime]. *)
Record mcglobals := mkGlobals {
  dircache : list (list Z);
  ps1CardFlag : Z;
  fsmodtime : list Z
}.

(** A pointer of [mcman_pagedata]: into the data of a cache entry or into
    [mcman_backupbuf]. *)
Inductive pageptr :=
  | PCache (i : nat) (off : Z)
  | PBackup (off : Z).

(** What mcsio2.c does on the bus; [C] is the state of the cards.
    [mcman_readpage] gives the page and its spare bytes, or fails with
    [sceMcResChangedCard]; [mcman_eraseblock] is a command and, after the code
    was computed, the wait for its end.  [io_clock] is [sceCdRC]. *)
Class CardIO (C : Type) := {
  io_readpage : Z -> Z -> Z -> M C (option (list Z * list Z));
  io_writepage : Z -> Z -> Z -> list Z -> list Z -> M C Z;
  io_erase : Z -> Z -> Z -> M C bool;
  io_erase_end : Z -> Z -> M C Z;
  io_writePS1 : Z -> Z -> Z -> list Z -> M C Z;
  io_readPS1 : Z -> Z -> Z -> M C (Z * list Z);
  io_probePS1Card2 : Z -> Z -> M C Z;
  io_fillPS1backuparea : Z -> Z -> Z -> M C Z;
  io_clock : M C (bool * list Z)
}.

Record mcst (C : Type) := mkMc {
  entrycache : list McCacheEntry;          (* mcman_entrycache *)
  mccache : list nat;                      (* mcman_mccache: indices into it *)
  devinfos : list (list MCDevInfo);        (* mcman_devinfos[4][MCMAN_MAXSLOT] *)
  fatcache : list (list (list Z));         (* mcman_fatcache[2][MCMAN_MAXSLOT].entry *)
  fdhandles : list MC_FHANDLE;
  badblock : Z;
  badblock_port : Z;
  badblock_slot : Z;
  replacementcluster : list Z;
  pagebuf : list Z;                        (* mcman_pagebuf, bytes *)
  backupbuf : list Z;
  pagedata : list pageptr;
  eccdata : list Z;
  globals : mcglobals;
  card : C
}.
Arguments mkMc {C}. Arguments entrycache {C}. Arguments mccache {C}. Arguments devinfos {C}. Arguments fatcache {C}.
Arguments fdhandles {C}. Arguments badblock {C}. Arguments badblock_port {C}. Arguments badblock_slot {C}.
Arguments replacementcluster {C}. Arguments pagebuf {C}. Arguments backupbuf {C}. Arguments pagedata {C}. Arguments eccdata {C}. Arguments globals {C}. Arguments card {C}.

Section Mcman.
Context {C : Type} `{CardIO C}.
Notation MC := (M (mcst C)).

Definition with_entries (x : list McCacheEntry) (s : mcst C) : mcst C :=
  mkMc x (mccache s) (devinfos s) (fatcache s) (fdhandles s) (badblock s) (badblock_port s) (badblock_slot s)
    (replacementcluster s) (pagebuf s) (backupbuf s) (pagedata s) (eccdata s) (globals s) (card s).
Definition with_mccache (x : list nat) (s : mcst C) : mcst C :=
  mkMc (entrycache s) x (devinfos s) (fatcache s) (fdhandles s) (badblock s) (badblock_port s) (badblock_slot s)
    (replacementcluster s) (pagebuf s) (backupbuf s) (pagedata s) (eccdata s) (globals s) (card s).
Definition with_devinfos (x : list (list MCDevInfo)) (s : mcst C) : mcst C :=
  mkMc (entrycache s) (mccache s) x (fatcache s) (fdhandles s) (badblock s) (badblock_port s) (badblock_slot s)
    (replacementcluster s) (pagebuf s) (backupbuf s) (pagedata s) (eccdata s) (globals s) (card s).
Definition with_fatcache (x : list (list (list Z))) (s : mcst C) : mcst C :=
  mkMc (entrycache s) (mccache s) (devinfos s) x (fdhandles s) (badblock s) (badblock_port s) (badblock_slot s)
    (replacementcluster s) (pagebuf s) (backupbuf s) (pagedata s) (eccdata s) (globals s) (card s).
Definition with_fdhandles (x : list MC_FHANDLE) (s : mcst C) : mcst C :=
  mkMc (entrycache s) (mccache s) (devinfos s) (fatcache s) x (badblock s) (badblock_port s) (badblock_slot s)
    (replacementcluster s) (pagebuf s) (backupbuf s) (pagedata s) (eccdata s) (globals s) (card s).
Definition with_badblock (b p sl : Z) (r : list Z) (s : mcst C) : mcst C :=
  mkMc (entrycache s) (mccache s) (devinfos s) (fatcache s) (fdhandles s) b p sl
    r (pagebuf s) (backupbuf s) (pagedata s) (eccdata s) (globals s) (card s).
Definition with_bufs (pb bb : list Z) (pd : list pageptr) (e : list Z) (s : mcst C) : mcst C :=
  mkMc (entrycache s) (mccache s) (devinfos s) (fatcache s) (fdhandles s) (badblock s) (badblock_port s) (badblock_slot s)
    (replacementcluster s) pb bb pd e (globals s) (card s).
Definition with_card (c : C) (s : mcst C) : mcst C :=
  mkMc (entrycache s) (mccache s) (devinfos s) (fatcache s) (fdhandles s) (badblock s) (badblock_port s) (badblock_slot s)
    (replacementcluster s) (pagebuf s) (backupbuf s) (pagedata s) (eccdata s) (globals s) c.
Definition with_globals (g : mcglobals) (s : mcst C) : mcst C :=
  mkMc (entrycache s) (mccache s) (devinfos s) (fatcache s) (fdhandles s) (badblock s) (badblock_port s) (badblock_slot s)
    (replacementcluster s) (pagebuf s) (backupbuf s) (pagedata s) (eccdata s) g (card s).

Definition on_card {A} (m : M C A) : MC A := fun s =>
  match m (card s) with Done a c => Done a (with_card c s) | Undef => Undef | NoFuel => NoFuel end.

(** [&mcman_entrycache[i]] *)
Definition mce (i : nat) : MC McCacheEntry := fun s => match entrycache s !! i with Some e => Done e s | None => Undef end.
Definition mcmod (i : nat) (f : McCacheEntry -> McCacheEntry) : MC unit := fun s =>
  match entrycache s !! i with Some e => Done tt (with_entries (<[i := f e]> (entrycache s)) s) | None => Undef end.

(** [mcman_devinfos[port][slot]] *)
Definition devinfo (port slot : Z) : MC MCDevInfo := fun s =>
  if (port <? 0) || (slot <? 0) then Undef else
  match devinfos s !! Z.to_nat port with
  | Some l => match l !! Z.to_nat slot with Some d => Done d s | None => Undef end
  | None => Undef
  end.
Definition devinfomod (port slot : Z) (f : MCDevInfo -> MCDevInfo) : MC unit := fun s =>
  if (port <? 0) || (slot <? 0) then Undef else
  match devinfos s !! Z.to_nat port with
  | Some l => match l !! Z.to_nat slot with
      | Some d => Done tt (with_devinfos (<[Z.to_nat port := <[Z.to_nat slot := f d]> l]> (devinfos s)) s)
      | None => Undef
      end
  | None => Undef
  end.

(** [mcman_fatcache[port][slot].entry] *)
Definition fatcacheOf (port slot : Z) : MC (list Z) := fun s =>
  if (port <? 0) || (slot <? 0) then Undef else
  match fatcache s !! Z.to_nat port with
  | Some l => match l !! Z.to_nat slot with Some d => Done d s | None => Undef end
  | None => Undef
  end.
Definition fatcachemod (port slot : Z) (f : list Z -> list Z) : MC unit := fun s =>
  if (port <? 0) || (slot <? 0) then Undef else
  match fatcache s !! Z.to_nat port with
  | Some l => match l !! Z.to_nat slot with
      | Some d => Done tt (with_fatcache (<[Z.to_nat port := <[Z.to_nat slot := f d]> l]> (fatcache s)) s)
      | None => Undef
      end
  | None => Undef
  end.

Definition at_ {A} (l : list A) (i : Z) : MC A := if i <? 0 then undef else match l !! Z.to_nat i with Some x => ret x | None => undef end.

(** Fields of an entry. *)
Definition e_wr (v : Z) (e : McCacheEntry) : McCacheEntry := mkMce (cluster e) (cl_data e) (mc_slot e) (u8 v) (mc_port e) (rd_flag e).
Definition e_cluster (v : Z) (e : McCacheEntry) : McCacheEntry := mkMce v (cl_data e) (mc_slot e) (wr_flag e) (mc_port e) (rd_flag e).
Definition e_data (v : list Z) (e : McCacheEntry) : McCacheEntry := mkMce (cluster e) v (mc_slot e) (wr_flag e) (mc_port e) (rd_flag e).
Definition e_owner (port slot : Z) (e : McCacheEntry) : McCacheEntry := mkMce (cluster e) (cl_data e) (u16 slot) (wr_flag e) (u8 port) (rd_flag e).
Definition e_rd (v : Z) (e : McCacheEntry) : McCacheEntry := mkMce (cluster e) (cl_data e) (mc_slot e) (wr_flag e) (mc_port e) (u8 v).

(** [McFatCluster]: 256 [int]s. *)
Definition fatEntry (data : list Z) (k : Z) : Z :=
  let o := Z.to_nat (4 * k) in s32 (word_of_bytes (nth o data 0) (nth (o + 1) data 0) (nth (o + 2) data 0) (nth (o + 3) data 0)).
Definition setFatEntry (k v : Z) (data : list Z) : list Z :=
  let o := Z.to_nat (4 * k) in take o data ++ bytes_of_word v ++ drop (o + 4) data.

Definition put_bytes (off : Z) (bs : list Z) (b : list Z) : list Z :=
  take (Z.to_nat off) b ++ bs ++ drop (Z.to_nat off + length bs) b.

(** ** Small operations *)

Definition mcman_getcnum (port slot : Z) : Z := Z.shiftl (Z.land port 1) 3 + slot.

Definition sparesizeOf (d : MCDevInfo) : Z := Z.shiftr (pagesize d + 0x1F) 5.
Definition mcman_sparesize (port slot : Z) : MC Z := d <- devinfo port slot ;; ret (sparesizeOf d).

(** Fields of a handle. *)
Definition fh_setStatus (v : Z) (f : MC_FHANDLE) : MC_FHANDLE :=
  mkFh (u8 v) (wrflag f) (rdflag f) (fh_unknown1 f) (drdflag f) (fh_unknown2 f) (fh_port f) (fh_slot f) (position f) (filesize f)
    (freeclink f) (clink f) (clust_offset f) (field_20 f) (field_24 f) (field_28 f) (field_2C f).
Definition fh_setPlace (link off : Z) (f : MC_FHANDLE) : MC_FHANDLE :=
  mkFh (status f) (wrflag f) (rdflag f) (fh_unknown1 f) (drdflag f) (fh_unknown2 f) (fh_port f) (fh_slot f) (position f) (filesize f)
    (freeclink f) (u32 link) (u32 off) (field_20 f) (field_24 f) (field_28 f) (field_2C f).
Definition fh_setPosition (v : Z) (f : MC_FHANDLE) : MC_FHANDLE :=
  mkFh (status f) (wrflag f) (rdflag f) (fh_unknown1 f) (drdflag f) (fh_unknown2 f) (fh_port f) (fh_slot f) (u32 v) (filesize f)
    (freeclink f) (clink f) (clust_offset f) (field_20 f) (field_24 f) (field_28 f) (field_2C f).

Definition mcman_invhandles (port slot : Z) : MC unit :=
  modify (fun s => with_fdhandles (map (fun f => if (fh_port f =? port) && (fh_slot f =? slot) then fh_setStatus 0 f else f) (fdhandles s)) s).

Definition mcman_getFATindex (port slot num : Z) : MC Z := l <- fatcacheOf port slot ;; at_ l num.

(** ** Pages *)

(** The 128-byte pieces of a page: [k] is the piece, [ecc] the bytes of
    [eccbuf].  Result: [ecres] and [eccbuf]. *)
Fixpoint correctPieces (n : nat) (k : nat) (buf ecc : list Z) (ecres : Z) : option (Z * list Z) :=
  match n with
  | O => Some (ecres, ecc)
  | S n' =>
      match mcman_correctdata (drop (128 * k) buf) (drop (3 * k) ecc) with
      | None => None
      | Some (r, p) => correctPieces n' (S k) buf (take (3 * k) ecc ++ p) (if r <? ecres then r else ecres)
      end
  end.

(** One of the five reads: on, with [ecres], the page and [eccbuf], or done. *)
Definition readAttempt (d : MCDevInfo) (port slot page : Z) (retries : Z) (st : Z * list Z * list Z) : MC (Z * list Z * list Z + list Z) :=
  let '(ecres, buf, eccbuf) := st in
  let count := Z.shiftr (pagesize d + 127) 7 in
  let erase_byte := if nz (Z.land (cardflags d) CF_ERASE_ZEROES) then 0x0 else 0xFF in
  r <- on_card (io_readpage port slot page) ;;
  match r with
  | None => ret (inl (ecres, buf, eccbuf))
  | Some (data, spare) =>
      let buf := put_bytes 0 data buf in
      let eccbuf := put_bytes 0 spare eccbuf in
      if nz (Z.land (cardflags d) CF_USE_ECC) then
        last <- at_ eccbuf (sparesizeOf d - 1) ;;
        if last =? erase_byte then ret (inr buf)
        else
          match correctPieces (Z.to_nat count) 0 buf eccbuf ecres with
          | None => undef
          | Some (ecres, eccbuf) =>
              if ecres =? sceMcResSucceed then ret (inr buf)
              else if (retries =? 4) && negb (ecres <? sceMcResNoFormat) then ret (inr buf)
              else ret (inl (ecres, buf, eccbuf))
          end
      else ret (inl (ecres, buf, eccbuf))
  end.

(** Result: the return value and the page in [buf].  [junk] is what the
    32 bytes of [eccbuf] hold at first. *)
Definition McReadPage (junk : list Z) (port slot page : Z) (buf : list Z) : MC (Z * list Z) :=
  d <- devinfo port slot ;;
  r <- for_break [0; 1; 2; 3; 4] (readAttempt d port slot page) (sceMcResSucceed, buf, junk) ;;
  match r with
  | inr buf => ret (sceMcResSucceed, buf)
  | inl (ecres, buf, _) => ret (if negb (ecres =? sceMcResSucceed) then sceMcResNoFormat else sceMcResChangedCard, buf)
  end.

(** ** The cache *)

(** [unknown3] to [unknown5] of the devices, which are set to -1 here and there
    and never read, are left out. *)
Definition mcman_initcache : MC unit :=
  for_ (seq 0 MAX_CACHEENTRY) (fun i _ =>
    modify (fun s => with_mccache (<[i := (MAX_CACHEENTRY - 1 - i)%nat]> (mccache s)) s) ;;;
    mcmod i (e_cluster (-1))) tt ;;;
  modify (fun s => with_fatcache (map (map (fun l => 0 :: replicate (length l - 1) (-1))) (fatcache s)) s).

(** [mcman_clearcache], the second loop: entries without a cluster go behind
    those with one. *)
Fixpoint nextValid (es : list McCacheEntry) (l : list nat) (j : nat) (n : nat) : option nat :=
  match n with
  | O => None
  | S n' =>
      match l !! j ≫= (fun k => es !! k) with
      | Some e => if 0 <=? cluster e then Some j else nextValid es l (S j) n'
      | None => None
      end
  end.

Definition swap (i j : nat) (l : list nat) : list nat :=
  match l !! i, l !! j with Some a, Some b => <[i := b]> (<[j := a]> l) | _, _ => l end.

Fixpoint compact (es : list McCacheEntry) (idx : list nat) (l : list nat) : list nat :=
  match idx with
  | [] => l
  | i :: idx' =>
      match l !! i ≫= (fun k => es !! k) with
      | Some e =>
          if cluster e <? 0 then
            match nextValid es l (S i) (MAX_CACHEENTRY - S i) with
            | None => l
            | Some j => compact es idx' (swap i j l)
            end
          else compact es idx' l
      | None => l
      end
  end.

Definition owned (port slot : Z) (e : McCacheEntry) : bool := (mc_port e =? port) && (mc_slot e =? slot).

Definition mcman_clearcache (port slot : Z) : MC Z :=
  for_ (rev (seq 0 MAX_CACHEENTRY)) (fun i _ =>
    l <- gets mccache ;;
    e <- at_ l (Z.of_nat i) ;;
    mcmod e (fun c => if owned port slot c && (0 <=? cluster c) then e_owner (-1) (-1) (e_wr 0 (e_cluster (-1) c)) else c)) tt ;;;
  modify (fun s => with_mccache (compact (entrycache s) (seq 0 (MAX_CACHEENTRY - 1)) (mccache s)) s) ;;;
  fatcachemod port slot (fun l => 0 :: replicate (length l - 1) (-1)) ;;;
  ret sceMcResSucceed.

Definition isCluster (port slot clust : Z) (e : McCacheEntry) : bool := owned port slot e && (cluster e =? clust).

Fixpoint findEntry (f : McCacheEntry -> bool) (i : nat) (es : list McCacheEntry) : option nat :=
  match es with
  | [] => None
  | e :: es' => if f e then Some i else findEntry f (S i) es'
  end.

Definition mcman_getcacheentry (port slot clust : Z) : MC (option nat) :=
  gets (fun s => findEntry (isCluster port slot clust) 0 (entrycache s)).

Definition mcman_freecluster (port slot clust : Z) : MC unit :=
  modify (fun s => with_entries (map (fun e => if isCluster port slot clust e then e_wr 0 (e_cluster (-1) e) else e) (entrycache s)) s).

(** [*pmcman_mccache] *)
Definition mcman_get1stcacheEntp : MC nat := l <- gets mccache ;; at_ l 0.

Definition mcman_1stcacheEntsetwrflagoff : MC unit := i <- mcman_get1stcacheEntp ;; mcmod i (e_wr (-1)).

(** The last place of [e] in the order. *)
Fixpoint lastPlace (e : nat) (n : nat) (l : list nat) : option nat :=
  match n with
  | O => None
  | S n' => if bool_decide (l !! n' = Some e) then Some n' else lastPlace e n' l
  end.

(** [do { pmce[i] = pmce[i-1]; } while (--i != 0)] *)
Fixpoint shiftDown (i : nat) (l : list nat) : list nat :=
  match i with
  | O => l
  | S i' => shiftDown i' (match l !! i' with Some x => <[i := x]> l | None => l end)
  end.

Definition mcman_addcacheentry (e : nat) : MC unit :=
  l <- gets mccache ;;
  match lastPlace e MAX_CACHEENTRY l with
  | None => undef
  | Some i => modify (with_mccache (<[0%nat := e]> (shiftDown i l)))
  end.

(** ** Writing back *)

Definition ptrData (p : pageptr) (size : Z) : MC (list Z) :=
  match p with
  | PCache i off => e <- mce i ;; ret (take (Z.to_nat size) (drop (Z.to_nat off) (cl_data e)))
  | PBackup off => b <- gets backupbuf ;; ret (take (Z.to_nat size) (drop (Z.to_nat off) b))
  end.

(** The code of [size >> 7] pieces, 3 bytes each. *)
Fixpoint eccOf (n : nat) (data : list Z) : list Z :=
  match n with
  | O => []
  | S n' => let '(a, b, c) := McDataChecksum data in a :: b :: c :: eccOf n' (drop 128 data)
  end.

(** [mcman_eraseblock] of mcsio2.c; [pages] is [pagebuf], whose code goes to
    [mcman_eccdata]. *)
Definition mcman_eraseblock (port slot block : Z) (pages : option (list pageptr)) : MC Z :=
  d <- devinfo port slot ;;
  ok <- on_card (io_erase port slot (s32 (block * blocksize d))) ;;
  if negb ok then ret sceMcResChangedCard
  else
    match pages with
    | None => ret tt
    | Some ps =>
        modify (fun s => with_bufs (pagebuf s) (backupbuf s) (pagedata s) (put_bytes 0 (replicate 32 0) (eccdata s)) s) ;;;
        for_ (seq 0 (Z.to_nat (blocksize d))) (fun k _ =>
          p <- at_ ps (Z.of_nat k) ;;
          data <- ptrData p (pagesize d) ;;
          modify (fun s => with_bufs (pagebuf s) (backupbuf s) (pagedata s)
            (put_bytes (Z.shiftr (Z.of_nat k * pagesize d) 5) (eccOf (Z.to_nat (Z.shiftr (pagesize d + 127) 7)) data) (eccdata s)) s)) tt
    end ;;;
    on_card (io_erase_end port slot).

Definition mcman_replaceBackupBlock (port slot block : Z) : MC Z :=
  b <- gets badblock ;;
  if 0 <? b then ret sceMcResFailReplace
  else
    d <- devinfo port slot ;;
    match list_find (fun x => x = -1) (take 16 (bad_block_list d)) with
    | None => ret sceMcResFullDevice
    | Some (i, _) =>
        if u32 (alloc_end d - max_allocatable_clusters d) <? 8 then ret sceMcResFullDevice
        else
          let e := u32 (alloc_end d - 8) in
          devinfomod port slot (fun d => mkDev (pagesize d) (pages_per_cluster d) (blocksize d) (clusters_per_card d) (alloc_offset d) e
            (rootdir_cluster d) (backup_block1 d) (backup_block2 d) (ifc_list d) (<[i := block]> (bad_block_list d)) (cardtype d) (cardflags d)
            (cluster_size d) (FATentries_per_cluster d) (clusters_per_block d) (unknown2 d) (max_allocatable_clusters d) (cardform d) (rootdir_cluster2 d) (unknown1 d)) ;;;
          modify (fun s => with_badblock (-1) port slot (replacementcluster s) s) ;;;
          if clusters_per_block d =? 0 then undef
          else ret (s32 (u32 (alloc_offset d + e) / clusters_per_block d))
    end.

(** Pages [idx] of block [base], from [pages] with the code in
    [mcman_eccdata]: the first error, or 0. *)
Fixpoint writePages (port slot : Z) (d : MCDevInfo) (base : Z) (pages : list pageptr) (idx : list nat) : MC Z :=
  match idx with
  | [] => ret sceMcResSucceed
  | i :: idx' =>
      p <- at_ pages (Z.of_nat i) ;;
      data <- ptrData p (pagesize d) ;;
      ecc <- gets eccdata ;;
      r <- on_card (io_writepage port slot (base + Z.of_nat i) data (take (Z.to_nat (sparesizeOf d)) (drop (i * Z.to_nat (sparesizeOf d)) ecc))) ;;
      if negb (r =? sceMcResSucceed) then ret r else writePages port slot d base pages idx'
  end.

Definition mcman_fillbackupblock1 (port slot block : Z) : MC Z :=
  d <- devinfo port slot ;;
  b <- gets badblock ;; bp <- gets badblock_port ;; bs <- gets badblock_slot ;;
  if nz b && (negb (b =? block) || negb (bp =? port) || negb (bs =? slot)) then ret sceMcResFailReplace
  else if clusters_per_block d =? 0 then undef
  else if u32 (alloc_offset d) / clusters_per_block d =? u32 block then ret sceMcResFailReplace
  else
    r <- mcman_eraseblock port slot (backup_block2 d) None ;;
    if negb (r =? sceMcResSucceed) then ret r
    else
      r <- mcman_eraseblock port slot (backup_block1 d) None ;;
      if negb (r =? sceMcResSucceed) then ret r
      else if negb (existsb (fun x => x =? -1) (take 16 (bad_block_list d))) then ret sceMcResFailReplace
      else
        pages <- gets pagedata ;;
        r <- writePages port slot d (backup_block1 d * blocksize d) pages (seq 0 (Z.to_nat (blocksize d))) ;;
        if negb (r =? sceMcResSucceed) then ret r
        else
          modify (with_badblock block port slot (replicate 16 0)) ;;;
          ret sceMcResSucceed.

(** *** [mcman_flushcacheentry] *)

(** A PS1 card or a PDA.  [j] is the page in the cluster, [i] the one on the
    card; [while (j++)] after [j--] looks for a page to write from [j] on. *)
Fixpoint ps1WriteFrom (n : nat) (e : nat) (pagesize0 : Z) (j i r : Z) : MC (Z * Z * Z + Z) :=
  match n with
  | O => ret (inl (j, i, r))
  | S n' =>
      c <- mce e ;;
      if nz (Z.land (Z.shiftr (wr_flag c) j) 1) then
        r <- on_card (io_writePS1 (mc_port c) (mc_slot c) i (take (Z.to_nat pagesize0) (drop (Z.to_nat (pagesize0 * j)) (cl_data c)))) ;;
        if r =? sceMcResFailReplace then ret (inl (j, i, r))
        else if negb (r =? sceMcResSucceed) then ret (inr (-50))
        else ps1WriteFrom n' e pagesize0 (j + 1) (i + 1) r
      else ps1WriteFrom n' e pagesize0 (j + 1) (i + 1) r
  end.

(** The search of [while (j++)]: [None] when the loop ends at [j] = 0. *)
Fixpoint ps1Dirty (n : nat) (wr j : Z) : option (option Z) :=
  match n with
  | O => None
  | S n' =>
      if nz (Z.land (Z.shiftr wr j) 1) then Some (Some j)
      else if j =? 0 then Some None
      else ps1Dirty n' wr (j + 1)
  end.

Definition flushPS1 (fuel : nat) (e : nat) (d : MCDevInfo) : MC Z :=
  c <- mce e ;;
  if pagesize d =? 0 then undef else
  let pages := Z.quot MCMAN_CLUSTERSIZE (pagesize d) in
  let done := mcmod e (e_wr 0) ;;; ret sceMcResSucceed in
  while_ fuel (fun '(j, i, r) =>
    w <- ps1WriteFrom (Z.to_nat (pages - j)) e (pagesize d) j i r ;;
    match w with
    | inr r => ret (inr r)
    | inl (j, i, r) =>
        c <- mce e ;;
        r <- (if j =? pages then
                r <- on_card (io_probePS1Card2 (mc_port c) (mc_slot c)) ;;
                ret (if r =? -14 then sceMcResFailReplace else r)
              else ret r) ;;
        if negb (cardtype d =? sceMcTypePS1) then
          if r =? sceMcResFailReplace then ret (inr r) else x <- done ;; ret (inr x)
        else if negb (r =? 8) then x <- done ;; ret (inr x)
        else if Z.land (wr_flag c) (Z.lnot (Z.shiftl (-1) j)) =? 0 then x <- done ;; ret (inr x)
        else if j =? 0 then x <- done ;; ret (inr x)
        else
          match ps1Dirty 32 (wr_flag c) (j - 1) with
          | None => undef
          | Some None => x <- done ;; ret (inr x)
          | Some (Some j) =>
              r <- on_card (io_fillPS1backuparea (mc_port c) (mc_slot c) (i - 1)) ;;
              if negb (r =? sceMcResSucceed) then ret (inr sceMcResFailReplace)
              else ret (inl (j, i - 1, r))
          end
    end) (0, cluster c, 0).

(** The entries of one erase block: [pmce] by cluster in the block, and
    whether one of them was not written since it was read ([flag]). *)
Fixpoint blockEntries (k : nat) (es : list McCacheEntry) (port slot block cpb : Z) (pmce : list (option nat)) (flag : bool)
  : MC (list (option nat) * bool) :=
  match es with
  | [] => ret (pmce, flag)
  | e :: es' =>
      if owned port slot e && (Z.quot (cluster e) cpb =? block) then
        let t := Z.rem (cluster e) cpb in
        if (t <? 0) || (16 <=? t) then undef
        else blockEntries (S k) es' port slot block cpb (<[Z.to_nat t := Some k]> pmce) (flag || (rd_flag e =? 0))
      else blockEntries (S k) es' port slot block cpb pmce flag
  end.

(** [mcman_pagedata]: the pages of the entries, and the others read from the
    card into [mcman_backupbuf].  [false] when a page cannot be read. *)
Definition gatherPages (junk : list Z) (port slot block : Z) (d : MCDevInfo) (pmce : list (option nat)) : MC bool :=
  r <- for_break (seq 0 (Z.to_nat (clusters_per_block d * pages_per_cluster d))) (fun k _ =>
    let i := (Z.of_nat k / pages_per_cluster d)%Z in
    let j := (Z.of_nat k mod pages_per_cluster d)%Z in
    match pmce !! Z.to_nat i with
    | Some (Some e) =>
        modify (fun s => with_bufs (pagebuf s) (backupbuf s) (<[k := PCache e (j * pagesize d)]> (pagedata s)) (eccdata s) s) ;;;
        ret (inl tt)
    | Some None =>
        let offset := Z.of_nat k * pagesize d in
        modify (fun s => with_bufs (pagebuf s) (backupbuf s) (<[k := PBackup offset]> (pagedata s)) (eccdata s) s) ;;;
        b <- gets backupbuf ;;
        let* (r, data) := McReadPage junk port slot ((block * clusters_per_block d + i) * pages_per_cluster d + j)
                            (take (Z.to_nat (pagesize d)) (drop (Z.to_nat offset) b)) in
        modify (fun s => with_bufs (pagebuf s) (put_bytes offset data (backupbuf s)) (pagedata s) (eccdata s) s) ;;;
        if negb (r =? sceMcResSucceed) then ret (inr tt) else ret (inl tt)
    | None => undef
    end) tt ;;
  ret (match r with inl _ => true | inr _ => false end).

Definition set_backup1 (v : Z) (d : MCDevInfo) : MCDevInfo :=
  mkDev (pagesize d) (pages_per_cluster d) (blocksize d) (clusters_per_card d) (alloc_offset d) (alloc_end d)
    (rootdir_cluster d) (u32 v) (backup_block2 d) (ifc_list d) (bad_block_list d) (cardtype d) (cardflags d)
    (cluster_size d) (FATentries_per_cluster d) (clusters_per_block d) (unknown2 d) (max_allocatable_clusters d) (cardform d) (rootdir_cluster2 d) (unknown1 d).
Definition set_backup2 (v : Z) (d : MCDevInfo) : MCDevInfo :=
  mkDev (pagesize d) (pages_per_cluster d) (blocksize d) (clusters_per_card d) (alloc_offset d) (alloc_end d)
    (rootdir_cluster d) (backup_block1 d) (u32 v) (ifc_list d) (bad_block_list d) (cardtype d) (cardflags d)
    (cluster_size d) (FATentries_per_cluster d) (clusters_per_block d) (unknown2 d) (max_allocatable_clusters d) (cardform d) (rootdir_cluster2 d) (unknown1 d).

(** Where a step of the flush goes: on, to the labels lbl2 and lbl3, or out. *)
Inductive flushTo := FOn | FReplace1 | FReplace2 | FOut (r : Z).

(** The copy in the backup blocks: which block it is, its pages, and a second
    mark that the copy is complete. *)
Definition flushBackup (port slot block : Z) (d : MCDevInfo) : MC flushTo :=
  pages <- gets pagedata ;;
  r <- mcman_eraseblock port slot (backup_block1 d) (Some pages) ;;
  if r =? sceMcResFailReplace then ret FReplace1
  else if negb (r =? sceMcResSucceed) then ret (FOut (-52))
  else
    modify (fun s => with_bufs (put_bytes 0 (bytes_of_word (Z.lor (u32 block) 0x80000000)) (pagebuf s)) (backupbuf s) (pagedata s) (eccdata s) s) ;;;
    pb <- gets pagebuf ;;
    let page := take (Z.to_nat (pagesize d)) pb in
    let ecc := take (Z.to_nat (sparesizeOf d)) (eccOf (Z.to_nat (Z.shiftr (pagesize d) 7)) page ++ replicate 32 0) in
    r <- on_card (io_writepage port slot (backup_block2 d * blocksize d) page ecc) ;;
    if r =? sceMcResFailReplace then ret FReplace2
    else if negb (r =? sceMcResSucceed) then ret (FOut (-53))
    else
      r <- writePages port slot d (backup_block1 d * blocksize d) pages (seq 0 (Z.to_nat (blocksize d))) ;;
      if r =? sceMcResFailReplace then ret FReplace1
      else if negb (r =? sceMcResSucceed) then ret (FOut (-54))
      else
        r <- on_card (io_writepage port slot (backup_block2 d * blocksize d + 1) page ecc) ;;
        if r =? sceMcResFailReplace then ret FReplace2
        else if negb (r =? sceMcResSucceed) then ret (FOut (-55))
        else ret FOn.

Definition clearWritten (pmce : list (option nat)) (n : nat) : MC unit :=
  for_ (take n pmce) (fun o _ => match o with Some e => mcmod e (e_wr 0) | None => ret tt end) tt.

(** The bad block is kept in the backup block. *)
Definition flushBad (port slot block : Z) (d : MCDevInfo) (pmce : list (option nat)) : MC flushTo :=
  r <- mcman_fillbackupblock1 port slot block ;;
  clearWritten pmce (Z.to_nat (clusters_per_block d)) ;;;
  ret (FOut (if r =? sceMcResFailReplace then r else -58)).

(** Pages [k] of the block with a cached cluster, or without one. *)
Definition cachedPage (d : MCDevInfo) (pmce : list (option nat)) (k : nat) : bool :=
  match pmce !! Z.to_nat (Z.of_nat k / pages_per_cluster d) with Some (Some _) => true | _ => false end.

Definition flushBlock (port slot block : Z) (d : MCDevInfo) (pmce : list (option nat)) : MC flushTo :=
  pages <- gets pagedata ;;
  r <- mcman_eraseblock port slot block (Some pages) ;;
  if r =? sceMcResFailReplace then flushBad port slot block d pmce
  else if negb (r =? sceMcResSucceed) then ret (FOut (-57))
  else
    let all := seq 0 (Z.to_nat (blocksize d)) in
    r <- writePages port slot d (block * blocksize d) pages (List.filter (fun k => negb (cachedPage d pmce k)) all) ;;
    if r =? sceMcResFailReplace then flushBad port slot block d pmce
    else if negb (r =? sceMcResSucceed) then ret (FOut (-57))
    else
      r <- writePages port slot d (block * blocksize d) pages (List.filter (cachedPage d pmce) all) ;;
      if r =? sceMcResFailReplace then flushBad port slot block d pmce
      else if negb (r =? sceMcResSucceed) then ret (FOut (-57))
      else
        clearWritten pmce (Z.to_nat (clusters_per_block d)) ;;;
        ret FOn.

(** A PS2 card: the loop is the [goto]s to lbl1. *)
Definition flushPS2 (fuel : nat) (junk : list Z) (e : nat) (d : MCDevInfo) : MC Z :=
  c <- mce e ;;
  let port := mc_port c in
  let slot := mc_slot c in
  if clusters_per_block d =? 0 then undef else
  if pages_per_cluster d =? 0 then undef else
  let block := s32 (u32 (cluster c) / clusters_per_block d) in
  es <- gets entrycache ;;
  let* (pmce, flag) := blockEntries 0 es port slot block (clusters_per_block d) (replicate 16 None) false in
  ok <- gatherPages junk port slot block d pmce ;;
  if negb ok then ret (-51)
  else
    while_ fuel (fun _ : unit =>
      d <- devinfo port slot ;;
      b <- gets badblock ;;
      t <- (if flag && (b <=? 0) then flushBackup port slot block d else ret FOn) ;;
      t <- match t with FOn => flushBlock port slot block d pmce | _ => ret t end ;;
      t <- match t with
           | FOn =>
               b <- gets badblock ;;
               if flag && (b <=? 0) then
                 r <- mcman_eraseblock port slot (backup_block2 d) None ;;
                 ret (if r =? sceMcResFailReplace then FReplace2
                      else if negb (r =? sceMcResSucceed) then FOut (-58) else FOn)
               else ret FOn
           | _ => ret t
           end ;;
      match t with
      | FOn => ret (inr sceMcResSucceed)
      | FOut r => ret (inr r)
      | FReplace1 => r <- mcman_replaceBackupBlock port slot (backup_block1 d) ;; devinfomod port slot (set_backup1 r) ;;; ret (inl tt)
      | FReplace2 => r <- mcman_replaceBackupBlock port slot (backup_block2 d) ;; devinfomod port slot (set_backup2 r) ;;; ret (inl tt)
      end) tt.

Definition mcman_flushcacheentry (fuel : nat) (junk : list Z) (e : nat) : MC Z :=
  c <- mce e ;;
  if wr_flag c =? 0 then ret sceMcResSucceed
  else
    d <- devinfo (mc_port c) (mc_slot c) ;;
    if cardtype d =? 0 then mcmod e (e_wr 0) ;;; ret sceMcResSucceed
    else if (cardtype d =? sceMcTypePS1) || (cardtype d =? sceMcTypePDA) then flushPS1 fuel e d
    else flushPS2 fuel junk e d.

(** Every written entry of a card, from the least recently used. *)
Definition mcman_flushmccache (fuel : nat) (junk : list Z) (port slot : Z) : MC Z :=
  r <- for_break (rev (seq 0 MAX_CACHEENTRY)) (fun i _ =>
    l <- gets mccache ;;
    e <- at_ l (Z.of_nat i) ;;
    c <- mce e ;;
    if owned port slot c && negb (wr_flag c =? 0) then
      r <- mcman_flushcacheentry fuel junk e ;;
      if negb (r =? sceMcResSucceed) then ret (inr r) else ret (inl tt)
    else ret (inl tt)) tt ;;
  ret (match r with inl _ => sceMcResSucceed | inr r => r end).

(** ** Clusters *)

(** The cluster a bad block is replaced by. *)
Definition redirect (s : mcst C) (d : MCDevInfo) (port slot clust : Z) : Z :=
  if 0 <? badblock s then
    let block := u32 clust / clusters_per_block d in
    let off := u32 clust mod clusters_per_block d in
    if (block =? badblock s) && (badblock_port s =? port) && (badblock_slot s =? slot)
    then s32 (backup_block1 d * clusters_per_block d + off)
    else foldl (fun c i =>
      if negb (nth i (replacementcluster s) 0 =? 0) && (nth i (replacementcluster s) 0 =? c)
      then s32 (backup_block1 d * clusters_per_block d + Z.of_nat i mod clusters_per_block d) else c)
      clust (seq 0 (Z.to_nat (clusters_per_block d)))
  else clust.

(** The pages of a cluster read into entry [e]. *)
Definition loadPages (junk : list Z) (port slot clust : Z) (d : MCDevInfo) (e : nat) : MC bool :=
  r <- for_break (seq 0 (Z.to_nat (pages_per_cluster d))) (fun i _ =>
    c <- mce e ;;
    let off := Z.of_nat i * pagesize d in
    let* (r, data) := McReadPage junk port slot (clust * pages_per_cluster d + Z.of_nat i)
                        (take (Z.to_nat (pagesize d)) (drop (Z.to_nat off) (cl_data c))) in
    mcmod e (fun c => e_data (put_bytes off data (cl_data c)) c) ;;;
    if negb (r =? sceMcResSucceed) then ret (inr tt) else ret (inl tt)) tt ;;
  ret (match r with inl _ => true | inr _ => false end).

(** Result: the return value and [*pmce]. *)
Definition mcman_readcluster (fuel : nat) (junk : list Z) (port slot clust : Z) : MC (Z * option nat) :=
  d <- devinfo port slot ;;
  bad <- gets badblock ;;
  if (0 <? bad) && (clusters_per_block d =? 0) then undef else
  clust <- gets (fun s => redirect s d port slot clust) ;;
  hit <- mcman_getcacheentry port slot clust ;;
  match hit with
  | Some e => mcman_addcacheentry e ;;; ret (sceMcResSucceed, Some e)
  | None =>
      l <- gets mccache ;;
      e <- at_ l (Z.of_nat MAX_CACHEENTRY - 1) ;;
      c <- mce e ;;
      r <- (if negb (wr_flag c =? 0) then mcman_flushcacheentry fuel junk e else ret sceMcResSucceed) ;;
      if negb (r =? sceMcResSucceed) then ret (r, None)
      else
        mcmod e (fun c => e_rd 0 (e_cluster clust (e_owner port slot c))) ;;;
        ok <- loadPages junk port slot clust d e ;;
        if negb ok then ret (-21, None)
        else mcman_addcacheentry e ;;; ret (sceMcResSucceed, Some e)
  end.

(** [mcman_readclusterPS1] *)
Definition mcman_readclusterPS1 (fuel : nat) (junk : list Z) (port slot clust : Z) : MC (Z * option nat) :=
  hit <- mcman_getcacheentry port slot clust ;;
  match hit with
  | Some e => mcman_addcacheentry e ;;; ret (sceMcResSucceed, Some e)
  | None =>
      l <- gets mccache ;;
      e <- at_ l (Z.of_nat MAX_CACHEENTRY - 1) ;;
      c <- mce e ;;
      r <- (if negb (wr_flag c =? 0) then mcman_flushcacheentry fuel junk e else ret sceMcResSucceed) ;;
      if negb (r =? sceMcResSucceed) then ret (r, None)
      else
        d <- devinfo port slot ;;
        mcmod e (fun c => e_cluster clust (e_owner port slot c)) ;;;
        if pagesize d =? 0 then undef else
        r <- for_break (seq 0 (Z.to_nat (Z.quot MCMAN_CLUSTERSIZE (pagesize d)))) (fun i _ =>
          let* (r, data) := on_card (io_readPS1 port slot (clust + Z.of_nat i)) in
          mcmod e (fun c => e_data (put_bytes (Z.of_nat i * pagesize d) data (cl_data c)) c) ;;;
          if negb (r =? sceMcResSucceed) then ret (inr tt) else ret (inl tt)) tt ;;
        match r with
        | inr _ => ret (-21, None)
        | inl _ => mcman_addcacheentry e ;;; ret (sceMcResSucceed, Some e)
        end
  end.

(** ** The file allocation table *)

(** The cluster of the table that has entry [fat_index], by way of the
    indirect cluster: the entry of the cache, or one of two errors. *)
Definition fatCluster (fuel : nat) (junk : list Z) (port slot fat_index err1 err2 : Z) : MC (nat * Z + Z) :=
  d <- devinfo port slot ;;
  if FATentries_per_cluster d =? 0 then undef else
  let indirect_index := s32 (u32 fat_index / FATentries_per_cluster d) in
  let fat_offset := s32 (u32 fat_index mod FATentries_per_cluster d) in
  let ifc_index := s32 (u32 indirect_index / FATentries_per_cluster d) in
  let indirect_offset := s32 (u32 indirect_index mod FATentries_per_cluster d) in
  ifc <- at_ (ifc_list d) ifc_index ;;
  let* (r, e) := mcman_readcluster fuel junk port slot (s32 ifc) in
  match e with
  | None => ret (inr err1)
  | Some e =>
      c <- mce e ;;
      let* (r, e) := mcman_readcluster fuel junk port slot (fatEntry (cl_data c) indirect_offset) in
      match e with
      | None => ret (inr err2)
      | Some e => ret (inl (e, fat_offset))
      end
  end.

(** Result: the return value and [*fat_entry] when it is 0. *)
Definition mcman_getFATentry (fuel : nat) (junk : list Z) (port slot fat_index : Z) : MC (Z * Z) :=
  r <- fatCluster fuel junk port slot fat_index (-78) (-79) ;;
  match r with
  | inr err => ret (err, 0)
  | inl (e, off) => c <- mce e ;; ret (sceMcResSucceed, fatEntry (cl_data c) off)
  end.

Definition mcman_setFATentry (fuel : nat) (junk : list Z) (port slot fat_index fat_entry : Z) : MC Z :=
  r <- fatCluster fuel junk port slot fat_index (-75) (-76) ;;
  match r with
  | inr err => ret err
  | inl (e, off) => mcmod e (fun c => e_wr 1 (e_data (setFatEntry off fat_entry (cl_data c)) c)) ;;; ret sceMcResSucceed
  end.

Definition set_unknown2 (v : Z) (d : MCDevInfo) : MCDevInfo :=
  mkDev (pagesize d) (pages_per_cluster d) (blocksize d) (clusters_per_card d) (alloc_offset d) (alloc_end d)
    (rootdir_cluster d) (backup_block1 d) (backup_block2 d) (ifc_list d) (bad_block_list d) (cardtype d) (cardflags d)
    (cluster_size d) (FATentries_per_cluster d) (clusters_per_block d) v (max_allocatable_clusters d) (cardform d) (rootdir_cluster2 d) (unknown1 d).

(** The loop over the table; [cur] is [mce2], [rfree] the entries counted. *)
Definition findfreeStep (fuel : nat) (junk : list Z) (port slot : Z) (reserve : bool) (start : Z)
  : Z * option nat * Z -> MC ((Z * option nat * Z) + Z) := fun '(fat_index, cur, rfree) =>
  d <- devinfo port slot ;;
  if negb (fat_index <? max_allocatable_clusters d) then
    ret (inr (if reserve then sceMcResFullDevice else if nz rfree then rfree else sceMcResFullDevice))
  else if FATentries_per_cluster d =? 0 then undef
  else
    let indirect_index := fat_index / FATentries_per_cluster d in
    let fat_offset := fat_index mod FATentries_per_cluster d in
    cur <- (if (fat_offset =? 0) || (fat_index =? start) then
              ifc <- at_ (ifc_list d) (indirect_index / FATentries_per_cluster d) ;;
              let* (r, e) := mcman_readcluster fuel junk port slot (s32 ifc) in
              match e with
              | None => ret (inr r)
              | Some e =>
                  c <- mce e ;;
                  let* (r, e2) := mcman_readcluster fuel junk port slot (fatEntry (cl_data c) (indirect_index mod FATentries_per_cluster d)) in
                  match e2 with None => ret (inr r) | Some e2 => ret (inl (Some e2)) end
              end
            else ret (inl cur)) ;;
    match cur with
    | inr r => ret (inr r)
    | inl None => undef
    | inl (Some e) =>
        c <- mce e ;;
        bad <- gets badblock ;;
        if 0 <=? fatEntry (cl_data c) fat_offset then
          if clusters_per_block d =? 0 then undef else
          let block := u32 (alloc_offset d + fat_offset) / clusters_per_block d in
          if negb (s32 block =? bad) then
            if reserve then
              mcmod e (fun c => e_wr 1 (e_data (setFatEntry fat_offset 0xffffffff (cl_data c)) c)) ;;;
              devinfomod port slot (set_unknown2 fat_index) ;;;
              ret (inr fat_index)
            else ret (inl (fat_index + 1, Some e, rfree + 1))
          else ret (inl (fat_index + 1, Some e, rfree))
        else ret (inl (fat_index + 1, Some e, rfree))
    end.

Definition mcman_findfree2 (fuel : nat) (junk : list Z) (port slot : Z) (reserve : bool) : MC Z :=
  d <- devinfo port slot ;;
  while_ fuel (findfreeStep fuel junk port slot reserve (unknown2 d)) (unknown2 d, None, 0).

(** ** Files and directories *)

Definition fhandle (fd : nat) : MC MC_FHANDLE := fun s => match fdhandles s !! fd with Some f => Done f s | None => Undef end.
Definition fhmod (fd : nat) (f : MC_FHANDLE -> MC_FHANDLE) : MC unit := fun s =>
  match fdhandles s !! fd with Some h => Done tt (with_fdhandles (<[fd := f h]> (fdhandles s)) s) | None => Undef end.

(** The walk along the chain, which keeps its place in the handle. *)
Definition fatSeekStep (fuel : nat) (junk : list Z) (fd : nat) (d : MCDevInfo) : Z * Z -> MC ((Z * Z) + Z) :=
  fun '(fat_index, entries) =>
  fh <- fhandle fd ;;
  let* (r, fat_entry) := mcman_getFATentry fuel junk (fh_port fh) (fh_slot fh) fat_index in
  if negb (r =? sceMcResSucceed) then ret (inr r)
  else if -1 <=? fat_entry then ret (inr sceMcResFullDevice)
  else
    let entries := entries - 1 in
    let fat_index := Z.land fat_entry 0x7fffffff in
    fhmod fd (fun f => fh_setPlace fat_index (position f / cluster_size d - entries) f) ;;;
    if 0 <? entries then ret (inl (fat_index, entries))
    else ret (inr (s32 (fat_index + alloc_offset d))).

Definition mcman_fatRseek (fuel : nat) (junk : list Z) (fd : nat) : MC Z :=
  fh <- fhandle fd ;;
  d <- devinfo (fh_port fh) (fh_slot fh) ;;
  if cluster_size d =? 0 then undef else
  let entries := s32 (position fh / cluster_size d) in
  let '(fat_index, entries) :=
    if u32 entries <? clust_offset fh then (s32 (freeclink fh), entries)
    else (s32 (clink fh), s32 (entries - clust_offset fh)) in
  if entries =? 0 then
    ret (if 0 <=? fat_index then s32 (fat_index + alloc_offset d) else sceMcResFullDevice)
  else while_ fuel (fatSeekStep fuel junk fd d) (fat_index, entries).

(** The clusters of the root directory already known. *)
Fixpoint knownClusters (n : nat) (i : Z) (fci : list Z) (maxent clust : Z) : Z * Z :=
  match n with
  | O => (i, clust)
  | S n' =>
      if maxent <=? i then (i, clust)
      else if nth (Z.to_nat i) fci (-1) <? 0 then (i, clust)
      else knownClusters n' (i + 1) fci maxent (nth (Z.to_nat i) fci (-1))
  end.

(** Result: the return value, the entry of the cache and the offset of the
    directory entry in its data ([*pfse]). *)
Definition mcman_readdirentry (fuel : nat) (junk : list Z) (port slot clust0 fsindex : Z) : MC (Z * option (nat * Z)) :=
  d <- devinfo port slot ;;
  let per := Z.shiftr (cluster_size d) 9 in
  if per =? 0 then undef else
  let maxent := 0x402 / per in
  let index := u32 fsindex / per in
  fci <- fatcacheOf port slot ;;
  let '(i, clust) :=
    if (clust0 =? 0) && negb (index =? 0) then
      let c := if index <? maxent then if 0 <=? nth (Z.to_nat index) fci (-1) then nth (Z.to_nat index) fci (-1) else clust0 else clust0 in
      let '(i, c) := if 0 <? index then knownClusters (Z.to_nat index) 0 fci maxent c else (0, c) in
      (i - 1, c)
    else (0, clust0) in
  r <- (if i <? index then
          while_ fuel (fun '(i, clust) =>
            let* (r, clust) := mcman_getFATentry fuel junk port slot clust in
            if negb (r =? sceMcResSucceed) then ret (inr (inr (-70)))
            else if clust =? -1 then ret (inr (inr sceMcResNoEntry))
            else
              let clust := Z.land clust 0x7fffffff in
              let i := i + 1 in
              when ((clust0 =? 0) && (i <? maxent)) (fatcachemod port slot (fun l => <[Z.to_nat i := clust]> l)) ;;;
              if i <? index then ret (inl (i, clust)) else ret (inr (inl clust))) (i, clust)
        else ret (inl clust)) ;;
  match r with
  | inr e => ret (e, None)
  | inl clust =>
      let* (r, e) := mcman_readcluster fuel junk port slot (s32 (alloc_offset d + clust)) in
      match e with
      | None => ret (-71, None)
      | Some e => ret (sceMcResSucceed, Some (e, Z.shiftl (u32 fsindex mod per) 9))
      end
  end.
End Mcman.
