(* ===== verification/McCache.v ===== *)
(** * McCache: the pages and the cluster cache of memory cards

    The code of a page: [McDataChecksum] is linear, so that flipping a bit of
    the data changes the three bytes of the code in a way that depends on the
    place of the bit only, and tells the place; what [mcman_correctdata] then
    does with it.

    The interface [CardPages] is what the cache may assume of the cards: a page
    is read with its error-correcting code, without changing anything.  Over
    it, the page read by [McReadPage] is the page of the card, the order of the
    cache is that of last use, and [mcman_readcluster] shows the contents of a
    cluster as [view] has them: what the cache holds, or else the card.
    Then what becomes of a page with a wrong bit, and of an entry whose pages
    could not be read. *)

From stdpp Require Import base numbers list.
From Stdlib Require Import ZArith Lia.
From S2P Require Import Prelude McUtil Mc.

Open Scope Z_scope.

(** ** The code of a page *)

(** Bit [b] of byte [j] flipped. *)
Definition flip (j : nat) (b : Z) (data : list Z) : list Z := alter (fun x => Z.lxor x (Z.shiftl 1 b)) j data.

Definition xor3 (x y : Z * Z * Z) : Z * Z * Z := (Z.lxor x.1.1 y.1.1, Z.lxor x.1.2 y.1.2, Z.lxor x.2 y.2).

(** ** The table *)

Definition T (x : Z) : Z := nth (Z.to_nat x) mcman_xortable 0.

Definition bytes : list Z := map Z.of_nat (seq 0 256).
Definition bits : list Z := map Z.of_nat (seq 0 8).

Lemma elem_bytes x : 0 <= x < 256 -> In x bytes.
Proof. intros H. apply in_map_iff. exists (Z.to_nat x). split; [lia|]. apply in_seq. lia. Qed.
Lemma elem_bits b : 0 <= b < 8 -> In b bits.
Proof. intros H. apply in_map_iff. exists (Z.to_nat b). split; [lia|]. apply in_seq. lia. Qed.

(** Facts of the 2048 pairs of a byte and a bit, by computation. *)
Lemma table_linear x b : 0 <= x < 256 -> 0 <= b < 8 ->
  T (Z.lxor x (Z.shiftl 1 b)) = Z.lxor (T x) (T (Z.shiftl 1 b)) /\ nz (Z.land (T (Z.shiftl 1 b)) 0x80) = true /\
  nz (Z.land (Z.lxor (T x) (T (Z.shiftl 1 b))) 0x80) = negb (nz (Z.land (T x) 0x80)) /\ 0 <= Z.lxor x (Z.shiftl 1 b) < 256.
Proof.
  intros Hx%elem_bytes Hb%elem_bits.
  assert (H : forallb (fun x => forallb (fun b =>
     (T (Z.lxor x (Z.shiftl 1 b)) =? Z.lxor (T x) (T (Z.shiftl 1 b))) && nz (Z.land (T (Z.shiftl 1 b)) 0x80) &&
     Bool.eqb (nz (Z.land (Z.lxor (T x) (T (Z.shiftl 1 b))) 0x80)) (negb (nz (Z.land (T x) 0x80))) &&
     (0 <=? Z.lxor x (Z.shiftl 1 b)) && (Z.lxor x (Z.shiftl 1 b) <? 256)) bits) bytes = true) by (vm_compute; reflexivity).
  rewrite forallb_forall in H. specialize (H x Hx). rewrite forallb_forall in H. specialize (H b Hb).
  rewrite !andb_true_iff, Z.eqb_eq, Bool.eqb_true_iff, Z.leb_le, Z.ltb_lt in H. tauto.
Qed.

(** ** Linearity *)

Lemma lxor_swap a d v : Z.lxor (Z.lxor a d) v = Z.lxor (Z.lxor a v) d.
Proof. by rewrite !Z.lxor_assoc, (Z.lxor_comm d). Qed.

Lemma lxor_pairs a b c d : Z.lxor (Z.lxor a b) (Z.lxor c d) = Z.lxor (Z.lxor a c) (Z.lxor b d).
Proof. by rewrite <- !Z.lxor_assoc, (lxor_swap a b c). Qed.

(** One step from a shifted accumulator. *)
Lemma checksumByte_xor i b acc d : checksumByte i b (xor3 acc d) = xor3 (checksumByte i b acc) d.
Proof.
  destruct acc as [[a2 a3] t0], d as [[d2 d3] dt]. unfold checksumByte, xor3. simpl.
  rewrite (lxor_swap a2). destruct (nz _); simpl; [by rewrite (lxor_swap a3), (lxor_swap t0)|done].
Qed.

Lemma checksumBytes_xor p : forall i acc d, checksumBytes i p (xor3 acc d) = xor3 (checksumBytes i p acc) d.
Proof. induction p as [|b p IH]; intros i acc d; [done|]. cbn [checksumBytes]. by rewrite checksumByte_xor, IH. Qed.

(** What a flipped bit adds to the sums. *)
Definition syndrome (i : Z) (b : Z) : Z * Z * Z := (T (Z.shiftl 1 b), Z.lnot i, i).

Lemma checksumByte_flip i x b acc : 0 <= x < 256 -> 0 <= b < 8 ->
  checksumByte i (Z.lxor x (Z.shiftl 1 b)) acc = xor3 (checksumByte i x acc) (syndrome i b).
Proof.
  intros Hx Hb. destruct (table_linear x b Hx Hb) as (E1 & E2 & E3 & _). destruct acc as [[a2 a3] t0]. unfold checksumByte. fold (T x).
  fold (T (Z.lxor x (Z.shiftl 1 b))). rewrite E1, E3. destruct (nz (Z.land (T x) 0x80)); cbn [negb]; unfold xor3, syndrome; simpl;
    rewrite ?Z.lxor_assoc, ?Z.lxor_nilpotent, ?Z.lxor_0_r; done.
Qed.

Lemma checksumBytes_flip p j b : forall i acc, Forall (fun x => 0 <= x < 256) p -> (j < length p)%nat -> 0 <= b < 8 ->
  checksumBytes i (flip j b p) acc = xor3 (checksumBytes i p acc) (syndrome (i + Z.of_nat j) b).
Proof.
  revert j. induction p as [|x p IH]; intros j i acc HF Hj Hb; [simpl in Hj; lia|]. inversion HF as [|? ? Hx HF']; subst.
  destruct j as [|j].
  - change (flip 0 b (x :: p)) with (Z.lxor x (Z.shiftl 1 b) :: p). cbn [checksumBytes]. rewrite checksumByte_flip, checksumBytes_xor by done. by rewrite Z.add_0_r.
  - change (flip (S j) b (x :: p)) with (x :: flip j b p). cbn [checksumBytes]. rewrite IH by (done || simpl in Hj; lia). do 2 f_equal. lia.
Qed.

(** ** The code of changed data *)

Definition page_ok (data : list Z) : Prop := length data = 128%nat /\ Forall (fun x => 0 <= x < 256) data.

Lemma flip_ok j b data : page_ok data -> 0 <= b < 8 -> page_ok (flip j b data).
Proof.
  intros [Hl HF] Hb. unfold flip. split; [by rewrite length_alter|]. apply Forall_alter; [done|]. intros x Hx Hx'.
  simpl. by apply table_linear.
Qed.

Lemma masked_lxor a t m : Z.land (Z.lnot (Z.lxor a t)) m = Z.lxor (Z.land (Z.lnot a) m) (Z.land t m).
Proof.
  apply Z.bits_inj'. intros n Hn. rewrite Z.land_spec, Z.lnot_spec, !Z.lxor_spec, !Z.land_spec, Z.lnot_spec by done.
  by destruct (Z.testbit a n), (Z.testbit t n), (Z.testbit m n).
Qed.

(** The change of the code that tells the place of a bit. *)
Definition place_code (j : nat) (b : Z) : Z * Z * Z :=
  (Z.land (T (Z.shiftl 1 b)) 0x77, Z.land (Z.lnot (Z.of_nat j)) 0x7F, Z.land (Z.of_nat j) 0x7F).

Lemma checksum_flip data j b : page_ok data -> (j < 128)%nat -> 0 <= b < 8 ->
  McDataChecksum (flip j b data) = xor3 (McDataChecksum data) (place_code j b).
Proof.
  intros [Hl HF] Hj Hb. unfold McDataChecksum. rewrite !take_ge by (unfold flip; rewrite ?length_alter; lia).
  rewrite checksumBytes_flip by (done || lia). destruct (checksumBytes 0 data (0, 0, 0)) as [[a2 a3] t0].
  unfold xor3, syndrome, place_code. cbn [fst snd]. rewrite !masked_lxor, Z.add_0_l. done.
Qed.

(** ** The decision *)

(** What [mcman_correctdata] makes of the difference of the two codes. *)
Definition verdict (d : Z * Z * Z) (p : list Z) : option (Z * list Z) :=
  let '(x0, x1, x2) := d in
  let x3 := Z.lxor x1 x2 in
  let x4 := Z.lxor (Z.land x0 0xf) (Z.shiftr x0 4) in
  if negb (nz x0) && negb (nz x1) && negb (nz x2) then Some (0, p)
  else if (x3 =? 0x7f) && (x4 =? 0x7) then
    match p !! Z.to_nat x2 with
    | Some b => Some (-1, <[Z.to_nat x2 := u8 (Z.lxor b (Z.shiftl 1 (Z.shiftr x0 4)))]> p)
    | None => None
    end
  else if countBits 8 x3 + countBits 4 x4 =? 1 then Some (-2, p)
  else Some (-3, p).

(** [p] starts with the bytes of code [c]. *)
Definition holds_code (p : list Z) (c : Z * Z * Z) : Prop := nth 0 p 0 = c.1.1 /\ nth 1 p 0 = c.1.2 /\ nth 2 p 0 = c.2.

Lemma correctdata_verdict data p c : holds_code p c -> mcman_correctdata data p = verdict (xor3 c (McDataChecksum data)) p.
Proof.
  intros (E0 & E1 & E2). unfold mcman_correctdata. destruct (McDataChecksum data) as [[e0 e1] e2]. rewrite E0, E1, E2.
  destruct c as [[c0 c1] c2]. reflexivity.
Qed.

Lemma xor3_cancel c d : xor3 c (xor3 c d) = d.
Proof.
  destruct c as [[c0 c1] c2], d as [[d0 d1] d2]. unfold xor3. cbn [fst snd].
  by rewrite <- !Z.lxor_assoc, !Z.lxor_nilpotent, !Z.lxor_0_l.
Qed.
Lemma xor3_comm a b : xor3 a b = xor3 b a.
Proof. unfold xor3. f_equal; [f_equal|]; apply Z.lxor_comm. Qed.
Lemma xor3_assoc a b c : xor3 (xor3 a b) c = xor3 a (xor3 b c).
Proof. unfold xor3. cbn [fst snd]. by rewrite !Z.lxor_assoc. Qed.
Lemma xor3_0_r c : xor3 c (0, 0, 0) = c.
Proof. destruct c as [[c0 c1] c2]. unfold xor3. cbn [fst snd]. by rewrite !Z.lxor_0_r. Qed.

(** The code of a place, by computation over the 1024 places. *)
Lemma place_code_facts j b : (j < 128)%nat -> 0 <= b < 8 ->
  exists x0 x1, place_code j b = (x0, x1, Z.of_nat j) /\ Z.lxor x1 (Z.of_nat j) = 0x7f /\ Z.lxor (Z.land x0 0xf) (Z.shiftr x0 4) = 0x7 /\
    Z.shiftr x0 4 = b /\ x0 <> 0.
Proof.
  intros Hj Hb%elem_bits.
  assert (H : forallb (fun j => forallb (fun b => let '(x0, x1, x2) := place_code j b in
     (x2 =? Z.of_nat j) && (Z.lxor x1 (Z.of_nat j) =? 0x7f) && (Z.lxor (Z.land x0 0xf) (Z.shiftr x0 4) =? 0x7) && (Z.shiftr x0 4 =? b) && nz x0) bits) (seq 0 128) = true)
    by (vm_compute; reflexivity).
  rewrite forallb_forall in H. specialize (H j ltac:(apply in_seq; lia)). rewrite forallb_forall in H. specialize (H b Hb).
  destruct (place_code j b) as [[x0 x1] x2]. rewrite !andb_true_iff, !Z.eqb_eq, nz_true in H. destruct H as ((((-> & ?) & ?) & ?) & ?).
  by exists x0, x1.
Qed.

(** One bit: its place is found. *)
Lemma verdict_single j b p : (j < 128)%nat -> 0 <= b < 8 ->
  verdict (place_code j b) p = match p !! j with Some x => Some (-1, <[j := u8 (Z.lxor x (Z.shiftl 1 b))]> p) | None => None end.
Proof.
  intros Hj Hb. destruct (place_code_facts j b Hj Hb) as (x0 & x1 & -> & E3 & E4 & Eb & H0). unfold verdict.
  rewrite E3, E4, Eb, (proj2 (nz_true x0) H0), Nat2Z.id. reflexivity.
Qed.

(** Two bits: never taken for one. *)
Lemma verdict_double j b j' b' p : (j < 128)%nat -> 0 <= b < 8 -> (j' < 128)%nat -> 0 <= b' < 8 -> (j, b) <> (j', b') ->
  verdict (xor3 (place_code j b) (place_code j' b')) p = Some (-3, p).
Proof.
  intros Hj Hb Hj' Hb' Hne. destruct (place_code_facts j b Hj Hb) as (x0 & x1 & -> & E3 & E4 & Eb & H0).
  destruct (place_code_facts j' b' Hj' Hb') as (y0 & y1 & -> & F3 & F4 & Fb & G0). unfold xor3, verdict. cbn [fst snd].
  assert (A3 : Z.lxor (Z.lxor x1 y1) (Z.lxor (Z.of_nat j) (Z.of_nat j')) = 0).
  { by rewrite lxor_pairs, E3, F3. }
  assert (A4 : Z.lxor (Z.land (Z.lxor x0 y0) 0xf) (Z.shiftr (Z.lxor x0 y0) 4) = 0).
  { assert (El : Z.land (Z.lxor x0 y0) 0xf = Z.lxor (Z.land x0 0xf) (Z.land y0 0xf)).
    { apply Z.bits_inj'. intros n Hn. rewrite Z.land_spec, !Z.lxor_spec, !Z.land_spec.
      by destruct (Z.testbit x0 n), (Z.testbit y0 n), (Z.testbit 0xf n). }
    by rewrite El, Z.shiftr_lxor, lxor_pairs, E4, F4. }
  rewrite A3, A4. change (0 =? 0x7f) with false. cbn [andb]. change (countBits 8 0 + countBits 4 0 =? 1) with false. cbv iota.
  destruct (nz (Z.lxor x0 y0)) eqn:N0, (nz (Z.lxor x1 y1)) eqn:N1, (nz (Z.lxor (Z.of_nat j) (Z.of_nat j'))) eqn:N2; cbn [negb andb]; try reflexivity.
  apply nz_false in N0, N2. apply Z.lxor_eq in N0, N2. destruct Hne. f_equal; [lia|]. congruence.
Qed.

(** A bit of the code itself: [x0] has the bits of 0x77, the others seven bits. *)
Definition code_bits : list (Z * Z * Z) :=
  map (fun b => (Z.shiftl 1 b, 0, 0)) [0; 1; 2; 4; 5; 6] ++ map (fun b => (0, Z.shiftl 1 b, 0)) [0; 1; 2; 3; 4; 5; 6] ++
  map (fun b => (0, 0, Z.shiftl 1 b)) [0; 1; 2; 3; 4; 5; 6].

Lemma verdict_code d p : In d code_bits -> verdict d p = Some (-2, p).
Proof. intros H. repeat (destruct H as [<-|H]; [reflexivity|]). done. Qed.

Open Scope c_scope.

(** ** What a card promises *)

(** Cards of 512-byte pages with 16 spare bytes.  A page of a card in order is
    erased, which the last of the spare bytes says, or has its code there. *)
Class CardPages (C : Type) `{CardIO C} := {
  page : C -> Z -> Z -> Z -> list Z;
  spare : C -> Z -> Z -> Z -> list Z;
  card_ok : C -> Prop;
  page_bytes : forall c port slot n, card_ok c -> length (page c port slot n) = 512%nat /\ bytes_ok (page c port slot n);
  page_code : forall c port slot n, card_ok c -> length (spare c port slot n) = 16%nat /\
    (nth 15 (spare c port slot n) 0 = 255 \/ take 12 (spare c port slot n) = eccOf 4 (page c port slot n));
  read_law : forall c port slot n, card_ok c -> io_readpage port slot n c = Done (Some (page c port slot n, spare c port slot n)) c
}.

(** The geometry of a PS2 card. *)
Record geometry (d : MCDevInfo) : Prop := {
  g_pagesize : pagesize d = 512;
  g_pages : pages_per_cluster d = 2;
  g_ecc : nz (Z.land (cardflags d) CF_USE_ECC) = true;
  g_erase : nz (Z.land (cardflags d) CF_ERASE_ZEROES) = false;
  g_fat : FATentries_per_cluster d = 256
}.

(** ** Pages *)

(** Pieces whose code is right leave everything alone. *)
Lemma correct_intact data p : holds_code p (McDataChecksum data) -> mcman_correctdata data p = Some (0, p).
Proof.
  intros H. rewrite (correctdata_verdict data p _ H), <- (xor3_0_r (McDataChecksum data)) at 1. unfold xor3.
  destruct (McDataChecksum data) as [[a b] c]. cbn [fst snd]. rewrite !Z.lxor_0_r, !Z.lxor_nilpotent. reflexivity.
Qed.

Lemma eccOf_code n : forall k data, (k < n)%nat -> holds_code (drop (3 * k) (eccOf n data)) (McDataChecksum (drop (128 * k) data)).
Proof.
  induction n as [|n IH]; intros k data Hk; [lia|]. cbn [eccOf]. destruct k as [|k].
  - rewrite !Nat.mul_0_r, !drop_0. destruct (McDataChecksum data) as [[a b] c]. by split_and!.
  - specialize (IH k (drop 128 data) ltac:(lia)). rewrite drop_drop in IH. destruct (McDataChecksum data) as [[a b] c].
    replace (3 * S k)%nat with (S (S (S (3 * k)))) by lia. replace (128 * S k)%nat with (128 * 1 + 128 * k)%nat by lia.
    cbn [drop]. by replace (128 * 1 + 128 * k)%nat with (128 + 128 * k)%nat by lia.
Qed.

Lemma length_eccOf n : forall data, length (eccOf n data) = (3 * n)%nat.
Proof. induction n as [|n IH]; intros data; [done|]. cbn [eccOf]. destruct (McDataChecksum data) as [[a b] c]. simpl. rewrite IH. lia. Qed.

Lemma holds_code_app p q c : (3 <= length p)%nat -> holds_code p c -> holds_code (p ++ q) c.
Proof. intros Hl (E0 & E1 & E2). destruct p as [|a [|b [|x p]]]; simpl in Hl; try lia. by split_and!. Qed.

(** Pieces from [k] on that are as they were when the code was made. *)
Lemma checksum_take data : McDataChecksum (take 128 data) = McDataChecksum data.
Proof. unfold McDataChecksum. by rewrite take_take. Qed.

Lemma correctPieces_rest buf pg tl m r : r <= 0 -> forall n k, (k + n = m)%nat ->
  (forall i, (k <= i < m)%nat -> take 128 (drop (128 * i) buf) = take 128 (drop (128 * i) pg)) ->
  correctPieces n k buf (eccOf m pg ++ tl) r = Some (r, eccOf m pg ++ tl).
Proof.
  intros Hr. induction n as [|n IH]; intros k Hk Hsame; [done|]. cbn [correctPieces].
  assert (Hd : drop (3 * k) (eccOf m pg ++ tl) = drop (3 * k) (eccOf m pg) ++ tl) by (rewrite drop_app_le; [done|rewrite length_eccOf; lia]).
  rewrite correct_intact.
  - rewrite (proj2 (Z.ltb_ge 0 r)) by done. rewrite Hd. rewrite take_app_le by (rewrite length_eccOf; lia).
    rewrite app_assoc, take_drop. apply IH; [lia|]. intros i Hi. apply Hsame. lia.
  - rewrite Hd, <- checksum_take, Hsame, checksum_take by lia. apply holds_code_app; [rewrite length_drop, length_eccOf; lia|]. apply eccOf_code. lia.
Qed.

Lemma correctPieces_intact pg rest tl m : length pg = (128 * m)%nat -> correctPieces m 0 (pg ++ rest) (eccOf m pg ++ tl) 0 = Some (0, eccOf m pg ++ tl).
Proof.
  intros Hl. apply correctPieces_rest; [done|done|]. intros i Hi. rewrite drop_app_le by lia. apply take_app_le. rewrite length_drop. lia.
Qed.

(** A bit of the first piece flipped: its place is found, and the store goes
    to that place behind the code. *)
Lemma take_flip n j b (data : list Z) : take n (flip j b data) = flip j b (take n data).
Proof. unfold flip. apply list_eq. intros i. destruct (decide (i < n)%nat).
  - rewrite lookup_take_lt by done. destruct (decide (i = j)) as [->|].
    + rewrite !list_lookup_alter_eq. by rewrite lookup_take_lt.
    + rewrite !list_lookup_alter_ne by done. by rewrite lookup_take_lt.
  - rewrite lookup_take_ge by lia. symmetry. apply lookup_ge_None. rewrite length_alter, length_take. lia.
Qed.

Lemma drop_flip n j b (data : list Z) : (j < n)%nat -> drop n (flip j b data) = drop n data.
Proof. intros Hj. apply list_eq. intros i. rewrite !lookup_drop. unfold flip. apply list_lookup_alter_ne. lia. Qed.

Lemma correct_flip pg p j b : (128 <= length pg)%nat -> Forall (fun x => 0 <= x < 256) pg -> (j < 128)%nat -> 0 <= b < 8 -> holds_code p (McDataChecksum pg) ->
  mcman_correctdata (flip j b pg) p = match p !! j with Some x => Some (-1, <[j := u8 (Z.lxor x (Z.shiftl 1 b))]> p) | None => None end.
Proof.
  intros Hl HF Hj Hb Hc. rewrite (correctdata_verdict _ p _ Hc), <- (checksum_take (flip j b pg)), take_flip, <- (checksum_take pg).
  rewrite checksum_flip by (done || (split; [rewrite length_take; lia|by apply Forall_take])). rewrite xor3_cancel. by apply verdict_single.
Qed.

Lemma correctPieces_S n k buf ecc r : correctPieces (S n) k buf ecc r =
  match mcman_correctdata (drop (128 * k) buf) (drop (3 * k) ecc) with
  | None => None
  | Some (x, p) => correctPieces n (S k) buf (take (3 * k) ecc ++ p) (if x <? r then x else r)
  end.
Proof. done. Qed.

Lemma correctPieces_flip pg tl j b r : length pg = 512%nat -> Forall (fun x => 0 <= x < 256) pg -> (12 <= j < 128)%nat -> 0 <= b < 8 -> -1 <= r <= 0 ->
  correctPieces 4 0 (flip j b pg) (eccOf 4 pg ++ tl) r =
  match tl !! (j - 12)%nat with
  | Some x => Some (-1, eccOf 4 pg ++ <[(j - 12)%nat := u8 (Z.lxor x (Z.shiftl 1 b))]> tl)
  | None => None
  end.
Proof.
  intros Hl HF Hj Hb Hr. set (ecc := eccOf 4 pg). assert (He : length ecc = 12%nat) by apply length_eccOf. rewrite correctPieces_S.
  rewrite !Nat.mul_0_r, !drop_0, take_0. rewrite (correct_flip pg) by (done || lia || (apply holds_code_app; [lia|]; apply (eccOf_code 4 0 pg); lia)).
  rewrite lookup_app_r by lia. rewrite He. destruct (tl !! (j - 12)%nat) as [x|]; [|done]. rewrite insert_app_r_alt by lia. rewrite He, app_nil_l.
  replace (if -1 <? r then -1 else r) with (-1) by (destruct (Z.ltb_spec (-1) r); lia).
  apply (correctPieces_rest (flip j b pg) pg _ 4 (-1)); [lia|done|]. intros i Hi. f_equal. apply drop_flip. lia.
Qed.

Section Cards.
Context {C : Type} {IO : CardIO C} {PG : CardPages C}.
Notation mcst := (mcst C).

(** A page read to the start of a buffer. *)
Lemma readPage_at (s : mcst) d junk port slot n buf Q : card_ok (card s) -> devinfo port slot s = Done d s -> geometry d -> length junk = 32%nat ->
  Q (0, page (card s) port slot n ++ drop 512 buf) s -> wp (McReadPage junk port slot n buf) s Q.
Proof.
  intros K Hd G Hj HQ. unfold McReadPage. apply wp_bind. eapply wp_Done; [exact Hd|].
  apply wp_bind. cbn [for_break]. apply wp_bind. unfold readAttempt at 1. apply wp_bind.
  assert (Er : on_card (io_readpage port slot n) s = Done (Some (page (card s) port slot n, spare (card s) port slot n)) s).
  { unfold on_card. rewrite read_law by done. by destruct s. }
  eapply wp_Done; [exact Er|]. cbv beta iota. rewrite (g_ecc _ G), (g_erase _ G).
  destruct (page_bytes (card s) port slot n K) as [Lp _]. destruct (page_code (card s) port slot n K) as (Ls & Ec).
  set (pg := page _ _ _ _) in *. set (sp := spare _ _ _ _) in *.
  assert (Eb : put_bytes 0 pg buf = pg ++ drop 512 buf) by (unfold put_bytes; by rewrite Lp).
  rewrite Eb. apply wp_bind. unfold sparesizeOf. rewrite (g_pagesize _ G). change (Z.shiftr (512 + 0x1F) 5 - 1) with 15.
  assert (El : put_bytes 0 sp junk !! 15%nat = Some (nth 15 sp 0)).
  { unfold put_bytes. simpl take. rewrite app_nil_l, lookup_app_l by lia. rewrite nth_lookup.
    destruct (lookup_lt_is_Some_2 sp 15) as [x ->]; [lia|done]. }
  eapply wp_Done; [unfold at_; change (15 <? 0) with false; cbv iota; change (Z.to_nat 15) with 15%nat; by rewrite El|].
  destruct (Z.eqb_spec (nth 15 sp 0) 255) as [_|Hne]; [by do 3 apply wp_ret|]. destruct Ec as [Ec|Ec]; [done|].
  assert (Ee : put_bytes 0 sp junk = eccOf 4 pg ++ (drop 12 sp ++ drop 16 junk)).
  { unfold put_bytes. rewrite <- Ec, (app_assoc (take 12 sp)), take_drop, Ls. done. }
  change (Z.to_nat (Z.shiftr (512 + 127) 7)) with 4%nat. rewrite Ee, correctPieces_intact by (rewrite Lp; done).
  change (0 =? sceMcResSucceed) with true. cbv iota. by do 3 apply wp_ret.
Qed.

Lemma readPage_ok (s : mcst) d junk port slot n buf Q : card_ok (card s) -> devinfo port slot s = Done d s -> geometry d -> length junk = 32%nat ->
  length buf = 512%nat -> Q (0, page (card s) port slot n) s -> wp (McReadPage junk port slot n buf) s Q.
Proof. intros K Hd G Hj Hb HQ. eapply readPage_at; try done. by rewrite drop_ge, app_nil_r by lia. Qed.

(** ** Looking an entry up *)

Lemma findEntry_Some f es : forall n i, findEntry f n es = Some i -> exists e, (n <= i)%nat /\ es !! (i - n)%nat = Some e /\ f e = true.
Proof.
  induction es as [|e es IH]; intros n i; cbn [findEntry]; [done|]. destruct (f e) eqn:Ef.
  - intros [= <-]. exists e. rewrite Nat.sub_diag. done.
  - intros Hi. destruct (IH _ _ Hi) as (x & Hn & Hx & Hf). exists x. split_and!; [lia| |done].
    replace (i - n)%nat with (S (i - S n)) by lia. done.
Qed.

Lemma findEntry_None f es : forall n, findEntry f n es = None -> forall e, e ∈ es -> f e = false.
Proof.
  induction es as [|x es IH]; intros n Hn e He; [by apply elem_of_nil in He|]. cbn [findEntry] in Hn. destruct (f x) eqn:Ef; [done|].
  apply elem_of_cons in He as [->|He]; [done|by eapply IH].
Qed.

(** ** The invariant *)

(** The contents of a cluster on the card. *)
Definition cluster_data (c : C) (port slot k : Z) : list Z := page c port slot (2 * k) ++ page c port slot (2 * k + 1).

Definition same_key (a b : McCacheEntry) : Prop := mc_port a = mc_port b /\ mc_slot a = mc_slot b /\ cluster a = cluster b.

Record cache_ok (s : mcst) : Prop := {
  ck_length : length (entrycache s) = MAX_CACHEENTRY;
  ck_order : mccache s ≡ₚ seq 0 MAX_CACHEENTRY;
  ck_data : forall i e, entrycache s !! i = Some e -> length (cl_data e) = 1024%nat;
  ck_unique : forall i j a b, entrycache s !! i = Some a -> entrycache s !! j = Some b -> 0 <= cluster a -> same_key a b -> i = j;
  ck_clean : forall i e, entrycache s !! i = Some e -> 0 <= cluster e -> wr_flag e = 0 ->
    cl_data e = cluster_data (card s) (mc_port e) (mc_slot e) (cluster e);
  ck_card : card_ok (card s)
}.

(** A cluster as the manager sees it. *)
Definition view (s : mcst) (port slot k : Z) : list Z :=
  match findEntry (isCluster port slot k) 0 (entrycache s) ≫= (fun i => entrycache s !! i) with
  | Some e => cl_data e
  | None => cluster_data (card s) port slot k
  end.

Lemma isCluster_true port slot k e : isCluster port slot k e = true <-> mc_port e = port /\ mc_slot e = slot /\ cluster e = k.
Proof. unfold isCluster, owned. rewrite !andb_true_iff, !Z.eqb_eq. tauto. Qed.

Lemma view_hit s port slot k i e : cache_ok s -> 0 <= k -> entrycache s !! i = Some e -> isCluster port slot k e = true ->
  findEntry (isCluster port slot k) 0 (entrycache s) = Some i /\ view s port slot k = cl_data e.
Proof.
  intros I Hk Hi He. unfold view. destruct (findEntry _ 0 _) as [j|] eqn:Ef.
  - apply findEntry_Some in Ef as (x & _ & Hx & Hf). rewrite Nat.sub_0_r in Hx. apply isCluster_true in He as (E1 & E2 & E3), Hf as (F1 & F2 & F3).
    assert (j = i) as -> by (eapply (ck_unique _ I j i x e); try done; [lia|]; split_and!; congruence).
    rewrite Hi in Hx. injection Hx as <-. cbn. rewrite Hi. done.
  - exfalso. eapply findEntry_None in Ef; [|by eapply list_elem_of_lookup_2]. congruence.
Qed.

Lemma view_miss s port slot k : (forall i e, entrycache s !! i = Some e -> isCluster port slot k e = false) ->
  findEntry (isCluster port slot k) 0 (entrycache s) = None /\ view s port slot k = cluster_data (card s) port slot k.
Proof.
  intros Hn. unfold view. destruct (findEntry _ 0 _) as [j|] eqn:Ef; [|done].
  apply findEntry_Some in Ef as (x & _ & Hx & Hf). rewrite (Hn _ _ Hx) in Hf. done.
Qed.

(** ** The order of use *)

Lemma lastPlace_spec e l : NoDup l -> forall n i, l !! i = Some e -> (i < n)%nat -> lastPlace e n l = Some i.
Proof.
  intros Hn. induction n as [|n IH]; intros i Hi Hlt; [lia|]. cbn [lastPlace]. case_bool_decide as E.
  - f_equal. by eapply NoDup_lookup.
  - apply IH; [done|]. destruct (decide (i = n)) as [->|]; [done|lia].
Qed.

Lemma shiftDown_spec : forall i l, (i < length l)%nat -> shiftDown i l = take 1 l ++ take i l ++ drop (S i) l.
Proof.
  induction i as [|i IH]; intros l Hi.
  - cbn [shiftDown]. rewrite take_0, app_nil_l, take_drop. done.
  - cbn [shiftDown]. destruct (lookup_lt_is_Some_2 l i) as [x Hx]; [lia|]. rewrite Hx, IH by (rewrite length_insert; lia).
    rewrite take_insert_ge by lia. rewrite take_insert_ge by lia.
    assert (Ed : drop (S i) (<[S i := x]> l) = x :: drop (S (S i)) l).
    { rewrite (drop_S _ x (S i)) by (apply list_lookup_insert_eq; lia). f_equal. by rewrite drop_insert_lt by lia. }
    rewrite Ed, (take_S_r l i x Hx), <- app_assoc. done.
Qed.

Lemma filter_absent (e : nat) (l : list nat) : e ∉ l -> filter (fun x => x <> e) l = l.
Proof.
  induction l as [|x l IH]; intros H; [done|]. apply not_elem_of_cons in H as [H1 H2]. rewrite filter_cons_True by done. f_equal. auto.
Qed.

Lemma filter_out (e : nat) (l1 l2 : list nat) : NoDup (l1 ++ e :: l2) -> filter (fun x => x <> e) (l1 ++ e :: l2) = l1 ++ l2.
Proof.
  intros Hn. apply NoDup_app in Hn as (_ & H2 & [H3 _]%NoDup_cons). rewrite filter_app, filter_cons_False by tauto.
  rewrite !filter_absent; [done|done|]. intros H. apply (H2 e H). left.
Qed.

(** Entry [e] goes to the front; the others keep their order. *)
Lemma addcacheentry_ok (s : mcst) e Q : mccache s ≡ₚ seq 0 MAX_CACHEENTRY -> (e < MAX_CACHEENTRY)%nat ->
  Q tt (with_mccache (e :: filter (fun x => x <> e) (mccache s)) s) -> wp (mcman_addcacheentry e) s Q.
Proof.
  intros HP He HQ. assert (Hn : NoDup (mccache s)) by (rewrite HP; apply NoDup_seq).
  assert (Hin : e ∈ mccache s) by (rewrite HP; apply elem_of_seq; lia).
  apply list_elem_of_lookup in Hin as [i Hi]. pose proof (lookup_lt_Some _ _ _ Hi) as Hlt.
  assert (Hlen : length (mccache s) = MAX_CACHEENTRY) by (rewrite HP; apply length_seq).
  unfold mcman_addcacheentry. apply wp_bind. eapply wp_Done; [reflexivity|].
  rewrite (lastPlace_spec e _ Hn _ i Hi) by lia. eapply wp_Done; [reflexivity|].
  assert (E : <[0%nat := e]> (shiftDown i (mccache s)) = e :: filter (fun x => x <> e) (mccache s)); [|by rewrite E].
  rewrite shiftDown_spec by lia. rewrite <- (take_drop_middle _ i e Hi) in Hn. rewrite <- (filter_out _ _ _ Hn), (take_drop_middle _ i e Hi).
  destruct (mccache s) as [|y l]; [simpl in Hlt; lia|]. reflexivity.
Qed.

(** ** Reading a cluster *)

Definition has_dev (s : mcst) (port slot : Z) (d : MCDevInfo) : Prop := devinfo port slot s = Done d s.

Lemma has_dev_same s s' port slot d : devinfos s' = devinfos s -> has_dev s port slot d -> has_dev s' port slot d.
Proof.
  unfold has_dev, devinfo. intros ->. destruct (_ || _); [done|]. destruct (devinfos s !! _) as [l|]; [|done].
  destruct (l !! _); [|done]. by intros [= ->].
Qed.

Lemma wp_mce (s : mcst) i e Q : entrycache s !! i = Some e -> Q e s -> wp (mce i) s Q.
Proof. intros Hi HQ. eapply wp_Done; [|exact HQ]. unfold mce. by rewrite Hi. Qed.
Lemma wp_mcmod (s : mcst) i e f Q : entrycache s !! i = Some e -> Q tt (with_entries (<[i := f e]> (entrycache s)) s) -> wp (mcmod i f) s Q.
Proof. intros Hi HQ. eapply wp_Done; [|exact HQ]. unfold mcmod. by rewrite Hi. Qed.

Lemma with_entries_twice x y (s : mcst) : with_entries x (with_entries y s) = with_entries x s.
Proof. done. Qed.

Lemma loadPages_ok (s : mcst) d junk port slot k e c Q : card_ok (card s) -> has_dev s port slot d -> geometry d -> length junk = 32%nat ->
  entrycache s !! e = Some c -> length (cl_data c) = 1024%nat ->
  Q true (with_entries (<[e := e_data (cluster_data (card s) port slot k) c]> (entrycache s)) s) ->
  wp (loadPages junk port slot k d e) s Q.
Proof.
  intros K Hd G Hj He Hl HQ. unfold loadPages. rewrite (g_pages _ G), (g_pagesize _ G). change (Z.to_nat 2) with 2%nat.
  pose proof (lookup_lt_Some _ _ _ He) as Hlt. destruct (page_bytes (card s) port slot (2 * k) K) as [L0 _], (page_bytes (card s) port slot (2 * k + 1) K) as [L1 _].
  apply wp_bind. cbn [seq for_break]. apply wp_bind, wp_bind. eapply wp_mce; [exact He|].
  apply wp_bind. eapply readPage_ok; [done|exact Hd|done|done|rewrite length_take, length_drop; change (Z.of_nat 0) with 0; lia|]. cbv beta iota.
  replace (k * 2 + Z.of_nat 0) with (2 * k) by lia.
  apply wp_bind. eapply wp_mcmod; [exact He|]. change (negb (0 =? sceMcResSucceed)) with false. cbv iota. apply wp_ret.
  set (d0 := put_bytes _ _ _). set (s1 := with_entries _ s).
  assert (E0 : d0 = page (card s) port slot (2 * k) ++ drop 512 (cl_data c)) by (unfold d0, put_bytes; simpl; by rewrite L0).
  assert (He1 : entrycache s1 !! e = Some (e_data d0 c)) by (by apply list_lookup_insert_eq).
  apply wp_bind, wp_bind. eapply wp_mce; [exact He1|].
  apply wp_bind. eapply readPage_ok; [done|by apply (has_dev_same s)|done|done|..].
  { cbn [cl_data e_data]. rewrite length_take, length_drop, E0, length_app, L0, length_drop, Hl. simpl. lia. }
  cbv beta iota. replace (k * 2 + Z.of_nat 1) with (2 * k + 1) by lia. change (card s1) with (card s).
  apply wp_bind. eapply wp_mcmod; [exact He1|]. change (negb (0 =? sceMcResSucceed)) with false. cbv iota. apply wp_ret. apply wp_ret. apply wp_ret.
  cbv beta iota. unfold s1. rewrite with_entries_twice. cbn [entrycache with_entries cl_data e_data]. rewrite list_insert_insert_eq.
  assert (E1 : put_bytes (Z.of_nat 1 * 512) (page (card s) port slot (2 * k + 1)) d0 = cluster_data (card s) port slot k).
  { unfold put_bytes, cluster_data. change (Z.to_nat (Z.of_nat 1 * 512)) with 512%nat. rewrite E0, L1.
    rewrite take_app_length' by done. rewrite drop_ge by (rewrite length_app, length_drop; lia). by rewrite app_nil_r. }
  rewrite E1. exact HQ.
Qed.

(** The state after cluster [k] of a card was read into entry [e]. *)
Record read_post (s : mcst) (port slot k : Z) (e : nat) (c : McCacheEntry) (s' : mcst) : Prop := {
  rp_entry : entrycache s' !! e = Some c;
  rp_is : isCluster port slot k c = true;
  rp_data : cl_data c = view s port slot k;
  rp_view : forall p sl j, 0 <= j -> view s' p sl j = view s p sl j;
  rp_ok : cache_ok s';
  rp_order : mccache s' = e :: filter (fun x => x <> e) (mccache s);
  rp_card : card s' = card s;
  rp_dev : devinfos s' = devinfos s;
  rp_bad : badblock s' = badblock s;
  rp_fd : fdhandles s' = fdhandles s;
  rp_others : forall i, i <> e -> entrycache s' !! i = entrycache s !! i;
  rp_wr : entrycache s !! e = Some c \/ wr_flag c = 0;
  rp_last : entrycache s !! e = Some c \/ mccache s !! 35%nat = Some e;
  rp_bufs : pagedata s' = pagedata s /\ eccdata s' = eccdata s
}.

Definition victim_clean (s : mcst) : Prop := forall v c, mccache s !! 35%nat = Some v -> entrycache s !! v = Some c -> wr_flag c = 0.

Lemma cache_ok_order (s : mcst) l : l ≡ₚ seq 0 MAX_CACHEENTRY -> cache_ok s -> cache_ok (with_mccache l s).
Proof. intros HP [H1 H2 H3 H4 H5 H6]. by split. Qed.

Lemma front_perm (e : nat) l : l ≡ₚ seq 0 MAX_CACHEENTRY -> (e < MAX_CACHEENTRY)%nat -> e :: filter (fun x => x <> e) l ≡ₚ seq 0 MAX_CACHEENTRY.
Proof.
  intros HP He. assert (Hn : NoDup l) by (rewrite HP; apply NoDup_seq). assert (Hin : e ∈ l) by (rewrite HP; apply elem_of_seq; lia).
  apply list_elem_of_split in Hin as (l1 & l2 & ->). rewrite filter_out by done. rewrite <- HP. by rewrite Permutation_middle.
Qed.

(** A clean entry taken for cluster [k], which no entry has. *)
Lemma cache_replace (s : mcst) e c x port slot k : cache_ok s -> entrycache s !! e = Some c -> wr_flag c = 0 -> 0 <= k ->
  (forall i y, entrycache s !! i = Some y -> isCluster port slot k y = false) ->
  isCluster port slot k x = true -> wr_flag x = 0 -> cl_data x = cluster_data (card s) port slot k ->
  (forall p sl j, length (cluster_data (card s) p sl j) = 1024%nat) ->
  let s' := with_entries (<[e := x]> (entrycache s)) s in
  cache_ok s' /\ forall p sl j, 0 <= j -> view s' p sl j = view s p sl j.
Proof.
  intros I He Hw Hk Hn Hx Hwx Hd HL s'. pose proof (lookup_lt_Some _ _ _ He) as Hlt.
  pose proof Hx as (X1 & X2 & X3)%isCluster_true.
  assert (Hnk : forall i y, entrycache s !! i = Some y -> same_key x y -> False).
  { intros i y Hi (K1 & K2 & K3). apply Hn in Hi. rewrite (proj2 (isCluster_true port slot k y)) in Hi; [done|]. split_and!; congruence. }
  assert (I' : cache_ok s').
  { destruct I as [I1 I2 I3 I4 I5 I6]. split; cbn [entrycache mccache card with_entries s'].
    - by rewrite length_insert.
    - done.
    - intros i y. rewrite list_lookup_insert. case_decide; [intros [= <-]; by rewrite Hd|apply I3].
    - intros i j a b. rewrite !list_lookup_insert. case_decide as E1; case_decide as E2.
      + destruct E1, E2; congruence.
      + intros [= <-] Hb _ Hs. exfalso. by eapply Hnk.
      + intros Ha [= <-] _ (K1 & K2 & K3). exfalso. eapply Hnk; [exact Ha|]. by split_and!.
      + apply I4.
    - intros i y. rewrite list_lookup_insert. case_decide; [intros [= <-] _ _; by rewrite X1, X2, X3|apply I5].
    - done. }
  split; [done|]. intros p sl j Hj. unfold view at 2. destruct (findEntry (isCluster p sl j) 0 (entrycache s)) as [i|] eqn:Ef.
  - apply findEntry_Some in Ef as (y & _ & Hy & Hf). rewrite Nat.sub_0_r in Hy. cbn. rewrite Hy. destruct (decide (i = e)) as [->|Hie].
    + rewrite He in Hy. injection Hy as <-. apply isCluster_true in Hf as (F1 & F2 & F3).
      rewrite (ck_clean _ I e c He) by (done || lia). rewrite F1, F2, F3.
      apply (view_miss s'). intros i y. unfold s'. cbn [entrycache with_entries]. rewrite list_lookup_insert. case_decide as E.
      * intros [= <-]. apply not_true_is_false. intros (G1 & G2 & G3)%isCluster_true. apply (Hnk e c He). split_and!; congruence.
      * intros Hi. apply not_true_is_false. intros (G1 & G2 & G3)%isCluster_true. apply E. split; [|by eapply lookup_lt_Some].
        symmetry. eapply (ck_unique _ I i e y c); try done; [lia|]. split_and!; congruence.
    + eapply (view_hit s' p sl j i y); try done. unfold s'. cbn [entrycache with_entries]. by rewrite list_lookup_insert_ne.
  - cbn. pose proof (findEntry_None _ _ _ Ef) as Hno. destruct (decide (p = port /\ sl = slot /\ j = k)) as [(-> & -> & ->)|Hne].
    + rewrite <- Hd. eapply (view_hit s' port slot k e x); try done. by apply list_lookup_insert_eq.
    + apply (view_miss s'). intros i y. unfold s'. cbn [entrycache with_entries]. rewrite list_lookup_insert. case_decide as E.
      * intros [= <-]. apply not_true_is_false. intros (G1 & G2 & G3)%isCluster_true. apply Hne. split_and!; congruence.
      * intros Hi. apply Hno. by eapply list_elem_of_lookup_2.
Qed.

(** Entry [c] taken for cluster [k]. *)
Definition loaded (s : mcst) (port slot k : Z) (c : McCacheEntry) : McCacheEntry :=
  e_data (cluster_data (card s) port slot k) (e_rd 0 (e_cluster k (e_owner port slot c))).
Definition load (s : mcst) (port slot k : Z) (e : nat) (c : McCacheEntry) : mcst :=
  with_mccache (e :: filter (fun x => x <> e) (mccache s)) (with_entries (<[e := loaded s port slot k c]> (entrycache s)) s).

(** The end of [mcman_readcluster], once entry [e] may be given up. *)
Lemma miss_load (s : mcst) d junk port slot k e c Q : mccache s ≡ₚ seq 0 MAX_CACHEENTRY -> card_ok (card s) -> has_dev s port slot d -> geometry d ->
  length junk = 32%nat -> entrycache s !! e = Some c -> length (cl_data c) = 1024%nat -> (e < MAX_CACHEENTRY)%nat -> Q (0, Some e) (load s port slot k e c) ->
  wp (mcmod e (fun c => e_rd 0 (e_cluster k (e_owner port slot c))) ;;;
      ok <- loadPages junk port slot k d e ;;
      if negb ok then ret (-21, None) else mcman_addcacheentry e ;;; ret (sceMcResSucceed, Some e)) s Q.
Proof.
  intros HP K Hd G Hj Hc Hl Hem HQ. apply wp_bind. eapply wp_mcmod; [exact Hc|]. set (c1 := e_rd 0 _). set (s1 := with_entries _ s).
  assert (Hc1 : entrycache s1 !! e = Some c1) by (apply list_lookup_insert_eq; by eapply lookup_lt_Some).
  apply wp_bind. eapply (loadPages_ok s1 d junk port slot k e c1); [done|by apply (has_dev_same s)|done|done|done|done|].
  cbn [negb]. change (with_entries (<[e:=?x]> (entrycache s1)) s1) with (with_entries (<[e:=x]> (<[e:=c1]> (entrycache s))) s).
  rewrite list_insert_insert_eq. apply wp_bind. eapply addcacheentry_ok; [done|done|]. apply wp_ret. exact HQ.
Qed.

Lemma miss_post (s : mcst) port slot k e c : cache_ok s -> 0 <= k -> 0 <= port < 256 -> 0 <= slot < 65536 -> mccache s !! 35%nat = Some e ->
  entrycache s !! e = Some c -> wr_flag c = 0 -> (forall i y, entrycache s !! i = Some y -> isCluster port slot k y = false) ->
  read_post s port slot k e (loaded s port slot k c) (load s port slot k e c).
Proof.
  intros I Hk Hp Hs He Hc Hw Hno. set (x := loaded s port slot k c).
  assert (Hem : (e < MAX_CACHEENTRY)%nat) by (rewrite <- (ck_length _ I); by eapply lookup_lt_Some).
  assert (HX : isCluster port slot k x = true) by (apply isCluster_true; unfold x, loaded; cbn; unfold u8, u16; rewrite !Z.mod_small by lia; done).
  destruct (cache_replace s e c x port slot k I Hc Hw Hk Hno HX Hw eq_refl) as [I2 V2].
  { intros p sl j. unfold cluster_data. rewrite length_app, !(fun n => proj1 (page_bytes _ p sl n (ck_card _ I))). lia. }
  split; try done.
  - apply list_lookup_insert_eq. by eapply lookup_lt_Some.
  - symmetry. by apply view_miss.
  - apply (cache_ok_order (with_entries (<[e := x]> (entrycache s)) s)); [|done]. apply front_perm; [apply I2|done].
  - intros i Hi. by apply list_lookup_insert_ne.
  - by right.
  - by right.
Qed.

(** The entry [mcman_readcluster] takes on a miss. *)
Lemma victim_in (s : mcst) : cache_ok s -> exists e c, mccache s !! 35%nat = Some e /\ entrycache s !! e = Some c /\ (e < MAX_CACHEENTRY)%nat.
Proof.
  intros I. assert (Hlen : length (mccache s) = MAX_CACHEENTRY) by (rewrite (ck_order _ I); apply length_seq).
  destruct (lookup_lt_is_Some_2 (mccache s) 35) as [e He]; [rewrite Hlen; unfold MAX_CACHEENTRY; lia|].
  assert (Hin : e ∈ mccache s) by (by eapply list_elem_of_lookup_2). rewrite (ck_order _ I) in Hin. apply elem_of_seq in Hin.
  destruct (lookup_lt_is_Some_2 (entrycache s) e) as [c Hc]; [rewrite (ck_length _ I); lia|]. exists e, c. split_and!; [done|done|lia].
Qed.

(** A hit, or a miss: then the entry used longest ago is written back where it
    must, and taken. *)
Lemma readcluster_cases (s : mcst) d fuel junk port slot k Q : cache_ok s -> has_dev s port slot d ->
  badblock s <= 0 -> 0 <= k ->
  (forall e c s', entrycache s !! e = Some c -> read_post s port slot k e c s' -> Q (0, Some e) s') ->
  (forall e c, mccache s !! 35%nat = Some e -> entrycache s !! e = Some c -> (e < MAX_CACHEENTRY)%nat ->
     (forall i y, entrycache s !! i = Some y -> isCluster port slot k y = false) ->
     wp (r <- (if negb (wr_flag c =? 0) then mcman_flushcacheentry fuel junk e else ret sceMcResSucceed) ;;
         if negb (r =? sceMcResSucceed) then ret (r, None)
         else mcmod e (fun c => e_rd 0 (e_cluster k (e_owner port slot c))) ;;;
           ok <- loadPages junk port slot k d e ;;
           if negb ok then ret (-21, None) else mcman_addcacheentry e ;;; ret (sceMcResSucceed, Some e)) s Q) ->
  wp (mcman_readcluster fuel junk port slot k) s Q.
Proof.
  intros I Hd Hb Hk HQ HM. unfold mcman_readcluster. apply wp_bind. eapply wp_Done; [exact Hd|].
  apply wp_bind. eapply wp_Done; [reflexivity|]. rewrite (proj2 (Z.ltb_ge 0 (badblock s))) by lia. cbn [andb].
  apply wp_bind. eapply wp_Done; [reflexivity|]. unfold redirect. rewrite (proj2 (Z.ltb_ge 0 (badblock s))) by lia. cbv beta.
  apply wp_bind. eapply wp_Done; [reflexivity|]. destruct (findEntry (isCluster port slot k) 0 (entrycache s)) as [e|] eqn:Ef.
  - apply findEntry_Some in Ef as (c & _ & Hc & Hf). rewrite Nat.sub_0_r in Hc.
    assert (He : (e < MAX_CACHEENTRY)%nat) by (rewrite <- (ck_length _ I); by eapply lookup_lt_Some).
    apply wp_bind. eapply addcacheentry_ok; [apply I|done|]. apply wp_ret. apply (HQ e c); [done|]. split; try done.
    + symmetry. by eapply view_hit.
    + apply cache_ok_order; [|done]. apply front_perm; [apply I|done].
    + by left.
    + by left.
  - pose proof (findEntry_None _ _ _ Ef) as Hno. destruct (victim_in s I) as (e & c & He & Hc & Hem).
    apply wp_bind. eapply wp_Done; [reflexivity|]. apply wp_bind. eapply wp_Done; [unfold at_; change (Z.of_nat MAX_CACHEENTRY - 1 <? 0) with false; cbv iota; change (Z.to_nat (Z.of_nat MAX_CACHEENTRY - 1)) with 35%nat; by rewrite He|].
    apply wp_bind. eapply wp_mce; [exact Hc|]. apply (HM e c He Hc Hem). intros i y Hi. apply Hno. by eapply list_elem_of_lookup_2.
Qed.

Lemma readcluster_ok (s : mcst) d fuel junk port slot k Q : cache_ok s -> has_dev s port slot d -> geometry d -> length junk = 32%nat ->
  badblock s <= 0 -> 0 <= k -> 0 <= port < 256 -> 0 <= slot < 65536 -> victim_clean s ->
  (forall e c s', read_post s port slot k e c s' -> Q (0, Some e) s') -> wp (mcman_readcluster fuel junk port slot k) s Q.
Proof.
  intros I Hd G Hj Hb Hk Hp Hs HV HQ. apply (readcluster_cases s d); [done..|intros e c s' _; apply HQ|].
  intros e c He Hc Hem Hno. pose proof (HV e c He Hc) as Hw. rewrite Hw. change (negb (0 =? 0)) with false. cbv iota. apply wp_bind, wp_ret.
  change (negb (sceMcResSucceed =? sceMcResSucceed)) with false. cbv iota.
  apply (miss_load s d junk port slot k e c); [apply I|apply I|done|done|done|done|by apply (ck_data _ I e)|done|].
  apply (HQ e (loaded s port slot k c)). by apply miss_post.
Qed.
End Cards.

(** ** Pages that cannot be read right *)

Section Faults.
Context {C : Type} {IO : CardIO C}.
Notation mcst := (mcst C).

(** ** A wrong bit *)

(** Page [n] is read as [pg] with a bit of its first 128 bytes flipped; the
    spare bytes are those of [pg]. *)
Record wrong_bit (s : mcst) (port slot n : Z) (pg sp : list Z) (j : nat) (b : Z) : Prop := {
  wb_length : length pg = 512%nat;
  wb_bytes : Forall (fun x => 0 <= x < 256) pg;
  wb_place : (j < 128)%nat /\ 0 <= b < 8;
  wb_code : take 12 sp = eccOf 4 pg /\ length sp = 16%nat;
  wb_written : nth 15 sp 0 <> 0 /\ nth 15 sp 0 <> 255;
  wb_read : io_readpage port slot n (card s) = Done (Some (flip j b pg, sp)) (card s)
}.

Section Page.
Context (s : mcst) (port slot n : Z) (pg sp : list Z) (j : nat) (b : Z) (d : MCDevInfo).
Hypothesis W : wrong_bit s port slot n pg sp j b.
Hypothesis G : geometry d.
Hypothesis behind_code : (12 <= j)%nat.

(** An attempt, up to what [mcman_correctdata] does. *)
Lemma attempt_pieces retries r buf ecc : length buf = 512%nat -> length ecc = 32%nat -> readAttempt d port slot n retries (r, buf, ecc) s =
  match correctPieces 4 0 (flip j b pg) (eccOf 4 pg ++ drop 12 sp ++ drop 16 ecc) r with
  | None => Undef
  | Some (ecres, eccbuf) =>
      Done (if ecres =? sceMcResSucceed then inr (flip j b pg)
            else if (retries =? 4) && negb (ecres <? sceMcResNoFormat) then inr (flip j b pg)
            else inl (ecres, flip j b pg, eccbuf)) s
  end.
Proof.
  intros Lb Le. destruct W as [W1 W2 W3 [W4 W5] [W6 W7] W8]. unfold readAttempt, bind at 1.
  assert (Er : on_card (io_readpage port slot n) s = Done (Some (flip j b pg, sp)) s) by (unfold on_card; rewrite W8; by destruct s).
  rewrite Er, (g_ecc _ G).
  assert (Lf : length (flip j b pg) = 512%nat) by (unfold flip; by rewrite length_alter).
  assert (Eb : put_bytes 0 (flip j b pg) buf = flip j b pg) by (unfold put_bytes; rewrite drop_ge by lia; by rewrite app_nil_r).
  assert (El : put_bytes 0 sp ecc !! 15%nat = Some (nth 15 sp 0)).
  { unfold put_bytes. simpl take. rewrite app_nil_l, lookup_app_l by lia. rewrite nth_lookup.
    destruct (lookup_lt_is_Some_2 sp 15) as [x ->]; [lia|done]. }
  assert (Ea : at_ (put_bytes 0 sp ecc) 15 s = Done (nth 15 sp 0) s) by (unfold at_; change (15 <? 0) with false; cbv iota; change (Z.to_nat 15) with 15%nat; by rewrite El).
  assert (Ee : put_bytes 0 sp ecc = eccOf 4 pg ++ (drop 12 sp ++ drop 16 ecc)).
  { unfold put_bytes. rewrite <- W4, (app_assoc (take 12 sp)), take_drop, W5. done. }
  unfold bind, sparesizeOf. rewrite (g_pagesize _ G), Eb. change (Z.shiftr (512 + 0x1F) 5 - 1) with 15. rewrite Ea.
  rewrite (proj2 (Z.eqb_neq (nth 15 sp 0) _)) by (destruct (nz _); done).
  change (Z.to_nat (Z.shiftr (512 + 127) 7)) with 4%nat. rewrite Ee. destruct (correctPieces _ _ _ _ _) as [[x y]|]; [|done].
  destruct (x =? _); [done|]. by destruct (_ && _).
Qed.

Lemma tail_length ecc : length ecc = 32%nat -> length (drop 12 sp ++ drop 16 ecc) = 20%nat.
Proof. intros Le. rewrite length_app, !length_drop, Le, (proj2 (wb_code _ _ _ _ _ _ _ _ W)). done. Qed.

(** The fifth attempt lets the page pass; the others go on. *)
Lemma attempt_passes retries r buf ecc Q : (j < 32)%nat -> -1 <= r <= 0 -> length buf = 512%nat -> length ecc = 32%nat ->
  (forall ecc', length ecc' = 32%nat -> Q (if retries =? 4 then inr (flip j b pg) else inl (-1, flip j b pg, ecc')) s) ->
  wp (readAttempt d port slot n retries (r, buf, ecc)) s Q.
Proof.
  intros Hj Hr Lb Le HQ. unfold wp. rewrite attempt_pieces by done. pose proof (tail_length ecc Le) as Lt. pose proof (wb_place _ _ _ _ _ _ _ _ W) as [P1 P2].
  rewrite correctPieces_flip; [|apply W|apply W|lia|done|done].
  destruct (lookup_lt_is_Some_2 (drop 12 sp ++ drop 16 ecc) (j - 12)) as [x ->]; [lia|].
  change (-1 =? sceMcResSucceed) with false. change (negb (-1 <? sceMcResNoFormat)) with true. rewrite andb_true_r.
  specialize (HQ (eccOf 4 pg ++ <[(j - 12)%nat := u8 (Z.lxor x (Z.shiftl 1 b))]> (drop 12 sp ++ drop 16 ecc))).
  rewrite length_app, length_eccOf, length_insert, Lt in HQ. destruct (retries =? 4); by apply HQ.
Qed.

Lemma wrong_bit_passes junk buf Q : (j < 32)%nat -> has_dev s port slot d -> length junk = 32%nat -> length buf = 512%nat ->
  Q (0, flip j b pg) s -> wp (McReadPage junk port slot n buf) s Q.
Proof.
  intros Hj Hd Lj Lb HQ. unfold McReadPage. apply wp_bind. eapply wp_Done; [exact Hd|]. apply wp_bind. cbn [for_break].
  assert (Lf : length (flip j b pg) = 512%nat) by (unfold flip; rewrite length_alter; apply W).
  apply wp_bind. apply attempt_passes; [done|unfold sceMcResSucceed; lia|done|done|]. intros e1 L1. cbn [Z.eqb].
  apply wp_bind. apply attempt_passes; [done|lia|done|done|]. intros e2 L2. cbn [Z.eqb Pos.eqb].
  apply wp_bind. apply attempt_passes; [done|lia|done|done|]. intros e3 L3. cbn [Z.eqb Pos.eqb].
  apply wp_bind. apply attempt_passes; [done|lia|done|done|]. intros e4 L4. cbn [Z.eqb Pos.eqb].
  apply wp_bind. apply attempt_passes; [done|lia|done|done|]. intros e5 L5. cbn [Z.eqb Pos.eqb].
  apply wp_ret. cbv beta iota. by apply wp_ret.
Qed.

(** Further on the store misses [eccbuf]. *)
Lemma wrong_bit_undef junk buf : (32 <= j)%nat -> has_dev s port slot d -> length junk = 32%nat -> length buf = 512%nat ->
  McReadPage junk port slot n buf s = Undef.
Proof.
  intros Hj Hd Lj Lb. pose proof (wb_place _ _ _ _ _ _ _ _ W) as [P1 P2]. pose proof (tail_length junk Lj) as Lt.
  assert (HU : readAttempt d port slot n 0 (sceMcResSucceed, buf, junk) s = Undef).
  { rewrite attempt_pieces by done. rewrite correctPieces_flip; [|apply W|apply W|lia|done|unfold sceMcResSucceed; lia]. by rewrite lookup_ge_None_2 by lia. }
  unfold McReadPage, bind. rewrite Hd. cbn [for_break]. unfold bind. by rewrite HU.
Qed.
End Page.

(** ** A page that is not read *)

Section Unread.
Context (port slot : Z) (d : MCDevInfo).
Hypothesis port_ok : 0 <= port < 256.
Hypothesis slot_ok : 0 <= slot < 65536.
Hypothesis G : geometry d.

Definition unreadable (s : mcst) : Prop := forall n, io_readpage port slot n (card s) = Done None (card s).

Lemma readPage_fails (s : mcst) junk n buf : has_dev s port slot d -> unreadable s -> McReadPage junk port slot n buf s = Done (sceMcResChangedCard, buf) s.
Proof.
  intros Hd Hu. assert (Ha : forall t st, readAttempt d port slot n t st s = Done (inl st) s).
  { intros t [[x y] z]. unfold readAttempt, bind, on_card. rewrite Hu. by destruct s. }
  unfold McReadPage, bind at 1. rewrite Hd. unfold bind at 1. cbn [for_break]. unfold bind. by rewrite !Ha.
Qed.

Lemma put_take off len (b : list Z) : put_bytes off (take len (drop (Z.to_nat off) b)) b = b.
Proof.
  unfold put_bytes. set (o := Z.to_nat off). rewrite length_take, length_drop. etransitivity; [|apply (take_drop o b)]. f_equal.
  etransitivity; [|apply (take_drop len (drop o b))]. f_equal. rewrite drop_drop. destruct (decide (len <= length b - o)%nat).
  - f_equal. lia.
  - rewrite !drop_ge; [done|lia..].
Qed.

Lemma e_data_same c : e_data (cl_data c) c = c.
Proof. by destruct c. Qed.

Lemma loadPages_fails (s : mcst) junk k e c : has_dev s port slot d -> unreadable s -> entrycache s !! e = Some c -> loadPages junk port slot k d e s = Done false s.
Proof.
  intros Hd Hu Hc. unfold loadPages. rewrite (g_pages _ G). change (Z.to_nat 2) with 2%nat. cbn [seq for_break].
  unfold bind. unfold mce at 1. rewrite Hc, readPage_fails by done. unfold mcmod at 1. rewrite Hc, put_take, e_data_same, list_insert_id by done.
  by destruct s.
Qed.

(** The first read fails and leaves its entry with the name of the cluster
    and the data of another; the second one finds it. *)
Lemma stale_read (s : mcst) fuel junk k v c : has_dev s port slot d -> unreadable s -> badblock s <= 0 ->
  mccache s ≡ₚ seq 0 MAX_CACHEENTRY -> length (entrycache s) = MAX_CACHEENTRY -> mccache s !! 35%nat = Some v -> entrycache s !! v = Some c -> wr_flag c = 0 ->
  (forall i e, entrycache s !! i = Some e -> isCluster port slot k e = false) ->
  exists s1 s2 c', mcman_readcluster fuel junk port slot k s = Done (-21, None) s1 /\ mcman_readcluster fuel junk port slot k s1 = Done (0, Some v) s2 /\
    entrycache s2 !! v = Some c' /\ isCluster port slot k c' = true /\ cl_data c' = cl_data c.
Proof.
  intros Hd Hu Hb HP Hl Hv Hc Hw Hno. pose proof (lookup_lt_Some _ _ _ Hc) as Hlt. set (c' := e_rd 0 (e_cluster k (e_owner port slot c))).
  set (s1 := with_entries (<[v := c']> (entrycache s)) s). assert (Hd1 : has_dev s1 port slot d) by (by apply (has_dev_same s)).
  assert (Hc1 : entrycache s1 !! v = Some c') by (by apply list_lookup_insert_eq).
  assert (HX : isCluster port slot k c' = true) by (apply isCluster_true; unfold c'; cbn; unfold u8, u16; rewrite !Z.mod_small by lia; done).
  assert (E1 : mcman_readcluster fuel junk port slot k s = Done (-21, None) s1).
  { unfold mcman_readcluster, bind at 1. rewrite Hd. unfold bind at 1, gets at 1. rewrite (proj2 (Z.ltb_ge 0 (badblock s))) by lia. cbn [andb].
    unfold bind at 1, gets at 1, redirect. rewrite (proj2 (Z.ltb_ge 0 (badblock s))) by lia. unfold bind at 1, mcman_getcacheentry, gets at 1.
    destruct (findEntry (isCluster port slot k) 0 (entrycache s)) as [i|] eqn:Ef.
    { apply findEntry_Some in Ef as (x & _ & Hx & Hf). by rewrite (Hno _ _ Hx) in Hf. }
    unfold bind at 1, gets at 1. unfold bind at 1, at_. change (Z.of_nat MAX_CACHEENTRY - 1 <? 0) with false. cbv iota.
    change (Z.to_nat (Z.of_nat MAX_CACHEENTRY - 1)) with 35%nat. rewrite Hv. unfold ret at 1, bind at 1, mce at 1. rewrite Hc, Hw. cbn [Z.eqb negb].
    unfold bind at 1, ret at 1. change (negb (sceMcResSucceed =? sceMcResSucceed)) with false. cbv iota. unfold bind at 1, mcmod at 1. rewrite Hc.
    fold c' s1. unfold bind at 1. rewrite (loadPages_fails s1 junk k v c') by done. done. }
  assert (Ef : findEntry (isCluster port slot k) 0 (entrycache s1) = Some v).
  { destruct (findEntry (isCluster port slot k) 0 (entrycache s1)) as [i|] eqn:Ef.
    - apply findEntry_Some in Ef as (x & _ & Hx & Hf). rewrite Nat.sub_0_r in Hx. destruct (decide (i = v)) as [->|Hne]; [done|].
      unfold s1 in Hx. cbn [entrycache with_entries] in Hx. rewrite list_lookup_insert_ne in Hx by done. by rewrite (Hno _ _ Hx) in Hf.
    - exfalso. eapply findEntry_None in Ef; [|by eapply list_elem_of_lookup_2]. congruence. }
  assert (E2 : wp (mcman_readcluster fuel junk port slot k) s1 (fun r s2 => r = (0, Some v) /\ entrycache s2 = entrycache s1)).
  { unfold mcman_readcluster. apply wp_bind. eapply wp_Done; [exact Hd1|]. apply wp_bind. eapply wp_Done; [reflexivity|].
    change (badblock s1) with (badblock s). rewrite (proj2 (Z.ltb_ge 0 (badblock s))) by lia. cbn [andb]. apply wp_bind. eapply wp_Done; [reflexivity|].
    unfold redirect. change (badblock s1) with (badblock s). rewrite (proj2 (Z.ltb_ge 0 (badblock s))) by lia. cbv beta.
    apply wp_bind. eapply wp_Done; [reflexivity|]. rewrite Ef. apply wp_bind. eapply addcacheentry_ok; [exact HP|lia|]. apply wp_ret. done. }
  apply wp_inv in E2 as (r & s2 & E2 & -> & E3). exists s1, s2, c'. rewrite E3. split_and!; done.
Qed.
End Unread.
End Faults.
