(* ===== verification/McFat.v ===== *)
(** * McFat: the file allocation table of memory cards

    An entry of the table is found by way of an indirect cluster, both read
    through the cache: [mcman_getFATentry] and [mcman_setFATentry] read and
    write an array of integers, whatever of it is cached.
    Its clients: [mcman_fatRseek] finds the cluster of a position by its chain,
    with the place it kept in the handle; [mcman_findfree2] finds, counts and
    reserves free entries. *)

From stdpp Require Import base numbers list.
From Stdlib Require Import ZArith Lia.
From S2P Require Import Prelude McUtil Mc McCache.

Open Scope Z_scope.
Open Scope c_scope.

(** ** Words of a cluster *)

Lemma u8_byte x : 0 <= u8 x < 256.
Proof. apply Z.mod_pos_bound. lia. Qed.
Lemma u8_u8 x : u8 (u8 x) = u8 x.
Proof. apply Z.mod_small, u8_byte. Qed.

Lemma u8_shift_u32 v k : 0 <= k <= 24 -> u8 (Z.shiftr (u32 v) k) = u8 (Z.shiftr v k).
Proof.
  intros Hk. unfold u8, u32. apply Z.bits_inj'. intros n Hn. destruct (Z.ltb_spec n 8).
  - rewrite !Z.mod_pow2_bits_low, !Z.shiftr_spec, Z.mod_pow2_bits_low by lia. done.
  - by rewrite !Z.mod_pow2_bits_high by lia.
Qed.

Lemma bytes_of_word_u32 v : bytes_of_word (u32 v) = bytes_of_word v.
Proof.
  unfold bytes_of_word. rewrite !u8_shift_u32 by lia. f_equal.
  pose proof (u8_shift_u32 v 0 ltac:(lia)) as E. by rewrite !Z.shiftr_0_r in E.
Qed.

Lemma word_bytes v : word_of_bytes (u8 v) (u8 (Z.shiftr v 8)) (u8 (Z.shiftr v 16)) (u8 (Z.shiftr v 24)) = u32 v.
Proof.
  pose proof (words_of_bytes_of_word (u32 v) [] (u32_range v)) as E. rewrite app_nil_r, bytes_of_word_u32 in E. by injection E.
Qed.

Lemma s32_u32 x : s32 (u32 x) = s32 x.
Proof. unfold s32. by rewrite u32_idem. Qed.

Lemma nth_app_mid {A} (a b c : list A) o i d : length a = o -> nth (o + i) (a ++ b ++ c) d = nth i (b ++ c) d.
Proof. intros <-. rewrite app_nth2 by lia. f_equal. lia. Qed.

Lemma fatEntry_set_eq k v data : length data = 1024%nat -> 0 <= k < 256 -> fatEntry (setFatEntry k v data) k = s32 v.
Proof.
  intros Hl Hk. unfold fatEntry, setFatEntry. set (o := Z.to_nat (4 * k)). assert (Ho : length (take o data) = o) by (rewrite length_take; lia).
  rewrite <- (Nat.add_0_r o) at 1. rewrite !(nth_app_mid (take o data) (bytes_of_word v)) by done. cbn [bytes_of_word app nth].
  rewrite word_bytes. apply s32_u32.
Qed.

Lemma nth_set_ne k v data i : length data = 1024%nat -> 0 <= k < 256 -> (i < Z.to_nat (4 * k) \/ Z.to_nat (4 * k) + 4 <= i)%nat ->
  nth i (setFatEntry k v data) 0 = nth i data 0.
Proof.
  intros Hl Hk Hi. unfold setFatEntry. set (o := Z.to_nat (4 * k)) in *. rewrite !nth_lookup. f_equal. destruct Hi as [Hi|Hi].
  - rewrite lookup_app_l by (rewrite length_take; lia). apply lookup_take_lt. lia.
  - rewrite lookup_app_r by (rewrite length_take; lia). rewrite length_take, lookup_app_r by (simpl; lia). rewrite lookup_drop. f_equal. simpl length. lia.
Qed.

Lemma fatEntry_set_ne k j v data : length data = 1024%nat -> 0 <= k < 256 -> 0 <= j < 256 -> j <> k ->
  fatEntry (setFatEntry k v data) j = fatEntry data j.
Proof. intros Hl Hk Hj Hne. unfold fatEntry. rewrite !nth_set_ne by (done || lia). done. Qed.

Lemma length_setFatEntry k v data : length data = 1024%nat -> 0 <= k < 256 -> length (setFatEntry k v data) = 1024%nat.
Proof. intros Hl Hk. unfold setFatEntry. rewrite !length_app, length_take, length_drop. simpl. lia. Qed.

(** ** What may wait in the cache *)

(** What a client keeps of the cache, so that the entry to be reused never
    waits to be written: [keeps] holds of the state, reads of the clusters
    [covers] preserve it, and so do steps that do not change the cache. *)
Record policy {C : Type} {IO : CardIO C} {PG : CardPages C} (port slot : Z) := {
  keeps : mcst C -> Prop;
  covers : Z -> Prop;
  keeps_victim s : cache_ok s -> keeps s -> victim_clean s;
  keeps_read s k e c s' : keeps s -> covers k -> 0 <= k -> read_post s port slot k e c s' -> keeps s';
  keeps_same s s' : entrycache s' = entrycache s -> mccache s' = mccache s -> keeps s -> keeps s';
  keeps_touch s e c v : keeps s -> entrycache s !! e = Some c -> keeps (with_entries (<[e := e_rd v c]> (entrycache s)) s)
}.
Arguments keeps {C IO PG port slot}. Arguments covers {C IO PG port slot}.

(** An entry after a store into its data. *)
Definition stored (f : list Z -> list Z) (c : McCacheEntry) : McCacheEntry := e_wr 1 (e_data (f (cl_data c)) c).

(** The policies under which clusters may also be written. *)
Class Writable {C : Type} {IO : CardIO C} {PG : CardPages C} {port slot : Z} (K : policy port slot) : Prop :=
  keeps_store s e c k f : keeps K s -> entrycache s !! e = Some c -> isCluster port slot k c = true -> 0 <= k -> covers K k ->
    keeps K (with_entries (<[e := stored f c]> (entrycache s)) s).

Section Policies.
Context {C : Type} {IO : CardIO C} {PG : CardPages C}.
Notation mcst := (mcst C).
Context (port slot : Z).

(** Nothing waits: any cluster can be read, none written. *)
Definition clean (s : mcst) : Prop := forall i c, entrycache s !! i = Some c -> wr_flag c = 0.

Definition cleanPolicy : policy port slot.
Proof.
  refine {| keeps := clean; covers _ := True |}.
  - intros s _ H v c _. apply H.
  - intros s k e c s' H _ _ R i x Hx. destruct (decide (i = e)) as [->|Hne].
    + rewrite (rp_entry _ _ _ _ _ _ _ R) in Hx. injection Hx as <-. destruct (rp_wr _ _ _ _ _ _ _ R) as [He|He]; [by eapply H|done].
    + rewrite (rp_others _ _ _ _ _ _ _ R) in Hx by done. by eapply H.
  - intros s s' E _ H i c. rewrite E. apply H.
  - intros s e c v H He i x. cbn [entrycache with_entries]. rewrite list_lookup_insert. case_decide; [|apply H]. intros [= <-]. exact (H _ _ He).
Defined.

(** Only clusters of [l] wait, and [l] is shorter than the cache. *)
Section Hot.
Context (l : list Z) (fits : (length l < MAX_CACHEENTRY)%nat).

Definition hot (c : McCacheEntry) : Prop := mc_port c = port /\ mc_slot c = slot /\ 0 <= cluster c /\ cluster c ∈ l.

(** The entries with clusters of [l] were all used later than the others, and
    only they can be waiting to be written. *)
Definition settled (s : mcst) : Prop := exists l1 l2, mccache s = l1 ++ l2 /\
  (forall v, v ∈ l1 -> exists c, entrycache s !! v = Some c /\ hot c) /\
  (forall v, v ∈ l2 -> exists c, entrycache s !! v = Some c /\ wr_flag c = 0 /\ ~ hot c).

Lemma hot_few (s : mcst) x : cache_ok s -> NoDup x -> (forall v, v ∈ x -> exists c, entrycache s !! v = Some c /\ hot c) -> (length x <= length l)%nat.
Proof.
  intros I Hn Hh. set (f := fun v => match entrycache s !! v with Some c => cluster c | None => -1 end).
  rewrite <- (length_fmap f x). apply submseteq_length, NoDup_submseteq.
  - apply NoDup_fmap_2_strong; [|done]. intros u y Hx Hy E. destruct (Hh u Hx) as (a & Ha & A1 & A2 & A3 & _), (Hh y Hy) as (b & Hb & B1 & B2 & _).
    unfold f in E. rewrite Ha, Hb in E. apply (ck_unique _ I u y a b); try done. split_and!; congruence.
  - intros u (v & -> & Hv)%list_elem_of_fmap. destruct (Hh v Hv) as (c & Hc & _ & _ & _ & Hk). unfold f. by rewrite Hc.
Qed.

Lemma settled_victim (s : mcst) : cache_ok s -> settled s -> victim_clean s.
Proof.
  intros I (l1 & l2 & El & H1 & H2) v c Hv Hc.
  assert (Hn : NoDup (mccache s)) by (rewrite (ck_order _ I); apply NoDup_seq). rewrite El in Hn, Hv. apply NoDup_app in Hn as (Hn & _ & _).
  pose proof (hot_few s l1 I Hn H1). pose proof fits as F. unfold MAX_CACHEENTRY in F. rewrite lookup_app_r in Hv by lia.
  destruct (H2 v) as (x & Hx & Hw & _); [by eapply list_elem_of_lookup_2|]. congruence.
Qed.

Lemma settled_read (s : mcst) k e c s' : settled s -> k ∈ l -> 0 <= k -> read_post s port slot k e c s' -> settled s'.
Proof.
  intros (l1 & l2 & El & H1 & H2) Hk Hk0 R. exists (e :: filter (fun x => x <> e) l1), (filter (fun x => x <> e) l2). split_and!.
  - rewrite (rp_order _ _ _ _ _ _ _ R), El, filter_app. done.
  - intros v Hv. apply elem_of_cons in Hv as [->|Hv]; [|apply list_elem_of_filter in Hv as [Hne Hv]].
    + exists c. split; [apply R|]. destruct (proj1 (isCluster_true _ _ _ _) (rp_is _ _ _ _ _ _ _ R)) as (<- & <- & <-). done.
    + rewrite (rp_others _ _ _ _ _ _ _ R) by done. by apply H1.
  - intros v Hv. apply list_elem_of_filter in Hv as [Hne Hv]. rewrite (rp_others _ _ _ _ _ _ _ R) by done. by apply H2.
Qed.

Lemma settled_change (s : mcst) e c c' : settled s -> entrycache s !! e = Some c -> same_key c c' -> wr_flag c' = wr_flag c \/ hot c ->
  settled (with_entries (<[e := c']> (entrycache s)) s).
Proof.
  intros (l1 & l2 & El & H1 & H2) He (E1 & E2 & E3) Hw. assert (Hh : hot c' <-> hot c) by (unfold hot; by rewrite E1, E2, E3).
  exists l1, l2. split_and!; [done|intros v Hv|intros v Hv]; cbn [entrycache with_entries]; rewrite list_lookup_insert; case_decide as Hd; try by auto.
  - destruct Hd as [<- _]. exists c'. split; [done|]. apply Hh. destruct (H1 e Hv) as (x & Hx & Hhx). congruence.
  - destruct Hd as [<- _]. exists c'. destruct (H2 e Hv) as (x & Hx & Hwx & Hnx). rewrite He in Hx. injection Hx as <-.
    rewrite Hh. destruct Hw as [-> | Hw]; done.
Qed.

Definition hotPolicy : policy port slot.
Proof.
  refine {| keeps := settled; covers k := k ∈ l; keeps_victim := settled_victim; keeps_read := settled_read |}.
  - intros s s' Ee Em. unfold settled. rewrite Ee, Em. exact id.
  - intros s e c v H He. by apply (settled_change s e c); [| |split_and!|left].
Defined.

#[export] Instance hot_writable : Writable hotPolicy.
Proof.
  intros s e c k f H He Hc Hk HK. apply (settled_change s e c); [done|done|by split_and!|]. right.
  apply isCluster_true in Hc as (E1 & E2 & E3). unfold hot. rewrite E1, E2, E3. done.
Qed.

End Hot.
End Policies.

(** ** A store into a cached cluster *)

Section Fat.
Context {C : Type} {IO : CardIO C} {PG : CardPages C}.
Notation mcst := (mcst C).

Context (port slot : Z) (K : policy (C := C) port slot).
Hypothesis port_ok : 0 <= port < 256.
Hypothesis slot_ok : 0 <= slot < 65536.

Lemma store_ok (s : mcst) e c c' k : cache_ok s -> entrycache s !! e = Some c -> isCluster port slot k c = true -> 0 <= k ->
  same_key c c' -> wr_flag c' <> 0 -> length (cl_data c') = 1024%nat ->
  let s' := with_entries (<[e := c']> (entrycache s)) s in
  cache_ok s' /\ view s' port slot k = cl_data c' /\
  forall p sl j, 0 <= j -> (p, sl, j) <> (port, slot, k) -> view s' p sl j = view s p sl j.
Proof.
  intros I He Hc Hk Hky Hw Hl s'. pose proof (lookup_lt_Some _ _ _ He) as Hlt.
  assert (Hlk : forall i y, entrycache s' !! i = Some y -> exists x : McCacheEntry, entrycache s !! i = Some x /\ same_key x y /\ (i = e \/ y = x)).
  { intros i y. unfold s'. cbn [entrycache with_entries]. rewrite list_lookup_insert. case_decide as E.
    - destruct E as [<- _]. intros [= <-]. exists c. split_and!; try done. by left.
    - intros Hi. exists y. split_and!; try done. by right. }
  assert (He' : entrycache s' !! e = Some c') by (by apply list_lookup_insert_eq).
  assert (I' : cache_ok s').
  { split; cbn [mccache card with_entries s'].
    - unfold s'. cbn. rewrite length_insert. apply I.
    - apply I.
    - intros i y Hy. destruct (Hlk _ _ Hy) as (x & Hx & _ & [-> | ->]); [|by apply (ck_data _ I i)].
      rewrite He' in Hy. injection Hy as <-. done.
    - intros i j a b Ha Hb Hp (E1 & E2 & E3). destruct (Hlk _ _ Ha) as (x & Hx & (X1 & X2 & X3) & _), (Hlk _ _ Hb) as (y & Hy & (Y1 & Y2 & Y3) & _).
      apply (ck_unique _ I i j x y); try done; [lia|]. split_and!; congruence.
    - intros i y Hy Hp Hw0. destruct (Hlk _ _ Hy) as (x & Hx & _ & [-> | ->]); [|by apply (ck_clean _ I i)].
      rewrite He' in Hy. injection Hy as <-. done.
    - apply I. }
  split; [done|]. pose proof (proj1 (isCluster_true _ _ _ _) Hc) as (E1 & E2 & E3). destruct Hky as (K1 & K2 & K3).
  assert (Hc' : isCluster port slot k c' = true) by (apply isCluster_true; split_and!; congruence). split.
  - rewrite (proj2 (view_hit s' port slot k e _ I' Hk He' Hc')). done.
  - intros p sl j Hj Hne. unfold view at 2. destruct (findEntry (isCluster p sl j) 0 (entrycache s)) as [i|] eqn:Ef.
    + apply findEntry_Some in Ef as (y & _ & Hy & Hf). rewrite Nat.sub_0_r in Hy. cbn. rewrite Hy.
      eapply (view_hit s' p sl j i y); try done. unfold s'. cbn [entrycache with_entries]. rewrite list_lookup_insert_ne; [done|].
      intros <-. rewrite He in Hy. injection Hy as <-. apply isCluster_true in Hf as (F1 & F2 & F3). congruence.
    + cbn. apply (view_miss s'). intros i y Hy. destruct (Hlk _ _ Hy) as (x & Hx & (X1 & X2 & X3) & _).
      assert (Hx' : isCluster p sl j x = false) by (eapply findEntry_None; [exact Ef|by eapply list_elem_of_lookup_2]).
      apply not_true_is_false. intros (G1 & G2 & G3)%isCluster_true. rewrite (proj2 (isCluster_true p sl j x)) in Hx'; [done|]. split_and!; congruence.
Qed.

(** ** The table *)

(** Entry [i] is in the cluster [fatclust s i] of the table, which entry
    [i / 256] of the indirect clusters [ifcOf] names. *)
Definition ifcOf (d : MCDevInfo) (i : Z) : Z := nth (Z.to_nat (i / 65536)) (ifc_list d) (-1).
Definition fatclust (d : MCDevInfo) (s : mcst) (i : Z) : Z := fatEntry (view s port slot (ifcOf d i)) ((i / 256) mod 256).
Definition fat (d : MCDevInfo) (s : mcst) (i : Z) : Z := fatEntry (view s port slot (fatclust d s i)) (i mod 256).

(** The table of [N] entries is laid out in clusters that [K] covers, none twice. *)
Record fat_inv (d : MCDevInfo) (N : Z) (s : mcst) : Prop := {
  fi_dev : has_dev s port slot d;
  fi_geometry : geometry d;
  fi_cache : cache_ok s;
  fi_bad : badblock s <= 0;
  fi_keeps : keeps K s;
  fi_size : N <= 2 ^ 31;
  fi_ifc : forall i, 0 <= i < N -> 0 <= ifcOf d i < 2 ^ 31 /\ covers K (ifcOf d i);
  fi_clust : forall i, 0 <= i < N -> 0 <= fatclust d s i /\ covers K (fatclust d s i);
  fi_inj : forall i j, 0 <= i < N -> 0 <= j < N -> fatclust d s i = fatclust d s j -> i / 256 = j / 256;
  fi_apart : forall i j, 0 <= i < N -> 0 <= j < N -> fatclust d s i <> ifcOf d j
}.

Definition same_views (s s' : mcst) : Prop := forall p sl j, 0 <= j -> view s' p sl j = view s p sl j.

Lemma fatclust_same d N s s' i : fat_inv d N s -> same_views s s' -> 0 <= i < N -> fatclust d s' i = fatclust d s i.
Proof. intros F V Hi. unfold fatclust. rewrite V; [done|]. by apply (fi_ifc _ _ _ F). Qed.
Lemma fat_same d N s s' i : fat_inv d N s -> same_views s s' -> 0 <= i < N -> fat d s' i = fat d s i.
Proof. intros F V Hi. unfold fat. rewrite (fatclust_same d N s s' i F V Hi), V; [done|]. by apply (fi_clust _ _ _ F). Qed.

Lemma fat_inv_same d N s s' : fat_inv d N s -> same_views s s' -> cache_ok s' -> keeps K s' -> devinfos s' = devinfos s -> badblock s' = badblock s ->
  fat_inv d N s'.
Proof.
  intros F V I HS Ed Eb. assert (HF : forall i, 0 <= i < N -> fatclust d s' i = fatclust d s i) by (intros i; by apply fatclust_same).
  destruct F as [F1 F2 F3 F4 F5 F6 F7 F8 F9 F10].
  split; try done; [by apply (has_dev_same s)|by rewrite Eb|..].
  - intros i Hi. rewrite HF by done. by apply F8.
  - intros i j Hi Hj. rewrite !HF by done. by apply F9.
  - intros i j Hi Hj. rewrite HF by done. by apply F10.
Qed.

(** What reading a cluster of the table leaves. *)
Record in_cache (s : mcst) (k : Z) (e : nat) : Prop := {
  ic_entry : exists c, entrycache s !! e = Some c /\ isCluster port slot k c = true /\ cl_data c = view s port slot k
}.

(** A store of entry [i]: that entry of the table changes, and no other. *)
Lemma fat_store `{!Writable K} d N s i v e : fat_inv d N s -> 0 <= i < N -> in_cache s (fatclust d s i) e -> exists c, entrycache s !! e = Some c /\
  let s' := with_entries (<[e := stored (setFatEntry (i mod 256) v) c]> (entrycache s)) s in
  fat_inv d N s' /\ forall j, 0 <= j < N -> fat d s' j = if j =? i then s32 v else fat d s j.
Proof.
  intros F Hi [(c & Hc & Hk & Ec)]. exists c. split; [done|]. destruct (fi_clust _ _ _ F i Hi) as [P HK].
  pose proof (ck_data _ (fi_cache _ _ _ F) _ _ Hc) as Hl. pose proof (Z.mod_pos_bound i 256 ltac:(lia)) as Hm.
  pose proof (keeps_store s e c _ (setFatEntry (i mod 256) v) (fi_keeps _ _ _ F) Hc Hk P HK) as S'.
  destruct (store_ok s e c (stored (setFatEntry (i mod 256) v) c) _ (fi_cache _ _ _ F) Hc Hk P) as (I' & Vk & Vo);
    [by split_and!|done|by apply length_setFatEntry|]. set (s' := with_entries _ s) in *. cbv zeta. cbn [cl_data stored e_wr e_data] in Vk.
  assert (HF : forall j, 0 <= j < N -> fatclust d s' j = fatclust d s j).
  { intros j Hj. unfold fatclust. rewrite Vo; [done|by apply (fi_ifc _ _ _ F)|]. intros [= E]. by apply (fi_apart _ _ _ F i j). }
  assert (F' : fat_inv d N s').
  { destruct F as [F1 F2 F3 F4 F5 F6 F7 F8 F9 F10]. split; try done.
    - by apply (has_dev_same s).
    - intros j Hj. rewrite HF by done. by apply F8.
    - intros j j' Hj Hj'. rewrite !HF by done. by apply F9.
    - intros j j' Hj Hj'. rewrite HF by done. by apply F10. }
  split; [done|]. intros j Hj. unfold fat. rewrite HF by done. pose proof (Z.mod_pos_bound j 256 ltac:(lia)) as Hm'.
  destruct (decide (fatclust d s j = fatclust d s i)) as [E|E].
  - apply (fi_inj _ _ _ F) in E as E'; [|done|done]. rewrite E, Vk, <- Ec. destruct (Z.eqb_spec j i) as [->|Hne].
    + by apply fatEntry_set_eq.
    + apply fatEntry_set_ne; try done. intros Em. apply Hne. rewrite (Z.div_mod i 256), (Z.div_mod j 256) by lia. by rewrite E', Em.
  - rewrite Vo; [|by apply (fi_clust _ _ _ F)|congruence]. destruct (Z.eqb_spec j i) as [->|]; [done|done].
Qed.

Section Ops.
Context (fuel : nat) (junk : list Z).
Hypothesis junk_ok : length junk = 32%nat.

Lemma wp_read d N s k Q : fat_inv d N s -> covers K k -> 0 <= k ->
  (forall e s', fat_inv d N s' -> same_views s s' -> fdhandles s' = fdhandles s -> in_cache s' k e -> Q (0, Some e) s') ->
  wp (mcman_readcluster fuel junk port slot k) s Q.
Proof.
  intros F HK Hk HQ. eapply readcluster_ok; try done; try apply F; [apply (keeps_victim _ _ K); apply F|].
  intros e c s' R. assert (V : same_views s s') by (intros p sl j; apply R). apply HQ; [|done| |].
  - eapply fat_inv_same; try done; [apply R| |apply R|apply R]. eapply (keeps_read _ _ K); try done. apply F.
  - apply R.
  - split. exists c. split_and!; try apply R. rewrite V by done. apply R.
Qed.

Lemma wp_fatCluster d N s i e1 e2 Q : fat_inv d N s -> 0 <= i < N ->
  (forall e s', fat_inv d N s' -> same_views s s' -> fdhandles s' = fdhandles s -> in_cache s' (fatclust d s' i) e -> Q (inl (e, i mod 256)) s') ->
  wp (fatCluster fuel junk port slot i e1 e2) s Q.
Proof.
  intros F Hi HQ. pose proof (fi_size _ _ _ F) as HN. pose proof (fi_geometry _ _ _ F) as G. destruct (fi_ifc _ _ _ F i Hi) as [Hr HK].
  unfold fatCluster. apply wp_bind. eapply wp_Done; [apply F|]. rewrite (g_fat _ G). change (256 =? 0) with false. cbv iota.
  assert (B1 : 0 <= i / 256 < 2 ^ 31) by (split; [apply Z.div_pos; lia|apply Z.div_lt_upper_bound; lia]).
  assert (B2 : 0 <= i / 256 / 256 < 2 ^ 31) by (split; [apply Z.div_pos; lia|apply Z.div_lt_upper_bound; lia]).
  pose proof (Z.mod_pos_bound i 256 ltac:(lia)). pose proof (Z.mod_pos_bound (i / 256) 256 ltac:(lia)).
  rewrite (u32_small i) by (unfold is_u32; lia). rewrite (s32_small (i / 256)), (s32_small (i mod 256)) by lia.
  rewrite (u32_small (i / 256)) by (unfold is_u32; lia). rewrite (s32_small ((i / 256) mod 256)), (s32_small (i / 256 / 256)) by lia.
  replace (i / 256 / 256) with (i / 65536) by (by rewrite Z.div_div by lia). rewrite Z.div_div in B2 by lia.
  apply wp_bind. assert (Ea : at_ (ifc_list d) (i / 65536) s = Done (ifcOf d i) s).
  { unfold at_. rewrite (proj2 (Z.ltb_ge _ 0)) by (apply Z.div_pos; lia). unfold ifcOf in *. rewrite nth_lookup in *.
    destruct (ifc_list d !! _); [done|cbn in Hr; lia]. }
  eapply wp_Done; [exact Ea|]. rewrite s32_small by done. apply wp_bind. eapply wp_read; [exact F|done|lia|].
  intros e s1 F1 V1 H1 [(c & Hc & _ & Ec)]. cbv beta iota. apply wp_bind. eapply wp_mce; [exact Hc|]. rewrite Ec. fold (fatclust d s1 i).
  destruct (fi_clust _ _ _ F1 i Hi) as [P2 K2]. apply wp_bind. eapply wp_read; [exact F1|done|done|].
  intros e' s2 F2 V2 H2 IC. cbv beta iota. apply wp_ret. apply HQ; [done| |congruence|].
  - intros p sl j Hj. rewrite V2, V1 by done. done.
  - by rewrite (fatclust_same d N s1 s2 i F1 V2 Hi).
Qed.

Lemma wp_getFAT d N s i Q : fat_inv d N s -> 0 <= i < N ->
  (forall s', fat_inv d N s' -> same_views s s' -> fdhandles s' = fdhandles s -> Q (0, fat d s i) s') -> wp (mcman_getFATentry fuel junk port slot i) s Q.
Proof.
  intros F Hi HQ. unfold mcman_getFATentry. apply wp_bind. eapply wp_fatCluster; [exact F|done|]. intros e s' F' V' H' [(c & Hc & _ & Ec)]. cbv beta iota.
  apply wp_bind. eapply wp_mce; [exact Hc|]. apply wp_ret. rewrite Ec. fold (fat d s' i). rewrite (fat_same d N s s' i F V' Hi). by apply HQ.
Qed.

Lemma wp_setFAT `{!Writable K} d N s i v Q : fat_inv d N s -> 0 <= i < N ->
  (forall s', fat_inv d N s' -> fdhandles s' = fdhandles s -> (forall j, 0 <= j < N -> fat d s' j = if j =? i then s32 v else fat d s j) -> Q 0 s') ->
  wp (mcman_setFATentry fuel junk port slot i v) s Q.
Proof.
  intros F Hi HQ. unfold mcman_setFATentry. apply wp_bind. eapply wp_fatCluster; [exact F|done|]. intros e s1 F1 V1 H1 IC. cbv beta iota.
  destruct (fat_store d N s1 i v e F1 Hi IC) as (c & Hc & F2 & HF). apply wp_bind. eapply wp_mcmod; [exact Hc|]. apply wp_ret.
  apply HQ; [done|done|]. intros j Hj. etransitivity; [by apply HF|]. by rewrite (fat_same d N s s1 j F V1 Hj).
Qed.

(** Any sequence of reads and writes of entries. *)
Inductive fatOp := FatGet (i : Z) | FatSet (i v : Z).

Definition fatRun (op : fatOp) : M mcst Z :=
  match op with
  | FatGet i => let* (r, v) := mcman_getFATentry fuel junk port slot i in ret v
  | FatSet i v => mcman_setFATentry fuel junk port slot i v
  end.

Fixpoint fatRuns (ops : list fatOp) : M mcst (list Z) :=
  match ops with
  | [] => ret []
  | op :: ops' => r <- fatRun op ;; rs <- fatRuns ops' ;; ret (r :: rs)
  end.

(** The same on a function. *)
Definition arrayRun (op : fatOp) (f : Z -> Z) : Z * (Z -> Z) :=
  match op with
  | FatGet i => (f i, f)
  | FatSet i v => (0, fun j => if j =? i then s32 v else f j)
  end.

Fixpoint arrayRuns (ops : list fatOp) (f : Z -> Z) : list Z * (Z -> Z) :=
  match ops with
  | [] => ([], f)
  | op :: ops' => let '(r, f) := arrayRun op f in let '(rs, f) := arrayRuns ops' f in (r :: rs, f)
  end.

Definition opIndex (op : fatOp) : Z := match op with FatGet i => i | FatSet i _ => i end.

Definition models (d : MCDevInfo) (N : Z) (f : Z -> Z) (s : mcst) : Prop := fat_inv d N s /\ forall j, 0 <= j < N -> fat d s j = f j.

Lemma wp_fatRun `{!Writable K} d N op f s Q : models d N f s -> 0 <= opIndex op < N -> (forall s', models d N (arrayRun op f).2 s' -> Q (arrayRun op f).1 s') ->
  wp (fatRun op) s Q.
Proof.
  intros [F HF] Hi HQ. destruct op as [i|i v]; cbn [opIndex fatRun arrayRun fst snd] in *.
  - apply wp_bind. eapply wp_getFAT; [exact F|done|]. intros s' F' V' _. cbv beta iota. apply wp_ret. rewrite HF by done. apply HQ. split; [done|].
    intros j Hj. by rewrite (fat_same d N s s' j F V' Hj), HF.
  - eapply wp_setFAT; [exact F|done|]. intros s' F' _ V'. apply HQ. split; [done|]. intros j Hj. rewrite V', HF by done. done.
Qed.

Lemma wp_fatRuns `{!Writable K} d N ops : Forall (fun op => 0 <= opIndex op < N) ops -> forall f s Q, models d N f s ->
  (forall s', models d N (arrayRuns ops f).2 s' -> Q (arrayRuns ops f).1 s') -> wp (fatRuns ops) s Q.
Proof.
  induction 1 as [|op ops Hop _ IH]; intros f s Q HM HQ; cbn [fatRuns arrayRuns] in *; [by apply wp_ret, HQ|].
  apply wp_bind. eapply wp_fatRun; [exact HM|done|]. intros s1 H1. destruct (arrayRun op f) as [r f1]. cbn [fst snd] in *.
  apply wp_bind. eapply IH; [exact H1|]. intros s2 H2. destruct (arrayRuns ops f1) as [rs f2]. cbn [fst snd] in *. apply wp_ret. by apply HQ.
Qed.

End Ops.
End Fat.

(** ** Following and growing chains *)

(** Cluster [k] of the chain that starts at [c]; entries from -1 on end it. *)
Fixpoint follow (f : Z -> Z) (k : nat) (c : Z) : option Z :=
  match k with
  | O => Some c
  | S k' => if -1 <=? f c then None else follow f k' (Z.land (f c) 0x7fffffff)
  end.

Lemma follow_add f a : forall b c, follow f (a + b) c = follow f a c ≫= follow f b.
Proof. induction a as [|a IH]; intros b c; [done|]. cbn [Nat.add follow]. destruct (_ <=? _); [done|]. apply IH. Qed.

Lemma follow_step f m c x : follow f m c = Some x -> f x < -1 -> follow f (S m) c = Some (Z.land (f x) 0x7fffffff).
Proof.
  intros H Hx. rewrite <- Nat.add_1_r, follow_add, H. cbn. by rewrite (proj2 (Z.leb_gt _ _)).
Qed.

Lemma follow_end f m p c x : follow f m c = Some x -> -1 <= f x -> (m < p)%nat -> follow f p c = None.
Proof.
  intros H Hx Hp. replace p with (m + S (p - S m))%nat by lia. rewrite follow_add, H. cbn. by rewrite (proj2 (Z.leb_le _ _)).
Qed.

Definition linked (f : Z -> Z) (N : Z) : Prop := forall i, 0 <= i < N -> f i < -1 -> 0 <= Z.land (f i) 0x7fffffff < N.

Lemma follow_range f N : linked f N -> forall k c x, 0 <= c < N -> follow f k c = Some x -> 0 <= x < N.
Proof.
  intros L. induction k as [|k IH]; intros c x Hc; cbn [follow]; [by intros [= <-]|]. destruct (Z.leb_spec (-1) (f c)); [done|].
  apply IH. apply L; lia.
Qed.

Section Seek.
Context {C : Type} {IO : CardIO C} {PG : CardPages C}.
Notation mcst := (mcst C).
Context (port slot : Z) (K : policy (C := C) port slot).
Hypothesis port_ok : 0 <= port < 256.
Hypothesis slot_ok : 0 <= slot < 65536.
Context (fuel : nat) (junk : list Z).
Hypothesis junk_ok : length junk = 32%nat.
Context (d : MCDevInfo) (N : Z).
Notation models := (models port slot K d N).

(** ** Seeking *)

(** The place kept in a handle is on the chain of its file. *)
Record handle_ok (f : Z -> Z) (h : MC_FHANDLE) : Prop := {
  ho_port : fh_port h = port;
  ho_slot : fh_slot h = slot;
  ho_first : 0 <= freeclink h < N;
  ho_offset : 0 <= clust_offset h < 2 ^ 31;
  ho_place : follow f (Z.to_nat (clust_offset h)) (freeclink h) = Some (clink h);
  ho_position : 0 <= position h < 2 ^ 31
}.

Definition moved (h h' : MC_FHANDLE) : Prop := freeclink h' = freeclink h /\ position h' = position h /\ status h' = status h /\ filesize h' = filesize h.

Lemma wp_fhandle (s : mcst) fd h Q : fdhandles s !! fd = Some h -> Q h s -> wp (fhandle fd) s Q.
Proof. intros Hh HQ. eapply wp_Done; [|exact HQ]. unfold fhandle. by rewrite Hh. Qed.
Lemma wp_fhmod (s : mcst) fd h g Q : fdhandles s !! fd = Some h -> Q tt (with_fdhandles (<[fd := g h]> (fdhandles s)) s) -> wp (fhmod fd g) s Q.
Proof. intros Hh HQ. eapply wp_Done; [|exact HQ]. unfold fhmod. by rewrite Hh. Qed.

Lemma models_handles f (s : mcst) x : models f s -> models f (with_fdhandles x s).
Proof.
  intros [F HF]. assert (V : same_views s (with_fdhandles x s)) by (intros p sl j _; unfold view; reflexivity). split.
  - eapply (fat_inv_same port slot K d N s); [exact F|exact V| | |reflexivity|reflexivity].
    + destruct (fi_cache _ _ _ _ _ _ F) as [I1 I2 I3 I4 I5]. by split.
    + by apply (keeps_same _ _ K s), F.
  - intros j Hj. rewrite (fat_same port slot K d N s _ j F V Hj). by apply HF.
Qed.

(** What a seek to cluster [p] of the file of [h] gives. *)
Definition seek_result (f : Z -> Z) (p : nat) (h : MC_FHANDLE) (r : Z) : Prop :=
  match follow f p (freeclink h) with
  | Some c => r = s32 (c + alloc_offset d)
  | None => r = sceMcResFullDevice
  end.

Definition seek_post (f : Z -> Z) (p : nat) (fd : nat) (h : MC_FHANDLE) (s : mcst) (r : Z) (s' : mcst) : Prop :=
  models f s' /\ same_views s s' /\ seek_result f p h r /\ exists h', fdhandles s' = <[fd := h']> (fdhandles s) /\ handle_ok f h' /\ moved h h'.

Lemma wp_seekStep f fd h (s0 s : mcst) h1 m c entries : linked f N -> models f s -> same_views s0 s -> fdhandles s = <[fd := h1]> (fdhandles s0) -> (fd < length (fdhandles s0))%nat ->
  handle_ok f h1 -> moved h h1 -> 0 < cluster_size d -> position h / cluster_size d = Z.of_nat m + entries -> 0 < entries ->
  follow f m (freeclink h) = Some c ->
  wp (fatSeekStep fuel junk fd d (c, entries)) s (fun r s' =>
    match r with
    | inl (c', entries') => entries' = entries - 1 /\ 0 < entries' /\ follow f (S m) (freeclink h) = Some c' /\ models f s' /\ same_views s0 s' /\
        exists h', fdhandles s' = <[fd := h']> (fdhandles s0) /\ handle_ok f h' /\ moved h h'
    | inr r => seek_post f (m + Z.to_nat entries) fd h s0 r s'
    end).
Proof.
  intros L [F HF] V0 Hfd Hlen H1 (M1 & M2 & M3) Hcs Hp He Hm. pose proof H1 as [E1 E2 E3 E4 E5 E6].
  assert (Hc : 0 <= c < N) by (eapply follow_range; [exact L| |exact Hm]; lia).
  assert (Hlk : fdhandles s !! fd = Some h1) by (rewrite Hfd; by apply list_lookup_insert_eq).
  unfold fatSeekStep. apply wp_bind. eapply wp_fhandle; [exact Hlk|]. rewrite E1, E2.
  apply wp_bind. eapply (wp_getFAT port slot K); try done. intros s1 F1 V1 Hh1. cbv beta iota. change (negb (0 =? sceMcResSucceed)) with false. cbv iota.
  assert (HM : models f s1) by (split; [done|]; intros j Hj; rewrite (fat_same port slot K d N s s1 j F V1 Hj); by apply HF).
  assert (V2 : same_views s0 s1) by (intros p sl j Hj; rewrite V1, V0 by done; done).
  rewrite HF by done. destruct (Z.leb_spec (-1) (f c)) as [Hend|Hnext].
  - apply wp_ret. refine (conj HM (conj V2 (conj _ (ex_intro _ h1 (conj _ (conj H1 (conj M1 (conj M2 M3)))))))).
    + unfold seek_result. rewrite (follow_end f m _ _ c Hm Hend) by lia. done.
    + by rewrite Hh1.
  - pose proof (follow_step _ _ _ _ Hm Hnext) as Hm'. set (c' := Z.land _ _) in *.
    apply wp_bind. eapply wp_fhmod; [rewrite Hh1; exact Hlk|]. set (h' := fh_setPlace _ _ _).
    assert (Hq : u32 (position h1 / cluster_size d - (entries - 1)) = Z.of_nat (S m)).
    { rewrite M2, Hp. rewrite u32_small; [lia|]. unfold is_u32. assert (position h / cluster_size d <= position h) by (apply Z.div_le_upper_bound; nia). lia. }
    assert (Hpm : position h / cluster_size d <= position h) by (apply Z.div_le_upper_bound; nia).
    assert (Hok : handle_ok f h').
    { pose proof (L c Hc Hnext) as Hc'. pose proof (fi_size _ _ _ _ _ _ F) as HN.
      split; try done; unfold h'; cbn [clust_offset fh_setPlace freeclink clink].
      - rewrite Hq. lia.
      - rewrite Hq, Nat2Z.id, M1. rewrite u32_small by (unfold is_u32; lia). done. }
    assert (Hmv : moved h h') by done.
    assert (Hd' : <[fd := h']> (fdhandles s1) = <[fd := h']> (fdhandles s0)) by (rewrite Hh1, Hfd; apply list_insert_insert_eq).
    destruct (Z.ltb_spec 0 (entries - 1)).
    + apply wp_ret. refine (conj eq_refl (conj H (conj Hm' (conj (models_handles f s1 _ HM) (conj V2 _))))). exists h'. exact (conj Hd' (conj Hok Hmv)).
    + apply wp_ret. refine (conj (models_handles f s1 _ HM) (conj V2 (conj _ (ex_intro _ h' (conj Hd' (conj Hok Hmv)))))). unfold seek_result.
      replace (m + Z.to_nat entries)%nat with (S m) by lia. by rewrite Hm'.
Qed.

Lemma wp_fatRseek f fd h (s : mcst) Q : linked f N -> models f s -> fdhandles s !! fd = Some h -> handle_ok f h -> 0 < cluster_size d ->
  (Z.to_nat (position h / cluster_size d) < fuel)%nat ->
  (forall r s', seek_post f (Z.to_nat (position h / cluster_size d)) fd h s r s' -> Q r s') -> wp (mcman_fatRseek fuel junk fd) s Q.
Proof.
  intros L HM Hh Ho Hcs Hfuel HQ. pose proof Ho as [E1 E2 E3 E4 E5 E6]. pose proof (lookup_lt_Some _ _ _ Hh) as Hlen.
  set (p := position h / cluster_size d) in *. assert (Hp : 0 <= p < 2 ^ 31).
  { split; [apply Z.div_pos; lia|]. apply Z.div_lt_upper_bound; nia. }
  assert (Hid : fdhandles s = <[fd := h]> (fdhandles s)) by (by rewrite list_insert_id).
  unfold mcman_fatRseek. apply wp_bind. eapply wp_fhandle; [exact Hh|]. rewrite E1, E2. apply wp_bind. eapply wp_Done; [apply HM|].
  rewrite (proj2 (Z.eqb_neq _ 0)) by lia. cbv zeta. fold p. rewrite (s32_small p) by lia. rewrite (u32_small p) by (unfold is_u32; lia).
  assert (HN : N <= 2 ^ 31) by apply HM.
  assert (Hx : exists m c e, (if p <? clust_offset h then (s32 (freeclink h), p) else (s32 (clink h), s32 (p - clust_offset h))) = (c, e) /\
    p = Z.of_nat m + e /\ 0 <= e /\ follow f m (freeclink h) = Some c /\ 0 <= c < N).
  { destruct (Z.ltb_spec p (clust_offset h)).
    - exists 0%nat, (freeclink h), p. rewrite s32_small by lia. split_and!; try done; lia.
    - pose proof (follow_range _ _ L _ _ _ E3 E5). exists (Z.to_nat (clust_offset h)), (clink h), (p - clust_offset h). rewrite !s32_small by lia. split_and!; try done; lia. }
  destruct Hx as (m & c & e & -> & Hpe & He & Hf & Hc). destruct (Z.eqb_spec e 0) as [->|Hne].
  - apply wp_ret. rewrite (proj2 (Z.leb_le 0 c)) by lia. apply HQ. refine (conj HM (conj _ (conj _ (ex_intro _ h (conj Hid (conj Ho _)))))); [done| |done].
    unfold seek_result. replace (Z.to_nat p) with m by lia. by rewrite Hf.
  - eapply wp_while with
      (I := fun '(c, e) s' => exists m, p = Z.of_nat m + e /\ 0 < e /\ follow f m (freeclink h) = Some c /\ models f s' /\ same_views s s' /\
              exists h', fdhandles s' = <[fd := h']> (fdhandles s) /\ handle_ok f h' /\ moved h h')
      (v := fun '(_, e) _ => Z.to_nat e).
    + clear c e Hpe He Hf Hc Hne m. intros [c e] s1 (m & Hpe & He & Hf & HM1 & V1 & h1 & Hh1 & Ho1 & Hm1).
      eapply wp_mono; [eapply (wp_seekStep f fd h s s1 h1 m c e); done|]. intros [[c' e']|r] s2.
      * intros (-> & He' & Hf' & HM2 & V2 & Hx). split; [|lia]. exists (S m). refine (conj _ (conj He' (conj Hf' (conj HM2 (conj V2 Hx))))). lia.
      * intros HP. apply HQ. by replace (Z.to_nat p) with (m + Z.to_nat e)%nat by lia.
    + exists m. refine (conj Hpe (conj _ (conj Hf (conj HM (conj _ _))))); [lia|done|]. exists h. exact (conj Hid (conj Ho (conj eq_refl (conj eq_refl (conj eq_refl eq_refl))))).
    + lia.
Qed.

(** ** Free entries *)

Fixpoint firstFree (f : Z -> Z) (i : Z) (n : nat) : option Z :=
  match n with
  | O => None
  | S n' => if 0 <=? f i then Some i else firstFree f (i + 1) n'
  end.

Fixpoint countFree (f : Z -> Z) (i : Z) (n : nat) : Z :=
  match n with
  | O => 0
  | S n' => (if 0 <=? f i then 1 else 0) + countFree f (i + 1) n'
  end.

(** The clusters of the table's entries lie behind the first block. *)
Record layout : Prop := {
  ly_block : 0 < clusters_per_block d <= alloc_offset d;
  ly_offset : alloc_offset d + 255 < 2 ^ 31;
  ly_start : 0 <= unknown2 d;
  ly_max : max_allocatable_clusters d <= N
}.

Lemma devinfo_mod (s : mcst) g Q : has_dev s port slot d ->
  (forall s', has_dev s' port slot (g d) -> entrycache s' = entrycache s -> mccache s' = mccache s -> card s' = card s -> badblock s' = badblock s ->
     fdhandles s' = fdhandles s -> Q tt s') ->
  wp (devinfomod port slot g) s Q.
Proof.
  unfold has_dev, devinfo, devinfomod, wp. intros Hd HQ. destruct (_ || _) eqn:Eb; [done|]. destruct (devinfos s !! _) as [l|] eqn:El; [|done].
  destruct (l !! _) as [x|] eqn:Ex; [|done]. injection Hd as ->. apply HQ; try reflexivity. unfold with_devinfos. cbn [devinfos].
  rewrite list_lookup_insert_eq by (by eapply lookup_lt_Some). by rewrite list_lookup_insert_eq by (by eapply lookup_lt_Some).
Qed.

(** The table does not depend on where the search for free entries starts. *)
Lemma models_start f g (s s' : mcst) v : (forall j, 0 <= j < N -> g j = f j) -> models f s -> has_dev s' port slot (set_unknown2 v d) -> entrycache s' = entrycache s ->
  mccache s' = mccache s -> card s' = card s -> badblock s' = badblock s -> McFat.models port slot K (set_unknown2 v d) N g s'.
Proof.
  intros Hg [F HF] Hd Ee Em Ec Eb.
  assert (Hv : forall p sl j, view s' p sl j = view s p sl j) by (intros; unfold view; by rewrite Ee, Ec).
  assert (Hcl : forall i, fatclust port slot (set_unknown2 v d) s' i = fatclust port slot d s i).
  { intros i. unfold fatclust. rewrite Hv. reflexivity. }
  destruct F as [F1 [G1 G2 G3 G4] [I1 I2 I3 I4 I5] F4 F5 F6 F7 F8 F9 F10]. split; [split|].
  - done.
  - by split.
  - split; rewrite ?Ee, ?Em, ?Ec; done.
  - lia.
  - by apply (keeps_same _ _ K s).
  - done.
  - exact F7.
  - intros i Hi. rewrite Hcl. by apply F8.
  - intros i j Hi Hj. rewrite !Hcl. by apply F9.
  - intros i j Hi Hj. rewrite Hcl. by apply F10.
  - intros j Hj. rewrite Hg, <- HF by done. unfold fat. rewrite Hcl, Hv. done.
Qed.

Notation in_cache := (in_cache port slot).
Notation fatclust := (fatclust port slot d).

(** The two reads of a step that enters a cluster of the table. *)
Lemma wp_loadTable {B} f (s : mcst) i (k : nat -> M mcst B) (err : Z -> M mcst B) Q : models f s -> 0 <= i < N ->
  (forall e s', models f s' -> in_cache s' (fatclust s' i) e -> wp (k e) s' Q) ->
  wp (ifc <- at_ (ifc_list d) (i / 256 / 256) ;;
      let* (r, e) := mcman_readcluster fuel junk port slot (s32 ifc) in
      match e with
      | None => err r
      | Some e => c <- mce e ;;
          let* (r, e2) := mcman_readcluster fuel junk port slot (fatEntry (cl_data c) ((i / 256) mod 256)) in
          match e2 with None => err r | Some e2 => k e2 end
      end) s Q.
Proof.
  intros [F HF] Hi HQ. destruct (fi_ifc _ _ _ _ _ _ F i Hi) as [Hr HK]. rewrite Z.div_div by lia. change (256 * 256) with 65536.
  apply wp_bind. assert (Ea : at_ (ifc_list d) (i / 65536) s = Done (ifcOf d i) s).
  { unfold at_. rewrite (proj2 (Z.ltb_ge _ 0)) by (apply Z.div_pos; lia). unfold ifcOf in *. rewrite nth_lookup in *.
    destruct (ifc_list d !! _); [done|cbn in Hr; lia]. }
  eapply wp_Done; [exact Ea|]. rewrite s32_small by done. apply wp_bind. eapply (wp_read port slot K); [done..|exact F|done|lia|].
  intros e s1 F1 V1 _ [(c & Hc & _ & Ec)]. cbv beta iota. apply wp_bind. eapply wp_mce; [exact Hc|]. rewrite Ec. fold (fatclust s1 i).
  destruct (fi_clust _ _ _ _ _ _ F1 i Hi) as [P2 K2]. apply wp_bind. eapply (wp_read port slot K); [done..|exact F1|done|done|].
  intros e' s2 F2 V2 _ IC. cbv beta iota. apply HQ.
  - split; [done|]. intros j Hj. rewrite (fat_same port slot K d N s1 s2 j F1 V2 Hj), (fat_same port slot K d N s s1 j F V1 Hj). by apply HF.
  - by rewrite (fatclust_same port slot K d N s1 s2 i F1 V2 Hi).
Qed.

Context {W : Writable K}.

(** The entry itself, once its cluster is in cache entry [e]. *)
Lemma wp_takeFree f (s : mcst) reserve i e rfree Q : layout -> models f s -> 0 <= i < N -> in_cache s (fatclust s i) e ->
  (forall r, r = (if (0 <=? f i) then rfree + 1 else rfree) -> (0 <=? f i) && reserve = false -> Q (inl (i + 1, Some e, r)) s) ->
  (forall s', 0 <= f i -> reserve = true -> McFat.models port slot K (set_unknown2 i d) N (fun j => if j =? i then -1 else f j) s' -> Q (inr i) s') ->
  wp (c <- mce e ;; bad <- gets badblock ;;
      if 0 <=? fatEntry (cl_data c) (i mod 256) then
        if clusters_per_block d =? 0 then undef else
        if negb (s32 (u32 (alloc_offset d + i mod 256) / clusters_per_block d) =? bad) then
          if reserve then
            mcmod e (fun c => e_wr 1 (e_data (setFatEntry (i mod 256) 0xffffffff (cl_data c)) c)) ;;;
            devinfomod port slot (set_unknown2 i) ;;; ret (inr i)
          else ret (inl (i + 1, Some e, rfree + 1))
        else ret (inl (i + 1, Some e, rfree))
      else ret (inl (i + 1, Some e, rfree))) s Q.
Proof.
  intros [B1 B2 B3 B4] [F HF] Hi IC Hon Hres. pose proof IC as [(c & Hc & _ & Ec)]. pose proof (Z.mod_pos_bound i 256 ltac:(lia)) as Hm.
  apply wp_bind. eapply wp_mce; [exact Hc|]. apply wp_bind. eapply wp_Done; [reflexivity|]. rewrite Ec. fold (fat port slot d s i). rewrite HF by done.
  destruct (Z.leb_spec 0 (f i)) as [Hf|Hf]; [|by apply wp_ret, Hon].
  rewrite (proj2 (Z.eqb_neq _ 0)) by lia. assert (Hblk : 1 <= (alloc_offset d + i mod 256) / clusters_per_block d < 2 ^ 31).
  { split; [apply Z.div_le_lower_bound; lia|]. apply Z.div_lt_upper_bound; nia. }
  rewrite (u32_small (alloc_offset d + i mod 256)) by (unfold is_u32; lia). rewrite s32_small by lia. pose proof (fi_bad _ _ _ _ _ _ F).
  rewrite (proj2 (Z.eqb_neq _ (badblock s))) by lia. cbn [negb]. destruct reserve; [|by apply wp_ret, Hon].
  destruct (fat_store port slot K d N s i 0xffffffff e F Hi IC) as (c' & Hc' & F2 & HF2). apply wp_bind. eapply wp_mcmod; [exact Hc'|].
  apply wp_bind. eapply devinfo_mod; [apply F2|]. intros s2 Hd2 E1 E2 E3 E4 _. apply wp_ret. apply Hres; [done|done|].
  eapply models_start; [|split; [exact F2|exact HF2]|exact Hd2|exact E1|exact E2|exact E3|exact E4].
  intros j Hj. cbv beta. destruct (j =? i); [reflexivity|]. symmetry. by apply HF.
Qed.

Lemma wp_findfreeStep f (s : mcst) reserve i cur rfree Q : layout -> models f s -> 0 <= i < max_allocatable_clusters d ->
  (i = unknown2 d \/ i mod 256 = 0 \/ exists e, cur = Some e /\ in_cache s (fatclust s i) e) ->
  (forall s' e r, models f s' -> in_cache s' (fatclust s' i) e -> r = (if (0 <=? f i) then rfree + 1 else rfree) -> (0 <=? f i) && reserve = false ->
     Q (inl (i + 1, Some e, r)) s') ->
  (forall s', 0 <= f i -> reserve = true -> McFat.models port slot K (set_unknown2 i d) N (fun j => if j =? i then -1 else f j) s' -> Q (inr i) s') ->
  wp (findfreeStep fuel junk port slot reserve (unknown2 d) (i, cur, rfree)) s Q.
Proof.
  intros Ly HM Hi Hcur Hon Hres. pose proof (ly_max Ly) as Hmax. assert (Hd : has_dev s port slot d) by apply HM.
  assert (G : geometry d) by apply HM. unfold findfreeStep. apply wp_bind. eapply wp_Done; [exact Hd|].
  rewrite (proj2 (Z.ltb_lt i _)) by lia. cbn [negb]. rewrite (g_fat _ G). change (256 =? 0) with false. cbv iota zeta. apply wp_bind.
  destruct ((i mod 256 =? 0) || (i =? unknown2 d)) eqn:Ecnd.
  - apply (wp_loadTable f s i (fun e => ret (inl (Some e))) (fun r => ret (inr r))); [done|lia|]. intros e s1 HM1 IC1. apply wp_ret. cbv beta iota.
    apply (wp_takeFree f); [done|done|lia|done| |done]. intros r Hr Hb. by apply Hon.
  - apply orb_false_iff in Ecnd as [N1 N2]. apply Z.eqb_neq in N1, N2. destruct Hcur as [|[|(e & -> & IC)]]; [done|done|].
    apply wp_ret. cbv beta iota. apply (wp_takeFree f); [done|done|lia|done| |done]. intros r Hr Hb. by apply Hon.
Qed.

(** What the search returns, and the table it leaves. *)
Definition found (reserve : bool) (f : Z -> Z) (r : Z) (s' : mcst) : Prop :=
  let n := Z.to_nat (max_allocatable_clusters d - unknown2 d) in
  if reserve then
    match firstFree f (unknown2 d) n with
    | Some i => r = i /\ McFat.models port slot K (set_unknown2 i d) N (fun j => if j =? i then -1 else f j) s'
    | None => r = sceMcResFullDevice /\ models f s'
    end
  else r = (if countFree f (unknown2 d) n =? 0 then sceMcResFullDevice else countFree f (unknown2 d) n) /\ models f s'.

Lemma countFree_pos f n : forall i, 0 <= countFree f i n.
Proof. induction n as [|n IH]; intros i; cbn [countFree]; [lia|]. specialize (IH (i + 1)). destruct (_ <=? _); lia. Qed.

Lemma wp_findfree2 f (s : mcst) reserve Q : layout -> models f s ->
  (Z.to_nat (max_allocatable_clusters d - unknown2 d) < fuel)%nat -> (forall r s', found reserve f r s' -> Q r s') ->
  wp (mcman_findfree2 fuel junk port slot reserve) s Q.
Proof.
  intros Ly HM Hfuel HQ. unfold mcman_findfree2. apply wp_bind. eapply wp_Done; [apply HM|]. set (M := max_allocatable_clusters d) in *. set (u := unknown2 d) in *.
  pose proof (ly_start Ly) as Hu. fold u in Hu. pose proof (ly_max Ly) as Hmax. fold M in Hmax.
  eapply wp_while with
    (I := fun '(i, cur, rfree) s => models f s /\ u <= i /\ (i = u \/ i <= M) /\
            (i = u \/ i mod 256 = 0 \/ exists e, cur = Some e /\ (i < N -> in_cache s (fatclust s i) e)) /\
            (if reserve then firstFree f u (Z.to_nat (M - u)) = firstFree f i (Z.to_nat (M - i)) else True) /\
            countFree f u (Z.to_nat (M - u)) = rfree + countFree f i (Z.to_nat (M - i)))
    (v := fun '(i, _, _) _ => Z.to_nat (M - i)).
  - intros [[i cur] rfree] s1 (HM1 & Hi & HiM & Hcur & Hfr & Hcnt). destruct (Z.ltb_spec i M) as [Hlt|Hge].
    + assert (En : Z.to_nat (M - i) = S (Z.to_nat (M - (i + 1)))) by lia. rewrite En in Hfr, Hcnt. cbn [firstFree countFree] in Hfr, Hcnt.
      apply (wp_findfreeStep f); [done|done|lia| |..].
      * destruct Hcur as [|[|(e & -> & IC)]]; [by left|by right; left|]. right; right. exists e. split; [done|]. apply IC. lia.
      * intros s2 e r HM2 IC2 -> Hb. split; [|lia]. split; [done|]. split; [lia|]. split; [lia|]. split; [|split].
        -- destruct (Z.eqb_spec ((i + 1) mod 256) 0) as [|Hne]; [by right; left|]. right; right. exists e. split; [done|]. intros _.
           unfold McFat.fatclust in IC2 |- *. unfold ifcOf in *. replace ((i + 1) / 256) with (i / 256) by (Z.to_euclidean_division_equations; lia).
           by replace ((i + 1) / 65536) with (i / 65536) by (Z.to_euclidean_division_equations; lia).
        -- destruct reserve; [|done]. rewrite andb_true_r in Hb. by rewrite Hb in Hfr.
        -- rewrite Hcnt. destruct (0 <=? f i); lia.
      * intros s2 Hf -> HM2. apply HQ. unfold found. fold M u. rewrite (proj2 (Z.leb_le 0 (f i)) Hf) in Hfr. rewrite Hfr. split; [done|exact HM2].
    + unfold findfreeStep. apply wp_bind. eapply wp_Done; [apply HM1|]. fold M. rewrite (proj2 (Z.ltb_ge i M)) by lia. cbn [negb]. apply wp_ret. apply HQ.
      assert (En : Z.to_nat (M - i) = 0%nat) by lia. rewrite En in Hfr, Hcnt. cbn [firstFree countFree] in Hfr, Hcnt. unfold found. fold M u.
      destruct reserve; [by rewrite Hfr|]. split; [|done]. rewrite Hcnt, Z.add_0_r. unfold nz. by destruct (rfree =? 0).
  - split; [done|]. split; [lia|]. split; [by left|]. split; [by left|]. split; [by destruct reserve|lia].
  - done.
Qed.
End Seek.
