(* ===== verification/McFile.v ===== *)
(** * McFile: files and directories of memory cards

    iop/memorycard/mcman/src/main.c and ps2mc_fio.c, the file system of PS2
    cards over the cache and the table of [Mc]: directory entries and their
    search ([mcman_getdirinfo], [mcman_cachedirentry]), the release of chains
    ([mcman_setdirentrystate]), reading, writing and growing files
    ([mcman_read2], [mcman_write2], [mcman_fatWseek]), opening and creating
    ([mcman_open2]), and the recovery of an interrupted write
    ([mcman_checkBackupBlocks]). *)

From stdpp Require Import base numbers list.
From Stdlib Require Import ZArith Lia.
From S2P Require Import Prelude McUtil Mc.

Open Scope Z_scope.
Open Scope c_scope.

(** ** Constants *)

Definition sceMcResDeniedPermit : Z := -5.
Definition sceMcResNotEmpty : Z := -6.
Definition sceMcResUpLimitHandle : Z := -7.
Definition sceMcFileAttrReadable : Z := 0x01.
Definition sceMcFileAttrWriteable : Z := 0x02.
Definition sceMcFileAttrExecutable : Z := 0x04.
Definition sceMcFileAttrDupProhibit : Z := 0x08.
Definition sceMcFileAttrFile : Z := 0x10.
Definition sceMcFileAttrSubdir : Z := 0x20.
Definition sceMcFileCreateDir : Z := 0x0040.
Definition sceMcFileAttrClosed : Z := 0x0080.
Definition sceMcFileCreateFile : Z := 0x0200.
Definition sceMcFile0400 : Z := 0x0400.
Definition sceMcFileAttrPDAExec : Z := 0x0800.
Definition sceMcFileAttrPS1 : Z := 0x1000.
Definition sceMcFileAttrHidden : Z := 0x2000.
Definition sceMcFileAttrExists : Z := 0x8000.
Definition MAX_FDHANDLES : nat := 3.

(** ** Strings *)

(** A C string: the bytes before the NUL. *)
Fixpoint cstr (l : list Z) : list Z :=
  match l with
  | [] => []
  | x :: l' => if x =? 0 then [] else x :: cstr l'
  end.

(** [!strncmp(a, b, n)] on strings without their NUL. *)
Definition strncmp_eq (a b : list Z) (n : nat) : bool := bool_decide (take n (a ++ [0]) = take n (b ++ [0])).

(** [strncpy(dest, s, n)]: [n] bytes. *)
Definition strncpy_bytes (s : list Z) (n : nat) : list Z := take n (s ++ replicate n 0).

(** ** Directory entries *)

(** The fields of a [McFsEntry] from its bytes. *)
Definition le16 (l : list Z) (o : nat) : Z := u8 (nth o l 0) + u8 (nth (o + 1) l 0) * 2 ^ 8.
Definition le32 (l : list Z) (o : nat) : Z := word_of_bytes (nth o l 0) (nth (o + 1) l 0) (nth (o + 2) l 0) (nth (o + 3) l 0).
Definition fs_mode (l : list Z) : Z := le16 l 0.
Definition fs_length (l : list Z) : Z := le32 l 4.
Definition fs_created (l : list Z) : list Z := take 8 (drop 8 l).
Definition fs_cluster (l : list Z) : Z := le32 l 16.
Definition fs_dir_entry (l : list Z) : Z := le32 l 20.
Definition fs_modified (l : list Z) : list Z := take 8 (drop 24 l).
Definition fs_attr (l : list Z) : Z := le32 l 32.
Definition fs_name (l : list Z) : list Z := cstr (drop 64 l).

Definition bytes_of_half (v : Z) : list Z := [u8 v; u8 (Z.shiftr v 8)].
Definition set_fs_mode (v : Z) : list Z -> list Z := put_bytes 0 (bytes_of_half v).
Definition set_fs_length (v : Z) : list Z -> list Z := put_bytes 4 (bytes_of_word v).
Definition set_fs_created (t : list Z) : list Z -> list Z := put_bytes 8 t.
Definition set_fs_cluster (v : Z) : list Z -> list Z := put_bytes 16 (bytes_of_word v).
Definition set_fs_dir_entry (v : Z) : list Z -> list Z := put_bytes 20 (bytes_of_word v).
Definition set_fs_modified (t : list Z) : list Z -> list Z := put_bytes 24 t.
Definition set_fs_name (n : list Z) : list Z -> list Z := put_bytes 64 n.

Definition has (mode flag : Z) : bool := nz (Z.land mode flag).

(** [McCacheDir] *)
Record McCacheDir := mkCd {
  cd_cluster : Z;
  cd_fsindex : Z;
  cd_maxent : Z
}.

Section McFiles.
Context {C : Type} `{CardIO C}.
Notation MC := (M (mcst C)).

(** A [McFsEntry *]: an offset in the data of a cache entry, read and written
    there at the time it is used. *)
Definition fsptr : Type := nat * Z.

Definition fse (p : fsptr) : MC (list Z) := c <- mce p.1 ;; ret (drop (Z.to_nat p.2) (cl_data c)).
Definition fsmod (p : fsptr) (f : list Z -> list Z) : MC unit :=
  mcmod p.1 (fun c => e_data (take (Z.to_nat p.2) (cl_data c) ++ f (drop (Z.to_nat p.2) (cl_data c))) c).

(** The 512 bytes copied in words of 16. *)
Definition copyEntry (p : fsptr) : MC (list Z) := b <- fse p ;; ret (take 512 b).

Definition set_dircache (i : nat) (b : list Z) : MC unit :=
  modify (fun s => with_globals (mkGlobals (<[i := b]> (dircache (globals s))) (ps1CardFlag (globals s)) (fsmodtime (globals s))) s).
Definition get_dircache (i : nat) : MC (list Z) := gets (fun s => nth i (dircache (globals s)) []).
Definition PS1CardFlag : MC bool := gets (fun s => nz (ps1CardFlag (globals s))).
Definition set_fsmodtime (t : list Z) : MC unit :=
  modify (fun s => with_globals (mkGlobals (dircache (globals s)) (ps1CardFlag (globals s)) t) s).

Definition unbcd (x : Z) : Z := Z.shiftl (Z.shiftl (Z.shiftr x 4) 2 + Z.shiftr x 4) 1 + Z.land x 0xf.

(** The eight bytes of a [sceMcStDateTime]; [clock] is what [cdtime] holds
    when the clock cannot be read. *)
Definition mcman_getmcrtime (clock : list Z) : MC (list Z) :=
  r <- for_break (seq 0 64) (fun _ clock =>
    let* (ok, t) := on_card io_clock in ret (if ok : bool then inr t else inl t)) clock ;;
  let t := match r with inl t => t | inr t => t end in
  let b (i : nat) := nth i t 0 in
  let '(second, minute, hour, day, month, year) :=
    if nz (Z.land (b 0%nat) 128) then (0, 0, 0, 3, 0xd0, 0x07) else (b 1%nat, b 2%nat, b 3%nat, b 5%nat, b 6%nat, b 7%nat) in
  let y := Z.shiftl (Z.shiftl (Z.shiftr year 4) 2 + Z.shiftr year 4) 1 + Z.lor (Z.land year 0xf) 0x7d0 in
  ret [0; u8 (unbcd second); u8 (unbcd minute); u8 (unbcd hour); u8 (unbcd day);
       (if nz (Z.land month 0x10) then Z.land month 0xf + 0xa else Z.land month 0xf); u8 y; u8 (Z.shiftr y 8)].

Section Env.
Context (fuel : nat) (junk clock : list Z).

Notation readdirentry := (mcman_readdirentry fuel junk).

(** *** Searching a directory *)

(** The names compared in [mcman_getdirinfo]: [pos] is the length of the
    component of [filename]; names of 11 and more are first compared from the
    tenth letter on. *)
Definition sameName (filename name : list Z) (pos : nat) : bool :=
  let len := if (pos <=? length name)%nat then length name else pos in
  ((11 <=? pos)%nat && strncmp_eq (drop 10 filename) (drop 10 name) (pos - 10) && strncmp_eq filename name len) || strncmp_eq filename name len.

Definition noMaxent (pcd : option McCacheDir) : bool := match pcd with Some c => cd_maxent c <? 0 | None => true end.
Definition cd_place (cl i : Z) (pcd : option McCacheDir) : option McCacheDir :=
  match pcd with Some c => Some (mkCd (s32 cl) (s32 i) (cd_maxent c)) | None => None end.
Definition cd_setMaxent (m : Z) (pcd : option McCacheDir) : option McCacheDir :=
  match pcd with Some c => Some (mkCd (cd_cluster c) (cd_fsindex c) (s32 m)) | None => None end.

(** One entry of the directory [pfse]; the loop goes on, is left with [ret], or
    the call returns an error. *)
Definition dirinfoStep (port slot : Z) (pfse filename : list Z) (pos : nat) (unknown_flag : bool)
  : Z * Z * option McCacheDir -> MC ((Z * Z * option McCacheDir) + (Z * option McCacheDir + Z * option McCacheDir)) := fun '(i, ret0, pcd) =>
  let* (r, p) := readdirentry port slot (s32 (fs_cluster pfse)) i in
  match p with
  | None => ret (inr (inr (r, pcd)))
  | Some p =>
      b <- fse p ;;
      let exists_ := has (fs_mode b) sceMcFileAttrExists in
      let pcd := match pcd with Some c => if negb exists_ && (i <? cd_maxent c) then cd_setMaxent i pcd else pcd | None => None end in
      let next x cd := if i + 1 <? fs_length pfse then inl (i + 1, x, cd) else inr (inl (x, cd)) in
      if (if unknown_flag then negb exists_ else exists_) then ret (next ret0 pcd)
      else if negb (ret0 =? 0) then ret (next ret0 pcd)
      else if negb (sameName filename (fs_name b) pos) then ret (next ret0 pcd)
      else
        ps1 <- PS1CardFlag ;;
        let x := if has (fs_mode b) sceMcFileAttrHidden && negb ps1 then 2 else 1 in
        match pcd with
        | None => ret (inr (inl (x, None)))
        | Some _ =>
            let pcd := cd_place (fs_cluster pfse) i pcd in
            if noMaxent pcd then ret (inr (inl (x, pcd))) else ret (next x pcd)
        end
  end.

(** The rest of [mcman_getdirinfo] once [.] and [..] are dealt with. *)
Definition dirinfoSearch (port slot : Z) (pfse filename : list Z) (pos : nat) (unknown_flag : bool) (ret0 : Z) (pcd : option McCacheDir)
  : MC (Z * list Z * option McCacheDir) :=
  let pcd := if noMaxent pcd then pcd else cd_setMaxent (fs_length pfse) pcd in
  r <- (if 0 <? fs_length pfse then while_ fuel (dirinfoStep port slot pfse filename pos unknown_flag) (0, ret0, pcd) else ret (inl (ret0, pcd))) ;;
  match r with
  | inr (e, pcd) => ret (e, pfse, pcd)
  | inl (x, pcd) => ret (if x =? 2 then 2 else if x <? 1 then 1 else 0, pfse, pcd)
  end.

(** Result: the return value, the bytes at [pfse] and [*pcd]. *)
Definition mcman_getdirinfo (port slot : Z) (pfse filename : list Z) (pcd : option McCacheDir) (unknown_flag : bool)
  : MC (Z * list Z * option McCacheDir) :=
  let pos0 := mcman_chrpos filename 47 in
  let pos := if pos0 <? 0 then length filename else Z.to_nat pos0 in
  if (pos =? 2)%nat && strncmp_eq filename [46; 46] 2 then
    let* (r, p) := readdirentry port slot (s32 (fs_cluster pfse)) 0 in
    match p with None => ret (r, pfse, pcd) | Some p =>
    b <- fse p ;;
    let* (r, p) := readdirentry port slot (s32 (fs_cluster b)) 0 in
    match p with None => ret (r, pfse, pcd) | Some p =>
    b <- fse p ;;
    let pcd := cd_place (fs_cluster b) (fs_dir_entry b) pcd in
    let* (r, p) := readdirentry port slot (s32 (fs_cluster b)) (s32 (fs_dir_entry b)) in
    match p with None => ret (r, pfse, pcd) | Some p =>
    pfse <- copyEntry p ;;
    ps1 <- PS1CardFlag ;;
    let hidden := has (fs_mode pfse) sceMcFileAttrHidden in
    if hidden && negb ps1 && noMaxent pcd then ret (3, pfse, pcd)
    else if noMaxent pcd then ret (sceMcResSucceed, pfse, pcd)
    else dirinfoSearch port slot pfse filename pos unknown_flag (if hidden then if ps1 then 1 else 2 else 0) pcd
    end end end
  else if (pos =? 1)%nat && strncmp_eq filename [46] 1 then
    let* (r, p) := readdirentry port slot (s32 (fs_cluster pfse)) 0 in
    match p with None => ret (r, pfse, pcd) | Some p =>
    b <- fse p ;;
    let pcd := cd_place (fs_cluster b) (fs_dir_entry b) pcd in
    ps1 <- PS1CardFlag ;;
    let hidden := has (fs_mode b) sceMcFileAttrHidden in
    if noMaxent pcd then ret (if hidden && negb ps1 then 3 else sceMcResSucceed, pfse, pcd)
    else dirinfoSearch port slot pfse filename pos unknown_flag (if hidden && negb ps1 then 2 else 1) pcd
    end
  else dirinfoSearch port slot pfse filename pos unknown_flag 0 pcd.

(** One component of a path: [p] is what is left of it, [cur] the entry of the
    directory, at [cluster] and [fsindex].  Result: the return value, [*pcd]
    and the entry stored in [*pfse], if any. *)
Definition cachedirStep (port slot : Z) (unknown_flag : bool)
  : list Z * fsptr * Z * Z * McCacheDir -> MC ((list Z * fsptr * Z * Z * McCacheDir) + (Z * McCacheDir * option fsptr)) :=
  fun '(p, cur, cluster, fsindex, pcd) =>
  b <- fse cur ;;
  let fmode := Z.lor sceMcFileAttrReadable sceMcFileAttrExecutable in
  if negb (Z.land (fs_mode b) fmode =? fmode) then ret (inr (sceMcResDeniedPermit, pcd, None))
  else
    copy <- copyEntry cur ;;
    set_dircache 0 copy ;;;
    let* (r, copy, cd) := mcman_getdirinfo port slot copy p (Some pcd) unknown_flag in
    set_dircache 0 copy ;;;
    let pcd := default pcd cd in
    let slash := mcman_chrpos p 47 in
    if 0 <? r then
      if 0 <=? slash then ret (inr (2, pcd, None))
      else ret (inr (1, mkCd cluster fsindex (cd_maxent pcd), None))
    else if (0 <=? slash) && negb (bool_decide (drop (Z.to_nat slash + 1) p = [])) then
      let p := drop (Z.to_nat slash + 1) p in
      let* (r, q) := readdirentry port slot (cd_cluster pcd) (cd_fsindex pcd) in
      ret (inl (p, default cur q, cd_cluster pcd, cd_fsindex pcd, pcd))
    else
      let* (r, q) := readdirentry port slot (cd_cluster pcd) (cd_fsindex pcd) in
      ret (inr (sceMcResSucceed, pcd, q)).

(** [pcd] is the caller's [McCacheDir], or a local one with [maxent] -1. *)
Definition mcman_cachedirentry (port slot : Z) (filename : list Z) (pcd : McCacheDir) (unknown_flag : bool) : MC (Z * McCacheDir * option fsptr) :=
  d <- devinfo port slot ;;
  let '(p, cluster, fsindex) :=
    match filename with
    | 47 :: p => (p, 0, 0)
    | _ => (filename, s32 (rootdir_cluster2 d), s32 (unknown1 d))
    end in
  let* (r, cur) := readdirentry port slot cluster fsindex in
  match cur with
  | None => ret (r, pcd, None)
  | Some cur =>
      match p with
      | [] =>
          b <- fse cur ;;
          if negb (has (fs_mode b) sceMcFileAttrExists) then ret (2, pcd, None)
          else
            copy <- copyEntry cur ;;
            set_dircache 0 copy ;;;
            let* (r, copy, cd) := mcman_getdirinfo port slot copy [46] (Some pcd) unknown_flag in
            set_dircache 0 copy ;;;
            let pcd := default pcd cd in
            let* (_, q) := readdirentry port slot (cd_cluster pcd) (cd_fsindex pcd) in
            ret (if 0 <? r then 2 else r, pcd, q)
      | _ => while_ fuel (cachedirStep port slot unknown_flag) (p, cur, cluster, fsindex, pcd)
      end
  end.

(** *** Releasing and restoring a chain *)

(** [mcman_setdirentrystate], the loop over the chain. *)
Definition freeStep (port slot : Z) (restore : bool) (fat_index : Z) : MC (Z + Z) :=
  let* (r, fat_entry) := mcman_getFATentry fuel junk port slot fat_index in
  if negb (r =? sceMcResSucceed) then ret (inr r)
  else
    d <- devinfo port slot ;;
    let fat_entry := if restore then s32 (Z.lor fat_entry 0x80000000) else Z.land fat_entry 0x7fffffff in
    when (negb restore && (u32 fat_index <? unknown2 d)) (devinfomod port slot (set_unknown2 (u32 fat_entry))) ;;;
    r <- mcman_setFATentry fuel junk port slot fat_index fat_entry ;;
    if negb (r =? sceMcResSucceed) then ret (inr r)
    else
      let fat_index := Z.land fat_entry 0x7fffffff in
      if fat_index =? 0x7fffffff then ret (inr sceMcResSucceed) else ret (inl fat_index).

(** [flags] 0 deletes the entry, another value brings it back. *)
Definition mcman_setdirentrystate (port slot cluster fsindex flags : Z) : MC Z :=
  let* (r, p) := readdirentry port slot cluster fsindex in
  match p with
  | None => ret r
  | Some p =>
      b <- fse p ;;
      if (nth 64 b 0 =? 46) && ((nth 65 b 0 =? 0) || (nth 65 b 0 =? 46)) then ret sceMcResNoEntry
      else
        fhs <- gets fdhandles ;;
        if existsb (fun f => negb (status f =? 0) && (fh_port f =? port) && (fh_slot f =? slot) && (field_20 f =? u32 cluster) && (field_24 f =? u32 fsindex))
             (take MAX_FDHANDLES fhs)
        then ret sceMcResDeniedPermit
        else
          let restore := negb (flags =? 0) in
          fsmod p (fun b => set_fs_mode (if restore then Z.lor (fs_mode b) sceMcFileAttrExists else Z.land (fs_mode b) (sceMcFileAttrExists - 1)) b) ;;;
          mcman_1stcacheEntsetwrflagoff ;;;
          b <- fse p ;;
          let fat_index := s32 (fs_cluster b) in
          if 0 <=? fat_index then
            d <- devinfo port slot ;;
            when (u32 fat_index <? unknown2 d) (devinfomod port slot (set_unknown2 fat_index)) ;;;
            while_ fuel (freeStep port slot restore) fat_index
          else ret sceMcResSucceed
  end.

(** *** A new directory *)

Definition copyTime (from : fsptr) (get : list Z -> list Z) (to : fsptr) (set : list Z -> list Z -> list Z) : MC unit :=
  b <- fse from ;; fsmod to (set (get b)).

(** [.] and [..] of a directory in [cluster], whose entry is number
    [num_entries] of the directory at [parent_cluster]. *)
Definition mcman_createDirentry (port slot parent_cluster num_entries cluster : Z) (ctime : option fsptr) : MC Z :=
  d <- devinfo port slot ;;
  let* (r, e) := mcman_readcluster fuel junk port slot (s32 (alloc_offset d + cluster)) in
  match e with
  | None => ret r
  | Some e =>
      mcmod e (fun c => e_data (put_bytes 0 (replicate 1024 0) (cl_data c)) c) ;;;
      let mfe : fsptr := (e, 0) in
      let mfe_next : fsptr := (e, 512) in
      let dir := Z.lor sceMcFileAttrSubdir (Z.lor sceMcFile0400 sceMcFileAttrExists) in
      let rwx := Z.lor sceMcFileAttrReadable (Z.lor sceMcFileAttrWriteable sceMcFileAttrExecutable) in
      fsmod mfe (set_fs_mode (Z.lor rwx dir)) ;;;
      match ctime with
      | None => t <- mcman_getmcrtime clock ;; fsmod mfe (set_fs_created t)
      | Some p => copyTime p fs_created mfe set_fs_created
      end ;;;
      copyTime mfe fs_created mfe set_fs_modified ;;;
      fsmod mfe (fun b => set_fs_name [46; 0] (set_fs_cluster parent_cluster (set_fs_dir_entry num_entries (set_fs_length 0 b)))) ;;;
      (if (parent_cluster =? 0) && (num_entries =? 0) then
         copyTime mfe fs_created mfe_next set_fs_created ;;;
         fsmod mfe (set_fs_length 2) ;;;
         fsmod mfe_next (fun b => set_fs_cluster 0 (set_fs_dir_entry 0
           (set_fs_mode (Z.lor (Z.lor (Z.lor sceMcFileAttrWriteable sceMcFileAttrExecutable) dir) sceMcFileAttrHidden) b)))
       else
         let* (r, q) := readdirentry port slot parent_cluster 0 in
         match q with
         | None => undef
         | Some q =>
             copyTime q fs_created mfe_next set_fs_created ;;;
             fsmod mfe_next (set_fs_mode (Z.lor rwx dir)) ;;;
             b <- fse q ;; fsmod mfe_next (set_fs_dir_entry (fs_dir_entry b)) ;;;
             b <- fse q ;; fsmod mfe_next (set_fs_cluster (fs_cluster b))
         end) ;;;
      copyTime mfe_next fs_created mfe_next set_fs_modified ;;;
      fsmod mfe_next (fun b => set_fs_name [46; 46; 0] (set_fs_length 0 b)) ;;;
      mcmod e (e_wr 1) ;;;
      ret sceMcResSucceed
  end.

(** *** Files *)

Definition fh_setFile (unk2 size first : Z) (f : MC_FHANDLE) : MC_FHANDLE :=
  mkFh (status f) (wrflag f) (rdflag f) (fh_unknown1 f) (drdflag f) (u8 unk2) (fh_port f) (fh_slot f) (position f) (u32 size)
    (u32 first) (clink f) (clust_offset f) (field_20 f) (field_24 f) (field_28 f) (field_2C f).

(** The entry of the file and the time of its directory are brought up to
    date in the cache. *)
Definition mcman_close2 (fd : nat) : MC Z :=
  fh <- fhandle fd ;;
  let* (r, p) := readdirentry (fh_port fh) (fh_slot fh) (s32 (field_20 fh)) (s32 (field_24 fh)) in
  match p with
  | None => ret (-31)
  | Some p =>
      fsmod p (fun b => set_fs_mode (if fh_unknown2 fh =? 0 then Z.lor (fs_mode b) sceMcFileAttrClosed else Z.land (fs_mode b) 0xff7f) b) ;;;
      t <- mcman_getmcrtime clock ;;
      fsmod p (fun b => set_fs_length (filesize fh) (set_fs_cluster (freeclink fh) (set_fs_modified t b))) ;;;
      mcman_1stcacheEntsetwrflagoff ;;;
      b <- fse p ;;
      set_fsmodtime (fs_modified b) ;;;
      let* (r, q) := readdirentry (fh_port fh) (fh_slot fh) (s32 (field_28 fh)) (s32 (field_2C fh)) in
      match q with
      | None => ret r
      | Some q =>
          t <- gets (fun s => fsmodtime (globals s)) ;;
          fsmod q (set_fs_modified t) ;;;
          mcman_1stcacheEntsetwrflagoff ;;;
          ret sceMcResSucceed
      end
  end.

(** A free cluster reserved and linked behind [fat_index]; result: the link. *)
Definition appendCluster (port slot fat_index : Z) : MC (Z + Z) :=
  r <- mcman_findfree2 fuel junk port slot true ;;
  if r <? 0 then ret (inr r)
  else
    let fat_entry := s32 (Z.lor r 0x80000000) in
    e <- mcman_get1stcacheEntp ;;
    r <- mcman_setFATentry fuel junk port slot fat_index fat_entry ;;
    if negb (r =? sceMcResSucceed) then ret (inr r)
    else mcman_addcacheentry e ;;; ret (inl fat_entry).

(** [mcman_fatWseek], the walk: [n] links still to follow or to make. *)
Definition growStep (port slot : Z) : Z * Z -> MC ((Z * Z) + (Z + Z)) := fun '(fat_index, n) =>
  let* (r, fat_entry) := mcman_getFATentry fuel junk port slot fat_index in
  if negb (r =? sceMcResSucceed) then ret (inr (inr r))
  else
    x <- (if 0xffffffff <=? u32 fat_entry then appendCluster port slot fat_index else ret (inl fat_entry)) ;;
    match x with
    | inr r => ret (inr (inr r))
    | inl fat_entry =>
        let fat_index := Z.land fat_entry 0x7fffffff in
        if 0 <? n - 1 then ret (inl (fat_index, n - 1)) else ret (inr (inl fat_index))
    end.

Definition mcman_fatWseek (fd : nat) : MC Z :=
  fh <- fhandle fd ;;
  let port := fh_port fh in
  let slot := fh_slot fh in
  d <- devinfo port slot ;;
  if cluster_size d =? 0 then undef else
  let entries := s32 (position fh / cluster_size d) in
  start <- (if (clust_offset fh =? 0) || (u32 entries <? clust_offset fh) then
              let fat_index := s32 (freeclink fh) in
              if fat_index <? 0 then
                fat_index <- mcman_findfree2 fuel junk port slot true ;;
                if fat_index <? 0 then ret (inr sceMcResFullDevice)
                else
                  e <- mcman_get1stcacheEntp ;;
                  fhmod fd (fun f => fh_setFile (fh_unknown2 f) (filesize f) fat_index f) ;;;
                  r <- mcman_close2 fd ;;
                  if negb (r =? sceMcResSucceed) then ret (inr r)
                  else
                    mcman_addcacheentry e ;;;
                    _ <- mcman_flushmccache fuel junk port slot ;;
                    ret (inl (fat_index, entries))
              else ret (inl (fat_index, entries))
            else ret (inl (s32 (clink fh), s32 (entries - clust_offset fh)))) ;;
  match start with
  | inr r => ret r
  | inl (fat_index, entries) =>
      x <- (if negb (entries =? 0) then while_ fuel (growStep port slot) (fat_index, entries) else ret (inl fat_index)) ;;
      match x with
      | inr r => ret r
      | inl fat_index => fhmod fd (fun f => fh_setPlace fat_index (position f / cluster_size d) f) ;;; ret sceMcResSucceed
      end
  end.

(** One cluster of a read: [buf] is what was copied so far. *)
Definition readStep (fd : nat) : Z * list Z -> MC ((Z * list Z) + (Z * list Z)) := fun '(nbyte, buf) =>
  fh <- fhandle fd ;;
  d <- devinfo (fh_port fh) (fh_slot fh) ;;
  if cluster_size d =? 0 then undef else
  let offset := position fh mod cluster_size d in
  let temp := cluster_size d - offset in
  let size := if temp <? nbyte then temp else nbyte in
  r <- mcman_fatRseek fuel junk fd ;;
  if r <=? 0 then ret (inr (r, buf))
  else
    let* (r, e) := mcman_readcluster fuel junk (fh_port fh) (fh_slot fh) r in
    match e with
    | None => ret (inr (r, buf))
    | Some e =>
        c <- mce e ;;
        let buf := buf ++ take (Z.to_nat size) (drop (Z.to_nat offset) (cl_data c)) in
        mcmod e (e_rd 1) ;;;
        fhmod fd (fun f => fh_setPosition (position f + size) f) ;;;
        if nbyte - size =? 0 then ret (inr (Z.of_nat (length buf), buf)) else ret (inl (nbyte - size, buf))
    end.

(** Result: the return value and what was copied to the buffer. *)
Definition mcman_read2 (fd : nat) (nbyte : Z) : MC (Z * list Z) :=
  fh <- fhandle fd ;;
  if position fh <? filesize fh then
    let temp := s32 (filesize fh - position fh) in
    let nbyte := if temp <? nbyte then temp else nbyte in
    if 0 <? nbyte then while_ fuel (readStep fd) (nbyte, []) else ret (0, [])
  else ret (0, []).

(** One cluster of a write: [buf] is what is left of the buffer, [wpos] what
    was written. *)
Definition writeStep (fd : nat) : Z * Z * list Z -> MC ((Z * Z * list Z) + (Z + Z)) := fun '(nbyte, wpos, buf) =>
  fh <- fhandle fd ;;
  d <- devinfo (fh_port fh) (fh_slot fh) ;;
  if cluster_size d =? 0 then undef else
  r <- mcman_fatRseek fuel junk fd ;;
  x <- (if r =? sceMcResFullDevice then
          r2 <- mcman_fatWseek fd ;;
          if r2 =? r then ret (inr sceMcResFullDevice)
          else if negb (r2 =? sceMcResSucceed) then ret (inr r2)
          else r <- mcman_fatRseek fuel junk fd ;; ret (inl r)
        else if r <? 0 then ret (inr r) else ret (inl r)) ;;
  match x with
  | inr r => ret (inr (inr r))
  | inl r =>
      let* (r, e) := mcman_readcluster fuel junk (fh_port fh) (fh_slot fh) r in
      match e with
      | None => ret (inr (inr r))
      | Some e =>
          fh <- fhandle fd ;;
          let offset := position fh mod cluster_size d in
          let r2 := cluster_size d - offset in
          let size := if r2 <? nbyte then r2 else nbyte in
          mcmod e (fun c => e_wr 1 (e_rd 1 (e_data (put_bytes offset (take (Z.to_nat size) buf) (cl_data c)) c))) ;;;
          let r := u32 (position fh + size) in
          fhmod fd (fh_setPosition r) ;;;
          fhmod fd (fun f => fh_setFile (fh_unknown2 f) (if r <? filesize f then filesize f else r) (freeclink f) f) ;;;
          if nbyte - size =? 0 then ret (inr (inl (wpos + size)))
          else ret (inl (nbyte - size, wpos + size, drop (Z.to_nat size) buf))
      end
  end.

Definition mcman_write2 (fd : nat) (buffer : list Z) (nbyte : Z) : MC Z :=
  fh <- fhandle fd ;;
  r <- (if nz nbyte && (fh_unknown2 fh =? 0) then
          fhmod fd (fun f => fh_setFile 1 (filesize f) (freeclink f) f) ;;;
          r <- mcman_close2 fd ;;
          if negb (r =? sceMcResSucceed) then ret r
          else mcman_flushmccache fuel junk (fh_port fh) (fh_slot fh)
        else ret sceMcResSucceed) ;;
  if negb (r =? sceMcResSucceed) then ret r
  else
    x <- (if nz nbyte then while_ fuel (writeStep fd) (nbyte, 0, buffer) else ret (inl 0)) ;;
    match x with
    | inr r => ret r
    | inl wpos =>
        r <- mcman_close2 fd ;;
        ret (if negb (r =? sceMcResSucceed) then r else wpos)
    end.

(** *** Directories and deletion *)

(** What [mcman_dread2] and [mcman_getstat2] give of an entry. *)
Record mc_stat := mkStat {
  st_mode : Z;
  st_attr : Z;
  st_size : Z;
  st_ctime : list Z;
  st_mtime : list Z
}.

Definition statMode (mode : Z) : Z :=
  let keep f := if has mode f then f else 0 in
  Z.lor (keep sceMcFileAttrReadable) (Z.lor (keep sceMcFileAttrWriteable) (Z.lor (keep sceMcFileAttrExecutable) (Z.lor (keep sceMcFileAttrPS1)
    (Z.lor (keep sceMcFileAttrPDAExec) (Z.lor (keep sceMcFileAttrDupProhibit) (if has mode sceMcFileAttrSubdir then sceMcFileAttrSubdir else sceMcFileAttrFile)))))).

Definition statOf (size : Z) (b : list Z) : mc_stat := mkStat (statMode (fs_mode b)) (fs_attr b) size (fs_created b) (fs_modified b).

(** The next entry that exists, from the position of the handle on. *)
Definition dreadStep (fd : nat) (_ : unit) : MC (unit + (Z + option fsptr)) :=
  fh <- fhandle fd ;;
  let* (r, p) := readdirentry (fh_port fh) (fh_slot fh) (s32 (freeclink fh)) (s32 (position fh)) in
  match p with
  | None => ret (inr (inl r))
  | Some p =>
      b <- fse p ;;
      if has (fs_mode b) sceMcFileAttrExists then ret (inr (inr (Some p)))
      else
        fhmod fd (fun f => fh_setPosition (position f + 1) f) ;;;
        if u32 (position fh + 1) <? filesize fh then ret (inl tt) else ret (inr (inr None))
  end.

(** Result: the return value, the name (at most 32 bytes) and the rest. *)
Definition mcman_dread2 (fd : nat) : MC (Z * option (list Z * mc_stat)) :=
  fh <- fhandle fd ;;
  if filesize fh <=? position fh then ret (sceMcResSucceed, None)
  else
    x <- while_ fuel (dreadStep fd) tt ;;
    match x with
    | inl r => ret (r, None)
    | inr None => ret (sceMcResSucceed, None)
    | inr (Some p) =>
        fhmod fd (fun f => fh_setPosition (position f + 1) f) ;;;
        b <- fse p ;;
        ret (1, Some (take 32 (fs_name b), statOf (fs_length b) b))
    end.

Definition mcman_getstat2 (port slot : Z) (filename : list Z) (local : McCacheDir) : MC (Z * option mc_stat) :=
  let* (r, _, p) := mcman_cachedirentry port slot filename (mkCd (cd_cluster local) (cd_fsindex local) (-1)) true in
  if negb (r =? sceMcResSucceed) then ret (r, None)
  else
    match p with
    | None => undef
    | Some p => b <- fse p ;; ret (sceMcResSucceed, Some (statOf (if has (fs_mode b) sceMcFileAttrSubdir then 0 else fs_length b) b))
    end.

(** [local] is what the uninitialised [cacheDir] of the caller holds. *)
Definition mcman_getentspace (port slot : Z) (dirname : list Z) (local : McCacheDir) : MC Z :=
  let* (r, _, p) := mcman_cachedirentry port slot dirname local true in
  if 0 <? r then ret sceMcResNoEntry
  else if r <? 0 then ret r
  else
    match p with
    | None => undef
    | Some p =>
        mfe <- copyEntry p ;;
        x <- for_break (seq 0 (Z.to_nat (fs_length mfe))) (fun i entspace =>
          let* (r, p) := readdirentry port slot (s32 (fs_cluster mfe)) (Z.of_nat i) in
          match p with
          | None => ret (inr r)
          | Some p => b <- fse p ;; ret (inl (if has (fs_mode b) sceMcFileAttrExists then entspace else entspace + 1))
          end) (Z.land (fs_length mfe) 1) ;;
        ret (match x with inl n => n | inr r => r end)
    end.

(** Whether a directory has an entry from [i] on: 0, an error, or
    [sceMcResNotEmpty].  [p] is the directory's own entry, read anew each time. *)
Definition emptyStep (port slot : Z) (p : fsptr) (i : Z) : MC (Z + Z) :=
  b <- fse p ;;
  let* (r, q) := readdirentry port slot (s32 (fs_cluster b)) i in
  match q with
  | None => ret (inr r)
  | Some q =>
      b2 <- fse q ;;
      if has (fs_mode b2) sceMcFileAttrExists then ret (inr sceMcResNotEmpty)
      else b <- fse p ;; if u32 (i + 1) <? fs_length b then ret (inl (i + 1)) else ret (inr 0)
  end.

Definition mcman_delete2 (port slot : Z) (filename : list Z) (flags : Z) (local : McCacheDir) : MC Z :=
  let* (r, cd, p) := mcman_cachedirentry port slot filename local (flags <? 1) in
  if 0 <? r then ret sceMcResNoEntry
  else if r <? 0 then ret r
  else
    match p with
    | None => undef
    | Some p =>
        b <- fse p ;;
        ps1 <- PS1CardFlag ;;
        if Bool.eqb (flags =? 0) (negb (has (fs_mode b) sceMcFileAttrExists)) then ret sceMcResNoEntry
        else if negb ps1 && (flags =? 0) && negb (has (fs_mode b) sceMcFileAttrWriteable) then ret sceMcResDeniedPermit
        else if (fs_cluster b =? 0) && (fs_dir_entry b =? 0) then ret sceMcResNoEntry
        else
          r <- (if (flags =? 0) && has (fs_mode b) sceMcFileAttrSubdir && (2 <? fs_length b) then while_ fuel (emptyStep port slot p) 2 else ret 0) ;;
          if negb (r =? 0) then ret r
          else
            r <- mcman_setdirentrystate port slot (cd_cluster cd) (cd_fsindex cd) flags ;;
            if negb (r =? sceMcResSucceed) then ret r
            else mcman_flushmccache fuel junk port slot
    end.

(** *** Opening *)

(** [mcman_open2], an existing entry, whose copy is [mcman_dircache[1]]: the
    call returns, or goes on to make the file anew with [maxent]. *)
Definition openExisting (port slot flags : Z) (fd : nat) (cd : McCacheDir) : MC (Z + Z) :=
  b <- get_dircache 1 ;;
  ps1 <- PS1CardFlag ;;
  let mode := fs_mode b in
  if has flags sceMcFileAttrWriteable && negb (has mode sceMcFileAttrWriteable) then ret (inr sceMcResDeniedPermit)
  else if negb ps1 && has flags sceMcFileAttrReadable && negb (has mode sceMcFileAttrReadable) then ret (inr sceMcResDeniedPermit)
  else
    let* (r, p) := readdirentry port slot (cd_cluster cd) 0 in
    match p with
    | None => ret (inr r)
    | Some p =>
        b2 <- fse p ;;
        fhmod fd (fun f => mkFh (status f) (wrflag f) (rdflag f) (fh_unknown1 f) (drdflag f) (fh_unknown2 f) (fh_port f) (fh_slot f) (position f)
          (filesize f) (freeclink f) (clink f) (clust_offset f) (field_20 f) (field_24 f) (fs_cluster b2) (fs_dir_entry b2)) ;;;
        if has mode sceMcFileAttrSubdir then
          if negb (has mode sceMcFileAttrReadable) then ret (inr sceMcResDeniedPermit)
          else
            fhmod fd (fun f => mkFh 1 0 0 0 1 (fh_unknown2 f) (fh_port f) (fh_slot f) (position f) (fs_length b) (fs_cluster b) (fs_cluster b)
              (clust_offset f) (field_20 f) (field_24 f) (field_28 f) (field_2C f)) ;;;
            ret (inr (Z.of_nat fd))
        else
          fhs <- gets fdhandles ;;
          if has flags sceMcFileAttrWriteable &&
             existsb (fun f => negb (status f =? 0) && (fh_port f =? port) && (fh_slot f =? slot) && (field_20 f =? u32 (cd_cluster cd))
               && (field_24 f =? u32 (cd_fsindex cd)) && negb (wrflag f =? 0)) (take MAX_FDHANDLES fhs)
          then ret (inr sceMcResDeniedPermit)
          else if has flags sceMcFileCreateFile then
            r <- mcman_setdirentrystate port slot (cd_cluster cd) (cd_fsindex cd) 0 ;;
            _ <- mcman_flushmccache fuel junk port slot ;;
            if negb (r =? sceMcResSucceed) then ret (inr (-43))
            else ret (inl (if cd_fsindex cd <? cd_maxent cd then cd_fsindex cd else cd_maxent cd))
          else
            fhmod fd (fun f => mkFh 1 (if wrflag f =? 0 then 0 else Z.land (Z.shiftr mode 1) sceMcFileAttrReadable)
              (if rdflag f =? 0 then 0 else Z.land mode sceMcFileAttrReadable) (fh_unknown1 f) (drdflag f) (fh_unknown2 f) (fh_port f) (fh_slot f)
              (position f) (fs_length b) (fs_cluster b) (fs_cluster b) (clust_offset f) (field_20 f) (field_24 f) (field_28 f) (field_2C f)) ;;;
            ret (inr (Z.of_nat fd))
    end.

(** The chain of the directory is followed for [n] + 1 links, and grown where
    it ends: [None], or an error. *)
Fixpoint growDir (n : nat) (port slot fat_index : Z) : MC (option Z) :=
  let* (r, fat_entry) := mcman_getFATentry fuel junk port slot fat_index in
  if negb (r =? sceMcResSucceed) then ret (Some r)
  else
    x <- (if -1 <=? fat_entry then appendCluster port slot fat_index else ret (inl fat_entry)) ;;
    match x with
    | inr r => ret (Some r)
    | inl fat_entry => match n with O => ret None | S n' => growDir n' port slot (Z.land fat_entry 0x7fffffff) end
    end.

(** Room for one more entry in the directory [mcman_dircache[2]]: 0 or an
    error. *)
Definition extendDir (port slot : Z) : MC Z :=
  d <- devinfo port slot ;;
  b <- get_dircache 2 ;;
  let per := Z.shiftr (cluster_size d) 9 in
  if per =? 0 then undef else
  let fsindex := fs_length b / per in
  r <- (if fs_length b mod per =? 0 then
          idx <- (if (fs_cluster b =? 0) && (2 <=? fsindex) then mcman_getFATindex port slot (fsindex - 1) else ret (-1)) ;;
          let '(fat_index, i) := if 0 <=? idx then (idx, 1) else (s32 (fs_cluster b), fsindex) in
          if i - 1 =? -1 then ret None else growDir (Z.to_nat (i - 1)) port slot fat_index
        else ret None) ;;
  match r with
  | Some r => ret r
  | None =>
      r <- mcman_flushmccache fuel junk port slot ;;
      if negb (r =? sceMcResSucceed) then ret r
      else set_dircache 2 (set_fs_length (fs_length b + 1) b) ;;; ret sceMcResSucceed
  end.

(** The last component of a path. *)
Fixpoint lastComponent (n : nat) (p : list Z) : list Z :=
  match n with
  | O => p
  | S n' => let r := mcman_chrpos p 47 in if r <? 0 then p else lastComponent n' (drop (Z.to_nat r + 1) p)
  end.

(** A new entry at place [maxent] of the directory [mcman_dircache[2]]. *)
Definition openNew (port slot : Z) (filename : list Z) (flags0 : Z) (fd : nat) (maxent : Z) : MC Z :=
  x <- (if has flags0 sceMcFileCreateDir then mcman_findfree2 fuel junk port slot true else ret 0) ;;
  if x <? 0 then ret x
  else
    let mcfree := x in
    e <- mcman_get1stcacheEntp ;;
    t <- mcman_getmcrtime clock ;;
    b <- get_dircache 2 ;;
    set_dircache 2 (set_fs_modified t b) ;;;
    let* (r, p) := readdirentry port slot (s32 (fs_cluster b)) maxent in
    match p with
    | None => ret r
    | Some p =>
        fsmod p (fun x => put_bytes 0 (set_fs_modified t (set_fs_created t
          (set_fs_name (strncpy_bytes (lastComponent (length filename) filename) 32) (replicate 512 0)))) x) ;;;
        mcman_1stcacheEntsetwrflagoff ;;;
        mcman_addcacheentry e ;;;
        ps1 <- PS1CardFlag ;;
        let flags := if ps1 : bool then flags0 else Z.land flags0 0xffffdfff in
        let common := Z.lor (Z.land flags sceMcFileAttrHidden) (Z.lor (Z.lor sceMcFileAttrReadable (Z.lor sceMcFileAttrWriteable sceMcFileAttrExecutable))
          (Z.lor (Z.lor sceMcFile0400 sceMcFileAttrExists) (Z.land flags (Z.lor sceMcFileAttrPS1 sceMcFileAttrPDAExec)))) in
        let finish res :=
          fh <- fhandle fd ;;
          let* (r, q) := readdirentry port slot (s32 (field_28 fh)) (s32 (field_2C fh)) in
          match q with
          | None => ret r
          | Some q =>
              b <- get_dircache 2 ;;
              fsmod q (put_bytes 0 b) ;;;
              mcman_1stcacheEntsetwrflagoff ;;;
              r <- mcman_flushmccache fuel junk port slot ;;
              ret (if negb (r =? sceMcResSucceed) then r else res)
          end in
        if has flags sceMcFileCreateDir then
          fsmod p (fun x => set_fs_cluster mcfree (set_fs_length 2 (set_fs_mode (Z.lor common sceMcFileAttrSubdir) x))) ;;;
          r <- mcman_createDirentry port slot (s32 (fs_cluster b)) maxent mcfree (Some p) ;;
          if negb (r =? sceMcResSucceed) then ret (-46) else finish sceMcResSucceed
        else
          fsmod p (fun x => set_fs_cluster (-1) (set_fs_mode (Z.lor common sceMcFileAttrFile) x)) ;;;
          fhmod fd (fun f => mkFh 1 (wrflag f) (rdflag f) (fh_unknown1 f) (drdflag f) (fh_unknown2 f) (fh_port f) (fh_slot f) (position f)
            (filesize f) (freeclink f) (clink f) (clust_offset f) (fs_cluster b) (u32 maxent) (field_28 f) (field_2C f)) ;;;
          finish (Z.of_nat fd)
    end.

(** [local] is what the uninitialised [cacheDir] holds. *)
Definition mcman_open2 (port slot : Z) (filename : list Z) (flags0 : Z) (local : McCacheDir) : MC Z :=
  let flags := if has flags0 sceMcFileCreateFile then Z.lor flags0 sceMcFileAttrWriteable else flags0 in
  let create := has flags (Z.lor sceMcFileCreateFile sceMcFileCreateDir) in
  match filename with
  | [] => ret sceMcResNoEntry
  | _ =>
      fhs <- gets fdhandles ;;
      match list_find (fun f => status f = 0) (take MAX_FDHANDLES fhs) with
      | None => ret sceMcResUpLimitHandle
      | Some (fd, _) =>
          fhmod fd (fun _ => mkFh 0 0 0 0 0 0 0 0 0 0 0 0 0 0 0 0 0) ;;;
          let* (r, cd, p) := mcman_cachedirentry port slot filename (mkCd (cd_cluster local) (cd_fsindex local) (if create then 0 else -1)) true in
          if r <? 0 then ret r
          else
            match p with Some p => b <- copyEntry p ;; set_dircache 1 b | None => ret tt end ;;;
            r <- (if flags =? 0 then
                    match p with None => undef | Some p => b <- fse p ;; ret (if has (fs_mode b) sceMcFileAttrExists then r else 1) end
                  else ret r) ;;
            if r =? 2 then ret sceMcResNoEntry
            else if r =? 3 then ret sceMcResDeniedPermit
            else if (r =? 0) && has flags sceMcFileCreateDir then ret sceMcResNoEntry
            else if (r =? 1) && negb create then ret sceMcResNoEntry
            else
              fhmod fd (fun f => mkFh (status f) (Z.land flags sceMcFileAttrWriteable) (Z.land flags sceMcFileAttrReadable) 0 (drdflag f) 0
                (u16 port) (u16 slot) 0 0 (u32 (-1)) (u32 (-1)) 0 (u32 (cd_cluster cd)) (u32 (cd_fsindex cd)) (field_28 f) (field_2C f)) ;;;
              x <- (if r =? 0 then openExisting port slot flags fd cd
                    else
                      fhmod fd (fun f => mkFh (status f) (wrflag f) (rdflag f) (fh_unknown1 f) (drdflag f) (fh_unknown2 f) (fh_port f) (fh_slot f)
                        (position f) (filesize f) (freeclink f) (clink f) (clust_offset f) (field_20 f) (field_24 f)
                        (u32 (cd_cluster cd)) (u32 (cd_fsindex cd))) ;;;
                      ret (inl (cd_maxent cd))) ;;
              match x with
              | inr r => ret r
              | inl maxent =>
                  fh <- fhandle fd ;;
                  let* (r, q) := readdirentry port slot (s32 (field_28 fh)) (s32 (field_2C fh)) in
                  match q with
                  | None => ret r
                  | Some q =>
                      b <- copyEntry q ;;
                      set_dircache 2 b ;;;
                      r <- (if fs_length b =? u32 maxent then extendDir port slot else ret sceMcResSucceed) ;;
                      if negb (r =? sceMcResSucceed) then ret r
                      else openNew port slot filename flags fd maxent
                  end
              end
      end
  end.

(** *** Recovery of an interrupted write *)

(** The mark in a page of the second backup block: a block, or 0xffffffff. *)
Definition backupMark (d : MCDevInfo) (pb : list Z) : Z :=
  let v := le32 pb 0 in
  let v := if nz (Z.land (cardflags d) CF_ERASE_ZEROES) && (v =? 0) then 0xffffffff else v in
  if v =? 0xffffffff then v else Z.land v 0x7fffffff.

Definition readMark (port slot page : Z) (d : MCDevInfo) : MC (Z * Z) :=
  pb <- gets pagebuf ;;
  let* (r, pb) := McReadPage junk port slot page pb in
  modify (fun s => with_bufs pb (backupbuf s) (pagedata s) (eccdata s) s) ;;;
  ret (r, backupMark d pb).

(** The clusters of the first backup block, read into the cache; [last] is
    [mce], which a failed read leaves as it was. *)
Definition gatherBackup (port slot : Z) (d : MCDevInfo) : MC unit :=
  for_ (seq 0 (Z.to_nat (clusters_per_block d))) (fun r1 (last : option nat) =>
    let* (r, e) := mcman_readcluster fuel junk port slot (s32 (backup_block1 d * clusters_per_block d + Z.of_nat r1)) in
    match (match e with Some _ => e | None => last end) with
    | None => undef
    | Some e =>
        mcmod e (e_rd 1) ;;;
        for_ (seq 0 (Z.to_nat (pages_per_cluster d))) (fun r2 _ =>
          modify (fun s => with_bufs (pagebuf s) (backupbuf s)
            (<[(r1 * Z.to_nat (pages_per_cluster d) + r2)%nat := PCache e (Z.of_nat r2 * pagesize d)]> (pagedata s)) (eccdata s) s)) tt ;;;
        ret (Some e)
    end) None ;;;
  ret tt.

(** The pages of the block: the first error, or 0. *)
Definition restorePages (port slot block : Z) (d : MCDevInfo) : MC Z :=
  r <- for_break (seq 0 (Z.to_nat (blocksize d))) (fun r1 _ =>
    pages <- gets pagedata ;;
    p <- at_ pages (Z.of_nat r1) ;;
    data <- ptrData p (pagesize d) ;;
    ecc <- gets eccdata ;;
    let eccsize := Z.shiftr (if pagesize d <? 0 then pagesize d + 0x1f else pagesize d) 5 in
    r <- on_card (io_writepage port slot (s32 (block * blocksize d + Z.of_nat r1)) data (take (Z.to_nat (sparesizeOf d)) (drop (Z.to_nat (eccsize * Z.of_nat r1)) ecc))) ;;
    ret (if negb (r =? sceMcResSucceed) then inr r else inl tt)) tt ;;
  ret (match r with inl _ => sceMcResSucceed | inr r => r end).

Definition mcman_checkBackupBlocks (port slot : Z) : MC Z :=
  d <- devinfo port slot ;;
  let* (r1, value1) := readMark port slot (s32 (backup_block2 d * blocksize d)) d in
  let* (r2, value2) := readMark port slot (s32 (backup_block2 d * blocksize d + 1)) d in
  let check_done := mcman_eraseblock port slot (s32 (backup_block2 d)) None in
  if negb (value1 =? 0xffffffff) && (value2 =? 0xffffffff) then check_done
  else if (r1 <? 0) || (r2 <? 0) then check_done
  else if (value1 =? 0xffffffff) && (value1 =? value2) then ret sceMcResSucceed
  else
    gatherBackup port slot d ;;;
    pages <- gets pagedata ;;
    r <- mcman_eraseblock port slot (s32 value1) (Some pages) ;;
    if negb (r =? sceMcResSucceed) then ret r
    else
      r <- restorePages port slot value1 d ;;
      if negb (r =? sceMcResSucceed) then ret r
      else
        for_ (seq 0 (Z.to_nat (clusters_per_block d))) (fun r1 _ =>
          mcman_freecluster port slot (s32 (backup_block1 d * clusters_per_block d + Z.of_nat r1))) tt ;;;
        check_done.
End Env.
End McFiles.
