(* ===== verification/McChains.v ===== *)
(** * McChains: reading and releasing the chain of a file

    [mcman_read2] gives the bytes of the file: over the chain of the file in
    the table, the cache of clusters and the place kept in the handle.  The
    loop of [mcman_setdirentrystate] gives back exactly the clusters of the
    chain, and moves the place where the search for free clusters starts. *)

From stdpp Require Import base numbers list.
From Stdlib Require Import ZArith Lia.
From S2P Require Import Prelude McUtil Mc McCache McFat McFile.

Open Scope Z_scope.
Open Scope c_scope.

(** ** Reading a file *)

Lemma findEntry_insert_same f c c' es : forall n e, es !! e = Some c -> f c' = f c -> findEntry f n (<[e := c']> es) = findEntry f n es.
Proof.
  induction es as [|x es IH]; intros n e He Hf; [done|]. destruct e as [|e].
  - injection He as ->. cbn. by rewrite Hf.
  - cbn in He |- *. destruct (f x); [done|]. by apply IH.
Qed.

Section Read.
Context {C : Type} {IO : CardIO C} {PG : CardPages C}.
Notation mcst := (mcst C).
Context (port slot : Z) (K : policy (C := C) port slot).
Hypothesis port_ok : 0 <= port < 256.
Hypothesis slot_ok : 0 <= slot < 65536.
Context (fuel : nat) (junk : list Z).
Hypothesis junk_ok : length junk = 32%nat.
Context (d : MCDevInfo) (N : Z) (f : Z -> Z).
Hypothesis links_ok : linked f N.
Hypothesis size_ok : cluster_size d = 1024.
Notation models := (models port slot K d N f).

(** Marking an entry as read changes no cluster. *)
Lemma touch_ok (s : mcst) e c v : cache_ok s -> entrycache s !! e = Some c ->
  let s' := with_entries (<[e := e_rd v c]> (entrycache s)) s in cache_ok s' /\ same_views s s'.
Proof.
  intros I He s'.
  assert (Hlk : forall i y, entrycache s' !! i = Some y -> exists x, entrycache s !! i = Some x /\ same_key x y /\ cl_data y = cl_data x /\ wr_flag y = wr_flag x).
  { intros i y. unfold s'. cbn [entrycache with_entries]. rewrite list_lookup_insert. case_decide as E; [|intros Hi; exists y; by split_and!].
    destruct E as [<- _]. intros [= <-]. exists c. by split_and!. }
  split.
  - destruct I as [I1 I2 I3 I4 I5 I6]. split; cbn [mccache card with_entries s'].
    + unfold s'. cbn. by rewrite length_insert.
    + done.
    + intros i y Hy. destruct (Hlk _ _ Hy) as (x & Hx & _ & -> & _). by apply (I3 i).
    + intros i j a b Ha Hb Hp (E1 & E2 & E3). destruct (Hlk _ _ Ha) as (x & Hx & (X1 & X2 & X3) & _), (Hlk _ _ Hb) as (y & Hy & (Y1 & Y2 & Y3) & _).
      apply (I4 i j x y); try done; [lia|]. split_and!; congruence.
    + intros i y Hy Hp Hw. destruct (Hlk _ _ Hy) as (x & Hx & (X1 & X2 & X3) & -> & Hw'). rewrite <- X1, <- X2, <- X3. apply (I5 i); [done|lia|congruence].
    + done.
  - intros p sl j Hj. unfold view, s'. cbn [entrycache with_entries card]. rewrite (findEntry_insert_same _ c) by done.
    destruct (findEntry (isCluster p sl j) 0 (entrycache s)) as [i|]; [|done]. cbn. rewrite list_lookup_insert. case_decide as E; [|done].
    destruct E as [<- _]. by rewrite He.
Qed.

Lemma models_same s s' : models s -> same_views s s' -> cache_ok s' -> keeps K s' -> devinfos s' = devinfos s -> badblock s' = badblock s -> models s'.
Proof.
  intros [F HF] V I HK Hd Hb. split; [by eapply fat_inv_same|]. intros j Hj. rewrite (fat_same port slot K d N s s' j F V Hj). by apply HF.
Qed.

(** The clusters of the file of [h] hold [data]. *)
Definition holds_file (h : MC_FHANDLE) (data : list Z) (s : mcst) : Prop := forall i, (1024 * i < length data)%nat -> exists c, 
  follow f i (freeclink h) = Some c /\ 0 < c + alloc_offset d < 2 ^ 31 /\ covers K (c + alloc_offset d) /\
  take (length data - 1024 * i) (view s port slot (c + alloc_offset d)) = take 1024 (drop (1024 * i) data).

Lemma holds_file_same h h' data s s' : freeclink h' = freeclink h -> same_views s s' -> holds_file h data s -> holds_file h' data s'.
Proof.
  intros E V H i Hi. destruct (H i Hi) as (c & H1 & H2 & H3 & H4). exists c. rewrite E, V by lia. exact (conj H1 (conj H2 (conj H3 H4))).
Qed.

(** What a seek and a read leave. *)
Record reading (data : list Z) (fd : nat) (h : MC_FHANDLE) (s : mcst) : Prop := {
  rd_models : models s;
  rd_handle : fdhandles s !! fd = Some h;
  rd_ok : handle_ok port slot N f h;
  rd_size : filesize h = Z.of_nat (length data);
  rd_bound : Z.of_nat (length data) < 2 ^ 31;
  rd_file : holds_file h data s
}.

Lemma slice_take {A} (l : list A) n o m : (o + m <= n)%nat -> take m (drop o (take n l)) = take m (drop o l).
Proof. intros Hn. rewrite !take_drop_commute, take_take. by rewrite Nat.min_l by lia. Qed.

(** A read of [size] bytes in one cluster. *)
Lemma wp_readStep data fd h s nbyte buf pos Q : reading data fd h s -> position h = Z.of_nat pos -> 0 < nbyte -> Z.of_nat pos + nbyte <= Z.of_nat (length data) ->
  (length data < fuel)%nat ->
  (forall h' s' size, let got := buf ++ take (Z.to_nat size) (drop pos data) in
     0 < size <= nbyte -> reading data fd h' s' -> position h' = Z.of_nat pos + size ->
     Q (if nbyte - size =? 0 then inr (Z.of_nat (length got), got) else inl (nbyte - size, got)) s') ->
  wp (readStep fuel junk fd (nbyte, buf)) s Q.
Proof.
  intros [HM Hh Ho Hsz Hb Hf] Hpos Hn Hend Hfuel HQ. pose proof Ho as [E1 E2 E3 E4 E5 E6]. unfold readStep.
  apply wp_bind. eapply wp_fhandle; [exact Hh|]. rewrite E1, E2. apply wp_bind. eapply wp_Done; [apply HM|]. rewrite size_ok. change (1024 =? 0) with false. cbv iota zeta.
  assert (Hp : position h / 1024 = Z.of_nat (pos / 1024)) by (rewrite Hpos, Nat2Z.inj_div; done).
  assert (Hm : position h mod 1024 = Z.of_nat (pos mod 1024)) by (rewrite Hpos, Nat2Z.inj_mod; done). rewrite Hm.
  pose proof (Nat.div_mod pos 1024 ltac:(lia)) as Hdm. pose proof (Nat.mod_upper_bound pos 1024 ltac:(lia)) as Hmb.
  set (o := (pos mod 1024)%nat) in *. set (i := (pos / 1024)%nat) in *. set (size := if _ <? nbyte then _ else nbyte).
  assert (Hs : 0 < size <= nbyte /\ size <= 1024 - Z.of_nat o) by (unfold size; destruct (Z.ltb_spec (1024 - Z.of_nat o) nbyte); lia).
  apply wp_bind. eapply (wp_fatRseek port slot K); [done..|exact HM|exact Hh|exact Ho|rewrite size_ok; lia|rewrite size_ok, Hp; lia|].
  rewrite size_ok, Hp, Nat2Z.id. intros r s1 (HM1 & V1 & Hr & h1 & Hh1 & Ho1 & F1 & F2 & F3 & F4).
  destruct (Hf i) as (c & Hc & Hcr & HcK & Hv); [lia|]. unfold seek_result in Hr. rewrite Hc in Hr. rewrite s32_small in Hr by lia. subst r.
  rewrite (proj2 (Z.leb_gt _ 0)) by lia. set (k := c + alloc_offset d) in *.
  apply wp_bind. eapply (wp_read port slot K); [done..|apply HM1|done|lia|]. intros e s2 Fi2 V2 Hfd2 [(x & Hx & Hxi & Hxd)]. cbv beta iota.
  apply wp_bind. eapply wp_mce; [exact Hx|]. apply wp_bind. eapply wp_mcmod; [exact Hx|].
  destruct (touch_ok s2 e x 1 (fi_cache _ _ _ _ _ _ Fi2) Hx) as [I3 V3]. set (s3 := with_entries _ s2) in *.
  assert (Hh3 : fdhandles s3 !! fd = Some h1).
  { change (fdhandles s3) with (fdhandles s2). rewrite Hfd2, Hh1. apply list_lookup_insert_eq. by eapply lookup_lt_Some. }
  apply wp_bind. eapply wp_fhmod; [exact Hh3|]. set (h3 := fh_setPosition _ _). set (s4 := with_fdhandles _ s3).
  assert (V4 : same_views s s4).
  { intros p sl j Hj. change (view s4 p sl j) with (view s3 p sl j). rewrite V3, V2, V1 by done. done. }
  assert (Ed : take (Z.to_nat size) (drop o (cl_data x)) = take (Z.to_nat size) (drop pos data)).
  { rewrite Hxd, V2, V1 by lia. rewrite <- (slice_take _ (length data - 1024 * i)) by lia. rewrite Hv, slice_take by lia. rewrite drop_drop. do 2 f_equal. lia. }
  assert (Hp3 : position h3 = Z.of_nat pos + size).
  { unfold h3. cbn [position fh_setPosition]. rewrite F2, Hpos, u32_small; [lia|]. unfold is_u32. lia. }
  assert (HM2 : models s2).
  { split; [done|]. intros j Hj. rewrite (fat_same port slot K d N s1 s2 j (proj1 HM1) V2 Hj). by apply HM1. }
  assert (HM3 : models s3).
  { eapply models_same; [exact HM2|exact V3|done| |reflexivity|reflexivity]. apply (keeps_touch _ _ K); [apply Fi2|done]. }
  assert (HR : reading data fd h3 s4).
  { split.
    - by apply models_handles.
    - apply list_lookup_insert_eq. by eapply lookup_lt_Some.
    - destruct Ho1 as [O1 O2 O3 O4 O5 O6]. split; try done. rewrite Hp3. lia.
    - by rewrite <- Hsz, <- F4.
    - done.
    - eapply holds_file_same; [|exact V4|exact Hf]. exact F1. }
  rewrite Nat2Z.id, Ed. specialize (HQ h3 s4 size). cbv zeta in HQ. destruct (nbyte - size =? 0) eqn:En; apply wp_ret; apply HQ; (done || lia).
Qed.

(** A read from [pos] on, of [n] bytes at most. *)
Lemma wp_read2 data fd h s pos n Q : reading data fd h s -> position h = Z.of_nat pos -> (length data < fuel)%nat ->
  (forall h' s', let got := take (Z.to_nat n) (drop pos data) in
     reading data fd h' s' -> position h' = Z.of_nat (pos + length got) -> Q (Z.of_nat (length got), got) s') ->
  wp (mcman_read2 fuel junk fd n) s Q.
Proof.
  intros R Hpos Hfuel HQ. pose proof R as [HM Hh Ho Hsz Hb Hf]. unfold mcman_read2. apply wp_bind. eapply wp_fhandle; [exact Hh|]. rewrite Hsz, Hpos.
  destruct (Z.ltb_spec (Z.of_nat pos) (Z.of_nat (length data))) as [Hlt|Hge].
  - rewrite s32_small by lia. set (m := if _ <? n then _ else n).
    assert (Em : take (Z.to_nat n) (drop pos data) = take (Z.to_nat m) (drop pos data)).
    { unfold m. destruct (Z.ltb_spec (Z.of_nat (length data) - Z.of_nat pos) n); [|done]. rewrite !take_ge by (rewrite length_drop; lia). done. }
    assert (Hm : m <= Z.of_nat (length data) - Z.of_nat pos) by (unfold m; destruct (Z.ltb_spec (Z.of_nat (length data) - Z.of_nat pos) n); lia).
    rewrite Em in HQ. destruct (Z.ltb_spec 0 m) as [Hm0|Hm0].
    + eapply wp_while with
        (I := fun '(nbyte, buf) s' => exists h', reading data fd h' s' /\ 0 < nbyte /\ Z.of_nat (length buf) + nbyte = m /\
                buf = take (length buf) (drop pos data) /\ position h' = Z.of_nat (pos + length buf))
        (v := fun '(nbyte, _) _ => Z.to_nat nbyte).
      * intros [nbyte buf] s1 (h1 & R1 & Hn & Hnm & Hbuf & Hp1).
        eapply (wp_readStep data fd h1 s1 nbyte buf (pos + length buf)); [done|done|done|lia|done|]. intros h2 s2 size got Hs R2 Hp2.
        assert (Lg : length got = (length buf + Z.to_nat size)%nat) by (unfold got; rewrite length_app, length_take, length_drop; lia).
        assert (Eg : got = take (length got) (drop pos data)).
        { rewrite Lg. unfold got. rewrite Hbuf at 1. rewrite <- drop_drop, take_take_drop. done. }
        destruct (Z.eqb_spec (nbyte - size) 0) as [E0|E0].
        -- assert (El : length got = Z.to_nat m) by lia. rewrite El in Eg. rewrite Eg. apply (HQ h2); [done|]. rewrite <- Eg, Lg. lia.
        -- split; [|lia]. exists h2. split_and!; [done|lia|lia|done|lia].
      * exists h. rewrite Nat.add_0_r. split_and!; [done|lia|simpl; lia|done|done].
      * lia.
    + apply wp_ret. specialize (HQ h s). replace (Z.to_nat m) with 0%nat in HQ by lia. cbv zeta in HQ. rewrite take_0 in HQ. apply HQ; [done|]. simpl. by rewrite Nat.add_0_r.
  - apply wp_ret. specialize (HQ h s). rewrite drop_ge, take_nil in HQ by lia. apply HQ; [done|]. simpl. by rewrite Nat.add_0_r.
Qed.
End Read.

(** ** Releasing a chain *)

Lemma wp_while_S {S St R} n (body : St -> M S (St + R)) st s Q :
  wp (body st) s (fun r s' => match r with inl st' => wp (while_ n body st') s' Q | inr x => Q x s' end) -> wp (while_ (Datatypes.S n) body st) s Q.
Proof. unfold wp. rewrite while_S. by destruct (body st s) as [[|]| |]. Qed.

(** [l] is a whole chain of the table. *)
Fixpoint whole_chain (f : Z -> Z) (l : list Z) : Prop :=
  match l with
  | [] => False
  | [c] => f c = -1
  | c :: (c' :: _) as t => f c < -1 /\ Z.land (f c) 0x7fffffff = c' /\ c' <> 0x7fffffff /\ whole_chain f t
  end.

(** The table with the entries of [l] free. *)
Definition freed (l : list Z) (f : Z -> Z) (j : Z) : Z := if bool_decide (j ∈ l) then Z.land (f j) 0x7fffffff else f j.

(** Where the search starts then. *)
Definition startAfter (f : Z -> Z) (l : list Z) (u : Z) : Z := foldl (fun u c => if c <? u then Z.land (f c) 0x7fffffff else u) u l.

Lemma whole_chain_ext f g l : (forall j, j ∈ l -> g j = f j) -> whole_chain f l -> whole_chain g l.
Proof.
  induction l as [|c [|c' l] IH]; intros E; [done|cbn; rewrite E by left; done|]. cbn [whole_chain]. rewrite E by left.
  intros (H1 & H2 & H3 & H4). split_and!; try done. apply IH; [|done]. intros j Hj. apply E. by right.
Qed.

Lemma startAfter_ext f g l : (forall j, j ∈ l -> g j = f j) -> forall u, startAfter g l u = startAfter f l u.
Proof.
  unfold startAfter. induction l as [|c l IH]; intros E u; [done|]. cbn [foldl]. rewrite E by left. apply IH. intros j Hj. apply E. by right.
Qed.

Lemma whole_chain_last f : forall l x, whole_chain f (l ++ [x]) -> f x = -1.
Proof.
  induction l as [|c l IH]; intros x; [done|]. destruct l as [|c' l]; [by intros (_ & _ & _ & H)|]. intros (_ & _ & _ & H). by apply IH.
Qed.

Lemma mask_range v : 0 <= Z.land v 0x7fffffff < 2 ^ 31.
Proof. change 0x7fffffff with (Z.ones 31). rewrite Z.land_ones by lia. apply Z.mod_pos_bound. lia. Qed.

Lemma set_unknown2_same d : set_unknown2 (unknown2 d) d = d.
Proof. by destruct d. Qed.
Lemma set_unknown2_twice a b d : set_unknown2 a (set_unknown2 b d) = set_unknown2 a d.
Proof. done. Qed.

Section Free.
Context {C : Type} {IO : CardIO C} {PG : CardPages C}.
Notation mcst := (mcst C).
Context (port slot : Z) (K : policy (C := C) port slot) {W : Writable K}.
Hypothesis port_ok : 0 <= port < 256.
Hypothesis slot_ok : 0 <= slot < 65536.
Context (fuel : nat) (junk : list Z).
Hypothesis junk_ok : length junk = 32%nat.
Context (N : Z).
Notation models := (models port slot K).

(** One cluster of the chain. *)
Lemma wp_freeStep d f (s : mcst) c Q : models d N f s -> 0 <= c < N ->
  let next := Z.land (f c) 0x7fffffff in
  (forall s', models (set_unknown2 (if c <? unknown2 d then next else unknown2 d) d) N (fun j => if j =? c then next else f j) s' ->
     Q (if next =? 0x7fffffff then inr 0 else inl next) s') ->
  wp (freeStep fuel junk port slot false c) s Q.
Proof.
  intros HM Hc next HQ. pose proof (mask_range (f c)) as Hn. fold next in Hn. assert (HN : N <= 2 ^ 31) by apply HM. unfold freeStep.
  apply wp_bind. eapply (wp_getFAT port slot K); [done..|apply HM|done|]. intros s1 F1 V1 _. cbv beta iota. change (negb (0 =? sceMcResSucceed)) with false. cbv iota.
  assert (HM1 : models d N f s1).
  { split; [done|]. intros j Hj. rewrite (fat_same port slot K d N s s1 j (proj1 HM) V1 Hj). by apply HM. }
  rewrite (proj2 HM c Hc). fold next. apply wp_bind. eapply wp_Done; [apply F1|]. cbn [negb andb]. rewrite (u32_small c) by (unfold is_u32; lia).
  rewrite (u32_small next) by (unfold is_u32; lia). apply wp_bind. set (u := if c <? unknown2 d then next else unknown2 d) in *.
  assert (Hset : forall s2, models (set_unknown2 u d) N f s2 ->
    wp (r <- mcman_setFATentry fuel junk port slot c next ;;
        if negb (r =? sceMcResSucceed) then ret (inr r)
        else if Z.land next 0x7fffffff =? 0x7fffffff then ret (inr sceMcResSucceed) else ret (inl (Z.land next 0x7fffffff))) s2 Q).
  { intros s2 HM2. apply wp_bind. eapply (wp_setFAT port slot K); [done..|apply HM2|done|]. intros s3 F3 _ V3.
    change (negb (0 =? sceMcResSucceed)) with false. cbv iota. rewrite s32_small in V3 by done.
    assert (El : Z.land next 0x7fffffff = next) by (unfold next; by rewrite <- Z.land_assoc). rewrite El.
    assert (HM3 : models (set_unknown2 u d) N (fun j => if j =? c then next else f j) s3).
    { split; [done|]. intros j Hj. rewrite V3 by done. destruct (j =? c); [done|]. by apply HM2. }
    specialize (HQ s3 HM3). by destruct (next =? 0x7fffffff); apply wp_ret. }
  apply wp_when.
  - intros Hlt. eapply (devinfo_mod port slot d); [apply F1|]. intros s2 Hd2 E1 E2 E3 E4 _. apply Hset. unfold u. rewrite Hlt.
    eapply models_start; [exact junk_ok| |exact HM1|exact Hd2|exact E1|exact E2|exact E3|exact E4]. done.
  - intros Hge. apply Hset. unfold u. by rewrite Hge, set_unknown2_same.
Qed.

Lemma wp_freeChain l : NoDup l -> Forall (fun c => 0 <= c < N) l -> forall n d f (s : mcst) c t Q, l = c :: t -> (length l <= n)%nat ->
  models d N f s -> whole_chain f l ->
  (forall s', models (set_unknown2 (startAfter f l (unknown2 d)) d) N (freed l f) s' -> Q 0 s') ->
  wp (while_ n (freeStep fuel junk port slot false) c) s Q.
Proof.
  induction l as [|x l IH]; intros Hnd Hr n d f s c t Q El Hn HM Hch HQ; [done|]. injection El as -> <-.
  apply NoDup_cons in Hnd as [Hx Hnd]. inversion Hr as [|? ? Hc Hr']; subst. destruct n as [|n]; [simpl in Hn; lia|].
  apply wp_while_S. apply (wp_freeStep d f); [done|done|]. intros s1 HM1. set (next := Z.land (f c) 0x7fffffff) in *.
  set (u := if c <? unknown2 d then next else unknown2 d) in *.
  assert (Hrest : forall j, j ∈ l -> (if j =? c then next else f j) = f j) by (intros j Hj; destruct (Z.eqb_spec j c) as [->|]; done).
  destruct l as [|c' l].
  - cbn in Hch. assert (En : next = 0x7fffffff) by (unfold next; by rewrite Hch). rewrite En, Z.eqb_refl. apply HQ.
    destruct HM1 as [F1 HF1]. split; [exact F1|]. intros j Hj. rewrite HF1 by done. unfold freed. destruct (Z.eqb_spec j c) as [->|Hne].
    + rewrite bool_decide_eq_true_2 by left. done.
    + rewrite bool_decide_eq_false_2; [done|]. by rewrite list_elem_of_singleton.
  - destruct Hch as (H1 & H2 & H3 & H4). fold next in H2. rewrite H2, (proj2 (Z.eqb_neq c' _)) by done.
    eapply (IH Hnd Hr' n (set_unknown2 u d) (fun j => if j =? c then next else f j) s1 c' l); [done|simpl in *; lia|done| |].
    + eapply whole_chain_ext; [exact Hrest|done].
    + intros s2 HM2. rewrite set_unknown2_twice in HM2. apply HQ. rewrite (startAfter_ext f) in HM2 by exact Hrest. cbn [unknown2 set_unknown2] in HM2.
      destruct HM2 as [F2 HF2]. split; [exact F2|]. intros j Hj. rewrite HF2 by done. unfold freed.
      destruct (Z.eqb_spec j c) as [->|Hne].
      * rewrite (bool_decide_eq_false_2 (c ∈ c' :: l)) by done. rewrite (bool_decide_eq_true_2 (c ∈ c :: c' :: l)) by left. done.
      * rewrite (bool_decide_ext (j ∈ c :: c' :: l) (j ∈ c' :: l)); [done|]. rewrite (elem_of_cons (c' :: l)). tauto.
Qed.
End Free.
