(* ===== verification/McCrash.v ===== *)
(** * McCrash: power loss while a cached cluster is written back

    A card ([flash]) whose writes and erases are lost from some moment on.
    [mcman_flushcacheentry] copies the block to [backup_block1], marks the copy
    complete in [backup_block2], writes the block and takes the marks back; the
    states it goes through are [safe]: nothing under way, a copy being made
    ([preparing]) or complete ([committed]).  [mcman_checkBackupBlocks] leads
    from every one of them to a card that is [whole], and through [safe] ones
    only, so that it may itself be interrupted and started again ([boot]).
    [shows] says what is then in the clusters. *)

From stdpp Require Import base numbers list relations.
From Stdlib Require Import ZArith Lia.
From S2P Require Import Prelude McUtil Mc McCache McFat McFile McChains.

Open Scope Z_scope.
Open Scope c_scope.

(** ** A card that loses power *)

(** A page and its spare bytes; what is in them after an erase. *)
Definition cell : Type := list Z * list Z.
Definition blank : cell := (replicate 512 255, replicate 16 255).

(** [power] is how many more writes and erases are done; the ones after that
    are lost.  One that is done is done as a whole: a page half written is not
    modelled.  An erase takes a block of 16 pages.  The manager cannot tell: its
    state is lost with the power, so what it goes on to do does not matter. *)
Record flash := mkFlash { cells : Z -> cell; power : nat }.

Definition spend (f : (Z -> cell) -> Z -> cell) (c : flash) : flash :=
  match power c with O => c | S p => mkFlash (f (cells c)) p end.
Definition wrote (n : Z) (x : cell) (X : Z -> cell) : Z -> cell := fun m => if m =? n then x else X m.
Definition wiped (n : Z) (X : Z -> cell) : Z -> cell := fun m => if (n <=? m) && (m <? n + 16) then blank else X m.

#[export] Instance flashIO : CardIO flash := {
  io_readpage _ _ n := fun c => Done (Some (cells c n)) c;
  io_writepage _ _ n data ecc := fun c => Done 0 (spend (wrote n (data, ecc)) c);
  io_erase _ _ n := fun c => Done true (spend (wiped n) c);
  io_erase_end _ _ := fun c => Done 0 c;
  io_writePS1 _ _ _ _ := fun c => Done 0 c;
  io_readPS1 _ _ n := fun c => Done (0, (cells c n).1) c;
  io_probePS1Card2 _ _ := fun c => Done 0 c;
  io_fillPS1backuparea _ _ _ := fun c => Done 0 c;
  io_clock := fun c => Done (true, replicate 8 0) c
}.

Definition cell_ok (x : cell) : Prop :=
  length x.1 = 512%nat /\ bytes_ok x.1 /\ length x.2 = 16%nat /\ (nth 15 x.2 0 = 255 \/ take 12 x.2 = eccOf 4 x.1).

#[export] Instance flashPages : CardPages flash.
Proof.
  refine {| page c _ _ n := (cells c n).1; spare c _ _ n := (cells c n).2; card_ok c := forall n, cell_ok (cells c n) |}.
  - intros c port slot n H. by destruct (H n) as (L & B & _).
  - intros c port slot n H. by destruct (H n) as (_ & _ & L & E).
  - intros c port slot n _. cbn. by destruct (cells c n).
Defined.

Lemma blank_ok : cell_ok blank.
Proof. split_and!; [done|apply Forall_replicate; lia|done|by left]. Qed.

(** ** What holds whenever the power fails *)

(** [R] holds of the pages, which are [X] as long as there is power. *)
Definition track (R : (Z -> cell) -> Prop) (X : Z -> cell) (c : flash) : Prop := R (cells c) /\ (power c = 0%nat \/ cells c = X).

Lemma track_spend R f X c : track R X c -> R (f X) -> track R (f X) (spend f c).
Proof.
  intros [HR HX] Hf. unfold spend. destruct (power c) as [|p] eqn:Ep; [split; [done|by left]|].
  destruct HX as [?|HX]; [done|]. split; cbn [cells power]; rewrite HX; [done|by right].
Qed.

(** Pages [base + k], for the [k] of [idx], written in turn. *)
Definition writes (base : Z) (x : nat -> cell) (idx : list nat) (X : Z -> cell) : Z -> cell :=
  foldl (fun X k => wrote (base + Z.of_nat k) (x k) X) X idx.
Definition spends (base : Z) (x : nat -> cell) (idx : list nat) (c : flash) : flash :=
  foldl (fun c k => spend (wrote (base + Z.of_nat k) (x k)) c) c idx.

Lemma track_spends R base x idx : forall X c, track R X c -> (forall l1 l2, idx = l1 ++ l2 -> R (writes base x l1 X)) ->
  track R (writes base x idx X) (spends base x idx c).
Proof.
  induction idx as [|k idx IH]; intros X c HT HR; [done|]. apply (IH (wrote (base + Z.of_nat k) (x k) X)).
  - apply track_spend; [done|]. by apply (HR [k] idx).
  - intros l1 l2 ->. by apply (HR (k :: l1) l2).
Qed.

Lemma writes_out base x idx : forall X n, (forall k, k ∈ idx -> n <> base + Z.of_nat k) -> writes base x idx X n = X n.
Proof.
  induction idx as [|k idx IH]; intros X n H; [done|]. cbn [writes foldl]. etransitivity; [apply IH; intros j Hj; apply H; by right|].
  unfold wrote. by rewrite (proj2 (Z.eqb_neq _ _)) by (apply H; left).
Qed.

Lemma writes_in base x idx k : k ∈ idx -> forall X, writes base x idx X (base + Z.of_nat k) = x k.
Proof.
  induction idx as [|j idx IH]; intros Hk X; [by apply elem_of_nil in Hk|]. destruct (decide (k ∈ idx)) as [Hin|Hin]; [by apply IH|].
  apply elem_of_cons in Hk as [->|]; [|done]. etransitivity; [apply (writes_out base x idx); intros i Hi E|].
  - assert (i = j) as -> by lia. done.
  - unfold wrote. by rewrite Z.eqb_refl.
Qed.

Lemma writes_ok base x idx : (forall k, k ∈ idx -> cell_ok (x k)) -> forall X, (forall n, cell_ok (X n)) -> forall n, cell_ok (writes base x idx X n).
Proof.
  induction idx as [|k idx IH]; intros Hx X HX n; [apply HX|]. apply (IH (fun j Hj => Hx j (list_elem_of_further _ _ _ Hj)) (wrote (base + Z.of_nat k) (x k) X)).
  intros m. unfold wrote. destruct (_ =? _); [apply Hx; left|apply HX].
Qed.

Lemma wiped_ok n X : (forall m, cell_ok (X m)) -> forall m, cell_ok (wiped n X m).
Proof. intros H m. unfold wiped. destruct (_ && _); [apply blank_ok|apply H]. Qed.
Lemma wiped_out n X m : m < n \/ n + 16 <= m -> wiped n X m = X m.
Proof. intros H. unfold wiped. destruct (Z.leb_spec n m), (Z.ltb_spec m (n + 16)); try done. lia. Qed.
Lemma wiped_in n X m : n <= m < n + 16 -> wiped n X m = blank.
Proof. intros H. unfold wiped. by rewrite (proj2 (Z.leb_le _ _)), (proj2 (Z.ltb_lt _ _)) by lia. Qed.

(** ** The operations on blocks *)

Section Blocks.
Context (port slot : Z) (d : MCDevInfo).
Notation mcst := (mcst flash).

(** A block is 16 pages, 8 clusters; its backup blocks are others. *)
Record blocks_ok (b : Z) : Prop := {
  b_geometry : geometry d;
  b_pages : blocksize d = 16;
  b_clusters : clusters_per_block d = 8;
  b_range : 0 < b < 2 ^ 27 /\ 0 <= backup_block1 d < 2 ^ 27 /\ 0 <= backup_block2 d < 2 ^ 27;
  b_apart : b <> backup_block1 d /\ b <> backup_block2 d /\ backup_block1 d <> backup_block2 d
}.

(** Pointers to pages [D]. *)
Definition resolves (s : mcst) (ps : list pageptr) (D : nat -> list Z) : Prop := forall k, (k < 16)%nat ->
  exists p, ps !! k = Some p /\ ptrData p 512 s = Done (D k) s /\ length (D k) = 512%nat /\ bytes_ok (D k).

(** Codes of pages [D] where [mcman_eraseblock] puts them. *)
Definition coded (D : nat -> list Z) (n : nat) (ecc : list Z) : Prop :=
  length ecc = 512%nat /\ forall k, (k < n)%nat -> take 12 (drop (16 * k) ecc) = eccOf 4 (D k).

Lemma ptrData_same (s s' : mcst) p n x : entrycache s' = entrycache s -> backupbuf s' = backupbuf s -> ptrData p n s = Done x s -> ptrData p n s' = Done x s'.
Proof.
  intros Ee Eb. destruct p as [i off|off]; cbn [ptrData]; unfold bind, mce, gets, ret.
  - rewrite Ee. destruct (entrycache s !! i); [|done]. by intros [= <-].
  - rewrite Eb. by intros [= <-].
Qed.

Lemma resolves_same s s' ps D : entrycache s' = entrycache s -> backupbuf s' = backupbuf s -> resolves s ps D -> resolves s' ps D.
Proof. intros Ee Eb H k Hk. destruct (H k Hk) as (p & Hp & E & L). exists p. split_and!; try apply L; [done|]. by eapply ptrData_same. Qed.

Lemma slice_ext (a b : list Z) n m : (forall i, (n <= i < n + m)%nat -> a !! i = b !! i) -> take m (drop n a) = take m (drop n b).
Proof.
  intros H. apply list_eq. intros i. destruct (decide (i < m)%nat) as [Hi|Hi].
  - rewrite !lookup_take_lt, !lookup_drop by done. apply H. lia.
  - by rewrite !lookup_take_ge by lia.
Qed.

Lemma put_bytes_out off (l b : list Z) i : (off + length l <= length b)%nat -> (i < off \/ off + length l <= i)%nat ->
  put_bytes (Z.of_nat off) l b !! i = b !! i.
Proof.
  intros Hl Hi. unfold put_bytes. rewrite Nat2Z.id. destruct (decide (i < off)%nat) as [Hlt|Hge].
  - rewrite lookup_app_l by (rewrite length_take; lia). by apply lookup_take_lt.
  - rewrite lookup_app_r by (rewrite length_take; lia). rewrite length_take, lookup_app_r by lia. rewrite lookup_drop. f_equal. lia.
Qed.

Lemma put_bytes_in off (l b : list Z) : (off + length l <= length b)%nat -> take (length l) (drop off (put_bytes (Z.of_nat off) l b)) = l.
Proof.
  intros Hl. unfold put_bytes. rewrite Nat2Z.id. rewrite drop_app_length' by (rewrite length_take; lia). by apply take_app_length.
Qed.

Lemma length_put_at off (l b : list Z) : (off + length l <= length b)%nat -> length (put_bytes (Z.of_nat off) l b) = length b.
Proof. intros H. unfold put_bytes. rewrite !length_app, length_take, length_drop. lia. Qed.

Lemma coded_put D n ecc : coded D n ecc -> (n < 16)%nat -> coded D (S n) (put_bytes (Z.of_nat (16 * n)) (eccOf 4 (D n)) ecc).
Proof.
  intros [L H] Hn. pose proof (length_eccOf 4 (D n)) as E. split; [rewrite length_put_at by lia; done|]. intros k Hk. destruct (decide (k = n)) as [->|Hne].
  - change 12%nat with (3 * 4)%nat. rewrite <- E. apply put_bytes_in. lia.
  - rewrite <- (H k) by lia. apply slice_ext. intros i Hi. apply put_bytes_out; lia.
Qed.

(** The page [k] with its spare bytes as it is written. *)
Definition paged (D : nat -> list Z) (ecc : list Z) (k : nat) : cell := (D k, take 16 (drop (16 * k) ecc)).

Lemma paged_ok D ecc k : coded D 16 ecc -> (k < 16)%nat -> length (D k) = 512%nat -> bytes_ok (D k) -> cell_ok (paged D ecc k).
Proof.
  intros [L H] Hk Ld Hb. split_and!; [done|done|cbn; rewrite length_take, length_drop; lia|]. right. cbn. rewrite take_take. by apply H.
Qed.

Lemma wp_on_card {A} (m : M flash A) (s : mcst) r c Q : m (card s) = Done r c -> Q r (with_card c s) -> wp (on_card m) s Q.
Proof. intros E HQ. eapply wp_Done; [|exact HQ]. unfold on_card. by rewrite E. Qed.

Lemma wp_erase (s : mcst) b Q : has_dev s port slot d -> blocksize d = 16 -> 0 <= b < 2 ^ 27 -> Q 0 (with_card (spend (wiped (b * 16)) (card s)) s) ->
  wp (mcman_eraseblock port slot b None) s Q.
Proof.
  intros Hd Hs Hb HQ. unfold mcman_eraseblock. apply wp_bind. eapply wp_Done; [exact Hd|]. rewrite Hs, s32_small by lia.
  apply wp_bind. eapply wp_on_card; [reflexivity|]. cbn [negb]. apply wp_bind, wp_ret. eapply wp_on_card; [reflexivity|]. exact HQ.
Qed.

(** The codes of the pages [ps] points to are left in [mcman_eccdata]. *)
Lemma wp_erase_pages (s : mcst) b ps D Q : has_dev s port slot d -> geometry d -> blocksize d = 16 -> 0 <= b < 2 ^ 27 -> resolves s ps D -> length (eccdata s) = 512%nat ->
  (forall ecc, coded D 16 ecc -> Q 0 (with_bufs (pagebuf s) (backupbuf s) (pagedata s) ecc (with_card (spend (wiped (b * 16)) (card s)) s))) ->
  wp (mcman_eraseblock port slot b (Some ps)) s Q.
Proof.
  intros Hd G Hs Hb HR HL HQ. unfold mcman_eraseblock. apply wp_bind. eapply wp_Done; [exact Hd|]. rewrite Hs, s32_small by lia.
  apply wp_bind. eapply wp_on_card; [reflexivity|]. cbn [negb]. set (s0 := with_card _ s). rewrite (g_pagesize _ G).
  apply wp_bind, wp_bind. eapply wp_Done; [reflexivity|]. eapply wp_mono.
  - eapply (wp_for _ (fun l _ s1 => exists n ecc, l = seq n (16 - n) /\ (n <= 16)%nat /\ coded D n ecc /\ s1 = with_bufs (pagebuf s0) (backupbuf s0) (pagedata s0) ecc s0)).
    + intros k l' [] s1 (n & ecc & El & Hn & HC & ->). destruct (decide (n = 16%nat)) as [->|Hn']; [done|].
      replace (16 - n)%nat with (S (16 - S n)) in El by lia. cbn [seq] in El. injection El as -> ->.
      destruct (HR n) as (p & Hp & Ep & Lp & Bp); [lia|]. apply wp_bind. eapply wp_Done.
      { unfold at_. rewrite (proj2 (Z.ltb_ge _ 0)) by lia. rewrite Nat2Z.id, Hp. reflexivity. }
      apply wp_bind. eapply wp_Done; [by eapply (ptrData_same s)|]. eapply wp_Done; [reflexivity|].
      replace (Z.shiftr (Z.of_nat n * 512) 5) with (Z.of_nat (16 * n)) by (rewrite Z.shiftr_div_pow2 by lia; change (2 ^ 5) with 32; apply (Z.div_unique_exact); lia).
      change (Z.to_nat (Z.shiftr (512 + 127) 7)) with 4%nat. exists (S n), (put_bytes (Z.of_nat (16 * n)) (eccOf 4 (D n)) ecc).
      split_and!; [done|lia|apply coded_put; [done|lia]|done].
    + exists 0%nat, (put_bytes 0 (replicate 32 0) (eccdata s0)). split_and!; [done|lia| |done]. split; [|intros k Hk; lia].
      change 0 with (Z.of_nat 0) at 1. rewrite length_put_at; [done|]. cbn. lia.
  - intros [] s1 (n & ecc & El & Hn & HC & ->). assert (n = 16%nat) as -> by (destruct (16 - n)%nat eqn:E; [lia|done]).
    eapply wp_on_card; [reflexivity|]. by apply HQ.
Qed.

(** Pages of a block written one after the other. *)
Lemma wp_writePages (s : mcst) base ps D idx : geometry d -> resolves s ps D -> coded D 16 (eccdata s) -> (forall k, k ∈ idx -> (k < 16)%nat) ->
  forall c Q, Q 0 (with_card (spends base (paged D (eccdata s)) idx c) s) -> wp (writePages port slot d base ps idx) (with_card c s) Q.
Proof.
  intros G HR HC. induction idx as [|k idx IH]; intros Hi c Q HQ; cbn [writePages]; [by apply wp_ret|].
  destruct (HR k) as (p & Hp & Ep & Lp & Bp); [apply Hi; left|]. rewrite (g_pagesize _ G). apply wp_bind. eapply wp_Done.
  { unfold at_. rewrite (proj2 (Z.ltb_ge _ 0)) by lia. rewrite Nat2Z.id, Hp. reflexivity. }
  apply wp_bind. eapply wp_Done; [by eapply (ptrData_same s)|]. apply wp_bind. eapply wp_Done; [reflexivity|].
  apply wp_bind. eapply wp_on_card; [reflexivity|]. cbn [negb Z.eqb sceMcResSucceed].
  unfold sparesizeOf. rewrite (g_pagesize _ G). change (Z.to_nat (Z.shiftr (512 + 0x1F) 5)) with 16%nat.
  cbn [eccdata with_card card]. rewrite (Nat.mul_comm k 16). apply IH; [intros j Hj; apply Hi; by right|]. exact HQ.
Qed.

(** ** The states of a card *)

Section Safe.
Context (b : Z) (OK : blocks_ok b) (X0 : Z -> cell) (D : nat -> list Z).
Notation B1 := (backup_block1 d).
Notation B2 := (backup_block2 d).

Definition firstWord (x : cell) : Z := le32 x.1 0.
Definition mark : Z := Z.lor (u32 b) 0x80000000.

Definition in_block (B n : Z) : Prop := B * 16 <= n < B * 16 + 16.
Definition holds (E : nat -> list Z) (B : Z) (X : Z -> cell) : Prop := forall k, (k < 16)%nat -> (X (B * 16 + Z.of_nat k)).1 = E k.
Definition old (k : nat) : list Z := (X0 (b * 16 + Z.of_nat k)).1.

(** Nothing under way; a copy being made, the block still the old one; a
    complete copy of the new block. *)
Definition marks (v1 v2 : Z) (X : Z -> cell) : Prop := firstWord (X (B2 * 16)) = v1 /\ firstWord (X (B2 * 16 + 1)) = v2.
Definition idle (E : nat -> list Z) (X : Z -> cell) : Prop := marks 0xffffffff 0xffffffff X /\ holds E b X.
Definition preparing (X : Z -> cell) : Prop := marks mark 0xffffffff X /\ holds old b X.
Definition committed (X : Z -> cell) : Prop := marks mark mark X /\ holds D B1 X.

(** All pages can be read, and only the three blocks differ from [X0]. *)
Definition kept (X : Z -> cell) : Prop :=
  (forall n, cell_ok (X n)) /\ forall n, ~ in_block b n -> ~ in_block B1 n -> ~ in_block B2 n -> X n = X0 n.

Definition safe (X : Z -> cell) : Prop := kept X /\ (idle old X \/ idle D X \/ preparing X \/ committed X).

Lemma holds_same E B X Y : (forall n, in_block B n -> Y n = X n) -> holds E B X -> holds E B Y.
Proof. intros H HX k Hk. rewrite H; [by apply HX|]. unfold in_block. lia. Qed.

Lemma marks_same v1 v2 X Y : (forall n, in_block B2 n -> Y n = X n) -> marks v1 v2 X -> marks v1 v2 Y.
Proof. intros H [H1 H2]. unfold marks. rewrite !H; [done|unfold in_block; lia..]. Qed.

(** A change of one block. *)
Definition changes (B : Z) (X Y : Z -> cell) : Prop := (forall n, cell_ok (Y n)) /\ forall n, ~ in_block B n -> Y n = X n.

Lemma changes_wiped B X : (forall n, cell_ok (X n)) -> changes B X (wiped (B * 16) X).
Proof. intros H. split; [by apply wiped_ok|]. intros n Hn. apply wiped_out. unfold in_block in Hn. lia. Qed.

Lemma changes_wrote B n x X : (forall n, cell_ok (X n)) -> in_block B n -> cell_ok x -> changes B X (wrote n x X).
Proof.
  intros H Hn Hx. split; [intros m|intros m Hm]; unfold wrote; destruct (Z.eqb_spec m n) as [->|]; try done.
Qed.

Lemma changes_writes B x idx X : (forall n, cell_ok (X n)) -> (forall k, k ∈ idx -> (k < 16)%nat /\ cell_ok (x k)) -> changes B X (writes (B * 16) x idx X).
Proof.
  intros H Hi. split; [apply writes_ok; [intros k Hk; by apply Hi|done]|]. intros n Hn. apply writes_out. intros k Hk. destruct (Hi k Hk). unfold in_block in Hn. lia.
Qed.

Lemma kept_changes B X Y : kept X -> changes B X Y -> B = b \/ B = B1 \/ B = B2 -> kept Y.
Proof. intros [HX HO] [HY HC] HB. split; [done|]. intros n N0 N1 N2. rewrite HC; [by apply HO|]. by destruct HB as [->|[->| ->]]. Qed.

Lemma apart B B' n : in_block B n -> B <> B' -> ~ in_block B' n.
Proof. unfold in_block. lia. Qed.

Lemma marks_changes v1 v2 B X Y : changes B X Y -> B2 <> B -> marks v1 v2 X -> marks v1 v2 Y.
Proof. intros [_ HC] Hne. apply marks_same. intros n Hn. apply HC. by apply (apart B2). Qed.
Lemma holds_changes E A B X Y : changes B X Y -> A <> B -> holds E A X -> holds E A Y.
Proof. intros [_ HC] Hne. apply holds_same. intros n Hn. apply HC. by apply (apart A). Qed.

Lemma blank_word : firstWord blank = 0xffffffff.
Proof. reflexivity. Qed.

Lemma marks_wiped X : marks 0xffffffff 0xffffffff (wiped (B2 * 16) X).
Proof. split; rewrite wiped_in by lia; apply blank_word. Qed.

Lemma holds_writes E B x X : (forall k, (k < 16)%nat -> (x k).1 = E k) -> forall idx, (forall k, (k < 16)%nat -> k ∈ idx) -> holds E B (writes (B * 16) x idx X).
Proof. intros Hx idx Hi k Hk. rewrite writes_in by (by apply Hi). by apply Hx. Qed.

Lemma committed_changes X Y : committed X -> changes b X Y -> committed Y.
Proof.
  destruct (b_apart _ OK) as (N1 & N2 & N3). intros [HM HH] HC. split; [eapply marks_changes; try done; congruence|eapply holds_changes; try done; congruence].
Qed.

Lemma safe_committed X : kept X -> committed X -> safe X.
Proof. intros HK HC. split; [done|]. by do 3 right. Qed.

(** The block written from a complete copy, and the copy given up. *)
Lemma track_block X c x idx : kept X -> committed X -> track safe X c -> (forall k, (k < 16)%nat -> cell_ok (x k) /\ (x k).1 = D k) ->
  (forall k, k ∈ idx <-> (k < 16)%nat) ->
  let Y := writes (b * 16) x idx (wiped (b * 16) X) in
  track safe Y (spends (b * 16) x idx (spend (wiped (b * 16)) c)) /\
  (kept (wiped (B2 * 16) Y) /\ idle D (wiped (B2 * 16) Y)) /\
  forall c', track safe Y c' -> track safe (wiped (B2 * 16) Y) (spend (wiped (B2 * 16)) c').
Proof.
  intros HK HC HT Hx Hi Y. pose proof HK as [HO _]. destruct (b_apart _ OK) as (N1 & N2 & N3).
  pose proof (changes_wiped b X HO) as C1. pose proof (kept_changes b X _ HK C1 (or_introl eq_refl)) as K1. pose proof (committed_changes X _ HC C1) as HC1.
  assert (CW : forall l, (forall k, k ∈ l -> (k < 16)%nat) -> changes b (wiped (b * 16) X) (writes (b * 16) x l (wiped (b * 16) X))).
  { intros l Hl. apply changes_writes; [apply K1|]. intros k Hk. split; [by apply Hl|]. by apply Hx, Hl. }
  assert (KY : kept Y /\ committed Y).
  { assert (CY : changes b (wiped (b * 16) X) Y) by (apply CW; intros k; apply Hi). split; [by eapply kept_changes; [..|left]|by eapply committed_changes]. }
  assert (HI : kept (wiped (B2 * 16) Y) /\ idle D (wiped (B2 * 16) Y)).
  { pose proof (changes_wiped B2 Y (proj1 (proj1 KY))) as C2. split; [eapply kept_changes; [apply KY|exact C2|by right; right]|]. split; [apply marks_wiped|].
    eapply holds_changes; [exact C2|congruence|]. apply holds_writes; [intros k Hk; by apply Hx|intros k Hk; by apply Hi]. }
  split; [|split; [done|]].
  - apply track_spends.
    + apply track_spend; [done|]. by apply safe_committed.
    + intros l1 l2 ->. assert (CL : changes b (wiped (b * 16) X) (writes (b * 16) x l1 (wiped (b * 16) X))) by (apply CW; intros k Hk; apply Hi, elem_of_app; by left).
      apply safe_committed; [by eapply kept_changes; [..|left]|by eapply committed_changes].
  - intros c' HT'. apply track_spend; [done|]. split; [apply HI|]. right. left. apply HI.
Qed.

(** The copy made: its first mark, its pages, its second mark. *)
Lemma track_backup x mk c : cells c = X0 -> (forall n, cell_ok (X0 n)) -> marks 0xffffffff 0xffffffff X0 -> cell_ok mk -> firstWord mk = mark ->
  (forall k, (k < 16)%nat -> cell_ok (x k) /\ (x k).1 = D k) ->
  let X := wrote (B2 * 16 + 1) mk (writes (B1 * 16) x (seq 0 16) (wrote (B2 * 16) mk (wiped (B1 * 16) X0))) in
  kept X /\ committed X /\ track safe X (spend (wrote (B2 * 16 + 1) mk) (spends (B1 * 16) x (seq 0 16) (spend (wrote (B2 * 16) mk) (spend (wiped (B1 * 16)) c)))).
Proof.
  intros HX HO HM Hmk Hw Hx X. destruct (b_apart _ OK) as (N1 & N2 & N3).
  assert (K0 : kept X0) by done. assert (I0 : idle old X0) by done.
  pose proof (changes_wiped B1 X0 HO) as C1. set (X1 := wiped (B1 * 16) X0) in *.
  assert (K1 : kept X1) by (eapply kept_changes; [exact K0|exact C1|by right; left]).
  assert (I1 : idle old X1) by (split; [eapply marks_changes; [exact C1|congruence|apply I0]|eapply holds_changes; [exact C1|congruence|apply I0]]).
  assert (C2 : changes B2 X1 (wrote (B2 * 16) mk X1)) by (apply changes_wrote; [apply K1|unfold in_block; lia|done]). set (X2 := wrote (B2 * 16) mk X1) in *.
  assert (K2 : kept X2) by (eapply kept_changes; [exact K1|exact C2|by right; right]).
  assert (P2 : preparing X2).
  { split; [|eapply holds_changes; [exact C2|congruence|apply I1]]. unfold X2, marks, wrote. rewrite Z.eqb_refl, (proj2 (Z.eqb_neq _ _)) by lia. split; [done|apply I1]. }
  assert (P3 : forall l, (forall k, k ∈ l -> (k < 16)%nat) -> kept (writes (B1 * 16) x l X2) /\ preparing (writes (B1 * 16) x l X2)).
  { intros l Hl. assert (CL : changes B1 X2 (writes (B1 * 16) x l X2)) by (apply changes_writes; [apply K2|intros k Hk; split; [by apply Hl|by apply Hx, Hl]]).
    split; [eapply kept_changes; [exact K2|exact CL|by right; left]|]. split; [eapply marks_changes; [exact CL|congruence|apply P2]|eapply holds_changes; [exact CL|congruence|apply P2]]. }
  assert (H16 : forall k, k ∈ seq 0 16 -> (k < 16)%nat) by (intros k; rewrite elem_of_seq; lia).
  destruct (P3 _ H16) as [K3 P3']. set (X3 := writes (B1 * 16) x (seq 0 16) X2) in *.
  assert (C4 : changes B2 X3 X) by (apply changes_wrote; [apply K3|unfold in_block; lia|done]).
  assert (KC : kept X /\ committed X).
  { split; [eapply kept_changes; [exact K3|exact C4|by right; right]|]. split.
    - unfold X, marks, wrote. rewrite Z.eqb_refl, (proj2 (Z.eqb_neq _ _)) by lia. split; [apply P3'|done].
    - eapply holds_changes; [exact C4|congruence|]. apply holds_writes; [intros k Hk; by apply Hx|]. intros k Hk. apply elem_of_seq. lia. }
  split_and!; [apply KC|apply KC|]. apply track_spend; [|by apply safe_committed; apply KC]. apply track_spends.
  - apply track_spend; [apply track_spend|].
    + split; [|by right]. rewrite HX. split; [done|]. by left.
    + split; [done|]. by left.
    + split; [done|]. by do 2 right; left.
  - intros l1 l2 E. destruct (P3 l1) as [K4 P4]; [intros k Hk; apply H16; rewrite E; apply elem_of_app; by left|]. split; [done|]. by do 2 right; left.
Qed.

(** The block written with no copy made before. *)
Lemma track_plain x idx c : cells c = X0 -> (forall n, cell_ok (X0 n)) -> (forall k, (k < 16)%nat -> cell_ok (x k) /\ (x k).1 = D k) ->
  (forall k, k ∈ idx <-> (k < 16)%nat) ->
  let Y := writes (b * 16) x idx (wiped (b * 16) X0) in
  track kept Y (spends (b * 16) x idx (spend (wiped (b * 16)) c)) /\ kept Y /\ holds D b Y.
Proof.
  intros HX HO Hx Hi Y. assert (K0 : kept X0) by done. pose proof (changes_wiped b X0 HO) as C1.
  pose proof (kept_changes b X0 _ K0 C1 (or_introl eq_refl)) as K1.
  assert (KW : forall l, (forall k, k ∈ l -> (k < 16)%nat) -> kept (writes (b * 16) x l (wiped (b * 16) X0))).
  { intros l Hl. eapply kept_changes; [exact K1| |by left]. apply changes_writes; [apply K1|]. intros k Hk. split; [by apply Hl|by apply Hx, Hl]. }
  split; [|split].
  - apply track_spends; [apply track_spend; [|done]; split; [by rewrite HX|by right]|]. intros l1 l2 ->. apply KW. intros k Hk. apply Hi, elem_of_app. by left.
  - apply KW. intros k. apply Hi.
  - apply holds_writes; [intros k Hk; by apply Hx|intros k Hk; by apply Hi].
Qed.

(** ** Recovery *)

Section Recovery.
Context (fuel : nat) (junk : list Z).
Hypothesis junk_ok : length junk = 32%nat.
Hypothesis port_ok : 0 <= port < 256.
Hypothesis slot_ok : 0 <= slot < 65536.

(** The manager when it looks at a card: nothing to be written. *)
Record booted (s : mcst) : Prop := {
  bt_dev : has_dev s port slot d;
  bt_cache : cache_ok s;
  bt_clean : clean s;
  bt_bad : badblock s <= 0;
  bt_pagedata : length (pagedata s) = 32%nat;
  bt_eccdata : length (eccdata s) = 512%nat
}.

Definition markOf (v : Z) : Z := if v =? 0xffffffff then v else Z.land v 0x7fffffff.

Lemma wp_readMark (s : mcst) n Q : geometry d -> has_dev s port slot d -> card_ok (card s) ->
  (forall pb, Q (0, markOf (firstWord (cells (card s) n))) (with_bufs pb (backupbuf s) (pagedata s) (eccdata s) s)) ->
  wp (readMark junk port slot n d) s Q.
Proof.
  intros G Hd HK HQ. unfold readMark. apply wp_bind. eapply wp_Done; [reflexivity|]. apply wp_bind. eapply readPage_at; try done. cbv beta iota.
  apply wp_bind. eapply wp_Done; [reflexivity|]. apply wp_ret. cbn [page flashPages].
  assert (E : backupMark d ((cells (card s) n).1 ++ drop 512 (pagebuf s)) = markOf (firstWord (cells (card s) n))).
  { unfold backupMark, markOf, firstWord. rewrite (g_erase _ G). cbn [andb]. destruct (HK n) as (L & _). unfold le32. by rewrite !app_nth1 by lia. }
  rewrite E. apply HQ.
Qed.

(** What the pages of a block hold. *)
Definition pagesOf (B : Z) (X : Z -> cell) (k : nat) : list Z := (X (B * 16 + Z.of_nat k)).1.

(** [n] clusters of the backup block are in the cache, at the front. *)
Record gathered (s0 s : mcst) (es : list nat) : Prop := {
  ga_boot : booted s;
  ga_card : card s = card s0;
  ga_order : take (length es) (mccache s) = reverse es;
  ga_entry : forall i e, es !! i = Some e -> exists c, entrycache s !! e = Some c /\ isCluster port slot (B1 * 8 + Z.of_nat i) c = true;
  ga_ptr : forall i e q, es !! i = Some e -> (q < 2)%nat -> pagedata s !! (i * 2 + q)%nat = Some (PCache e (Z.of_nat q * 512))
}.

Lemma gathered_resolves s0 s es : gathered s0 s es -> length es = 8%nat -> resolves s (pagedata s) (pagesOf B1 (cells (card s0))).
Proof.
  intros [GB GC GO GE GP] L k Hk. pose proof (Nat.div_mod_eq k 2) as Ek. pose proof (Nat.mod_upper_bound k 2 ltac:(lia)) as Hq.
  set (i := (k / 2)%nat) in *. set (q := (k mod 2)%nat) in *. destruct (lookup_lt_is_Some_2 es i) as [e He]; [lia|].
  destruct (GE i e He) as (c & Hc & Hi). exists (PCache e (Z.of_nat q * 512)). pose proof (GP i e q He Hq) as Hp. replace (i * 2 + q)%nat with k in Hp by lia.
  pose proof (proj1 (isCluster_true _ _ _ _) Hi) as (E1 & E2 & E3).
  pose proof (ck_clean _ (bt_cache _ GB) e c Hc ltac:(destruct (b_range _ OK); lia) (bt_clean _ GB e c Hc)) as Ed. rewrite E3, GC in Ed.
  pose proof (ck_card _ (bt_cache _ GB)) as HK. rewrite GC in HK. cbn [card_ok flashPages] in HK.
  assert (EP : take 512 (drop (Z.to_nat (Z.of_nat q * 512)) (cl_data c)) = pagesOf B1 (cells (card s0)) k).
  { rewrite Ed. unfold cluster_data, pagesOf. cbn [page flashPages]. destruct (HK (2 * (B1 * 8 + Z.of_nat i))) as (L0 & _), (HK (2 * (B1 * 8 + Z.of_nat i) + 1)) as (L1 & _).
    assert (q = 0 \/ q = 1)%nat as [Eq|Eq] by lia; rewrite Eq.
    - rewrite drop_0, take_app_length' by done. do 2 f_equal. lia.
    - change (Z.to_nat (Z.of_nat 1 * 512)) with 512%nat. rewrite drop_app_length' by done. rewrite take_ge by lia. do 2 f_equal. lia. }
  split_and!; [done| |apply HK|apply HK]. cbn [ptrData]. unfold bind, mce, ret. by rewrite Hc, <- EP.
Qed.

(** One more cluster: it takes an entry that is none of the others'. *)
Lemma gathered_read s0 s es e c s' : gathered s0 s es -> (length es < 8)%nat -> read_post s port slot (B1 * 8 + Z.of_nat (length es)) e c s' ->
  booted s' /\ card s' = card s0 /\ take (length (es ++ [e])) (mccache s') = reverse (es ++ [e]) /\
  (forall i x, (es ++ [e]) !! i = Some x -> exists c, entrycache s' !! x = Some c /\ isCluster port slot (B1 * 8 + Z.of_nat i) c = true) /\
  pagedata s' = pagedata s /\ e ∉ es.
Proof.
  intros [GB GC GO GE GP] L R. destruct (rp_bufs _ _ _ _ _ _ _ R) as [Rp Re].
  assert (Hn : NoDup (mccache s)) by (rewrite (ck_order _ (bt_cache _ GB)); apply NoDup_seq).
  assert (HL : length (mccache s) = 36%nat) by (rewrite (ck_order _ (bt_cache _ GB)); apply length_seq).
  assert (Hne : e ∉ es).
  { intros Hin. destruct (rp_last _ _ _ _ _ _ _ R) as [He|He].
    - apply list_elem_of_lookup in Hin as [i Hi]. pose proof (lookup_lt_Some _ _ _ Hi). destruct (GE i e Hi) as (x & Hx & Hxi). rewrite He in Hx. injection Hx as <-.
      pose proof (rp_is _ _ _ _ _ _ _ R) as Hc. apply isCluster_true in Hxi as (_ & _ & E1), Hc as (_ & _ & E2). lia.
    - assert (Ht : e ∈ take (length es) (mccache s)) by (rewrite GO; by apply elem_of_reverse).
      apply list_elem_of_lookup in Ht as [j Hj]. pose proof (lookup_lt_Some _ _ _ Hj) as Hlt. rewrite length_take in Hlt. rewrite lookup_take_lt in Hj by lia.
      assert (j = 35)%nat by (by eapply NoDup_lookup). lia. }
  split_and!; [| | | |done|done].
  - split; [apply (has_dev_same s); [apply R|apply GB]|apply R| |rewrite (rp_bad _ _ _ _ _ _ _ R); apply GB|rewrite Rp; apply GB|rewrite Re; apply GB].
    eapply (keeps_read _ _ (cleanPolicy port slot)); [apply GB|exact I| |exact R]. destruct (b_range _ OK). lia.
  - rewrite (rp_card _ _ _ _ _ _ _ R). done.
  - rewrite (rp_order _ _ _ _ _ _ _ R), length_app, reverse_snoc, <- (take_drop (length es) (mccache s)), GO, Nat.add_1_r, filter_app, filter_absent; cbn [firstn app].
    + f_equal. by rewrite take_app_length' by (by rewrite length_reverse).
    + intros Hin. apply Hne. by apply elem_of_reverse.
  - intros i x Hi. destruct (decide (i < length es)%nat) as [Hlt|Hge].
    + rewrite lookup_app_l in Hi by done. rewrite (rp_others _ _ _ _ _ _ _ R); [by apply GE|]. intros ->. apply Hne. by eapply list_elem_of_lookup_2.
    + assert (i = length es) as -> by (apply lookup_lt_Some in Hi; rewrite length_app in Hi; simpl in Hi; lia).
      rewrite list_lookup_middle in Hi by done. injection Hi as <-. exists c. split; apply R.
Qed.

Lemma booted_touch s e c v pd : booted s -> entrycache s !! e = Some c -> length pd = 32%nat ->
  let s' := with_entries (<[e := e_rd v c]> (entrycache s)) s in booted (with_bufs (pagebuf s') (backupbuf s') pd (eccdata s') s').
Proof.
  intros [B1' B2' B3 B4 B5 B6] He L s'. destruct (touch_ok junk junk_ok s e c v B2' He) as [I' _].
  split; [by apply (has_dev_same s)| |exact (keeps_touch _ _ (cleanPolicy port slot) s e c v B3 He)|done|done|done]. by destruct I'.
Qed.

Lemma gathered_next s0 s es e c s' : gathered s0 s es -> (length es < 8)%nat -> read_post s port slot (B1 * 8 + Z.of_nat (length es)) e c s' ->
  let s1 := with_entries (<[e := e_rd 1 c]> (entrycache s')) s' in
  gathered s0 (with_bufs (pagebuf s1) (backupbuf s1)
    (<[(length es * 2 + 1)%nat := PCache e (Z.of_nat 1 * 512)]> (<[(length es * 2 + 0)%nat := PCache e (Z.of_nat 0 * 512)]> (pagedata s1))) (eccdata s1) s1) (es ++ [e]).
Proof.
  intros GA L R s1. destruct (gathered_read _ _ _ _ _ _ GA L R) as (HB & HC & HO & HE & HP & Hne). pose proof (bt_pagedata _ HB) as Lp.
  split.
  - apply booted_touch; [done|apply R|by rewrite !length_insert].
  - done.
  - done.
  - intros i x Hi. destruct (HE i x Hi) as (y & Hy & Hyi). cbn [entrycache with_bufs with_entries s1]. rewrite list_lookup_insert. case_decide as E; [|by exists y].
    destruct E as [<- _]. rewrite (rp_entry _ _ _ _ _ _ _ R) in Hy. injection Hy as <-. exists (e_rd 1 c). done.
  - intros i x q Hi Hq. cbn [pagedata with_bufs with_entries s1]. destruct (decide (i < length es)%nat) as [Hlt|Hge].
    + rewrite lookup_app_l in Hi by done. rewrite !list_lookup_insert_ne by lia. rewrite HP. by apply (ga_ptr _ _ _ GA).
    + assert (i = length es) as -> by (apply lookup_lt_Some in Hi; rewrite length_app in Hi; simpl in Hi; lia).
      rewrite list_lookup_middle in Hi by done. injection Hi as <-. assert (q = 0 \/ q = 1)%nat as [-> | ->] by lia.
      * rewrite list_lookup_insert_ne by lia. apply list_lookup_insert_eq. lia.
      * apply list_lookup_insert_eq. rewrite length_insert. lia.
Qed.

Lemma wp_gatherBackup (s : mcst) Q : booted s -> (forall es s', gathered s s' es -> length es = 8%nat -> Q tt s') -> wp (gatherBackup fuel junk port slot d) s Q.
Proof.
  intros HB HQ. destruct (b_range _ OK) as (R0 & R1 & R2). unfold gatherBackup. rewrite (b_clusters _ OK), (g_pages _ (b_geometry _ OK)), (g_pagesize _ (b_geometry _ OK)).
  apply wp_bind. eapply wp_mono.
  - eapply (wp_for _ (fun l _ s1 => exists es, l = seq (length es) (8 - length es) /\ (length es <= 8)%nat /\ gathered s s1 es)).
    + intros k l' last s1 (es & El & Hes & GA). destruct (decide (length es = 8%nat)) as [E8|E8]; [rewrite E8 in El; done|].
      replace (8 - length es)%nat with (S (8 - S (length es))) in El by lia. cbn [seq] in El. injection El as -> ->.
      rewrite s32_small by lia. pose proof (ga_boot _ _ _ GA) as HB1. apply wp_bind.
      eapply readcluster_ok; [apply HB1|apply HB1|apply OK|done|apply HB1|lia|done|done|intros v c _; apply HB1|].
      intros e c s2 R. cbv beta iota. apply wp_bind. eapply wp_mcmod; [apply R|]. apply wp_bind. cbn [seq for_ Z.to_nat Pos.to_nat Pos.iter_op Nat.add].
      apply wp_bind. eapply wp_Done; [reflexivity|]. apply wp_bind. eapply wp_Done; [reflexivity|]. apply wp_ret. apply wp_ret.
      exists (es ++ [e]). rewrite length_app, Nat.add_1_r. split_and!; [done|lia|]. apply (gathered_next s s1 es e c s2 GA); [lia|done].
    + exists []. split_and!; [done|cbn; lia|]. split; [done|done|done|intros i e; by rewrite lookup_nil|intros i e q; by rewrite lookup_nil].
  - intros last s1 (es & El & Hes & GA). apply wp_ret. apply (HQ es); [done|]. destruct (8 - length es)%nat eqn:E; [lia|done].
Qed.

Lemma wp_restorePages (s : mcst) E : resolves s (pagedata s) E -> coded E 16 (eccdata s) ->
  forall c Q, Q 0 (with_card (spends (b * 16) (paged E (eccdata s)) (seq 0 16) c) s) -> wp (restorePages port slot b d) (with_card c s) Q.
Proof.
  intros HR HC c Q HQ. destruct (b_range _ OK) as (R0 & R1 & R2). pose proof (b_geometry _ OK) as G.
  unfold restorePages, sparesizeOf. rewrite (b_pages _ OK), (g_pagesize _ G). apply wp_bind. change (Z.to_nat 16) with 16%nat. cbv zeta.
  change (Z.to_nat (Z.shiftr (512 + 0x1F) 5)) with 16%nat. change (Z.shiftr (if 512 <? 0 then 512 + 0x1f else 512) 5) with 16.
  assert (HI : forall k, k ∈ seq 0 16 -> (k < 16)%nat) by (intros k Hk; apply elem_of_seq in Hk; lia).
  revert HI c HQ. generalize (seq 0 16). induction l as [|k l IH]; intros Hi c HQ; cbn [for_break]; [by do 2 apply wp_ret|].
  destruct (HR k) as (p & Hp & Ep & Lp & Bp); [apply Hi; left|]. apply wp_bind, wp_bind. eapply wp_Done; [reflexivity|]. apply wp_bind. eapply wp_Done.
  { unfold at_. rewrite (proj2 (Z.ltb_ge _ 0)) by lia. cbn [pagedata with_card]. rewrite Nat2Z.id, Hp. reflexivity. }
  apply wp_bind. eapply wp_Done; [by eapply (ptrData_same s)|]. apply wp_bind. eapply wp_Done; [reflexivity|]. cbv zeta.
  apply wp_bind. eapply wp_on_card; [reflexivity|]. apply wp_ret. cbn [negb Z.eqb sceMcResSucceed].
  pose proof (Hi k ltac:(left)) as Hk. rewrite s32_small by lia.
  replace (Z.to_nat (16 * Z.of_nat k)) with (16 * k)%nat by lia. cbn [eccdata with_card card]. apply IH; [intros j Hj; apply Hi; by right|]. exact HQ.
Qed.

Lemma wp_freeclusters (g : nat -> Z) l : forall (s : mcst) Q, (forall x, Q tt (with_entries x s)) ->
  wp (for_ l (fun r1 (_ : unit) => mcman_freecluster port slot (g r1)) tt) s Q.
Proof.
  induction l as [|k l IH]; intros s Q HQ; cbn [for_].
  - apply wp_ret. specialize (HQ (entrycache s)). by destruct s.
  - apply wp_bind. eapply wp_Done; [reflexivity|]. apply IH. intros x. exact (HQ x).
Qed.

Lemma mark_block : Z.land mark 0x7fffffff = b /\ mark <> 0xffffffff.
Proof.
  destruct (b_range _ OK) as (R0 & _). assert (E : Z.land mark 0x7fffffff = b).
  { unfold mark. rewrite u32_small by (unfold is_u32; lia). rewrite Z.land_lor_distr_l. change (Z.land 0x80000000 0x7fffffff) with 0.
    rewrite Z.lor_0_r. change 0x7fffffff with (Z.ones 31). apply land_ones_small; lia. }
  split; [done|]. intros Hm. rewrite Hm in E. change (Z.land 0xffffffff 0x7fffffff) with 0x7fffffff in E. lia.
Qed.

Lemma markOf_mark : markOf mark = b /\ (b =? 0xffffffff) = false.
Proof.
  destruct mark_block as [E Hm], (b_range _ OK) as (R0 & _). unfold markOf. rewrite (proj2 (Z.eqb_neq _ _) Hm). split; [done|]. apply Z.eqb_neq. lia.
Qed.

(** The card is whole again: nothing under way, the block the old or the new one. *)
Definition whole (X : Z -> cell) : Prop := kept X /\ (idle old X \/ idle D X).

Definition recovered (r : Z) (s : mcst) : Prop := r = 0 /\ safe (cells (card s)) /\ (power (card s) <> 0%nat -> whole (cells (card s))).

Lemma recovered_track X s : track safe X (card s) -> whole X -> recovered 0 s.
Proof. intros [HS HX] HW. split_and!; [done|done|]. intros Hp. destruct HX as [?|HX]; [done|by rewrite HX]. Qed.

Lemma wp_eraseMarks (s : mcst) Q : has_dev s port slot d -> Q 0 (with_card (spend (wiped (B2 * 16)) (card s)) s) ->
  wp (mcman_eraseblock port slot (s32 B2) None) s Q.
Proof. destruct (b_range _ OK) as (R0 & R1 & R2). intros Hd HQ. rewrite s32_small by lia. apply wp_erase; [done|apply OK|done|done]. Qed.

Lemma wp_restore (s : mcst) : booted s -> kept (cells (card s)) -> committed (cells (card s)) ->
  wp (gatherBackup fuel junk port slot d ;;;
      pages <- gets pagedata ;;
      r <- mcman_eraseblock port slot (s32 b) (Some pages) ;;
      if negb (r =? sceMcResSucceed) then ret r
      else
        r <- restorePages port slot b d ;;
        if negb (r =? sceMcResSucceed) then ret r
        else
          for_ (seq 0 (Z.to_nat (clusters_per_block d))) (fun r1 _ => mcman_freecluster port slot (s32 (B1 * clusters_per_block d + Z.of_nat r1))) tt ;;;
          mcman_eraseblock port slot (s32 B2) None) s recovered.
Proof.
  intros HB HK HC. destruct (b_range _ OK) as (R0 & R1 & R2). apply wp_bind. apply wp_gatherBackup; [done|]. intros es s1 GA L.
  pose proof (gathered_resolves _ _ _ GA L) as HR. destruct GA as [GB GC _ _ _]. rewrite (s32_small b) by lia.
  apply wp_bind. eapply wp_Done; [reflexivity|]. apply wp_bind. eapply wp_erase_pages; [apply GB|apply OK|apply OK|lia|exact HR|apply GB|].
  intros ecc HE. change (negb (0 =? sceMcResSucceed)) with false. cbv iota. set (X := cells (card s)) in *.
  set (s2 := with_bufs (pagebuf s1) (backupbuf s1) (pagedata s1) ecc s1).
  apply wp_bind. apply (wp_restorePages s2 (pagesOf B1 X)); [by eapply (resolves_same s1)|done|]. cbn [eccdata with_bufs s2].
  change (negb (0 =? sceMcResSucceed)) with false. cbv iota. apply wp_bind. apply wp_freeclusters. intros x.
  apply wp_eraseMarks; [apply (has_dev_same s1); [done|apply GB]|]. cbn [card with_entries with_card].
  destruct (track_block X (card s1) (paged (pagesOf B1 X) ecc) (seq 0 16)) as (T1 & HI & T2).
  - done.
  - done.
  - rewrite GC. split; [by apply safe_committed|by right].
  - intros k Hk. destruct (HR k Hk) as (_ & _ & _ & Lk & Bk). split; [by apply paged_ok|]. by apply HC.
  - intros k. rewrite elem_of_seq. lia.
  - eapply recovered_track; [by apply T2|]. split; [apply HI|]. right. apply HI.
Qed.

Lemma wp_checkBackup (s : mcst) : booted s -> safe (cells (card s)) -> wp (mcman_checkBackupBlocks fuel junk port slot) s recovered.
Proof.
  intros HB HS. destruct (b_range _ OK) as (R0 & R1 & R2), markOf_mark as [EM EB]. pose proof (b_geometry _ OK) as G. pose proof HS as [HK HS'].
  unfold mcman_checkBackupBlocks. apply wp_bind. eapply wp_Done; [apply HB|]. rewrite (b_pages _ OK), (s32_small (B2 * 16)), (s32_small (B2 * 16 + 1)) by lia.
  apply wp_bind. apply wp_readMark; [done|apply HB|apply HB|]. intros pb. cbv beta iota.
  apply wp_bind. apply wp_readMark; [done|by apply (has_dev_same s), HB|apply HB|]. intros pb'. cbv beta iota zeta. cbn [card with_bufs].
  set (s1 := with_bufs pb' _ _ _ _). assert (HB1 : booted s1) by (destruct HB as [H1 [] H3 H4 H5 H6]; split; [by apply (has_dev_same s)|by split|done..]).
  destruct HS' as [HI|[HI|[HP|HC]]].
  1,2: pose proof HI as [[-> ->] _]; change (markOf 0xffffffff) with 0xffffffff; cbn; split_and!; [done|done|intros _; split; [done|]].
  - by left.
  - by right.
  - pose proof HP as [[-> ->] _]. rewrite EM. change (markOf 0xffffffff) with 0xffffffff. rewrite EB. cbn [negb andb Z.eqb Pos.eqb].
    apply wp_eraseMarks; [apply HB1|]. pose proof (changes_wiped B2 _ (proj1 HK)) as CW. destruct (b_apart _ OK) as (N1 & N2 & N3).
    assert (HW : kept (wiped (B2 * 16) (cells (card s))) /\ idle old (wiped (B2 * 16) (cells (card s)))).
    { split; [eapply kept_changes; [done|exact CW|by right; right]|]. split; [apply marks_wiped|]. eapply holds_changes; [exact CW|done|apply HP]. }
    eapply (recovered_track (wiped (B2 * 16) (cells (card s)))); [|split; [apply HW|left; apply HW]].
    apply track_spend; [split; [done|by right]|]. split; [apply HW|left; apply HW].
  - pose proof HC as [[-> ->] _]. rewrite EM, EB. cbn [negb andb]. change (0 <? 0) with false. cbn [orb]. by apply wp_restore.
Qed.

End Recovery.
End Safe.

(** ** Writing back *)

Section Flush.
Context (b : Z) (OK : blocks_ok b).
Context (junk : list Z).
Hypothesis junk_ok : length junk = 32%nat.

Notation inBlock e := (owned port slot e && (Z.quot (cluster e) 8 =? b)).

(** Which entry has which cluster of the block. *)
Definition placed (es : list McCacheEntry) (k : nat) (pmce0 pmce : list (option nat)) (t : nat) : Prop :=
  match pmce !! t with
  | Some (Some i) => pmce0 !! t = Some (Some i) \/ exists e, (k <= i)%nat /\ es !! (i - k)%nat = Some e /\ isCluster port slot (b * 8 + Z.of_nat t) e = true
  | Some None => pmce0 !! t = Some None /\ forall e, e ∈ es -> isCluster port slot (b * 8 + Z.of_nat t) e = false
  | None => False
  end.

Lemma inBlock_cluster e : 0 < b -> inBlock e = true -> exists t, (t < 8)%nat /\ Z.rem (cluster e) 8 = Z.of_nat t /\ isCluster port slot (b * 8 + Z.of_nat t) e = true.
Proof.
  intros Hb [Ho Hq%Z.eqb_eq]%andb_true_iff. pose proof (Z.quot_rem' (cluster e) 8) as E.
  assert (Hc : 0 <= cluster e). { destruct (Z.neg_nonneg_cases (cluster e)) as [Hn|]; [|done]. pose proof (Z.quot_opp_l (- cluster e) 8 ltac:(lia)) as Eo.
    rewrite Z.opp_involutive in Eo. pose proof (Z.quot_pos (- cluster e) 8 ltac:(lia) ltac:(lia)). lia. }
  pose proof (Z.rem_bound_pos (cluster e) 8 Hc ltac:(lia)). exists (Z.to_nat (Z.rem (cluster e) 8)). split_and!; [lia|lia|].
  unfold isCluster. rewrite Ho. apply Z.eqb_eq. lia.
Qed.

Lemma isCluster_inBlock e t : (t < 8)%nat -> 0 < b -> isCluster port slot (b * 8 + Z.of_nat t) e = true -> inBlock e = true /\ Z.rem (cluster e) 8 = Z.of_nat t.
Proof.
  unfold isCluster. intros Ht Hb [-> E%Z.eqb_eq]%andb_true_iff. cbn [andb]. rewrite E.
  assert (Eq : b * 8 + Z.of_nat t = 8 * b + Z.of_nat t) by lia. rewrite Z.eqb_eq. split.
  - symmetry. apply (Z.quot_unique _ _ b (Z.of_nat t)); lia.
  - symmetry. apply (Z.rem_unique _ _ b (Z.of_nat t)); lia.
Qed.

Lemma blockEntries_spec es : 0 < b -> forall k pmce flag (s : mcst), length pmce = 16%nat ->
  exists pmce', blockEntries k es port slot b 8 pmce flag s = Done (pmce', flag || existsb (fun e => inBlock e && (rd_flag e =? 0)) es) s /\
    length pmce' = 16%nat /\ forall t, (t < 8)%nat -> placed es k pmce pmce' t.
Proof.
  intros Hb. induction es as [|e es IH]; intros k pmce flag s L; cbn [blockEntries existsb].
  - exists pmce. rewrite orb_false_r. split_and!; [done|done|]. intros t Ht. unfold placed. destruct (lookup_lt_is_Some_2 pmce t) as [[i|] ->]; [lia|by left|].
    split; [done|]. by intros e He%elem_of_nil.
  - destruct (inBlock e) eqn:Ei; cbn [andb orb].
    + destruct (inBlock_cluster e Hb Ei) as (t0 & Ht0 & Er & Hc). rewrite Er, (proj2 (Z.ltb_ge _ 0)), (proj2 (Z.leb_gt 16 _)), Nat2Z.id by lia. cbn [orb].
      destruct (IH (S k) (<[t0 := Some k]> pmce) (flag || (rd_flag e =? 0)) s) as (pmce' & E & L' & HP); [by rewrite length_insert|].
      exists pmce'. rewrite E, orb_assoc. split_and!; [done|done|]. intros t Ht. specialize (HP t Ht). unfold placed in *. destruct (pmce' !! t) as [[i|]|]; [| |done].
      * destruct HP as [HP|(x & Hi & Hx & Hxc)]; [|right; exists x; split_and!; [lia| |done]; by replace (i - k)%nat with (S (i - S k)) by lia].
        rewrite list_lookup_insert in HP. case_decide as Hd; [|by left]. destruct Hd as [<- _]. injection HP as <-. right. exists e. rewrite Nat.sub_diag. done.
      * destruct HP as [HP HN]. rewrite list_lookup_insert in HP. case_decide as Hd; [done|]. split; [done|]. intros x [-> |Hx]%elem_of_cons; [|by apply HN].
        apply not_true_is_false. intros Hx. destruct (isCluster_inBlock e t Ht Hb Hx) as [_ Er']. apply Hd. split; lia.
    + destruct (IH (S k) pmce flag s L) as (pmce' & E & L' & HP). exists pmce'. split_and!; [done|done|]. intros t Ht. specialize (HP t Ht). unfold placed in *.
      destruct (pmce' !! t) as [[i|]|]; [| |done].
      * destruct HP as [HP|(x & Hi & Hx & Hxc)]; [by left|]. right. exists x. split_and!; [lia| |done]. by replace (i - k)%nat with (S (i - S k)) by lia.
      * destruct HP as [HP HN]. split; [done|]. intros x [-> |Hx]%elem_of_cons; [|by apply HN]. apply not_true_is_false. intros Hx.
        destruct (isCluster_inBlock e t Ht Hb Hx) as [Ei' _]. congruence.
Qed.

(** The pages of the block as the cache has them. *)
Definition newPage (s : mcst) (k : nat) : list Z := take 512 (drop (512 * (k mod 2)) (view s port slot (b * 8 + Z.of_nat (k / 2)))).

(** Page [k] is gathered in [bb], or points to an entry. *)
Definition gotPage (s : mcst) (bb : list Z) (k : nat) (p : pageptr) : Prop :=
  match p with
  | PCache i off => exists e, entrycache s !! i = Some e /\ take 512 (drop (Z.to_nat off) (cl_data e)) = newPage s k
  | PBackup off => off = Z.of_nat (512 * k) /\ take 512 (drop (512 * k) bb) = newPage s k
  end.

(** The manager in order, with a cache to be written. *)
Record ready (s : mcst) : Prop := {
  fl_dev : has_dev s port slot d;
  fl_type : cardtype d = sceMcTypePS2;
  fl_cache : cache_ok s;
  fl_bytes : forall i e, entrycache s !! i = Some e -> bytes_ok (cl_data e);
  fl_bad : badblock s <= 0;
  fl_bufs : length (pagedata s) = 32%nat /\ length (eccdata s) = 512%nat /\ length (backupbuf s) = (32 * 512)%nat;
  fl_pagebuf : (512 <= length (pagebuf s))%nat /\ bytes_ok (pagebuf s)
}.

(** A cluster of the block was not written since it was read: the block is
    copied first. *)
Record flushable (s : mcst) : Prop := {
  fl_ready : ready s;
  fl_flag : exists i e, entrycache s !! i = Some e /\ inBlock e = true /\ rd_flag e = 0
}.

Lemma view_bytes s j : ready s -> length (view s port slot j) = 1024%nat /\ bytes_ok (view s port slot j).
Proof.
  intros F. pose proof (fl_cache _ F) as I. unfold view. destruct (findEntry _ 0 _ ≫= _) as [e|] eqn:E.
  - destruct (findEntry _ 0 _) as [i|]; [|done]. cbn in E. split; [by apply (ck_data _ I i)|by apply (fl_bytes _ F i)].
  - unfold cluster_data. destruct (page_bytes (card s) port slot (2 * j) (ck_card _ I)), (page_bytes (card s) port slot (2 * j + 1) (ck_card _ I)).
    split; [rewrite length_app; lia|by apply Forall_app].
Qed.

Lemma newPage_ok s k : ready s -> length (newPage s k) = 512%nat /\ bytes_ok (newPage s k).
Proof.
  intros F. pose proof (Nat.mod_upper_bound k 2 ltac:(lia)) as Hq. unfold newPage. destruct (view_bytes s (b * 8 + Z.of_nat (k / 2)) F) as [L B]. split; [rewrite length_take, length_drop; lia|]. by apply Forall_take, Forall_drop.
Qed.

Lemma newPage_card s k : ready s -> (forall i e, entrycache s !! i = Some e -> isCluster port slot (b * 8 + Z.of_nat (k / 2)) e = false) ->
  page (card s) port slot ((b * 8 + Z.of_nat k / 2) * 2 + Z.of_nat k mod 2) = newPage s k.
Proof.
  intros F Hn. unfold newPage. rewrite (proj2 (view_miss s _ _ _ Hn)). unfold cluster_data.
  pose proof (Nat.mod_upper_bound k 2 ltac:(lia)) as Hq. change 2 with (Z.of_nat 2). rewrite <- Nat2Z.inj_div, <- Nat2Z.inj_mod. change (Z.of_nat 2) with 2.
  set (i := (k / 2)%nat). set (q := (k mod 2)%nat) in *. pose proof (ck_card _ (fl_cache _ F)) as K.
  destruct (page_bytes (card s) port slot (2 * (b * 8 + Z.of_nat i)) K) as [L0 _], (page_bytes (card s) port slot (2 * (b * 8 + Z.of_nat i) + 1) K) as [L1 _].
  assert (q = 0 \/ q = 1)%nat as [-> | ->] by lia.
  - rewrite drop_0, take_app_length' by done. f_equal. lia.
  - change (512 * 1)%nat with 512%nat. rewrite drop_app_length' by done. rewrite take_ge by lia. f_equal. lia.
Qed.

Lemma wp_gatherPages (s : mcst) pmce Q : ready s -> length pmce = 16%nat -> (forall t, (t < 8)%nat -> placed (entrycache s) 0 (replicate 16 None) pmce t) ->
  (forall bb pd, let s' := with_bufs (pagebuf s) bb pd (eccdata s) s in resolves s' pd (newPage s) -> Q true s') ->
  wp (gatherPages junk port slot b d pmce) s Q.
Proof.
  intros F Lp HP HQ. destruct (fl_bufs _ F) as (Ld & Le & Lb), (b_range _ OK) as (R0 & _). pose proof (b_geometry _ OK) as G.
  unfold gatherPages. rewrite (b_clusters _ OK), (g_pages _ G), (g_pagesize _ G). change (Z.to_nat (8 * 2)) with 16%nat. apply wp_bind.
  match goal with |- wp (for_break _ ?body _) _ ?P => enough (H : forall m n bb pd, (n + m = 16)%nat -> length bb = (32 * 512)%nat -> length pd = 32%nat ->
     (forall k, (k < n)%nat -> exists p, pd !! k = Some p /\ gotPage s bb k p) -> wp (for_break (seq n m) body tt) (with_bufs (pagebuf s) bb pd (eccdata s) s) P) end.
  { specialize (H 16%nat 0%nat (backupbuf s) (pagedata s) eq_refl Lb Ld). destruct s. apply H. intros k Hk. lia. }
  induction m as [|m IH]; intros n bb pd En Lbb Lpd HG; cbn [seq for_break].
  - do 2 apply wp_ret. apply HQ. intros k Hk. destruct (HG k) as (p & Hp & HG'); [lia|]. exists p. split_and!; [done| |by apply newPage_ok..].
    destruct p as [i off|off]; cbn [gotPage ptrData] in *; unfold bind, mce, gets, ret; cbn [entrycache backupbuf with_bufs].
    + destruct HG' as (e & -> & E). change (Z.to_nat 512) with 512%nat. by rewrite E.
    + destruct HG' as [-> E]. rewrite Nat2Z.id. change (Z.to_nat 512) with 512%nat. by rewrite E.
  - assert (Hi : (n / 2 < 8)%nat) by (apply Nat.Div0.div_lt_upper_bound; lia). specialize (HP _ Hi).
    assert (Ei : Z.to_nat (Z.of_nat n / 2) = (n / 2)%nat) by (change 2 with (Z.of_nat 2); rewrite <- Nat2Z.inj_div; apply Nat2Z.id).
    assert (Ej : Z.to_nat (Z.of_nat n mod 2 * 512) = (512 * (n mod 2))%nat) by (change 2 with (Z.of_nat 2); rewrite <- Nat2Z.inj_mod; lia).
    unfold placed in HP. rewrite Ei. destruct (pmce !! (n / 2)%nat) as [[i|]|]; [| |done].
    + destruct HP as [HP|(e & _ & He & Hc)]; [rewrite lookup_replicate in HP; by destruct HP|]. rewrite Nat.sub_0_r in He.
      apply wp_bind, wp_bind. eapply wp_Done; [reflexivity|]. apply wp_ret. apply IH; [lia|done|by rewrite length_insert|].
      intros k Hk. destruct (decide (k = n)) as [->|Hne].
      * eexists. split; [apply list_lookup_insert_eq; cbn; lia|]. exists e. split; [done|]. rewrite Ej. unfold newPage.
        by rewrite (proj2 (view_hit s port slot (b * 8 + Z.of_nat (n / 2)) i e (fl_cache _ F) ltac:(lia) He Hc)).
      * destruct (HG k) as (p & Hp & HG'); [lia|]. exists p. split; [|done]. cbn. by rewrite list_lookup_insert_ne.
    + destruct HP as [_ HN]. assert (EP := newPage_card s n F (fun i e Hi => HN e (list_elem_of_lookup_2 _ i _ Hi))).
      apply wp_bind, wp_bind. eapply wp_Done; [reflexivity|]. apply wp_bind. eapply wp_Done; [reflexivity|].
      apply wp_bind. eapply readPage_at; [apply (fl_cache _ F)|by apply (has_dev_same s), F|done|done|]. cbv beta iota. cbn [card with_bufs backupbuf].
      rewrite EP. replace (Z.of_nat n * 512) with (Z.of_nat (512 * n)) by lia. rewrite Nat2Z.id.
      rewrite (drop_ge (take _ _)) by (rewrite length_take; lia). rewrite app_nil_r.
      apply wp_bind. eapply wp_Done; [reflexivity|]. change (negb (0 =? sceMcResSucceed)) with false. cbv iota. apply wp_ret.
      destruct (newPage_ok s n F) as [Ln _]. cbn [backupbuf with_bufs].
      apply IH; [lia|rewrite length_put_at by lia; done|cbn; by rewrite length_insert|]. intros k Hk. destruct (decide (k = n)) as [->|Hne].
      * eexists. split; [apply list_lookup_insert_eq; cbn; lia|]. split; [done|]. rewrite <- Ln at 1. apply put_bytes_in. lia.
      * destruct (HG k) as (p & Hp & HG'); [lia|]. exists p. split; [cbn; by rewrite list_lookup_insert_ne|]. destruct p as [i off|off]; [done|].
        destruct HG' as [-> E]. split; [done|]. rewrite <- E. apply slice_ext. intros j Hj. apply put_bytes_out; lia.
Qed.

Lemma mark_word pb : (512 <= length pb)%nat -> bytes_ok pb ->
  let pg := take 512 (put_bytes 0 (bytes_of_word (mark b)) pb) in length pg = 512%nat /\ bytes_ok pg /\ le32 pg 0 = mark b.
Proof.
  intros L B pg. assert (E : pg = bytes_of_word (mark b) ++ take 508 (drop 4 pb)).
  { transitivity (take (4 + 508) (bytes_of_word (mark b) ++ drop 4 pb)); [done|]. by rewrite take_app_add'. }
  rewrite E. split_and!.
  - rewrite length_app, length_take, length_drop. change (length (bytes_of_word (mark b))) with 4%nat. lia.
  - apply Forall_app. split; [|by apply Forall_take, Forall_drop]. unfold bytes_of_word. repeat constructor; apply Z.mod_pos_bound; lia.
  - unfold le32, bytes_of_word. cbn [app nth Nat.add]. rewrite word_bytes. unfold u32, mark.
    rewrite <- (Z.land_ones _ 32) by lia. rewrite Z.land_lor_distr_l. unfold u32. rewrite <- (Z.land_ones b 32) by lia.
    rewrite <- Z.land_assoc, Z.land_diag. done.
Qed.

Lemma wp_flushBackup (s : mcst) D Q : has_dev s port slot d -> resolves s (pagedata s) D -> length (eccdata s) = 512%nat ->
  (512 <= length (pagebuf s))%nat -> bytes_ok (pagebuf s) ->
  (forall pb ecc mk, coded D 16 ecc -> cell_ok mk -> firstWord mk = mark b ->
     Q FOn (with_card (spend (wrote (backup_block2 d * 16 + 1) mk) (spends (backup_block1 d * 16) (paged D ecc) (seq 0 16)
       (spend (wrote (backup_block2 d * 16) mk) (spend (wiped (backup_block1 d * 16)) (card s))))) (with_bufs pb (backupbuf s) (pagedata s) ecc s))) ->
  wp (flushBackup port slot b d) s Q.
Proof.
  intros Hd HR HL Lp Bp HQ. destruct (b_range _ OK) as (R0 & R1 & R2). pose proof (b_geometry _ OK) as G.
  unfold flushBackup. apply wp_bind. eapply wp_Done; [reflexivity|]. apply wp_bind. eapply wp_erase_pages; [done|done|apply OK|lia|done|done|].
  intros ecc HE. change (0 =? sceMcResFailReplace) with false. change (negb (0 =? sceMcResSucceed)) with false. cbv iota.
  apply wp_bind. eapply wp_Done; [reflexivity|]. apply wp_bind. eapply wp_Done; [reflexivity|]. unfold sparesizeOf. rewrite (g_pagesize _ G), (b_pages _ OK).
  change (Z.to_nat (Z.shiftr (512 + 0x1F) 5)) with 16%nat. change (Z.to_nat (Z.shiftr 512 7)) with 4%nat. change (Z.to_nat 512) with 512%nat. change (Z.to_nat 16) with 16%nat.
  cbn [pagebuf with_bufs with_card backupbuf pagedata eccdata]. fold (mark b). destruct (mark_word (pagebuf s) Lp Bp) as (Lm & Bm & Em).
  set (pb := put_bytes 0 (bytes_of_word (mark b)) (pagebuf s)) in *. set (pg := take 512 pb) in *. cbv zeta. set (sp := take 16 _).
  assert (Hmk : cell_ok (pg, sp)).
  { pose proof (length_eccOf 4 pg) as Le. split_and!; [done|done|cbn [snd]; unfold sp; rewrite length_take, length_app, length_replicate; lia|]. right.
    cbn [fst snd]. unfold sp. rewrite take_take. by apply take_app_length'. }
  apply wp_bind. eapply wp_on_card; [reflexivity|]. change (0 =? sceMcResFailReplace) with false. change (negb (0 =? sceMcResSucceed)) with false. cbv iota.
  set (s2 := with_bufs pb (backupbuf s) (pagedata s) ecc s).
  apply wp_bind. eapply (wp_writePages s2 (backup_block1 d * 16) (pagedata s) D); [done|by eapply (resolves_same s)|done|intros k; rewrite elem_of_seq; lia|].
  change (0 =? sceMcResFailReplace) with false. change (negb (0 =? sceMcResSucceed)) with false. cbv iota.
  apply wp_bind. eapply wp_on_card; [reflexivity|]. change (0 =? sceMcResFailReplace) with false. change (negb (0 =? sceMcResSucceed)) with false. cbv iota.
  apply wp_ret. exact (HQ pb ecc (pg, sp) HE Hmk Em).
Qed.

(** The entries of [l] marked as written back. *)
Definition cleared (l : list (option nat)) (es es' : list McCacheEntry) : Prop :=
  forall i, es' !! i = (fun e => if bool_decide (Some i ∈ l) then e_wr 0 e else e) <$> es !! i.

Lemma wp_clearWritten n pmce (s : mcst) Q : (forall i, Some i ∈ take n pmce -> (i < length (entrycache s))%nat) ->
  (forall es, cleared (take n pmce) (entrycache s) es -> Q tt (with_entries es s)) -> wp (clearWritten pmce n) s Q.
Proof.
  unfold clearWritten. generalize (take n pmce). intros l. revert s. induction l as [|o l IH]; intros s Hl HQ; cbn [for_].
  - apply wp_ret. specialize (HQ (entrycache s)). destruct s. apply HQ. intros i. rewrite bool_decide_eq_false_2 by apply not_elem_of_nil.
    by destruct (_ !! i).
  - apply wp_bind. destruct o as [i|].
    + destruct (lookup_lt_is_Some_2 (entrycache s) i) as [e He]; [apply Hl; left|]. eapply wp_mcmod; [exact He|]. apply IH.
      { intros j Hj. cbn. rewrite length_insert. apply Hl. by right. }
      intros es HC. apply (HQ es). intros j. rewrite HC. cbn [entrycache with_entries]. rewrite list_lookup_insert. case_decide as Ej.
      * destruct Ej as [<- _]. rewrite He, (bool_decide_eq_true_2 (Some i ∈ Some i :: l)) by left. cbn. by case_bool_decide.
      * rewrite (bool_decide_ext (Some j ∈ Some i :: l) (Some j ∈ l)); [done|]. rewrite elem_of_cons. split; [|by right]. intros [[= ->]|]; [|done].
        destruct Ej. split; [done|by eapply lookup_lt_Some].
    + apply wp_ret. apply IH; [intros j Hj; apply Hl; by right|]. intros es HC. apply (HQ es). intros j. rewrite HC.
      rewrite (bool_decide_ext (Some j ∈ None :: l) (Some j ∈ l)); [done|]. rewrite elem_of_cons. split; [|by right]. by intros [|].
Qed.

Lemma spends_app base x l1 l2 c : spends base x (l1 ++ l2) c = spends base x l2 (spends base x l1 c).
Proof. apply foldl_app. Qed.

Lemma wp_flushBlock (s : mcst) pmce D Q : has_dev s port slot d -> resolves s (pagedata s) D -> length (eccdata s) = 512%nat ->
  (forall i, Some i ∈ take 8 pmce -> (i < length (entrycache s))%nat) ->
  (forall es ecc idx, cleared (take 8 pmce) (entrycache s) es -> coded D 16 ecc -> (forall k, k ∈ idx <-> (k < 16)%nat) ->
     Q FOn (with_card (spends (b * 16) (paged D ecc) idx (spend (wiped (b * 16)) (card s)))
       (with_entries es (with_bufs (pagebuf s) (backupbuf s) (pagedata s) ecc s)))) ->
  wp (flushBlock port slot b d pmce) s Q.
Proof.
  intros Hd HR HL Hp HQ. destruct (b_range _ OK) as (R0 & R1 & R2). pose proof (b_geometry _ OK) as G.
  unfold flushBlock. apply wp_bind. eapply wp_Done; [reflexivity|]. apply wp_bind. eapply wp_erase_pages; [done|done|apply OK|lia|done|done|].
  intros ecc HE. rewrite (b_pages _ OK), (b_clusters _ OK). change (Z.to_nat 16) with 16%nat. change (Z.to_nat 8) with 8%nat. cbv zeta.
  set (l1 := List.filter _ _). set (l2 := List.filter _ _).
  assert (HI : forall k, k ∈ l1 ++ l2 <-> (k < 16)%nat).
  { intros k. rewrite elem_of_app, !list_elem_of_In. unfold l1, l2. rewrite !filter_In, in_seq. destruct (cachedPage d pmce k); cbn; intuition lia. }
  change (0 =? sceMcResFailReplace) with false. change (negb (0 =? sceMcResSucceed)) with false. cbv iota. set (s2 := with_bufs (pagebuf s) (backupbuf s) (pagedata s) ecc s).
  assert (HR2 : resolves s2 (pagedata s) D) by (by eapply (resolves_same s)).
  apply wp_bind. eapply (wp_writePages s2 (b * 16) (pagedata s) D); [done..|intros k Hk; apply HI, elem_of_app; by left|].
  change (0 =? sceMcResFailReplace) with false. change (negb (0 =? sceMcResSucceed)) with false. cbv iota.
  apply wp_bind. eapply (wp_writePages s2 (b * 16) (pagedata s) D); [done..|intros k Hk; apply HI, elem_of_app; by right|].
  change (0 =? sceMcResFailReplace) with false. change (negb (0 =? sceMcResSucceed)) with false. cbv iota.
  apply wp_bind. apply wp_clearWritten; [done|]. intros es HC. apply wp_ret. specialize (HQ es ecc (l1 ++ l2) HC HE HI). by rewrite spends_app in HQ.
Qed.

Lemma quot_block c : inBlock c = true -> s32 (u32 (cluster c) / 8) = b /\ mc_port c = port /\ mc_slot c = slot.
Proof.
  intros Hc. destruct (b_range _ OK) as (R0 & _). destruct (inBlock_cluster c ltac:(lia) Hc) as (t & Ht & _ & (E1 & E2 & E3)%isCluster_true).
  split_and!; [|done|done]. rewrite E3, u32_small by (unfold is_u32; lia).
  rewrite <- (Z.div_unique (b * 8 + Z.of_nat t) 8 b (Z.of_nat t)) by lia. apply s32_small. lia.
Qed.

(** The entries of the block are marked as written back, the rest of the
    manager is as before but for its buffers. *)
Definition written (e : McCacheEntry) : McCacheEntry := if inBlock e then e_wr 0 e else e.

Record wrote_back (s s' : mcst) : Prop := {
  wk_entries : entrycache s' = written <$> entrycache s;
  wk_order : mccache s' = mccache s;
  wk_dev : devinfos s' = devinfos s;
  wk_bad : badblock s' = badblock s
}.

Lemma placed_block (s : mcst) pmce : cache_ok s -> (forall t, (t < 8)%nat -> placed (entrycache s) 0 (replicate 16 None) pmce t) ->
  length pmce = 16%nat -> forall i e, entrycache s !! i = Some e -> Some i ∈ take 8 pmce <-> inBlock e = true.
Proof.
  intros I HP Lm i e He. destruct (b_range _ OK) as (R0 & _). split.
  - intros Hj. apply list_elem_of_lookup in Hj as [t Ht]. pose proof (lookup_lt_Some _ _ _ Ht) as Hlt. rewrite length_take in Hlt.
    rewrite lookup_take_lt in Ht by lia. specialize (HP t ltac:(lia)). unfold placed in HP. rewrite Ht in HP.
    destruct HP as [HP|(x & _ & Hx & Hc)]; [rewrite lookup_replicate in HP; by destruct HP|]. rewrite Nat.sub_0_r, He in Hx. injection Hx as <-.
    by apply (isCluster_inBlock e t); [lia|lia|].
  - intros Hb. destruct (inBlock_cluster e ltac:(lia) Hb) as (t & Ht & _ & Hc). specialize (HP t Ht). unfold placed in HP.
    destruct (pmce !! t) as [[j|]|] eqn:Ep; [| |done].
    + destruct HP as [HP|(x & _ & Hx & Hc')]; [rewrite lookup_replicate in HP; by destruct HP|]. rewrite Nat.sub_0_r in Hx.
      pose proof Hc as (E1 & E2 & E3)%isCluster_true. pose proof Hc' as (F1 & F2 & F3)%isCluster_true.
      assert (i = j) as -> by (eapply (ck_unique _ I i j e x); try done; [lia|]; split_and!; congruence).
      apply (list_elem_of_lookup_2 _ t). by rewrite lookup_take_lt by lia.
    + destruct HP as [_ HP]. rewrite (HP e) in Hc; [done|]. by eapply list_elem_of_lookup_2.
Qed.

Lemma cleared_written (s : mcst) pmce es : cache_ok s -> (forall t, (t < 8)%nat -> placed (entrycache s) 0 (replicate 16 None) pmce t) ->
  length pmce = 16%nat -> cleared (take 8 pmce) (entrycache s) es -> es = written <$> entrycache s.
Proof.
  intros I HP Lm HC. apply list_eq. intros i. rewrite HC, list_lookup_fmap. destruct (entrycache s !! i) as [e|] eqn:He; [|done]. cbn. f_equal.
  unfold written. pose proof (placed_block s pmce I HP Lm i e He) as HB. destruct (inBlock e); case_bool_decide as Hi; try done.
  - destruct Hi. by apply HB.
  - apply HB in Hi. done.
Qed.

(** A cluster of the block written back: the entries of the block are marked,
    and if there was power the block is what the cache had.  When one of them was
    not written since it was read, the card is safe at every moment. *)
Lemma wp_writeBack_any (s : mcst) fuel i c : ready s -> marks 0xffffffff 0xffffffff (cells (card s)) ->
  entrycache s !! i = Some c -> inBlock c = true -> wr_flag c <> 0 ->
  wp (mcman_flushcacheentry (S fuel) junk i) s (fun r s' => r = 0 /\ wrote_back s s' /\ exists Y, track (kept b (cells (card s))) Y (card s') /\
    kept b (cells (card s)) Y /\ holds (newPage s) b Y /\
    (flushable s -> track (safe b (cells (card s)) (newPage s)) Y (card s') /\ idle b (newPage s) Y)).
Proof.
  intros F HM Hc Hb Hw. destruct (b_range _ OK) as (R0 & R1 & R2), (quot_block c Hb) as (Eq & Ep & Es), (fl_bufs _ F) as (Ld & Le & Lb), (fl_pagebuf _ F) as (Lp & Bp).
  pose proof (b_geometry _ OK) as G. pose proof (fl_cache _ F) as I.
  unfold mcman_flushcacheentry. apply wp_bind. eapply wp_mce; [exact Hc|]. rewrite (proj2 (Z.eqb_neq _ _) Hw), Ep, Es.
  apply wp_bind. eapply wp_Done; [apply F|]. rewrite (fl_type _ F). change (sceMcTypePS2 =? 0) with false. change ((sceMcTypePS2 =? sceMcTypePS1) || (sceMcTypePS2 =? sceMcTypePDA)) with false. cbv iota.
  unfold flushPS2. apply wp_bind. eapply wp_mce; [exact Hc|]. rewrite Ep, Es, (b_clusters _ OK), (g_pages _ G). change (8 =? 0) with false. change (2 =? 0) with false. cbv iota zeta. rewrite Eq.
  apply wp_bind. eapply wp_Done; [reflexivity|].
  destruct (blockEntries_spec (entrycache s) ltac:(lia) 0 (replicate 16 None) false s eq_refl) as (pmce & E & Lm & HP). cbn [orb] in E.
  set (flag := existsb _ _) in E. apply wp_bind. eapply wp_Done; [exact E|]. cbv beta iota. apply wp_bind. apply wp_gatherPages; [done..|]. intros bb pd s1 HR. cbn [negb].
  assert (Hpm : forall j, Some j ∈ take 8 pmce -> (j < length (entrycache s))%nat).
  { intros j Hj. apply list_elem_of_lookup in Hj as [t Ht]. pose proof (lookup_lt_Some _ _ _ Ht) as Hlt. rewrite length_take in Hlt.
    rewrite lookup_take_lt in Ht by lia. specialize (HP t ltac:(lia)). unfold placed in HP. rewrite Ht in HP.
    destruct HP as [HP|(e & _ & He & _)]; [rewrite lookup_replicate in HP; by destruct HP|]. rewrite Nat.sub_0_r in He. by eapply lookup_lt_Some. }
  assert (HX : forall x, coded (newPage s) 16 x -> forall k, (k < 16)%nat -> cell_ok (paged (newPage s) x k) /\ (paged (newPage s) x k).1 = newPage s k).
  { intros x Hx k Hk. split; [|done]. destruct (newPage_ok s k F). by apply paged_ok. }
  apply wp_while_S. apply wp_bind. eapply wp_Done; [by apply (has_dev_same s), F|]. apply wp_bind. eapply wp_Done; [reflexivity|].
  change (badblock s1) with (badblock s). rewrite (proj2 (Z.leb_le _ _) (fl_bad _ F)), andb_true_r. apply wp_bind. destruct flag eqn:Ef; cbn [andb].
  - apply (wp_flushBackup s1 (newPage s)); [by apply (has_dev_same s), F|done|done|done|done|]. intros pb ecc mk HE Hmk Ew. change (card s1) with (card s).
    set (c2 := spend _ _). set (s2 := with_card c2 _).
    apply wp_bind. apply (wp_flushBlock s2 pmce (newPage s)); [by apply (has_dev_same s), F|by eapply (resolves_same s1)|apply HE|done|].
    intros es ecc' idx HC HE' HI. change (card s2) with c2. apply wp_bind. apply wp_bind. eapply wp_Done; [reflexivity|].
    match goal with |- context [badblock ?x] => change (badblock x) with (badblock s) end. rewrite (proj2 (Z.leb_le _ _) (fl_bad _ F)).
    apply wp_bind. apply wp_erase; [by apply (has_dev_same s), F|apply OK|lia|]. apply wp_ret. cbn [Z.eqb negb sceMcResSucceed sceMcResFailReplace]. apply wp_ret.
    split; [done|]. split; [by split; [apply (cleared_written s pmce)|..]|].
    destruct (track_backup b OK (cells (card s)) (newPage s) (paged (newPage s) ecc) mk (card s)) as (K1 & C1 & T1); [done|apply (ck_card _ I)|done|done|done|by apply HX|].
    destruct (track_block b OK (cells (card s)) (newPage s) _ c2 (paged (newPage s) ecc') idx K1 C1 T1 (HX _ HE') HI) as (T2 & [K2 I2] & T3).
    specialize (T3 _ T2). eexists. split_and!; [split; [apply T3|exact (proj2 T3)]|exact K2|apply I2|]. intros _. by split.
  - apply wp_ret. apply wp_bind. apply (wp_flushBlock s1 pmce (newPage s)); [by apply (has_dev_same s), F|done|done|done|].
    intros es ecc' idx HC HE' HI. change (card s1) with (card s). apply wp_bind. apply wp_bind. eapply wp_Done; [reflexivity|].
    apply wp_ret. apply wp_ret. split; [done|]. split; [by split; [apply (cleared_written s pmce)|..]|].
    destruct (track_plain b (cells (card s)) (newPage s) (paged (newPage s) ecc') idx (card s) eq_refl (ck_card _ I) (HX _ HE') HI) as (T1 & K1 & H1).
    eexists. split_and!; [exact T1|exact K1|exact H1|]. intros [_ (j & x & Hj & Hx & Hr)]. exfalso. apply not_true_iff_false in Ef. apply Ef.
    apply existsb_exists. exists x. split; [by eapply list_elem_of_In, list_elem_of_lookup_2|]. by rewrite Hx, Hr.
Qed.

(** A cluster of the block written back: at every moment the card is safe,
    and at the end, if there was power, the block is the new one. *)
Lemma wp_writeBack (s : mcst) fuel i c : flushable s -> marks 0xffffffff 0xffffffff (cells (card s)) ->
  entrycache s !! i = Some c -> inBlock c = true -> wr_flag c <> 0 ->
  wp (mcman_flushcacheentry (S fuel) junk i) s (fun r s' => r = 0 /\ exists Y, track (safe b (cells (card s)) (newPage s)) Y (card s') /\
    kept b (cells (card s)) Y /\ idle b (newPage s) Y).
Proof.
  intros F HM Hc Hb Hw. eapply wp_mono; [by apply (wp_writeBack_any s fuel i c (fl_ready _ F))|].
  intros r s' (-> & _ & Y & _ & HK & _ & HF). split; [done|]. exists Y. by destruct (HF F).
Qed.

(** ** What is on the card afterwards *)

(** The clusters that are not in the backup blocks. *)
Definition shows (X : Z -> cell) (V : Z -> list Z) : Prop := forall k, k / 8 <> backup_block1 d -> k / 8 <> backup_block2 d ->
  (X (2 * k)).1 ++ (X (2 * k + 1)).1 = V k.

(** Before the cluster was written back, and after. *)
Definition oldCard (s : mcst) (k : Z) : list Z := cluster_data (card s) port slot k.
Definition newCard (s : mcst) (k : Z) : list Z := if k / 8 =? b then view s port slot k else oldCard s k.

Lemma block_of_page B n : in_block B n <-> n / 16 = B.
Proof.
  unfold in_block. split.
  - intros H. symmetry. apply (Z.div_unique n 16 B (n - B * 16)); lia.
  - intros <-. pose proof (Z.div_mod n 16 ltac:(lia)). pose proof (Z.mod_pos_bound n 16 ltac:(lia)). lia.
Qed.

Lemma page_cluster k q : 0 <= q < 2 -> (2 * k + q) / 16 = k / 8.
Proof. intros Hq. symmetry. apply (Z.div_unique _ 16 _ (2 * (k mod 8) + q)); pose proof (Z.div_mod k 8 ltac:(lia)); pose proof (Z.mod_pos_bound k 8 ltac:(lia)); lia. Qed.

(** Contents [V] of the block, and what was on the card elsewhere. *)
Lemma shows_block X0 X V E : kept b X0 X -> holds E b X -> (forall k, k / 8 <> b -> (X0 (2 * k)).1 ++ (X0 (2 * k + 1)).1 = V k) ->
  (forall t, (t < 8)%nat -> E (2 * t)%nat ++ E (2 * t + 1)%nat = V (b * 8 + Z.of_nat t)) -> shows X V.
Proof.
  intros [_ HK] HH HV HE k N1 N2. destruct (decide (k / 8 = b)) as [Eb|N0].
  - pose proof (Z.div_mod k 8 ltac:(lia)) as Em. pose proof (Z.mod_pos_bound k 8 ltac:(lia)) as Hm. set (t := Z.to_nat (k mod 8)).
    assert (Ek : k = b * 8 + Z.of_nat t) by lia. rewrite Ek, <- HE by lia. f_equal.
    + replace (2 * (b * 8 + Z.of_nat t)) with (b * 16 + Z.of_nat (2 * t)) by lia. apply HH. lia.
    + replace (2 * (b * 8 + Z.of_nat t) + 1) with (b * 16 + Z.of_nat (2 * t + 1)) by lia. apply HH. lia.
  - assert (HX : forall q, 0 <= q < 2 -> X (2 * k + q) = X0 (2 * k + q)) by (intros q Hq; apply HK; rewrite block_of_page, page_cluster by done; congruence).
    rewrite <- HV by done. pose proof (HX 0 ltac:(lia)) as E0. rewrite Z.add_0_r in E0. by rewrite E0, HX by lia.
Qed.

Lemma shows_old X0 X : kept b X0 X -> idle b (old b X0) X -> shows X (fun k => (X0 (2 * k)).1 ++ (X0 (2 * k + 1)).1).
Proof. intros HK [_ HH]. eapply shows_block; [exact HK|exact HH|done|]. intros t Ht. unfold old. do 3 f_equal; lia. Qed.

Lemma shows_trans X0 X V : kept b X0 X -> idle b (old b X0) X -> shows X0 V -> shows X V.
Proof. intros HK HI HV k N1 N2. rewrite <- HV by done. by apply (shows_old X0 X HK HI). Qed.

Lemma shows_new s X : ready s -> kept b (cells (card s)) X -> holds (newPage s) b X -> shows X (newCard s).
Proof.
  intros F HK HH. eapply shows_block; [exact HK|exact HH| |].
  - intros k Hk. unfold newCard. by rewrite (proj2 (Z.eqb_neq _ _)).
  - intros t Ht. unfold newCard. rewrite (proj2 (Z.eqb_eq ((b * 8 + Z.of_nat t) / 8) b)) by (symmetry; apply (Z.div_unique _ 8 b (Z.of_nat t)); lia).
    unfold newPage.
    assert (E0 : ((2 * t) / 2 = t /\ (2 * t + 1) / 2 = t /\ (2 * t) mod 2 = 0 /\ (2 * t + 1) mod 2 = 1)%nat).
    { rewrite (Nat.mul_comm 2 t), Nat.Div0.mod_mul, Nat.div_mul, (Nat.add_comm (t * 2)), Nat.Div0.mod_add, Nat.div_add by lia. by rewrite Nat.add_0_l. }
    destruct E0 as (-> & -> & -> & ->). change (512 * 0)%nat with 0%nat. change (512 * 1)%nat with 512%nat. rewrite drop_0.
    destruct (view_bytes s (b * 8 + Z.of_nat t) F) as [L _].
    rewrite (take_ge (drop _ _)) by (rewrite length_drop; lia). apply take_drop.
Qed.

(** ** The cache afterwards *)

Definition outside (k : Z) : Prop := k / 8 <> backup_block1 d /\ k / 8 <> backup_block2 d.

(** The entries in use are of this card, none of them of its backup blocks. *)
Definition own_entries (s : mcst) : Prop := forall i e, entrycache s !! i = Some e -> 0 <= cluster e ->
  owned port slot e = true /\ outside (cluster e).

Lemma written_same e : same_key (written e) e /\ cl_data (written e) = cl_data e /\ (wr_flag (written e) = 0 <-> inBlock e = true \/ wr_flag e = 0).
Proof. unfold written. destruct (inBlock e); (split; [done|split; [done|]]); cbn; (split; [tauto|]); [done|]. by intros [|]. Qed.

Lemma written_lookup (s s' : mcst) i e' : wrote_back s s' -> entrycache s' !! i = Some e' -> exists e, entrycache s !! i = Some e /\ e' = written e.
Proof. intros W. rewrite (wk_entries _ _ W), list_lookup_fmap_Some. intros (e & -> & He). by exists e. Qed.

Lemma isCluster_written k e : isCluster port slot k (written e) = isCluster port slot k e.
Proof. unfold written. by destruct (inBlock e). Qed.

(** A cluster as the manager sees it is what the cache holds, or what is on the
    card: the block is what the cache had, and the rest did not change. *)
Lemma written_shown (s s' : mcst) k : ready s -> shows (cells (card s')) (newCard s) -> outside k ->
  (forall i e, entrycache s !! i = Some e -> isCluster port slot k e = false) \/ k / 8 = b -> cluster_data (card s') port slot k = view s port slot k.
Proof.
  intros F HS [N1 N2] Hk. transitivity (newCard s k); [by apply HS|]. unfold newCard. destruct (Z.eqb_spec (k / 8) b) as [|Hn]; [done|].
  destruct Hk as [Hk|]; [|done]. unfold oldCard. symmetry. by apply view_miss.
Qed.

Lemma written_cache (s s' : mcst) : ready s -> own_entries s -> wrote_back s s' -> card_ok (card s') -> shows (cells (card s')) (newCard s) -> cache_ok s'.
Proof.
  intros F HO W K HS. pose proof (fl_cache _ F) as I. split.
  - rewrite (wk_entries _ _ W), length_fmap. apply I.
  - rewrite (wk_order _ _ W). apply I.
  - intros i e' (e & He & ->)%(written_lookup s). 2: done. rewrite (proj1 (proj2 (written_same e))). by apply (ck_data _ I i).
  - intros i j a a' (x & Hx & ->)%(written_lookup s) (y & Hy & ->)%(written_lookup s) H0 (K1 & K2 & K3); [|done..].
    destruct (written_same x) as [(X1 & X2 & X3) _], (written_same y) as [(Y1 & Y2 & Y3) _].
    apply (ck_unique _ I i j x y); [done|done|lia|]. split_and!; congruence.
  - intros i e' (e & He & ->)%(written_lookup s) H0 Hw; [|done]. destruct (written_same e) as [(-> & -> & X3) [-> HW]]. rewrite X3 in *.
    destruct (HO i e He H0) as [Ho Hout]. pose proof Ho as [Ep%Z.eqb_eq Es%Z.eqb_eq]%andb_true_iff. rewrite Ep, Es.
    assert (Hcl : isCluster port slot (cluster e) e = true) by (apply isCluster_true; done).
    apply HW in Hw. destruct (decide (cluster e / 8 = b)) as [Hb|Hb].
    + rewrite (written_shown s s' _ F HS Hout) by (by right). symmetry. by apply (view_hit s port slot (cluster e) i e).
    + assert (Hn : inBlock e = false) by (apply andb_false_iff; right; apply Z.eqb_neq; by rewrite Z.quot_div_nonneg by lia).
      destruct Hw as [Hw|Hw]; [congruence|]. rewrite (ck_clean _ I i e He H0 Hw), Ep, Es.
      symmetry. transitivity (newCard s (cluster e)); [by apply HS; apply Hout|]. unfold newCard. by rewrite (proj2 (Z.eqb_neq _ _) Hb).
  - done.
Qed.

Lemma written_view (s s' : mcst) k : ready s -> wrote_back s s' -> cache_ok s' -> shows (cells (card s')) (newCard s) -> 0 <= k -> outside k ->
  view s' port slot k = view s port slot k.
Proof.
  intros F W I' HS Hk Hout. destruct (findEntry (isCluster port slot k) 0 (entrycache s)) as [i|] eqn:Ef.
  - apply findEntry_Some in Ef as (e & _ & He & Hf). rewrite Nat.sub_0_r in He.
    rewrite (proj2 (view_hit s port slot k i e (fl_cache _ F) Hk He Hf)).
    assert (He' : entrycache s' !! i = Some (written e)) by (rewrite (wk_entries _ _ W), list_lookup_fmap, He; done).
    rewrite (proj2 (view_hit s' port slot k i (written e) I' Hk He' ltac:(by rewrite isCluster_written))). apply written_same.
  - assert (Hno : forall i e, entrycache s !! i = Some e -> isCluster port slot k e = false).
    { intros i e He. eapply findEntry_None; [exact Ef|]. by eapply list_elem_of_lookup_2. }
    rewrite (proj2 (view_miss s' port slot k ltac:(intros i e' (e & He & ->)%(written_lookup s); [rewrite isCluster_written; by eapply Hno|done]))).
    apply written_shown; [done..|by left].
Qed.

(** A start of the manager on a card with pages [X], which may be interrupted again. *)
Definition boot (X Y : Z -> cell) : Prop := exists fuel s r s', booted s /\ cells (card s) = X /\
  mcman_checkBackupBlocks fuel junk port slot s = Done r s' /\ Y = cells (card s').

Lemma boot_safe X0 D : 0 <= port < 256 -> 0 <= slot < 65536 -> forall X Y, rtc boot X Y -> safe b X0 D X -> safe b X0 D Y.
Proof.
  intros Hp Hs X Y HB. induction HB as [X|X Y Z' (fuel & s & r & s' & HB & <- & E & ->) _ IH]; [done|]. intros HX. apply IH.
  pose proof (wp_checkBackup b OK X0 D fuel junk junk_ok Hp Hs s HB HX) as W. unfold wp in W. rewrite E in W. apply W.
Qed.

End Flush.
End Blocks.
