(* ===== verification/McProps.v ===== *)
(** * McProps: the memory card manager

    The properties of [mcman_correctdata], [McReadPage], the cluster cache, the
    file allocation table, [mcman_fatRseek], [mcman_findfree2], [mcman_read2],
    the release of chains and the write-back of blocks, with cards for which
    their hypotheses hold. *)

From stdpp Require Import base numbers list relations.
From Stdlib Require Import ZArith Lia.
From S2P Require Import Prelude McUtil Mc McCache McFat McFile McChains McCrash.

Open Scope Z_scope.
Open Scope c_scope.

(** ** A card *)

(** Pages by number, whatever the port and the slot; a page is 512 bytes. *)
Definition memCard : Type := Z -> list Z.

Definition pageOf (c : memCard) (n : Z) : list Z := map u8 (take 512 (c n ++ replicate 512 0)).
Definition spareOf (c : memCard) (n : Z) : list Z := eccOf 4 (pageOf c n) ++ [1; 1; 1; 1].

#[export] Instance memCardIO : CardIO memCard := {
  io_readpage _ _ n := fun c => Done (Some (pageOf c n, spareOf c n)) c;
  io_writepage _ _ n data _ := fun c => Done 0 (fun m => if m =? n then data else c m);
  io_erase _ _ n := fun c => Done true (fun m => if (n <=? m) && (m <? n + 16) then [] else c m);
  io_erase_end _ _ := fun c => Done 0 c;
  io_writePS1 _ _ n data := fun c => Done 0 (fun m => if m =? n then data else c m);
  io_readPS1 _ _ n := fun c => Done (0, c n) c;
  io_probePS1Card2 _ _ := fun c => Done 0 c;
  io_fillPS1backuparea _ _ _ := fun c => Done 0 c;
  io_clock := fun c => Done (true, replicate 8 0) c
}.

Lemma pageOf_bytes c n : length (pageOf c n) = 512%nat /\ bytes_ok (pageOf c n).
Proof.
  unfold pageOf. split.
  - rewrite length_map, length_take, length_app, length_replicate. lia.
  - apply Forall_map, Forall_true. intros x. apply u8_byte.
Qed.

#[export] Instance memCardPages : CardPages memCard.
Proof.
  refine {| page c _ _ n := pageOf c n; spare c _ _ n := spareOf c n; card_ok _ := True |}.
  - intros c _ _ n _. apply pageOf_bytes.
  - intros c _ _ n _. unfold spareOf. pose proof (length_eccOf 4 (pageOf c n)) as L. rewrite take_app_length' by done. split; [|by right].
    by rewrite length_app, L.
  - reflexivity.
Defined.

(** The card of the witnesses: cluster 8 is the indirect cluster, which names
    cluster 9 as the table; there are the chains 2, 5, 7 and 8, 4, and entry 3
    is free.  The file of the chain 2, 5, 7 starts with 10, 11, 12. *)
Definition wTable : list Z := bytes_of_words [0x80000001; 0xffffffff; 0x80000005; 0; 0xffffffff; 0x80000007; 0xffffffff; 0xffffffff; 0x80000004].
Definition wCard : memCard := fun n => if n =? 16 then bytes_of_word 9 else if n =? 18 then wTable else if n =? 86 then [10; 11; 12] else [].
Definition wDev : MCDevInfo := mkDev 512 2 16 8192 41 8135 0 1023 1022 [8] [-1] sceMcTypePS2 CF_USE_ECC 1024 256 8 0 256 1 0 0.
Definition wFile : MC_FHANDLE := mkFh 1 0 1 0 0 0 0 0 2048 3000 2 2 0 0 2 0 0.
Definition wZero : mcst memCard :=
  mkMc (replicate 36 (mkMce 0 (replicate 1024 0) 0 0 0 0)) (replicate 36 0%nat) [[wDev]] [[[0; -1]]] [wFile] 0 0 0 (replicate 16 0)
    (replicate 1056 0) (replicate (32 * 512) 0) (replicate 32 (PBackup 0)) (replicate 512 0) (mkGlobals (replicate 3 (replicate 512 0)) 1 (replicate 8 0)) wCard.

(** The manager after [mcman_initcache]. *)
Definition wMc : mcst memCard := match mcman_initcache wZero with Done _ s => s | _ => wZero end.

Definition wBlank : McCacheEntry := mkMce (-1) (replicate 1024 0) 0 0 0 0.

Lemma wMc_entries : entrycache wMc = replicate 36 wBlank.
Proof. vm_compute. reflexivity. Qed.
Lemma wMc_order : mccache wMc = rev (seq 0 36).
Proof. vm_compute. reflexivity. Qed.
Lemma wMc_entry i e : entrycache wMc !! i = Some e -> e = wBlank.
Proof. rewrite wMc_entries. intros H. by apply lookup_replicate in H as [-> _]. Qed.
Lemma wMc_dev : has_dev wMc 0 0 wDev.
Proof. vm_compute. reflexivity. Qed.
Lemma wDev_geometry : geometry wDev.
Proof. by split. Qed.

Lemma wMc_cache : cache_ok wMc.
Proof.
  split.
  - by rewrite wMc_entries, length_replicate.
  - rewrite wMc_order. symmetry. apply Permutation_rev.
  - intros i e ->%wMc_entry. apply length_replicate.
  - intros i j a b ->%wMc_entry _ H. exfalso. cbn in H. lia.
  - intros i e ->%wMc_entry H. cbn in H. lia.
  - exact I.
Qed.

Lemma wMc_settled K : settled 0 0 K wMc.
Proof.
  exists [], (mccache wMc). split_and!; [done|by intros v H%elem_of_nil|]. intros v Hv. rewrite (ck_order _ wMc_cache) in Hv. apply elem_of_seq in Hv.
  exists wBlank. split_and!; [|done|].
  - rewrite wMc_entries. apply lookup_replicate_2. unfold MAX_CACHEENTRY in Hv. lia.
  - unfold hot, wBlank. cbn. lia.
Qed.

Lemma wMc_view p sl k : 0 <= k -> view wMc p sl k = cluster_data wCard p sl k.
Proof. intros Hk. apply view_miss. intros i e ->%wMc_entry. apply not_true_is_false. intros (_ & _ & E)%isCluster_true. cbn in E. lia. Qed.

Lemma wMc_clust i : 0 <= i < 256 -> ifcOf wDev i = 8 /\ fatclust 0 0 wDev wMc i = 9.
Proof.
  intros Hi. assert (E : ifcOf wDev i = 8) by (unfold ifcOf; by rewrite Z.div_small by lia). split; [done|].
  unfold fatclust. rewrite E, wMc_view, (Z.div_small i 256) by lia. vm_compute. reflexivity.
Qed.

(** The entries of the table. *)
Definition wFat (i : Z) : Z := fatEntry (cluster_data wCard 0 0 9) i.

Lemma wFits : (length [8; 9] < MAX_CACHEENTRY)%nat.
Proof. unfold MAX_CACHEENTRY. simpl. lia. Qed.

Lemma wMc_table K : keeps K wMc -> covers K 8 -> covers K 9 -> models 0 0 K wDev 256 wFat wMc.
Proof.
  intros HK H8 H9. split; [split|].
  - exact wMc_dev.
  - exact wDev_geometry.
  - exact wMc_cache.
  - vm_compute. discriminate.
  - exact HK.
  - lia.
  - intros i Hi. rewrite (proj1 (wMc_clust i Hi)). split; [lia|done].
  - intros i Hi. rewrite (proj2 (wMc_clust i Hi)). split; [lia|done].
  - intros i j Hi Hj _. by rewrite !Z.div_small by lia.
  - intros i j Hi Hj. by rewrite (proj2 (wMc_clust i Hi)), (proj1 (wMc_clust j Hj)).
  - intros i Hi. unfold fat, wFat. rewrite (proj2 (wMc_clust i Hi)), wMc_view, Z.mod_small by lia. reflexivity.
Qed.

Lemma wMc_models : models 0 0 (hotPolicy 0 0 [8; 9] wFits) wDev 256 wFat wMc.
Proof. apply wMc_table; [apply wMc_settled|left|right; left]. Qed.

Lemma wMc_clean : models 0 0 (cleanPolicy 0 0) wDev 256 wFat wMc.
Proof. apply wMc_table; [|done|done]. intros i c ->%wMc_entry. reflexivity. Qed.

(** ** The code of a page *)

(** C30: [mcman_correctdata] tells, for the 128 bytes [data] and the code made
    of them, intact data (0), one wrong bit of the data (-1), one wrong bit of
    the code (-2) and two wrong bits of the data (-3).  A wrong bit of the data
    is found at its place, byte [j] and bit [b]; but the bit that is flipped is
    that of byte [j] counted from the code, not from the data. *)
Theorem ecc_decides data p : page_ok data -> holds_code p (McDataChecksum data) ->
  mcman_correctdata data p = Some (0, p) /\
  (forall j b, (j < 128)%nat -> 0 <= b < 8 ->
     mcman_correctdata (flip j b data) p = match p !! j with Some x => Some (-1, <[j := u8 (Z.lxor x (Z.shiftl 1 b))]> p) | None => None end) /\
  (forall j b j' b', (j < 128)%nat -> 0 <= b < 8 -> (j' < 128)%nat -> 0 <= b' < 8 -> (j, b) <> (j', b') ->
     mcman_correctdata (flip j b (flip j' b' data)) p = Some (-3, p)) /\
  (forall d p', In d code_bits -> holds_code p' (xor3 (McDataChecksum data) d) -> mcman_correctdata data p' = Some (-2, p')).
Proof.
  intros Hd Hc. split_and!.
  - by apply correct_intact.
  - intros j b Hj Hb. rewrite (correctdata_verdict _ p _ Hc), checksum_flip, xor3_cancel by done. by apply verdict_single.
  - intros j b j' b' Hj Hb Hj' Hb' Hne. rewrite (correctdata_verdict _ p _ Hc), checksum_flip by (done || by apply flip_ok).
    rewrite checksum_flip, xor3_assoc, xor3_cancel, xor3_comm by done. by apply verdict_double.
  - intros d p' Hin Hc'. rewrite (correctdata_verdict _ p' _ Hc'), xor3_comm, xor3_cancel. by apply verdict_code.
Qed.

Lemma ecc_decides_witness : mcman_correctdata (flip 20 3 (replicate 128 5)) (eccOf 1 (replicate 128 5) ++ replicate 29 0) =
  Some (-1, <[20%nat := 8]> (eccOf 1 (replicate 128 5) ++ replicate 29 0)).
Proof.
  assert (Hd : page_ok (replicate 128 5)) by (split; [by rewrite length_replicate|apply Forall_replicate; lia]).
  assert (Hc : holds_code (eccOf 1 (replicate 128 5) ++ replicate 29 0) (McDataChecksum (replicate 128 5))) by (vm_compute; done).
  rewrite (proj1 (proj2 (ecc_decides _ _ Hd Hc)) 20%nat 3) by lia. vm_compute. reflexivity.
Defined.

(** C22: A page read with one wrong bit among its first 128 bytes, behind the
    twelfth, is never put right: [McReadPage] returns success with the wrong
    bit in the data, or stores outside [eccbuf] when the bit is not among the
    first 32 bytes. *)
Theorem bit_error_delivered {C} `{CardIO C} (s : mcst C) d junk port slot n pg sp j b buf : wrong_bit s port slot n pg sp j b ->
  has_dev s port slot d -> geometry d -> length junk = 32%nat -> length buf = 512%nat -> (12 <= j)%nat ->
  McReadPage junk port slot n buf s = if decide (j < 32)%nat then Done (0, flip j b pg) s else Undef.
Proof.
  intros W Hd G Lj Lb Hj. case_decide.
  - destruct (wp_inv _ _ _ (wrong_bit_passes s port slot n pg sp j b d W G Hj junk buf (fun r s' => r = (0, flip j b pg) /\ s' = s) ltac:(done) Hd Lj Lb ltac:(done)))
      as (r & s' & E & -> & ->). done.
  - by apply (wrong_bit_undef s port slot n pg sp j b d); try done; lia.
Qed.

(** A card that reads every page of zeros with bit 3 of byte 20 set. *)
Definition badCardIO (j : nat) : CardIO unit := {|
  io_readpage _ _ n := fun c => Done (Some (flip j 3 (replicate 512 0), eccOf 4 (replicate 512 0) ++ [1; 1; 1; 1])) c;
  io_writepage _ _ _ _ _ := fun c => Done 0 c;
  io_erase _ _ _ := fun c => Done true c;
  io_erase_end _ _ := fun c => Done 0 c;
  io_writePS1 _ _ _ _ := fun c => Done 0 c;
  io_readPS1 _ _ _ := fun c => Done (0, []) c;
  io_probePS1Card2 _ _ := fun c => Done 0 c;
  io_fillPS1backuparea _ _ _ := fun c => Done 0 c;
  io_clock := fun c => Done (true, replicate 8 0) c
|}.

Definition wBad : mcst unit := mkMc [] [] [[wDev]] [] [] 0 0 0 [] [] [] [] [] (mkGlobals [] 1 []) tt.

Lemma wBad_wrong : wrong_bit (IO := badCardIO 20) wBad 0 0 7 (replicate 512 0) (eccOf 4 (replicate 512 0) ++ [1; 1; 1; 1]) 20 3.
Proof.
  split; [by rewrite length_replicate|apply Forall_replicate; lia|lia|..].
  - by vm_compute.
  - by vm_compute.
  - reflexivity.
Qed.

Lemma bit_error_delivered_witness :
  @McReadPage unit (badCardIO 20) (replicate 32 0) 0 0 7 (replicate 512 0) wBad = Done (0, flip 20 3 (replicate 512 0)) wBad.
Proof.
  apply (bit_error_delivered (H := badCardIO 20) wBad wDev (replicate 32 0) 0 0 7 _ _ 20 3 (replicate 512 0) wBad_wrong);
    [reflexivity|exact wDev_geometry|by rewrite length_replicate..|lia].
Defined.

(** ** The cache of clusters *)

(** [mcman_readcluster] of a card that can be read, when the entry used
    longest ago waits for nothing: it returns an entry of the cache that holds
    the cluster as the manager sees it ([view]: the cached data, or else the
    card's), which goes to the front of the order of use, the others keeping
    their order; no cluster looks different afterwards, and the card is left
    alone. *)
Lemma read_cluster_clean {C} {IO : CardIO C} {PG : CardPages C} (s : mcst C) d fuel junk port slot k : cache_ok s -> has_dev s port slot d -> geometry d ->
  length junk = 32%nat -> badblock s <= 0 -> 0 <= k -> 0 <= port < 256 -> 0 <= slot < 65536 -> victim_clean s ->
  exists e c s', mcman_readcluster fuel junk port slot k s = Done (0, Some e) s' /\
    entrycache s' !! e = Some c /\ isCluster port slot k c = true /\ cl_data c = view s port slot k /\
    (forall p sl j, 0 <= j -> view s' p sl j = view s p sl j) /\
    mccache s' = e :: filter (fun x => x <> e) (mccache s) /\ cache_ok s' /\ card s' = card s.
Proof.
  intros I Hd G Hj Hb Hk Hp Hs HV.
  assert (HW : wp (mcman_readcluster fuel junk port slot k) s (fun r s' => exists e c, r = (0, Some e) /\ read_post s port slot k e c s')).
  { eapply readcluster_ok; try done. intros e c s' R. by exists e, c. }
  apply wp_inv in HW as (r & s' & E & e & c & -> & R).
  exists e, c, s'. by destruct R.
Qed.

(** ** The file allocation table *)

(** C6: Any sequence of [mcman_getFATentry] and [mcman_setFATentry] on a card
    whose table and its indirect clusters take fewer clusters than the cache
    has entries gives the results of the same sequence on an array of
    integers, and leaves the table as the array is then: whatever of it is
    cached, in whatever order, nothing is lost and nothing else is hit. *)
Theorem fat_array {C} {IO : CardIO C} {PG : CardPages C} port slot l (fits : (length l < MAX_CACHEENTRY)%nat) fuel junk d N ops f (s : mcst C) : 0 <= port < 256 -> 0 <= slot < 65536 ->
  length junk = 32%nat -> Forall (fun op => 0 <= opIndex op < N) ops -> models port slot (hotPolicy port slot l fits) d N f s ->
  exists s', fatRuns port slot fuel junk ops s = Done (arrayRuns ops f).1 s' /\ models port slot (hotPolicy port slot l fits) d N (arrayRuns ops f).2 s'.
Proof.
  intros Hp Hs Hj Hops HM.
  destruct (wp_inv _ _ _ (wp_fatRuns port slot (hotPolicy port slot l fits) Hp Hs fuel junk Hj d N ops Hops f s
    (fun r s' => r = (arrayRuns ops f).1 /\ models port slot (hotPolicy port slot l fits) d N (arrayRuns ops f).2 s') HM (fun s' H => conj eq_refl H))) as (r & s' & E & -> & HM').
  by exists s'.
Qed.

Lemma fat_array_witness : exists s', fatRuns 0 0 0 (replicate 32 0) [FatGet 3; FatSet 3 77; FatGet 2; FatGet 3] wMc = Done [0; 0; wFat 2; 77] s'.
Proof.
  destruct (fat_array 0 0 [8; 9] wFits 0 (replicate 32 0) wDev 256 [FatGet 3; FatSet 3 77; FatGet 2; FatGet 3] wFat wMc) as (s' & E & _);
    [lia|lia|by rewrite length_replicate|repeat constructor; simpl; lia|exact wMc_models|].
  exists s'. rewrite E. assert (E3 : wFat 3 = 0) by (vm_compute; reflexivity). cbn [arrayRuns arrayRun fst snd]. change (3 =? 3) with true. change (2 =? 3) with false.
  cbv iota. by rewrite E3.
Defined.

(** C26: [mcman_fatRseek] finds the cluster of the position of a file by its
    chain in the table, and ends with [sceMcResFullDevice] when the chain is
    shorter; the place it keeps in the handle for the next seek is again on the
    chain, whether it went on from the last place or from the start. *)
Theorem seek_chain {C} {IO : CardIO C} {PG : CardPages C} port slot (K : policy port slot) fuel junk d N f fd h (s : mcst C) : 0 <= port < 256 -> 0 <= slot < 65536 ->
  length junk = 32%nat -> linked f N -> models port slot K d N f s -> fdhandles s !! fd = Some h ->
  handle_ok port slot N f h -> 0 < cluster_size d -> (Z.to_nat (position h / cluster_size d) < fuel)%nat ->
  exists r s' h', mcman_fatRseek fuel junk fd s = Done r s' /\
    r = match follow f (Z.to_nat (position h / cluster_size d)) (freeclink h) with
        | Some c => s32 (c + alloc_offset d)
        | None => sceMcResFullDevice
        end /\
    models port slot K d N f s' /\ fdhandles s' = <[fd := h']> (fdhandles s) /\ handle_ok port slot N f h' /\
    freeclink h' = freeclink h /\ position h' = position h /\ status h' = status h /\ filesize h' = filesize h.
Proof.
  intros Hp Hs Hj L HM Hh Ho Hcs Hf.
  destruct (wp_inv _ _ _ (wp_fatRseek port slot K Hp Hs fuel junk Hj d N f fd h s
    (seek_post port slot K d N f (Z.to_nat (position h / cluster_size d)) fd h s) L HM Hh Ho Hcs Hf (fun _ _ H => H))) as (r & s' & E & HM' & HV & HR & h' & E1 & Ho' & E2 & E3 & E4 & E5).
  exists r, s', h'. unfold seek_result in HR. destruct (follow _ _ _); by split_and!.
Qed.

Lemma wFat_linked : linked wFat 256.
Proof.
  assert (H : forallb (fun i => (-1 <=? wFat i) || ((0 <=? Z.land (wFat i) 0x7fffffff) && (Z.land (wFat i) 0x7fffffff <? 256))) (map Z.of_nat (seq 0 256)) = true)
    by (vm_compute; reflexivity).
  rewrite forallb_forall in H. intros i Hi Hn. specialize (H i). rewrite in_map_iff in H.
  specialize (H ltac:(exists (Z.to_nat i); rewrite in_seq; lia)). apply orb_true_iff in H as [H|H]; [apply Z.leb_le in H; lia|].
  apply andb_true_iff in H as [H1 H2]. apply Z.leb_le in H1. apply Z.ltb_lt in H2. lia.
Qed.

Lemma wFile_ok : handle_ok 0 0 256 wFat wFile.
Proof. split; cbn; try lia; done. Qed.

Lemma seek_chain_witness : exists s', mcman_fatRseek 3 (replicate 32 0) 0 wMc = Done 48 s'.
Proof.
  assert (Hp : Z.to_nat (position wFile / cluster_size wDev) = 2%nat) by reflexivity.
  destruct (seek_chain 0 0 (hotPolicy 0 0 [8; 9] wFits) 3 (replicate 32 0) wDev 256 wFat 0 wFile wMc) as (r & s' & h' & E & Er & _);
    [lia|lia|by rewrite length_replicate|exact wFat_linked|exact wMc_models|reflexivity|exact wFile_ok|reflexivity|lia|].
  rewrite Hp in Er. assert (Ef : follow wFat 2 (freeclink wFile) = Some 7) by (vm_compute; reflexivity). rewrite Ef in Er. exists s'. by rewrite E, Er.
Defined.

(** C14: [mcman_findfree2] returns the first free entry from where the search
    starts, marks it as the end of a chain and starts there the next time;
    without [reserve] it counts the free entries and changes nothing; in both
    cases [sceMcResFullDevice] says that there is none.  No other entry of the
    table changes. *)
Theorem find_free {C} {IO : CardIO C} {PG : CardPages C} port slot l (fits : (length l < MAX_CACHEENTRY)%nat) fuel junk d N f reserve (s : mcst C) : 0 <= port < 256 -> 0 <= slot < 65536 ->
  length junk = 32%nat -> layout d N -> models port slot (hotPolicy port slot l fits) d N f s ->
  (Z.to_nat (max_allocatable_clusters d - unknown2 d) < fuel)%nat ->
  let n := Z.to_nat (max_allocatable_clusters d - unknown2 d) in
  exists r s', mcman_findfree2 fuel junk port slot reserve s = Done r s' /\
    if reserve then
      match firstFree f (unknown2 d) n with
      | Some i => r = i /\ models port slot (hotPolicy port slot l fits) (set_unknown2 i d) N (fun j => if j =? i then -1 else f j) s'
      | None => r = sceMcResFullDevice /\ models port slot (hotPolicy port slot l fits) d N f s'
      end
    else r = (if countFree f (unknown2 d) n =? 0 then sceMcResFullDevice else countFree f (unknown2 d) n) /\ models port slot (hotPolicy port slot l fits) d N f s'.
Proof.
  intros Hp Hs Hj Ly HM Hf n.
  destruct (wp_inv _ _ _ (wp_findfree2 port slot (hotPolicy port slot l fits) Hp Hs fuel junk Hj d N f s reserve (found port slot (hotPolicy port slot l fits) d N reserve f) Ly HM Hf (fun _ _ H => H)))
    as (r & s' & E & HR). by exists r, s'.
Qed.

Lemma wDev_layout : layout wDev 256.
Proof. split; cbn; lia. Qed.

Lemma find_free_witness : exists s', mcman_findfree2 257 (replicate 32 0) 0 0 true wMc = Done 3 s' /\ fat 0 0 (set_unknown2 3 wDev) s' 3 = -1.
Proof.
  destruct (find_free 0 0 [8; 9] wFits 257 (replicate 32 0) wDev 256 wFat true wMc) as (r & s' & E & HR);
    [lia|lia|by rewrite length_replicate|exact wDev_layout|exact wMc_models|vm_compute; lia|].
  assert (Ef : firstFree wFat (unknown2 wDev) (Z.to_nat (max_allocatable_clusters wDev - unknown2 wDev)) = Some 3) by (vm_compute; reflexivity).
  cbv iota in HR. rewrite Ef in HR. destruct HR as [-> HM]. exists s'. split; [exact E|]. rewrite (proj2 HM) by lia. reflexivity.
Defined.

(** C24: [mcman_read2] of a file whose clusters hold [data], over a cache that
    has nothing to write: it returns the bytes from the position on, [n] at
    most, with their number, whatever clusters they lie in and whatever of them
    is cached; the position moves by that much, and the file can be read on. *)
Theorem file_read {C} {IO : CardIO C} {PG : CardPages C} port slot fuel junk d N f data fd h pos n (s : mcst C) : 0 <= port < 256 -> 0 <= slot < 65536 ->
  length junk = 32%nat -> linked f N -> cluster_size d = 1024 -> reading port slot (cleanPolicy port slot) d N f data fd h s -> position h = Z.of_nat pos ->
  (length data < fuel)%nat ->
  let got := take (Z.to_nat n) (drop pos data) in
  exists h' s', mcman_read2 fuel junk fd n s = Done (Z.of_nat (length got), got) s' /\
    reading port slot (cleanPolicy port slot) d N f data fd h' s' /\ position h' = Z.of_nat (pos + length got).
Proof.
  intros Hp Hs Hj L Hcs HR Hpos Hf got.
  assert (HW : wp (mcman_read2 fuel junk fd n) s (fun r s' => exists h', r = (Z.of_nat (length got), got) /\
    reading port slot (cleanPolicy port slot) d N f data fd h' s' /\ position h' = Z.of_nat (pos + length got))).
  { eapply wp_read2; try done. intros h' s' got' HR' Hp'. exists h'. exact (conj eq_refl (conj HR' Hp')). }
  apply wp_inv in HW as (r & s' & E & h' & -> & HR' & Hp'). by exists h', s'.
Qed.

Definition wData : list Z := take 3000 (cluster_data wCard 0 0 43 ++ cluster_data wCard 0 0 46 ++ cluster_data wCard 0 0 48).

Lemma wFile_reading : reading 0 0 (cleanPolicy 0 0) wDev 256 wFat wData 0 wFile wMc.
Proof.
  assert (L : length wData = 3000%nat) by (vm_compute; reflexivity).
  split; [exact wMc_clean|reflexivity|exact wFile_ok|by rewrite L|rewrite L; lia|]. intros i Hi. rewrite L in Hi.
  assert (i = 0 \/ i = 1 \/ i = 2)%nat as [->|[->| ->]] by lia; [exists 2|exists 5|exists 7];
    (split; [vm_compute; reflexivity|]; split; [cbn; lia|]; split; [done|]; cbn [alloc_offset wDev]; rewrite wMc_view by lia; rewrite L; vm_compute; reflexivity).
Qed.

Lemma file_read_witness : exists s', mcman_read2 3001 (replicate 32 0) 0 2000 wMc = Done (952, take 2000 (drop 2048 wData)) s'.
Proof.
  destruct (file_read 0 0 3001 (replicate 32 0) wDev 256 wFat wData 0 wFile 2048 2000 wMc) as (h' & s' & E & _);
    [lia|lia|by rewrite length_replicate|exact wFat_linked|reflexivity|exact wFile_reading|reflexivity|vm_compute; lia|].
  exists s'. assert (Eg : Z.of_nat (length (take (Z.to_nat 2000) (drop 2048 wData))) = 952) by (vm_compute; reflexivity). rewrite Eg in E. exact E.
Defined.

(** C39: Deleting a file, the loop over its chain frees exactly the entries of
    the chain.  It also moves the start of the search for free clusters, to the
    entry found at a cluster that lies before the start: at the last cluster of
    the chain that is the end mark, and then [mcman_findfree2] reports a full
    card although the clusters of the chain are free. *)
Theorem release_chain {C} {IO : CardIO C} {PG : CardPages C} port slot l (fits : (length l < MAX_CACHEENTRY)%nat) fuel junk d N f c t (s : mcst C) :
  0 <= port < 256 -> 0 <= slot < 65536 -> length junk = 32%nat -> layout d N -> N < 2 ^ 31 -> NoDup (c :: t) -> Forall (fun x => 0 <= x < N) (c :: t) ->
  (length (c :: t) <= fuel)%nat -> models port slot (hotPolicy port slot l fits) d N f s -> whole_chain f (c :: t) ->
  exists s', while_ fuel (freeStep fuel junk port slot false) c s = Done 0 s' /\
    models port slot (hotPolicy port slot l fits) (set_unknown2 (startAfter f (c :: t) (unknown2 d)) d) N (freed (c :: t) f) s' /\
    forall l0 x, c :: t = l0 ++ [x] -> x < startAfter f l0 (unknown2 d) -> exists s'', mcman_findfree2 fuel junk port slot true s' = Done sceMcResFullDevice s''.
Proof.
  intros Hp Hs Hj Ly HN Hnd Hr Hf HM Hch. pose proof Ly as [B1 B2 B3 B4]. set (u := startAfter f (c :: t) (unknown2 d)).
  assert (HW : wp (while_ fuel (freeStep fuel junk port slot false) c) s
    (fun r s' => r = 0 /\ models port slot (hotPolicy port slot l fits) (set_unknown2 u d) N (freed (c :: t) f) s')).
  { eapply (wp_freeChain port slot (hotPolicy port slot l fits) Hp Hs fuel junk Hj N (c :: t) Hnd Hr fuel d f s c t); try done. }
  apply wp_inv in HW as (r & s' & E & -> & HM'). exists s'. split; [exact E|]. split; [exact HM'|]. intros l0 x El Hx.
  assert (Eu : u = 0x7fffffff).
  { unfold u. rewrite El. unfold startAfter. rewrite foldl_app. cbn [foldl]. fold (startAfter f l0 (unknown2 d)). rewrite (proj2 (Z.ltb_lt _ _) Hx).
    rewrite El in Hch. by rewrite (whole_chain_last f l0 x Hch). }
  assert (HL : layout (set_unknown2 u d) N) by (split; cbn [clusters_per_block alloc_offset unknown2 max_allocatable_clusters set_unknown2]; [done|done|lia|done]).
  assert (En : Z.to_nat (max_allocatable_clusters (set_unknown2 u d) - unknown2 (set_unknown2 u d)) = 0%nat)
    by (cbn [unknown2 max_allocatable_clusters set_unknown2]; lia).
  assert (HW : wp (mcman_findfree2 fuel junk port slot true) s' (fun r _ => r = sceMcResFullDevice)).
  { eapply (wp_findfree2 port slot (hotPolicy port slot l fits) Hp Hs fuel junk Hj (set_unknown2 u d) N _ s' true); [done|exact HM'|rewrite En; simpl in Hf; lia|].
    intros r s2 HF. unfold found in HF. rewrite En in HF. cbn [firstFree] in HF. by destruct HF. }
  apply wp_inv in HW as (r & s'' & E' & ->). by exists s''.
Qed.

(** The card of the witnesses with the search at cluster 8. *)
Definition wMc8 : mcst memCard := with_devinfos [[set_unknown2 8 wDev]] wMc.

Lemma wMc8_models : models 0 0 (hotPolicy 0 0 [8; 9] wFits) (set_unknown2 8 wDev) 256 wFat wMc8.
Proof.
  assert (Hd : has_dev wMc8 0 0 (set_unknown2 8 wDev)) by reflexivity. unfold wMc8 in *. revert Hd. generalize wMc wMc_models. intros s Hs Hd.
  eapply (models_start 0 0 _ (replicate 32 0)); [by rewrite length_replicate|intros j _; reflexivity|exact Hs|exact Hd|reflexivity..].
Qed.

Lemma release_chain_witness : exists s' s'', while_ 2 (freeStep 2 (replicate 32 0) 0 0 false) 8 wMc8 = Done 0 s' /\
  mcman_findfree2 2 (replicate 32 0) 0 0 true s' = Done sceMcResFullDevice s''.
Proof.
  destruct (release_chain 0 0 [8; 9] wFits 2 (replicate 32 0) (set_unknown2 8 wDev) 256 wFat 8 [4] wMc8) as (s' & E & _ & HB);
    [lia|lia|by rewrite length_replicate|split; cbn; lia|lia| |repeat constructor; lia|simpl; lia|exact wMc8_models|vm_compute; split_and!; congruence|].
  - apply NoDup_cons. split; [rewrite list_elem_of_singleton; lia|apply NoDup_singleton].
  - destruct (HB [8] 4 eq_refl) as [s'' E'']; [vm_compute; reflexivity|]. exists s', s''. exact (conj E E'').
Defined.

(** C7: A cluster of a block of metadata is written back atomically.  The card
    may lose its power before any write or erase of
    [mcman_flushcacheentry], and again in [mcman_checkBackupBlocks] any number
    of times the manager starts afterwards: once a start keeps its power, all
    clusters that are not in the backup blocks hold what they held before, or
    all of them do but those of the block, which hold what the cache had.  When
    the flush itself kept its power, that is what the card shows then and
    after all later starts. *)
Theorem flush_power_loss port slot d b fuel junk i c (s : mcst flash) : 0 <= port < 256 -> 0 <= slot < 65536 -> length junk = 32%nat -> blocks_ok d b ->
  flushable port slot d b s -> marks d 0xffffffff 0xffffffff (cells (card s)) ->
  entrycache s !! i = Some c -> owned port slot c && (Z.quot (cluster c) 8 =? b) = true -> wr_flag c <> 0 ->
  exists s', mcman_flushcacheentry (S fuel) junk i s = Done 0 s' /\
    (power (card s') <> 0%nat -> shows d (cells (card s')) (newCard port slot b s)) /\
    forall fuel' s1, booted port slot d s1 -> rtc (boot port slot d junk) (cells (card s')) (cells (card s1)) ->
      exists s2, mcman_checkBackupBlocks fuel' junk port slot s1 = Done 0 s2 /\
        (power (card s2) <> 0%nat -> shows d (cells (card s2)) (newCard port slot b s) \/
           power (card s') = 0%nat /\ shows d (cells (card s2)) (oldCard port slot s)).
Proof.
  intros Hp Hs Hj OK F HM Hc Hb Hw. pose proof (wp_writeBack port slot d b OK junk Hj s fuel i c F HM Hc Hb Hw) as W.
  apply wp_inv in W as (r & s' & E & -> & Y & [HS HY] & HK & HI). exists s'. split; [exact E|].
  assert (HN : power (card s') <> 0%nat -> cells (card s') = Y) by (destruct HY; [done|auto]).
  split; [intros HP; rewrite (HN HP); by apply (shows_new _ _ _ _ junk Hj); [apply F| |apply HI]|]. intros fuel' s1 HB HR. destruct (decide (power (card s') = 0%nat)) as [HP|HP].
  - pose proof (boot_safe port slot d b OK junk Hj _ _ Hp Hs _ _ HR HS) as HS1.
    pose proof (wp_checkBackup port slot d b OK _ _ fuel' junk Hj Hp Hs s1 HB HS1) as W. apply wp_inv in W as (r & s2 & E2 & -> & _ & HW).
    exists s2. split; [exact E2|]. intros HP2. destruct (HW HP2) as [HK2 [HI2|HI2]]; [right; split; [done|by apply (shows_old d b junk Hj (cells (card s)))]|left; by apply (shows_new _ _ _ _ junk Hj); [apply F| |apply HI2]].
  - rewrite (HN HP) in *. assert (HS' : safe d b Y (old b Y) Y) by (split; [by split; [apply HK|]|]; left; split; [apply HI|done]).
    pose proof (boot_safe port slot d b OK junk Hj _ _ Hp Hs _ _ HR HS') as HS1.
    pose proof (wp_checkBackup port slot d b OK _ _ fuel' junk Hj Hp Hs s1 HB HS1) as W. apply wp_inv in W as (r & s2 & E2 & -> & _ & HW).
    exists s2. split; [exact E2|]. intros HP2. left. destruct (HW HP2) as [HK2 HI2]. eapply (shows_trans d b junk Hj Y); [exact HK2|by destruct HI2|by apply (shows_new _ _ _ _ junk Hj); [apply F| |apply HI]].
Qed.

(** ** Reading a cluster *)

(** What reading cluster [k] into entry [e] promises, whatever became of the
    entry used longest ago. *)
Definition read_any (port slot : Z) (d : MCDevInfo) (k : Z) (s : mcst flash) (e : nat) (s' : mcst flash) : Prop :=
  ((exists i y, entrycache s !! i = Some y /\ isCluster port slot k y = true) \/ victim_clean s -> card s' = card s) /\
  (power (card s') <> 0%nat -> exists c, entrycache s' !! e = Some c /\ isCluster port slot k c = true /\ cl_data c = view s port slot k /\
    (forall j, 0 <= j -> outside d j -> view s' port slot j = view s port slot j) /\
    mccache s' = e :: filter (fun x => x <> e) (mccache s) /\ cache_ok s' /\
    forall v c, mccache s !! 35%nat = Some v -> entrycache s !! v = Some c -> wr_flag c <> 0 ->
      (forall i y, entrycache s !! i = Some y -> isCluster port slot k y = false) ->
      e = v /\ shows d (cells (card s')) (newCard port slot (cluster c / 8) s)).

(** Nothing had to be written back: a hit, or a clean entry was taken. *)
Lemma read_any_post port slot d k (s s' : mcst flash) e c : read_post s port slot k e c s' ->
  (entrycache s !! e = Some c \/ victim_clean s) -> read_any port slot d k s e s'.
Proof.
  intros R HC. split; [intros _; apply R|]. intros _. exists c. split_and!; [apply R..| | | |].
  - intros j Hj _. by apply (rp_view _ _ _ _ _ _ _ R).
  - apply R.
  - apply R.
  - intros v c' Hv Hc' Hw Hno. exfalso. destruct HC as [HC|HC]; [|by apply Hw, (HC v)].
    apply Hno in HC. pose proof (rp_is _ _ _ _ _ _ _ R). congruence.
Qed.

(** The entry was written back, then taken. *)
Lemma read_any_written port slot d b (junk : list Z) (Hj : length junk = 32%nat) k (s s1 : mcst flash) Y e c :
  ready port slot d s -> own_entries port slot d s -> wrote_back port slot b s s1 -> card_ok (card s1) ->
  (power (card s1) = 0%nat \/ cells (card s1) = Y) -> kept d b (cells (card s)) Y -> holds (newPage port slot b s) b Y ->
  mccache s !! 35%nat = Some e -> entrycache s !! e = Some c -> wr_flag c <> 0 -> owned port slot c && (Z.quot (cluster c) 8 =? b) = true ->
  0 <= port < 256 -> 0 <= slot < 65536 -> 0 <= k -> outside d k -> b = cluster c / 8 ->
  (forall i y, entrycache s !! i = Some y -> isCluster port slot k y = false) ->
  read_any port slot d k s e (load s1 port slot k e (written port slot b c)).
Proof.
  intros F HO W K T1 KY HY He Hc Hw Hb Hp Hs Hk Hout Eb Hno. split.
  - intros [(i & y & Hi & Hy)|HV]; [rewrite (Hno _ _ Hi) in Hy; done|]. by rewrite (HV e c He Hc) in Hw.
  - intros HP. destruct T1 as [T1|T1]; [done|].
    assert (HS : shows d (cells (card s1)) (newCard port slot b s)) by (rewrite T1; by apply (shows_new port slot d b junk Hj)).
    pose proof (written_cache port slot d b junk Hj s s1 F HO W K HS) as I1.
    assert (Hno1 : forall i y, entrycache s1 !! i = Some y -> isCluster port slot k y = false).
    { intros i y (x & Hx & ->)%(written_lookup port slot b s); [|done]. rewrite isCluster_written. by eapply Hno. }
    assert (Hc1 : entrycache s1 !! e = Some (written port slot b c)) by (rewrite (wk_entries _ _ _ _ _ W), list_lookup_fmap, Hc; done).
    assert (R : read_post s1 port slot k e (loaded s1 port slot k (written port slot b c)) (load s1 port slot k e (written port slot b c))).
    { apply miss_post; try done; [by rewrite (wk_order _ _ _ _ _ W)|]. apply (written_same port slot b c). by left. }
    eexists. split_and!; [apply R|apply R| | | |apply R|].
    + rewrite (rp_data _ _ _ _ _ _ _ R). by apply (written_view port slot d b).
    + intros j Hj0 Hjo. rewrite (rp_view _ _ _ _ _ _ _ R) by done. by apply (written_view port slot d b).
    + rewrite (rp_order _ _ _ _ _ _ _ R). by rewrite (wk_order _ _ _ _ _ W).
    + intros v c' Hv Hc' _ _. rewrite He in Hv. injection Hv as <-. rewrite Hc in Hc'. injection Hc' as <-. rewrite <- Eb. split; [done|].
      exact HS.
Qed.

(** C4: [mcman_readcluster] of a PS2 card, with or without a cluster to write
    back.  It returns an entry of the cache.  When the cluster is cached, or the
    entry used longest ago was not changed, nothing is written to the card.
    Otherwise that entry is written back first, and with it its whole block:
    if the power lasts, the block on the card then holds what the cache has
    of it, and the other clusters outside the backup blocks are as they were.
    In all these cases the entry returned holds the cluster as the manager saw
    it before ([view]: the cached data, or else the card's), it is at the front of
    the order of use, the others keeping their order, and no cluster outside
    the backup blocks looks different: no change waiting in the cache is
    lost.  A block already found bad is not covered, nor a change in block 0. *)
Theorem read_cluster port slot d fuel junk k (s : mcst flash) : 0 <= port < 256 -> 0 <= slot < 65536 -> length junk = 32%nat -> geometry d ->
  ready port slot d s -> own_entries port slot d s -> marks d 0xffffffff 0xffffffff (cells (card s)) ->
  (forall v c, mccache s !! 35%nat = Some v -> entrycache s !! v = Some c -> wr_flag c <> 0 -> 0 <= cluster c /\ blocks_ok d (cluster c / 8)) ->
  0 <= k -> outside d k ->
  exists e s', mcman_readcluster (S fuel) junk port slot k s = Done (0, Some e) s' /\ read_any port slot d k s e s'.
Proof.
  intros Hp Hs Hj G F HO HM HV Hk Hout. pose proof (fl_cache _ _ _ _ F) as I.
  assert (HW : wp (mcman_readcluster (S fuel) junk port slot k) s (fun r s' => exists e, r = (0, Some e) /\
    read_any port slot d k s e s')).
  { apply (readcluster_cases s d); [done|apply F|apply F|done| |].
    - intros e c s' Hc R. exists e. split; [done|]. by eapply read_any_post; [|left].
    - intros e c He Hc Hem Hno. destruct (decide (wr_flag c = 0)) as [Hw|Hw].
      + rewrite Hw. change (negb (0 =? 0)) with false. cbv iota. apply wp_bind, wp_ret. change (negb (sceMcResSucceed =? sceMcResSucceed)) with false. cbv iota.
        apply (miss_load s d junk port slot k e c); [apply I|apply I|apply F|done|done|done|by apply (ck_data _ I e)|done|]. exists e. split; [done|].
        eapply read_any_post; [by apply miss_post|]. right. intros v c' Hv Hc'. congruence.
      + rewrite (proj2 (Z.eqb_neq _ _) Hw). cbn [negb]. destruct (HV e c He Hc Hw) as [H0 OK]. destruct (HO e c Hc H0) as [Ho Houtc].
        assert (Hb : owned port slot c && (Z.quot (cluster c) 8 =? cluster c / 8) = true) by (by rewrite Ho, Z.quot_div_nonneg, Z.eqb_refl by lia).
        apply wp_bind. eapply wp_mono; [by apply (wp_writeBack_any port slot d _ OK junk Hj s fuel e c F HM Hc Hb Hw)|].
        intros r s1 (-> & W & Y & [K1 T1] & KY & HY & _). cbn [Z.eqb negb sceMcResSucceed].
        assert (K : card_ok (card s1)) by exact (proj1 K1).
        assert (Hc1 : entrycache s1 !! e = Some (written port slot (cluster c / 8) c)) by (rewrite (wk_entries _ _ _ _ _ W), list_lookup_fmap, Hc; done).
        apply (miss_load s1 d junk port slot k e (written port slot (cluster c / 8) c)); [|done|by apply (has_dev_same s); [apply W|apply F]|done|done|done| |done|].
        * rewrite (wk_order _ _ _ _ _ W). apply I.
        * rewrite (proj1 (proj2 (written_same port slot (cluster c / 8) c))). by apply (ck_data _ I e).
        * exists e. split; [done|]. by apply (read_any_written port slot d _ junk Hj k s s1 Y e c). }
  apply wp_inv in HW as (r & s' & E & e & -> & R). by exists e, s'.
Qed.

(** An erased card, a changed cluster of block 1, and power for twenty writes
    and erases: the flush stops when the block was erased. *)
Definition wDirty : McCacheEntry := mkMce 9 (replicate 1024 7) 0 1 0 0.
Definition wFlash (es : list McCacheEntry) (p : nat) (X : Z -> cell) : mcst flash :=
  mkMc es (seq 0 36) [[wDev]] [[[0; -1]]] [wFile] 0 0 0 (replicate 16 0)
    (replicate 1056 0) (replicate (32 * 512) 0) (replicate 32 (PBackup 0)) (replicate 512 0) (mkGlobals (replicate 3 (replicate 512 0)) 1 (replicate 8 0)) (mkFlash X p).
Definition wFlush : mcst flash := wFlash (wDirty :: replicate 35 wBlank) 20 (fun _ => blank).

(** One changed cluster, in entry [n]. *)
Definition one_dirty (n : nat) (es : list McCacheEntry) : Prop := length es = 36%nat /\ forall i e, es !! i = Some e -> (i = n /\ e = wDirty) \/ e = wBlank.

Lemma wFlash_ready n es p : one_dirty n es -> ready 0 0 wDev (wFlash es p (fun _ => blank)).
Proof.
  intros [HL HE]. split.
  - reflexivity.
  - reflexivity.
  - split.
    + exact HL.
    + reflexivity.
    + intros i e [[_ ->]| ->]%HE; apply length_replicate.
    + intros i j a b' [[-> ->]| ->]%HE Hb H HK; [|cbn in H; lia]. apply HE in Hb as [[-> ->]| ->]; [done|]. destruct HK as (_ & _ & HK). done.
    + intros i e [[_ ->]| ->]%HE H; cbn in *; [done|lia].
    + intros m. apply blank_ok.
  - intros i e [[_ ->]| ->]%HE; apply Forall_replicate; lia.
  - cbn. lia.
  - cbn [pagedata eccdata backupbuf wFlash]. by rewrite !length_replicate.
  - cbn [pagebuf wFlash]. rewrite length_replicate. split; [lia|]. apply Forall_replicate. lia.
Qed.

Lemma wFlush_ok : flushable 0 0 wDev 1 wFlush.
Proof.
  split; [apply (wFlash_ready 0); split; [done|]|by exists 0%nat, wDirty].
  intros [|i] e; [intros [= <-]; by left|]. intros H. apply lookup_replicate in H as [-> _]. by right.
Qed.

Lemma wDev_blocks : blocks_ok wDev 1.
Proof. split; [exact wDev_geometry|done|done|cbn; lia|cbn; lia]. Qed.

(** The changed cluster is in the entry used longest ago. *)
Definition wEvict : mcst flash := wFlash (replicate 35 wBlank ++ [wDirty]) 50 (fun _ => blank).

Lemma wEvict_dirty : one_dirty 35 (entrycache wEvict).
Proof.
  split; [done|]. intros i e H. apply lookup_app_Some in H as [[-> _]%lookup_replicate|[Hi H]]; [by right|]. rewrite length_replicate in *.
  apply list_lookup_singleton_Some in H as [H <-]. left. split; [lia|done].
Qed.

(** Reading cluster 100 takes that entry; cluster 9 is then on the card. *)
Lemma read_cluster_witness : exists e s', mcman_readcluster 1 (replicate 32 0) 0 0 100 wEvict = Done (0, Some e) s' /\
  (exists c, entrycache s' !! e = Some c /\ isCluster 0 0 100 c = true /\ cl_data c = replicate 1024 255) /\
  view s' 0 0 9 = replicate 1024 7 /\ cluster_data (card s') 0 0 9 = replicate 1024 7.
Proof.
  assert (HE : own_entries 0 0 wDev wEvict) by (intros i e [[_ ->]| ->]%wEvict_dirty H; [split; [done|by split]|cbn in H; lia]).
  destruct (read_cluster 0 0 wDev 0 (replicate 32 0) 100 wEvict ltac:(lia) ltac:(lia) eq_refl wDev_geometry
    (wFlash_ready 35 _ 50 wEvict_dirty) HE ltac:(by split)) as (e & s' & E & _ & HR).
  { intros v c [= <-] [= <-] _. split; [cbn; lia|exact wDev_blocks]. }
  { lia. }
  { by split. }
  assert (HP : power (card s') <> 0%nat).
  { assert (HX : match mcman_readcluster 1 (replicate 32 0) 0 0 100 wEvict with Done _ s => negb (Nat.eqb (power (card s)) 0) | _ => false end = true)
      by (vm_compute; reflexivity). rewrite E in HX. intros H0. by rewrite H0 in HX. }
  destruct (HR HP) as (c & Hc & Hi & Hd & HV & _ & _ & HS). exists e, s'. split; [exact E|]. split; [|split].
  - exists c. split; [exact Hc|]. split; [exact Hi|]. rewrite Hd. vm_compute. reflexivity.
  - rewrite HV by (lia || by split). vm_compute. reflexivity.
  - destruct (HS 35%nat wDirty eq_refl eq_refl ltac:(done)) as [_ H9].
    + intros i y [[_ ->]| ->]%wEvict_dirty; reflexivity.
    + transitivity (newCard 0 0 1 wEvict 9); [by apply (H9 9)|]. vm_compute. reflexivity.
Defined.

(** After the flush the manager starts with power for two writes, then with enough. *)
Definition wFlushed : Z -> cell := match mcman_flushcacheentry 1 (replicate 32 0) 0 wFlush with Done _ s => cells (card s) | _ => fun _ => blank end.
Definition wBoot (p : nat) (X : Z -> cell) : mcst flash := wFlash (replicate 36 wBlank) p X.
Definition wOnce : Z -> cell := match mcman_checkBackupBlocks 0 (replicate 32 0) 0 0 (wBoot 2 wFlushed) with Done _ s => cells (card s) | _ => fun _ => blank end.

Lemma wBoot_ok p X : (forall n, cell_ok (X n)) -> booted 0 0 wDev (wBoot p X).
Proof.
  intros HX. assert (He : forall i e, entrycache (wBoot p X) !! i = Some e -> e = wBlank) by (intros i e H; by apply lookup_replicate in H as [-> _]).
  split; [reflexivity| |by intros i e ->%He|cbn; lia|reflexivity|cbn [eccdata wBoot wFlash]; apply length_replicate]. split.
  - reflexivity.
  - reflexivity.
  - intros i e ->%He. apply length_replicate.
  - intros i j a b' ->%He _ H. cbn in H. lia.
  - intros i e ->%He H. cbn in H. lia.
  - exact HX.
Qed.

Lemma wMarks : marks wDev 0xffffffff 0xffffffff (cells (card wFlush)).
Proof. by split. Qed.

Lemma wFlushed_safe : safe wDev 1 (cells (card wFlush)) (newPage 0 0 1 wFlush) wFlushed.
Proof.
  pose proof (wp_writeBack 0 0 wDev 1 wDev_blocks (replicate 32 0) eq_refl wFlush 0 0 wDirty wFlush_ok wMarks eq_refl eq_refl ltac:(done)) as W.
  apply wp_inv in W as (r & s & E & _ & Y & [HS _] & _). unfold wFlushed. rewrite E. exact HS.
Qed.

Lemma wOnce_boot : boot 0 0 wDev (replicate 32 0) wFlushed wOnce.
Proof.
  pose proof (wBoot_ok 2 wFlushed (proj1 (proj1 wFlushed_safe))) as HB.
  pose proof (wp_checkBackup 0 0 wDev 1 wDev_blocks _ _ 0 (replicate 32 0) eq_refl ltac:(lia) ltac:(lia) _ HB wFlushed_safe) as W.
  apply wp_inv in W as (r & s & E & _). exists 0%nat, (wBoot 2 wFlushed), r, s. split_and!; [done|done|exact E|]. unfold wOnce. by rewrite E.
Qed.

Lemma wOnce_ok n : cell_ok (wOnce n).
Proof.
  refine (proj1 (proj1 (boot_safe 0 0 wDev 1 wDev_blocks (replicate 32 0) eq_refl _ _ _ _ wFlushed wOnce _ wFlushed_safe)) n); [lia|lia|].
  apply rtc_once, wOnce_boot.
Qed.

(** Power left, and the first byte of cluster 9, after the last start. *)
Lemma wLast : match mcman_checkBackupBlocks 0 (replicate 32 0) 0 0 (wBoot 50 wOnce) with
  | Done _ s => negb (Nat.eqb (power (card s)) 0) && bool_decide (head (cells (card s) 18).1 = Some 7)
  | _ => false end = true.
Proof. vm_compute. reflexivity. Qed.

Lemma flush_power_loss_witness : exists s' s2, mcman_flushcacheentry 1 (replicate 32 0) 0 wFlush = Done 0 s' /\
  mcman_checkBackupBlocks 0 (replicate 32 0) 0 0 (wBoot 50 wOnce) = Done 0 s2 /\ shows wDev (cells (card s2)) (newCard 0 0 1 wFlush).
Proof.
  destruct (flush_power_loss 0 0 wDev 1 0 (replicate 32 0) 0 wDirty wFlush ltac:(lia) ltac:(lia) eq_refl wDev_blocks wFlush_ok wMarks eq_refl eq_refl ltac:(done))
    as (s' & E & _ & HR).
  assert (E' : cells (card s') = wFlushed) by (unfold wFlushed; by rewrite E). rewrite E' in HR.
  destruct (HR 0%nat (wBoot 50 wOnce) (wBoot_ok 50 wOnce wOnce_ok) (rtc_once _ _ wOnce_boot)) as (s2 & E2 & HV). exists s', s2. split; [exact E|]. split; [exact E2|].
  pose proof wLast as HL. rewrite E2 in HL. apply andb_true_iff in HL as [HP HD%bool_decide_eq_true].
  destruct HV as [HV|[_ HV]]; [intros H0; by rewrite H0 in HP|exact HV|]. exfalso.
  specialize (HV 9 ltac:(vm_compute; discriminate) ltac:(vm_compute; discriminate)). apply (f_equal head) in HV.
  change (2 * 9) with 18 in HV. destruct ((cells (card s2) 18).1) as [|x l]; [done|]. cbn in HD. injection HD as ->. vm_compute in HV. discriminate HV.
Defined.
